(* ===== verification/_CoqProject ===== *)
-Q . S2P
Prelude.v
Bitmap.v
SecurePort.v
Iovec.v
MsgQueue.v
MemKeep.v
Uthread.v
SmCall.v
Sm.v
MemLog.v
Vqueue.v
Handle.v
Ipc.v
IpcInv.v
IpcKeep.v
IpcSafe.v
IpcServe.v
IpcMsg.v
IpcDemo.v
IpcFaults.v
HandleList.v
IpcHandle.v
IpcTouch.v
IpcWait.v
EptTable.v
TipcDev.v
TipcDevInv.v
TipcConn.v
TipcWin.v
TipcRx.v
TipcReset.v
TipcDevDemo.v
TipcDevQl.v
TipcDevQlInv.v
TipcDevQlCmd.v
TipcDevQlEvent.v
TipcDevQlConn.v
TipcDevQlSafe.v
TipcDevQlDemo.v
VirtioBus.v
VirtioBusInv.v
VirtioDescr.v
VirtioCalls.v
VirtioStates.v
TipcConfig.v
TipcBus.v
TipcBusOk.v
TipcBusDemo.v
NsDram.v
Uctx.v
UctxInv.v
UctxDemo.v
CString.v
UartApp.v
UartAppSpec.v
UartAppDemo.v
TrustyApp.v
TrustyAppSpec.v
TrustyAppDemo.v
Boot.v
Syscall.v
SyscallDma.v
SyscallSpec.v
Spd.v
SpdSpec.v
Mce.v
MceSpec.v
Carveout.v
CarveoutSpec.v
Sip.v
SipSpec.v
SlotMeta.v
SlotMetaSpec.v
