(* ===== verification/Prelude.v ===== *)
(** * Trusty on Tegra186: the secure-UART stack, its IPC kernel and its
    secure-monitor interface

    This library models the part of the repository that is its own program
    logic, and proves it correct: the Trusty operating system of the secure
    world ([src/atf_and_trusty/trusty/trusty], below [T]) with the secure UART
    and the application that uses it, the parts of the EL3 firmware
    ([src/atf_and_trusty/atf/arm-trusted-firmware], below [F]) that switch
    between the worlds and serve the vendor's calls, and the boot slots of the boot loader
    ([src/cboot/bootloader/partner], below [C]).

    ** The program

    The normal world asks for secure services with SMC instructions.  The
    firmware keeps the registers of both worlds and switches between them
    ([F/services/spd/trusty]); its other calls move the protected video memory
    and pass commands to the power controller ([F/plat/nvidia/tegra]).  In the
    secure world the SM library takes the calls: fast calls are dispatched by
    their entity, standard calls are handed one at a time to a thread
    ([T/lk/trusty/lib/sm]).  Through them the normal world sets up virtio devices, or
    a device without queues, and exchanges messages with the ports that trusted
    applications serve ([T/lk/trusty/lib/trusty]: virtio, tipc, IPC ports,
    channels, message queues, handles).  Applications run in user address
    spaces ([T/lk/trusty/lib/uthread]), are loaded from ELF images with a
    manifest, and use system calls: IPC, files, memory, DMA, and on this board
    the secure UART ([T/tegra/public/platform]), over which the UART
    application ([T/app/nvidia-sample/UART]) talks to a camera.  All of this
    exists twice on the disk; which copy boots, the boot loader decides from a table
    that it keeps there ([C/common/lib/a_b_boot]).

    ** How the code is modelled

    A routine is a function of a state monad, [M S A] of this file: it answers
    [Done a s], or [Crash w] when an assertion fails or the code panics
    ([Panic]) or uses memory or an object that is not there ([BadAccess]).  The
    state of a file is a record with the code's statics and objects.  C integers are
    [Z] with their wrap-around written out ([u8], [u16], [u32], [u64],
    [uwrap], [swrap]).  Objects that are linked and counted (ports, channels, handles)
    lie in a heap from which they are really freed.  Memory is a finite
    map from addresses to bytes.  Memory that the other world shares may change at any load: its contents are
    a parameter indexed by the number of the access, or a schedule of changes.
    Hardware registers are parameters of the same kind, and every store is
    logged.  Code under a lock is one step; where the code has no lock, or gives it up, the
    steps interleave.

    ** The files, bottom up

    - [Prelude]: errors ([T/lk/common/include/err.h]), machine integers,
      the monad, automation ([run_step], [case_match_eq], [zbool], [dlia],
      the hint database [trusty] and the rewriting base [trusty_rw]) and lemmas on lists
      and integers; [Bitmap]: [bits.h].
    - UART: [SecurePort] is [secure_port.c], [debug.c], [combined_uart.c] and
      the system calls of [secure_uart.c].
    - Copies and messages: [Iovec] is [usercopy.S] and [iovec.c]; [MsgQueue] is the queue
      of [ipc_msg.c]; [MemKeep]: transfers take no memory away.
    - Address spaces: [Uthread] is [uthread.c] and the mapping code of its arm64 part.
    - Secure monitor: [SmCall] is [sm/smcall.c], [ns_mem.c] and [trusty/smcall.c]; [Sm] is
      [sm.c]; [MemLog] is [memlog.c].
    - IPC: [Handle] and [HandleList] are [handle.c]; [Ipc] is [ipc.c] with
      the channel operations of [ipc_msg.c]; [IpcInv] its invariant, [IpcKeep], [IpcSafe], [IpcServe],
      [IpcMsg] the theorems, [IpcFaults] the states that one operation breaks, [IpcDemo] a concrete
      graph; [IpcHandle] gives ports and channels the interface of [HandleList], [IpcTouch] and
      [IpcWait] say what counting and polling touch.
    - Devices of the normal world: [Vqueue] is [vqueue.c]; [EptTable] the table of
      endpoints that both devices share; [TipcDev] is [tipc_dev.c], with [TipcDevInv] (invariant),
      [TipcConn] (connecting and sending), [TipcWin] (queues and windows), [TipcRx] (the receive thread),
      [TipcReset], [TipcDevDemo]; [TipcDevQl] is [tipc_dev_ql.c], with [TipcDevQlInv],
      [TipcDevQlCmd], [TipcDevQlEvent], [TipcDevQlConn], [TipcDevQlSafe], [TipcDevQlDemo];
      [VirtioBus] is [trusty_virtio.c], with [VirtioBusInv], [VirtioDescr] (the resource table), [VirtioCalls],
      [VirtioStates]; [TipcConfig] is [tipc_config.c]; [TipcBus], [TipcBusOk], [TipcBusDemo]
      put the devices on the buses.
    - Applications: [Uctx] is [uctx.c] and the IPC system calls, with [UctxInv], [UctxDemo]; [TrustyApp] is
      [trusty_app.c], with [TrustyAppSpec], [TrustyAppDemo]; [Syscall] is [syscall.c] and [ioctl.c], with
      [SyscallDma], [SyscallSpec]; [CString] is libc's string functions; [UartApp] is the UART application,
      with [UartAppSpec], [UartAppDemo].
    - Platform: [NsDram] is [common_platform.c]; [Boot] is [boot.c] and [t18x/platform.c].
    - Firmware: [Spd] is the Trusty dispatcher, with [SpdSpec]; [Mce] is [ari.c], [nvg.c], [mce.c], with
      [MceSpec]; [Carveout] is the video memory of [memctrl_v2.c], with [CarveoutSpec]; [Sip] is
      [tegra_sip_calls.c], [plat_sip_calls.c], [tegra_fiq_glue.c], with [SipSpec].
    - Boot loader: [SlotMeta] is [tegrabl_a_b_boot_control.c] and what its users do about
      slots, with [SlotMetaSpec].

    A definition has the name of the function it models.  A loop of the code is a
    [Fixpoint] named after it; a part of a function that stands alone has a
    name of its own.

    ** Interfaces

    [HandleOps] and [HandleLaws] ([HandleList]) state what waiting needs of an
    object with a handle; ports and channels discharge them in
    [IpcHandle].  [Vdevs] and [VdevsOk], [VdevAlloc] and [VdevAllocOk]
    ([VirtioBus], [VirtioBusInv], [TipcConfig]) state what a bus needs of its devices; the tipc
    devices discharge them in [TipcBusOk].  [Platform] ([Vqueue]), [machine]
    ([Mce]), [platform] ([Carveout]) and [storage] ([SlotMeta]) are classes of the hardware that a part runs on.

    ** What is proved

    - Functional behaviour and refinement: the bytes on the line and in the log;
      queues as first-in first-out sequences; every IPC operation on every branch; each message of the normal world routed to the
      connection it names; every call of a virtio bus a step of a four-state machine; the
      standard-call machinery a one-call-at-a-time protocol that runs each call
      once; the manifest as a sequence of entries; the pieces of a DMA transfer against the translation byte by byte;
      which ranges are non-secure; when the video memory moves.
    - Invariants and safety: the object graph of ports and channels, endpoint
      tables, handle tables, address spaces, buses and both devices stay sound
      whatever the normal world sends or changes, the inputs apart that fault the kernel; keys are given out at most once; of the two
      worlds exactly one runs on a processor and its registers come back; protected video data
      is never outside protected memory before it is cleared.
    - The boot table: a loss of power while it is written, any number of times up to the first write that fails, never leaves a
      board that finds no table; the slot that is made
      active is the next to boot; boots that fail pass from one slot to the other and end in recovery.
    - Round trips (scatter and gather, resource tables, registers across a switch, power states), bounds of
      every access to shared rings, errors without effects, fairness of waiting, and termination
      of the polling loops and of the loops over shared rings and tables.

    Theorems with hypotheses have a witness at a concrete state, named after
    them with [_witness]; the [...Demo] files hold the states.

    ** Fuel and bounds

    Recursion is structural where the code counts down.  Elsewhere a
    function takes fuel, an answer [None] means that it ran out, and a theorem
    shows when it does not: polling the UART ends when the clock, which goes on,
    passes the time-out ([poll_loop_ends], [secure_uart_putc_terminates]); a descriptor chain
    grows the table of the caller with every step, so that fuel above its capacity is enough
    ([vqueue_get_avail_buf_safe]; [chain_fuel] is 2 because the buffers of a tipc device hold one descriptor);
    each piece of [dma_loop] is not empty, so that the size of the range is enough; an
    entry of the table that [register_loop] reads has 16 bytes, so that fuel above the mapped size over 16 is enough; the scans of strings take
    the size of the memory plus one, since a scan that passes all of it leaves it; [clear_registers] writes [gsc_words], 16,
    registers; a power request is polled ARI_MAX_RETRY_COUNT, two million, times as in the code; [memlog] writes in
    chunks that shorten the message.  Threads that the code never ends take as fuel the number
    of rounds they are watched; what is proved holds for every number.

    ** What is assumed

    No axiom.  Parameters stand for code that is not under [src/] or is not modelled: the answers of hardware and of
    the other world, the allocator ([malloc] may fail at any time), the page-table walker and the address
    translation instruction, the answers of the hypervisor, the initial contents of a processor context.  Hypotheses on them are named in
    the Sections and classes, and witnesses instantiate them: the clock never runs back and never stops for good
    ([running_clock]); what other threads do while one waits keeps the components consistent ([others_good],
    [others_idle], [others_step]); mappings are fresh and page-aligned.  A theorem on an operation assumes the invariant of its
    component ([inv], [good], [buses_ok], [ql_ok]); the Lemmas and Examples on the code's faults show which states
    and inputs these leave out (a client that a port refuses, a descriptor that nobody checks, a command longer than its
    buffer, a guest that is counted without a bus).

    ** Not modelled, and why

    - The LK kernel (threads, scheduler, timers, heap, page tables): upstream code under
      the components here; its locks are the atomicity of the steps, its events the order of the steps.
    - In the firmware: PSCI, the interrupt controller, the stream-id tables and the other chips:
      register programming whose meaning is the hardware manual's.
    - The rest of the boot loader (cboot): drivers, device trees, loading and authentication of images, and its
      generated register headers, which are most lines of the repository; [Linux_for_Tegra]: scripts for another machine.
      The stages before cboot (MB1, MB2), which follow the table that [SlotMeta] keeps, are not in the repository.
    - The client application of the normal world: Linux user space that parses arguments
      and opens a device.
    - Within modelled files: thread entry and exit of [uthread.c], the
      atomics of [bits.h], debug output, and the hooks that fill in tables at link
      time. *)

From stdpp Require Export base tactics option list numbers gmap sets strings.
From Stdlib Require Export ZArith Lia.

Declare Scope trusty_scope.
Delimit Scope trusty_scope with trusty.
#[global] Open Scope Z_scope.
#[global] Open Scope trusty_scope.

(** ** Error codes ([lk/common/include/err.h]) *)

Definition NO_ERROR : Z := 0.
Definition ERR_NOT_FOUND : Z := -2.
Definition ERR_NOT_READY : Z := -3.
Definition ERR_NO_MSG : Z := -4.
Definition ERR_NO_MEMORY : Z := -5.
Definition ERR_ALREADY_STARTED : Z := -6.
Definition ERR_NOT_VALID : Z := -7.
Definition ERR_INVALID_ARGS : Z := -8.
Definition ERR_NOT_ENOUGH_BUFFER : Z := -9.
Definition ERR_TIMED_OUT : Z := -13.
Definition ERR_ALREADY_EXISTS : Z := -14.
Definition ERR_CHANNEL_CLOSED : Z := -15.
Definition ERR_NOT_ALLOWED : Z := -17.
Definition ERR_NOT_SUPPORTED : Z := -24.
Definition ERR_TOO_BIG : Z := -25.
Definition ERR_BAD_STATE : Z := -31.
Definition ERR_BAD_LEN : Z := -32.
Definition ERR_NOT_CONFIGURED : Z := -38.
Definition ERR_FAULT : Z := -40.
Definition ERR_NO_RESOURCES : Z := -41.
Definition ERR_BAD_HANDLE : Z := -42.
Definition ERR_ACCESS_DENIED : Z := -43.

(** ** Machine integers

    An unsigned C integer of width [w] is a [Z] in [0, 2^w); arithmetic that
    may leave the range is followed by [uwrap w].  [swrap w] reinterprets a
    [w]-bit pattern as a two's complement number. *)

Definition uwrap (w : Z) (x : Z) : Z := x mod 2 ^ w.
Definition u8 (x : Z) : Z := uwrap 8 x.
Definition u16 (x : Z) : Z := uwrap 16 x.
Definition u32 (x : Z) : Z := uwrap 32 x.
Definition u64 (x : Z) : Z := uwrap 64 x.
Definition swrap (w : Z) (x : Z) : Z :=
  let y := uwrap w x in if y <? 2 ^ (w - 1) then y else y - 2 ^ w.
Definition s32 (x : Z) : Z := swrap 32 x.

(** C's [&&]-style flag test: [x & m] is non-zero. *)
Definition has_flag (x m : Z) : bool := negb (Z.land x m =? 0).

(** [lk/common/include/compiler.h], [stdlib.h]: rounding to a multiple of a
    power of two, as the masks of the source compute it on [w]-bit values. *)
Definition ROUNDUP (a b : Z) : Z := Z.land (u64 (a + (b - 1))) (u64 (Z.lnot (b - 1))).
Definition ROUNDDOWN (a b : Z) : Z := Z.land (u64 a) (u64 (Z.lnot (b - 1))).
Definition PAGE_SIZE : Z := 4096.

(** The same macros when [b] is a 32-bit [u_int]: the complement is taken at
    32 bits, so the mask also clears the upper half of the 64-bit operand. *)
Definition ROUNDUP_u (a b : Z) : Z := Z.land (u64 (a + (b - 1))) (u32 (Z.lnot (b - 1))).
Definition ROUNDDOWN_u (a b : Z) : Z := Z.land (u64 a) (u32 (Z.lnot (b - 1))).

(** ** Outcomes

    A kernel routine either finishes with a value and a new state, or stops
    the machine: [Panic] for a failed [ASSERT], [DEBUG_ASSERT] or [assert] and
    for a call of [panic()], [BadAccess] for a load or store through a pointer
    that does not point to a live object. *)

Inductive crash : Set :=
| Panic
| BadAccess.

#[export] Instance crash_eq_dec : EqDecision crash.
Proof. solve_decision. Defined.

Inductive outcome (S A : Type) : Type :=
| Done (a : A) (s : S)
| Crash (why : crash).
Arguments Done {S A} a s.
Arguments Crash {S A} why.

Definition M (S A : Type) : Type := S -> outcome S A.

Section Monad.
Context {S : Type}.

Definition ret {A} (a : A) : M S A := fun s => Done a s.
Definition bind {A B} (m : M S A) (f : A -> M S B) : M S B :=
  fun s => match m s with
           | Done a s' => f a s'
           | Crash w => Crash w
           end.
Definition get : M S S := fun s => Done s s.
Definition put (s : S) : M S unit := fun _ => Done tt s.
Definition gets {A} (f : S -> A) : M S A := fun s => Done (f s) s.
Definition modify (f : S -> S) : M S unit := fun s => Done tt (f s).
Definition panic {A} : M S A := fun _ => Crash Panic.
Definition bad_access {A} : M S A := fun _ => Crash BadAccess.

(** [ASSERT(b)]. *)
Definition assert_ (b : bool) : M S unit :=
  if b then ret tt else panic.

(** Dereference of a pointer whose target may be absent. *)
Definition deref {A} (o : option A) : M S A :=
  match o with Some a => ret a | None => bad_access end.

(** Run [m] from [s]: it finishes, and value and state satisfy [Q]. *)
Definition runs {A} (m : M S A) (s : S) (Q : A -> S -> Prop) : Prop :=
  match m s with
  | Done a s' => Q a s'
  | Crash _ => False
  end.
End Monad.

Notation "x <- m ;; k" := (bind m (fun x => k))
  (at level 90, m at next level, right associativity) : trusty_scope.
Notation "m ;;; k" := (bind m (fun _ => k))
  (at level 90, right associativity) : trusty_scope.

(** A run that is not over yet (a wait or a loop that goes on) answers
    [None]. *)
Section Unfinished.
Context {S : Type}.
Definition tret {A} (a : A) : M S (option A) := ret (Some a).
Definition tbind {A B} (m : M S (option A)) (f : A -> M S (option B)) : M S (option B) :=
  o <- m ;; match o with Some a => f a | None => ret None end.
Definition tlift {A} (m : M S A) : M S (option A) := a <- m ;; tret a.
End Unfinished.

Notation "x <~ m ;; k" := (tbind m (fun x => k))
  (at level 90, m at next level, right associativity) : trusty_scope.
Notation "m ~;; k" := (tbind m (fun _ => k))
  (at level 90, right associativity) : trusty_scope.

Lemma tbind_run {S A B} (m : M S (option A)) (f : A -> M S (option B)) s a s' :
  m s = Done (Some a) s' -> tbind m f s = f a s'.
Proof. intros Hm. unfold tbind, bind. by rewrite Hm. Qed.

Lemma bind_done {S A B} (m : M S A) (f : A -> M S B) s a s' : m s = Done a s' -> bind m f s = f a s'.
Proof. intros Hm. unfold bind. by rewrite Hm. Qed.

Lemma runs_ret {S A} (a : A) (s : S) (Q : A -> S -> Prop) :
  Q a s -> runs (ret a) s Q.
Proof. done. Qed.

Lemma runs_bind {S A B} (m : M S A) (f : A -> M S B) s Q :
  runs (bind m f) s Q <-> runs m s (fun a s' => runs (f a) s' Q).
Proof. unfold runs, bind. by destruct (m s). Qed.

Lemma runs_assoc {S A B C} (m : M S A) (f : A -> M S B) (g : B -> M S C) s Q :
  runs (bind (bind m f) g) s Q -> runs (bind m (fun a => bind (f a) g)) s Q.
Proof. unfold runs, bind. by destruct (m s). Qed.

Lemma runs_mono {S A} (m : M S A) s (Q Q' : A -> S -> Prop) :
  runs m s Q -> (forall a s', Q a s' -> Q' a s') -> runs m s Q'.
Proof. unfold runs. destruct (m s); [eauto | done]. Qed.

Lemma runs_assert {S} (b : bool) (s : S) Q :
  b = true -> Q tt s -> runs (assert_ b) s Q.
Proof. by intros ->. Qed.

Lemma runs_deref {S A} (o : option A) (a : A) (s : S) Q :
  o = Some a -> Q a s -> runs (deref o) s Q.
Proof. by intros ->. Qed.

Lemma runs_done {S A} (m : M S A) s Q :
  runs m s Q <-> exists a s', m s = Done a s' /\ Q a s'.
Proof.
  unfold runs. destruct (m s) as [a s'|w]; [|naive_solver].
  split; [eauto | intros (?&?&?&?); by simplify_eq].
Qed.

(** The same when a deliberate stop of the machine ([Panic]) is allowed. *)
Definition safely {S A} (m : M S A) (s : S) (Q : A -> S -> Prop) : Prop :=
  match m s with
  | Done a s' => Q a s'
  | Crash w => w = Panic
  end.

Lemma safely_ret {S A} (a : A) (s : S) (Q : A -> S -> Prop) : Q a s -> safely (ret a) s Q.
Proof. done. Qed.

Lemma safely_bind {S A B} (m : M S A) (f : A -> M S B) s Q :
  safely m s (fun a s' => safely (f a) s' Q) -> safely (bind m f) s Q.
Proof. unfold safely, bind. by destruct (m s). Qed.

Lemma safely_mono {S A} (m : M S A) s (Q Q' : A -> S -> Prop) :
  safely m s Q -> (forall a s', Q a s' -> Q' a s') -> safely m s Q'.
Proof. unfold safely. destruct (m s); eauto. Qed.

Lemma safely_panic {S A} (s : S) (Q : A -> S -> Prop) : safely panic s Q.
Proof. done. Qed.

Lemma safely_assert {S} b (s : S) Q : (b = true -> Q tt s) -> safely (assert_ b) s Q.
Proof. destruct b; simpl; intros H; [by apply H|done]. Qed.

Lemma safely_deref {S A} (o : option A) (a : A) (s : S) Q : o = Some a -> Q a s -> safely (deref o) s Q.
Proof. by intros ->. Qed.

Lemma runs_safely {S A} (m : M S A) s Q : runs m s Q -> safely m s Q.
Proof. unfold runs, safely. by destruct (m s). Qed.

(** A run that may go on for ever: what holds when it is over. *)
Definition tsafely {S A} (m : M S (option A)) (s : S) (Q : A -> S -> Prop) : Prop :=
  safely m s (fun o s' => match o with Some a => Q a s' | None => True end).

Lemma tsafely_tret {S A} (a : A) (s : S) (Q : A -> S -> Prop) : Q a s -> tsafely (tret a) s Q.
Proof. done. Qed.

Lemma tsafely_none {S A} (s : S) (Q : A -> S -> Prop) : tsafely (ret None) s Q.
Proof. done. Qed.

Lemma tsafely_tbind {S A B} (m : M S (option A)) (f : A -> M S (option B)) s Q :
  tsafely m s (fun a s' => tsafely (f a) s' Q) -> tsafely (tbind m f) s Q.
Proof. unfold tsafely, safely, tbind, bind. destruct (m s) as [[a|] s'|w]; done. Qed.

Lemma tsafely_bind {S A B} (m : M S A) (f : A -> M S (option B)) s Q :
  safely m s (fun a s' => tsafely (f a) s' Q) -> tsafely (bind m f) s Q.
Proof. unfold tsafely. apply safely_bind. Qed.

Lemma tsafely_tlift {S A} (m : M S A) (s : S) (Q : A -> S -> Prop) : safely m s Q -> tsafely (tlift m) s Q.
Proof. unfold tsafely, tlift, safely, bind. by destruct (m s). Qed.

Lemma tsafely_mono {S A} (m : M S (option A)) s (Q Q' : A -> S -> Prop) :
  tsafely m s Q -> (forall a s', Q a s' -> Q' a s') -> tsafely m s Q'.
Proof. intros Hm HQ. eapply safely_mono; [exact Hm|]. intros [a|] s'; auto. Qed.

(** The hint databases of the development: [trusty] for applicable facts,
    [trusty_rw] for rewriting. *)
Create HintDb trusty.

(** Symbolic execution of a monadic term under [runs]. *)
Ltac run_step :=
  first
    [ apply runs_ret
    | apply runs_bind; cbn beta
    | (eapply runs_deref; [eassumption|])
    | (eapply runs_assert; [eassumption|]) ].

(** Break one [match] or [if] of the goal, keeping the equation. *)
Ltac case_match_eq :=
  match goal with
  | |- context [ if ?b then _ else _ ] => let E := fresh "E" in destruct b eqn:E
  | |- context [ match ?x with _ => _ end ] => let E := fresh "E" in destruct x eqn:E
  end.

(** Boolean comparisons on [Z] to their propositions. *)
Ltac zbool :=
  repeat match goal with
  | H : (_ =? _) = true |- _ => apply Z.eqb_eq in H
  | H : (_ =? _) = false |- _ => apply Z.eqb_neq in H
  | H : (_ <? _) = true |- _ => apply Z.ltb_lt in H
  | H : (_ <? _) = false |- _ => apply Z.ltb_ge in H
  | H : (_ <=? _) = true |- _ => apply Z.leb_le in H
  | H : (_ <=? _) = false |- _ => apply Z.leb_gt in H
  | H : (_ && _)%bool = true |- _ => apply andb_true_iff in H as [? ?]
  | H : (_ || _)%bool = false |- _ => apply orb_false_iff in H as [? ?]
  | H : negb _ = true |- _ => apply negb_true_iff in H
  | H : negb _ = false |- _ => apply negb_false_iff in H
  end.

(** [lia] over quotients and remainders by constants. *)
Ltac dlia := Z.div_mod_to_equations; lia.

(** ** Generic facts on machine integers *)

Lemma has_flag_lor_l x y m : has_flag x m = true -> has_flag (Z.lor x y) m = true.
Proof.
  unfold has_flag. intros H. apply negb_true_iff in H. apply negb_true_iff.
  apply Z.eqb_neq in H. apply Z.eqb_neq. intros H0. apply H.
  apply Z.bits_inj'. intros n Hn. apply (f_equal (fun z => Z.testbit z n)) in H0.
  rewrite Z.land_spec, Z.lor_spec, Z.testbit_0_l in H0. rewrite Z.land_spec, Z.testbit_0_l.
  by destruct (Z.testbit x n), (Z.testbit m n), (Z.testbit y n).
Qed.

Lemma has_flag_pow2 x k : 0 <= k -> has_flag x (2 ^ k) = Z.testbit x k.
Proof.
  intros Hk. unfold has_flag. destruct (Z.testbit x k) eqn:E.
  - apply negb_true_iff, Z.eqb_neq. intros H. apply (f_equal (fun z => Z.testbit z k)) in H.
    by rewrite Z.land_spec, E, Z.pow2_bits_true, Z.testbit_0_l in H.
  - apply negb_false_iff, Z.eqb_eq, Z.bits_inj'. intros n Hn.
    rewrite Z.land_spec, Z.testbit_0_l, Z.pow2_bits_eqb by done.
    destruct (k =? n) eqn:En; [|apply andb_false_r]. apply Z.eqb_eq in En. subst. by rewrite E.
Qed.

Lemma testbit_div_mod x k : 0 <= k -> Z.testbit x k = (x / 2 ^ k mod 2 =? 1).
Proof.
  intros. rewrite Z.testbit_odd, Z.shiftr_div_pow2 by done. rewrite Zodd_mod. reflexivity.
Qed.

(** Fields that do not overlap: a disjunction is a sum. *)
Lemma lor_shiftl_add a b k : 0 <= k -> 0 <= b < 2 ^ k -> Z.lor (Z.shiftl a k) b = Z.shiftl a k + b.
Proof.
  intros Hk Hb. rewrite <- Z.add_lor_land.
  assert (Z.land (Z.shiftl a k) b = 0) as ->; [|lia].
  apply Z.bits_inj'. intros n Hn. rewrite Z.land_spec, Z.testbit_0_l.
  destruct (Z.lt_ge_cases n k).
  - by rewrite Z.shiftl_spec_low.
  - destruct (Z.eq_dec b 0) as [->|]; [by rewrite Z.testbit_0_l, andb_false_r|].
    rewrite (Z.bits_above_log2 b n); [apply andb_false_r|lia|].
    apply Z.log2_lt_pow2; [lia|]. pose proof (Z.pow_le_mono_r 2 k n). lia.
Qed.

Lemma uwrap_range w x : 0 <= w -> 0 <= uwrap w x < 2 ^ w.
Proof. intros. apply Z.mod_pos_bound. by apply Z.pow_pos_nonneg. Qed.

Lemma uwrap_small w x : 0 <= x < 2 ^ w -> uwrap w x = x.
Proof. apply Z.mod_small. Qed.

Lemma uwrap_testbit w x n : 0 <= w -> 0 <= n ->
  Z.testbit (uwrap w x) n = (n <? w) && Z.testbit x n.
Proof.
  intros Hw Hn. unfold uwrap. destruct (n <? w) eqn:E; zbool.
  - by rewrite Z.mod_pow2_bits_low by lia.
  - by rewrite Z.mod_pow2_bits_high by lia.
Qed.

Lemma uwrap_add_l w x y : uwrap w (uwrap w x + y) = uwrap w (x + y).
Proof. unfold uwrap. by rewrite Zplus_mod_idemp_l. Qed.

Lemma uwrap_add_r w x y : uwrap w (x + uwrap w y) = uwrap w (x + y).
Proof. unfold uwrap. by rewrite Zplus_mod_idemp_r. Qed.

Lemma uwrap_sub_l w x y : uwrap w (uwrap w x - y) = uwrap w (x - y).
Proof. unfold uwrap. by rewrite Zminus_mod_idemp_l. Qed.

Lemma uwrap_sub_r w x y : uwrap w (x - uwrap w y) = uwrap w (x - y).
Proof. unfold uwrap. by rewrite Zminus_mod_idemp_r. Qed.

Create Rewrite HintDb trusty_rw.
#[export] Hint Rewrite uwrap_add_l uwrap_add_r uwrap_sub_l uwrap_sub_r : trusty_rw.

Lemma below_pow2 x w : 0 <= x -> 0 <= w -> (forall n, w <= n -> Z.testbit x n = false) -> x < 2 ^ w.
Proof.
  intros Hx Hw Hn. destruct (Z.eq_dec x 0) as [->|]; [by apply Z.pow_pos_nonneg|].
  apply Z.log2_lt_pow2; [lia|].
  destruct (Z.lt_ge_cases (Z.log2 x) w) as [|Hge]; [done|].
  pose proof (Z.bit_log2 x ltac:(lia)) as Hb. by rewrite (Hn _ Hge) in Hb.
Qed.

(** Masking with a power of two is the remainder. *)
Lemma land_pow2_mask x k : 0 <= k -> Z.land x (2 ^ k - 1) = x mod 2 ^ k.
Proof. intros. by rewrite <- Z.land_ones, Z.ones_equiv, <- Z.sub_1_r by lia. Qed.

(** Clearing the low [k] bits of a [w]-bit value rounds it down. *)
Lemma land_clear_low w x k : 0 <= k < w -> 0 <= x < 2 ^ w ->
  Z.land x (uwrap w (Z.lnot (2 ^ k - 1))) = x - x mod 2 ^ k.
Proof.
  intros Hk Hx.
  rewrite <- (land_pow2_mask x k) by lia.
  assert (H : Z.land x (uwrap w (Z.lnot (2 ^ k - 1))) = Z.ldiff x (2 ^ k - 1)).
  { apply Z.bits_inj'. intros n Hn.
    rewrite Z.land_spec, Z.ldiff_spec.
    rewrite uwrap_testbit, Z.lnot_spec by lia.
    destruct (n <? w) eqn:E; [done|]. zbool.
    replace (Z.testbit x n) with false; [done|].
    symmetry. destruct (decide (x = 0)) as [->|]; [by rewrite Z.testbit_0_l|].
    apply Z.bits_above_log2; [lia|].
    apply Z.log2_lt_pow2; [lia|]. eapply Z.lt_le_trans; [apply Hx|].
    apply Z.pow_le_mono_r; lia. }
  rewrite H. pose proof (Z.add_lor_land (Z.ldiff x (2 ^ k - 1)) (Z.land x (2 ^ k - 1))) as Ha.
  rewrite Z.land_comm with (a := Z.ldiff _ _) in Ha.
  assert (Z.land (Z.land x (2 ^ k - 1)) (Z.ldiff x (2 ^ k - 1)) = 0) as H0.
  { apply Z.bits_inj'. intros n Hn. rewrite !Z.land_spec, Z.ldiff_spec, Z.testbit_0_l.
    by destruct (Z.testbit x n), (Z.testbit (2 ^ k - 1) n). }
  rewrite H0 in Ha.
  replace (Z.lor (Z.ldiff x (2 ^ k - 1)) (Z.land x (2 ^ k - 1))) with x in Ha; [lia|].
  apply Z.bits_inj'. intros n Hn. rewrite Z.lor_spec, Z.land_spec, Z.ldiff_spec.
  by destruct (Z.testbit x n), (Z.testbit (2 ^ k - 1) n).
Qed.

Lemma ROUNDDOWN_spec a k : 0 <= k < 64 -> 0 <= a < 2 ^ 64 ->
  ROUNDDOWN a (2 ^ k) = a - a mod 2 ^ k.
Proof.
  intros. unfold ROUNDDOWN, u64. rewrite land_clear_low; [|lia|by apply uwrap_range].
  by rewrite uwrap_small by lia.
Qed.

Lemma ROUNDUP_spec a k : 0 <= k < 64 -> 0 <= a -> a + 2 ^ k <= 2 ^ 64 ->
  ROUNDUP a (2 ^ k) = (a + (2 ^ k - 1)) - (a + (2 ^ k - 1)) mod 2 ^ k.
Proof.
  intros. assert (0 < 2 ^ k) by (apply Z.pow_pos_nonneg; lia).
  unfold ROUNDUP, u64.
  rewrite uwrap_small by lia. apply land_clear_low; lia.
Qed.

Lemma ROUNDDOWN_u_spec a k : 0 <= k < 32 -> 0 <= a < 2 ^ 32 ->
  ROUNDDOWN_u a (2 ^ k) = a - a mod 2 ^ k.
Proof.
  intros. unfold ROUNDDOWN_u, u32, u64. rewrite (uwrap_small 64) by lia.
  by apply land_clear_low.
Qed.

Lemma ROUNDUP_u_spec a k : 0 <= k < 32 -> 0 <= a -> a + 2 ^ k <= 2 ^ 32 ->
  ROUNDUP_u a (2 ^ k) = (a + (2 ^ k - 1)) - (a + (2 ^ k - 1)) mod 2 ^ k.
Proof.
  intros. assert (0 < 2 ^ k) by (apply Z.pow_pos_nonneg; lia).
  unfold ROUNDUP_u, u32, u64. rewrite (uwrap_small 64) by lia.
  apply land_clear_low; lia.
Qed.

Lemma ROUNDDOWN_u_range a b : 0 <= ROUNDDOWN_u a b < 2 ^ 32.
Proof.
  unfold ROUNDDOWN_u. pose proof (uwrap_range 32 (Z.lnot (b - 1))). unfold u32, u64 in *.
  pose proof (uwrap_range 64 a). split; [apply Z.land_nonneg; lia|].
  apply below_pow2; [apply Z.land_nonneg; lia|lia|].
  intros n Hn. rewrite Z.land_spec, (uwrap_testbit 32) by lia.
  destruct (n <? 32) eqn:E; zbool; [lia|]. by rewrite andb_false_r.
Qed.

(** ** Lists *)

(** Removal of the first occurrence: [list_delete] of a node that is linked. *)
Fixpoint remove_first {A} `{EqDecision A} (x : A) (l : list A) : list A :=
  match l with
  | [] => []
  | y :: l' => if decide (x = y) then l' else y :: remove_first x l'
  end.

(** Replacing one entry of a list, seen through [omap]. *)
Lemma omap_update {A B} (f : A -> option B) (l : list A) i x y : l !! i = Some x ->
  option_list (f x) ++ omap f (<[i := y]> l) ≡ₚ option_list (f y) ++ omap f l.
Proof.
  intros Hi. assert (Hl : (i < length l)%nat) by (by eapply lookup_lt_Some).
  rewrite <- (take_drop_middle l i x Hi) at 2. rewrite insert_take_drop by done.
  rewrite !omap_app. simpl. destruct (f x), (f y); simpl; solve_Permutation.
Qed.

Lemma elem_of_omap_lookup {A B} (f : A -> option B) (l : list A) i a x : l !! i = Some a -> f a = Some x -> x ∈ omap f l.
Proof. intros Hi Hf. apply list_elem_of_omap. exists a. split; [by eapply list_elem_of_lookup_2|done]. Qed.

Lemma omap_NoDup_inj {A B} (f : A -> option B) (l : list A) i j a b x : NoDup (omap f l) ->
  l !! i = Some a -> l !! j = Some b -> f a = Some x -> f b = Some x -> i = j.
Proof.
  revert i j. induction l as [|c l IH]; intros i j; simpl; [done|]. intros Hnd Hi Hj Ha Hb.
  assert (Hl : NoDup (omap f l)).
  { destruct (f c); simpl in Hnd; [by apply NoDup_cons in Hnd as [_ ?]|done]. }
  assert (Hhd : forall k e, l !! k = Some e -> f c = Some x -> f e = Some x -> False).
  { intros k e Hk Hc He. rewrite Hc in Hnd. simpl in Hnd. apply NoDup_cons in Hnd as [Hnd _]. apply Hnd.
    by eapply elem_of_omap_lookup. }
  destruct i as [|i], j as [|j]; simpl in *; simplify_eq; try done.
  - exfalso. by eapply Hhd.
  - exfalso. by eapply Hhd.
  - f_equal. by eapply IH.
Qed.

Section RemoveFirst.
Context {A : Type} `{EqDecision A}.
Implicit Types (x y : A) (l : list A).

Lemma remove_first_subseteq x y l : y ∈ remove_first x l -> y ∈ l.
Proof.
  induction l as [|z l IH]; simpl; [done|].
  case_decide; set_solver.
Qed.

Lemma remove_first_NoDup x l : NoDup l -> NoDup (remove_first x l).
Proof.
  induction 1 as [|z l Hz Hl IH]; simpl; [constructor|].
  case_decide; [done|]. constructor; [|done].
  intros Hin%remove_first_subseteq. done.
Qed.

Lemma remove_first_other x y l : y ∈ l -> y ≠ x -> y ∈ remove_first x l.
Proof.
  intros Hy Hne. induction l as [|z l IH]; simpl; [done|]. case_decide as Hx; [subst|]; set_solver.
Qed.

Lemma elem_of_remove_first x y l : NoDup l ->
  y ∈ remove_first x l <-> y ∈ l /\ y ≠ x.
Proof.
  induction 1 as [|z l Hz Hl IH]; simpl; [set_solver|].
  case_decide as Hx; [subst|]; set_solver.
Qed.

Lemma remove_first_not_elem x l : x ∉ l -> remove_first x l = l.
Proof.
  induction l as [|z l IH]; simpl; [done|]. intros.
  case_decide; [set_solver|]. rewrite IH; set_solver.
Qed.

Lemma length_remove_first x l : x ∈ l -> S (length (remove_first x l)) = length l.
Proof.
  induction l as [|z l IH]; simpl; [set_solver|].
  intros Hin. case_decide as Hx; [done|]. simpl. rewrite IH; set_solver.
Qed.

Lemma remove_first_perm x l : x ∈ l -> l ≡ₚ x :: remove_first x l.
Proof.
  induction l as [|z l IH]; simpl; [set_solver|].
  intros Hin. case_decide as Hx; [by subst|].
  rewrite Permutation_swap. f_equiv. apply IH. set_solver.
Qed.
End RemoveFirst.

#[export] Hint Resolve remove_first_NoDup : trusty.
