(* ===== verification/Bitmap.v ===== *)
(** * Bitmaps ([lk/common/include/bits.h])

    The bitmaps that record which handle-table slots and which endpoint
    addresses are in use.  The source declares a bitmap as an array of
    [unsigned long] but updates it through an [int] pointer: [bitmap_set] and
    [bitmap_clear] address 32-bit words, [bitmap_test] and [bitmap_ffz] 64-bit
    words.  The model keeps the memory as its 32-bit words and reads a 64-bit
    word as two of them, low half first (AArch64 is little-endian).  An access
    outside the array gives [None]. *)

From S2P Require Import Prelude.

Module Bitmap.

Notation bitmap := (list Z).

Definition BITMAP_BITS_PER_WORD : Z := 64.
Definition BITMAP_NUM_WORDS (x : Z) : Z :=
  (x + BITMAP_BITS_PER_WORD - 1) / BITMAP_BITS_PER_WORD.
Definition BITMAP_WORD (x : Z) : Z := x / BITMAP_BITS_PER_WORD.
Definition BITMAP_BIT_IN_WORD (x : Z) : Z := Z.land x (BITMAP_BITS_PER_WORD - 1).
Definition BITMAP_BITS_PER_INT : Z := 32.
Definition BITMAP_BIT_IN_INT (x : Z) : Z := Z.land x (BITMAP_BITS_PER_INT - 1).
Definition BITMAP_INT (x : Z) : Z := x / BITMAP_BITS_PER_INT.

(** A zeroed bitmap for [x] bits, as [calloc] leaves it. *)
Definition bitmap_zero (x : Z) : bitmap :=
  replicate (Z.to_nat (2 * BITMAP_NUM_WORDS x)) 0.

(** [((int * )bitmap)[i]] and [bitmap[i]]. *)
Definition int_at (bm : bitmap) (i : Z) : option Z :=
  if i <? 0 then None else bm !! Z.to_nat i.
Definition word_at (bm : bitmap) (i : Z) : option Z :=
  lo ← int_at bm (2 * i);
  hi ← int_at bm (2 * i + 1);
  Some (Z.lor lo (Z.shiftl hi 32)).

(** [atomic_or] and [atomic_and] on one [int]; the mask is truncated to it. *)
Definition bitmap_set (bm : bitmap) (bit : Z) : option bitmap :=
  let mask := u32 (Z.shiftl 1 (BITMAP_BIT_IN_INT bit)) in
  old ← int_at bm (BITMAP_INT bit);
  Some (<[Z.to_nat (BITMAP_INT bit) := Z.lor old mask]> bm).

Definition bitmap_clear (bm : bitmap) (bit : Z) : option bitmap :=
  let mask := u32 (Z.shiftl 1 (BITMAP_BIT_IN_INT bit)) in
  old ← int_at bm (BITMAP_INT bit);
  Some (<[Z.to_nat (BITMAP_INT bit) := Z.land old (u32 (Z.lnot mask))]> bm).

Definition BIT_SET (x bit : Z) : bool := has_flag x (u64 (Z.shiftl 1 bit)).

Definition bitmap_test (bm : bitmap) (bit : Z) : option bool :=
  w ← word_at bm (BITMAP_WORD bit);
  Some (BIT_SET w (BITMAP_BIT_IN_WORD bit)).

(** [__builtin_ffsl]: one plus the index of the least set bit, 0 for 0. *)
Fixpoint ffs_from (fuel : nat) (x k : Z) : Z :=
  match fuel with
  | O => 0
  | S fuel => if Z.testbit x k then k + 1 else ffs_from fuel x (k + 1)
  end.
Definition builtin_ffsl (x : Z) : Z := ffs_from 64 x 0.

Definition _ffz (x : Z) : Z := builtin_ffsl (u64 (Z.lnot x)) - 1.

(** The search loop of [bitmap_ffz] from word [i] on, [n] words left. *)
Fixpoint bitmap_ffz_loop (n : nat) (bm : bitmap) (numbits i : Z) : option Z :=
  match n with
  | O => Some (-1)
  | S n =>
      w ← word_at bm i;
      if w =? 2 ^ 64 - 1 then bitmap_ffz_loop n bm numbits (i + 1)
      else
        let bit := i * BITMAP_BITS_PER_WORD + _ffz w in
        if bit <? numbits then Some bit else Some (-1)
  end.

Definition bitmap_ffz (bm : bitmap) (numbits : Z) : option Z :=
  bitmap_ffz_loop (Z.to_nat (BITMAP_NUM_WORDS numbits)) bm numbits 0.

(** ** Well-formed bitmaps and the bits they hold *)

Record bitmap_wf (bm : bitmap) (numbits : Z) : Prop := {
  bm_bits : 0 <= numbits;
  bm_len : Z.of_nat (length bm) = 2 * BITMAP_NUM_WORDS numbits;
  bm_ints : Forall (fun x => 0 <= x < 2 ^ 32) bm
}.

(** Bit [k] of the memory. *)
Definition bit_at (bm : bitmap) (k : Z) : bool :=
  Z.testbit (default 0 (bm !! Z.to_nat (k / 32))) (k mod 32).

Lemma num_words_bound numbits k : 0 <= k < numbits -> k / 64 < BITMAP_NUM_WORDS numbits.
Proof.
  intros. unfold BITMAP_NUM_WORDS, BITMAP_BITS_PER_WORD.
  apply Z.div_lt_upper_bound; [lia|].
  pose proof (Z.div_mod (numbits + 64 - 1) 64 ltac:(lia)).
  pose proof (Z.mod_pos_bound (numbits + 64 - 1) 64 ltac:(lia)). lia.
Qed.

Lemma int_at_Some bm numbits i :
  bitmap_wf bm numbits -> 0 <= i < 2 * BITMAP_NUM_WORDS numbits ->
  exists x, int_at bm i = Some x /\ bm !! Z.to_nat i = Some x /\ 0 <= x < 2 ^ 32.
Proof.
  intros [? Hlen Hall] Hi. unfold int_at.
  destruct (i <? 0) eqn:E; zbool; [lia|].
  destruct (lookup_lt_is_Some_2 bm (Z.to_nat i)) as [x Hx]; [lia|].
  exists x. rewrite Forall_lookup in Hall. eauto.
Qed.

Lemma testbit_single a n : 0 <= a -> 0 <= n ->
  Z.testbit (Z.shiftl 1 a) n = (n =? a).
Proof.
  intros. rewrite Z.shiftl_1_l. rewrite Z.pow2_bits_eqb by lia. apply Z.eqb_sym.
Qed.

Lemma has_flag_bit x a : 0 <= a < 64 -> 0 <= x -> BIT_SET x a = Z.testbit x a.
Proof.
  intros Ha Hx. unfold BIT_SET, has_flag, u64.
  rewrite uwrap_small
    by (rewrite Z.shiftl_1_l; split; [lia|apply Z.pow_lt_mono_r; lia]).
  destruct (Z.testbit x a) eqn:E.
  - apply negb_true_iff, Z.eqb_neq. intros H0.
    apply (f_equal (fun z => Z.testbit z a)) in H0.
    rewrite Z.land_spec, testbit_single, E, Z.testbit_0_l, Z.eqb_refl in H0 by lia. done.
  - apply negb_false_iff, Z.eqb_eq. apply Z.bits_inj'. intros n Hn.
    rewrite Z.land_spec, testbit_single, Z.testbit_0_l by lia.
    destruct (n =? a) eqn:En; zbool; subst; [by rewrite E|by rewrite andb_false_r].
Qed.

(** A 64-bit word shows the bits of its two halves. *)
Lemma word_at_bits bm numbits i :
  bitmap_wf bm numbits -> 0 <= i < BITMAP_NUM_WORDS numbits ->
  exists w, word_at bm i = Some w /\ 0 <= w < 2 ^ 64 /\
    forall k, 0 <= k < 64 -> Z.testbit w k = bit_at bm (i * 64 + k).
Proof.
  intros Hwf Hi. unfold word_at.
  destruct (int_at_Some bm numbits (2 * i) Hwf) as (lo & -> & Hlo & Hlob); [lia|].
  destruct (int_at_Some bm numbits (2 * i + 1) Hwf) as (hi & -> & Hhi & Hhib); [lia|].
  simpl. eexists. split; [done|].
  assert (Hbits : forall k, 0 <= k ->
    Z.testbit (Z.lor lo (Z.shiftl hi 32)) k =
    if k <? 32 then Z.testbit lo k else Z.testbit hi (k - 32)).
  { intros k Hk. rewrite Z.lor_spec, Z.shiftl_spec by lia.
    rewrite <- (uwrap_small 32 lo) at 1 by lia.
    rewrite uwrap_testbit by lia. destruct (k <? 32) eqn:E; zbool.
    - rewrite (Z.testbit_neg_r hi) by lia. by rewrite orb_false_r.
    - done. }
  split.
  - split; [apply Z.lor_nonneg; split; [lia|apply Z.shiftl_nonneg; lia]|].
    apply below_pow2; [apply Z.lor_nonneg; split; [lia|apply Z.shiftl_nonneg; lia]|lia|].
    intros n Hn. rewrite Hbits by lia. destruct (n <? 32) eqn:E; zbool; [lia|].
    rewrite <- (uwrap_small 32 hi), uwrap_testbit by lia.
    by destruct (n - 32 <? 32) eqn:E2; zbool; [lia|].
  - intros k Hk. rewrite Hbits by lia. unfold bit_at.
    destruct (k <? 32) eqn:E; zbool.
    + replace ((i * 64 + k) / 32) with (2 * i) by dlia.
      replace ((i * 64 + k) mod 32) with k by dlia.
      by rewrite Hlo.
    + replace ((i * 64 + k) / 32) with (2 * i + 1) by dlia.
      replace ((i * 64 + k) mod 32) with (k - 32) by dlia.
      by rewrite Hhi.
Qed.

(** [bitmap_test] reads the bit. *)
Lemma bitmap_test_spec bm numbits k :
  bitmap_wf bm numbits -> 0 <= k < numbits -> bitmap_test bm k = Some (bit_at bm k).
Proof.
  intros Hwf Hk. unfold bitmap_test, BITMAP_WORD, BITMAP_BITS_PER_WORD.
  destruct (word_at_bits bm numbits (k / 64) Hwf) as (w & -> & Hw & Hbits).
  { split; [apply Z.div_pos; lia|by apply num_words_bound]. }
  simpl. f_equal. unfold BITMAP_BIT_IN_WORD, BITMAP_BITS_PER_WORD.
  change (64 - 1) with (2 ^ 6 - 1). rewrite land_pow2_mask by lia. change (2 ^ 6) with 64.
  pose proof (Z.mod_pos_bound k 64 ltac:(lia)).
  rewrite has_flag_bit, Hbits by lia. f_equal.
  rewrite Z.mul_comm. by rewrite <- Z.div_mod by lia.
Qed.

(** The update of one bit of one 32-bit word, shared by set and clear. *)
Lemma bit_at_update bm numbits k x b k' :
  bitmap_wf bm numbits -> 0 <= k < numbits -> 0 <= k' ->
  (forall n, 0 <= n < 32 ->
     Z.testbit x n = if n =? k mod 32 then b else Z.testbit (default 0 (bm !! Z.to_nat (k / 32))) n) ->
  bit_at (<[Z.to_nat (k / 32) := x]> bm) k' = if k' =? k then b else bit_at bm k'.
Proof.
  intros Hwf Hk Hk' Hx. unfold bit_at.
  pose proof (num_words_bound numbits k Hk).
  assert (Hlen : (Z.to_nat (k / 32) < length bm)%nat).
  { destruct Hwf as [? Hlen _].
    assert (k / 32 < 2 * BITMAP_NUM_WORDS numbits); [|pose proof (Z.div_pos k 32); lia].
    apply Z.div_lt_upper_bound; [lia|].
    pose proof (Z.div_mod k 64 ltac:(lia)). pose proof (Z.mod_pos_bound k 64 ltac:(lia)). lia. }
  pose proof (Z.div_mod k 32 ltac:(lia)). pose proof (Z.mod_pos_bound k 32 ltac:(lia)).
  pose proof (Z.div_mod k' 32 ltac:(lia)). pose proof (Z.mod_pos_bound k' 32 ltac:(lia)).
  pose proof (Z.div_pos k 32). pose proof (Z.div_pos k' 32).
  destruct (decide (k' / 32 = k / 32)) as [Heq|Hne].
  - rewrite Heq, list_lookup_insert_eq by done. simpl. rewrite Hx by lia.
    destruct (k' mod 32 =? k mod 32) eqn:E1, (k' =? k) eqn:E2; zbool; try done; lia.
  - rewrite list_lookup_insert_ne by lia.
    destruct (k' =? k) eqn:E2; zbool; [|done]. subst. done.
Qed.

Lemma bitmap_wf_update bm numbits i x :
  bitmap_wf bm numbits -> 0 <= x < 2 ^ 32 -> bitmap_wf (<[i := x]> bm) numbits.
Proof.
  intros [Hn Hlen Hall] Hx. split; [done|by rewrite length_insert|].
  by apply Forall_insert.
Qed.

Lemma bit_in_int k : 0 <= k -> BITMAP_BIT_IN_INT k = k mod 32.
Proof.
  intros. unfold BITMAP_BIT_IN_INT, BITMAP_BITS_PER_INT.
  change (32 - 1) with (2 ^ 5 - 1). by rewrite land_pow2_mask.
Qed.

Lemma int_index_bound bm numbits k :
  bitmap_wf bm numbits -> 0 <= k < numbits ->
  exists x, int_at bm (k / 32) = Some x /\ bm !! Z.to_nat (k / 32) = Some x /\ 0 <= x < 2 ^ 32.
Proof.
  intros Hwf Hk. apply (int_at_Some bm numbits); [done|].
  pose proof (num_words_bound numbits k Hk). pose proof (Z.div_pos k 32).
  split; [lia|]. apply Z.div_lt_upper_bound; [lia|].
  pose proof (Z.div_mod k 64 ltac:(lia)). pose proof (Z.mod_pos_bound k 64 ltac:(lia)). lia.
Qed.

Lemma testbit_mask k n : 0 <= k -> 0 <= n < 32 ->
  Z.testbit (u32 (Z.shiftl 1 (k mod 32))) n = (n =? k mod 32).
Proof.
  intros. pose proof (Z.mod_pos_bound k 32 ltac:(lia)).
  unfold u32. rewrite uwrap_testbit, testbit_single by lia.
  by destruct (n <? 32) eqn:E; zbool; [|lia].
Qed.

Lemma bitmap_set_spec bm numbits k :
  bitmap_wf bm numbits -> 0 <= k < numbits ->
  exists bm', bitmap_set bm k = Some bm' /\ bitmap_wf bm' numbits /\
    forall k', 0 <= k' -> bit_at bm' k' = if k' =? k then true else bit_at bm k'.
Proof.
  intros Hwf Hk. unfold bitmap_set, BITMAP_INT, BITMAP_BITS_PER_INT.
  destruct (int_index_bound bm numbits k Hwf Hk) as (x & -> & Hx & Hxb). simpl.
  rewrite bit_in_int by lia. eexists. split; [done|]. split.
  - apply bitmap_wf_update; [done|].
    pose proof (uwrap_range 32 (Z.shiftl 1 (k mod 32)) ltac:(lia)) as Hr.
    split; [apply Z.lor_nonneg; unfold u32; lia|].
    apply below_pow2; [apply Z.lor_nonneg; unfold u32; lia|lia|]. intros n Hn.
    rewrite Z.lor_spec, <- (uwrap_small 32 x) by lia. unfold u32. rewrite !uwrap_testbit by lia.
    by destruct (n <? 32) eqn:E; zbool; [lia|].
  - intros k' Hk'. eapply bit_at_update; [done..|]. intros n Hn.
    rewrite Z.lor_spec, Hx, testbit_mask by lia. simpl.
    by destruct (n =? k mod 32); [rewrite orb_true_r|rewrite orb_false_r].
Qed.

Lemma bitmap_clear_spec bm numbits k :
  bitmap_wf bm numbits -> 0 <= k < numbits ->
  exists bm', bitmap_clear bm k = Some bm' /\ bitmap_wf bm' numbits /\
    forall k', 0 <= k' -> bit_at bm' k' = if k' =? k then false else bit_at bm k'.
Proof.
  intros Hwf Hk. unfold bitmap_clear, BITMAP_INT, BITMAP_BITS_PER_INT.
  destruct (int_index_bound bm numbits k Hwf Hk) as (x & -> & Hx & Hxb). simpl.
  rewrite bit_in_int by lia. eexists. split; [done|]. split.
  - apply bitmap_wf_update; [done|].
    split; [apply Z.land_nonneg; lia|].
    apply below_pow2; [apply Z.land_nonneg; lia|lia|]. intros n Hn.
    rewrite Z.land_spec, <- (uwrap_small 32 x) by lia. rewrite uwrap_testbit by lia.
    by destruct (n <? 32) eqn:E; zbool; [lia|].
  - intros k' Hk'. eapply bit_at_update; [done..|]. intros n Hn.
    rewrite Z.land_spec, Hx. simpl. unfold u32 at 1.
    rewrite uwrap_testbit, Z.lnot_spec, testbit_mask by lia.
    destruct (n <? 32) eqn:E; zbool; [|lia].
    by destruct (n =? k mod 32); simpl; [rewrite andb_false_r|rewrite andb_true_r].
Qed.

(** ** First zero bit *)

Lemma ffs_from_spec fuel x k :
  (forall j, k <= j < k + Z.of_nat fuel -> Z.testbit x j = false) /\ ffs_from fuel x k = 0 \/
  exists j, k <= j < k + Z.of_nat fuel /\ Z.testbit x j = true /\
    (forall i, k <= i < j -> Z.testbit x i = false) /\ ffs_from fuel x k = j + 1.
Proof.
  revert k. induction fuel as [|fuel IH]; intros k; cbn [ffs_from].
  - left. split; [lia|done].
  - destruct (Z.testbit x k) eqn:E.
    + right. exists k. split_and!; [lia|lia|done|lia|done].
    + destruct (IH (k + 1)) as [[Hn ->]|(j & Hj & Ht & Hlt & ->)].
      * left. split; [|done]. intros j Hj.
        destruct (decide (j = k)) as [->|]; [done|apply Hn; lia].
      * right. exists j. split_and!; [lia|lia|done| |done].
        intros i Hi. destruct (decide (i = k)) as [->|]; [done|apply Hlt; lia].
Qed.

Lemma ffz_spec w : 0 <= w < 2 ^ 64 -> w <> 2 ^ 64 - 1 ->
  0 <= _ffz w < 64 /\ Z.testbit w (_ffz w) = false /\
  forall i, 0 <= i < _ffz w -> Z.testbit w i = true.
Proof.
  intros Hw Hne. unfold _ffz, builtin_ffsl.
  assert (Hlnot : forall j, 0 <= j < 64 -> Z.testbit (u64 (Z.lnot w)) j = negb (Z.testbit w j)).
  { intros j Hj. unfold u64. rewrite uwrap_testbit, Z.lnot_spec by lia.
    by destruct (j <? 64) eqn:E; zbool; [|lia]. }
  destruct (ffs_from_spec 64 (u64 (Z.lnot w)) 0) as [[Hn _]|(j & Hj & Ht & Hlt & ->)].
  - destruct Hne. apply Z.bits_inj'. intros n Hnn.
    change (2 ^ 64 - 1) with (Z.ones 64). rewrite Z.testbit_ones_nonneg by lia.
    rewrite <- (uwrap_small 64 w) by lia. rewrite uwrap_testbit by lia.
    destruct (n <? 64) eqn:E; zbool; [|done]. simpl.
    specialize (Hn n ltac:(lia)). rewrite Hlnot in Hn by lia. by apply negb_false_iff in Hn.
  - replace (j + 1 - 1) with j by lia. split_and!; [lia|lia| |].
    + rewrite Hlnot in Ht by lia. by apply negb_true_iff in Ht.
    + intros i Hi. specialize (Hlt i ltac:(lia)). rewrite Hlnot in Hlt by lia.
      by apply negb_false_iff in Hlt.
Qed.

(** The answer [bitmap_ffz] must give: the least clear bit below [numbits]. *)
Definition first_zero (bm : bitmap) (numbits r : Z) : Prop :=
  (r = -1 /\ forall k, 0 <= k < numbits -> bit_at bm k = true) \/
  (0 <= r < numbits /\ bit_at bm r = false /\ forall k, 0 <= k < r -> bit_at bm k = true).

Lemma bitmap_ffz_loop_spec bm numbits n i :
  bitmap_wf bm numbits -> 0 <= i ->
  i + Z.of_nat n = BITMAP_NUM_WORDS numbits ->
  (forall k, 0 <= k < i * 64 -> bit_at bm k = true) ->
  exists r, bitmap_ffz_loop n bm numbits i = Some r /\ first_zero bm numbits r.
Proof.
  intros Hwf. revert i. induction n as [|n IH]; intros i Hi Hn Hlow; simpl.
  - exists (-1). split; [done|]. left. split; [done|]. intros k Hk. apply Hlow.
    pose proof (num_words_bound numbits k Hk).
    pose proof (Z.div_mod k 64 ltac:(lia)). pose proof (Z.mod_pos_bound k 64 ltac:(lia)). lia.
  - destruct (word_at_bits bm numbits i Hwf ltac:(lia)) as (w & -> & Hw & Hbits).
    simpl. destruct (w =? _) eqn:E; zbool.
    + apply IH; [lia|lia|]. intros k Hk.
      destruct (Z.lt_ge_cases k (i * 64)); [by apply Hlow; lia|].
      replace k with (i * 64 + (k - i * 64)) by lia. rewrite <- Hbits by lia.
      rewrite E. change (2 ^ 64 - 1) with (Z.ones 64).
      rewrite Z.testbit_ones_nonneg by lia. apply Z.ltb_lt. lia.
    + destruct (ffz_spec w Hw E) as (Hr & Hz & Hlt).
      rewrite Hbits in Hz by lia. unfold BITMAP_BITS_PER_WORD.
      assert (Hbelow : forall k, 0 <= k < i * 64 + _ffz w -> bit_at bm k = true).
      { intros k Hk. destruct (Z.lt_ge_cases k (i * 64)); [by apply Hlow; lia|].
        replace k with (i * 64 + (k - i * 64)) by lia. rewrite <- Hbits by lia.
        apply Hlt. lia. }
      destruct (_ <? numbits) eqn:E2; zbool; eexists; (split; [done|]).
      * right. split; [lia|done].
      * left. split; [done|]. intros k Hk. apply Hbelow. lia.
Qed.

(** The word-wise search finds the least clear bit: the index of the first
    unused slot, or -1 exactly when every slot is used. *)
Lemma bitmap_ffz_first_zero bm numbits :
  bitmap_wf bm numbits ->
  exists r, bitmap_ffz bm numbits = Some r /\ first_zero bm numbits r.
Proof.
  intros Hwf. apply bitmap_ffz_loop_spec; [done|lia| |lia].
  rewrite Z2Nat.id; [lia|]. destruct Hwf. unfold BITMAP_NUM_WORDS, BITMAP_BITS_PER_WORD.
  apply Z.div_pos; lia.
Qed.

Lemma bitmap_zero_wf x : 0 <= x -> bitmap_wf (bitmap_zero x) x.
Proof.
  intros. unfold bitmap_zero. split; [done| |].
  - rewrite length_replicate, Z2Nat.id; [done|].
    assert (0 <= BITMAP_NUM_WORDS x); [|lia].
    unfold BITMAP_NUM_WORDS, BITMAP_BITS_PER_WORD. apply Z.div_pos; lia.
  - by apply Forall_replicate.
Qed.

Lemma bitmap_zero_bit x k : bit_at (bitmap_zero x) k = false.
Proof.
  unfold bit_at, bitmap_zero.
  destruct (replicate _ 0 !! _) as [y|] eqn:E; simpl; [|apply Z.testbit_0_l].
  apply lookup_replicate in E as [-> _]. apply Z.testbit_0_l.
Qed.

(** Slots are handed out correctly.  The search finds the least unused
    slot below [numbits], or answers -1 exactly when all are in use; marking
    the slot found changes no other slot, and clearing it afterwards restores
    every slot. *)
Lemma bitmap_slot_allocation bm numbits : bitmap_wf bm numbits ->
  exists r, bitmap_ffz bm numbits = Some r /\
    ((r = -1 /\ forall k, 0 <= k < numbits -> bitmap_test bm k = Some true) \/
     (0 <= r < numbits /\ bitmap_test bm r = Some false /\
      (forall k, 0 <= k < r -> bitmap_test bm k = Some true) /\
      exists bm1 bm2, bitmap_set bm r = Some bm1 /\ bitmap_clear bm1 r = Some bm2 /\
        bitmap_wf bm1 numbits /\ bitmap_test bm1 r = Some true /\
        forall k, 0 <= k < numbits ->
          (k <> r -> bitmap_test bm1 k = bitmap_test bm k) /\ bitmap_test bm2 k = bitmap_test bm k)).
Proof.
  intros Hwf. destruct (bitmap_ffz_first_zero bm numbits Hwf) as (r & Hr & [[-> Hall]|(Hb & Hz & Hlow)]).
  - exists (-1). split; [done|]. left. split; [done|]. intros k Hk.
    rewrite (bitmap_test_spec bm numbits) by done. by rewrite Hall.
  - exists r. split; [done|]. right.
    destruct (bitmap_set_spec bm numbits r Hwf Hb) as (bm1 & Hs & Hwf1 & Hb1).
    destruct (bitmap_clear_spec bm1 numbits r Hwf1 Hb) as (bm2 & Hc & Hwf2 & Hb2).
    split; [done|]. split; [by rewrite (bitmap_test_spec bm numbits), Hz|].
    split; [intros k Hk; rewrite (bitmap_test_spec bm numbits) by (done || lia); by rewrite Hlow|].
    exists bm1, bm2. split_and!; try done.
    { rewrite (bitmap_test_spec bm1 numbits) by done. by rewrite Hb1, Z.eqb_refl by lia. }
    intros k Hk. rewrite !(bitmap_test_spec _ numbits) by done.
    rewrite Hb2, Hb1 by lia. destruct (k =? r) eqn:E; zbool; [subst|done].
    by rewrite Hz.
Qed.

Lemma bitmap_slot_allocation_witness :
  exists r, bitmap_ffz (bitmap_zero 256) 256 = Some r /\ r = 0.
Proof.
  destruct (bitmap_slot_allocation (bitmap_zero 256) 256) as (r & Hr & _);
    [by apply bitmap_zero_wf|].
  exists r. split; [exact Hr|]. vm_compute in Hr. congruence.
Defined.

End Bitmap.
