(* ===== verification/SecurePort.v ===== *)
(** * The polled UART drivers and the secure-UART system calls

    [tegra/public/platform/tegra_common/secure_port.c] (the secure port),
    [tegra_common/debug.c] (the debug port, the same driver with its own
    statics), [t18x/combined_uart.c] and [lk/trusty/lib/trusty/secure_uart.c].

    Hardware is a parameter: what a register read returns and what the clock
    says depend on how many device accesses were made before ([tick]).  Every
    store to a register is appended to the trace [wlog]. *)

From S2P Require Import Prelude.

Module Uart.

(** ** Address map ([t18x/include/platform/memmap.h], [t18x/platform.c]) *)

Definition REGISTER_VADDR_BASE : Z := 0xfffffffff1000000.
Definition REGISTER_BANK_0_P2V (paddr : Z) : Z := paddr - 0x03100000 + (REGISTER_VADDR_BASE + 0x00200000).
Definition REGISTER_BANK_2_P2V (paddr : Z) : Z := paddr - 0x0C280000 + (REGISTER_VADDR_BASE + 0x00800000).
Definition REGISTER_BANK_4_P2V (paddr : Z) : Z := paddr - 0x0C198000 + (REGISTER_VADDR_BASE + 0x00C00000).
Definition REGISTER_BANK_SIZE : Z := 0x00010000.

Definition TEGRA_COMBUART_BASE : Z := REGISTER_BANK_4_P2V 0x0C198000.

Definition TEGRA_UART_NONE : Z := 0.
Definition TEGRA_COMBUART_ID : Z := 0xfe.
Definition uart_base : list Z :=
  [ TEGRA_UART_NONE;
    REGISTER_BANK_0_P2V 0x03100000;
    REGISTER_BANK_0_P2V 0x03110000;
    REGISTER_BANK_2_P2V 0x0C280000;
    REGISTER_BANK_0_P2V 0x03130000;
    REGISTER_BANK_0_P2V 0x03140000 ].

(** The device entries of [mmu_initial_mappings]: base and size. *)
Definition mmu_device_mappings : list (Z * Z) :=
  [ (REGISTER_VADDR_BASE + 0x00200000, 2 * REGISTER_BANK_SIZE);
    (REGISTER_VADDR_BASE + 0x00400000, 4 * REGISTER_BANK_SIZE);
    (REGISTER_VADDR_BASE + 0x00800000, REGISTER_BANK_SIZE);
    (REGISTER_VADDR_BASE + 0x00A00000, PAGE_SIZE);
    (REGISTER_VADDR_BASE + 0x00C00000, PAGE_SIZE) ].

Definition mapped (addr : Z) : bool :=
  existsb (fun '(b, sz) => (b <=? addr) && (addr <? b + sz)) mmu_device_mappings.

Definition UART_RHR : Z := 0.
Definition UART_THR : Z := 0.
Definition UART_LSR : Z := 5.
Definition UART_TIMEOUT_US : Z := 500 * 1000.
Definition MBOX_INTR_TRIGGER : Z := 2 ^ 31.
Definition MBOX_FLUSH : Z := 2 ^ 26.
Definition MBOX_BYTE_COUNT : Z := 2 ^ 24.
Definition TX_TIMEOUT_US : Z := 500 * 1000.

(** ** State: the statics of the driver and the device trace *)

Record port_st := PortSt {
  disable_secure_port : bool;
  secure_port : Z;
  putc_timed_out : bool;    (* static in secure_uart_putc *)
  getc_timed_out : bool;    (* static in secure_uart_getc *)
  comb_timed_out : bool;    (* static in comb_uart_putc *)
  tick : nat;
  wlog : list (Z * Z)
}.

Definition set_disable b s := PortSt b (secure_port s) (putc_timed_out s) (getc_timed_out s) (comb_timed_out s) (tick s) (wlog s).
Definition set_port p s := PortSt (disable_secure_port s) p (putc_timed_out s) (getc_timed_out s) (comb_timed_out s) (tick s) (wlog s).
Definition set_putc_to b s := PortSt (disable_secure_port s) (secure_port s) b (getc_timed_out s) (comb_timed_out s) (tick s) (wlog s).
Definition set_getc_to b s := PortSt (disable_secure_port s) (secure_port s) (putc_timed_out s) b (comb_timed_out s) (tick s) (wlog s).
Definition set_comb_to b s := PortSt (disable_secure_port s) (secure_port s) (putc_timed_out s) (getc_timed_out s) b (tick s) (wlog s).
Definition tick_up s := PortSt (disable_secure_port s) (secure_port s) (putc_timed_out s) (getc_timed_out s) (comb_timed_out s) (S (tick s)) (wlog s).
Definition add_log a v s := PortSt (disable_secure_port s) (secure_port s) (putc_timed_out s) (getc_timed_out s) (comb_timed_out s) (tick s) (wlog s ++ [(a, v)]).

(** The static initialisers of [secure_port.c]. *)
Definition port_init : port_st := PortSt true 3 false false false 0 [].

Definition P (A : Type) : Type := M port_st A.

Section Driver.

(** The environment: what the [n]-th device access reads at an address, what
    the clock says at that moment. *)
Context (mmio : Z -> nat -> Z) (clock : nat -> Z).

(** [*REG8(addr)], [readl(addr)] and their stores. *)
Definition reg_read (w addr : Z) : P Z :=
  if mapped addr then
    s <- get ;; modify tick_up ;;; ret (uwrap w (mmio addr (tick s)))
  else bad_access.
Definition reg_write (w addr data : Z) : P unit :=
  if mapped addr then modify tick_up ;;; modify (add_log addr (uwrap w data))
  else bad_access.

Definition current_time_hires : P Z :=
  s <- get ;; modify tick_up ;;; ret (u64 (clock (tick s))).

Definition uart_addr (port reg : Z) : option Z :=
  base ← uart_base !! Z.to_nat port;
  if port <? 0 then None else Some (base + Z.shiftl reg 2).

Definition secure_write_uart_reg (port reg data : Z) : P unit :=
  a <- deref (uart_addr port reg) ;; reg_write 8 a data.
Definition secure_read_uart_reg (port reg : Z) : P Z :=
  a <- deref (uart_addr port reg) ;; reg_read 8 a.

(** The busy-wait loop of the drivers: poll [ready] until it holds; give up
    at once when the last wait timed out, else after [timeout] microseconds.
    The result is [None] while polling goes on, [Some true] when the device
    is ready and [Some false] when the driver gave up; [mark] records the
    timeout in the driver's static. *)
Fixpoint poll_loop (fuel : nat) (ready : P bool) (timed_out : bool) (start timeout : Z)
    (mark : P unit) : P (option bool) :=
  match fuel with
  | O => ret None
  | S fuel =>
      r <- ready ;;
      if (r : bool) then ret (Some true)
      else if timed_out then ret (Some false)
      else
        now <- current_time_hires ;;
        if timeout <=? u64 (now - start) then mark ;;; ret (Some false)
        else poll_loop fuel ready timed_out start timeout mark
  end.

Definition lsr_ready (port bit : Z) : P bool :=
  v <- secure_read_uart_reg port UART_LSR ;; ret (has_flag v (Z.shiftl 1 bit)).

(** Each routine takes the fuel of its polling loop; [None] means that the
    loop is still polling. *)
Definition secure_uart_putc (fuel : nat) (port c : Z) : P (option Z) :=
  start <- current_time_hires ;;
  timed_out <- gets putc_timed_out ;;
  r <- poll_loop fuel (lsr_ready port 5) timed_out start UART_TIMEOUT_US
         (modify (set_putc_to true)) ;;
  match r with
  | None => ret None
  | Some false => ret (Some (-1))
  | Some true =>
      modify (set_putc_to false) ;;;
      secure_write_uart_reg port UART_THR c ;;;
      ret (Some 0)
  end.

Definition secure_uart_getc (fuel : nat) (port : Z) (wait : bool) : P (option Z) :=
  start <- current_time_hires ;;
  timed_out <- gets getc_timed_out ;;
  r <- (if wait then
          poll_loop fuel (lsr_ready port 0) timed_out start UART_TIMEOUT_US
            (modify (set_getc_to true))
        else b <- lsr_ready port 0 ;; ret (Some b)) ;;
  match r with
  | None => ret None
  | Some false => ret (Some (-1))
  | Some true =>
      modify (set_getc_to false) ;;;
      v <- secure_read_uart_reg port UART_RHR ;;
      ret (Some v)
  end.

(** ** [t18x/combined_uart.c] *)

Definition comb_uart_putc (fuel : nat) (c : Z) : P (option unit) :=
  start <- current_time_hires ;;
  let msg := Z.lor (Z.lor MBOX_INTR_TRIGGER MBOX_BYTE_COUNT) (u8 (Z.land c 0xff)) in
  let msg := if c =? 10 then Z.lor msg MBOX_FLUSH else msg in
  timed_out <- gets comb_timed_out ;;
  r <- poll_loop fuel
         (v <- reg_read 32 TEGRA_COMBUART_BASE ;; ret (negb (has_flag v MBOX_INTR_TRIGGER)))
         timed_out start TX_TIMEOUT_US (modify (set_comb_to true)) ;;
  match r with
  | None => ret None
  | Some false => ret (Some tt)
  | Some true =>
      modify (set_comb_to false) ;;;
      reg_write 32 TEGRA_COMBUART_BASE msg ;;;
      ret (Some tt)
  end.

Definition platform_tegra_comb_uart_putc (fuel : nat) (c : Z) : P (option unit) :=
  if c =? 0 then ret (Some tt)
  else if c =? 10 then
    r <- comb_uart_putc fuel 13 ;;
    match r with
    | None => ret None
    | Some _ => comb_uart_putc fuel c
    end
  else comb_uart_putc fuel c.

Definition platform_tegra_comb_uart_getc (wait : bool) : P (option Z) := ret (Some (-1)).

(** ** The port interface of [secure_port.c] *)

Definition platform_disable_secure_intf : P unit := modify (set_disable true).
Definition platform_enable_secure_intf : P unit := modify (set_disable false).

Definition secure_platform_dputc (fuel : nat) (c : Z) : P (option unit) :=
  s <- get ;;
  if disable_secure_port s || (secure_port s =? TEGRA_UART_NONE) then ret (Some tt)
  else if secure_port s =? TEGRA_COMBUART_ID then platform_tegra_comb_uart_putc fuel c
  else
    pre <- (if c =? 10 then secure_uart_putc fuel (secure_port s) 13
            else ret (Some 0)) ;;
    match pre with
    | None => ret None
    | Some _ =>
        if c =? 0 then ret (Some tt)
        else
          r <- secure_uart_putc fuel (secure_port s) c ;;
          ret (match r with None => None | Some _ => Some tt end)
    end.

(** The result is the return code and the byte stored through [c], if one is. *)
Definition secure_platform_dgetc (fuel : nat) (wait : bool) : P (option (Z * option Z)) :=
  s <- get ;;
  if disable_secure_port s || (secure_port s =? TEGRA_UART_NONE) then ret (Some (-1, None))
  else
    r <- (if secure_port s =? TEGRA_COMBUART_ID then platform_tegra_comb_uart_getc wait
          else secure_uart_getc fuel (secure_port s) wait) ;;
    match r with
    | None => ret None
    | Some _c => if _c <? 0 then ret (Some (-1, None)) else ret (Some (0, Some (u8 _c)))
    end.

Definition platform_init_secure_port (fuel : nat) (dbg_port : Z) : P (option unit) :=
  modify (set_port dbg_port) ;;;
  platform_enable_secure_intf ;;;
  secure_platform_dputc fuel 102.  (* 'f' *)

(** ** The system calls of [secure_uart.c]

    [uart_port] is not used by either handler. *)

Fixpoint send_loop (fuel : nat) (n : nat) (message : list Z) : P (option Z) :=
  match n with
  | O => ret (Some 0)
  | S n =>
      match message with
      | [] => bad_access
      | c :: message =>
          r <- secure_platform_dputc fuel c ;;
          match r with
          | None => ret None
          | Some _ => send_loop fuel n message
          end
      end
  end.

Definition sys_send_to_uart (fuel : nat) (uart_port : Z) (message : list Z) (msg_size : Z) : P (option Z) :=
  send_loop fuel (Z.to_nat msg_size) message.

Definition sys_receive_from_uart (fuel : nat) (uart_port : Z) (wait : Z) : P (option (Z * option Z)) :=
  secure_platform_dgetc fuel (negb (wait =? 0)).

End Driver.

(** ** The debug port ([debug.c])

    The same code over the statics [disable_debug], [debug_port] and the
    [timed_out] flags of [uart_putc] and [uart_getc]. *)
Section DebugPort.
Context (mmio : Z -> nat -> Z) (clock : nat -> Z).
Definition write_uart_reg := secure_write_uart_reg.
Definition read_uart_reg := secure_read_uart_reg mmio.
Definition uart_putc := secure_uart_putc mmio clock.
Definition uart_getc := secure_uart_getc mmio clock.
Definition platform_dputc := secure_platform_dputc mmio clock.
Definition platform_dgetc := secure_platform_dgetc mmio clock.
Definition platform_init_debug_port (dbg_port : Z) : P unit :=
  modify (set_port dbg_port) ;;; modify (set_disable false).
Definition platform_disable_debug_intf : P unit := modify (set_disable true).
Definition platform_enable_debug_intf : P unit := modify (set_disable false).
End DebugPort.

(** ** What the drivers do *)

(** What one character of a message becomes on the line: CR LF for a newline,
    nothing for NUL. *)
Definition expand (c : Z) : list Z :=
  if c =? 10 then [13; 10] else if c =? 0 then [] else [c].

(** The memory-mapped ports that the device mappings cover. *)
Definition port_mapped (port : Z) : Prop :=
  exists base, uart_base !! Z.to_nat port = Some base /\ 0 <= port /\
    mapped (base + Z.shiftl UART_LSR 2) = true /\
    mapped (base + Z.shiftl UART_THR 2) = true.

Definition thr_addr (port : Z) : Z :=
  default 0 (uart_base !! Z.to_nat port) + Z.shiftl UART_THR 2.
Definition lsr_addr (port : Z) : Z :=
  default 0 (uart_base !! Z.to_nat port) + Z.shiftl UART_LSR 2.

Lemma uart_abc_mapped port : 1 <= port <= 3 -> port_mapped port.
Proof.
  intros. assert (port = 1 \/ port = 2 \/ port = 3) as [->|[->| ->]] by lia;
    eexists; split_and!; try reflexivity; lia.
Qed.

Definition rhr_addr (port : Z) : Z :=
  default 0 (uart_base !! Z.to_nat port) + Z.shiftl UART_RHR 2.

Section DriverFacts.
Context (mmio : Z -> nat -> Z) (clock : nat -> Z).

(** A state that [k] device accesses leave as it was but for [tick]. *)
Definition ticked (k : nat) (s s' : port_st) : Prop :=
  s' = PortSt (disable_secure_port s) (secure_port s) (putc_timed_out s)
         (getc_timed_out s) (comb_timed_out s) (k + tick s) (wlog s).

Lemma lsr_ready_run port bit s :
  port_mapped port ->
  lsr_ready mmio port bit s =
    Done (has_flag (u8 (mmio (lsr_addr port) (tick s))) (Z.shiftl 1 bit)) (tick_up s).
Proof.
  intros (base & Hb & Hp & Hl & _).
  unfold lsr_ready, secure_read_uart_reg, uart_addr, lsr_addr, bind, deref, ret.
  rewrite Hb. simpl. destruct (port <? 0) eqn:E; zbool; [lia|].
  simpl. unfold reg_read. simpl in Hl. by rewrite Hl.
Qed.

Lemma write_thr_run port c s :
  port_mapped port ->
  secure_write_uart_reg port UART_THR c s =
    Done tt (add_log (thr_addr port) (u8 c) (tick_up s)).
Proof.
  intros (base & Hb & Hp & _ & Ht).
  unfold secure_write_uart_reg, uart_addr, thr_addr, bind, deref, ret.
  rewrite Hb. simpl. destruct (port <? 0) eqn:E; zbool; [lia|].
  simpl. unfold reg_write. simpl in Ht. by rewrite Ht.
Qed.

Lemma read_rhr_run port s :
  port_mapped port ->
  secure_read_uart_reg mmio port UART_RHR s =
    Done (u8 (mmio (rhr_addr port) (tick s))) (tick_up s).
Proof.
  intros (base & Hb & Hp & _ & Ht).
  unfold secure_read_uart_reg, uart_addr, rhr_addr, bind, deref, ret.
  rewrite Hb. simpl. destruct (port <? 0) eqn:E; zbool; [lia|].
  simpl. unfold reg_read, UART_RHR, UART_THR in *. by rewrite Ht.
Qed.

(** The line status register of [port] always reports an empty transmitter. *)
Definition tx_always_ready (port : Z) : Prop :=
  forall n, has_flag (u8 (mmio (lsr_addr port) n)) (Z.shiftl 1 5) = true.
Definition tx_never_ready (port : Z) : Prop :=
  forall n, has_flag (u8 (mmio (lsr_addr port) n)) (Z.shiftl 1 5) = false.

Lemma putc_ready fuel port c s :
  port_mapped port -> tx_always_ready port ->
  exists s', secure_uart_putc mmio clock (S fuel) port c s = Done (Some 0) s' /\
    wlog s' = wlog s ++ [(thr_addr port, u8 c)] /\
    disable_secure_port s' = disable_secure_port s /\ secure_port s' = secure_port s.
Proof.
  intros Hp Hr. unfold secure_uart_putc, bind, current_time_hires, gets, modify, get, ret.
  cbn [poll_loop]. unfold bind. rewrite lsr_ready_run, Hr by done. unfold ret.
  rewrite write_thr_run by done. eexists. by split_and!.
Qed.

Lemma putc_stalled fuel port c s :
  port_mapped port -> tx_never_ready port -> putc_timed_out s = true ->
  secure_uart_putc mmio clock (S fuel) port c s =
    Done (Some (-1)) (tick_up (tick_up s)).
Proof.
  intros Hp Hr Ht. unfold secure_uart_putc, bind, current_time_hires, gets, modify, get, ret.
  cbn [poll_loop]. unfold bind. rewrite lsr_ready_run, Hr by done. simpl. by rewrite Ht.
Qed.

(** A port the driver may be set to, other than the combined UART. *)
Definition direct_port (s : port_st) : Prop :=
  disable_secure_port s = false /\ port_mapped (secure_port s) /\
  secure_port s <> TEGRA_UART_NONE /\ secure_port s <> TEGRA_COMBUART_ID.

Lemma dputc_ready fuel c s :
  direct_port s -> tx_always_ready (secure_port s) ->
  exists s', secure_platform_dputc mmio clock (S fuel) c s = Done (Some tt) s' /\
    wlog s' = wlog s ++ map (fun b => (thr_addr (secure_port s), u8 b)) (expand c) /\
    disable_secure_port s' = disable_secure_port s /\ secure_port s' = secure_port s.
Proof.
  intros (Hd & Hp & Hn & Hc) Hr.
  unfold secure_platform_dputc, bind at 1, get, expand.
  rewrite Hd. rewrite (proj2 (Z.eqb_neq _ _) Hn), (proj2 (Z.eqb_neq _ _) Hc). simpl.
  destruct (c =? 10) eqn:E10; zbool; [subst|].
  - destruct (putc_ready fuel (secure_port s) 13 s Hp Hr) as (s1 & H1 & Hw1 & Hd1 & Hs1).
    destruct (putc_ready fuel (secure_port s) 10 s1 Hp Hr) as (s2 & H2 & Hw2 & Hd2 & Hs2).
    unfold bind, ret. rewrite H1. simpl. rewrite H2. eexists. split; [done|].
    rewrite Hw2, Hw1, <- app_assoc. split_and!; [done|congruence..].
  - unfold bind, ret. destruct (c =? 0) eqn:E0; zbool.
    + eexists. split; [done|]. by rewrite app_nil_r.
    + destruct (putc_ready fuel (secure_port s) c s Hp Hr) as (s1 & -> & Hw1 & Hd1 & Hs1).
      eauto 6.
Qed.

Lemma dputc_stalled fuel c s :
  direct_port s -> tx_never_ready (secure_port s) -> putc_timed_out s = true ->
  exists k, secure_platform_dputc mmio clock (S fuel) c s = Done (Some tt) (Nat.iter k tick_up s) /\
    (k <= 4)%nat.
Proof.
  intros (Hd & Hp & Hn & Hc) Hr Ht.
  unfold secure_platform_dputc, bind at 1, get.
  rewrite Hd. rewrite (proj2 (Z.eqb_neq _ _) Hn), (proj2 (Z.eqb_neq _ _) Hc). simpl.
  destruct (c =? 10) eqn:E10; zbool; [subst|].
  - exists 4%nat. unfold bind, ret.
    rewrite putc_stalled by done. simpl. by rewrite putc_stalled.
  - unfold bind, ret. destruct (c =? 0) eqn:E0; zbool.
    + exists 0%nat. split; [done|lia].
    + exists 2%nat. rewrite putc_stalled by done. split; [done|lia].
Qed.

Lemma iter_tick_fields k s :
  disable_secure_port (Nat.iter k tick_up s) = disable_secure_port s /\
  secure_port (Nat.iter k tick_up s) = secure_port s /\
  putc_timed_out (Nat.iter k tick_up s) = putc_timed_out s /\
  wlog (Nat.iter k tick_up s) = wlog s /\
  tick (Nat.iter k tick_up s) = (k + tick s)%nat.
Proof. induction k as [|k IH]; simpl; [done|]. destruct IH as (-> & -> & -> & -> & ->). done. Qed.

(** A port that stopped draining cannot hang a sender.  Once a wait has
    timed out and while the transmitter stays busy, sending any message costs
    at most four device accesses per character, writes nothing, and still
    returns 0. *)
Lemma sys_send_to_uart_stalled fuel uart_port message msg_size s :
  direct_port s -> tx_never_ready (secure_port s) -> putc_timed_out s = true ->
  0 <= msg_size <= Z.of_nat (length message) ->
  exists s', sys_send_to_uart mmio clock (S fuel) uart_port message msg_size s = Done (Some 0) s' /\
    wlog s' = wlog s /\ Z.of_nat (tick s') <= Z.of_nat (tick s) + 4 * msg_size.
Proof.
  intros Hdp Hr Hto Hlen. unfold sys_send_to_uart.
  assert (Hn : (Z.to_nat msg_size <= length message)%nat) by lia.
  rewrite <- (Z2Nat.id msg_size) by lia. rewrite Nat2Z.id. clear Hlen.
  revert message s Hdp Hr Hto Hn. generalize (Z.to_nat msg_size) as n.
  induction n as [|n IH]; intros message s Hdp Hr Hto Hn; cbn [send_loop].
  - exists s. split_and!; [done|done|lia].
  - destruct message as [|c message]; simpl in Hn; [lia|].
    destruct (dputc_stalled fuel c s Hdp Hr Hto) as (k & H1 & Hk).
    destruct (iter_tick_fields k s) as (Hd & Hs & Ht & Hw & Hti).
    unfold bind. rewrite H1.
    destruct (IH message (Nat.iter k tick_up s)) as (s2 & H2 & Hw2 & Ht2);
      [by unfold direct_port; rewrite Hd, Hs|by rewrite Hs|by rewrite Ht|lia|].
    exists s2. split_and!; [done|congruence|lia].
Qed.

(** ** Bounded waiting

    [current_time_hires] counts microseconds with the generic timer of the
    processor, whose count never goes back and never stands still for good.
    That one access takes less than 2^62 of them keeps the count from passing
    the driver by. *)
Definition running_clock : Prop :=
  (forall n, clock n <= clock (S n) < clock n + 2 ^ 62) /\ forall n, exists m, (n <= m)%nat /\ clock n < clock m.

Lemma clock_mono n m : running_clock -> (n <= m)%nat -> clock n <= clock m.
Proof. intros [Hc _]. induction 1 as [|m _ IH]; [lia|]. specialize (Hc m). lia. Qed.

Lemma clock_reaches t v : running_clock -> 0 <= v -> exists K, clock t + v <= clock K.
Proof.
  intros Hc Hv. revert v Hv. apply natlike_ind; [by exists t; lia|]. intros v Hv [K HK].
  destruct (proj2 Hc K) as (m & _ & Hm). exists m. lia.
Qed.

Lemma iter_tick_up_S k s : Nat.iter k tick_up (tick_up s) = Nat.iter (S k) tick_up s.
Proof. symmetry. apply Nat.iter_succ_r. Qed.

Lemma current_time_run s :
  current_time_hires clock s = Done (u64 (clock (tick s))) (tick_up s).
Proof. done. Qed.

(** The line status always shows [v] at [bit]. *)
Definition lsr_always (port bit : Z) (v : bool) : Prop :=
  forall n, has_flag (u8 (mmio (lsr_addr port) n)) (Z.shiftl 1 bit) = v.

(** A wait that started at access [t0] ends before the access [K] at which
    the time is up, with the same outcome for every fuel that reaches there. *)
Lemma poll_loop_ends port bit timed_out f t0 K n s :
  port_mapped port -> running_clock -> (t0 <= tick s)%nat -> clock t0 + UART_TIMEOUT_US <= clock K ->
  clock (tick s) - clock t0 < UART_TIMEOUT_US + 2 ^ 62 -> (K - tick s < n)%nat ->
  exists b k, (forall v, lsr_always port bit v -> b = v) /\ forall fuel, (n <= fuel)%nat ->
    poll_loop clock fuel (lsr_ready mmio port bit) timed_out (u64 (clock t0)) UART_TIMEOUT_US (modify f) s =
      Done (Some b) (if (b : bool) || timed_out then Nat.iter k tick_up s else f (Nat.iter k tick_up s)).
Proof.
  intros Hp Hc. revert s. induction n as [|n IH]; intros s Ht HK Hlo Hn; [lia|].
  assert (Hstep : forall fuel, poll_loop clock (S fuel) (lsr_ready mmio port bit) timed_out (u64 (clock t0)) UART_TIMEOUT_US (modify f) s =
    if has_flag (u8 (mmio (lsr_addr port) (tick s))) (Z.shiftl 1 bit) then Done (Some true) (tick_up s)
    else if timed_out then Done (Some false) (tick_up s)
    else if UART_TIMEOUT_US <=? clock (S (tick s)) - clock t0 then Done (Some false) (f (tick_up (tick_up s)))
    else poll_loop clock fuel (lsr_ready mmio port bit) timed_out (u64 (clock t0)) UART_TIMEOUT_US (modify f) (tick_up (tick_up s))).
  { intros fuel. cbn [poll_loop]. unfold bind. rewrite lsr_ready_run by done. destruct (has_flag _ _); [done|]. destruct timed_out; [done|].
    rewrite current_time_run. cbn [tick tick_up]. pose proof (proj1 Hc (tick s)) as H1. pose proof (clock_mono t0 (tick s) Hc Ht) as H0.
    replace (u64 (u64 (clock (S (tick s))) - u64 (clock t0))) with (clock (S (tick s)) - clock t0)
      by (unfold u64; rewrite uwrap_sub_l, uwrap_sub_r, uwrap_small; unfold UART_TIMEOUT_US in *; lia).
    by destruct (_ <=? _). }
  destruct (has_flag (u8 (mmio (lsr_addr port) (tick s))) (Z.shiftl 1 bit)) eqn:Er.
  { exists true, 1%nat. split; [intros v Hv; by rewrite <- (Hv (tick s))|]. intros [|fuel] Hf; [lia|]. by rewrite Hstep. }
  assert (Hno : forall v, lsr_always port bit v -> false = v) by (intros v Hv; by rewrite <- (Hv (tick s))).
  destruct timed_out eqn:Eto.
  { exists false, 1%nat. split; [done|]. intros [|fuel] Hf; [lia|]. by rewrite Hstep. }
  destruct (UART_TIMEOUT_US <=? clock (S (tick s)) - clock t0) eqn:Ele; zbool.
  { exists false, 2%nat. split; [done|]. intros [|fuel] Hf; [lia|]. by rewrite Hstep. }
  assert (HKt : (S (tick s) < K)%nat).
  { destruct (decide (S (tick s) < K)%nat) as [|Hge]; [done|]. pose proof (clock_mono K (S (tick s)) Hc ltac:(lia)). lia. }
  pose proof (proj1 Hc (S (tick s))) as H2.
  destruct (IH (tick_up (tick_up s))) as (b & k & Hv & Hrun); [simpl; lia|done|simpl; lia|simpl; lia|].
  exists b, (2 + k)%nat. split; [done|]. intros [|fuel] Hf; [lia|]. rewrite Hstep, Hrun by lia. by rewrite !iter_tick_up_S.
Qed.

(** A write attempt that goes the same way for every fuel from [rounds] on. *)
Lemma putc_ends port c s : port_mapped port -> running_clock ->
  exists rounds r s', (forall fuel, (rounds <= fuel)%nat -> secure_uart_putc mmio clock fuel port c s = Done (Some r) s') /\
    disable_secure_port s' = disable_secure_port s /\ secure_port s' = secure_port s /\
    ((r = 0 /\ wlog s' = wlog s ++ [(thr_addr port, u8 c)] /\ putc_timed_out s' = false) \/
     (r = -1 /\ wlog s' = wlog s /\ putc_timed_out s' = true)) /\
    (forall v, lsr_always port 5 v -> r = if v then 0 else -1).
Proof.
  intros Hp Hc. destruct (clock_reaches (tick s) UART_TIMEOUT_US Hc ltac:(done)) as [K HK]. pose proof (proj1 Hc (tick s)) as H1.
  destruct (poll_loop_ends port 5 (putc_timed_out s) (set_putc_to true) (tick s) K (S K) (tick_up s)) as (b & k & Hv & Hrun);
    [done|done|simpl; lia|done|simpl; unfold UART_TIMEOUT_US; lia|simpl; lia|].
  destruct (iter_tick_fields k (tick_up s)) as (Hd & Hs & Ht & Hw & _). destruct b; cbn [orb] in Hrun.
  - exists (S K), 0, (add_log (thr_addr port) (u8 c) (tick_up (set_putc_to false (Nat.iter k tick_up (tick_up s))))). split_and!.
    + intros fuel Hf. unfold secure_uart_putc, bind, gets, ret. rewrite current_time_run. cbn [putc_timed_out tick_up]. rewrite Hrun by done.
      unfold modify. by rewrite write_thr_run.
    + exact Hd.
    + exact Hs.
    + left. split_and!; [done| |done]. simpl. by rewrite Hw.
    + intros v Hr. by rewrite <- (Hv v Hr).
  - exists (S K), (-1), (if putc_timed_out s then Nat.iter k tick_up (tick_up s) else set_putc_to true (Nat.iter k tick_up (tick_up s))). split_and!.
    + intros fuel Hf. unfold secure_uart_putc, bind, gets, ret. rewrite current_time_run. cbn [putc_timed_out tick_up]. by rewrite Hrun.
    + destruct (putc_timed_out s); exact Hd.
    + destruct (putc_timed_out s); exact Hs.
    + right. split_and!; [done| |]; destruct (putc_timed_out s) eqn:E; simpl; try done; by rewrite ?Hw, ?Ht.
    + intros v Hr. by rewrite <- (Hv v Hr).
Qed.

(** UART D and UART E lie past the 128 KB that bank 0 maps: with the driver set
    to either of them the first poll of the line status faults. *)
Lemma secure_uart_putc_unmapped fuel port c s :
  port = 4 \/ port = 5 -> secure_uart_putc mmio clock (S fuel) port c s = Crash BadAccess.
Proof. by intros [->| ->]. Qed.


(** A character on an enabled port: what of it the transmitter takes. *)
Lemma dputc_ends c s : direct_port s -> running_clock ->
  exists rounds kept s', (forall fuel, (rounds <= fuel)%nat -> secure_platform_dputc mmio clock fuel c s = Done (Some tt) s') /\
    direct_port s' /\ secure_port s' = secure_port s /\
    wlog s' = wlog s ++ map (fun b => (thr_addr (secure_port s), u8 b)) kept /\ sublist kept (expand c) /\
    (forall v, lsr_always (secure_port s) 5 v -> kept = if v then expand c else []).
Proof.
  intros Hdp Hc. pose proof Hdp as (Hd & Hp & Hn & Hcb).
  assert (Hget : forall (f : port_st -> P (option unit)), bind get f s = f s s) by done.
  assert (Hdir : forall s', disable_secure_port s' = disable_secure_port s -> secure_port s' = secure_port s -> direct_port s')
    by (intros s' E1 E2; unfold direct_port; by rewrite E1, E2).
  assert (Hone : forall b s0, port_mapped (secure_port s) -> exists rounds kept s', (forall fuel, (rounds <= fuel)%nat ->
      exists r, secure_uart_putc mmio clock fuel (secure_port s) b s0 = Done (Some r) s') /\
      disable_secure_port s' = disable_secure_port s0 /\ secure_port s' = secure_port s0 /\
      wlog s' = wlog s0 ++ map (fun b => (thr_addr (secure_port s), u8 b)) kept /\ sublist kept [b] /\
      (forall v, lsr_always (secure_port s) 5 v -> kept = if v then [b] else [])).
  { intros b s0 _. destruct (putc_ends (secure_port s) b s0 Hp Hc) as (rounds & r & s' & Hrun & E1 & E2 & Hres & Hv).
    destruct Hres as [(-> & Hw & _)|(-> & Hw & _)].
    - exists rounds, [b], s'. split_and!; [eauto|done|done|done|done|]. intros [] Hl; [done|]. by specialize (Hv false Hl).
    - exists rounds, [], s'. split_and!; [eauto|done|done|by rewrite app_nil_r|apply sublist_nil_l|]. intros [] Hl; [by specialize (Hv true Hl)|done]. }
  unfold secure_platform_dputc, expand. destruct (c =? 10) eqn:E10; [|destruct (c =? 0) eqn:E0]; zbool; subst; apply Z.eqb_neq in Hn, Hcb.
  - destruct (Hone 13 s Hp) as (r1 & k1 & s1 & Hr1 & D1 & P1 & W1 & S1 & V1). destruct (Hone 10 s1 Hp) as (r2 & k2 & s2 & Hr2 & D2 & P2 & W2 & S2 & V2).
    exists (r1 + r2)%nat, (k1 ++ k2), s2. split_and!; [|apply Hdir; congruence|congruence| |by apply (sublist_app k1 [13] k2 [10])|].
    + intros fuel Hf. destruct (Hr1 fuel ltac:(lia)) as [x1 E1]. destruct (Hr2 fuel ltac:(lia)) as [x2 E2].
      rewrite Hget. cbv beta. rewrite Hd, Hn, Hcb. simpl.
      unfold bind, ret. rewrite E1. simpl. by rewrite E2.
    + by rewrite W2, W1, map_app, app_assoc.
    + intros v Hl. rewrite (V1 v Hl), (V2 v Hl). by destruct v.
  - exists 0%nat, [], s. split; [|split; [done|split; [done|split; [by simpl; rewrite app_nil_r|split; [done|by intros []]]]]].
    intros fuel _. rewrite Hget. cbv beta. rewrite Hd, Hn, Hcb. done.
  - destruct (Hone c s Hp) as (r1 & k1 & s1 & Hr1 & D1 & P1 & W1 & S1 & V1). exists r1, k1, s1. split_and!; [|by apply Hdir|done|done|done|done].
    intros fuel Hf. destruct (Hr1 fuel Hf) as [x1 E1]. rewrite Hget. cbv beta. rewrite Hd, Hn, Hcb. simpl. unfold bind, ret. by rewrite E1.
Qed.

(** C1: Sending over an enabled UART A, B or C ends and returns 0 whatever the
    device reports, on a clock that runs.  What goes out on the line are
    characters of the first [msg_size] of the message in their order, each
    newline as CR LF and NUL characters dropped: all of them when the
    transmitter keeps up, fewer where it did not get ready in time, none when
    it never does.  The port is the driver's own: the [uart_port] argument
    plays no part. *)
Theorem sys_send_to_uart_trace uart_port message msg_size s :
  direct_port s -> running_clock -> 0 <= msg_size <= Z.of_nat (length message) ->
  exists rounds kept s', (forall fuel, (rounds <= fuel)%nat -> sys_send_to_uart mmio clock fuel uart_port message msg_size s = Done (Some 0) s') /\
    wlog s' = wlog s ++ map (fun b => (thr_addr (secure_port s), u8 b)) kept /\
    sublist kept (concat (map expand (take (Z.to_nat msg_size) message))) /\
    (tx_always_ready (secure_port s) -> kept = concat (map expand (take (Z.to_nat msg_size) message))) /\
    (tx_never_ready (secure_port s) -> kept = []).
Proof.
  intros Hdp Hc Hlen. unfold sys_send_to_uart. assert (Hn : (Z.to_nat msg_size <= length message)%nat) by lia. clear Hlen.
  revert message s Hdp Hn. generalize (Z.to_nat msg_size) as n. induction n as [|n IH]; intros message s Hdp Hn.
  - exists 0%nat, [], s. rewrite take_0, app_nil_r. by split_and!.
  - destruct message as [|c message]; simpl in Hn; [lia|].
    destruct (dputc_ends c s Hdp Hc) as (r1 & k1 & s1 & Hr1 & Hd1 & P1 & W1 & S1 & V1).
    destruct (IH message s1 Hd1 ltac:(lia)) as (r2 & k2 & s2 & Hr2 & W2 & S2 & A2 & N2). rewrite P1 in *.
    exists (r1 + r2)%nat, (k1 ++ k2), s2. cbn [take map concat]. split_and!.
    + intros fuel Hf. cbn [send_loop]. unfold bind. rewrite Hr1 by lia. apply Hr2. lia.
    + by rewrite W2, W1, map_app, app_assoc.
    + by apply sublist_app.
    + intros Ha. by rewrite (V1 true Ha), (A2 Ha).
    + intros Ha. by rewrite (V1 false Ha), (N2 Ha).
Qed.

Lemma getc_nowait_run fuel port s :
  port_mapped port ->
  secure_uart_getc mmio clock fuel port false s =
    if has_flag (u8 (mmio (lsr_addr port) (S (tick s)))) (Z.shiftl 1 0)
    then Done (Some (u8 (mmio (rhr_addr port) (S (S (tick s))))))
           (tick_up (set_getc_to false (tick_up (tick_up s))))
    else Done (Some (-1)) (tick_up (tick_up s)).
Proof.
  intros Hp. unfold secure_uart_getc, bind, gets, ret. cbn beta iota.
  rewrite current_time_run. cbn beta iota. rewrite lsr_ready_run by done.
  cbn beta iota. simpl tick.
  destruct (has_flag _ _) eqn:E; [|done].
  unfold modify. by rewrite read_rhr_run.
Qed.

(** [sys_receive_from_uart] stores a byte exactly when it returns 0, the
    byte is the receive register's, and without [wait] it samples the line
    status once.  On a port that was not opened it returns -1 and touches no
    device. *)
Lemma sys_receive_from_uart_nowait fuel uart_port s :
  (disable_secure_port s = true ->
     sys_receive_from_uart mmio clock fuel uart_port 0 s = Done (Some (-1, None)) s) /\
  (direct_port s ->
     exists s', sys_receive_from_uart mmio clock fuel uart_port 0 s =
       Done (Some (if has_flag (u8 (mmio (lsr_addr (secure_port s)) (S (tick s)))) (Z.shiftl 1 0)
                   then (0, Some (u8 (mmio (rhr_addr (secure_port s)) (S (S (tick s))))))
                   else (-1, None))) s' /\ wlog s' = wlog s).
Proof.
  unfold sys_receive_from_uart, secure_platform_dgetc, bind, get. split.
  - intros Hd. by rewrite Hd.
  - intros (Hd & Hp & Hn & Hc). rewrite Hd. cbn beta iota.
    rewrite (proj2 (Z.eqb_neq _ _) Hn), (proj2 (Z.eqb_neq _ _) Hc).
    change (false || false) with false. change (negb (0 =? 0)) with false. cbn beta iota.
    rewrite getc_nowait_run by done.
    destruct (has_flag _ _); [|by eexists].
    pose proof (uwrap_range 8 (mmio (rhr_addr (secure_port s)) (S (S (tick s))))) as Hr.
    cbn beta iota. unfold u8 in *. destruct (_ <? 0) eqn:E2; zbool; [lia|].
    rewrite (uwrap_small 8 (uwrap 8 _)) by lia. by eexists.
Qed.

End DriverFacts.

(** ** Witnesses *)

(** UART C (port 3), enabled, as [platform_init_secure_port 3] leaves it. *)
Definition uart_c_open : port_st := PortSt false 3 false false false 0 [].
Definition uart_c_stalled : port_st := PortSt false 3 true false false 0 [].
(** A line status of 0x61: data ready, transmitter empty. *)
Definition lsr_ok (addr : Z) (n : nat) : Z := 0x61.
Definition lsr_busy (addr : Z) (n : nat) : Z := 0.
Definition clock_us (n : nat) : Z := Z.of_nat n.

Lemma uart_c_direct b : direct_port (PortSt false 3 b false false 0 []).
Proof. split_and!; [done|by apply uart_abc_mapped|done|done]. Qed.

Lemma clock_us_runs : running_clock clock_us.
Proof. unfold clock_us. split; [intros n; lia|]. intros n. exists (S n). lia. Qed.

Lemma sys_send_to_uart_trace_witness :
  (exists rounds s', sys_send_to_uart lsr_ok clock_us rounds 1 [72; 105; 10; 0] 4 uart_c_open = Done (Some 0) s' /\
    map snd (wlog s') = [72; 105; 13; 10]) /\
  exists rounds s', sys_send_to_uart lsr_busy clock_us rounds 1 [72; 105; 10; 0] 4 uart_c_open = Done (Some 0) s' /\ wlog s' = [].
Proof.
  split.
  - destruct (sys_send_to_uart_trace lsr_ok clock_us 1 [72; 105; 10; 0] 4 uart_c_open) as (rounds & kept & s' & H & Hw & _ & Ha & _);
      [apply uart_c_direct|apply clock_us_runs|simpl; lia|].
    exists rounds, s'. split; [by apply H|]. rewrite Hw, Ha by (by intros n). vm_compute. reflexivity.
  - destruct (sys_send_to_uart_trace lsr_busy clock_us 1 [72; 105; 10; 0] 4 uart_c_open) as (rounds & kept & s' & H & Hw & _ & _ & Hn);
      [apply uart_c_direct|apply clock_us_runs|simpl; lia|].
    exists rounds, s'. split; [by apply H|]. by rewrite Hw, Hn.
Defined.

Lemma sys_send_to_uart_stalled_witness :
  exists s', sys_send_to_uart lsr_busy clock_us 1 1 [72; 105; 10] 3 uart_c_stalled = Done (Some 0) s' /\
    wlog s' = [].
Proof.
  destruct (sys_send_to_uart_stalled lsr_busy clock_us 0 1 [72; 105; 10] 3 uart_c_stalled)
    as (s' & H & Hw & _); [apply uart_c_direct|by intros n|done|simpl; lia|].
  exists s'. split; [exact H|]. by rewrite Hw.
Defined.


Lemma sys_receive_from_uart_nowait_witness :
  exists s', sys_receive_from_uart lsr_ok clock_us 1 3 0 uart_c_open = Done (Some (0, Some 0x61)) s'.
Proof.
  destruct (sys_receive_from_uart_nowait lsr_ok clock_us 1 3 uart_c_open) as [_ H].
  destruct (H (uart_c_direct false)) as (s' & Hr & _). exists s'. exact Hr.
Defined.

End Uart.
