(* ===== verification/Iovec.v ===== *)
(** * User copies and scatter/gather lists

    [lib/uthread/arch/arm64/usercopy.S] (the byte loops behind
    [copy_from_user], [copy_to_user] and [strlcpy_from_user]) and
    [lib/trusty/iovec.c].  The state is the memory the copies read and write:
    kernel memory, where a bad pointer is fatal, and the address space of the
    current application, where it is an [ERR_FAULT]. *)

From S2P Require Import Prelude.

(** ** Memory *)

(** A user byte and whether the application may write it. *)
Notation umem := (gmap Z (Z * bool)).
Notation kmem := (gmap Z Z).

Record mem := Mem { kernel : kmem; user : umem }.

Definition set_kernel (k : kmem) (m : mem) : mem := Mem k (user m).
Definition set_user (u : umem) (m : mem) : mem := Mem (kernel m) u.

Module Usercopy.

(** [arch_copy_to_user]: stores byte after byte; the bytes before a fault stay
    written. *)
Fixpoint arch_copy_to_user (udest : Z) (ksrc : list Z) (u : umem) : Z * umem :=
  match ksrc with
  | [] => (NO_ERROR, u)
  | w9 :: ksrc =>
      match u !! udest with
      | Some (_, true) => arch_copy_to_user (udest + 1) ksrc (<[udest := (w9, true)]> u)
      | _ => (ERR_FAULT, u)
      end
  end.

(** [arch_copy_from_user]: the status and the [len] bytes left at [kdest]; the
    fault handler clears what is not copied. *)
Fixpoint arch_copy_from_user (usrc : Z) (len : nat) (u : umem) : Z * list Z :=
  match len with
  | O => (NO_ERROR, [])
  | S len' =>
      match u !! usrc with
      | Some (w9, _) =>
          let r := arch_copy_from_user (usrc + 1) len' u in (r.1, w9 :: r.2)
      | None => (ERR_FAULT, repeat 0 len)
      end
  end.

(** [arch_strlcpy_from_user]: [n] counts the characters read so far, [len] the
    room left in the destination.  The loop ends at a NUL or at a byte that is
    not mapped; [None] is a loop that still runs. *)
Fixpoint strlcpy_loop (fuel : nat) (usrc : Z) (n : Z) (len : nat) (u : umem)
    : option (Z * list Z) :=
  match fuel with
  | O => None
  | S fuel =>
      match u !! usrc with
      | None => Some (ERR_FAULT, repeat 0 len)
      | Some (w9, _) =>
          let w11 := if (1 <? Z.of_nat len) then w9 else 0 in
          if w9 =? 0 then Some (n, if decide (len = O) then [] else [w11])
          else match len with
               | O => strlcpy_loop fuel (usrc + 1) (n + 1) O u
               | S len' =>
                   r ← strlcpy_loop fuel (usrc + 1) (n + 1) len' u;
                   Some (r.1, w11 :: r.2)
               end
      end
  end.

(** Every byte of the address space is visited at most once. *)
Definition strlcpy_fuel (u : umem) : nat := S (size u).

Definition arch_strlcpy_from_user (usrc : Z) (len : nat) (u : umem) : option (Z * list Z) :=
  strlcpy_loop (strlcpy_fuel u) usrc 0 len u.

Definition copy_from_user (usrc : Z) (len : Z) : M mem (Z * list Z) :=
  gets (fun m => arch_copy_from_user usrc (Z.to_nat len) (user m)).
Definition copy_to_user (udest : Z) (ksrc : list Z) : M mem Z :=
  fun m => let r := arch_copy_to_user udest ksrc (user m) in Done r.1 (set_user r.2 m).

(** The mapped bytes at and above an address. *)
Definition above (a : Z) (u : umem) : gset Z := filter (fun x => a <= x) (dom u).

Lemma above_step a v u : u !! a = Some v -> (S (size (above (a + 1) u)) <= size (above a u))%nat.
Proof.
  intros Ha.
  assert (Hin : a ∉ above (a + 1) u) by (unfold above; set_unfold; lia).
  replace (S (size (above (a + 1) u))) with (size ({[a]} ∪ above (a + 1) u)).
  - apply subseteq_size. unfold above. intros x Hx. set_unfold.
    destruct Hx as [->|[? ?]]; [split; [lia|]|split; [lia|done]].
    apply elem_of_dom. eauto.
  - rewrite size_union by set_solver. by rewrite size_singleton.
Qed.

Lemma strlcpy_loop_terminates fuel usrc n len u :
  (size (above usrc u) < fuel)%nat -> is_Some (strlcpy_loop fuel usrc n len u).
Proof.
  revert usrc n len. induction fuel as [|fuel IH]; intros usrc n len Hf; [lia|].
  simpl. destruct (u !! usrc) as [[w b]|] eqn:E; [|by eexists].
  pose proof (above_step usrc (w, b) u E) as Hs.
  destruct (w =? 0); [by eexists|].
  destruct len as [|len].
  - apply IH. lia.
  - destruct (IH (usrc + 1) (n + 1) len ltac:(lia)) as [r ->]. by eexists.
Qed.

Lemma size_above_le a u : (size (above a u) <= size u)%nat.
Proof. rewrite <- size_dom. apply subseteq_size. unfold above. set_solver. Qed.

(** What [strlcpy_loop] leaves at a destination of [len] bytes: the string as
    far as it fits, then a NUL. *)
Lemma strlcpy_loop_string fuel usrc n len u s :
  (forall i c, s !! i = Some c -> c <> 0 /\ exists b, u !! (usrc + Z.of_nat i) = Some (c, b)) ->
  (exists b, u !! (usrc + Z.of_nat (length s)) = Some (0, b)) ->
  (length s < fuel)%nat -> (0 < len)%nat ->
  strlcpy_loop fuel usrc n len u =
    Some (n + Z.of_nat (length s), take (len - 1) s ++ [0]).
Proof.
  assert (Hlen0 : forall fuel usrc n s,
    (forall i c, s !! i = Some c -> c <> 0 /\ exists b, u !! (usrc + Z.of_nat i) = Some (c, b)) ->
    (exists b, u !! (usrc + Z.of_nat (length s)) = Some (0, b)) ->
    (length s < fuel)%nat -> strlcpy_loop fuel usrc n O u = Some (n + Z.of_nat (length s), [])).
  { clear. intros fuel usrc n s. revert fuel usrc n.
    induction s as [|c s IH]; intros fuel usrc n Hs [b Hn] Hf;
      (destruct fuel as [|fuel]; [simpl in Hf; lia|]); cbn [strlcpy_loop].
    - simpl in Hn. rewrite Z.add_0_r in Hn. rewrite Hn. simpl. do 2 f_equal. lia.
    - destruct (Hs 0%nat c eq_refl) as [Hc [b0 H0]]. rewrite Z.add_0_r in H0. rewrite H0.
      destruct (c =? 0) eqn:E; zbool; [done|].
      rewrite IH; [simpl; do 2 f_equal; lia| | |simpl in Hf; lia].
      + intros i c' Hi. destruct (Hs (S i) c' Hi) as [? [b' Hb']].
        split; [done|]. exists b'. rewrite <- Hb'. f_equal. lia.
      + exists b. rewrite <- Hn. f_equal. simpl. lia. }
  revert fuel usrc n len. induction s as [|c s IH]; intros fuel usrc n len Hs Hn Hf Hl;
    (destruct fuel as [|fuel]; [simpl in Hf; lia|]); cbn [strlcpy_loop].
  - destruct Hn as [b Hn]. simpl in Hn. rewrite Z.add_0_r in Hn. rewrite Hn. simpl.
    rewrite decide_False by lia. rewrite take_nil. simpl.
    by destruct (1 <? Z.of_nat len); rewrite Z.add_0_r.
  - destruct (Hs 0%nat c eq_refl) as [Hc [b0 H0]]. rewrite Z.add_0_r in H0. rewrite H0.
    destruct (c =? 0) eqn:E; zbool; [done|].
    assert (Hs' : forall i c', s !! i = Some c' ->
      c' <> 0 /\ exists b, u !! (usrc + 1 + Z.of_nat i) = Some (c', b)).
    { intros i c' Hi. destruct (Hs (S i) c' Hi) as [? [b' Hb']].
      split; [done|]. exists b'. rewrite <- Hb'. f_equal. lia. }
    assert (Hn' : exists b, u !! (usrc + 1 + Z.of_nat (length s)) = Some (0, b)).
    { destruct Hn as [b Hn]. exists b. rewrite <- Hn. f_equal. simpl. lia. }
    simpl in Hf. destruct len as [|[|len]]; [lia| |].
    + rewrite (Hlen0 fuel _ _ s) by (try done; lia). simpl. do 2 f_equal. lia.
    + rewrite IH by (try done; lia). simpl.
      rewrite Nat.sub_0_r.
      destruct (1 <? _) eqn:E1; zbool; [|lia]. do 2 f_equal. lia.
Qed.

Lemma strlcpy_loop_length fuel usrc n len u r bs :
  strlcpy_loop fuel usrc n len u = Some (r, bs) -> (length bs <= len)%nat.
Proof.
  revert usrc n len r bs. induction fuel as [|fuel IH]; intros usrc n len r bs; simpl; [done|].
  destruct (u !! usrc) as [[w b]|]; [|intros; simplify_eq; by rewrite repeat_length].
  destruct (w =? 0).
  { intros. simplify_eq. destruct (decide (len = 0%nat)); simpl; lia. }
  destruct len as [|len]; [apply IH|].
  destruct (strlcpy_loop _ _ _ _ _) as [[r' bs']|] eqn:E; simpl; [|done].
  intros. simplify_eq. simpl. apply IH in E. lia.
Qed.

(** The string [s] and its terminating NUL are mapped at [usrc]. *)
Definition user_string (u : umem) (usrc : Z) (s : list Z) : Prop :=
  (forall i c, s !! i = Some c -> c <> 0 /\ exists b, u !! (usrc + Z.of_nat i) = Some (c, b)) /\
  exists b, u !! (usrc + Z.of_nat (length s)) = Some (0, b).

Lemma user_string_size u usrc s : user_string u usrc s -> (length s < size u)%nat.
Proof.
  intros [Hs [b Hn]].
  assert (list_to_set ((fun i => usrc + Z.of_nat i) <$> seq 0 (S (length s))) ⊆ dom u) as Hsub.
  { intros x Hx. rewrite elem_of_list_to_set, list_elem_of_fmap in Hx.
    destruct Hx as (i & -> & Hi). apply elem_of_seq in Hi. apply elem_of_dom.
    destruct (decide (i = length s)) as [->|]; [by eexists|].
    destruct (lookup_lt_is_Some_2 s i) as [c Hc]; [lia|].
    destruct (Hs i c Hc) as [_ [b' Hb']]. by eexists. }
  apply subseteq_size in Hsub. rewrite size_dom, size_list_to_set in Hsub.
  - rewrite length_fmap, length_seq in Hsub. lia.
  - apply NoDup_fmap_2; [intros x y; lia|apply NoDup_seq].
Qed.

(** [strlcpy_from_user] ends for every address space and every address:
    its loop reads each mapped byte at most once.  It never stores more than
    the [len] bytes of the destination, and for a string that is mapped it
    returns the string's full length and stores the longest prefix that fits
    together with a NUL. *)
Lemma strlcpy_from_user_spec usrc len u :
  exists r bs, arch_strlcpy_from_user usrc len u = Some (r, bs) /\ (length bs <= len)%nat /\
    (forall s, (0 < len)%nat -> user_string u usrc s ->
       r = Z.of_nat (length s) /\ bs = take (len - 1) s ++ [0]).
Proof.
  unfold arch_strlcpy_from_user, strlcpy_fuel.
  destruct (strlcpy_loop_terminates (S (size u)) usrc 0 len u) as [[r bs] E].
  { pose proof (size_above_le usrc u). lia. }
  exists r, bs. split_and!; [done|by eapply strlcpy_loop_length|].
  intros s Hl Hs. pose proof (user_string_size _ _ _ Hs). destruct Hs as [Hs Hn].
  rewrite (strlcpy_loop_string _ _ _ _ _ s) in E by (try done; lia). by simplify_eq.
Qed.

End Usercopy.

Module Iovec.
Import Usercopy.

(** ** Data ([uio.h]) *)

Record iovec_kern := IovecKern { iov_base : Z; iov_len : Z }.
Record iovec_user := IovecUser { uiov_base : Z; uiov_len : Z }.
Definition sizeof_iovec_user : Z := 8.

Definition le32 (bs : list Z) : Z :=
  match bs with
  | [b0; b1; b2; b3] => u32 (b0 + 2 ^ 8 * b1 + 2 ^ 16 * b2 + 2 ^ 24 * b3)
  | _ => 0
  end.

(** The layout of an [iovec_user_t]: two little-endian 32-bit words. *)
Definition decode_iovec_user (bs : list Z) : iovec_user :=
  IovecUser (le32 (take 4 bs)) (le32 (drop 4 bs)).

(** ** Kernel memory: an access outside it is fatal *)

Fixpoint kread (a : Z) (n : nat) (k : kmem) : option (list Z) :=
  match n with
  | O => Some []
  | S n => b ← k !! a; bs ← kread (a + 1) n k; Some (b :: bs)
  end.

Fixpoint kwrite (a : Z) (bs : list Z) (k : kmem) : option kmem :=
  match bs with
  | [] => Some k
  | b :: bs => _ ← k !! a; kwrite (a + 1) bs (<[a := b]> k)
  end.

(** [memcpy] from a local buffer to a kernel address and back. *)
Definition memcpy_to (a : Z) (src : list Z) : M mem unit :=
  fun m => match kwrite a src (kernel m) with
           | Some k => Done tt (set_kernel k m)
           | None => Crash BadAccess
           end.
Definition memcpy_from (a : Z) (n : Z) : M mem (list Z) :=
  fun m => match kread a (Z.to_nat n) (kernel m) with
           | Some bs => Done bs m
           | None => Crash BadAccess
           end.

(** The first [n] bytes of a buffer, which must have them. *)
Definition take_exact (n : Z) (buf : list Z) : M mem (list Z) :=
  if n <=? Z.of_nat (length buf) then ret (take (Z.to_nat n) buf) else bad_access.

(** ** The four transfers

    [buf] is the rest of the buffer at the current position.  The gathering
    functions also return what they stored, in order from the start of the
    destination. *)

Fixpoint membuf_to_kern_loop (n : nat) (iov : list iovec_kern) (buf : list Z)
    (len copied : Z) : M mem Z :=
  match n with
  | O => ret copied
  | S n =>
      v <- deref (head iov) ;;
      let to_copy := if iov_len v <? len then iov_len v else len in
      if to_copy =? 0 then membuf_to_kern_loop n (tail iov) buf len copied
      else if iov_base v =? 0 then ret ERR_INVALID_ARGS
      else
        src <- take_exact to_copy buf ;;
        memcpy_to (iov_base v) src ;;;
        if len - to_copy =? 0 then ret (copied + to_copy)
        else membuf_to_kern_loop n (tail iov) (drop (Z.to_nat to_copy) buf)
               (len - to_copy) (copied + to_copy)
  end.

Definition membuf_to_kern_iovec (iov : option (list iovec_kern)) (iov_cnt : Z)
    (buf : option (list Z)) (len : Z) : M mem Z :=
  if (iov_cnt =? 0) || (len =? 0) then ret 0
  else match iov, buf with
       | Some iov, Some buf => membuf_to_kern_loop (Z.to_nat iov_cnt) iov buf len 0
       | _, _ => ret ERR_INVALID_ARGS
       end.

Fixpoint kern_to_membuf_loop (n : nat) (len copied : Z) (stored : list Z)
    (iov : list iovec_kern) : M mem (Z * list Z) :=
  match n with
  | O => ret (copied, stored)
  | S n =>
      v <- deref (head iov) ;;
      let to_copy := if iov_len v <? len then iov_len v else len in
      if to_copy =? 0 then kern_to_membuf_loop n len copied stored (tail iov)
      else if iov_base v =? 0 then ret (ERR_INVALID_ARGS, stored)
      else
        bs <- memcpy_from (iov_base v) to_copy ;;
        if len - to_copy =? 0 then ret (copied + to_copy, stored ++ bs)
        else kern_to_membuf_loop n (len - to_copy) (copied + to_copy) (stored ++ bs) (tail iov)
  end.

(** The destination is never NULL at the call sites: it is a queue buffer. *)
Definition kern_iovec_to_membuf (len : Z) (iov : option (list iovec_kern)) (iov_cnt : Z)
    : M mem (Z * list Z) :=
  if (iov_cnt =? 0) || (len =? 0) then ret (0, [])
  else match iov with
       | Some iov => kern_to_membuf_loop (Z.to_nat iov_cnt) len 0 [] iov
       | None => ret (ERR_INVALID_ARGS, [])
       end.

(** Entry [i] of the user's list, read from user space when it is needed. *)
Definition fetch_uiov (iov_uaddr i : Z) : M mem (Z * iovec_user) :=
  r <- copy_from_user (u32 (iov_uaddr + i * sizeof_iovec_user)) sizeof_iovec_user ;;
  ret (r.1, decode_iovec_user r.2).

Fixpoint membuf_to_user_loop (n : nat) (iov_uaddr i : Z) (buf : list Z)
    (len copied : Z) : M mem Z :=
  match n with
  | O => ret copied
  | S n =>
      r <- fetch_uiov iov_uaddr i ;;
      let '(st, uiov) := r in
      if negb (st =? NO_ERROR) then ret st
      else
        let to_copy := if uiov_len uiov <? len then uiov_len uiov else len in
        src <- take_exact to_copy buf ;;
        st <- copy_to_user (uiov_base uiov) src ;;
        if negb (st =? NO_ERROR) then ret st
        else if len - to_copy =? 0 then ret (copied + to_copy)
        else membuf_to_user_loop n iov_uaddr (i + 1) (drop (Z.to_nat to_copy) buf)
               (len - to_copy) (copied + to_copy)
  end.

Definition membuf_to_user_iovec (iov_uaddr iov_cnt : Z) (buf : option (list Z)) (len : Z)
    : M mem Z :=
  if (iov_cnt =? 0) || (len =? 0) then ret 0
  else match buf with
       | Some buf => membuf_to_user_loop (Z.to_nat iov_cnt) iov_uaddr 0 buf len 0
       | None => ret ERR_INVALID_ARGS
       end.

Fixpoint user_to_membuf_loop (n : nat) (len copied : Z) (stored : list Z)
    (iov_uaddr i : Z) : M mem (Z * list Z) :=
  match n with
  | O => ret (copied, stored)
  | S n =>
      r <- fetch_uiov iov_uaddr i ;;
      let '(st, uiov) := r in
      if negb (st =? NO_ERROR) then ret (st, stored)
      else
        let to_copy := if uiov_len uiov <? len then uiov_len uiov else len in
        r <- copy_from_user (uiov_base uiov) to_copy ;;
        let '(st, bs) := r in
        if negb (st =? NO_ERROR) then ret (st, stored ++ bs)
        else if len - to_copy =? 0 then ret (copied + to_copy, stored ++ bs)
        else user_to_membuf_loop n (len - to_copy) (copied + to_copy) (stored ++ bs)
               iov_uaddr (i + 1)
  end.

Definition user_iovec_to_membuf (len : Z) (iov_uaddr iov_cnt : Z) : M mem (Z * list Z) :=
  if (iov_cnt =? 0) || (len =? 0) then ret (0, [])
  else user_to_membuf_loop (Z.to_nat iov_cnt) len 0 [] iov_uaddr 0.

(** ** Byte copies *)

(** The bytes [bs] are mapped at [a]; the [n] bytes at [a] are writable. *)
Definition holds (u : umem) (a : Z) (bs : list Z) : Prop :=
  forall i b, bs !! i = Some b -> exists w, u !! (a + Z.of_nat i) = Some (b, w).
Definition writable (u : umem) (a n : Z) : Prop :=
  forall x, a <= x < a + n -> exists b, u !! x = Some (b, true).

Lemma holds_cons u a b bs :
  holds u a (b :: bs) <-> (exists w, u !! a = Some (b, w)) /\ holds u (a + 1) bs.
Proof.
  unfold holds. split.
  - intros H. split.
    + destruct (H 0%nat b eq_refl) as [w Hw]. rewrite Z.add_0_r in Hw. eauto.
    + intros i c Hi. destruct (H (S i) c Hi) as [w Hw]. exists w. rewrite <- Hw. f_equal. lia.
  - intros [[w Hw] H] [|i] c Hi; simpl in Hi; simplify_eq.
    + exists w. by rewrite Z.add_0_r.
    + destruct (H i c Hi) as [w' Hw']. exists w'. rewrite <- Hw'. f_equal. lia.
Qed.

Lemma copy_from_user_holds u a bs :
  holds u a bs -> arch_copy_from_user a (length bs) u = (NO_ERROR, bs).
Proof.
  revert a. induction bs as [|b bs IH]; intros a H; [done|].
  apply holds_cons in H as [[w Hw] H]. simpl. rewrite Hw. by rewrite (IH _ H).
Qed.

Lemma copy_from_user_ok u a n bs :
  arch_copy_from_user a n u = (NO_ERROR, bs) -> holds u a bs /\ length bs = n.
Proof.
  revert a bs. induction n as [|n IH]; intros a bs; simpl; [intros; by simplify_eq|].
  destruct (u !! a) as [[w b]|] eqn:E; [|done].
  destruct (arch_copy_from_user (a + 1) n u) as [r bs'] eqn:E'. simpl. intros. simplify_eq.
  destruct (IH _ _ E') as [? <-]. split; [|done]. apply holds_cons. eauto.
Qed.

Lemma length_copy_from_user u a n : length (arch_copy_from_user a n u).2 = n.
Proof.
  revert a. induction n as [|n IH]; intros a; simpl; [done|].
  destruct (u !! a) as [[??]|]; simpl; by rewrite ?IH, ?repeat_length.
Qed.

Lemma copy_from_user_code u a n :
  (arch_copy_from_user a n u).1 = NO_ERROR \/ (arch_copy_from_user a n u).1 = ERR_FAULT.
Proof.
  revert a. induction n as [|n IH]; intros a; simpl; [by left|].
  destruct (u !! a) as [[??]|]; simpl; [apply IH|by right].
Qed.

Lemma holds_take u a bs n : holds u a bs -> holds u a (take n bs).
Proof. intros H i b Hi. apply H. by apply lookup_take_Some in Hi as [? ?]. Qed.

Lemma copy_to_user_writable u a bs :
  writable u a (Z.of_nat (length bs)) ->
  exists u', arch_copy_to_user a bs u = (NO_ERROR, u') /\ holds u' a bs /\
    (forall x, ~ (a <= x < a + Z.of_nat (length bs)) -> u' !! x = u !! x) /\
    (forall x, snd <$> u' !! x = snd <$> u !! x).
Proof.
  revert a u. induction bs as [|b bs IH]; intros a u Hw.
  { exists u. split_and!; try done. }
  destruct (Hw a) as [c Hc]; [simpl; lia|]. simpl. rewrite Hc.
  destruct (IH (a + 1) (<[a:=(b, true)]> u)) as (u' & -> & Hh & Ho & Hs).
  { intros x Hx. destruct (Hw x) as [c' Hc']; [simpl; lia|].
    exists c'. rewrite lookup_insert_ne by lia. done. }
  exists u'. split_and!; [done|..].
  - apply holds_cons. split; [|done]. exists true. rewrite Ho by lia. by rewrite lookup_insert_eq.
  - intros x Hx. rewrite Ho by lia. rewrite lookup_insert_ne by lia. done.
  - intros x. rewrite Hs. destruct (decide (a = x)) as [->|].
    + by rewrite lookup_insert_eq, Hc.
    + by rewrite lookup_insert_ne.
Qed.

Lemma holds_frame u u' a bs :
  (forall x, a <= x < a + Z.of_nat (length bs) -> u' !! x = u !! x) ->
  holds u a bs -> holds u' a bs.
Proof.
  intros Hf H i b Hi. destruct (H i b Hi) as [w Hw]. exists w. rewrite Hf; [done|].
  apply lookup_lt_Some in Hi. lia.
Qed.

Lemma writable_perm u u' a n :
  (forall x, snd <$> u' !! x = snd <$> u !! x) -> writable u a n -> writable u' a n.
Proof.
  intros Hp H x Hx. destruct (H x Hx) as [b Hb]. specialize (Hp x). rewrite Hb in Hp.
  destruct (u' !! x) as [[c w]|]; simpl in Hp; simplify_eq. by exists c.
Qed.

(** ** Gathering *)

(** The [n] descriptors from index [i] on are readable and are [segs]. *)
Definition descriptors (u : umem) (iov_uaddr i : Z) (segs : list iovec_user) : Prop :=
  forall j v, segs !! j = Some v ->
    exists bs, arch_copy_from_user (u32 (iov_uaddr + (i + Z.of_nat j) * sizeof_iovec_user))
                 (Z.to_nat sizeof_iovec_user) u = (NO_ERROR, bs) /\
               decode_iovec_user bs = v.

Lemma descriptors_cons u a i v segs :
  descriptors u a i (v :: segs) ->
  (forall m, user m = u -> fetch_uiov a i m = Done (NO_ERROR, v) m) /\ descriptors u a (i + 1) segs.
Proof.
  intros H. split.
  - intros m Hm. destruct (H 0%nat v eq_refl) as (bs & Hc & Hd). rewrite Z.add_0_r in Hc.
    unfold fetch_uiov, copy_from_user, bind, gets, ret. by rewrite Hm, Hc, <- Hd.
  - intros j w Hj. destruct (H (S j) w Hj) as (bs & Hc & Hd). exists bs.
    split; [|done]. rewrite <- Hc. do 2 f_equal. lia.
Qed.

(** Step past the test of a status that is [NO_ERROR]. *)
Ltac status_ok := change (negb (NO_ERROR =? NO_ERROR)) with false; cbn beta iota.

Lemma user_to_membuf_loop_gather m len copied stored a i segs chunks :
  descriptors (user m) a i segs ->
  Forall2 (fun v bs => uiov_len v = Z.of_nat (length bs) /\ holds (user m) (uiov_base v) bs) segs chunks ->
  0 < len ->
  user_to_membuf_loop (length segs) len copied stored a i m =
    Done (copied + Z.min len (Z.of_nat (length (concat chunks))),
          stored ++ take (Z.to_nat len) (concat chunks)) m.
Proof.
  intros Hd Hc. revert len copied stored i Hd.
  induction Hc as [|v bs segs chunks [Hl Hh] Hc IH]; intros len copied stored i Hd Hpos.
  - simpl. rewrite take_nil, app_nil_r. unfold ret. do 2 f_equal. lia.
  - apply descriptors_cons in Hd as [Hf Hd]. simpl length. cbn [user_to_membuf_loop concat].
    unfold bind at 1. rewrite Hf by done. cbn beta iota. status_ok.
    unfold copy_from_user, bind at 1, gets. cbn beta iota zeta. rewrite Hl.
    destruct (Z.of_nat (length bs) <? len) eqn:E; zbool.
    + rewrite Nat2Z.id, (copy_from_user_holds _ _ _ Hh). cbn beta iota. status_ok.
      destruct (len - _ =? 0) eqn:E0; zbool; [lia|].
      rewrite IH by (done || lia). rewrite take_app_ge, app_assoc by lia.
      rewrite length_app. do 2 f_equal; [lia|]. f_equal. f_equal. lia.
    + rewrite <- (length_take_le bs (Z.to_nat len)) by lia.
      rewrite (copy_from_user_holds _ _ _ (holds_take _ _ _ _ Hh)). cbn beta iota. status_ok.
      destruct (len - _ =? 0) eqn:E0; zbool; [|lia].
      rewrite length_take_le by lia. rewrite take_app_le by lia. unfold ret. rewrite length_app.
      do 2 f_equal. lia.
Qed.

(** [user_iovec_to_membuf] gathers: it stores the first [len] bytes of the
    concatenation of the caller's segments, in order, across any number of
    segments (empty ones included), and returns how many bytes that is. *)
Lemma user_iovec_to_membuf_gather m len a segs chunks :
  descriptors (user m) a 0 segs ->
  Forall2 (fun v bs => uiov_len v = Z.of_nat (length bs) /\ holds (user m) (uiov_base v) bs) segs chunks ->
  0 <= len ->
  user_iovec_to_membuf len a (Z.of_nat (length segs)) m =
    Done (Z.min len (Z.of_nat (length (concat chunks))), take (Z.to_nat len) (concat chunks)) m.
Proof.
  intros Hd Hc Hl. unfold user_iovec_to_membuf.
  destruct (_ || _) eqn:E.
  - apply orb_true_iff in E as [E|E]; zbool.
    + destruct segs; [|simpl in E; lia]. inversion Hc. simpl. rewrite take_nil.
      unfold ret. do 2 f_equal. lia.
    + subst len. rewrite take_0. unfold ret. do 2 f_equal. lia.
  - zbool. rewrite Nat2Z.id. rewrite (user_to_membuf_loop_gather _ _ _ _ _ _ _ chunks) by (done || lia).
    done.
Qed.

(** ** What holds for any list the user passes *)

Lemma decode_iovec_user_range bs : 0 <= uiov_len (decode_iovec_user bs) < 2 ^ 32.
Proof. simpl. unfold le32. repeat case_match; try lia. by apply uwrap_range. Qed.

Lemma fetch_uiov_run a i m : exists st v, fetch_uiov a i m = Done (st, v) m /\
  (st = NO_ERROR \/ st = ERR_FAULT) /\ 0 <= uiov_len v < 2 ^ 32.
Proof.
  unfold fetch_uiov, copy_from_user, bind, gets, ret. do 2 eexists. split; [done|].
  split; [apply copy_from_user_code|apply decode_iovec_user_range].
Qed.

Lemma user_to_membuf_loop_safe n len copied stored a i m :
  0 < len -> copied = Z.of_nat (length stored) ->
  exists r bs, user_to_membuf_loop n len copied stored a i m = Done (r, bs) m /\
    Z.of_nat (length bs) <= len + copied /\
    (r = Z.of_nat (length bs) \/ r = ERR_FAULT).
Proof.
  revert len copied stored i. induction n as [|n IH]; intros len copied stored i Hl Hc.
  { do 2 eexists. split; [done|]. split; [lia|by left]. }
  cbn [user_to_membuf_loop]. unfold bind at 1.
  destruct (fetch_uiov_run a i m) as (st & v & -> & Hst & Hv). cbn beta iota.
  destruct (negb (st =? NO_ERROR)) eqn:E.
  { do 2 eexists. split; [done|]. destruct Hst as [->| ->]; [done|]. split; [lia|by right]. }
  unfold copy_from_user, bind at 1, gets. cbn beta iota zeta.
  set (t := if _ <? _ then _ else _).
  assert (Ht : 0 <= t <= len) by (unfold t; case_match; zbool; lia).
  pose proof (copy_from_user_code (user m) (uiov_base v) (Z.to_nat t)) as Hcode.
  pose proof (length_copy_from_user (user m) (uiov_base v) (Z.to_nat t)) as Hlen.
  destruct (arch_copy_from_user _ _ _) as [st' bs]. simpl in Hcode, Hlen.
  destruct (negb (st' =? NO_ERROR)) eqn:E'.
  { do 2 eexists. split; [done|]. destruct Hcode as [->| ->]; [done|].
    rewrite length_app. split; [lia|by right]. }
  destruct (len - t =? 0) eqn:E0; zbool.
  { do 2 eexists. split; [done|]. rewrite length_app. split; [lia|left; lia]. }
  destruct (IH (len - t) (copied + t) (stored ++ bs) (i + 1)) as (r & bs' & Hr & Hb & Hc').
  { lia. } { rewrite length_app. lia. }
  exists r, bs'. split; [done|]. split; [lia|done].
Qed.

Lemma user_iovec_to_membuf_safe len a n m :
  0 <= len ->
  exists r bs, user_iovec_to_membuf len a n m = Done (r, bs) m /\
    Z.of_nat (length bs) <= len /\ (r = Z.of_nat (length bs) \/ r = ERR_FAULT).
Proof.
  intros. unfold user_iovec_to_membuf. destruct (_ || _) eqn:E.
  - do 2 eexists. split; [done|]. split; [simpl; lia|by left].
  - zbool. destruct (user_to_membuf_loop_safe (Z.to_nat n) len 0 [] a 0 m) as (r & bs & ?); [lia|done|].
    exists r, bs. by rewrite Z.add_0_r in *.
Qed.

Lemma arch_copy_to_user_code u a bs :
  (arch_copy_to_user a bs u).1 = NO_ERROR \/ (arch_copy_to_user a bs u).1 = ERR_FAULT.
Proof.
  revert a u. induction bs as [|b bs IH]; intros a u; simpl; [by left|].
  destruct (u !! a) as [[c []]|]; [apply IH|by right|by right].
Qed.

Lemma copy_to_user_perm u a bs x :
  snd <$> (arch_copy_to_user a bs u).2 !! x = snd <$> u !! x.
Proof.
  revert a u. induction bs as [|b bs IH]; intros a u; simpl; [done|].
  destruct (u !! a) as [[c []]|] eqn:E; [|done|done].
  rewrite IH. destruct (decide (a = x)) as [->|].
  - by rewrite lookup_insert_eq, E.
  - by rewrite lookup_insert_ne.
Qed.

(** Scattering a buffer that holds at least [len] bytes: it ends, stays in the
    user's own writable memory and reports at most [len] bytes. *)
Lemma membuf_to_user_loop_safe n a i buf len copied m :
  0 < len <= Z.of_nat (length buf) -> 0 <= copied ->
  exists r m', membuf_to_user_loop n a i buf len copied m = Done r m' /\
    kernel m' = kernel m /\ (forall x, snd <$> user m' !! x = snd <$> user m !! x) /\
    (0 <= r <= len + copied \/ r = ERR_FAULT).
Proof.
  revert i buf len copied m. induction n as [|n IH]; intros i buf len copied m Hl Hc.
  { do 2 eexists. split_and!; [done..|left; lia]. }
  cbn [membuf_to_user_loop]. unfold bind at 1.
  destruct (fetch_uiov_run a i m) as (st & v & -> & Hst & Hv). cbn beta iota.
  destruct (negb (st =? NO_ERROR)) eqn:E.
  { do 2 eexists. split_and!; [done..|]. destruct Hst as [->| ->]; [done|by right]. }
  set (t := if _ <? _ then _ else _).
  assert (Ht : 0 <= t <= len) by (unfold t; case_match; zbool; lia).
  unfold bind at 1, take_exact. destruct (t <=? _) eqn:E1; zbool; [|lia].
  unfold ret at 1. unfold bind at 1, copy_to_user. cbn beta iota zeta.
  pose proof (arch_copy_to_user_code (user m) (uiov_base v) (take (Z.to_nat t) buf)) as Hcode.
  pose proof (copy_to_user_perm (user m) (uiov_base v) (take (Z.to_nat t) buf)) as Hperm.
  destruct (arch_copy_to_user _ _ _) as [st' u']. cbn [fst snd] in Hcode, Hperm |- *.
  destruct (negb (st' =? NO_ERROR)) eqn:E'.
  { do 2 eexists. split_and!; [done|done|exact Hperm|]. destruct Hcode as [->| ->]; [done|by right]. }
  destruct (len - t =? 0) eqn:E0; zbool.
  { do 2 eexists. split_and!; [done|done|exact Hperm|left; lia]. }
  destruct (IH (i + 1) (drop (Z.to_nat t) buf) (len - t) (copied + t) (set_user u' m))
    as (r & m' & Hr & Hk & Hu & Hb); [rewrite length_drop; lia|lia|].
  exists r, m'. split_and!; [done|done| |].
  - intros x. by rewrite Hu, Hperm.
  - destruct Hb; [left; lia|by right].
Qed.

Lemma membuf_to_user_iovec_safe a n buf len m :
  0 <= len <= Z.of_nat (length buf) ->
  exists r m', membuf_to_user_iovec a n (Some buf) len m = Done r m' /\
    kernel m' = kernel m /\ (forall x, snd <$> user m' !! x = snd <$> user m !! x) /\
    (0 <= r <= len \/ r = ERR_FAULT).
Proof.
  intros. unfold membuf_to_user_iovec. destruct (_ || _) eqn:E.
  - do 2 eexists. split_and!; [done..|left; lia].
  - zbool. destruct (membuf_to_user_loop_safe (Z.to_nat n) a 0 buf len 0 m) as (r & m' & ?); [lia..|].
    exists r, m'. by rewrite Z.add_0_r in *.
Qed.

(** ** Scattering, then gathering *)

Definition in_seg (x : Z) (v : iovec_user) : Prop := uiov_base v <= x < uiov_base v + uiov_len v.
Definition in_descriptor (a j x : Z) : Prop :=
  u32 (a + j * sizeof_iovec_user) <= x < u32 (a + j * sizeof_iovec_user) + sizeof_iovec_user.

Definition iov_total (segs : list iovec_user) : Z := foldr (fun v n => uiov_len v + n) 0 segs.

(** Writable, pairwise disjoint segments that leave the descriptors from index
    [i] on alone. *)
Fixpoint scatter_layout (u : umem) (a i : Z) (segs : list iovec_user) : Prop :=
  match segs with
  | [] => True
  | v :: segs =>
      0 <= uiov_len v /\ writable u (uiov_base v) (uiov_len v) /\
      (forall w x, w ∈ segs -> in_seg x v -> ~ in_seg x w) /\
      (forall j x, 0 <= j < Z.of_nat (length segs) -> in_seg x v -> ~ in_descriptor a (i + 1 + j) x) /\
      scatter_layout u a (i + 1) segs
  end.

Lemma scatter_layout_perm u u' a i segs :
  (forall x, snd <$> u' !! x = snd <$> u !! x) ->
  scatter_layout u a i segs -> scatter_layout u' a i segs.
Proof.
  intros Hp. revert i. induction segs as [|v segs IH]; intros i; simpl; [done|].
  intros (? & Hw & ? & ? & ?). split_and!; [done|by eapply writable_perm|done|done|by apply IH].
Qed.

Lemma descriptors_frame u u' a i segs :
  (forall j x, 0 <= j < Z.of_nat (length segs) -> in_descriptor a (i + j) x -> u' !! x = u !! x) ->
  descriptors u a i segs -> descriptors u' a i segs.
Proof.
  intros Hf Hd j v Hj. destruct (Hd j v Hj) as (bs & Hc & Hv). exists bs. split; [|done].
  apply copy_from_user_ok in Hc as [Hh Hl]. rewrite <- Hl. apply copy_from_user_holds.
  eapply holds_frame; [|exact Hh]. intros x Hx. apply (Hf (Z.of_nat j)).
  - apply lookup_lt_Some in Hj. lia.
  - unfold in_descriptor. rewrite Hl in Hx. unfold sizeof_iovec_user in *. lia.
Qed.

Lemma writable_holds u a n : 0 <= n -> writable u a n ->
  exists bs, Z.of_nat (length bs) = n /\ holds u a bs.
Proof.
  intros Hn. rewrite <- (Z2Nat.id n) by done. generalize (Z.to_nat n) as k. clear Hn n.
  intros k. revert a. induction k as [|k IH]; intros a H.
  - exists []. split; [done|]. intros i b Hi. by rewrite lookup_nil in Hi.
  - destruct (H a) as [b Hb]; [lia|]. destruct (IH (a + 1)) as (bs & Hl & Hh).
    { intros x Hx. apply H. lia. }
    exists (b :: bs). split; [simpl; lia|]. apply holds_cons. eauto.
Qed.

Lemma writable_segs_hold u a i segs : scatter_layout u a i segs ->
  exists chunks, Forall2 (fun v bs => uiov_len v = Z.of_nat (length bs) /\ holds u (uiov_base v) bs) segs chunks.
Proof.
  revert i. induction segs as [|v segs IH]; intros i; simpl; [by exists []|].
  intros (Hl & Hw & _ & _ & Hr). destruct (IH _ Hr) as [cs Hcs].
  destruct (writable_holds _ _ _ Hl Hw) as (bs & ? & ?). exists (bs :: cs). by constructor.
Qed.

(** Writing the first bytes of a segment and reading the whole segment back. *)
Lemma holds_prefix_rest u a n bs : Z.of_nat (length bs) <= n -> holds u a bs -> writable u a n ->
  exists rest, Z.of_nat (length (bs ++ rest)) = n /\ holds u a (bs ++ rest).
Proof.
  intros Hl Hh Hw. destruct (writable_holds u a n) as (cs & Hc & Hcs); [lia|done|].
  exists (drop (length bs) cs). split; [rewrite length_app, length_drop; lia|].
  intros i b Hi. apply lookup_app_Some in Hi as [Hi|[Hge Hi]]; [by apply Hh|].
  rewrite lookup_drop in Hi. replace i with (length bs + (i - length bs))%nat by lia. by apply Hcs.
Qed.

Lemma membuf_to_user_loop_scatter segs a i buf len copied m :
  descriptors (user m) a i segs -> scatter_layout (user m) a i segs ->
  0 < len <= Z.of_nat (length buf) ->
  exists m' chunks,
    membuf_to_user_loop (length segs) a i buf len copied m =
      Done (copied + Z.min len (iov_total segs)) m' /\
    Forall2 (fun v bs => uiov_len v = Z.of_nat (length bs) /\ holds (user m') (uiov_base v) bs) segs chunks /\
    take (Z.to_nat (Z.min len (iov_total segs))) (concat chunks) =
      take (Z.to_nat (Z.min len (iov_total segs))) buf /\
    (forall x, (forall v, v ∈ segs -> ~ in_seg x v) -> user m' !! x = user m !! x).
Proof.
  revert i buf len copied m.
  induction segs as [|v segs IH]; intros i buf len copied m Hd Hs Hl.
  { exists m, []. simpl. rewrite Z.min_r by lia. split_and!; try done.
    unfold ret. f_equal. lia. }
  apply descriptors_cons in Hd as [Hf Hd]. simpl in Hs. destruct Hs as (Hv & Hw & Hdis & Htab & Hs).
  simpl length. cbn [membuf_to_user_loop iov_total foldr]. unfold bind at 1.
  rewrite Hf by done. cbn beta iota. status_ok.
  set (t := if _ <? _ then _ else _).
  assert (Ht : t = Z.min (uiov_len v) len) by (unfold t; case_match; zbool; lia).
  unfold bind at 1, take_exact. destruct (t <=? _) eqn:E1; zbool; [|lia].
  unfold ret at 1. unfold bind at 1, copy_to_user. cbn beta iota zeta.
  assert (Htl : Z.of_nat (length (take (Z.to_nat t) buf)) = t) by (rewrite length_take; lia).
  destruct (copy_to_user_writable (user m) (uiov_base v) (take (Z.to_nat t) buf))
    as (u' & -> & Hh & Hfr & Hp).
  { intros x Hx. apply Hw. lia. }
  cbn [fst snd]. status_ok. fold (iov_total segs).
  assert (Htot : 0 <= iov_total segs).
  { clear -Hs. revert i Hs. induction segs as [|w segs IH]; intros i; simpl; [lia|].
    intros (? & _ & _ & _ & Hr). specialize (IH _ Hr). unfold iov_total in *. lia. }
  assert (Hs' : scatter_layout u' a (i + 1) segs) by (by eapply scatter_layout_perm).
  assert (Hw' : writable u' (uiov_base v) (uiov_len v)) by (by eapply writable_perm).
  destruct (len - t =? 0) eqn:E0; zbool.
  - destruct (holds_prefix_rest u' (uiov_base v) (uiov_len v) (take (Z.to_nat t) buf))
      as (rest & Hrl & Hrh); [lia|done|done|].
    destruct (writable_segs_hold _ _ _ _ Hs') as [cs Hcs].
    exists (set_user u' m), ((take (Z.to_nat t) buf ++ rest) :: cs). split_and!.
    + unfold ret. f_equal. lia.
    + constructor; [split; [done|exact Hrh]|exact Hcs].
    + simpl concat. rewrite <- app_assoc.
      rewrite take_app_le by lia. rewrite take_take. f_equal. lia.
    + intros x Hx. apply Hfr. specialize (Hx v ltac:(left)). unfold in_seg in Hx. lia.
  - destruct (IH (i + 1) (drop (Z.to_nat t) buf) (len - t) (copied + t) (set_user u' m))
      as (m' & cs & Hrun & Hcs & Htake & Hfr').
    + eapply descriptors_frame; [|exact Hd]. intros j x Hj Hx. apply Hfr. intros Hin.
      apply (Htab j x); [lia|unfold in_seg; lia|done].
    + done.
    + rewrite length_drop. lia.
    + exists m', (take (Z.to_nat t) buf :: cs). split_and!.
      * rewrite Hrun. f_equal. lia.
      * constructor; [|exact Hcs]. split; [lia|].
        eapply holds_frame; [|exact Hh]. intros x Hx. apply Hfr'. intros w Hin.
        apply (Hdis w x); [done|unfold in_seg; lia].
      * simpl concat.
        assert (Hsum : Z.to_nat (Z.min len (uiov_len v + iov_total segs)) =
          (length (take (Z.to_nat t) buf) + Z.to_nat (Z.min (len - t) (iov_total segs)))%nat) by lia.
        rewrite Hsum, take_app_add, Htake.
        rewrite length_take_le by lia. by rewrite take_take_drop.
      * intros x Hx. rewrite Hfr'.
        -- apply Hfr. specialize (Hx v ltac:(left)). unfold in_seg in Hx. lia.
        -- intros w Hw2. apply Hx. set_solver.
Qed.

Lemma iov_total_chunks u segs chunks :
  Forall2 (fun v bs => uiov_len v = Z.of_nat (length bs) /\ holds u (uiov_base v) bs) segs chunks ->
  iov_total segs = Z.of_nat (length (concat chunks)).
Proof.
  induction 1 as [|v bs segs chunks [Hl _] _ IH]; [done|]. simpl.
  unfold iov_total in IH |- *. simpl. rewrite length_app. lia.
Qed.

(** A message buffer that [membuf_to_user_iovec] delivers can be gathered
    back by [user_iovec_to_membuf] over the same list.  For writable, disjoint
    segments that leave the list itself alone the transfer succeeds, it moves
    as many bytes as the segments have room for, and the bytes read back are
    the bytes sent. *)
Lemma iovec_scatter_gather segs a buf m :
  descriptors (user m) a 0 segs -> scatter_layout (user m) a 0 segs ->
  (forall v j x, v ∈ segs -> 0 <= j < Z.of_nat (length segs) -> in_seg x v -> ~ in_descriptor a j x) ->
  exists m', membuf_to_user_iovec a (Z.of_nat (length segs)) (Some buf) (Z.of_nat (length buf)) m =
      Done (Z.min (Z.of_nat (length buf)) (iov_total segs)) m' /\
    user_iovec_to_membuf (Z.min (Z.of_nat (length buf)) (iov_total segs)) a (Z.of_nat (length segs)) m' =
      Done (Z.min (Z.of_nat (length buf)) (iov_total segs),
            take (Z.to_nat (Z.min (Z.of_nat (length buf)) (iov_total segs))) buf) m'.
Proof.
  intros Hd Hs Hdt.
  destruct (writable_segs_hold _ _ _ _ Hs) as [cs0 Hcs0].
  pose proof (iov_total_chunks _ _ _ Hcs0) as Htot0.
  set (len := Z.of_nat (length buf)). unfold membuf_to_user_iovec.
  destruct (_ || _) eqn:E.
  - assert (Hz : Z.min len (iov_total segs) = 0).
    { apply orb_true_iff in E as [E|E]; zbool; [|lia].
      destruct segs; [simpl; lia|simpl in E; lia]. }
    exists m. rewrite Hz. split; [done|]. unfold user_iovec_to_membuf.
    by rewrite orb_true_r.
  - zbool. rewrite Nat2Z.id.
    destruct (membuf_to_user_loop_scatter segs a 0 buf len 0 m Hd Hs) as (m' & cs & Hrun & Hcs & Ht & Hfr); [lia|].
    exists m'. split; [done|]. unfold user_iovec_to_membuf.
    destruct (_ || _) eqn:E2.
    + apply orb_true_iff in E2 as [E2|E2]; zbool; [lia|]. by rewrite E2.
    + zbool. rewrite Nat2Z.id.
      rewrite (user_to_membuf_loop_gather _ _ _ _ _ _ _ cs); [|eapply descriptors_frame; [|exact Hd]|done|lia].
      * rewrite Ht, <- (iov_total_chunks _ _ _ Hcs). simpl app. do 2 f_equal. lia.
      * intros j x Hj Hx. apply Hfr. intros v Hv Hin. by eapply Hdt.
Qed.

(** ** Witnesses *)

(** Two descriptors at 0x1000 for a 3-byte and a 4-byte segment. *)
Definition demo_umem : umem :=
  list_to_map ((fun '(i, b) => (0x1000 + Z.of_nat i, (b, true))) <$>
    imap pair [0x20; 0x10; 0; 0; 3; 0; 0; 0; 0x30; 0x10; 0; 0; 4; 0; 0; 0])
  ∪ list_to_map ((fun '(i, b) => (0x1020 + Z.of_nat i, (b, true))) <$> imap pair [65; 66; 67])
  ∪ list_to_map ((fun '(i, b) => (0x1030 + Z.of_nat i, (b, true))) <$> imap pair [68; 69; 70; 0]).
Definition demo_mem : mem := Mem ∅ demo_umem.
Definition demo_segs : list iovec_user := [IovecUser 0x1020 3; IovecUser 0x1030 4].

Lemma demo_descriptors : descriptors demo_umem 0x1000 0 demo_segs.
Proof.
  intros [|[|j]] v Hj; simpl in Hj; simplify_eq; eexists; (split; [vm_compute; reflexivity|reflexivity]).
Qed.

Lemma strlcpy_from_user_spec_witness :
  arch_strlcpy_from_user 0x1030 3 demo_umem = Some (3, [68; 69; 0]).
Proof.
  destruct (strlcpy_from_user_spec 0x1030 3 demo_umem) as (r & bs & H & _ & Hs).
  destruct (Hs [68; 69; 70]) as [-> ->]; [lia| |exact H].
  split; [|exists true; vm_compute; reflexivity].
  intros [|[|[|i]]] c Hi; simpl in Hi; inversion Hi;
    (split; [lia|exists true; vm_compute; reflexivity]).
Defined.

Lemma user_iovec_to_membuf_gather_witness :
  user_iovec_to_membuf 5 0x1000 2 demo_mem = Done (5, [65; 66; 67; 68; 69]) demo_mem.
Proof.
  assert (H : user_iovec_to_membuf 5 0x1000 (Z.of_nat (length demo_segs)) demo_mem =
      Done (Z.min 5 (Z.of_nat (length [65; 66; 67; 68; 69; 70; 0])),
            take (Z.to_nat 5) [65; 66; 67; 68; 69; 70; 0]) demo_mem); [|exact H].
  apply (user_iovec_to_membuf_gather demo_mem 5 0x1000 demo_segs [[65; 66; 67]; [68; 69; 70; 0]]).
  - exact demo_descriptors.
  - repeat constructor; intros i b Hi; exists true;
      do 5 (destruct i as [|i]; [simpl in Hi; simplify_eq; vm_compute; reflexivity|]); done.
  - lia.
Defined.

Lemma iovec_scatter_gather_witness :
  exists m', membuf_to_user_iovec 0x1000 2 (Some [1; 2; 3; 4; 5]) 5 demo_mem = Done 5 m' /\
    user_iovec_to_membuf 5 0x1000 2 m' = Done (5, [1; 2; 3; 4; 5]) m'.
Proof.
  destruct (iovec_scatter_gather demo_segs 0x1000 [1; 2; 3; 4; 5] demo_mem) as (m' & H1 & H2);
    [| | |exists m'; split; [exact H1|exact H2]].
  - exact demo_descriptors.
  - assert (Hw : forall v, v ∈ demo_segs -> writable demo_umem (uiov_base v) (uiov_len v)).
    { intros v Hv x Hx. unfold demo_segs in Hv. set_unfold in Hv.
      destruct Hv as [->|[->|[]]]; simpl in Hx.
      - assert (x = 0x1020 \/ x = 0x1021 \/ x = 0x1022) as [->|[->| ->]] by lia;
          eexists; vm_compute; reflexivity.
      - assert (x = 0x1030 \/ x = 0x1031 \/ x = 0x1032 \/ x = 0x1033) as [->|[->|[->| ->]]] by lia;
          eexists; vm_compute; reflexivity. }
    simpl. split; [lia|]. split; [apply (Hw (IovecUser 0x1020 3)); left|].
    split.
    { intros w x Hw' Hx. set_unfold in Hw'. destruct Hw' as [->|[]]. unfold in_seg in *. simpl in *. lia. }
    split.
    { intros j x Hj. assert (j = 0) as -> by lia. unfold in_seg, in_descriptor. simpl uiov_base.
      simpl uiov_len. unfold u32, uwrap, sizeof_iovec_user. rewrite Z.mod_small by lia. lia. }
    split; [lia|]. split; [apply (Hw (IovecUser 0x1030 4)); right; left|].
    split; [intros w x Hw'; by apply not_elem_of_nil in Hw'|].
    split; [intros j x Hj; lia|done].
  - intros v j x Hv Hj. unfold demo_segs in *. simpl in Hj.
    assert (j = 0 \/ j = 1) as [->| ->] by lia; set_unfold in Hv;
      destruct Hv as [->|[->|[]]]; unfold in_seg, in_descriptor; simpl;
      unfold u32, uwrap, sizeof_iovec_user; rewrite Z.mod_small by lia; lia.
Defined.

End Iovec.
