(* ===== verification/MsgQueue.v ===== *)
(** * The message queue of a channel

    [lib/trusty/ipc_msg.c]: a fixed number of equal-sized buffers, each with a
    descriptor that is linked on the free, the filled or the read list.  A
    list node is the index of its descriptor in [items].  The parts of
    [msg_write_locked] and [msg_put_read_locked] that touch the channel are in
    [Ipc.v]. *)

From S2P Require Import Prelude Iovec.

Module MsgQueue.
Import Usercopy Iovec.

(** ** Data *)

Definition MSG_ITEM_STATE_FREE : Z := 0.
Definition MSG_ITEM_STATE_FILLED : Z := 1.
Definition MSG_ITEM_STATE_READ : Z := 2.

Record msg_item := MsgItem {
  item_id : Z;
  item_state : Z;
  item_num_handles : Z;
  item_len : Z
}.

Record ipc_msg_queue := MsgQueue {
  free_list : list nat;
  filled_list : list nat;
  read_list : list nat;
  num_items : Z;
  item_sz : Z;
  buf : list Z;
  items : list msg_item
}.

(** The tagged union [msg_desc_t]; any other [type] is [MsgOther]. *)
Inductive msg_desc :=
| MsgKern (num_iov : Z) (iov : option (list iovec_kern)) (num_handles : Z)
| MsgUser (num_iov : Z) (iov : Z) (num_handles : Z)
| MsgOther (type : Z).

Record ipc_msg_info := MsgInfo { info_len : Z; info_id : Z }.

Definition set_lists (fr fi re : list nat) (mq : ipc_msg_queue) : ipc_msg_queue :=
  MsgQueue fr fi re (num_items mq) (item_sz mq) (buf mq) (items mq).
Definition set_item (i : nat) (it : msg_item) (mq : ipc_msg_queue) : ipc_msg_queue :=
  MsgQueue (free_list mq) (filled_list mq) (read_list mq) (num_items mq) (item_sz mq) (buf mq)
    (<[i := it]> (items mq)).
Definition set_buf (b : list Z) (mq : ipc_msg_queue) : ipc_msg_queue :=
  MsgQueue (free_list mq) (filled_list mq) (read_list mq) (num_items mq) (item_sz mq) b (items mq).

(** ** Construction *)

(** The result is the return code and [*mq].  [have_mq] says whether [calloc]
    succeeds; [malloc_buf] is what [malloc] returns: the bytes found in the
    new buffer, or nothing. *)
Definition ipc_msg_queue_create (have_mq : bool) (malloc_buf : option (list Z))
    (n sz : Z) : Z * option ipc_msg_queue :=
  if negb have_mq then (ERR_NO_MEMORY, None)
  else match malloc_buf with
       | None => (ERR_NO_MEMORY, None)
       | Some b =>
           let idx := seq 0 (Z.to_nat n) in
           (0, Some (MsgQueue idx [] [] n sz b
                       ((fun i => MsgItem (u8 (Z.of_nat i)) MSG_ITEM_STATE_FREE 0 0) <$> idx)))
       end.

Definition ipc_msg_queue_is_empty (mq : ipc_msg_queue) : bool :=
  bool_decide (filled_list mq = []).
Definition ipc_msg_queue_is_full (mq : ipc_msg_queue) : bool :=
  bool_decide (free_list mq = []).

(** The buffer of an item, as an offset into [buf]. *)
Definition msg_queue_get_buf (mq : ipc_msg_queue) (it : msg_item) : Z := item_id it * item_sz mq.

Definition msg_queue_get_item (mq : ipc_msg_queue) (id : Z) : option nat :=
  if id <? num_items mq then Some (Z.to_nat id) else None.

(** Storing bytes at an offset of the queue's buffer. *)
Definition store_buf (off : Z) (bs : list Z) (mq : ipc_msg_queue) : M mem ipc_msg_queue :=
  if off + Z.of_nat (length bs) <=? Z.of_nat (length (buf mq)) then
    ret (set_buf (list_inserts (Z.to_nat off) bs (buf mq)) mq)
  else bad_access.

(** ** Operations *)

Definition load_msg (mq : ipc_msg_queue) (msg : msg_desc) : M mem (Z * list Z) :=
  match msg with
  | MsgKern num_iov iov num_handles =>
      if negb (num_handles =? 0) then ret (ERR_NOT_SUPPORTED, [])
      else kern_iovec_to_membuf (item_sz mq) iov num_iov
  | MsgUser num_iov iov num_handles =>
      if negb (num_handles =? 0) then ret (ERR_NOT_SUPPORTED, [])
      else user_iovec_to_membuf (item_sz mq) iov num_iov
  | MsgOther _ => ret (ERR_INVALID_ARGS, [])
  end.

(** The part of [msg_write_locked] on the receiver's queue. *)
Definition write_item (mq : ipc_msg_queue) (msg : msg_desc) : M mem (Z * ipc_msg_queue) :=
  match free_list mq with
  | [] => ret (ERR_NOT_ENOUGH_BUFFER, mq)
  | i :: free =>
      it <- deref (items mq !! i) ;;
      assert_ (item_state it =? MSG_ITEM_STATE_FREE) ;;;
      let mq := set_item i (MsgItem (item_id it) (item_state it) 0 0) mq in
      r <- load_msg mq msg ;;
      let '(ret_, stored) := r in
      mq <- store_buf (msg_queue_get_buf mq it) stored mq ;;
      if ret_ <? 0 then ret (ret_, mq)
      else
        let mq := set_lists free (filled_list mq ++ [i]) (read_list mq) mq in
        let mq := set_item i (MsgItem (item_id it) MSG_ITEM_STATE_FILLED 0 ret_) mq in
        ret (s32 ret_, mq)
  end.

Definition msg_read_locked (mq : ipc_msg_queue) (msg_id offset : Z) (msg : msg_desc) : M mem Z :=
  match msg_queue_get_item mq msg_id with
  | None => ret ERR_INVALID_ARGS
  | Some i =>
      it <- deref (items mq !! i) ;;
      if negb (item_state it =? MSG_ITEM_STATE_READ) then ret ERR_INVALID_ARGS
      else if negb (item_num_handles it =? 0) then ret ERR_NOT_SUPPORTED
      else if item_len it <? offset then ret ERR_INVALID_ARGS
      else
        let b := drop (Z.to_nat (msg_queue_get_buf mq it + offset)) (buf mq) in
        let bytes_left := item_len it - offset in
        match msg with
        | MsgKern num_iov iov num_handles =>
            if negb (num_handles =? 0) then ret ERR_NOT_SUPPORTED
            else r <- membuf_to_kern_iovec iov num_iov (Some b) bytes_left ;; ret (s32 r)
        | MsgUser num_iov iov num_handles =>
            if negb (num_handles =? 0) then ret ERR_NOT_SUPPORTED
            else r <- membuf_to_user_iovec iov num_iov (Some b) bytes_left ;; ret (s32 r)
        | MsgOther _ => ret ERR_INVALID_ARGS
        end
  end.

(** The result is the return code and what is written to [info]. *)
Definition msg_peek_next_filled_locked (mq : ipc_msg_queue) : M mem (Z * option ipc_msg_info) :=
  match filled_list mq with
  | [] => ret (ERR_NO_MSG, None)
  | i :: _ =>
      it <- deref (items mq !! i) ;;
      ret (NO_ERROR, Some (MsgInfo (u32 (item_len it)) (item_id it)))
  end.

Definition set_item_state (i : nat) (st : Z) (mq : ipc_msg_queue) : M mem ipc_msg_queue :=
  it <- deref (items mq !! i) ;;
  ret (set_item i (MsgItem (item_id it) st (item_num_handles it) (item_len it)) mq).

Definition msg_get_filled_locked (mq : ipc_msg_queue) : M mem ipc_msg_queue :=
  match filled_list mq with
  | [] => panic
  | i :: filled =>
      set_item_state i MSG_ITEM_STATE_READ
        (set_lists (free_list mq) filled (read_list mq ++ [i]) mq)
  end.

(** The part of [msg_put_read_locked] on the queue. *)
Definition put_item (mq : ipc_msg_queue) (msg_id : Z) : M mem (Z * ipc_msg_queue) :=
  match msg_queue_get_item mq msg_id with
  | None => ret (ERR_INVALID_ARGS, mq)
  | Some i =>
      it <- deref (items mq !! i) ;;
      if negb (item_state it =? MSG_ITEM_STATE_READ) then ret (ERR_INVALID_ARGS, mq)
      else
        mq <- set_item_state i MSG_ITEM_STATE_FREE
                (set_lists (i :: free_list mq) (filled_list mq) (remove_first i (read_list mq)) mq) ;;
        ret (NO_ERROR, mq)
  end.

(** ** The queue as a data type

    A descriptor is on exactly the list its state says; its buffer is its own
    slice of [buf]. *)

Definition on_list (mq : ipc_msg_queue) (st : Z) (i : nat) : Prop :=
  (st = MSG_ITEM_STATE_FREE /\ i ∈ free_list mq) \/
  (st = MSG_ITEM_STATE_FILLED /\ i ∈ filled_list mq) \/
  (st = MSG_ITEM_STATE_READ /\ i ∈ read_list mq).

Record mq_wf (mq : ipc_msg_queue) : Prop := {
  wf_num : 0 < num_items mq <= 256;
  wf_sz : 0 < item_sz mq < 2 ^ 31;
  wf_items : length (items mq) = Z.to_nat (num_items mq);
  wf_buf : Z.of_nat (length (buf mq)) = num_items mq * item_sz mq;
  wf_lists : free_list mq ++ filled_list mq ++ read_list mq ≡ₚ seq 0 (Z.to_nat (num_items mq));
  wf_item : forall i it, items mq !! i = Some it ->
    item_id it = Z.of_nat i /\ item_num_handles it = 0 /\
    0 <= item_len it <= item_sz mq /\ on_list mq (item_state it) i
}.

(** The bytes of the message in item [i]. *)
Definition item_bytes (mq : ipc_msg_queue) (i : nat) : list Z :=
  take (Z.to_nat (default 0 (item_len <$> items mq !! i)))
    (drop (i * Z.to_nat (item_sz mq)) (buf mq)).

(** What the queue stands for: the messages sent and not yet received, in
    order, and the ones the receiver holds by their id. *)
Definition pending (mq : ipc_msg_queue) : list (list Z) := item_bytes mq <$> filled_list mq.
Definition reading (mq : ipc_msg_queue) (id : Z) : option (list Z) :=
  if decide (0 <= id /\ Z.to_nat id ∈ read_list mq) then Some (item_bytes mq (Z.to_nat id)) else None.
Definition capacity (mq : ipc_msg_queue) : Z := Z.of_nat (length (free_list mq)).

(** ** Lists and items of a well-formed queue *)

Section Wf.
Context (mq : ipc_msg_queue) (Hwf : mq_wf mq).

Lemma lists_NoDup : NoDup (free_list mq ++ filled_list mq ++ read_list mq).
Proof. rewrite (wf_lists _ Hwf). apply NoDup_seq. Qed.

Lemma lists_range i :
  i ∈ free_list mq ++ filled_list mq ++ read_list mq <-> (i < Z.to_nat (num_items mq))%nat.
Proof. rewrite (wf_lists _ Hwf), elem_of_seq. lia. Qed.

Lemma lists_disjoint i :
  ~ (i ∈ free_list mq /\ i ∈ filled_list mq) /\
  ~ (i ∈ free_list mq /\ i ∈ read_list mq) /\
  ~ (i ∈ filled_list mq /\ i ∈ read_list mq).
Proof.
  pose proof lists_NoDup as H. apply NoDup_app in H as (_ & H1 & H).
  apply NoDup_app in H as (_ & H2 & _). specialize (H1 i). specialize (H2 i). set_solver.
Qed.

Lemma item_lookup i : i ∈ free_list mq ++ filled_list mq ++ read_list mq ->
  exists it, items mq !! i = Some it.
Proof. intros Hi%lists_range. apply lookup_lt_is_Some_2. by rewrite (wf_items _ Hwf). Qed.

(** The state of an item is the one of its list, and the other way round. *)
Lemma state_list i it : items mq !! i = Some it ->
  (item_state it = MSG_ITEM_STATE_FREE <-> i ∈ free_list mq) /\
  (item_state it = MSG_ITEM_STATE_FILLED <-> i ∈ filled_list mq) /\
  (item_state it = MSG_ITEM_STATE_READ <-> i ∈ read_list mq).
Proof.
  intros Hi. destruct (wf_item _ Hwf i it Hi) as (_ & _ & _ & Hon).
  pose proof (lists_disjoint i).
  unfold on_list, MSG_ITEM_STATE_FREE, MSG_ITEM_STATE_FILLED, MSG_ITEM_STATE_READ in *.
  split_and!; (split; intros; [naive_solver lia|]); naive_solver lia.
Qed.

Lemma item_slice i it : items mq !! i = Some it ->
  Z.of_nat i < num_items mq /\
  Z.of_nat (i * Z.to_nat (item_sz mq)) + item_len it <= Z.of_nat (length (buf mq)) /\
  Z.of_nat (i * Z.to_nat (item_sz mq)) = item_id it * item_sz mq.
Proof.
  intros Hi. destruct (wf_item _ Hwf i it Hi) as (Hid & _ & Hl & _).
  pose proof (lookup_lt_Some _ _ _ Hi) as Hlt. rewrite (wf_items _ Hwf) in Hlt.
  pose proof (wf_sz _ Hwf). pose proof (wf_num _ Hwf). rewrite (wf_buf _ Hwf), Hid. nia.
Qed.

Lemma length_item_bytes i it : items mq !! i = Some it ->
  Z.of_nat (length (item_bytes mq i)) = item_len it.
Proof.
  intros Hi. destruct (item_slice i it Hi) as (_ & Hb & _).
  destruct (wf_item _ Hwf i it Hi) as (_ & _ & Hl & _).
  unfold item_bytes. rewrite Hi. simpl. rewrite length_take, length_drop. lia.
Qed.

End Wf.

(** ** Storing a message *)

Definition stored (i : nat) (bs : list Z) (mq : ipc_msg_queue) : ipc_msg_queue :=
  set_buf (list_inserts (i * Z.to_nat (item_sz mq)) bs (buf mq)) mq.

Lemma store_buf_run mq i it bs m : mq_wf mq -> items mq !! i = Some it ->
  Z.of_nat (length bs) <= item_sz mq ->
  store_buf (msg_queue_get_buf mq it) bs mq m = Done (stored i bs mq) m.
Proof.
  intros Hwf Hi Hl. destruct (item_slice mq Hwf i it Hi) as (Hn & _ & Hoff).
  unfold store_buf, msg_queue_get_buf, stored. rewrite <- Hoff.
  pose proof (wf_sz _ Hwf). rewrite (wf_buf _ Hwf).
  destruct (_ <=? _) eqn:E; zbool; [by rewrite Nat2Z.id|]. nia.
Qed.

(** A take-drop window that the inserted list does not touch, or that it is. *)
Lemma take_drop_inserts_out i bs (l : list Z) a k :
  (a + k <= i \/ i + length bs <= a)%nat ->
  take k (drop a (list_inserts i bs l)) = take k (drop a l).
Proof.
  intros Ho. apply list_eq. intros x.
  destruct (decide (x < k)%nat) as [Hx|Hx]; [|rewrite !lookup_take_ge by lia; done].
  rewrite !lookup_take_lt, !lookup_drop by lia.
  destruct Ho; [rewrite list_lookup_inserts_lt by lia|rewrite list_lookup_inserts_ge by lia]; done.
Qed.

Lemma take_drop_inserts_in i bs (l : list Z) :
  (i + length bs <= length l)%nat ->
  take (length bs) (drop i (list_inserts i bs l)) = bs.
Proof.
  intros Hl. apply list_eq. intros x.
  destruct (decide (x < length bs)%nat) as [Hx|Hx].
  - rewrite lookup_take_lt, lookup_drop, list_lookup_inserts by lia. f_equal. lia.
  - rewrite lookup_take_ge, lookup_ge_None_2 by lia. done.
Qed.

(** ** Changing one item *)

(** [mq'] keeps the shape of [mq], and every item but [i]. *)
Record same_but (i : nat) (mq mq' : ipc_msg_queue) : Prop := {
  sb_num : num_items mq' = num_items mq;
  sb_sz : item_sz mq' = item_sz mq;
  sb_len : length (items mq') = length (items mq);
  sb_buf : length (buf mq') = length (buf mq);
  sb_item : forall j, j <> i -> items mq' !! j = items mq !! j;
  sb_bytes : forall j, mq_wf mq -> j <> i -> item_bytes mq' j = item_bytes mq j
}.

Lemma same_but_bytes_eq i mq mq' : same_but i mq mq' -> mq_wf mq ->
  forall l : list nat, i ∉ l -> item_bytes mq' <$> l = item_bytes mq <$> l.
Proof.
  intros H Hwf l Hi. apply list_fmap_ext. intros k j Hj. apply (sb_bytes _ _ _ H); [done|].
  intros ->. apply Hi. by eapply list_elem_of_lookup_2.
Qed.

(** The well-formedness of a queue in which only item [i] moved. *)
Lemma same_but_wf i it mq mq' : same_but i mq mq' -> mq_wf mq ->
  free_list mq' ++ filled_list mq' ++ read_list mq' ≡ₚ free_list mq ++ filled_list mq ++ read_list mq ->
  (forall j, j <> i ->
    (j ∈ free_list mq -> j ∈ free_list mq') /\
    (j ∈ filled_list mq -> j ∈ filled_list mq') /\
    (j ∈ read_list mq -> j ∈ read_list mq')) ->
  items mq' !! i = Some it ->
  item_id it = Z.of_nat i -> item_num_handles it = 0 -> 0 <= item_len it <= item_sz mq ->
  on_list mq' (item_state it) i ->
  mq_wf mq'.
Proof.
  intros [Hn Hs Hl Hb Hit _] Hwf Hp Hm Hi H1 H2 H3 H4. split.
  - rewrite Hn. apply Hwf.
  - rewrite Hs. apply Hwf.
  - rewrite Hl, Hn. apply Hwf.
  - rewrite Hb, Hn, Hs. apply Hwf.
  - rewrite Hn, <- (wf_lists _ Hwf). done.
  - intros j jt Hj. destruct (decide (j = i)) as [->|Hne].
    + rewrite Hi in Hj. simplify_eq. by rewrite Hs.
    + rewrite Hit in Hj by done. rewrite Hs.
      destruct (wf_item _ Hwf j jt Hj) as (? & ? & ? & Hon). split_and!; try done; try lia.
      specialize (Hm j Hne). unfold on_list in *. tauto.
Qed.

Lemma item_bytes_set_item mq i it j : j <> i ->
  item_bytes (set_item i it mq) j = item_bytes mq j.
Proof. intros. unfold item_bytes. simpl. by rewrite list_lookup_insert_ne. Qed.

Lemma item_bytes_stored mq i bs j : mq_wf mq -> j <> i ->
  Z.of_nat (length bs) <= item_sz mq ->
  item_bytes (stored i bs mq) j = item_bytes mq j.
Proof.
  intros Hwf Hne Hl. unfold item_bytes. simpl.
  destruct (items mq !! j) as [jt|] eqn:Hj; [|by rewrite !take_0].
  destruct (wf_item _ Hwf j jt Hj) as (_ & _ & Hjl & _). simpl.
  apply take_drop_inserts_out. nia.
Qed.

Lemma same_but_trans i a b c : same_but i a b -> mq_wf b \/ (forall j, j <> i -> item_bytes c j = item_bytes b j) ->
  same_but i b c -> same_but i a c.
Proof.
  intros [H1 H2 H3 H4 H5 H6] Hor [K1 K2 K3 K4 K5 K6]. split; try congruence.
  - intros j Hj. by rewrite K5, H5.
  - intros j Hwf Hj. rewrite <- H6 by done. destruct Hor as [Hb|Hb]; eauto.
Qed.

(** Storing a message in item [i] and rewriting its descriptor, whatever the
    lists become. *)
Lemma stored_same_but mq i it bs fr fi re : mq_wf mq ->
  (i < length (items mq))%nat -> Z.of_nat (length bs) <= item_sz mq ->
  let mq' := set_item i it (set_lists fr fi re (stored i bs mq)) in
  same_but i mq mq' /\ items mq' !! i = Some it /\
  (item_len it = Z.of_nat (length bs) -> item_bytes mq' i = bs).
Proof.
  intros Hwf Hi Hl mq'. split_and!.
  - split; try done; simpl.
    + by rewrite length_insert.
    + by rewrite length_inserts.
    + intros j Hj. by rewrite list_lookup_insert_ne.
    + intros j _ Hj. unfold mq'. rewrite item_bytes_set_item by done.
      apply (item_bytes_stored mq i bs j Hwf Hj Hl).
  - simpl. by rewrite list_lookup_insert_eq.
  - intros Hlen. unfold item_bytes. simpl. rewrite list_lookup_insert_eq by done. simpl.
    rewrite Hlen, Nat2Z.id. apply take_drop_inserts_in.
    pose proof (wf_buf _ Hwf). pose proof (wf_sz _ Hwf). rewrite (wf_items _ Hwf) in Hi.
    pose proof (wf_num _ Hwf). nia.
Qed.

Lemma reading_same mq mq' i : same_but i mq mq' -> mq_wf mq ->
  i ∉ read_list mq -> i ∉ read_list mq' ->
  (forall j, j <> i -> j ∈ read_list mq' <-> j ∈ read_list mq) ->
  forall id, reading mq' id = reading mq id.
Proof.
  intros Hs Hwf Hni Hni' Hr id. unfold reading.
  destruct (decide (Z.to_nat id = i)) as [->|Hne].
  - rewrite !decide_False by tauto. done.
  - rewrite (sb_bytes _ _ _ Hs _ Hwf Hne). specialize (Hr _ Hne).
    destruct (decide _) as [[? ?]|?], (decide _) as [[? ?]|?]; tauto.
Qed.

Lemma load_msg_user mq niov iov nh m : mq_wf mq ->
  exists r bs, load_msg mq (MsgUser niov iov nh) m = Done (r, bs) m /\
    Z.of_nat (length bs) <= item_sz mq /\ (r = Z.of_nat (length bs) \/ r < 0).
Proof.
  intros Hwf. simpl. destruct (negb _).
  - do 2 eexists. split; [done|]. pose proof (wf_sz _ Hwf). split; [simpl; lia|by right].
  - destruct (user_iovec_to_membuf_safe (item_sz mq) iov niov m) as (r & bs & ? & ? & ?);
      [pose proof (wf_sz _ Hwf); lia|].
    exists r, bs. split_and!; [done..|]. destruct H1 as [?| ->]; [by left|by right].
Qed.

Lemma s32_small x : - 2 ^ 31 <= x < 2 ^ 31 -> s32 x = x.
Proof.
  intros H. unfold s32, swrap, uwrap. change (32 - 1) with 31.
  destruct (Z.lt_ge_cases x 0).
  - rewrite <- (Z.mod_add x 1 (2 ^ 32)), Z.mod_small by lia.
    destruct (_ <? _) eqn:E; zbool; lia.
  - rewrite Z.mod_small by lia. destruct (_ <? _) eqn:E; zbool; lia.
Qed.

(** What a finished transfer does to the queue. *)
Lemma write_item_run mq msg m m' r bs : mq_wf mq -> free_list mq <> [] ->
  load_msg mq msg m = Done (r, bs) m' -> Z.of_nat (length bs) <= item_sz mq ->
  (r = Z.of_nat (length bs) \/ r < 0) ->
  exists mq', write_item mq msg m = Done (r, mq') m' /\ mq_wf mq' /\
    (forall id, reading mq' id = reading mq id) /\
    item_sz mq' = item_sz mq /\ num_items mq' = num_items mq /\
    if r <? 0 then pending mq' = pending mq /\ capacity mq' = capacity mq
    else pending mq' = pending mq ++ [bs] /\ capacity mq' = capacity mq - 1.
Proof.
  intros Hwf Hne Hload Hl Hr. unfold write_item.
  destruct (free_list mq) as [|i free] eqn:Hfree; [done|].
  pose proof (lists_NoDup mq Hwf) as Hnd. rewrite Hfree in Hnd.
  destruct (item_lookup mq Hwf i) as [it Hit]; [rewrite Hfree; set_solver|].
  destruct (state_list mq Hwf i it Hit) as (HstF & _ & _).
  destruct (wf_item _ Hwf i it Hit) as (Hid & Hnh & _ & _).
  pose proof (lookup_lt_Some _ _ _ Hit) as Hlt.
  assert (HsF : item_state it = MSG_ITEM_STATE_FREE) by (apply HstF; rewrite Hfree; left).
  unfold bind, deref, ret. rewrite Hit. cbn beta iota. rewrite HsF, Z.eqb_refl. cbn [assert_].
  unfold ret. cbn beta iota zeta.
  set (mq1 := set_item i _ mq).
  assert (Hload1 : load_msg mq1 msg m = Done (r, bs) m') by done.
  rewrite Hload1. cbn beta iota.
  assert (Hst : store_buf (msg_queue_get_buf mq1 it) bs mq1 m' = Done (stored i bs mq1) m').
  { pose proof (store_buf_run mq i it bs m' Hwf Hit Hl) as Hs. unfold store_buf in *.
    change (msg_queue_get_buf mq1 it) with (msg_queue_get_buf mq it).
    change (buf mq1) with (buf mq). destruct (_ <=? _); [|done].
    unfold ret in *. inversion Hs as [Hs']. f_equal. unfold mq1, stored, set_buf, set_item. simpl.
    f_equal. exact Hs'. }
  rewrite Hst. clear Hst Hload1.
  assert (Hnf : i ∉ filled_list mq /\ i ∉ read_list mq).
  { pose proof (lists_disjoint mq Hwf i). rewrite Hfree in *. set_solver. }
  destruct (r <? 0) eqn:Er; zbool.
  - destruct (stored_same_but mq i (MsgItem (item_id it) MSG_ITEM_STATE_FREE 0 0) bs
        (i :: free) (filled_list mq) (read_list mq) Hwf Hlt Hl) as (Hsb & Hi' & _).
    set (mq' := set_item i _ (set_lists _ _ _ _)) in *.
    assert (mq' = stored i bs mq1) as <-.
    { unfold mq', mq1, stored, set_item, set_lists, set_buf. simpl. by rewrite Hfree. }
    exists mq'. split; [done|]. split; [|split; [|split; [done|split; [done|]]]].
    + eapply (same_but_wf i); [exact Hsb|done| | |exact Hi'|exact Hid|done|simpl; pose proof (wf_sz _ Hwf); lia|].
      * simpl. by rewrite Hfree.
      * intros j _. simpl. by rewrite Hfree.
      * left. split; [done|left].
    + apply (reading_same mq mq' i); [done|done|apply Hnf|apply Hnf|done].
    + split; [|by unfold capacity; rewrite Hfree].
      unfold pending. apply (same_but_bytes_eq _ _ _ Hsb Hwf). apply Hnf.
  - destruct Hr as [->|?]; [|lia].
    destruct (stored_same_but mq i (MsgItem (item_id it) MSG_ITEM_STATE_FILLED 0 (Z.of_nat (length bs))) bs
        free (filled_list mq ++ [i]) (read_list mq) Hwf Hlt Hl) as (Hsb & Hi' & Hbytes).
    specialize (Hbytes eq_refl). set (mq' := set_item i _ (set_lists _ _ _ _)) in *.
    exists mq'. split.
    { pose proof (wf_sz _ Hwf). rewrite s32_small by lia. do 2 f_equal.
      unfold mq', mq1, stored, set_item, set_lists, set_buf. simpl. f_equal.
      by rewrite list_insert_insert_eq. }
    split; [|split; [|split; [done|split; [done|]]]].
    + eapply (same_but_wf i); [exact Hsb|done| | |exact Hi'|exact Hid|done|simpl; lia|].
      * simpl. rewrite Hfree. rewrite <- app_assoc. simpl. solve_Permutation.
      * intros j Hj. simpl. rewrite Hfree. set_solver.
      * right. left. split; [done|]. simpl. set_solver.
    + apply (reading_same mq mq' i); [done|done|apply Hnf|apply Hnf|done].
    + split; [|unfold capacity; rewrite Hfree; simpl; lia].
      unfold pending. change (filled_list mq') with (filled_list mq ++ [i]).
      rewrite fmap_app. simpl. rewrite Hbytes. f_equal.
      apply (same_but_bytes_eq _ _ _ Hsb Hwf). apply Hnf.
Qed.

(** ** Moving an item between lists *)

Lemma set_item_state_same_but mq i it st fr fi re : mq_wf mq -> items mq !! i = Some it ->
  let mq' := set_item i (MsgItem (item_id it) st (item_num_handles it) (item_len it))
               (set_lists fr fi re mq) in
  (forall m, set_item_state i st (set_lists fr fi re mq) m = Done mq' m) /\
  same_but i mq mq' /\
  items mq' !! i = Some (MsgItem (item_id it) st (item_num_handles it) (item_len it)) /\
  item_bytes mq' i = item_bytes mq i.
Proof.
  intros Hwf Hi mq'. pose proof (lookup_lt_Some _ _ _ Hi) as Hlt. split_and!.
  - intros m. unfold set_item_state, bind, deref, ret. simpl. by rewrite Hi.
  - split; try done; simpl.
    + by rewrite length_insert.
    + intros j Hj. by rewrite list_lookup_insert_ne.
    + intros j _ Hj. unfold mq'. by rewrite item_bytes_set_item.
  - simpl. by rewrite list_lookup_insert_eq.
  - unfold item_bytes. simpl. by rewrite list_lookup_insert_eq, Hi by done.
Qed.

Lemma reading_lookup mq id msg : reading mq id = Some msg ->
  0 <= id /\ Z.to_nat id ∈ read_list mq /\ msg = item_bytes mq (Z.to_nat id).
Proof. unfold reading. destruct (decide _) as [[? ?]|?]; intros; by simplify_eq. Qed.

Lemma msg_queue_get_item_reading mq id msg : mq_wf mq -> reading mq id = Some msg ->
  msg_queue_get_item mq id = Some (Z.to_nat id) /\
  exists it, items mq !! Z.to_nat id = Some it /\ item_state it = MSG_ITEM_STATE_READ /\
    item_id it = id /\ item_len it = Z.of_nat (length msg) /\ item_num_handles it = 0.
Proof.
  intros Hwf (Hid & Hin & ->)%reading_lookup.
  destruct (item_lookup mq Hwf (Z.to_nat id)) as [it Hit]; [set_solver|].
  destruct (wf_item _ Hwf _ it Hit) as (Hi & Hh & _ & _).
  destruct (state_list mq Hwf _ it Hit) as (_ & _ & Hs).
  pose proof (lookup_lt_Some _ _ _ Hit) as Hlt. rewrite (wf_items _ Hwf) in Hlt.
  split.
  - unfold msg_queue_get_item. destruct (_ <? _) eqn:E; zbool; [done|lia].
  - exists it. rewrite (length_item_bytes mq Hwf _ it Hit). split_and!; try done; [tauto|lia].
Qed.

Lemma msg_queue_get_item_idle mq id : mq_wf mq -> 0 <= id -> reading mq id = None ->
  match msg_queue_get_item mq id with
  | None => True
  | Some i => exists it, items mq !! i = Some it /\ item_state it <> MSG_ITEM_STATE_READ
  end.
Proof.
  intros Hwf Hid Hr. unfold msg_queue_get_item. destruct (_ <? _) eqn:E; zbool; [|done].
  destruct (item_lookup mq Hwf (Z.to_nat id)) as [it Hit].
  { apply (lists_range mq Hwf). lia. }
  exists it. split; [done|]. destruct (state_list mq Hwf _ it Hit) as (_ & _ & Hs).
  intros Heq%Hs. unfold reading in Hr. rewrite decide_True in Hr; done.
Qed.

(** ** Delivery of bytes depends only on the message *)

Lemma membuf_to_user_loop_take n a i b len copied m :
  0 < len <= Z.of_nat (length b) ->
  membuf_to_user_loop n a i b len copied m =
  membuf_to_user_loop n a i (take (Z.to_nat len) b) len copied m.
Proof.
  revert i b len copied m. induction n as [|n IH]; intros i b len copied m Hl; [done|].
  cbn [membuf_to_user_loop]. unfold bind.
  destruct (fetch_uiov_run a i m) as (st & v & -> & _ & Hv). cbn beta iota.
  destruct (negb _); [done|].
  set (t := if _ <? _ then _ else _).
  assert (Ht : 0 <= t <= len) by (unfold t; case_match; zbool; lia).
  unfold take_exact. rewrite length_take.
  destruct (t <=? Z.of_nat (length b)) eqn:E1; zbool; [|lia].
  destruct (t <=? Z.of_nat _) eqn:E2; zbool; [|lia].
  rewrite take_take, Nat.min_l by lia. unfold ret. cbn beta iota.
  destruct (copy_to_user _ _ m) as [st' m'|w]; [|done].
  destruct (negb _); [done|]. destruct (len - t =? 0) eqn:E3; zbool; [done|].
  rewrite IH by (rewrite length_drop; lia).
  rewrite (IH _ (drop _ (take _ _))) by (rewrite length_drop, length_take; lia).
  f_equal. rewrite skipn_firstn_comm, take_take. f_equal. lia.
Qed.

Lemma membuf_to_user_iovec_take a n b len m : 0 <= len <= Z.of_nat (length b) ->
  membuf_to_user_iovec a n (Some b) len m =
  membuf_to_user_iovec a n (Some (take (Z.to_nat len) b)) len m.
Proof.
  intros. unfold membuf_to_user_iovec. destruct (_ || _) eqn:E; [done|]. zbool.
  apply membuf_to_user_loop_take. lia.
Qed.

(** ** The queue is a bounded FIFO with retained messages *)

Lemma write_refines mq niov iov nh m : mq_wf mq ->
  exists r mq', write_item mq (MsgUser niov iov nh) m = Done (r, mq') m /\ mq_wf mq' /\
    (forall id, reading mq' id = reading mq id) /\
    ((0 <= r <= item_sz mq /\ 0 < capacity mq /\ exists msg, Z.of_nat (length msg) = r /\
        user_iovec_to_membuf (item_sz mq) iov niov m = Done (r, msg) m /\
        pending mq' = pending mq ++ [msg] /\ capacity mq' = capacity mq - 1) \/
     (r < 0 /\ pending mq' = pending mq /\ capacity mq' = capacity mq)).
Proof.
  intros Hwf. destruct (decide (free_list mq = [])) as [Hf|Hf].
  { exists ERR_NOT_ENOUGH_BUFFER, mq. unfold write_item. rewrite Hf.
    split_and!; [done|done|done|]. right. split_and!; [unfold ERR_NOT_ENOUGH_BUFFER; lia|done|done]. }
  destruct (load_msg_user mq niov iov nh m Hwf) as (r & bs & Hload & Hl & Hr).
  destruct (write_item_run mq _ m m r bs Hwf Hf Hload Hl Hr) as (mq' & Hrun & Hwf' & Hrd & _ & _ & Hq).
  exists r, mq'. split_and!; [done..|]. destruct (r <? 0) eqn:E; zbool; [by right|left].
  destruct Hr as [Hr|?]; [|lia]. split; [lia|].
  split; [unfold capacity; destruct (free_list mq); simpl; [done|lia]|].
  exists bs. split_and!; try tauto; [lia|]. rewrite <- Hload.
  simpl in *. destruct (negb (nh =? 0)); [|done]. unfold ret in Hload. by simplify_eq.
Qed.

Lemma kread_take a n k bs i : kread a n k = Some bs -> (i <= n)%nat -> kread a i k = Some (take i bs).
Proof.
  revert a bs i. induction n as [|n IH]; intros a bs i; simpl.
  - intros [= <-] Hi. by replace i with O by lia.
  - destruct (k !! a) as [b|] eqn:Eb; [|done]. simpl. destruct (kread (a + 1) n k) as [bs'|] eqn:E; [|done].
    intros [= <-] Hi. destruct i as [|i]; [done|]. simpl. rewrite Eb. simpl. by rewrite (IH _ _ _ E) by lia.
Qed.

(** A message that is read from one piece of kernel memory. *)
Lemma write_kern mq a bs m : mq_wf mq -> free_list mq <> [] -> a <> 0 ->
  kread a (length bs) (kernel m) = Some bs ->
  let msg := take (Z.to_nat (item_sz mq)) bs in
  exists mq', write_item mq (MsgKern 1 (Some [IovecKern a (Z.of_nat (length bs))]) 0) m = Done (Z.of_nat (length msg), mq') m /\
    mq_wf mq' /\ pending mq' = pending mq ++ [msg] /\ capacity mq' = capacity mq - 1.
Proof.
  intros Hwf Hf Ha Hrd msg. pose proof (wf_sz _ Hwf) as Hsz.
  assert (Hload : load_msg mq (MsgKern 1 (Some [IovecKern a (Z.of_nat (length bs))]) 0) m = Done (Z.of_nat (length msg), msg) m).
  { cbn [load_msg]. change (negb (0 =? 0)) with false. cbv iota. unfold kern_iovec_to_membuf.
    rewrite orb_false_l, (proj2 (Z.eqb_neq (item_sz mq) 0)) by lia. change (Z.to_nat 1) with 1%nat.
    cbn [kern_to_membuf_loop head tail iov_len iov_base]. unfold bind at 1, deref, ret at 1. cbv iota beta zeta.
    cbn [iov_len iov_base]. set (k := if _ <? _ then _ else _).
    assert (Hk : Z.to_nat k = length msg /\ 0 <= k).
    { unfold msg. rewrite length_take. unfold k. destruct (_ <? _) eqn:E; zbool; lia. }
    destruct (k =? 0) eqn:Ek; zbool.
    { assert (msg = []) as -> by (apply nil_length_inv; lia). done. }
    rewrite (proj2 (Z.eqb_neq a 0)) by done. unfold bind, memcpy_from.
    rewrite (proj1 Hk), (kread_take _ _ _ _ _ Hrd) by (unfold msg; rewrite length_take; lia).
    assert (Hm : take (length msg) bs = msg) by (unfold msg; by rewrite length_take, <- take_take, firstn_all).
    rewrite Hm. simpl. destruct (_ =? 0); unfold ret; repeat f_equal; lia. }
  destruct (write_item_run mq _ m m _ msg Hwf Hf Hload) as (mq' & Hrun & Hwf' & _ & _ & _ & Hq).
  { unfold msg. rewrite length_take. lia. }
  { by left. }
  exists mq'. split; [done|]. split; [done|]. rewrite (proj2 (Z.ltb_ge _ 0)) in Hq by lia. tauto.
Qed.

(** C2: writing a user's message.  On a well-formed queue the write always
    finishes without a fault of the kernel, whatever the user passes.  It
    either appends exactly the gathered bytes, at most [item_sz] of them, to
    the pending messages and takes one free buffer, or returns an error and
    leaves every message as it was; messages being read are never touched. *)
Theorem msg_write_refines mq niov iov nh m : mq_wf mq ->
  exists r mq', write_item mq (MsgUser niov iov nh) m = Done (r, mq') m /\ mq_wf mq' /\
    (forall id, reading mq' id = reading mq id) /\
    ((0 <= r <= item_sz mq /\ 0 < capacity mq /\ exists msg, Z.of_nat (length msg) = r /\
        user_iovec_to_membuf (item_sz mq) iov niov m = Done (r, msg) m /\
        pending mq' = pending mq ++ [msg] /\ capacity mq' = capacity mq - 1) \/
     (r < 0 /\ pending mq' = pending mq /\ capacity mq' = capacity mq)).
Proof. apply write_refines. Qed.

(** Taking a message: the two steps of [ipc_get_msg] on the queue. *)
Lemma get_fifo mq m : mq_wf mq ->
  match pending mq with
  | [] => msg_peek_next_filled_locked mq m = Done (ERR_NO_MSG, None) m
  | msg :: rest =>
      exists id mq', msg_peek_next_filled_locked mq m =
          Done (NO_ERROR, Some (MsgInfo (Z.of_nat (length msg)) id)) m /\
        reading mq id = None /\
        msg_get_filled_locked mq m = Done mq' m /\ mq_wf mq' /\
        pending mq' = rest /\ capacity mq' = capacity mq /\
        reading mq' id = Some msg /\ (forall id', id' <> id -> 0 <= id' -> reading mq' id' = reading mq id')
  end.
Proof.
  intros Hwf. unfold pending at 1. destruct (filled_list mq) as [|i filled] eqn:Hfi; simpl.
  { unfold msg_peek_next_filled_locked. by rewrite Hfi. }
  destruct (item_lookup mq Hwf i) as [it Hit]; [rewrite Hfi; set_solver|].
  destruct (wf_item _ Hwf i it Hit) as (Hid & Hnh & Hl & _).
  pose proof (lists_disjoint mq Hwf i) as Hdis. rewrite Hfi in Hdis.
  pose proof (length_item_bytes mq Hwf i it Hit) as Hlen.
  destruct (set_item_state_same_but mq i it MSG_ITEM_STATE_READ (free_list mq) filled
              (read_list mq ++ [i]) Hwf Hit) as (Hrun & Hsb & Hi' & Hb).
  set (mq' := set_item _ _ _) in *.
  pose proof (lists_NoDup mq Hwf) as Hnd. rewrite Hfi in Hnd.
  assert (Hnf : i ∉ filled).
  { apply NoDup_app in Hnd as (_ & _ & Hnd). simpl in Hnd. apply NoDup_cons in Hnd. set_solver. }
  exists (Z.of_nat i), mq'. split_and!.
  - unfold msg_peek_next_filled_locked, bind, deref, ret. rewrite Hfi, Hit. cbn beta iota.
    pose proof (wf_sz _ Hwf). unfold u32. rewrite uwrap_small by lia. by rewrite Hlen, Hid.
  - unfold reading. rewrite decide_False; [done|]. rewrite Nat2Z.id. set_solver.
  - unfold msg_get_filled_locked. by rewrite Hfi, Hrun.
  - eapply (same_but_wf i); [exact Hsb|done| | |exact Hi'|done|done|simpl; lia|].
    + simpl. rewrite Hfi. solve_Permutation.
    + intros j Hj. simpl. rewrite Hfi. set_solver.
    + right. right. split; [done|]. simpl. set_solver.
  - unfold pending. simpl. apply (same_but_bytes_eq _ _ _ Hsb Hwf). done.
  - done.
  - unfold reading. rewrite Nat2Z.id, decide_True; [by rewrite Hb|]. simpl. split; [lia|set_solver].
  - intros id' Hne Hpos. unfold reading. simpl.
    assert (Hne' : Z.to_nat id' <> i) by lia.
    rewrite (sb_bytes _ _ _ Hsb _ Hwf Hne').
    destruct (decide _) as [[? ?]|?], (decide _) as [[? ?]|?]; set_solver.
Qed.

(** A message that is read into one piece of kernel memory is cut to its
    size. *)
Lemma read_kern mq id msg a n m : mq_wf mq -> reading mq id = Some msg -> a <> 0 -> 0 <= n ->
  let bs := take (Z.to_nat n) msg in
  msg_read_locked mq id 0 (MsgKern 1 (Some [IovecKern a n]) 0) m =
    match kwrite a bs (kernel m) with
    | Some k => Done (Z.of_nat (length bs)) (set_kernel k m)
    | None => Crash BadAccess
    end.
Proof.
  intros Hwf Hr Ha Hn bs.
  destruct (msg_queue_get_item_reading mq id msg Hwf Hr) as (Hg & it & Hit & Hst & Hiid & Hl & Hnh).
  apply reading_lookup in Hr as (_ & _ & Hmsg).
  destruct (item_slice mq Hwf _ it Hit) as (_ & Hsl & Heq). rewrite Hiid in Heq.
  destruct (wf_item _ Hwf _ it Hit) as (_ & _ & Hlen & _).
  unfold msg_read_locked, bind at 1, deref. rewrite Hg, Hit. unfold ret at 1. cbn beta iota.
  rewrite Hst, Z.eqb_refl, Hnh. change (negb true) with false. change (negb (0 =? 0)) with false.
  cbn iota. rewrite (proj2 (Z.ltb_ge (item_len it) 0)) by lia. cbn zeta. unfold msg_queue_get_buf. rewrite Hiid, Z.add_0_r, Z.sub_0_r.
  set (b := drop _ (buf mq)). assert (Hb : take (Z.to_nat (item_len it)) b = msg).
  { rewrite Hmsg. unfold item_bytes. rewrite Hit. simpl. unfold b. do 2 f_equal. lia. }
  assert (Hbl : item_len it <= Z.of_nat (length b)).
  { rewrite Hl, <- Hb. rewrite length_take. lia. }
  pose proof (wf_sz _ Hwf) as Hsz. unfold bind, membuf_to_kern_iovec. change (1 =? 0) with false. rewrite orb_false_l.
  assert (Hnil : bs = [] -> match kwrite a bs (kernel m) with
      | Some k => Done (Z.of_nat (length bs)) (set_kernel k m) | None => Crash BadAccess end = Done 0 m).
  { intros ->. by destruct m. }
  destruct (item_len it =? 0) eqn:E0; zbool.
  { rewrite Hnil; [done|]. unfold bs. apply nil_length_inv. rewrite length_take. lia. }
  change (Z.to_nat 1) with 1%nat. cbn [membuf_to_kern_loop head tail iov_len iov_base]. unfold bind, deref, ret. cbn zeta beta iota.
  cbn [iov_len iov_base]. set (k := if _ <? _ then _ else _).
  assert (Hk : k = Z.of_nat (length bs)).
  { unfold bs. rewrite length_take. unfold k. simpl iov_len. destruct (_ <? _) eqn:E; zbool; lia. }
  clearbody k. destruct (k =? 0) eqn:Ek; zbool.
  { rewrite Hnil; [done|]. apply nil_length_inv. lia. }
  simpl iov_base. rewrite (proj2 (Z.eqb_neq a 0)) by done. unfold take_exact.
  assert (Hkl : (length bs <= length msg)%nat) by (unfold bs; rewrite length_take; lia).
  rewrite (proj2 (Z.leb_le k _)) by lia. unfold ret, memcpy_to.
  assert (Hsrc : take (Z.to_nat k) b = bs).
  { rewrite Hk, Nat2Z.id. transitivity (take (length bs) msg).
    - rewrite <- Hb, take_take. f_equal. lia.
    - unfold bs. rewrite length_take, <- take_take, firstn_all. done. }
  rewrite Hsrc. destruct (kwrite a bs (kernel m)) as [k'|]; [|done].
  destruct (item_len it - k =? 0); unfold ret; rewrite s32_small by lia; do 2 f_equal; lia.
Qed.

(** C3: [get] is first in, first out.  With a message pending, peeking reports
    its length and an id, and taking it moves exactly that message from the
    head of the pending ones to the ones being read under that id, which was
    not in use; with none pending it reports [ERR_NO_MSG]. *)
Theorem msg_get_fifo mq m : mq_wf mq ->
  match pending mq with
  | [] => msg_peek_next_filled_locked mq m = Done (ERR_NO_MSG, None) m
  | msg :: rest =>
      exists id mq', msg_peek_next_filled_locked mq m =
          Done (NO_ERROR, Some (MsgInfo (Z.of_nat (length msg)) id)) m /\
        reading mq id = None /\
        msg_get_filled_locked mq m = Done mq' m /\ mq_wf mq' /\
        pending mq' = rest /\ capacity mq' = capacity mq /\
        reading mq' id = Some msg /\ (forall id', id' <> id -> 0 <= id' -> reading mq' id' = reading mq id')
  end.
Proof. apply get_fifo. Qed.

(** Reading.  A message being read is delivered from the requested offset
    on, and nothing but its own bytes: the call does what scattering
    [drop offset msg] does.  An offset past the end, and an id that names no
    message being read, are [ERR_INVALID_ARGS] and touch no memory. *)
Lemma msg_read_delivers mq id off niov iov m : mq_wf mq -> 0 <= id -> 0 <= off ->
  msg_read_locked mq id off (MsgUser niov iov 0) m =
    match reading mq id with
    | Some msg =>
        if off <=? Z.of_nat (length msg) then
          membuf_to_user_iovec iov niov (Some (drop (Z.to_nat off) msg)) (Z.of_nat (length msg) - off) m
        else Done ERR_INVALID_ARGS m
    | None => Done ERR_INVALID_ARGS m
    end.
Proof.
  intros Hwf Hid Hoff. destruct (reading mq id) as [msg|] eqn:Hr.
  - destruct (msg_queue_get_item_reading mq id msg Hwf Hr) as (Hg & it & Hit & Hst & Hiid & Hl & Hnh).
    apply reading_lookup in Hr as (_ & _ & Hmsg).
    destruct (item_slice mq Hwf _ it Hit) as (_ & Hsl & Heq). rewrite Hiid in Heq.
    destruct (wf_item _ Hwf _ it Hit) as (_ & _ & Hlen & _).
    unfold msg_read_locked, bind at 1, deref. rewrite Hg, Hit. unfold ret at 1. cbn beta iota.
    rewrite Hst, Z.eqb_refl, Hnh. change (negb true) with false. change (negb (0 =? 0)) with false.
    cbn iota.
    destruct (item_len it <? off) eqn:E1, (off <=? Z.of_nat (length msg)) eqn:E2; zbool; try lia; [done|].
    cbn zeta. unfold msg_queue_get_buf. rewrite Hiid.
    replace (Z.to_nat (id * item_sz mq + off))
      with (Z.to_nat id * Z.to_nat (item_sz mq) + Z.to_nat off)%nat by lia.
    rewrite <- drop_drop.
    assert (Hd : take (Z.to_nat (item_len it - off))
        (drop (Z.to_nat off) (drop (Z.to_nat id * Z.to_nat (item_sz mq)) (buf mq))) = drop (Z.to_nat off) msg).
    { rewrite Hmsg. unfold item_bytes. rewrite Hit. simpl. rewrite skipn_firstn_comm. f_equal. lia. }
    unfold bind. rewrite membuf_to_user_iovec_take by (rewrite !length_drop; lia).
    rewrite Hd, Hl.
    destruct (membuf_to_user_iovec_safe iov niov (drop (Z.to_nat off) msg) (Z.of_nat (length msg) - off) m)
      as (r & m' & Hrun & _ & _ & Hb); [rewrite length_drop; lia|].
    rewrite Hrun. unfold ret. pose proof (wf_sz _ Hwf). rewrite s32_small; [done|].
    destruct Hb as [?| ->]; [lia|unfold ERR_FAULT; lia].
  - pose proof (msg_queue_get_item_idle mq id Hwf Hid Hr) as Hi. unfold msg_read_locked.
    destruct (msg_queue_get_item mq id) as [i|]; [|done].
    destruct Hi as (it & Hit & Hst). unfold bind, deref, ret. rewrite Hit. cbn beta iota.
    by rewrite (proj2 (Z.eqb_neq _ _) Hst).
Qed.

Lemma put_retires mq id m : mq_wf mq -> 0 <= id ->
  match reading mq id with
  | Some _ => exists mq', put_item mq id m = Done (NO_ERROR, mq') m /\ mq_wf mq' /\
      pending mq' = pending mq /\ capacity mq' = capacity mq + 1 /\
      reading mq' id = None /\ (forall id', id' <> id -> 0 <= id' -> reading mq' id' = reading mq id')
  | None => put_item mq id m = Done (ERR_INVALID_ARGS, mq) m
  end.
Proof.
  intros Hwf Hid. destruct (reading mq id) as [msg|] eqn:Hr.
  - destruct (msg_queue_get_item_reading mq id msg Hwf Hr) as (Hg & it & Hit & Hst & Hiid & Hl & Hnh).
    apply reading_lookup in Hr as (_ & Hin & _). set (i := Z.to_nat id) in *.
    destruct (wf_item _ Hwf _ it Hit) as (Hid' & _ & Hlen & _).
    pose proof (lists_disjoint mq Hwf i) as Hdis.
    pose proof (lists_NoDup mq Hwf) as Hnd.
    apply NoDup_app in Hnd as (_ & _ & Hnd). apply NoDup_app in Hnd as (_ & _ & Hnd).
    destruct (set_item_state_same_but mq i it MSG_ITEM_STATE_FREE (i :: free_list mq) (filled_list mq)
                (remove_first i (read_list mq)) Hwf Hit) as (Hrun & Hsb & Hi' & Hb).
    set (mq' := set_item _ _ _) in *. exists mq'. split_and!.
    + unfold put_item, bind, deref, ret. rewrite Hg, Hit. cbn beta iota.
      rewrite Hst, Z.eqb_refl. change (negb true) with false. cbn beta iota.
      by rewrite Hrun.
    + eapply (same_but_wf i); [exact Hsb|done| | |exact Hi'|done|done|simpl; lia|].
      * simpl. rewrite (remove_first_perm i (read_list mq)) at 2 by done. solve_Permutation.
      * intros j Hj. simpl. rewrite elem_of_remove_first by done. set_solver.
      * left. split; [done|]. simpl. left.
    + unfold pending. simpl. apply (same_but_bytes_eq _ _ _ Hsb Hwf). tauto.
    + unfold capacity. simpl length. lia.
    + unfold reading. rewrite decide_False; [done|]. simpl. fold i.
      rewrite elem_of_remove_first by done. tauto.
    + intros id' Hne Hpos. unfold reading. simpl.
      assert (Hne' : Z.to_nat id' <> i) by lia.
      rewrite (sb_bytes _ _ _ Hsb _ Hwf Hne').
      pose proof (elem_of_remove_first i (Z.to_nat id') _ Hnd).
      destruct (decide _) as [[? ?]|?], (decide _) as [[? ?]|?]; tauto.
  - pose proof (msg_queue_get_item_idle mq id Hwf Hid Hr) as Hi. unfold put_item.
    destruct (msg_queue_get_item mq id) as [i|]; [|done].
    destruct Hi as (it & Hit & Hst). unfold bind, deref, ret. rewrite Hit. cbn beta iota.
    by rewrite (proj2 (Z.eqb_neq _ _) Hst).
Qed.

(** Putting a message back.  A message being read is retired: its buffer
    becomes free again and no other message changes; any other id is
    [ERR_INVALID_ARGS] and changes nothing, so a buffer is never freed twice. *)
Lemma msg_put_retires mq id m : mq_wf mq -> 0 <= id ->
  match reading mq id with
  | Some _ => exists mq', put_item mq id m = Done (NO_ERROR, mq') m /\ mq_wf mq' /\
      pending mq' = pending mq /\ capacity mq' = capacity mq + 1 /\
      reading mq' id = None /\ (forall id', id' <> id -> 0 <= id' -> reading mq' id' = reading mq id')
  | None => put_item mq id m = Done (ERR_INVALID_ARGS, mq) m
  end.
Proof. apply put_retires. Qed.

(** A created queue is well-formed, empty and wholly free. *)
Lemma ipc_msg_queue_create_wf b n sz : 0 < n <= 256 -> 0 < sz < 2 ^ 31 ->
  Z.of_nat (length b) = n * sz ->
  exists mq, ipc_msg_queue_create true (Some b) n sz = (0, Some mq) /\ mq_wf mq /\
    pending mq = [] /\ capacity mq = n /\ (forall id, reading mq id = None) /\
    num_items mq = n /\ item_sz mq = sz.
Proof.
  intros Hn Hs Hb. eexists. split; [done|]. split_and!; try done.
  - split; simpl; try done.
    + by rewrite length_fmap, length_seq.
    + by rewrite app_nil_r.
    + intros i it Hi. rewrite list_lookup_fmap in Hi.
      destruct (seq 0 (Z.to_nat n) !! i) as [j|] eqn:Hj; simpl in Hi; [|done]. simplify_eq.
      apply lookup_seq in Hj as [-> Hj]. simpl.
      unfold u8. rewrite uwrap_small by lia.
      split_and!; try done; [lia|]. left. split; [done|]. simpl. apply elem_of_seq. lia.
  - unfold capacity. simpl. rewrite length_seq. lia.
  - intros id. unfold reading. rewrite decide_False; [done|]. simpl. set_solver.
Qed.

(** ** Witnesses

    Three buffers of four bytes: item 0 holds [1; 2; 3] and is being read,
    item 1 is free, item 2 holds [7; 8] and is pending. *)
Definition demo_mq : ipc_msg_queue :=
  MsgQueue [1%nat] [2%nat] [0%nat] 3 4 [1; 2; 3; 0; 9; 9; 9; 9; 7; 8; 0; 0]
    [MsgItem 0 MSG_ITEM_STATE_READ 0 3; MsgItem 1 MSG_ITEM_STATE_FREE 0 0;
     MsgItem 2 MSG_ITEM_STATE_FILLED 0 2].

Lemma demo_mq_wf : mq_wf demo_mq.
Proof.
  split; simpl; try lia; try reflexivity.
  - solve_Permutation.
  - intros [|[|[|i]]] it Hi; simpl in Hi; inversion Hi; subst; simpl; unfold on_list; simpl;
      (split_and!; try lia); [right; right|left|right; left]; (split; [done|left]).
Qed.

Lemma msg_write_refines_witness :
  exists mq', write_item demo_mq (MsgUser 2 0x1000 0) demo_mem = Done (4, mq') demo_mem /\
    pending mq' = [[7; 8]; [65; 66; 67; 68]].
Proof.
  destruct (msg_write_refines demo_mq 2 0x1000 0 demo_mem demo_mq_wf)
    as (r & mq' & Hrun & _ & _ & [(_ & _ & msg & Hl & Hg & Hp & _)|(Hr & _)]).
  - assert (Hv : user_iovec_to_membuf (item_sz demo_mq) 0x1000 2 demo_mem = Done (4, [65; 66; 67; 68]) demo_mem)
      by (vm_compute; reflexivity).
    rewrite Hv in Hg. injection Hg as Hr Hm. rewrite <- Hr in Hrun. rewrite <- Hm in Hp.
    exists mq'. split; [exact Hrun|exact Hp].
  - assert (Hv : exists q, write_item demo_mq (MsgUser 2 0x1000 0) demo_mem = Done (4, q) demo_mem)
      by (eexists; vm_compute; reflexivity).
    destruct Hv as [q Hv]. rewrite Hv in Hrun. injection Hrun as Hr' _. exfalso. lia.
Defined.

Lemma msg_get_fifo_witness :
  exists mq', msg_get_filled_locked demo_mq demo_mem = Done mq' demo_mem /\ pending mq' = [].
Proof.
  pose proof (msg_get_fifo demo_mq demo_mem demo_mq_wf) as H.
  change (pending demo_mq) with [[7; 8]] in H. cbn iota in H.
  destruct H as (id & mq' & _ & _ & Hrun & _ & Hp & _). exists mq'. split; [exact Hrun|exact Hp].
Defined.

Lemma msg_read_delivers_witness :
  msg_read_locked demo_mq 0 1 (MsgUser 2 0x1000 0) demo_mem =
  membuf_to_user_iovec 0x1000 2 (Some [2; 3]) 2 demo_mem.
Proof.
  pose proof (msg_read_delivers demo_mq 0 1 2 0x1000 demo_mem demo_mq_wf ltac:(lia) ltac:(lia)) as H.
  change (reading demo_mq 0) with (Some [1; 2; 3]) in H. exact H.
Defined.

Lemma msg_put_retires_witness :
  exists mq', put_item demo_mq 0 demo_mem = Done (NO_ERROR, mq') demo_mem /\ capacity mq' = 2.
Proof.
  pose proof (msg_put_retires demo_mq 0 demo_mem demo_mq_wf ltac:(lia)) as H.
  change (reading demo_mq 0) with (Some [1; 2; 3]) in H. cbn iota in H.
  destruct H as (mq' & Hrun & _ & _ & Hc & _). exists mq'. split; [exact Hrun|exact Hc].
Defined.

End MsgQueue.
