(* ===== verification/MemKeep.v ===== *)
(** * Kernel memory that is there stays there

    The transfers between message buffers, kernel memory and user memory
    store bytes; none of them takes memory away. *)

From S2P Require Import Prelude Iovec MsgQueue.

Module MemKeep.
Import Usercopy Iovec MsgQueue.

(** ** What a store leaves *)

Lemma kwrite_lookup bs : forall a k k', kwrite a bs k = Some k' -> forall x,
  k' !! x = if (a <=? x) && (x <? a + Z.of_nat (length bs)) then bs !! Z.to_nat (x - a) else k !! x.
Proof.
  induction bs as [|b bs IH]; simpl; intros a k k'.
  - intros [= <-] x. destruct (_ && _) eqn:E; [|done]. zbool. lia.
  - destruct (k !! a); [|done]. simpl. intros Hw x. rewrite (IH _ _ _ Hw x). destruct (decide (x = a)) as [->|Hne].
    + rewrite (proj2 (Z.leb_gt (a + 1) a)) by lia. rewrite andb_false_l, (proj2 (Z.leb_le a a)), (proj2 (Z.ltb_lt a _)) by lia.
      rewrite Z.sub_diag. simpl. by rewrite lookup_insert_eq.
    + rewrite lookup_insert_ne by done. replace (a <=? x) with (a + 1 <=? x) by (apply eq_true_iff_eq; zbool; lia).
      replace (a + 1 + Z.of_nat (length bs)) with (a + Z.of_nat (S (length bs))) by lia.
      destruct (a + 1 <=? x) eqn:E1; [|done]. zbool. rewrite !andb_true_l. destruct (_ <? _); [|done].
      by replace (Z.to_nat (x - a)) with (S (Z.to_nat (x - (a + 1)))) by lia.
Qed.

Lemma kread_lookup n : forall a k bs, kread a n k = Some bs <->
  length bs = n /\ forall i, (i < n)%nat -> k !! (a + Z.of_nat i) = bs !! i.
Proof.
  induction n as [|n IH]; intros a k bs; simpl.
  - split; [intros [= <-]; split; [done|lia]|]. intros [Hl _]. by destruct bs.
  - split.
    + destruct (k !! a) as [b|] eqn:Eb; [|done]. simpl. destruct (kread (a + 1) n k) as [bs'|] eqn:E; [|done].
      intros [= <-]. apply IH in E as [Hl Hi]. simpl. split; [lia|]. intros [|i] Hlt; [by rewrite Z.add_0_r|].
      simpl. rewrite <- Hi by lia. f_equal. lia.
    + intros [Hl Hi]. destruct bs as [|b bs]; [done|]. pose proof (Hi O ltac:(lia)) as H0. rewrite Z.add_0_r in H0.
      simpl in H0. rewrite H0. simpl. rewrite (proj2 (IH (a + 1) k bs)); [done|]. split; [simpl in Hl; lia|].
      intros i Hlt. change (bs !! i) with ((b :: bs) !! S i). rewrite <- Hi by lia. f_equal. lia.
Qed.

Lemma kread_written a bs k k' : kwrite a bs k = Some k' -> kread a (length bs) k' = Some bs.
Proof.
  intros Hw. apply kread_lookup. split; [done|]. intros i Hi. rewrite (kwrite_lookup _ _ _ _ Hw).
  rewrite (proj2 (Z.leb_le _ _)), (proj2 (Z.ltb_lt _ _)) by lia. simpl. f_equal. lia.
Qed.

Lemma kread_apart a bs k k' b n : kwrite a bs k = Some k' ->
  b + Z.of_nat n <= a \/ a + Z.of_nat (length bs) <= b -> kread b n k' = kread b n k.
Proof.
  intros Hw Hap. apply option_eq. intros xs. rewrite !kread_lookup. apply and_iff_compat_l. split; intros H i Hi;
    rewrite <- (H i Hi), (kwrite_lookup _ _ _ _ Hw); (destruct (_ && _) eqn:E; [zbool; lia|done]).
Qed.

(** ** Nothing goes away *)

Definition mem_kept (m m' : mem) : Prop := forall a, is_Some (kernel m !! a) -> is_Some (kernel m' !! a).

Lemma mem_kept_refl m : mem_kept m m.
Proof. by intros a. Qed.

#[export] Hint Resolve mem_kept_refl : core.

Lemma mem_kept_trans m1 m2 m3 : mem_kept m1 m2 -> mem_kept m2 m3 -> mem_kept m1 m3.
Proof. intros H1 H2 a Ha. by apply H2, H1. Qed.

Definition mkeep {A} (m : M mem A) : Prop := forall s a s', m s = Done a s' -> mem_kept s s'.

Lemma mkeep_bind {A B} (m : M mem A) (f : A -> M mem B) : mkeep m -> (forall a, mkeep (f a)) -> mkeep (bind m f).
Proof.
  intros Hm Hf s b s'. unfold bind. destruct (m s) as [a s1|] eqn:E; [|done]. intros Hb.
  eapply mem_kept_trans; [by eapply Hm|by eapply Hf].
Qed.

Lemma mkeep_ret {A} (a : A) : mkeep (ret a).
Proof. by intros s b s' [= _ <-]. Qed.

Lemma mkeep_gets {A} (f : mem -> A) : mkeep (gets f).
Proof. by intros s b s' [= _ <-]. Qed.

Lemma mkeep_panic {A} : mkeep (panic (A := A)).
Proof. done. Qed.

Lemma mkeep_bad {A} : mkeep (bad_access (A := A)).
Proof. done. Qed.

Lemma mkeep_deref {A} (o : option A) : mkeep (deref o).
Proof. destruct o; [apply mkeep_ret|done]. Qed.

Lemma mkeep_assert b : mkeep (assert_ b).
Proof. destruct b; [apply mkeep_ret|done]. Qed.

Lemma kwrite_kept bs : forall a k k', kwrite a bs k = Some k' -> forall x, is_Some (k !! x) -> is_Some (k' !! x).
Proof.
  induction bs as [|b bs IH]; simpl; intros a k k'; [by intros [= <-]|].
  destruct (k !! a); [|done]. simpl. intros Hw x Hx. apply (IH _ _ _ Hw). rewrite lookup_insert_is_Some.
  destruct (decide (a = x)); tauto.
Qed.

Lemma mkeep_memcpy_to a bs : mkeep (memcpy_to a bs).
Proof.
  intros s u s'. unfold memcpy_to. destruct (kwrite _ _ _) as [k|] eqn:E; [|done]. intros [= _ <-] x. by eapply kwrite_kept.
Qed.

Lemma mkeep_memcpy_from a n : mkeep (memcpy_from a n).
Proof. intros s u s'. unfold memcpy_from. by destruct (kread _ _ _); intros [= _ <-]. Qed.

Lemma mkeep_copy_to_user a bs : mkeep (copy_to_user a bs).
Proof. by intros s u s' [= _ <-] x. Qed.

#[export] Hint Resolve mkeep_ret mkeep_gets mkeep_panic mkeep_bad mkeep_deref mkeep_assert mkeep_memcpy_to mkeep_memcpy_from
  mkeep_copy_to_user : trusty.

(** Go through a transfer. *)
Ltac mkeeps :=
  repeat first
    [ solve [eauto with trusty]
    | match goal with
      | |- mkeep (bind _ _) => apply mkeep_bind; [|intros ?]
      | |- mkeep (if ?b then _ else _) => destruct b
      | |- mkeep (match ?x with _ => _ end) => destruct x
      end
    | progress cbv zeta ].

Lemma mkeep_take n b : mkeep (take_exact n b).
Proof. unfold take_exact. mkeeps. Qed.

Lemma mkeep_fetch a i : mkeep (fetch_uiov a i).
Proof. unfold fetch_uiov, copy_from_user. mkeeps. Qed.

#[export] Hint Resolve mkeep_take mkeep_fetch : trusty.

Lemma mkeep_to_kern_loop n : forall iov b len c, mkeep (membuf_to_kern_loop n iov b len c).
Proof. induction n as [|n IH]; intros; simpl; mkeeps; apply IH. Qed.

Lemma mkeep_from_kern_loop n : forall len c st iov, mkeep (kern_to_membuf_loop n len c st iov).
Proof. induction n as [|n IH]; intros; simpl; mkeeps; apply IH. Qed.

Lemma mkeep_to_user_loop n : forall a i b len c, mkeep (membuf_to_user_loop n a i b len c).
Proof. induction n as [|n IH]; intros; simpl; mkeeps; apply IH. Qed.

Lemma mkeep_from_user_loop n : forall len c st a i, mkeep (user_to_membuf_loop n len c st a i).
Proof. induction n as [|n IH]; intros; simpl; unfold copy_from_user; mkeeps; apply IH. Qed.

#[export] Hint Resolve mkeep_to_kern_loop mkeep_from_kern_loop mkeep_to_user_loop mkeep_from_user_loop : trusty.

Lemma mkeep_to_kern iov n b len : mkeep (membuf_to_kern_iovec iov n b len).
Proof. unfold membuf_to_kern_iovec. mkeeps. Qed.

Lemma mkeep_from_kern len iov n : mkeep (kern_iovec_to_membuf len iov n).
Proof. unfold kern_iovec_to_membuf. mkeeps. Qed.

Lemma mkeep_to_user a n b len : mkeep (membuf_to_user_iovec a n b len).
Proof. unfold membuf_to_user_iovec. mkeeps. Qed.

Lemma mkeep_from_user len a n : mkeep (user_iovec_to_membuf len a n).
Proof. unfold user_iovec_to_membuf. mkeeps. Qed.

#[export] Hint Resolve mkeep_to_kern mkeep_from_kern mkeep_to_user mkeep_from_user : trusty.

Lemma mkeep_write mq msg : mkeep (write_item mq msg).
Proof. unfold write_item, load_msg, store_buf. mkeeps. Qed.

Lemma mkeep_read mq id off msg : mkeep (msg_read_locked mq id off msg).
Proof. unfold msg_read_locked. mkeeps. Qed.

Lemma mkeep_peek mq : mkeep (msg_peek_next_filled_locked mq).
Proof. unfold msg_peek_next_filled_locked. mkeeps. Qed.

Lemma mkeep_get mq : mkeep (msg_get_filled_locked mq).
Proof. unfold msg_get_filled_locked, set_item_state. mkeeps. Qed.

Lemma mkeep_put mq id : mkeep (put_item mq id).
Proof. unfold put_item, set_item_state. mkeeps. Qed.

#[export] Hint Resolve mkeep_write mkeep_read mkeep_peek mkeep_get mkeep_put : trusty.
End MemKeep.
