(* ===== verification/Uthread.v ===== *)
(** * User address spaces

    [lib/uthread/uthread.c], [include/uthread.h] and the mapping functions of
    [lib/uthread/arch/arm64/uthread.c].  A uthread keeps its mappings in a
    list sorted by address and a boundary, [ns_va_bottom], between the
    mappings of secure memory below and of non-secure memory above.

    The page-table walker ([arm64_mmu_map], [arm64_mmu_unmap]) and the address
    translation instruction are parameters over an abstract page table. *)

From Stdlib Require Import Sorted.
From S2P Require Import Prelude.

Module Uthread.

(** ** Constants *)

Definition UTM_R : Z := Z.shiftl 1 0.
Definition UTM_W : Z := Z.shiftl 1 1.
Definition UTM_X : Z := Z.shiftl 1 2.
Definition UTM_NONE : Z := Z.shiftl 1 3.
Definition UTM_STACK : Z := Z.shiftl 1 4.
Definition UTM_PHYS_CONTIG : Z := Z.shiftl 1 5.
Definition UTM_NS_MEM : Z := Z.shiftl 1 6.
Definition UTM_IO : Z := Z.shiftl 1 7.
Definition UTM_FIXED : Z := Z.shiftl 1 8.
Definition UTM_DEVICE : Z := Z.shiftl 1 9.
Definition MMAP_FLAG_DEVICE_MEM : Z := Z.shiftl 1 1.

Definition UT_MAP_ALIGN_4KB : Z := 4 * 1024.
Definition UT_MAP_ALIGN_1MB : Z := 1 * 1024 * 1024.

(** 32 MB of user addresses ([MMU_USER_SIZE_SHIFT = 25] in [t186-inc.mk]). *)
Definition MMU_USER_SIZE_SHIFT : Z := 25.
Definition MAX_USR_VA : Z := Z.shiftl 1 MMU_USER_SIZE_SHIFT.
Definition USER_PAGE_SIZE : Z := 4096.
Definition USER_PAGE_MASK : Z := USER_PAGE_SIZE - 1.

(** ** Page-table attributes ([arch/arm64/mmu.h], [arch/uthread_mmu.h]) *)

Definition BM (base count val : Z) : Z := Z.shiftl (Z.land val (2 ^ count - 1)) base.
Definition MMU_PTE_ATTR_UXN : Z := BM 54 1 1.
Definition MMU_PTE_ATTR_PXN : Z := BM 53 1 1.
Definition MMU_PTE_ATTR_NON_GLOBAL : Z := BM 11 1 1.
Definition MMU_PTE_ATTR_AF : Z := BM 10 1 1.
Definition MMU_PTE_ATTR_SH_INNER_SHAREABLE : Z := BM 8 2 3.
Definition MMU_PTE_ATTR_AP_P_RW_U_RW : Z := BM 6 2 1.
Definition MMU_PTE_ATTR_AP_P_RO_U_RO : Z := BM 6 2 3.
Definition MMU_PTE_ATTR_NON_SECURE : Z := BM 5 1 1.
Definition MMU_PTE_ATTR_ATTR_INDEX (attrindex : Z) : Z := BM 2 3 attrindex.
Definition MMU_PTE_ATTR_STRONGLY_ORDERED : Z := MMU_PTE_ATTR_ATTR_INDEX 0.
Definition MMU_PTE_ATTR_DEVICE : Z := MMU_PTE_ATTR_ATTR_INDEX 1.
Definition MMU_PTE_ATTR_NORMAL_MEMORY : Z := MMU_PTE_ATTR_ATTR_INDEX 2.

Definition PAR_ATTR_FAULTED : Z := Z.shiftl 0x1 0.
Definition PAR_LDESC_ATTR_SHAREABLE (par : Z) : Z := Z.land (Z.shiftr par 7) 0x3.
Definition PAR_LDESC_ATTR_INNER (par : Z) : Z := Z.land (Z.shiftr par 56) 0xF.
Definition PAR_LDESC_ATTR_OUTER (par : Z) : Z := Z.land (Z.shiftr par 60) 0xF.
Definition PAR_LDESC_ALIGNED_PA (par : Z) : Z := Z.land par 0xFFFFFF000.

Definition NS_PTE_PHYSADDR (pte : Z) : Z := Z.land pte 0xFFFFFFFFF000.
Definition NS_PTE_AP (pte : Z) : Z := Z.land (Z.shiftr pte 6) 0x3.
Definition NS_PTE_AP_U_RW (pte : Z) : bool := NS_PTE_AP pte =? 0x1.
Definition NS_PTE_ATTR_SHAREABLE (pte : Z) : Z := Z.land (Z.shiftr pte 8) 0x3.
Definition NS_PTE_ATTR_MAIR (pte : Z) : Z := Z.land (Z.shiftr pte 48) 0xFF.
Definition NS_PTE_ATTR_INNER (pte : Z) : Z := Z.land (NS_PTE_ATTR_MAIR pte) 0xF.
Definition NS_PTE_ATTR_OUTER (pte : Z) : Z := Z.shiftr (Z.land (NS_PTE_ATTR_MAIR pte) 0xF0) 4.

Definition mair_to_cb : list Z :=
  [0x4; 0x2; 0x2; 0x2; 0x0; 0x1; 0x3; 0x1; 0x2; 0x2; 0x2; 0x2; 0x3; 0x1; 0x3; 0x1].

(** ** Data *)

Record uthread_map := UthreadMap {
  mp_vaddr : Z;
  mp_size : Z;
  mp_flags : Z;
  mp_align : Z;
  mp_pfn_list : list Z
}.

Record uthread (PT : Type) := Uthread {
  start_stack : Z;
  map_list : list uthread_map;
  ns_va_bottom : Z;
  page_table : option PT;
  freed_pages : list Z     (* what the uthread handed back to the page allocator *)
}.
Arguments Uthread {PT}.
Arguments start_stack {PT}.
Arguments map_list {PT}.
Arguments ns_va_bottom {PT}.
Arguments page_table {PT}.
Arguments freed_pages {PT}.

(** [mp->vaddr + mp->size], at 64 bits. *)
Definition mp_end (mp : uthread_map) : Z := u64 (mp_vaddr mp + mp_size mp).

Definition is_ns (mp : uthread_map) : bool := has_flag (mp_flags mp) UTM_NS_MEM.

Section Ops.
Context {PT : Type}.
Implicit Types ut : uthread PT.

Definition U (A : Type) : Type := M (uthread PT) A.

Definition set_maps (l : list uthread_map) ut : uthread PT :=
  Uthread (start_stack ut) l (ns_va_bottom ut) (page_table ut) (freed_pages ut).
Definition set_ns_va_bottom (v : Z) ut : uthread PT :=
  Uthread (start_stack ut) (map_list ut) v (page_table ut) (freed_pages ut).
Definition set_page_table (p : option PT) ut : uthread PT :=
  Uthread (start_stack ut) (map_list ut) (ns_va_bottom ut) p (freed_pages ut).
Definition set_start_stack (v : Z) ut : uthread PT :=
  Uthread v (map_list ut) (ns_va_bottom ut) (page_table ut) (freed_pages ut).
Definition add_freed (p : Z) ut : uthread PT :=
  Uthread (start_stack ut) (map_list ut) (ns_va_bottom ut) (page_table ut) (freed_pages ut ++ [p]).

(** ** Choosing an address *)

(** The walk from the last mapping backwards; [None] is the early return of
    NULL, otherwise the final [start] and [end]. *)
Fixpoint find_ns_loop (ut : uthread PT) (size align : Z) (maps : list uthread_map)
    (start end_ : Z) : U (option (Z * Z)) :=
  match maps with
  | [] => ret (Some (start, end_))
  | mp :: maps =>
      if mp_end mp <=? start then
        if ns_va_bottom ut <=? start then ret (Some (start, end_))
        else
          assert_ (negb (is_ns mp)) ;;;
          if ROUNDDOWN start UT_MAP_ALIGN_1MB <? mp_end mp then ret None
          else ret (Some (start, end_))
      else if negb (is_ns mp) then ret None
      else
        let start := Z.min start (ROUNDDOWN_u (u64 (mp_vaddr mp - size)) align) in
        find_ns_loop ut size align maps start (u64 (start + size))
  end.

Definition uthread_find_va_space_ns (size align : Z) : U Z :=
  ut <- get ;;
  let start := ROUNDDOWN_u (u64 (MAX_USR_VA - size)) align in
  r <- find_ns_loop ut size align (rev (map_list ut)) start (u64 (start + size)) ;;
  match r with
  | None => ret 0
  | Some (start, end_) =>
      if (start <? start_stack ut) || (end_ <? start) then ret 0 else ret start
  end.

Fixpoint find_sec_loop (size align : Z) (maps : list uthread_map) (start end_ : Z) : Z * Z :=
  match maps with
  | [] => (start, end_)
  | mp :: maps =>
      if end_ <=? mp_vaddr mp then (start, end_)
      else
        let start := Z.max start (ROUNDUP_u (mp_end mp) align) in
        find_sec_loop size align maps start (u64 (start + size))
  end.

Definition uthread_find_va_space_sec (size align : Z) : U Z :=
  ut <- get ;;
  let start := ROUNDUP_u (start_stack ut) align in
  let '(start, end_) := find_sec_loop size align (map_list ut) start (u64 (start + size)) in
  if (ns_va_bottom ut <? end_) || (end_ <? start) then ret 0 else ret start.

Definition uthread_find_va_space (size flags align : Z) : U Z :=
  if has_flag flags UTM_NS_MEM then uthread_find_va_space_ns size align
  else uthread_find_va_space_sec size align.

(** ** The list of mappings *)

(** The sorted insertion; [None] when the new range overlaps a mapping. *)
Fixpoint map_insert (mp : uthread_map) (l : list uthread_map) : option (list uthread_map) :=
  match l with
  | [] => Some [mp]
  | mp_lst :: l' =>
      if mp_vaddr mp <? mp_vaddr mp_lst then
        if mp_vaddr mp_lst <? mp_end mp then None else Some (mp :: mp_lst :: l')
      else if mp_vaddr mp <? mp_end mp_lst then None
      else r ← map_insert mp l'; Some (mp_lst :: r)
  end.

(** [memcpy] of [n] entries of the caller's page list. *)
Definition copy_pfns (n : Z) (pfns : list Z) : U (list Z) :=
  if n <=? Z.of_nat (length pfns) then ret (take (Z.to_nat n) pfns) else bad_access.

(** The result is the return code and [*mpp].  [heap] says whether [malloc]
    succeeds. *)
Definition uthread_map_alloc (heap : bool) (vaddr : Z) (pfn_list : list Z) (size flags align : Z)
    : U (Z * option uthread_map) :=
  assert_ (Z.land size (PAGE_SIZE - 1) =? 0) ;;;
  if u64 (vaddr + size) <=? vaddr then ret (ERR_INVALID_ARGS, None)
  else
    let npages := if has_flag flags UTM_PHYS_CONTIG then 1 else u32 (size / PAGE_SIZE) in
    if negb heap then ret (ERR_NO_MEMORY, None)
    else
      pfns <- copy_pfns npages pfn_list ;;
      let mp := UthreadMap vaddr size flags align pfns in
      ut <- get ;;
      let new_ns :=
        if has_flag flags UTM_NS_MEM && (vaddr <? ns_va_bottom ut)
        then ROUNDDOWN vaddr UT_MAP_ALIGN_1MB else ns_va_bottom ut in
      match map_insert mp (map_list ut) with
      | None => ret (ERR_INVALID_ARGS, None)
      | Some l =>
          modify (set_ns_va_bottom new_ns) ;;;
          modify (set_maps l) ;;;
          ret (NO_ERROR, Some mp)
      end.

(** The result is the position in the list and the mapping found there. *)
Fixpoint map_find_loop (i : nat) (vaddr size : Z) (l : list uthread_map) : option (nat * uthread_map) :=
  match l with
  | [] => None
  | mp :: l =>
      if (mp_vaddr mp <=? vaddr) && (vaddr <? mp_end mp) && (u64 (vaddr + size) <=? mp_end mp)
      then Some (i, mp)
      else map_find_loop (S i) vaddr size l
  end.

Definition uthread_map_find (vaddr size : Z) (ut : uthread PT) : option (nat * uthread_map) :=
  if u64 (vaddr + size) <? vaddr then None
  else map_find_loop 0 vaddr size (map_list ut).

Definition list_prev (i : nat) (l : list uthread_map) : option uthread_map :=
  match i with O => None | S i => l !! i end.
Definition list_next (i : nat) (l : list uthread_map) : option uthread_map := l !! S i.

Definition uthread_map_remove (i : nat) (mp : uthread_map) : U unit :=
  ut <- get ;;
  (if is_ns mp then
     match list_prev i (map_list ut) with
     | Some item =>
         if is_ns item then ret tt
         else match list_next i (map_list ut) with
              | Some item =>
                  assert_ (is_ns item) ;;;
                  modify (set_ns_va_bottom (ROUNDDOWN (mp_vaddr item) UT_MAP_ALIGN_1MB))
              | None => modify (set_ns_va_bottom MAX_USR_VA)
              end
     | None =>
         match list_next i (map_list ut) with
         | Some item =>
             assert_ (is_ns item) ;;;
             modify (set_ns_va_bottom (ROUNDDOWN (mp_vaddr item) UT_MAP_ALIGN_1MB))
         | None => modify (set_ns_va_bottom MAX_USR_VA)
         end
     end
   else ret tt) ;;;
  modify (fun ut => set_maps (delete i (map_list ut)) ut).

Definition uthread_free_maps : U unit := modify (set_maps []).

(** ** Page tables ([arch/arm64/uthread.c]) *)

Section Arch.
Context (arm64_mmu_map : Z -> Z -> Z -> Z -> PT -> Z * PT)   (* vaddr, paddr, size, attrs *)
        (arm64_mmu_unmap : Z -> Z -> PT -> Z * PT)            (* vaddr, size *)
        (pt_empty : PT)
        (at_s1e0 : bool -> Z -> Z)                            (* write?, vaddr: PAR_EL1 *)
        (address_to_page : Z -> bool).

Definition mmu_map (vaddr paddr size attrs : Z) : U Z :=
  ut <- get ;; pt <- deref (page_table ut) ;;
  let r := arm64_mmu_map vaddr paddr size attrs pt in
  modify (set_page_table (Some r.2)) ;;; ret r.1.
Definition mmu_unmap (vaddr size : Z) : U Z :=
  ut <- get ;; pt <- deref (page_table ut) ;;
  let r := arm64_mmu_unmap vaddr size pt in
  modify (set_page_table (Some r.2)) ;;; ret r.1.

Definition arm64_uthread_allocate_page_table (heap : bool) : U Z :=
  if heap then modify (set_page_table (Some pt_empty)) ;;; ret NO_ERROR
  else ret ERR_NO_MEMORY.

(** The attributes of a mapping; [None] when an [ASSERT] on them fails. *)
Definition map_pte_attr (flags : Z) : option Z :=
  let a := Z.lor MMU_PTE_ATTR_NON_GLOBAL MMU_PTE_ATTR_AF in
  let a := Z.lor a (if has_flag flags UTM_NS_MEM then MMU_PTE_ATTR_NON_SECURE else 0) in
  let a := Z.lor a (if has_flag flags UTM_W then MMU_PTE_ATTR_AP_P_RW_U_RW
                    else MMU_PTE_ATTR_AP_P_RO_U_RO) in
  b ← (if has_flag flags UTM_IO then
         if has_flag flags UTM_X then None else Some (Z.lor a MMU_PTE_ATTR_STRONGLY_ORDERED)
       else if has_flag flags UTM_DEVICE then
         if has_flag flags UTM_X then None else Some (Z.lor a MMU_PTE_ATTR_DEVICE)
       else Some (Z.lor (Z.lor a MMU_PTE_ATTR_SH_INNER_SHAREABLE) MMU_PTE_ATTR_NORMAL_MEMORY));
  Some (if negb (has_flag flags UTM_X) || has_flag flags UTM_NS_MEM
        then Z.lor b (Z.lor MMU_PTE_ATTR_UXN MMU_PTE_ATTR_PXN) else b).

(** Undo the first [n] entries. *)
Fixpoint undo_maps (n : nat) (p vaddr entry_size : Z) : U unit :=
  match n with
  | O => ret tt
  | S n => mmu_unmap (vaddr + p * entry_size) entry_size ;;; undo_maps n (p + 1) vaddr entry_size
  end.

Fixpoint map_pages (n : nat) (pg : Z) (mp : uthread_map) (entry_size pte_attr : Z) : U Z :=
  match n with
  | O => ret NO_ERROR
  | S n =>
      pa <- deref (mp_pfn_list mp !! Z.to_nat pg) ;;
      err <- mmu_map (mp_vaddr mp + pg * entry_size) pa entry_size pte_attr ;;
      if negb (err =? NO_ERROR) then
        undo_maps (Z.to_nat pg) 0 (mp_vaddr mp) entry_size ;;; ret err
      else map_pages n (pg + 1) mp entry_size pte_attr
  end.

Definition arch_uthread_map (heap : bool) (mp : uthread_map) : U Z :=
  ut <- get ;;
  err <- (match page_table ut with
          | Some _ => ret NO_ERROR
          | None => arm64_uthread_allocate_page_table heap
          end) ;;
  if negb (err =? NO_ERROR) then ret err
  else
    assert_ (Z.land (mp_size mp) USER_PAGE_MASK =? 0) ;;;
    match map_pte_attr (mp_flags mp) with
    | None => panic
    | Some pte_attr =>
        let entry_size := if has_flag (mp_flags mp) UTM_PHYS_CONTIG then mp_size mp
                          else USER_PAGE_SIZE in
        map_pages (Z.to_nat (mp_size mp / entry_size)) 0 mp entry_size pte_attr
    end.

Definition arch_uthread_unmap (mp : uthread_map) : U Z := mmu_unmap (mp_vaddr mp) (mp_size mp).

(** One page of [arch_uthread_translate_map]: its frame and attributes, or the
    error the function returns.  In the non-secure case the function leaves
    with the [err] it came with, which is [NO_ERROR]. *)
Definition translate_page (ns_src : bool) (flags vs : Z) (ns_pte : option Z)
    : U (Z + Z * Z * Z * Z) :=
  if ns_src then
    pte <- deref ns_pte ;;
    if has_flag flags UTM_W && negb (NS_PTE_AP_U_RW pte) then ret (inl NO_ERROR)
    else
      outer <- deref (mair_to_cb !! Z.to_nat (NS_PTE_ATTR_OUTER pte)) ;;
      if has_flag outer 0x4 then ret (inl NO_ERROR)
      else
        inner <- deref (mair_to_cb !! Z.to_nat (NS_PTE_ATTR_INNER pte)) ;;
        if has_flag inner 0x4 then ret (inl NO_ERROR)
        else ret (inr (NS_PTE_PHYSADDR pte, inner, outer, NS_PTE_ATTR_SHAREABLE pte))
  else
    let par := at_s1e0 (has_flag flags UTM_W) vs in
    if has_flag par PAR_ATTR_FAULTED then ret (inl ERR_NOT_VALID)
    else ret (inr (PAR_LDESC_ALIGNED_PA par, PAR_LDESC_ATTR_INNER par,
                   PAR_LDESC_ATTR_OUTER par, PAR_LDESC_ATTR_SHAREABLE par)).

(** [first] is what the first page had; the result is the return code and the
    frames stored in [pfn_list], in order. *)
Fixpoint translate_loop (n : nat) (pg : nat) (ns_src : bool) (flags vs vt pte_attr : Z)
    (first : option (Z * Z * Z)) (ns_pte_list : list Z) : U (Z * list Z) :=
  match n with
  | O => ret (NO_ERROR, [])
  | S n =>
      r <- translate_page ns_src flags vs (ns_pte_list !! pg) ;;
      match r with
      | inl err => ret (err, [])
      | inr (physaddr, inner, outer, shareable) =>
          let consistent :=
            match first with
            | None => true
            | Some (i, o, s) => (inner =? i) && (outer =? o) && (shareable =? s)
            end in
          if negb consistent then ret (ERR_NOT_VALID, [])
          else
            let pte_attr :=
              match first with
              | None =>
                  let a := if negb (shareable =? 0)
                           then Z.lor pte_attr MMU_PTE_ATTR_SH_INNER_SHAREABLE else pte_attr in
                  if negb (Z.lor inner outer =? 0) then Z.lor a MMU_PTE_ATTR_NORMAL_MEMORY else a
              | Some _ => pte_attr
              end in
            let first := match first with None => Some (inner, outer, shareable) | f => f end in
            err <- mmu_map vt physaddr USER_PAGE_SIZE pte_attr ;;
            if negb (err =? NO_ERROR) then ret (err, [physaddr])
            else
              rest <- translate_loop n (S pg) ns_src flags (vs + USER_PAGE_SIZE) (vt + USER_PAGE_SIZE)
                        pte_attr first ns_pte_list ;;
              ret (rest.1, physaddr :: rest.2)
      end
  end.

Definition arch_uthread_translate_map (vaddr_src vaddr_target npages flags : Z) (ns_src : bool)
    (ns_pte_list : list Z) : U (Z * list Z) :=
  let a := Z.lor MMU_PTE_ATTR_NON_GLOBAL MMU_PTE_ATTR_AF in
  let a := if has_flag flags UTM_NS_MEM then Z.lor a MMU_PTE_ATTR_NON_SECURE else a in
  let a := if has_flag flags UTM_W then Z.lor a MMU_PTE_ATTR_AP_P_RW_U_RW
           else Z.lor a MMU_PTE_ATTR_AP_P_RO_U_RO in
  translate_loop (Z.to_nat npages) 0 ns_src flags vaddr_src vaddr_target a None ns_pte_list.

(** ** Mapping and unmapping *)

(** The result is the return code and [*vaddrp]. *)
Definition uthread_map_locked (heap : bool * bool) (vaddr : Z) (pfn_list : option (list Z))
    (size flags align : Z) : U (Z * Z) :=
  match pfn_list with
  | None => ret (ERR_INVALID_ARGS, vaddr)
  | Some pfn_list =>
      if negb (Z.land size (PAGE_SIZE - 1) =? 0) then ret (ERR_NOT_VALID, vaddr)
      else
        v <- (if negb (has_flag flags UTM_FIXED) then uthread_find_va_space size flags align
              else ret vaddr) ;;
        if negb (has_flag flags UTM_FIXED) && (v =? 0) then ret (ERR_NO_MEMORY, v)
        else
          r <- uthread_map_alloc heap.1 v pfn_list size flags align ;;
          match r with
          | (err, None) => ret (err, v)
          | (_, Some mp) => err <- arch_uthread_map heap.2 mp ;; ret (err, v)
          end
  end.

Definition uthread_map_contig (heap : bool * bool) (vaddr paddr size flags align : Z) : U (Z * Z) :=
  uthread_map_locked heap vaddr (Some [paddr]) size (Z.lor flags UTM_PHYS_CONTIG) align.

(** The loop over [mp->pfn_list] of [uthread_unmap_locked]. *)
Fixpoint free_pages (n : nat) (i : nat) (mp : uthread_map) : U unit :=
  match n with
  | O => ret tt
  | S n =>
      pa <- deref (mp_pfn_list mp !! i) ;;
      (if address_to_page pa then modify (add_freed pa) else ret tt) ;;;
      free_pages n (S i) mp
  end.

Definition uthread_unmap_locked (vaddr size : Z) : U Z :=
  if vaddr =? 0 then ret ERR_INVALID_ARGS
  else
    ut <- get ;;
    match uthread_map_find vaddr size ut with
    | None => ret ERR_NOT_FOUND
    | Some (i, mp) =>
        err <- arch_uthread_unmap mp ;;
        if negb (err =? NO_ERROR) then ret err
        else
          (if has_flag (mp_flags mp) MMAP_FLAG_DEVICE_MEM
           then free_pages (Z.to_nat (mp_size mp / PAGE_SIZE)) 0 mp else ret tt) ;;;
          uthread_map_remove i mp ;;;
          ret NO_ERROR
    end.

Definition uthread_is_valid_range (vaddr size : Z) : U bool :=
  gets (fun ut => match uthread_map_find vaddr size ut with Some _ => true | None => false end).

(** The result is the return code and [*paddr]. *)
Definition uthread_virt_to_phys (vaddr : Z) : U (Z * option Z) :=
  let offset := u32 (Z.land vaddr (PAGE_SIZE - 1)) in
  ut <- get ;;
  match uthread_map_find vaddr 0 ut with
  | None => ret (ERR_INVALID_ARGS, None)
  | Some (_, mp) =>
      if has_flag (mp_flags mp) UTM_PHYS_CONTIG then
        p <- deref (head (mp_pfn_list mp)) ;;
        ret (NO_ERROR, Some (u64 (p + (vaddr - mp_vaddr mp))))
      else
        let pg := u32 ((vaddr - mp_vaddr mp) / PAGE_SIZE) in
        p <- deref (mp_pfn_list mp !! Z.to_nat pg) ;;
        ret (NO_ERROR, Some (u64 (p + offset)))
  end.

(** Pages from [src] (a secure uthread, or the non-secure world when absent)
    into the current state.  The result is the return code and
    [*vaddr_target].  [junk] is what [malloc] leaves in the page list. *)
Definition uthread_grant_pages (heap : bool * bool) (junk : list Z) (src : option (uthread PT))
    (vaddr_src size flags : Z) (vaddr_target0 : Z) (ns_page_list : option (list Z)) : U (Z * Z) :=
  if size =? 0 then ret (0, 0)
  else
    let offset := Z.land vaddr_src (PAGE_SIZE - 1) in
    let vaddr_src := ROUNDDOWN vaddr_src PAGE_SIZE in
    setup <- (match src with
              | None =>
                  match ns_page_list with
                  | None => ret None
                  | Some l => ret (Some (UT_MAP_ALIGN_4KB, Z.lor flags UTM_NS_MEM, l))
                  end
              | Some ut_src =>
                  match ns_page_list with
                  | Some _ => panic
                  | None =>
                      match uthread_map_find vaddr_src size ut_src with
                      | None => ret None
                      | Some (_, mp_src) =>
                          ret (Some (mp_align mp_src,
                                     if is_ns mp_src then Z.lor flags UTM_NS_MEM else flags, []))
                      end
                  end
              end) ;;
    match setup with
    | None => ret (ERR_INVALID_ARGS, vaddr_target0)
    | Some (align, flags, ptes) =>
        let size := ROUNDUP (size + offset) PAGE_SIZE in
        let npages := u32 (size / PAGE_SIZE) in
        let flags := if npages =? 1 then Z.lor flags UTM_PHYS_CONTIG else flags in
        v <- uthread_find_va_space size flags align ;;
        if v =? 0 then ret (ERR_NO_MEMORY, v)
        else if negb heap.1 then ret (ERR_NO_MEMORY, v)
        else
          r <- arch_uthread_translate_map vaddr_src v npages flags
                 (match src with None => true | Some _ => false end) ptes ;;
          let '(err, pfns) := r in
          if negb (err =? NO_ERROR) then ret (err, v)
          else
            let pfn_list := take (Z.to_nat npages) (pfns ++ drop (length pfns) junk) in
            r <- uthread_map_alloc heap.2 v pfn_list size flags align ;;
            ret (r.1, u64 (v + offset))
    end.

Definition uthread_revoke_pages (vaddr size : Z) : U Z :=
  let offset := u32 (Z.land vaddr (PAGE_SIZE - 1)) in
  if size =? 0 then ret 0
  else uthread_unmap_locked (ROUNDDOWN vaddr PAGE_SIZE) (ROUNDUP (size + offset) PAGE_SIZE).

(** [pages] are the frames [pmm_alloc_pages] found.  The result is the return
    code and [*vaddr]. *)
Definition uthread_pmm_alloc_and_map (heap : bool * bool * bool) (pages : list Z)
    (size flags align : Z) : U (Z * Z) :=
  let alloc_size := u32 (ROUNDUP size PAGE_SIZE) in
  let count := Z.shiftr alloc_size 12 in
  if negb (Z.of_nat (length pages) =? count) then
    modify (fun ut => foldl (fun u p => add_freed p u) ut pages) ;;; ret (-1, 0)
  else if negb heap.1.1 then
    modify (fun ut => foldl (fun u p => add_freed p u) ut pages) ;;; ret (-1, 0)
  else
    let uthread_flags := Z.lor UTM_W UTM_R in
    let uthread_flags := if has_flag flags MMAP_FLAG_DEVICE_MEM
                         then Z.lor uthread_flags UTM_DEVICE else uthread_flags in
    r <- uthread_map_locked (heap.1.2, heap.2) 0 (Some pages) alloc_size uthread_flags align ;;
    if negb (r.1 =? NO_ERROR) then
      modify (fun ut => foldl (fun u p => add_freed p u) ut pages) ;;; ret r
    else ret (0, r.2).

(** The state [uthread_create] starts from. *)
Definition uthread_zero : uthread PT := Uthread 0 [] MAX_USR_VA None [].

(** [stack] is the physical address of the stack that [memalign] returned, if
    it did; [thread] says whether [thread_create] succeeds.  The result says
    whether there is a uthread. *)
Definition uthread_create (heap : bool * bool * bool) (stack : option Z) (thread : bool)
    (start_stack_ stack_size : Z) : U bool :=
  if negb heap.1.1 then ret false
  else
    put uthread_zero ;;;
    match stack with
    | None => ret false
    | Some paddr =>
        r <- uthread_map_contig (heap.1.2, heap.2) (u64 (start_stack_ - stack_size)) paddr stack_size
               (Z.lor (Z.lor (Z.lor UTM_W UTM_R) UTM_STACK) UTM_FIXED) UT_MAP_ALIGN_4KB ;;
        if negb (r.1 =? NO_ERROR) then ret false
        else
          modify (set_start_stack start_stack_) ;;;
          if negb thread then uthread_free_maps ;;; ret false
          else ret true
    end.

End Arch.

End Ops.

(** ** The mapping list as a set of disjoint ranges *)

Definition map_ok (mp : uthread_map) : Prop :=
  0 <= mp_vaddr mp /\ 0 < mp_size mp /\ mp_vaddr mp + mp_size mp < 2 ^ 64.

(** [a] lies below [b]. *)
Definition below (a b : uthread_map) : Prop := mp_vaddr a + mp_size a <= mp_vaddr b.

Definition maps_wf (l : list uthread_map) : Prop := Forall map_ok l /\ StronglySorted below l.

(** The range [v, v + n) meets no address of [mp]. *)
Definition clear_of (v n : Z) (mp : uthread_map) : Prop :=
  v + n <= mp_vaddr mp \/ mp_vaddr mp + mp_size mp <= v.

#[export] Instance clear_of_dec v n mp : Decision (clear_of v n mp).
Proof. unfold clear_of. apply _. Defined.

Lemma mp_end_ok mp : map_ok mp -> mp_end mp = mp_vaddr mp + mp_size mp.
Proof. intros (? & ? & ?). unfold mp_end, u64. rewrite uwrap_small; lia. Qed.

Lemma maps_wf_cons mp l :
  maps_wf (mp :: l) <-> map_ok mp /\ maps_wf l /\ Forall (below mp) l.
Proof.
  unfold maps_wf. rewrite Forall_cons. split.
  - intros [[? ?] Hs]. apply StronglySorted_inv in Hs as [? ?]. tauto.
  - intros (? & [? ?] & ?). split; [tauto|]. by constructor.
Qed.

Lemma map_insert_spec mp l : maps_wf l -> map_ok mp ->
  match map_insert mp l with
  | Some l' => maps_wf l' /\ l' ≡ₚ mp :: l /\ Forall (clear_of (mp_vaddr mp) (mp_size mp)) l
  | None => Exists (fun x => ~ clear_of (mp_vaddr mp) (mp_size mp) x) l
  end.
Proof.
  intros Hl Hmp. induction l as [|x l IH]; simpl.
  { split; [apply maps_wf_cons; split_and!; try done; constructor|]. split; [done|constructor]. }
  apply maps_wf_cons in Hl as (Hx & Hl & Hb).
  rewrite (mp_end_ok mp), (mp_end_ok x) by done.
  destruct (mp_vaddr mp <? mp_vaddr x) eqn:E; zbool.
  - destruct (mp_vaddr x <? _) eqn:E2; zbool.
    + left. unfold clear_of. destruct Hx as (? & ? & ?). lia.
    + assert (Hall : Forall (below mp) (x :: l)).
      { constructor; [done|]. eapply Forall_impl; [exact Hb|]. unfold below. destruct Hx as (? & ? & ?).
        intros. lia. }
      split; [|split; [done|]].
      * apply maps_wf_cons. split; [done|]. split; [by apply maps_wf_cons|done].
      * eapply Forall_impl; [exact Hall|]. intros y Hy. by left.
  - destruct (mp_vaddr mp <? _) eqn:E2; zbool.
    + left. unfold clear_of. destruct Hmp as (? & ? & ?). lia.
    + specialize (IH Hl). destruct (map_insert mp l) as [l'|]; simpl; [|by right].
      destruct IH as (Hw & Hp & Hc). split; [|split].
      * apply maps_wf_cons. split; [done|]. split; [done|]. rewrite Hp.
        constructor; [done|done].
      * rewrite Hp. apply Permutation_swap.
      * constructor; [by right|done].
Qed.

Lemma maps_wf_delete i l : maps_wf l -> maps_wf (delete i l).
Proof.
  revert i. induction l as [|x l IH]; intros i Hl; [done|].
  pose proof Hl as Hl'. apply maps_wf_cons in Hl' as (Hx & Hl' & Hb).
  destruct i as [|i]; [done|]. simpl. apply maps_wf_cons. split; [done|]. split; [by apply IH|].
  apply Forall_forall. intros y Hy. rewrite Forall_forall in Hb. apply Hb.
  apply list_elem_of_lookup in Hy as [j Hj]. apply list_elem_of_lookup.
  destruct (decide (j < i)%nat).
  - exists j. by rewrite list_lookup_delete_lt in Hj.
  - exists (S j). rewrite list_lookup_delete_ge in Hj by lia. done.
Qed.

(** Members of a well-formed list are disjoint. *)
Lemma maps_wf_lookup l i j a b : maps_wf l -> l !! i = Some a -> l !! j = Some b ->
  (i < j)%nat -> below a b.
Proof.
  revert i j. induction l as [|x l IH]; intros i j Hl Hi Hj Hlt; [done|].
  apply maps_wf_cons in Hl as (_ & Hl & Hb).
  destruct j as [|j]; [lia|]. destruct i as [|i]; simpl in *.
  - simplify_eq. rewrite Forall_forall in Hb. apply Hb. by eapply list_elem_of_lookup_2.
  - apply (IH i j); try done. lia.
Qed.

Lemma maps_wf_ok l i a : maps_wf l -> l !! i = Some a -> map_ok a.
Proof. intros [Hf _] Hi. rewrite Forall_forall in Hf. apply Hf. by eapply list_elem_of_lookup_2. Qed.

Lemma map_find_loop_Some l : forall k v n i mp, map_find_loop k v n l = Some (i, mp) ->
  (k <= i)%nat /\ l !! (i - k)%nat = Some mp /\
  mp_vaddr mp <= v < mp_end mp /\ u64 (v + n) <= mp_end mp.
Proof.
  induction l as [|x l IH]; intros k v n i mp; simpl; [done|].
  destruct (_ && _) eqn:E; intros H.
  - simplify_eq. zbool. rewrite Nat.sub_diag. simpl. split_and!; try done; lia.
  - apply IH in H as (? & Hl & ?). split; [lia|].
    replace (i - k)%nat with (S (i - S k)) by lia. done.
Qed.

Lemma map_find_loop_None l : forall k v n, map_find_loop k v n l = None ->
  forall mp, mp ∈ l -> ~ (mp_vaddr mp <= v < mp_end mp /\ u64 (v + n) <= mp_end mp).
Proof.
  induction l as [|x l IH]; intros k v n; simpl; [set_solver|].
  destruct (_ && _) eqn:E; [done|]. intros H mp Hin [? ?].
  apply elem_of_cons in Hin as [->|Hin]; [|by eapply IH].
  apply andb_false_iff in E as [E|E]; [apply andb_false_iff in E as [E|E]|]; zbool; lia.
Qed.

Section Facts.
Context {PT : Type}.
Implicit Types ut : uthread PT.

(** A mapping is recorded exactly when it overlaps nothing.
    [uthread_map_alloc] refuses a range that wraps, is empty or meets an
    existing mapping, without changing anything; any other range is inserted
    and the list stays sorted and disjoint. *)
Lemma uthread_map_alloc_spec ut v pfns size flags align :
  maps_wf (map_list ut) -> 0 <= v < 2 ^ 64 -> 0 <= size < 2 ^ 44 -> Z.land size (PAGE_SIZE - 1) = 0 ->
  size / PAGE_SIZE <= Z.of_nat (length pfns) -> (0 < length pfns)%nat ->
  exists err mpp ut', uthread_map_alloc true v pfns size flags align ut = Done (err, mpp) ut' /\
    ((err = NO_ERROR /\ (exists mp, mpp = Some mp /\ mp_vaddr mp = v /\ mp_size mp = size /\
         map_list ut' ≡ₚ mp :: map_list ut) /\ maps_wf (map_list ut') /\
      0 < size /\ v + size < 2 ^ 64 /\ Forall (clear_of v size) (map_list ut)) \/
     (err = ERR_INVALID_ARGS /\ mpp = None /\ ut' = ut /\
      (size = 0 \/ 2 ^ 64 <= v + size \/ Exists (fun mp => ~ clear_of v size mp) (map_list ut)))).
Proof.
  intros Hwf Hv Hs Ha Hp Hp0. unfold uthread_map_alloc, bind. rewrite Ha. cbn [assert_ Z.eqb].
  unfold ret. cbn beta iota.
  destruct (u64 (v + size) <=? v) eqn:E; zbool.
  { do 3 eexists. split; [done|]. right. split_and!; try done.
    destruct (Z.lt_ge_cases (v + size) (2 ^ 64)); [|tauto].
    unfold u64 in E. rewrite uwrap_small in E by lia. left. lia. }
  assert (Hw : v + size < 2 ^ 64 /\ 0 < size).
  { destruct (Z.lt_ge_cases (v + size) (2 ^ 64)).
    - unfold u64 in E. rewrite uwrap_small in E by lia. lia.
    - unfold u64, uwrap in E. rewrite <- (Z.mod_add _ (-1)), Z.mod_small in E; lia. }
  cbn [negb]. cbn zeta. set (n := if has_flag flags UTM_PHYS_CONTIG then 1 else _).
  assert (Hn : n <= Z.of_nat (length pfns)).
  { unfold n. case_match; [lia|]. unfold u32, uwrap, PAGE_SIZE in *.
    pose proof (Z.div_pos size 4096). rewrite Z.mod_small; [lia|]. dlia. }
  unfold copy_pfns. rewrite (proj2 (Z.leb_le _ _) Hn). unfold ret, get. cbn beta iota zeta.
  pose proof (map_insert_spec (UthreadMap v size flags align (take (Z.to_nat n) pfns)) _ Hwf) as Hi.
  specialize (Hi ltac:(unfold map_ok; simpl; lia)).
  destruct (map_insert _ _) as [l|].
  - destruct Hi as (Hw' & Hperm & Hc). unfold modify. do 3 eexists. split; [done|]. left.
    simpl. split_and!; try done; try lia. eexists. by split_and!.
  - do 3 eexists. split; [done|]. right. split_and!; try done. right. by right.
Qed.

Lemma uthread_map_find_lookup ut v n i mp :
  uthread_map_find v n ut = Some (i, mp) -> map_list ut !! i = Some mp.
Proof.
  unfold uthread_map_find. destruct (_ <? _); [done|]. intros H.
  apply map_find_loop_Some in H as (_ & H & _). by rewrite Nat.sub_0_r in H.
Qed.

(** [uthread_map_find] decides containment.  On a disjoint list it finds
    a mapping exactly when one contains the whole range, that mapping is the
    only one that does, and a range that wraps is in none. *)
Lemma uthread_map_find_spec ut v n i mp :
  maps_wf (map_list ut) -> 0 <= v < 2 ^ 64 -> 0 <= n < 2 ^ 64 ->
  uthread_map_find v n ut = Some (i, mp) <->
  map_list ut !! i = Some mp /\ v + n < 2 ^ 64 /\
  mp_vaddr mp <= v < mp_vaddr mp + mp_size mp /\ v + n <= mp_vaddr mp + mp_size mp.
Proof.
  intros Hwf Hv Hn. unfold uthread_map_find.
  destruct (u64 (v + n) <? v) eqn:E; zbool.
  - split; [done|]. intros (_ & Hlt & _). unfold u64 in E. rewrite uwrap_small in E by lia. lia.
  - assert (Hlt : v + n < 2 ^ 64).
    { destruct (Z.lt_ge_cases (v + n) (2 ^ 64)); [done|].
      unfold u64, uwrap in E. rewrite <- (Z.mod_add _ (-1)), Z.mod_small in E; lia. }
    assert (Hu : u64 (v + n) = v + n) by (unfold u64; rewrite uwrap_small; lia).
    split.
    + intros H. apply map_find_loop_Some in H as (_ & Hl & H1 & H2). rewrite Nat.sub_0_r in Hl.
      rewrite Hu, (mp_end_ok mp (maps_wf_ok _ _ _ Hwf Hl)) in *. split_and!; try done; lia.
    + intros (Hl & _ & H1 & H2). pose proof (maps_wf_ok _ _ _ Hwf Hl) as Hok.
      destruct (map_find_loop 0 v n (map_list ut)) as [[j mq]|] eqn:Ef.
      * apply map_find_loop_Some in Ef as (_ & Hj & H3 & _). rewrite Nat.sub_0_r in Hj.
        rewrite (mp_end_ok mq (maps_wf_ok _ _ _ Hwf Hj)) in H3.
        destruct (Nat.lt_trichotomy i j) as [Hij|[->|Hij]].
        -- pose proof (maps_wf_lookup _ _ _ _ _ Hwf Hl Hj Hij). unfold below in *. lia.
        -- congruence.
        -- pose proof (maps_wf_lookup _ _ _ _ _ Hwf Hj Hl Hij). unfold below in *. lia.
      * eapply map_find_loop_None in Ef; [|eapply list_elem_of_lookup_2; exact Hl].
        rewrite Hu, (mp_end_ok mp Hok) in Ef. lia.
Qed.

(** ** Finding room *)

(** The invariant of an address space: disjoint sorted mappings below
    [MAX_USR_VA], with [ns_va_bottom] between the secure and the non-secure
    ones. *)
Record uwf (ut : uthread PT) : Prop := {
  uwf_maps : maps_wf (map_list ut);
  uwf_top : Forall (fun mp => mp_vaddr mp + mp_size mp <= MAX_USR_VA) (map_list ut);
  uwf_bottom : 0 <= ns_va_bottom ut <= MAX_USR_VA;
  uwf_bottom_aligned : ns_va_bottom ut mod UT_MAP_ALIGN_1MB = 0;
  uwf_stack : 0 <= start_stack ut <= MAX_USR_VA;
  uwf_split : Forall (fun mp => if is_ns mp then ns_va_bottom ut <= mp_vaddr mp
                                else mp_vaddr mp + mp_size mp <= ns_va_bottom ut) (map_list ut)
}.

Definition align_ok (align : Z) : Prop := align = UT_MAP_ALIGN_4KB \/ align = UT_MAP_ALIGN_1MB \/ align = 1.

Lemma align_ok_pow align : align_ok align -> exists k, align = 2 ^ k /\ 0 <= k <= 20.
Proof. intros [->|[->| ->]]; [exists 12|exists 20|exists 0]; done. Qed.

Lemma ROUNDDOWN_u_ok a align : align_ok align -> 0 <= a < 2 ^ 32 ->
  ROUNDDOWN_u a align = a - a mod align /\ 0 <= a mod align < align.
Proof.
  intros (k & -> & ?)%align_ok_pow ?. rewrite ROUNDDOWN_u_spec by lia.
  split; [done|]. apply Z.mod_pos_bound. lia.
Qed.

Lemma ROUNDUP_u_ok a align : align_ok align -> 0 <= a < 2 ^ 31 ->
  a <= ROUNDUP_u a align < a + align /\ ROUNDUP_u a align mod align = 0.
Proof.
  intros Ha ?. destruct Ha as [->|[->| ->]].
  - change UT_MAP_ALIGN_4KB with (2 ^ 12). rewrite ROUNDUP_u_spec by lia. dlia.
  - change UT_MAP_ALIGN_1MB with (2 ^ 20). rewrite ROUNDUP_u_spec by lia. dlia.
  - change 1 with (2 ^ 0). rewrite ROUNDUP_u_spec by lia. dlia.
Qed.

Lemma find_sec_loop_spec size align l : align_ok align -> 0 <= size < 2 ^ 64 -> maps_wf l ->
  Forall (fun mp => mp_vaddr mp + mp_size mp <= MAX_USR_VA) l ->
  forall start, 0 <= start < 2 ^ 30 -> start mod align = 0 ->
  exists start', find_sec_loop size align l start (u64 (start + size)) = (start', u64 (start' + size)) /\
    start <= start' < 2 ^ 30 /\ start' mod align = 0 /\
    (start' + size < 2 ^ 64 -> Forall (clear_of start' size) l).
Proof.
  intros Hal Hs Hwf. induction l as [|x l IH]; intros Htop start Hst Hmod; cbn [find_sec_loop].
  { exists start. split_and!; try done; try lia. }
  apply maps_wf_cons in Hwf as (Hx & Hwf & Hb). apply Forall_cons in Htop as [Hxt Htop].
  change MAX_USR_VA with (2 ^ 25) in *.
  destruct (u64 (start + size) <=? mp_vaddr x) eqn:E; zbool.
  - exists start. split_and!; try done; try lia. intros Hnw.
    unfold u64 in E. rewrite uwrap_small in E by lia.
    constructor; [by left|]. eapply Forall_impl; [exact Hb|]. intros y Hy.
    left. unfold below in Hy. destruct Hx as (? & ? & ?). lia.
  - rewrite (mp_end_ok x Hx). destruct Hx as (? & ? & ?).
    destruct (ROUNDUP_u_ok (mp_vaddr x + mp_size x) align Hal) as [? Hm]; [lia|].
    assert (align <= 2 ^ 20) by (destruct Hal as [->|[->| ->]]; done).
    destruct (IH Hwf Htop (Z.max start (ROUNDUP_u (mp_vaddr x + mp_size x) align)))
      as (start' & Hrun & Hle & Hmod' & Hc); [lia|by destruct (Z.max_spec start (ROUNDUP_u (mp_vaddr x + mp_size x) align)) as [[_ ->]|[_ ->]]|].
    exists start'. split_and!; try done; try lia. intros Hnw.
    constructor; [right; lia|by apply Hc].
Qed.

Lemma find_va_space_sec_spec ut size align : uwf ut -> align_ok align -> 0 <= size < 2 ^ 64 ->
  exists v, uthread_find_va_space_sec size align ut = Done v ut /\
    (v <> 0 -> start_stack ut <= v /\ v + size <= ns_va_bottom ut /\ v mod align = 0 /\
               Forall (clear_of v size) (map_list ut)).
Proof.
  intros Hu Hal Hs. unfold uthread_find_va_space_sec, bind, get. cbn beta iota zeta.
  pose proof (uwf_stack _ Hu). change MAX_USR_VA with (2 ^ 25) in *.
  destruct (ROUNDUP_u_ok (start_stack ut) align Hal) as [? Hm]; [lia|].
  assert (align <= 2 ^ 20) by (destruct Hal as [->|[->| ->]]; done).
  destruct (find_sec_loop_spec size align _ Hal Hs (uwf_maps _ Hu) (uwf_top _ Hu)
              (ROUNDUP_u (start_stack ut) align)) as (v & -> & Hv & Hmv & Hc); [lia|done|].
  destruct (_ || _) eqn:E; [by exists 0|]. zbool. exists v. split; [done|]. intros _.
  assert (Hnw : v + size < 2 ^ 64).
  { destruct (Z.lt_ge_cases (v + size) (2 ^ 64)); [done|].
    unfold u64, uwrap in *. rewrite <- (Z.mod_add _ (-1)), Z.mod_small in * by lia. lia. }
  unfold u64 in *. rewrite uwrap_small in * by lia. split_and!; try lia; auto.
Qed.

Lemma elem_of_rev' (x : uthread_map) l : x ∈ rev l <-> x ∈ l.
Proof. rewrite !list_elem_of_In. symmetry. apply in_rev. Qed.

(** The backward walk: everything it has passed lies above the candidate. *)
Lemma find_ns_loop_spec ut size align : uwf ut -> align_ok align -> 0 <= size <= MAX_USR_VA ->
  forall low high start, rev (map_list ut) = rev high ++ low -> map_list ut = rev low ++ high ->
  Forall (fun mp => is_ns mp -> size <= mp_vaddr mp) (map_list ut) ->
  0 <= start -> start + size <= MAX_USR_VA -> start mod align = 0 ->
  Forall (fun mp => is_ns mp /\ start + size <= mp_vaddr mp) high ->
  exists r, find_ns_loop ut size align low start (u64 (start + size)) ut = Done r ut /\
    match r with
    | None => True
    | Some (v, e) => e = v + size /\ 0 <= v /\ v + size <= MAX_USR_VA /\ v mod align = 0 /\
        Forall (clear_of v size) (map_list ut) /\
        (v < ns_va_bottom ut ->
           Forall (fun mp => is_ns mp \/ mp_vaddr mp + mp_size mp <= ROUNDDOWN v UT_MAP_ALIGN_1MB)
             (map_list ut))
    end.
Proof.
  intros Hu Hal Hs low. change MAX_USR_VA with (2 ^ 25) in *.
  assert (Hal' : 0 < align <= 2 ^ 20) by (destruct Hal as [->|[->| ->]]; done).
  induction low as [|x low IH]; intros high start Hrev Hl Hreach Hst Htop Hmod Hhigh; cbn [find_ns_loop].
  { eexists. split; [done|]. rewrite app_nil_l in Hl. rewrite Hl.
    unfold u64. rewrite uwrap_small by lia. split_and!; try done; try lia.
    - eapply Forall_impl; [exact Hhigh|]. intros y [_ Hy]. by left.
    - intros _. eapply Forall_impl; [exact Hhigh|]. intros y [Hy _]. by left. }
  simpl in Hl. rewrite <- app_assoc in Hl. simpl in Hl.
  pose proof (uwf_maps _ Hu) as Hwf. rewrite Hl in Hwf.
  assert (Hxin : x ∈ map_list ut) by (rewrite Hl; set_solver).
  assert (Hx : map_ok x).
  { destruct Hwf as [Hf _]. rewrite Forall_forall in Hf. apply Hf. set_solver. }
  pose proof (uwf_top _ Hu) as Htops. rewrite Forall_forall in Htops. specialize (Htops x Hxin).
  pose proof (uwf_split _ Hu) as Hsp. rewrite Forall_forall in Hsp. pose proof (Hsp x Hxin) as Hspx.
  assert (Hlow : forall y, y ∈ low -> below y x).
  { intros y Hy. rewrite <- elem_of_rev', list_elem_of_lookup in Hy; destruct Hy as [i Hi].
    apply (maps_wf_lookup _ i (length (rev low)) _ _ Hwf).
    - by apply lookup_app_l_Some.
    - rewrite lookup_app_r by lia. by rewrite Nat.sub_diag.
    - by apply lookup_lt_Some in Hi. }
  rewrite (mp_end_ok x Hx). destruct Hx as (? & ? & ?).
  change MAX_USR_VA with (2 ^ 25) in *.
  assert (Hfit : forall (Q : uthread_map -> Prop), (forall y, y ∈ low -> Q y) -> Q x ->
    Forall Q high -> Forall Q (map_list ut)).
  { intros Q Q1 Q2 Q3. rewrite Hl. apply Forall_app. split; [|by constructor].
    apply Forall_forall. intros y Hy. apply Q1. by rewrite <- elem_of_rev'. }
  destruct (mp_vaddr x + mp_size x <=? start) eqn:E; zbool.
  - assert (Hc : Forall (clear_of start size) (map_list ut)).
    { apply Hfit.
      - intros y Hy. specialize (Hlow y Hy). unfold below in Hlow. right. lia.
      - by right.
      - eapply Forall_impl; [exact Hhigh|]. intros y [_ Hy]. by left. }
    destruct (ns_va_bottom ut <=? start) eqn:E2; zbool.
    + eexists. split; [done|]. unfold u64. rewrite uwrap_small by lia.
      split_and!; try done; try lia.
    + destruct (is_ns x) eqn:Ens; [lia|]. unfold bind. cbn [assert_ negb]. unfold ret at 1.
      cbn beta iota.
      destruct (_ <? _) eqn:E3; zbool; eexists; (split; [done|]); [done|].
      unfold u64. rewrite uwrap_small by lia. split_and!; try done; try lia. intros _. apply Hfit.
      * intros y Hy. specialize (Hlow y Hy). unfold below in Hlow. right. lia.
      * by right.
      * eapply Forall_impl; [exact Hhigh|]. intros y [Hy _]. by left.
  - destruct (is_ns x) eqn:Ens; cbn [negb]; [|by eexists].
    rewrite Forall_forall in Hreach. pose proof (Hreach x Hxin ltac:(by rewrite Ens)) as Hrx.
    replace (u64 (mp_vaddr x - size)) with (mp_vaddr x - size)
      by (unfold u64; rewrite uwrap_small; lia). cbn zeta.
    destruct (ROUNDDOWN_u_ok (mp_vaddr x - size) align Hal) as [-> Hr]; [lia|].
    set (start' := Z.min _ _).
    assert (Hst' : 0 <= start' /\ start' + size <= mp_vaddr x /\ start' <= start).
    { unfold start'. split; [|lia]. apply Z.min_glb; [done|].
      pose proof (Z.mod_le (mp_vaddr x - size) align). lia. }
    assert (Hmod' : start' mod align = 0).
    { unfold start'. destruct (Z.min_spec start (mp_vaddr x - size - (mp_vaddr x - size) mod align))
        as [[_ ->]|[_ ->]]; [done|].
      rewrite Zminus_mod, Zmod_mod, Z.sub_diag. done. }
    apply (IH (x :: high)); try done; try lia.
    + rewrite Hrev. simpl. by rewrite <- app_assoc.
    + by apply Forall_forall.
    + constructor; [split; [by rewrite Ens|lia]|].
      eapply Forall_impl; [exact Hhigh|]. intros y [? ?]. split; [done|lia].
Qed.

Lemma find_va_space_ns_spec ut size align : uwf ut -> align_ok align -> 0 <= size <= MAX_USR_VA ->
  Forall (fun mp => is_ns mp -> size <= mp_vaddr mp) (map_list ut) ->
  exists v, uthread_find_va_space_ns size align ut = Done v ut /\
    (v <> 0 -> start_stack ut <= v /\ v + size <= MAX_USR_VA /\ v mod align = 0 /\
       Forall (clear_of v size) (map_list ut) /\
       (v < ns_va_bottom ut ->
          Forall (fun mp => is_ns mp \/ mp_vaddr mp + mp_size mp <= ROUNDDOWN v UT_MAP_ALIGN_1MB)
            (map_list ut))).
Proof.
  intros Hu Hal Hs Hreach. unfold uthread_find_va_space_ns, bind, get. cbn beta iota zeta.
  pose proof (uwf_stack _ Hu). change MAX_USR_VA with (2 ^ 25) in *.
  replace (u64 (2 ^ 25 - size)) with (2 ^ 25 - size) by (unfold u64; rewrite uwrap_small; lia).
  assert (Hal' : 0 < align <= 2 ^ 20) by (destruct Hal as [->|[->| ->]]; done).
  destruct (ROUNDDOWN_u_ok (2 ^ 25 - size) align Hal) as [Heq Hr]; [lia|]. rewrite !Heq.
  destruct (find_ns_loop_spec ut size align Hu Hal Hs (rev (map_list ut)) []
    (2 ^ 25 - size - (2 ^ 25 - size) mod align)) as (r & -> & Hres);
    [done|by rewrite rev_involutive, app_nil_r|done| | | |constructor|].
  - pose proof (Z.mod_le (2 ^ 25 - size) align). lia.
  - change MAX_USR_VA with (2 ^ 25). lia.
  - rewrite Zminus_mod, Zmod_mod, Z.sub_diag. done.
  - destruct r as [[v e]|]; [|by exists 0]. destruct Hres as (-> & ? & ? & ? & ? & ?).
    destruct (_ || _) eqn:E; [by exists 0|]. zbool. exists v. split; [done|]. intros _.
    by split_and!.
Qed.

(** ** Page-table work leaves the mappings alone *)

Definition same_space ut ut' : Prop :=
  start_stack ut' = start_stack ut /\ map_list ut' = map_list ut /\
  ns_va_bottom ut' = ns_va_bottom ut /\ freed_pages ut' = freed_pages ut /\
  (is_Some (page_table ut) -> is_Some (page_table ut')).

Lemma same_space_trans a b c : same_space a b -> same_space b c -> same_space a c.
Proof. unfold same_space. intros (?&?&?&?&?) (?&?&?&?&?). split_and!; try congruence. auto. Qed.

Lemma same_space_uwf ut ut' : same_space ut ut' -> uwf ut -> uwf ut'.
Proof.
  intros (H1 & H2 & H3 & _) []. split; rewrite ?H1, ?H2, ?H3; done.
Qed.

Lemma find_va_space_spec ut size flags align : uwf ut -> align_ok align -> 0 <= size <= MAX_USR_VA ->
  (has_flag flags UTM_NS_MEM = true -> Forall (fun mp => is_ns mp -> size <= mp_vaddr mp) (map_list ut)) ->
  exists v, uthread_find_va_space size flags align ut = Done v ut /\
    (v <> 0 -> start_stack ut <= v /\ v mod align = 0 /\ v + size <= MAX_USR_VA /\
       Forall (clear_of v size) (map_list ut) /\
       if has_flag flags UTM_NS_MEM then
         v < ns_va_bottom ut ->
         Forall (fun mp => is_ns mp \/ mp_vaddr mp + mp_size mp <= ROUNDDOWN v UT_MAP_ALIGN_1MB) (map_list ut)
       else v + size <= ns_va_bottom ut).
Proof.
  intros Hu Hal Hs Hreach. unfold uthread_find_va_space. pose proof (uwf_bottom _ Hu).
  change MAX_USR_VA with (2 ^ 25) in *. destruct (has_flag flags UTM_NS_MEM) eqn:Ef.
  - destruct (find_va_space_ns_spec ut size align Hu Hal Hs (Hreach eq_refl)) as (v & Hrun & Hv).
    exists v. split; [done|]. intros Hne. destruct (Hv Hne) as (? & ? & ? & ? & ?). by split_and!.
  - destruct (find_va_space_sec_spec ut size align Hu Hal) as (v & Hrun & Hv); [lia|].
    exists v. split; [done|]. intros Hne. destruct (Hv Hne) as (? & ? & ? & ?). split_and!; try done; lia.
Qed.

Section ArchFacts.
Context (arm64_mmu_map : Z -> Z -> Z -> Z -> PT -> Z * PT) (arm64_mmu_unmap : Z -> Z -> PT -> Z * PT)
        (pt_empty : PT).

Lemma mmu_map_run v p n a ut : is_Some (page_table ut) ->
  exists err ut', mmu_map arm64_mmu_map v p n a ut = Done err ut' /\ same_space ut ut'.
Proof.
  intros [pt Hpt]. unfold mmu_map, bind, get, modify, ret. rewrite Hpt. simpl. unfold ret.
  do 2 eexists. split; [done|]. unfold same_space. simpl. eauto 8.
Qed.

Lemma mmu_unmap_run v n ut : is_Some (page_table ut) ->
  exists err ut', mmu_unmap arm64_mmu_unmap v n ut = Done err ut' /\ same_space ut ut'.
Proof.
  intros [pt Hpt]. unfold mmu_unmap, bind, get, modify, ret. rewrite Hpt. simpl. unfold ret.
  do 2 eexists. split; [done|]. unfold same_space. simpl. eauto 8.
Qed.

Lemma undo_maps_run n p v sz ut : is_Some (page_table ut) ->
  exists ut', undo_maps arm64_mmu_unmap n p v sz ut = Done tt ut' /\ same_space ut ut'.
Proof.
  revert p ut. induction n as [|n IH]; intros p ut Hpt; simpl.
  { exists ut. split; [done|]. by unfold same_space. }
  unfold bind. destruct (mmu_unmap_run (v + p * sz) sz ut Hpt) as (err & u1 & -> & Hs).
  destruct (IH (p + 1) u1) as (u2 & Hu & Hs2); [by apply Hs|].
  exists u2. split; [done|]. by eapply same_space_trans.
Qed.

Lemma map_pages_run n pg mp sz a ut : is_Some (page_table ut) -> 0 <= pg ->
  (Z.to_nat pg + n <= length (mp_pfn_list mp))%nat ->
  exists err ut', map_pages arm64_mmu_map arm64_mmu_unmap n pg mp sz a ut = Done err ut' /\ same_space ut ut'.
Proof.
  revert pg ut. induction n as [|n IH]; intros pg ut Hpt Hpg Hl; simpl.
  { exists NO_ERROR, ut. split; [done|]. by unfold same_space. }
  unfold bind. destruct (lookup_lt_is_Some_2 (mp_pfn_list mp) (Z.to_nat pg)) as [pa Hpa]; [lia|].
  rewrite Hpa. simpl. unfold ret at 1.
  destruct (mmu_map_run (mp_vaddr mp + pg * sz) pa sz a ut Hpt) as (err & u1 & -> & Hs).
  destruct (negb _).
  - destruct (undo_maps_run (Z.to_nat pg) 0 (mp_vaddr mp) sz u1) as (u2 & -> & Hs2); [by apply Hs|].
    exists err, u2. split; [done|]. by eapply same_space_trans.
  - destruct (IH (pg + 1) u1) as (err2 & u2 & Hu & Hs2); [by apply Hs|lia|lia|].
    exists err2, u2. split; [done|]. by eapply same_space_trans.
Qed.

(** The frames a mapping must have: one when contiguous, else one a page. *)
Definition pfns_ok (mp : uthread_map) : Prop :=
  if has_flag (mp_flags mp) UTM_PHYS_CONTIG then (0 < length (mp_pfn_list mp))%nat
  else (Z.to_nat (mp_size mp / PAGE_SIZE) <= length (mp_pfn_list mp))%nat.

Lemma arch_uthread_map_run heap mp ut :
  Z.land (mp_size mp) USER_PAGE_MASK = 0 -> 0 < mp_size mp ->
  is_Some (map_pte_attr (mp_flags mp)) -> pfns_ok mp ->
  exists err ut', arch_uthread_map arm64_mmu_map arm64_mmu_unmap pt_empty heap mp ut = Done err ut' /\
    same_space ut ut'.
Proof.
  intros Hm Hs [a Ha] Hp. unfold arch_uthread_map, bind, get. cbn beta iota.
  assert (Halloc : exists err u1, (match page_table ut with
      | Some _ => ret NO_ERROR
      | None => arm64_uthread_allocate_page_table pt_empty heap end) ut = Done err u1 /\
      same_space ut u1 /\ (err = NO_ERROR -> is_Some (page_table u1))).
  { destruct (page_table ut) as [pt|] eqn:Hpt.
    - exists NO_ERROR, ut. split; [done|]. unfold same_space. rewrite Hpt. eauto 8.
    - unfold arm64_uthread_allocate_page_table, bind, modify, ret. destruct heap;
        do 2 eexists; (split; [done|]); unfold same_space; simpl; rewrite Hpt; eauto 8.
      split; [|done]. split_and!; try done. }
  destruct Halloc as (err & u1 & -> & Hs1 & Hpt). destruct (negb _) eqn:E.
  { exists err, u1. done. }
  zbool. rewrite Hm, Ha. cbn [assert_ Z.eqb]. unfold ret at 1. cbn beta iota zeta.
  destruct (map_pages_run (Z.to_nat (mp_size mp / (if has_flag (mp_flags mp) UTM_PHYS_CONTIG
    then mp_size mp else USER_PAGE_SIZE))) 0 mp (if has_flag (mp_flags mp) UTM_PHYS_CONTIG
    then mp_size mp else USER_PAGE_SIZE) a u1) as (err2 & u2 & Hrun & Hs2); [auto|lia| |].
  - unfold pfns_ok in Hp. destruct (has_flag _ _); [rewrite Z.div_same by lia; simpl; lia|exact Hp].
  - exists err2, u2. split; [done|]. by eapply same_space_trans.
Qed.

Lemma ROUNDDOWN_1MB v : 0 <= v < 2 ^ 64 ->
  v - UT_MAP_ALIGN_1MB < ROUNDDOWN v UT_MAP_ALIGN_1MB <= v /\
  0 <= ROUNDDOWN v UT_MAP_ALIGN_1MB /\ ROUNDDOWN v UT_MAP_ALIGN_1MB mod UT_MAP_ALIGN_1MB = 0.
Proof. clear arm64_mmu_map arm64_mmu_unmap pt_empty. intros. change UT_MAP_ALIGN_1MB with (2 ^ 20). rewrite ROUNDDOWN_spec by lia. dlia. Qed.

(** Recording a mapping keeps the invariant when it respects the boundary. *)
Lemma insert_uwf ut v size flags align pfns l : uwf ut ->
  0 <= v -> 0 < size -> v + size <= MAX_USR_VA ->
  (if has_flag flags UTM_NS_MEM then
     v < ns_va_bottom ut ->
     Forall (fun mp => is_ns mp \/ mp_vaddr mp + mp_size mp <= ROUNDDOWN v UT_MAP_ALIGN_1MB) (map_list ut)
   else v + size <= ns_va_bottom ut) ->
  map_insert (UthreadMap v size flags align pfns) (map_list ut) = Some l ->
  uwf (set_maps l (set_ns_va_bottom
    (if has_flag flags UTM_NS_MEM && (v <? ns_va_bottom ut)
     then ROUNDDOWN v UT_MAP_ALIGN_1MB else ns_va_bottom ut) ut)).
Proof.
  intros Hu Hv Hs Htop Hns Hins. change MAX_USR_VA with (2 ^ 25) in *.
  set (mp := UthreadMap v size flags align pfns) in *.
  pose proof (map_insert_spec mp _ (uwf_maps _ Hu)) as Hi. rewrite Hins in Hi.
  destruct Hi as (Hwf & Hperm & Hc); [unfold map_ok; simpl; lia|].
  pose proof (uwf_bottom _ Hu) as Hb. change MAX_USR_VA with (2 ^ 25) in *.
  destruct (ROUNDDOWN_1MB v) as (Hrd & Hrd0 & Hrm); [lia|].
  pose proof (uwf_split _ Hu) as Hsp.
  assert (Hmp : is_ns mp = has_flag flags UTM_NS_MEM) by done.
  split; simpl.
  - done.
  - rewrite Hperm. constructor; [simpl; change MAX_USR_VA with (2 ^ 25); lia|apply Hu].
  - change MAX_USR_VA with (2 ^ 25). destruct (_ && _); lia.
  - destruct (_ && _); [done|apply Hu].
  - apply Hu.
  - rewrite Hperm. destruct (has_flag flags UTM_NS_MEM) eqn:Ef; simpl.
    + destruct (v <? ns_va_bottom ut) eqn:E; zbool; (constructor; [rewrite Hmp; simpl; lia|]); [|done].
      specialize (Hns E). apply Forall_forall. intros y Hy.
      rewrite Forall_forall in Hns, Hsp. specialize (Hns y Hy). specialize (Hsp y Hy). simpl in *.
      destruct (is_ns y); [lia|]. destruct Hns as [?|?]; [done|lia].
    + constructor; [|done]. rewrite Hmp. done.
Qed.

(** Mapping at the address that the search answered: the mapping is recorded
    as asked for, with the frames it needs, or nothing is and the status says
    so. *)
Lemma uthread_map_run heap v0 pfns size flags align ut v : uwf ut ->
  0 <= size -> Z.land size (PAGE_SIZE - 1) = 0 -> has_flag flags UTM_FIXED = false -> is_Some (map_pte_attr flags) ->
  (has_flag flags UTM_PHYS_CONTIG = false -> size / PAGE_SIZE <= Z.of_nat (length pfns)) -> (0 < size -> (0 < length pfns)%nat) ->
  uthread_find_va_space size flags align ut = Done v ut ->
  (v <> 0 -> start_stack ut <= v /\ v + size <= MAX_USR_VA /\
     if has_flag flags UTM_NS_MEM then
       v < ns_va_bottom ut ->
       Forall (fun mp => is_ns mp \/ mp_vaddr mp + mp_size mp <= ROUNDDOWN v UT_MAP_ALIGN_1MB) (map_list ut)
     else v + size <= ns_va_bottom ut) ->
  exists err ut', uthread_map_locked arm64_mmu_map arm64_mmu_unmap pt_empty heap v0 (Some pfns) size flags align ut =
      Done (err, v) ut' /\ uwf ut' /\
    start_stack ut' = start_stack ut /\ (is_Some (page_table ut) -> is_Some (page_table ut')) /\
    (map_list ut' = map_list ut /\ err <> NO_ERROR \/
     let n := if has_flag flags UTM_PHYS_CONTIG then 1 else u32 (size / PAGE_SIZE) in
     let mp := UthreadMap v size flags align (take (Z.to_nat n) pfns) in
     pfns_ok mp /\ v <> 0 /\ 0 < size /\ map_list ut' ≡ₚ mp :: map_list ut /\
     (has_flag flags UTM_NS_MEM = false -> ns_va_bottom ut' = ns_va_bottom ut)).
Proof.
  intros Hu Hs Ha Hfix Hattr Hp Hp0 Hfind Hv. unfold uthread_map_locked, bind.
  rewrite Ha, Hfix. cbn [negb Z.eqb]. cbn beta iota.
  pose proof (uwf_bottom _ Hu) as Hb. pose proof (uwf_stack _ Hu) as Hst.
  change MAX_USR_VA with (2 ^ 25) in *. rewrite Hfind. cbn beta iota. cbn [andb].
  destruct (v =? 0) eqn:Ev; zbool.
  { exists ERR_NO_MEMORY, ut. split_and!; try done. by left. }
  destruct (Hv Ev) as (Hvs & Hvt & Hvsp).
  unfold uthread_map_alloc, bind at 1. rewrite Ha. cbn [assert_ Z.eqb]. unfold ret at 1. cbn beta iota.
  replace (u64 (v + size)) with (v + size) by (unfold u64; rewrite uwrap_small; lia).
  destruct (v + size <=? v) eqn:E1; zbool.
  { exists ERR_INVALID_ARGS, ut. unfold ret. split_and!; try done. by left. }
  destruct heap.1; cbn [negb].
  2: { exists ERR_NO_MEMORY, ut. unfold ret. split_and!; try done. by left. }
  cbn zeta. set (n := if has_flag flags UTM_PHYS_CONTIG then 1 else _).
  assert (Hn : n <= Z.of_nat (length pfns) /\
    pfns_ok (UthreadMap v size flags align (take (Z.to_nat n) pfns))).
  { unfold n, pfns_ok. simpl. specialize (Hp0 ltac:(lia)). destruct (has_flag flags UTM_PHYS_CONTIG).
    - split; [lia|]. rewrite length_take. lia.
    - specialize (Hp eq_refl). unfold u32, PAGE_SIZE in *. pose proof (Z.div_pos size 4096).
      rewrite uwrap_small by dlia. split; [lia|]. rewrite length_take. lia. }
  destruct Hn as [Hn Hpf]. unfold copy_pfns, bind at 1. rewrite (proj2 (Z.leb_le _ _) Hn).
  unfold ret at 1, get, bind at 1. cbn beta iota.
  set (mp := UthreadMap v size flags align _) in *.
  pose proof (map_insert_spec mp _ (uwf_maps _ Hu)) as Hi.
  specialize (Hi ltac:(unfold map_ok; simpl; lia)).
  destruct (map_insert mp (map_list ut)) as [l|] eqn:Eins.
  2: { exists ERR_INVALID_ARGS, ut. unfold ret. split_and!; try done. by left. }
  destruct Hi as (Hwf & Hperm & _).
  pose proof (insert_uwf ut v size flags align _ l Hu ltac:(lia) ltac:(lia) Hvt Hvsp Eins) as Hu'.
  unfold bind, modify, ret. cbn beta iota.
  set (u1 := set_maps l _) in *.
  destruct (arch_uthread_map_run heap.2 mp u1) as (err & u2 & -> & Hsame); [exact Ha|simpl; lia|done|done|].
  exists err, u2. split; [done|]. pose proof (same_space_uwf _ _ Hsame Hu') as Hu2.
  split; [done|]. destruct Hsame as (Hss & Hml & Hbot & _ & Hpt). rewrite Hml, Hss. split_and!; [done|exact Hpt|].
  right. split_and!; try done; [lia|]. intros Hf. rewrite Hbot. simpl. by rewrite Hf.
Qed.

(** Mapping at an address of the kernel's choice.  For a page-multiple
    size that fits, [uthread_map] finishes without an assertion failure
    whatever the page-table code answers, keeps the address space disjoint and
    split, and places any new range aligned, above the stack, below
    [MAX_USR_VA], clear of every existing mapping, with secure memory wholly
    below [ns_va_bottom]. *)
Lemma uthread_map_keeps_space heap v0 pfns size flags align ut :
  uwf ut -> align_ok align -> 0 < size <= MAX_USR_VA -> Z.land size (PAGE_SIZE - 1) = 0 ->
  has_flag flags UTM_FIXED = false -> is_Some (map_pte_attr flags) ->
  size / PAGE_SIZE <= Z.of_nat (length pfns) -> (0 < length pfns)%nat ->
  (has_flag flags UTM_NS_MEM = true -> Forall (fun mp => is_ns mp -> size <= mp_vaddr mp) (map_list ut)) ->
  exists err v ut', uthread_map_locked arm64_mmu_map arm64_mmu_unmap pt_empty heap v0 (Some pfns)
                      size flags align ut = Done (err, v) ut' /\
    uwf ut' /\
    (map_list ut' = map_list ut \/
     (exists mp, map_list ut' ≡ₚ mp :: map_list ut /\ mp_vaddr mp = v /\ mp_size mp = size /\
        mp_flags mp = flags /\
        start_stack ut <= v /\ v mod align = 0 /\ v + size <= MAX_USR_VA /\
        (has_flag flags UTM_NS_MEM = false -> v + size <= ns_va_bottom ut') /\
        Forall (clear_of v size) (map_list ut))) /\
    (err = NO_ERROR -> exists mp, mp ∈ map_list ut' /\ mp_vaddr mp = v /\ mp_size mp = size).
Proof.
  intros Hu Hal Hs Ha Hfix Hattr Hp Hp0 Hreach.
  destruct (find_va_space_spec ut size flags align Hu Hal ltac:(lia) Hreach) as (v & Hfind & Hv).
  destruct (uthread_map_run heap v0 pfns size flags align ut v) as (err & ut' & Hrun & Hu' & _ & _ & Hres); try done; try lia.
  { intros Hv0. destruct (Hv Hv0) as (? & _ & ? & _ & ?). by split_and!. }
  exists err, v, ut'. split; [done|]. split; [done|].
  destruct Hres as [[Hml He]|(Hpf & Hv0 & _ & Hperm & Hbot)]; [by split; [left|]|].
  destruct (Hv Hv0) as (? & ? & ? & ? & Hsp). split.
  - right. eexists. split; [exact Hperm|]. split_and!; try done. intros Hf. rewrite Hf in Hsp. by rewrite Hbot.
  - intros _. eexists. split; [rewrite Hperm; left|done].
Qed.

(** ** Removal *)

Context (address_to_page : Z -> bool).

Lemma elem_of_delete i (l : list uthread_map) x : x ∈ delete i l -> x ∈ l.
Proof.
  intros Hx. apply list_elem_of_lookup in Hx as [j Hj]. apply list_elem_of_lookup.
  destruct (decide (j < i)%nat).
  - exists j. by rewrite list_lookup_delete_lt in Hj.
  - exists (S j). rewrite list_lookup_delete_ge in Hj by lia. done.
Qed.

Lemma delete_uwf ut i b : uwf ut -> 0 <= b <= MAX_USR_VA -> b mod UT_MAP_ALIGN_1MB = 0 ->
  Forall (fun mp => if is_ns mp then b <= mp_vaddr mp else mp_vaddr mp + mp_size mp <= b)
    (delete i (map_list ut)) ->
  uwf (set_maps (delete i (map_list ut)) (set_ns_va_bottom b ut)).
Proof.
  intros Hu Hb Hbm Hsp. split; simpl; try done; try apply Hu.
  - apply maps_wf_delete, Hu.
  - apply Forall_forall. intros x Hx%elem_of_delete. pose proof (uwf_top _ Hu) as H.
    rewrite Forall_forall in H. by apply H.
Qed.

(** Removing a mapping moves the boundary up as far as the next non-secure
    mapping, never past it and never into secure memory. *)
Lemma uthread_map_remove_run ut i mp : uwf ut -> map_list ut !! i = Some mp ->
  exists b, uthread_map_remove i mp ut =
      Done tt (set_maps (delete i (map_list ut)) (set_ns_va_bottom b ut)) /\
    uwf (set_maps (delete i (map_list ut)) (set_ns_va_bottom b ut)) /\ ns_va_bottom ut <= b.
Proof.
  clear arm64_mmu_map arm64_mmu_unmap pt_empty address_to_page.
  intros Hu Hi. pose proof (uwf_bottom _ Hu) as Hb. pose proof (uwf_bottom_aligned _ Hu) as Hbm.
  pose proof (uwf_split _ Hu) as Hsp. rewrite Forall_forall in Hsp.
  pose proof (uwf_maps _ Hu) as Hwf.
  assert (Hkeep : uwf (set_maps (delete i (map_list ut)) (set_ns_va_bottom (ns_va_bottom ut) ut))).
  { apply delete_uwf; try done. apply Forall_forall. intros x Hx%elem_of_delete. by apply Hsp. }
  assert (Hut : forall l, set_maps l (set_ns_va_bottom (ns_va_bottom ut) ut) = set_maps l ut) by done.
  unfold uthread_map_remove, bind at 1, get. cbn beta iota.
  destruct (is_ns mp) eqn:Ens.
  2: { exists (ns_va_bottom ut). split_and!; [by rewrite Hut|done|lia]. }
  pose proof (Hsp mp ltac:(by eapply list_elem_of_lookup_2)) as Hspm. rewrite Ens in Hspm.
  (* the part for the bottom-most non-secure mapping *)
  assert (Hbot : (forall x j, map_list ut !! j = Some x -> (j < i)%nat -> is_ns x = false) ->
    exists b, (match list_next i (map_list ut) with
      | Some item => assert_ (is_ns item) ;;;
          modify (set_ns_va_bottom (ROUNDDOWN (mp_vaddr item) UT_MAP_ALIGN_1MB))
      | None => modify (set_ns_va_bottom MAX_USR_VA) end) ut = Done tt (set_ns_va_bottom b ut) /\
      uwf (set_maps (delete i (map_list ut)) (set_ns_va_bottom b ut)) /\ ns_va_bottom ut <= b).
  { intros Hlow. unfold list_next. destruct (map_list ut !! S i) as [nx|] eqn:En.
    - pose proof (maps_wf_lookup _ i (S i) _ _ Hwf Hi En ltac:(lia)) as Hbl.
      pose proof (maps_wf_ok _ _ _ Hwf Hi) as (? & ? & ?). pose proof (maps_wf_ok _ _ _ Hwf En) as (? & ? & ?).
      pose proof (Hsp nx ltac:(by eapply list_elem_of_lookup_2)) as Hspn. unfold below in Hbl.
      destruct (is_ns nx) eqn:Enx; [|lia].
      pose proof (uwf_top _ Hu) as Htop. rewrite Forall_forall in Htop.
      specialize (Htop nx ltac:(by eapply list_elem_of_lookup_2)).
      change MAX_USR_VA with (2 ^ 25) in *.
      destruct (ROUNDDOWN_1MB (mp_vaddr nx)) as (Hr1 & Hr2 & Hr3); [lia|].
      exists (ROUNDDOWN (mp_vaddr nx) UT_MAP_ALIGN_1MB).
      assert (Hge : ns_va_bottom ut <= ROUNDDOWN (mp_vaddr nx) UT_MAP_ALIGN_1MB).
      { change UT_MAP_ALIGN_1MB with (2 ^ 20) in *. dlia. }
      split; [done|]. split; [|done]. apply delete_uwf; [done|change MAX_USR_VA with (2 ^ 25); lia|done|].
      apply Forall_forall. intros x Hx.
      destruct (list_elem_of_lookup_1 _ _ Hx) as [j Hj].
      pose proof (Hsp x ltac:(by eapply elem_of_delete)) as Hspx.
      destruct (is_ns x) eqn:Ex; [|lia].
      destruct (decide (j < i)%nat) as [Hji|Hji].
      + rewrite list_lookup_delete_lt in Hj by done. by rewrite (Hlow _ _ Hj Hji) in Ex.
      + rewrite list_lookup_delete_ge in Hj by lia.
        destruct (decide (j = i)) as [->|]; [simplify_eq; lia|].
        pose proof (maps_wf_lookup _ (S i) (S j) _ _ Hwf En Hj ltac:(lia)) as Hbx. unfold below in Hbx. lia.
    - exists MAX_USR_VA. split; [done|]. split; [|lia].
      apply delete_uwf; [done|change MAX_USR_VA with (2 ^ 25); lia|done|].
      apply Forall_forall. intros x Hx. destruct (list_elem_of_lookup_1 _ _ Hx) as [j Hj].
      pose proof (Hsp x ltac:(by eapply elem_of_delete)) as Hspx.
      destruct (decide (j < i)%nat) as [Hji|Hji].
      + rewrite list_lookup_delete_lt in Hj by done. rewrite (Hlow _ _ Hj Hji) in *. lia.
      + rewrite list_lookup_delete_ge in Hj by lia.
        apply lookup_lt_Some in Hj. apply lookup_ge_None in En. lia. }
  destruct i as [|i]; simpl list_prev.
  - destruct Hbot as (b & Hrun & Hu' & Hle); [intros; lia|]. exists b.
    unfold bind at 1. rewrite Hrun. done.
  - destruct (map_list ut !! i) as [pv|] eqn:Ep.
    2: { apply lookup_ge_None in Ep. apply lookup_lt_Some in Hi. lia. }
    destruct (is_ns pv) eqn:Epv.
    + exists (ns_va_bottom ut). split_and!; [by rewrite Hut|done|lia].
    + destruct Hbot as (b & Hrun & Hu' & Hle).
      { intros x j Hj Hlt. destruct (is_ns x) eqn:Ex; [|done].
        pose proof (Hsp x ltac:(by eapply list_elem_of_lookup_2)) as H1. rewrite Ex in H1.
        pose proof (Hsp pv ltac:(by eapply list_elem_of_lookup_2)) as H2. rewrite Epv in H2.
        destruct (decide (j = i)) as [->|]; [congruence|].
        pose proof (maps_wf_lookup _ j i _ _ Hwf Hj Ep ltac:(lia)) as H3. unfold below in H3.
        pose proof (maps_wf_ok _ _ _ Hwf Hj) as (? & ? & ?).
        pose proof (maps_wf_ok _ _ _ Hwf Ep) as (? & ? & ?). lia. }
      exists b. unfold bind at 1. rewrite Hrun. done.
Qed.

Lemma same_space_uwf_maps ut ut' : same_space ut ut' -> map_list ut' = map_list ut.
Proof. by intros (_ & ? & _). Qed.

(** Unmapping.  For a mapping that was not made writable, or whose page
    list is complete, [uthread_unmap] finishes without an assertion failure
    and keeps the address space disjoint and split: on success exactly the
    mapping that contains the range is gone, otherwise nothing is. *)
Lemma uthread_unmap_keeps_space v n ut :
  uwf ut -> is_Some (page_table ut) -> 0 < v < 2 ^ 64 -> 0 <= n < 2 ^ 64 ->
  (forall i mp, uthread_map_find v n ut = Some (i, mp) ->
     has_flag (mp_flags mp) MMAP_FLAG_DEVICE_MEM = false) ->
  exists err ut', uthread_unmap_locked arm64_mmu_unmap address_to_page v n ut = Done err ut' /\
    uwf ut' /\
    (err = NO_ERROR -> exists i mp, uthread_map_find v n ut = Some (i, mp) /\
       map_list ut' = delete i (map_list ut)) /\
    (err <> NO_ERROR -> map_list ut' = map_list ut).
Proof.
  intros Hu Hpt Hv Hn Hflag. unfold uthread_unmap_locked.
  destruct (v =? 0) eqn:E; zbool; [lia|]. unfold bind at 1, get. cbn beta iota.
  destruct (uthread_map_find v n ut) as [[i mp]|] eqn:Ef.
  2: { exists ERR_NOT_FOUND, ut. by split_and!. }
  specialize (Hflag i mp eq_refl).
  pose proof Ef as Ef'. apply uthread_map_find_lookup in Ef'.
  unfold arch_uthread_unmap, bind at 1.
  destruct (mmu_unmap_run (mp_vaddr mp) (mp_size mp) ut Hpt) as (err & u1 & -> & Hs).
  pose proof (same_space_uwf _ _ Hs Hu) as Hu1. pose proof (same_space_uwf_maps _ _ Hs) as Hm.
  destruct (negb (err =? NO_ERROR)) eqn:E2; zbool.
  { exists err, u1. split_and!; done. }
  rewrite Hflag. unfold bind at 1, ret at 1. cbn beta iota.
  rewrite <- Hm in Ef'.
  destruct (uthread_map_remove_run u1 i mp Hu1 Ef') as (b & Hrun & Hu2 & _).
  unfold bind. rewrite Hrun. do 2 eexists. split; [done|]. split; [done|]. split; [|done].
  intros _. exists i, mp. simpl. by rewrite Hm.
Qed.

Lemma free_pages_run n : forall i mp ut,
  match free_pages address_to_page n i mp ut with
  | Done _ ut' => exists f, ut' = Uthread (start_stack ut) (map_list ut) (ns_va_bottom ut) (page_table ut) f
  | Crash w => w = BadAccess
  end.
Proof.
  induction n as [|n IH]; intros i mp ut; cbn [free_pages].
  { exists (freed_pages ut). by destruct ut. }
  unfold bind, deref. destruct (mp_pfn_list mp !! i) as [pa|]; [|done]. cbn.
  destruct (address_to_page pa); cbn.
  - specialize (IH (S i) mp (add_freed pa ut)). cbn in IH. exact IH.
  - apply IH.
Qed.

(** Unmapping in general: the list of mappings loses one entry or none, unless
    the page list of a writable mapping is overrun. *)
Lemma uthread_unmap_run v n ut : uwf ut -> is_Some (page_table ut) ->
  match uthread_unmap_locked arm64_mmu_unmap address_to_page v n ut with
  | Done err ut' => uwf ut' /\ start_stack ut' = start_stack ut /\ is_Some (page_table ut') /\
      ns_va_bottom ut <= ns_va_bottom ut' /\
      (map_list ut' = map_list ut \/ exists i, map_list ut' = delete i (map_list ut))
  | Crash w => w = BadAccess
  end.
Proof.
  intros Hu Hpt. unfold uthread_unmap_locked. destruct (v =? 0); [cbn; split_and!; try done; by left|].
  unfold bind at 1, get. destruct (uthread_map_find v n ut) as [[i mp]|] eqn:Ef; [|cbn; split_and!; try done; by left].
  apply uthread_map_find_lookup in Ef. unfold arch_uthread_unmap, bind at 1.
  destruct (mmu_unmap_run (mp_vaddr mp) (mp_size mp) ut Hpt) as (err & u1 & -> & Hs).
  pose proof (same_space_uwf _ _ Hs Hu) as Hu1. destruct Hs as (Hss & Hm & Hb & _ & Hp). specialize (Hp Hpt).
  destruct (negb (err =? NO_ERROR)).
  { cbn. rewrite Hss, Hb, Hm. split_and!; try done. by left. }
  assert (match (if has_flag (mp_flags mp) MMAP_FLAG_DEVICE_MEM
                 then free_pages address_to_page (Z.to_nat (mp_size mp / PAGE_SIZE)) 0 mp else ret tt) u1 with
          | Done _ u => exists f, u = Uthread (start_stack u1) (map_list u1) (ns_va_bottom u1) (page_table u1) f
          | Crash w => w = BadAccess end) as Hf.
  { destruct (has_flag _ _); [apply free_pages_run|]. exists (freed_pages u1). by destruct u1. }
  unfold bind at 1. destruct (_ u1) as [[] u2|w]; [|done]. destruct Hf as [f ->].
  set (u2 := Uthread _ _ _ _ f) in *.
  assert (uwf u2) as Hu2 by (destruct Hu1; by split).
  rewrite <- Hm in Ef. destruct (uthread_map_remove_run u2 i mp Hu2 Ef) as (b & Hrun & Hu3 & Hle).
  unfold bind. rewrite Hrun. cbn in *. split_and!; try done; [lia|]. right. exists i. by rewrite Hm.
Qed.

(** The flag that [uthread_unmap_locked] tests is the one that means
    "writable" in a mapping.  Unmapping a writable contiguous mapping of more
    than one page (every stack is one) reads past its one-entry page list. *)
Lemma uthread_unmap_contig_faults v n ut i mp pt pa :
  v <> 0 -> uthread_map_find v n ut = Some (i, mp) ->
  has_flag (mp_flags mp) UTM_W = true -> mp_pfn_list mp = [pa] -> 2 * PAGE_SIZE <= mp_size mp ->
  page_table ut = Some pt -> (arm64_mmu_unmap (mp_vaddr mp) (mp_size mp) pt).1 = NO_ERROR ->
  uthread_unmap_locked arm64_mmu_unmap address_to_page v n ut = Crash BadAccess.
Proof.
  clear arm64_mmu_map pt_empty.
  intros Hv Hf Hw Hp Hs Hpt Hok. unfold uthread_unmap_locked.
  rewrite (proj2 (Z.eqb_neq _ _) Hv). unfold bind, get, arch_uthread_unmap, mmu_unmap. rewrite Hf.
  unfold bind, get, deref, modify, ret. rewrite Hpt. cbn beta iota zeta. rewrite Hok.
  change (negb (NO_ERROR =? NO_ERROR)) with false. cbn beta iota.
  change MMAP_FLAG_DEVICE_MEM with UTM_W. rewrite Hw.
  assert (Hn : exists k, Z.to_nat (mp_size mp / PAGE_SIZE) = S (S k)).
  { exists (Z.to_nat (mp_size mp / PAGE_SIZE - 2)). unfold PAGE_SIZE in *. dlia. }
  destruct Hn as [k ->]. cbn [free_pages]. unfold bind, deref, ret, modify. rewrite Hp. cbn [lookup list_lookup].
  by destruct (address_to_page pa).
Qed.

(** A page the non-secure world shares read-only is reported as mapped
    ([NO_ERROR]) when a writable mapping is asked for, though none is made. *)
Theorem arch_uthread_translate_map_ns_readonly at_s1e0 vs vt n flags pte ptes ut :
  0 < n -> has_flag flags UTM_W = true -> NS_PTE_AP_U_RW pte = false ->
  arch_uthread_translate_map arm64_mmu_map at_s1e0 vs vt n flags true (pte :: ptes) ut =
    Done (NO_ERROR, []) ut.
Proof.
  intros Hn Hw Hro. unfold arch_uthread_translate_map.
  assert (exists k, Z.to_nat n = S k) as [k ->] by (exists (Z.to_nat (n - 1)); lia).
  cbn [translate_loop]. unfold bind, translate_page. change ((pte :: ptes) !! 0%nat) with (Some pte).
  unfold bind, deref, ret. cbn beta iota. by rewrite Hw, Hro.
Qed.

End ArchFacts.

End Facts.

(** ** What is entered in the page tables

    With the page table replaced by the list of the calls made. *)
Section Trace.
Context (ok : Z -> Z -> Z -> Z -> Z).

Definition pt_log : Type := list (Z * Z * Z * Z).
Definition log_map (v p n a : Z) (pt : pt_log) : Z * pt_log := (ok v p n a, pt ++ [(v, p, n, a)]).

(** A page-table entry that the non-secure world could have asked for. *)
Definition ns_entry (vt : Z) (flags : Z) (e : Z * Z * Z * Z) : Prop :=
  let '(v, p, n, a) := e in
  has_flag a MMU_PTE_ATTR_NON_SECURE = true /\ n = PAGE_SIZE /\ vt <= v /\
  Z.land p (PAGE_SIZE - 1) = 0.

Lemma NS_PTE_PHYSADDR_aligned pte : Z.land (NS_PTE_PHYSADDR pte) (PAGE_SIZE - 1) = 0.
Proof. unfold NS_PTE_PHYSADDR. rewrite <- Z.land_assoc. change (Z.land 0xFFFFFFFFF000 _) with 0. apply Z.land_0_r. Qed.

Lemma translate_loop_ns at_ (ut : uthread pt_log) n pg flags vs vt a first ptes log :
  has_flag a MMU_PTE_ATTR_NON_SECURE = true -> page_table ut = Some log ->
  match translate_loop log_map at_ n pg true flags vs vt a first ptes ut with
  | Done (err, pfns) ut' => exists es, page_table ut' = Some (log ++ es) /\ map_list ut' = map_list ut /\
      Forall (ns_entry vt flags) es /\ pfns = (fun e => e.1.1.2) <$> es /\ (length pfns <= n)%nat
  | Crash w => (length ptes < pg + n)%nat
  end.
Proof.
  revert ut pg vs vt a first log. induction n as [|n IH]; intros ut pg vs vt a first log Ha Hpt; cbn [translate_loop].
  { exists []. rewrite app_nil_r. split_and!; try done. }
  unfold bind at 1, translate_page. destruct (ptes !! pg) as [pte|] eqn:Ep.
  2: { simpl. apply lookup_ge_None in Ep. lia. }
  unfold bind, deref. unfold ret at 1.
  assert (Hnone : exists es, page_table ut = Some (log ++ es) /\ map_list ut = map_list ut /\
      Forall (ns_entry vt flags) es /\ [] = (fun e => e.1.1.2) <$> es /\ (length (@nil Z) <= S n)%nat).
  { exists []. rewrite app_nil_r. split_and!; try done; simpl; lia. }
  destruct (has_flag flags UTM_W && negb (NS_PTE_AP_U_RW pte)); [exact Hnone|].
  assert (Hcb : forall x, 0 <= x < 16 -> exists c, mair_to_cb !! Z.to_nat x = Some c).
  { intros x Hx. apply lookup_lt_is_Some_2. simpl. lia. }
  assert (Hr : 0 <= NS_PTE_ATTR_OUTER pte < 16 /\ 0 <= NS_PTE_ATTR_INNER pte < 16).
  { unfold NS_PTE_ATTR_OUTER, NS_PTE_ATTR_INNER, NS_PTE_ATTR_MAIR.
    change 0xFF with (2 ^ 8 - 1). change 0xF with (2 ^ 4 - 1).
    rewrite !land_pow2_mask by lia. split; [|apply Z.mod_pos_bound; lia].
    set (m := _ mod _). rewrite Z.shiftr_div_pow2 by lia.
    assert (0 <= Z.land m 240 < 2 ^ 8).
    { split; [apply Z.land_nonneg; lia|]. apply below_pow2; [apply Z.land_nonneg; lia|lia|].
      intros k Hk. rewrite Z.land_spec. rewrite (Z.bits_above_log2 240) by (simpl; lia).
      apply andb_false_r. }
    dlia. }
  destruct (Hcb _ (proj1 Hr)) as [outer Ho]. destruct (Hcb _ (proj2 Hr)) as [inner Hi].
  rewrite Ho. unfold ret at 1. cbn beta iota. destruct (has_flag outer 0x4); [exact Hnone|].
  rewrite Hi. unfold ret at 1. cbn beta iota. destruct (has_flag inner 0x4); [exact Hnone|].
  unfold ret at 1. cbn beta iota. destruct (negb (match first with None => _ | Some _ => _ end)); [exact Hnone|].
  set (a' := match first with None => _ | Some _ => a end).
  assert (Ha' : has_flag a' MMU_PTE_ATTR_NON_SECURE = true).
  { unfold a'. destruct first; [done|]. destruct (negb (_ =? 0)), (negb (_ =? 0));
      auto using has_flag_lor_l. }
  cbn zeta. unfold mmu_map, bind, get, modify. rewrite Hpt. cbn [deref]. unfold ret at 1.
  cbn beta iota zeta. unfold ret at 1. cbn [log_map fst snd].
  set (e := (vt, NS_PTE_PHYSADDR pte, USER_PAGE_SIZE, a')).
  assert (He : ns_entry vt flags e) by (unfold e, ns_entry; split_and!; [done|done|lia|apply NS_PTE_PHYSADDR_aligned]).
  destruct (negb (ok _ _ _ _ =? _)).
  { unfold ret. exists [e]. simpl. split_and!; try done; [by constructor|lia]. }
  specialize (IH (set_page_table (Some (log ++ [e])) ut) (S pg) (vs + USER_PAGE_SIZE) (vt + USER_PAGE_SIZE) a'
    (match first with None => Some (inner, outer, NS_PTE_ATTR_SHAREABLE pte) | Some _ => first end)
    (log ++ [e]) Ha' eq_refl).
  destruct (translate_loop _ _ _ _ _ _ _ _ _ _ _ _) as [[err pfns] ut'|w]; cbn beta iota; [|lia].
  destruct IH as (es & H1 & H2 & H3 & -> & H5). exists (e :: es). simpl.
  rewrite <- app_assoc in H1. split_and!; try done; [|lia].
  constructor; [done|]. eapply Forall_impl; [exact H3|]. intros [[[? ?] ?] ?].
  unfold ns_entry, USER_PAGE_SIZE. intros (? & ? & ? & ?). split_and!; try done. lia.
Qed.

(** Memory of the non-secure world stays non-secure.  Whatever page
    descriptors the non-secure world supplies and however the page-table code
    answers, [arch_uthread_translate_map] asks for page-sized, page-aligned
    entries only, every one with the non-secure bit set, and stores in the
    page list exactly the frames it asked for. *)
Lemma translate_map_ns_only at_ vs vt n flags ptes (ut : uthread pt_log) log :
  has_flag flags UTM_NS_MEM = true -> page_table ut = Some log -> n <= Z.of_nat (length ptes) ->
  exists err pfns ut' es,
    arch_uthread_translate_map log_map at_ vs vt n flags true ptes ut = Done (err, pfns) ut' /\
    page_table ut' = Some (log ++ es) /\ Forall (ns_entry vt flags) es /\
    pfns = (fun e => e.1.1.2) <$> es /\ map_list ut' = map_list ut.
Proof.
  intros Hns Hpt Hn. unfold arch_uthread_translate_map. rewrite Hns.
  set (a := if has_flag flags UTM_W then _ else _).
  assert (Ha : has_flag a MMU_PTE_ATTR_NON_SECURE = true).
  { unfold a. destruct (has_flag flags UTM_W); apply has_flag_lor_l; reflexivity. }
  pose proof (translate_loop_ns at_ ut (Z.to_nat n) 0 flags vs vt a None ptes log Ha Hpt) as H.
  destruct (translate_loop _ _ _ _ _ _ _ _ _ _ _ _) as [[err pfns] ut'|w]; [|lia].
  destruct H as (es & ? & ? & ? & ? & ?). exists err, pfns, ut', es. by split_and!.
Qed.

End Trace.
(** ** Witnesses

    A stack of two pages and one non-secure page in the top megabyte. *)
Definition demo_stack : uthread_map :=
  UthreadMap 0x10000 0x2000
    (Z.lor (Z.lor (Z.lor (Z.lor UTM_W UTM_R) UTM_STACK) UTM_FIXED) UTM_PHYS_CONTIG) UT_MAP_ALIGN_4KB [0x80000000].
Definition demo_ns : uthread_map :=
  UthreadMap 0x1F80000 0x1000 (Z.lor UTM_NS_MEM UTM_R) UT_MAP_ALIGN_4KB [0x90000000].
Definition demo_ut : uthread pt_log :=
  Uthread 0x12000 [demo_stack; demo_ns] 0x1F00000 (Some []) [].
Definition all_ok (v p n a : Z) : Z := NO_ERROR.
Definition log_unmap (v n : Z) (pt : pt_log) : Z * pt_log := (NO_ERROR, pt).

Lemma demo_ut_uwf : uwf demo_ut.
Proof.
  split; simpl.
  - split; [repeat constructor; simpl; lia|]. repeat constructor. unfold below. simpl. lia.
  - repeat constructor; simpl; change MAX_USR_VA with (2 ^ 25); lia.
  - change MAX_USR_VA with (2 ^ 25). lia.
  - reflexivity.
  - change MAX_USR_VA with (2 ^ 25). lia.
  - constructor; [vm_compute; congruence|]. constructor; [vm_compute; congruence|constructor].
Qed.

Lemma uthread_map_alloc_spec_witness :
  exists mpp ut', uthread_map_alloc true 0x20000 [0xA0000000] 0x1000 UTM_R UT_MAP_ALIGN_4KB demo_ut =
    Done (NO_ERROR, mpp) ut' /\ maps_wf (map_list ut').
Proof.
  destruct (uthread_map_alloc_spec demo_ut 0x20000 [0xA0000000] 0x1000 UTM_R UT_MAP_ALIGN_4KB (uwf_maps _ demo_ut_uwf))
    as (err & mpp & ut' & Hrun & [(-> & _ & Hwf & _)|(_ & _ & _ & Hbad)]);
    [lia|lia|reflexivity|vm_compute; congruence|simpl; lia|by exists mpp, ut'|].
  exfalso. destruct Hbad as [?|[?|Hx]]; [lia|lia|].
  apply Exists_exists in Hx as (x & Hx & Hn). apply Hn. unfold clear_of.
  apply list_elem_of_In in Hx. destruct Hx as [<-|[<-|[]]]; simpl; lia.
Defined.

Lemma uthread_map_find_spec_witness :
  uthread_map_find 0x11000 0x1000 demo_ut = Some (0%nat, demo_stack).
Proof.
  apply (uthread_map_find_spec demo_ut 0x11000 0x1000 0 demo_stack (uwf_maps _ demo_ut_uwf)); [lia|lia|].
  split; [reflexivity|]. simpl. lia.
Defined.

Lemma uthread_map_keeps_space_witness :
  exists err v ut', uthread_map_locked (log_map all_ok) log_unmap [] (true, true) 0 (Some [1; 2]) 0x2000
      (Z.lor UTM_W UTM_R) UT_MAP_ALIGN_4KB demo_ut = Done (err, v) ut' /\ uwf ut'.
Proof.
  destruct (uthread_map_keeps_space (log_map all_ok) log_unmap [] (true, true) 0 [1; 2] 0x2000
              (Z.lor UTM_W UTM_R) UT_MAP_ALIGN_4KB demo_ut demo_ut_uwf)
    as (err & v & ut' & Hrun & Hwf & _);
    [by left|change MAX_USR_VA with (2 ^ 25); lia|reflexivity|reflexivity|by eexists|vm_compute; congruence
    |simpl; lia|intros H; vm_compute in H; congruence|].
  exists err, v, ut'. split; [exact Hrun|exact Hwf].
Defined.

Lemma uthread_unmap_keeps_space_witness :
  exists err ut', uthread_unmap_locked log_unmap (fun _ => true) 0x1F80000 0x1000 demo_ut = Done err ut' /\
    uwf ut'.
Proof.
  destruct (uthread_unmap_keeps_space log_unmap (fun _ => true) 0x1F80000 0x1000 demo_ut demo_ut_uwf)
    as (err & ut' & Hrun & Hwf & _); [by eexists|lia|lia| |].
  - intros i mp H. vm_compute in H. injection H as <- <-. reflexivity.
  - exists err, ut'. split; [exact Hrun|exact Hwf].
Defined.

Lemma uthread_unmap_contig_faults_witness :
  uthread_unmap_locked log_unmap (fun _ => true) 0x10000 0x2000 demo_ut = Crash BadAccess.
Proof.
  apply (uthread_unmap_contig_faults log_unmap (fun _ => true) 0x10000 0x2000 demo_ut 0 demo_stack [] 0x80000000);
    try reflexivity; try (vm_compute; congruence).
Defined.

Lemma translate_map_ns_only_witness :
  exists err pfns ut', arch_uthread_translate_map (log_map all_ok) (fun _ _ => 0) 0 0x20000 1
      (Z.lor UTM_NS_MEM UTM_R) true [0xFF0000A0000000] demo_ut = Done (err, pfns) ut' /\
    map_list ut' = map_list demo_ut.
Proof.
  destruct (translate_map_ns_only all_ok (fun _ _ => 0) 0 0x20000 1 (Z.lor UTM_NS_MEM UTM_R)
              [0xFF0000A0000000] demo_ut []) as (err & pfns & ut' & es & Hrun & _ & _ & _ & Hm);
    [reflexivity|reflexivity|simpl; lia|].
  exists err, pfns, ut'. split; [exact Hrun|exact Hm].
Defined.

(** A request larger than the address space: the 32-bit alignment mask cuts
    the wrapped difference, and the address returned lies above
    [MAX_USR_VA]. *)
Theorem find_va_space_ns_oversized :
  uthread_find_va_space_ns (MAX_USR_VA + UT_MAP_ALIGN_1MB) UT_MAP_ALIGN_4KB demo_ut = Done 0xfff00000 demo_ut.
Proof. vm_compute. reflexivity. Qed.

End Uthread.
