(* ===== verification/SmCall.v ===== *)
(** * Secure monitor calls: numbers, dispatch tables, memory descriptors

    [lib/sm/include/lib/sm/smcall.h], [lib/sm/smcall.c], [lib/sm/ns_mem.c] and
    the Trusted OS entity of [lib/trusty/smcall.c]. *)

From S2P Require Import Prelude.

Module SmCall.

(** ** Call numbers ([smcall.h]) *)

Definition SMC_NUM_ENTITIES : Z := 64.
Definition SMC_NUM_ARGS : Z := 8.
Definition SMC_NUM_PARAMS : Z := SMC_NUM_ARGS - 1.
Definition SMC_ARGS_GUESTID : Z := 6.

Definition SMC_IS_FASTCALL (smc_nr : Z) : bool := has_flag smc_nr 0x80000000.
Definition SMC_IS_SMC64 (smc_nr : Z) : bool := has_flag smc_nr 0x40000000.
Definition SMC_ENTITY (smc_nr : Z) : Z := Z.shiftr (Z.land smc_nr 0x3F000000) 24.
Definition SMC_FUNCTION (smc_nr : Z) : Z := Z.land smc_nr 0x0000FFFF.
Definition SMC_NR (entity fn fastcall smc64 : Z) : Z :=
  Z.lor (Z.lor (Z.lor (Z.shiftl (Z.land fastcall 0x1) 31) (Z.shiftl (Z.land smc64 0x1) 30))
           (Z.shiftl (Z.land entity 0x3F) 24))
        (Z.land fn 0xFFFF).
Definition SMC_FASTCALL_NR (entity fn : Z) : Z := SMC_NR entity fn 1 0.
Definition SMC_STDCALL_NR (entity fn : Z) : Z := SMC_NR entity fn 0 0.

Definition SMC_ENTITY_RESERVED : Z := 5.
Definition SMC_ENTITY_TRUSTED_APP : Z := 48.
Definition SMC_ENTITY_TRUSTED_OS : Z := 50.
Definition SMC_ENTITY_SECURE_MONITOR : Z := 60.

Definition SMC_SC_RESTART_LAST : Z := SMC_STDCALL_NR SMC_ENTITY_SECURE_MONITOR 0.
Definition SMC_SC_LOCKED_NOP : Z := SMC_STDCALL_NR SMC_ENTITY_SECURE_MONITOR 1.
Definition SMC_SC_RESTART_FIQ : Z := SMC_STDCALL_NR SMC_ENTITY_SECURE_MONITOR 2.
Definition SMC_SC_NOP : Z := SMC_STDCALL_NR SMC_ENTITY_SECURE_MONITOR 3.

Definition SMC_SC_VIRTIO_GET_DESCR : Z := SMC_STDCALL_NR SMC_ENTITY_TRUSTED_OS 20.
Definition SMC_SC_VIRTIO_START : Z := SMC_STDCALL_NR SMC_ENTITY_TRUSTED_OS 21.
Definition SMC_SC_VIRTIO_STOP : Z := SMC_STDCALL_NR SMC_ENTITY_TRUSTED_OS 22.
Definition SMC_SC_VDEV_RESET : Z := SMC_STDCALL_NR SMC_ENTITY_TRUSTED_OS 23.
Definition SMC_SC_VDEV_KICK_VQ : Z := SMC_STDCALL_NR SMC_ENTITY_TRUSTED_OS 24.
Definition SMC_SC_BL_LOCK_TOS_DATA : Z := SMC_STDCALL_NR SMC_ENTITY_TRUSTED_OS 65533.
Definition SMC_SC_BL_SEND_TOS_DATA : Z := SMC_STDCALL_NR SMC_ENTITY_TRUSTED_OS 65534.
Definition SMC_SC_SET_ROOT_OF_TRUST : Z := SMC_STDCALL_NR SMC_ENTITY_TRUSTED_OS 65535.
Definition SMC_NC_VDEV_KICK_VQ : Z := SMC_STDCALL_NR SMC_ENTITY_TRUSTED_OS 25.
Definition SMC_NC_SIM_HANDLE_IRQ : Z := SMC_STDCALL_NR SMC_ENTITY_TRUSTED_OS 26.
Definition SMC_SC_CREATE_QL_TIPC_DEV : Z := SMC_STDCALL_NR SMC_ENTITY_TRUSTED_OS 30.
Definition SMC_SC_SHUTDOWN_QL_TIPC_DEV : Z := SMC_STDCALL_NR SMC_ENTITY_TRUSTED_OS 31.
Definition SMC_SC_HANDLE_QL_TIPC_DEV_CMD : Z := SMC_STDCALL_NR SMC_ENTITY_TRUSTED_OS 32.

(** ** Errors of the monitor ([sm_err.h]) *)

Definition SM_ERR_UNDEFINED_SMC : Z := 0xFFFFFFFF.
Definition SM_ERR_INVALID_PARAMETERS : Z := -2.
Definition SM_ERR_INTERRUPTED : Z := -3.
Definition SM_ERR_UNEXPECTED_RESTART : Z := -4.
Definition SM_ERR_BUSY : Z := -5.
Definition SM_ERR_INTERLEAVED_SMC : Z := -6.
Definition SM_ERR_INTERNAL_FAILURE : Z := -7.
Definition SM_ERR_NOT_SUPPORTED : Z := -8.
Definition SM_ERR_NOT_ALLOWED : Z := -9.
Definition SM_ERR_FIQ_INTERRUPTED : Z := -12.
Definition SM_ERR_CPU_IDLE : Z := -13.
Definition SM_ERR_NOP_INTERRUPTED : Z := -14.
Definition SM_ERR_NOP_DONE : Z := -15.

Record smc32_args := SmcArgs { smc_nr : Z; params : list Z }.
Definition param (args : smc32_args) (i : Z) : Z := default 0 (params args !! Z.to_nat i).

(** Seven 32-bit parameters and a 32-bit number. *)
Definition args_wf (args : smc32_args) : Prop :=
  0 <= smc_nr args < 2 ^ 32 /\ length (params args) = Z.to_nat SMC_NUM_PARAMS /\
  Forall (fun p => 0 <= p < 2 ^ 32) (params args).

(** ** Dispatch tables

    A table entry is a function pointer; the handlers that other files
    register are named by a number. *)
Inductive smc32_handler : Set :=
| H_smc_undefined
| H_smc_nop_secure_monitor
| H_smc_stdcall_secure_monitor
| H_smc_fastcall_secure_monitor
| H_registered (id : nat).

#[export] Instance smc32_handler_eq_dec : EqDecision smc32_handler.
Proof. solve_decision. Defined.

Record sm_tables := SmTables {
  sm_fastcall_table : list smc32_handler;
  sm_nopcall_table : list smc32_handler;
  sm_stdcall_table : list smc32_handler
}.

Definition monitor_table (before : smc32_handler) : list smc32_handler :=
  replicate 60 H_smc_undefined ++ [before] ++ replicate 3 H_smc_undefined.

Definition sm_tables_init : sm_tables :=
  SmTables (monitor_table H_smc_fastcall_secure_monitor)
           (H_smc_nop_secure_monitor :: replicate 63 H_smc_undefined)
           (monitor_table H_smc_stdcall_secure_monitor).

Record smc32_entity := SmcEntity {
  fastcall_handler : option smc32_handler;
  nopcall_handler : option smc32_handler;
  stdcall_handler : option smc32_handler
}.

Definition install (h : option smc32_handler) (n : Z) (t : list smc32_handler) : list smc32_handler :=
  match h with Some f => <[Z.to_nat n := f]> t | None => t end.

(** The tables have an entry for every entity number below 64. *)
Definition sm_register_entity (entity_nr : Z) (entity : option smc32_entity) (t : sm_tables)
    : Z * sm_tables :=
  if SMC_NUM_ENTITIES <=? entity_nr then (ERR_INVALID_ARGS, t)
  else if (SMC_ENTITY_RESERVED <=? entity_nr) && (entity_nr <? SMC_ENTITY_TRUSTED_APP)
  then (ERR_NOT_ALLOWED, t)
  else match entity with
  | None => (ERR_INVALID_ARGS, t)
  | Some entity =>
      match fastcall_handler entity, stdcall_handler entity with
      | None, None => (ERR_NOT_VALID, t)
      | _, _ =>
          let claimed (tbl : list smc32_handler) :=
            bool_decide (tbl !! Z.to_nat entity_nr <> Some H_smc_undefined) in
          if claimed (sm_fastcall_table t) || claimed (sm_nopcall_table t) || claimed (sm_stdcall_table t)
          then (ERR_ALREADY_EXISTS, t)
          else (NO_ERROR, SmTables (install (fastcall_handler entity) entity_nr (sm_fastcall_table t))
                                   (install (nopcall_handler entity) entity_nr (sm_nopcall_table t))
                                   (install (stdcall_handler entity) entity_nr (sm_stdcall_table t)))
      end
  end.

(** ** Calls of the secure-monitor entity *)

Definition smc_undefined (args : smc32_args) : Z := SM_ERR_UNDEFINED_SMC.
Definition smc_restart_stdcall (args : smc32_args) : Z := SM_ERR_UNEXPECTED_RESTART.
Definition smc_nop_stdcall (args : smc32_args) : Z := 0.
Definition smc_nop_secure_monitor (args : smc32_args) : Z :=
  if param args 0 =? 0 then 0 else SM_ERR_UNDEFINED_SMC.

Definition sm_stdcall_function_table : list (smc32_args -> Z) :=
  [smc_restart_stdcall; smc_nop_stdcall; smc_restart_stdcall; smc_undefined].

Definition smc_stdcall_secure_monitor (args : smc32_args) : Z :=
  match sm_stdcall_function_table !! Z.to_nat (SMC_FUNCTION (smc_nr args)) with
  | Some handler_fn => handler_fn args
  | None => smc_undefined args
  end.

(** [lk_version] is the version string. *)
Definition smc_get_version_str (lk_version : list Z) (args : smc32_args) : Z :=
  let index := s32 (param args 0) in
  let version_len := Z.of_nat (length lk_version) in
  if index =? -1 then version_len
  else if version_len <=? u64 index then SM_ERR_INVALID_PARAMETERS
  else default 0 (lk_version !! Z.to_nat index).

Section Handlers.
(** What the registered handlers and the fast calls do. *)
Context (registered : nat -> smc32_args -> Z) (fastcall : smc32_args -> Z).

Definition call_handler (h : smc32_handler) (args : smc32_args) : Z :=
  match h with
  | H_smc_undefined => smc_undefined args
  | H_smc_nop_secure_monitor => smc_nop_secure_monitor args
  | H_smc_stdcall_secure_monitor => smc_stdcall_secure_monitor args
  | H_smc_fastcall_secure_monitor => fastcall args
  | H_registered id => registered id args
  end.

Definition call_entity (t : list smc32_handler) (entity : Z) (args : smc32_args) : option Z :=
  h ← t !! Z.to_nat entity; Some (call_handler h args).
End Handlers.

(** ** Non-secure memory descriptors ([ns_mem.c], [arch/mmu.h]) *)

Definition ARCH_MMU_FLAG_CACHED : Z := Z.shiftl 0 0.
Definition ARCH_MMU_FLAG_UNCACHED : Z := Z.shiftl 1 0.
Definition ARCH_MMU_FLAG_CACHE_MASK : Z := Z.shiftl 3 0.
Definition ARCH_MMU_FLAG_PERM_USER : Z := Z.shiftl 1 2.
Definition ARCH_MMU_FLAG_PERM_RO : Z := Z.shiftl 1 3.
Definition ARCH_MMU_FLAG_PERM_NO_EXECUTE : Z := Z.shiftl 1 4.
Definition ARCH_MMU_FLAG_NS : Z := Z.shiftl 1 5.

Definition NS_PTE_PHYSADDR (pte : Z) : Z := Z.land pte 0xFFFFFFFFF000.
Definition NS_PTE_AP (pte : Z) : Z := Z.land (Z.shiftr pte 6) 0x3.
Definition NS_PTE_AP_U (pte : Z) : Z := Z.land (NS_PTE_AP pte) 0x1.
Definition NS_PTE_AP_RO (pte : Z) : Z := Z.land (NS_PTE_AP pte) 0x2.
Definition NS_PTE_ATTR_SHAREABLE (pte : Z) : Z := Z.land (Z.shiftr pte 8) 0x3.
Definition NS_PTE_ATTR_MAIR (pte : Z) : Z := Z.land (Z.shiftr pte 48) 0xFF.
Definition NS_MAIR_NORMAL_CACHED_WB_RWA : Z := 0xFF.
Definition NS_MAIR_NORMAL_UNCACHED : Z := 0x44.
Definition NS_INNER_SHAREABLE : Z := 0x3.

(** The result is the return code, [*ppa] and [*pmmu].  Both pointers are
    given at the call sites; the build has [WITH_SMP]. *)
Definition sm_decode_ns_memory_attr (attr : Z) : Z * Z * option Z :=
  let ppa := NS_PTE_PHYSADDR attr in
  let mair := NS_PTE_ATTR_MAIR attr in
  let mmu_flags :=
    if mair =? NS_MAIR_NORMAL_CACHED_WB_RWA then Some ARCH_MMU_FLAG_CACHED
    else if mair =? NS_MAIR_NORMAL_UNCACHED then Some ARCH_MMU_FLAG_UNCACHED
    else None in
  match mmu_flags with
  | None => (ERR_NOT_SUPPORTED, ppa, None)
  | Some mmu_flags =>
      if (mmu_flags =? ARCH_MMU_FLAG_CACHED)
         && negb (NS_PTE_ATTR_SHAREABLE attr =? NS_INNER_SHAREABLE)
      then (ERR_NOT_SUPPORTED, ppa, None)
      else
        let f := if negb (NS_PTE_AP_U attr =? 0) then Z.lor mmu_flags ARCH_MMU_FLAG_PERM_USER
                 else mmu_flags in
        let f := if negb (NS_PTE_AP_RO attr =? 0) then Z.lor f ARCH_MMU_FLAG_PERM_RO else f in
        (NO_ERROR, ppa, Some (Z.lor (Z.lor f ARCH_MMU_FLAG_NS) ARCH_MMU_FLAG_PERM_NO_EXECUTE))
  end.

(** The result is the return code and, on success, address, size and flags. *)
Definition smc32_decode_mem_buf_info (args : smc32_args) : Z * option (Z * Z * Z) :=
  let attr := Z.lor (Z.shiftl (param args 1) 32) (param args 0) in
  match sm_decode_ns_memory_attr attr with
  | (res, ppa, Some flags) => (res, Some (ppa, param args 2, flags))
  | (res, _, None) => (res, None)
  end.

(** ** The Trusted OS entity ([lib/trusty/smcall.c]) *)

Definition get_ns_mem_buf (args : smc32_args) : Z * option (Z * Z * Z) :=
  match smc32_decode_mem_buf_info args with
  | (rc, None) => (rc, None)
  | (rc, Some (pa, sz, flags)) =>
      if negb (rc =? NO_ERROR) then (rc, None)
      else
        let mem_type := Z.land flags ARCH_MMU_FLAG_CACHE_MASK in
        if negb (mem_type =? ARCH_MMU_FLAG_CACHED) && negb (mem_type =? ARCH_MMU_FLAG_UNCACHED)
        then (ERR_INVALID_ARGS, None)
        else if has_flag flags ARCH_MMU_FLAG_PERM_RO || has_flag flags ARCH_MMU_FLAG_PERM_USER
        then (ERR_INVALID_ARGS, None)
        else (NO_ERROR, Some (pa, sz, flags))
  end.

Definition to_smc_error (err : Z) : Z :=
  if 0 <=? err then err
  else if err =? ERR_INVALID_ARGS then SM_ERR_INVALID_PARAMETERS
  else if err =? ERR_NOT_SUPPORTED then SM_ERR_NOT_SUPPORTED
  else if err =? ERR_NOT_ALLOWED then SM_ERR_NOT_ALLOWED
  else SM_ERR_INTERNAL_FAILURE.

Definition HV_GUEST_ID : Z := -1.
Definition MAX_NUM_SUPPORTED_GUESTS : Z := 16.

Definition guest_refused (guest : Z) : bool :=
  negb (s32 guest =? HV_GUEST_ID) && (MAX_NUM_SUPPORTED_GUESTS <=? guest).

(** The services behind the calls, in the state of the services. *)
Record services (S : Type) := Services {
  virtio_get_description : Z -> Z -> Z -> Z -> M S Z;
  virtio_start : Z -> Z -> Z -> Z -> M S Z;
  virtio_stop : Z -> Z -> Z -> Z -> M S Z;
  virtio_device_reset : Z -> Z -> M S Z;
  virtio_kick_vq : Z -> Z -> Z -> M S Z;
  lock_bl_data_interface : M S Z;
  handle_bl_data_interface : Z -> Z -> Z -> M S Z;
  set_root_of_trust_params : Z -> Z -> M S Z;
  ql_tipc_create_device : Z -> Z -> Z -> M S Z;
  ql_tipc_shutdown_device : Z -> M S Z;
  ql_tipc_handle_cmd : Z -> Z -> M S Z;
  arm_gic_sim_irq_handler : Z -> M S Z
}.
Arguments virtio_get_description {S}. Arguments virtio_start {S}. Arguments virtio_stop {S}.
Arguments virtio_device_reset {S}. Arguments virtio_kick_vq {S}.
Arguments lock_bl_data_interface {S}. Arguments handle_bl_data_interface {S}.
Arguments set_root_of_trust_params {S}. Arguments ql_tipc_create_device {S}.
Arguments ql_tipc_shutdown_device {S}. Arguments ql_tipc_handle_cmd {S}.
Arguments arm_gic_sim_irq_handler {S}.

Section TrustedOs.
Context {S : Type} (sv : services S).

Definition with_ns_buf (args : smc32_args) (k : Z -> Z -> Z -> M S Z) : M S Z :=
  match get_ns_mem_buf args with
  | (_, Some (pa, sz, flags)) => k pa sz flags
  | (res, None) => ret res
  end.

Definition stdcall_service (args : smc32_args) (guest : Z) : M S Z :=
  let nr := smc_nr args in
  if nr =? SMC_SC_VIRTIO_GET_DESCR then
    with_ns_buf args (fun pa sz fl => virtio_get_description sv pa sz fl guest)
  else if nr =? SMC_SC_VIRTIO_START then
    with_ns_buf args (fun pa sz fl => virtio_start sv pa sz fl guest)
  else if nr =? SMC_SC_VIRTIO_STOP then
    with_ns_buf args (fun pa sz fl => virtio_stop sv pa sz fl guest)
  else if nr =? SMC_SC_VDEV_RESET then virtio_device_reset sv (param args 0) guest
  else if nr =? SMC_SC_VDEV_KICK_VQ then virtio_kick_vq sv (param args 0) (param args 1) guest
  else if nr =? SMC_SC_BL_LOCK_TOS_DATA then lock_bl_data_interface sv
  else if nr =? SMC_SC_BL_SEND_TOS_DATA then
    handle_bl_data_interface sv (param args 0) (param args 1) (param args 2)
  else if nr =? SMC_SC_SET_ROOT_OF_TRUST then
    set_root_of_trust_params sv (param args 0) (param args 1)
  else if nr =? SMC_SC_CREATE_QL_TIPC_DEV then
    with_ns_buf args (fun pa sz fl => ql_tipc_create_device sv pa sz fl)
  else if nr =? SMC_SC_SHUTDOWN_QL_TIPC_DEV then
    with_ns_buf args (fun pa sz fl => ql_tipc_shutdown_device sv pa)
  else if nr =? SMC_SC_HANDLE_QL_TIPC_DEV_CMD then
    with_ns_buf args (fun pa sz fl => ql_tipc_handle_cmd sv pa sz)
  else ret ERR_NOT_SUPPORTED.

Definition trusty_sm_stdcall (args : smc32_args) : M S Z :=
  let guest := param args SMC_ARGS_GUESTID in
  if guest_refused guest then ret SM_ERR_INVALID_PARAMETERS
  else res <- stdcall_service args guest ;; ret (to_smc_error res).

Definition trusty_sm_nopcall (args : smc32_args) : M S Z :=
  let guest := param args SMC_ARGS_GUESTID in
  if guest_refused guest then ret SM_ERR_INVALID_PARAMETERS
  else
    res <- (if param args 0 =? SMC_NC_VDEV_KICK_VQ then
              virtio_kick_vq sv (param args 1) (param args 2) guest
            else if param args 0 =? SMC_NC_SIM_HANDLE_IRQ then
              arm_gic_sim_irq_handler sv (param args 1)
            else ret ERR_NOT_SUPPORTED) ;;
    ret (to_smc_error res).
End TrustedOs.

Definition trusty_sm_entity : smc32_entity :=
  SmcEntity None (Some (H_registered 1)) (Some (H_registered 0)).

Definition trusty_sm_init (t : sm_tables) : sm_tables :=
  (sm_register_entity SMC_ENTITY_TRUSTED_OS (Some trusty_sm_entity) t).2.

(** ** Call numbers *)

Lemma SMC_NR_sum entity fn fastcall smc64 :
  0 <= entity < 64 -> 0 <= fn < 2 ^ 16 -> 0 <= fastcall <= 1 -> 0 <= smc64 <= 1 ->
  SMC_NR entity fn fastcall smc64 = fn + 2 ^ 24 * entity + 2 ^ 30 * smc64 + 2 ^ 31 * fastcall.
Proof.
  intros He Hf Hc Hs. unfold SMC_NR. change 0x1 with (2 ^ 1 - 1). change 0x3F with (2 ^ 6 - 1).
  change 0xFFFF with (2 ^ 16 - 1). rewrite !land_pow2_mask, !Z.mod_small by lia.
  assert (H1 : Z.lor (Z.shiftl fastcall 31) (Z.shiftl smc64 30) = Z.shiftl (2 * fastcall + smc64) 30).
  { rewrite lor_shiftl_add by (rewrite ?Z.shiftl_mul_pow2; lia). rewrite !Z.shiftl_mul_pow2 by lia. lia. }
  rewrite H1, lor_shiftl_add by (rewrite ?Z.shiftl_mul_pow2; lia).
  replace (Z.shiftl (2 * fastcall + smc64) 30 + Z.shiftl entity 24)
    with (Z.shiftl (64 * (2 * fastcall + smc64) + entity) 24) by (rewrite !Z.shiftl_mul_pow2; lia).
  rewrite lor_shiftl_add by lia. rewrite Z.shiftl_mul_pow2 by lia. lia.
Qed.

(** Call numbers decode to what they were built from: for an entity below
    64 and a function number of 16 bits, [SMC_NR] has the entity, the function,
    the fast-call and the 64-bit flags it was given. *)
Lemma SMC_NR_roundtrip entity fn fastcall smc64 :
  0 <= entity < 64 -> 0 <= fn < 2 ^ 16 -> 0 <= fastcall <= 1 -> 0 <= smc64 <= 1 ->
  SMC_ENTITY (SMC_NR entity fn fastcall smc64) = entity /\
  SMC_FUNCTION (SMC_NR entity fn fastcall smc64) = fn /\
  SMC_IS_FASTCALL (SMC_NR entity fn fastcall smc64) = (fastcall =? 1) /\
  SMC_IS_SMC64 (SMC_NR entity fn fastcall smc64) = (smc64 =? 1).
Proof.
  intros He Hf Hc Hs. rewrite SMC_NR_sum by done. unfold SMC_IS_FASTCALL, SMC_IS_SMC64.
  change 0x80000000 with (2 ^ 31). change 0x40000000 with (2 ^ 30).
  rewrite !has_flag_pow2, !testbit_div_mod by lia. split_and!.
  - unfold SMC_ENTITY. change 0x3F000000 with (Z.shiftl (2 ^ 6 - 1) 24).
    rewrite Z.shiftr_land, Z.shiftr_shiftl_l, Z.shiftl_0_r, land_pow2_mask, Z.shiftr_div_pow2 by lia. dlia.
  - unfold SMC_FUNCTION. change 0xFFFF with (2 ^ 16 - 1). rewrite land_pow2_mask by lia. dlia.
  - f_equal. dlia.
  - f_equal. dlia.
Qed.

(** ** Registration *)

Definition tables_wf (t : sm_tables) : Prop :=
  length (sm_fastcall_table t) = 64%nat /\ length (sm_nopcall_table t) = 64%nat /\
  length (sm_stdcall_table t) = 64%nat.

(** A handler an entity may bring: not the placeholder. *)
Definition entity_ok (e : smc32_entity) : Prop :=
  fastcall_handler e <> Some H_smc_undefined /\ nopcall_handler e <> Some H_smc_undefined /\
  stdcall_handler e <> Some H_smc_undefined.

Lemma install_lookup h n (t : list smc32_handler) : 0 <= n -> (Z.to_nat n < length t)%nat ->
  forall m, install h n t !! m =
    if decide (m = Z.to_nat n) then match h with Some f => Some f | None => t !! m end else t !! m.
Proof.
  intros Hn Hl m. unfold install. destruct h as [f|]; case_decide as Hm; subst; try done.
  - by rewrite list_lookup_insert_eq.
  - by rewrite list_lookup_insert_ne.
Qed.

Lemma install_length h n t : length (install h n t) = length t.
Proof. unfold install. destruct h; [by rewrite length_insert|done]. Qed.

Definition claimed (n : Z) (t : sm_tables) : bool :=
  bool_decide (sm_fastcall_table t !! Z.to_nat n <> Some H_smc_undefined)
  || bool_decide (sm_nopcall_table t !! Z.to_nat n <> Some H_smc_undefined)
  || bool_decide (sm_stdcall_table t !! Z.to_nat n <> Some H_smc_undefined).

Definition installed (n : Z) (e : smc32_entity) (t : sm_tables) : sm_tables :=
  SmTables (install (fastcall_handler e) n (sm_fastcall_table t))
           (install (nopcall_handler e) n (sm_nopcall_table t))
           (install (stdcall_handler e) n (sm_stdcall_table t)).

Lemma sm_register_entity_eq t n e :
  fastcall_handler e <> None \/ stdcall_handler e <> None ->
  n < 64 -> ~ (SMC_ENTITY_RESERVED <= n < SMC_ENTITY_TRUSTED_APP) ->
  sm_register_entity n (Some e) t =
    if claimed n t then (ERR_ALREADY_EXISTS, t) else (NO_ERROR, installed n e t).
Proof.
  intros He Hn Hr. unfold sm_register_entity, SMC_NUM_ENTITIES, claimed, installed.
  rewrite (proj2 (Z.leb_gt _ _)) by lia.
  replace ((SMC_ENTITY_RESERVED <=? n) && (n <? SMC_ENTITY_TRUSTED_APP)) with false.
  - destruct (fastcall_handler e), (stdcall_handler e); try done. by destruct He.
  - symmetry. apply andb_false_iff. rewrite Z.leb_gt, Z.ltb_ge. lia.
Qed.

Lemma unclaimed n t : claimed n t = false <->
  sm_fastcall_table t !! Z.to_nat n = Some H_smc_undefined /\
  sm_nopcall_table t !! Z.to_nat n = Some H_smc_undefined /\
  sm_stdcall_table t !! Z.to_nat n = Some H_smc_undefined.
Proof.
  unfold claimed. rewrite !orb_false_iff, !bool_decide_eq_false.
  split; [intros [[H1 H2] H3]; split_and!; by apply dec_stable|tauto].
Qed.

Lemma installed_claimed n e t : tables_wf t -> entity_ok e -> 0 <= n < 64 ->
  fastcall_handler e <> None \/ stdcall_handler e <> None -> claimed n (installed n e t) = true.
Proof.
  intros (Hf & _ & Hs) (He1 & _ & He3) Hn He.
  destruct (claimed n (installed n e t)) eqn:E; [done|]. apply unclaimed in E as (E1 & _ & E3).
  simpl in E1, E3. rewrite install_lookup, decide_True in E1, E3 by (lia || done).
  destruct He as [He|He].
  - destruct (fastcall_handler e); congruence.
  - destruct (stdcall_handler e); congruence.
Qed.

(** An entity number is claimed at most once.  Registration succeeds only
    for an unreserved number below 64 that no table knows, touches no other
    entity's handlers, and afterwards any further registration of that number
    is [ERR_ALREADY_EXISTS]; a refused one changes nothing. *)
Lemma sm_register_entity_claims t n e err t' : tables_wf t -> 0 <= n -> entity_ok e ->
  sm_register_entity n (Some e) t = (err, t') ->
  (err = NO_ERROR /\ tables_wf t' /\ n < 64 /\ ~ (SMC_ENTITY_RESERVED <= n < SMC_ENTITY_TRUSTED_APP) /\
     sm_fastcall_table t !! Z.to_nat n = Some H_smc_undefined /\
     sm_nopcall_table t !! Z.to_nat n = Some H_smc_undefined /\
     sm_stdcall_table t !! Z.to_nat n = Some H_smc_undefined /\
     (forall m, m <> Z.to_nat n ->
        sm_fastcall_table t' !! m = sm_fastcall_table t !! m /\
        sm_nopcall_table t' !! m = sm_nopcall_table t !! m /\
        sm_stdcall_table t' !! m = sm_stdcall_table t !! m) /\
     (forall e', fastcall_handler e' <> None \/ stdcall_handler e' <> None ->
        sm_register_entity n (Some e') t' = (ERR_ALREADY_EXISTS, t'))) \/
  (err < 0 /\ t' = t).
Proof.
  intros Hwf Hn He H.
  destruct (decide (n < 64)) as [Hlt|].
  2: { right. unfold sm_register_entity, SMC_NUM_ENTITIES in H.
       rewrite (proj2 (Z.leb_le _ _)) in H by lia. by simplify_eq. }
  destruct (decide (SMC_ENTITY_RESERVED <= n < SMC_ENTITY_TRUSTED_APP)) as [Hres|Hres].
  { right. unfold sm_register_entity, SMC_NUM_ENTITIES in H.
    rewrite (proj2 (Z.leb_gt _ _)) in H by lia.
    rewrite (proj2 (Z.leb_le _ _)), (proj2 (Z.ltb_lt _ _)) in H by lia. simpl in H. by simplify_eq. }
  destruct (decide (fastcall_handler e = None /\ stdcall_handler e = None)) as [[H1 H2]|Hh].
  { right. unfold sm_register_entity in H. rewrite H1, H2 in H.
    repeat case_match; by simplify_eq. }
  assert (He' : fastcall_handler e <> None \/ stdcall_handler e <> None).
  { destruct (fastcall_handler e), (stdcall_handler e); try (by left); try (by right). by destruct Hh. }
  rewrite sm_register_entity_eq in H by done.
  destruct (claimed n t) eqn:Ec; [right; by simplify_eq|left]. simplify_eq.
  apply unclaimed in Ec as (? & ? & ?). pose proof Hwf as (Hf & Hnp & Hs).
  split_and!; try done.
  - unfold tables_wf. simpl. by rewrite !install_length.
  - intros m Hm. simpl. rewrite !install_lookup, !decide_False by (lia || done). done.
  - intros e' Hh'. rewrite sm_register_entity_eq by done. by rewrite installed_claimed.
Qed.

(** ** Non-secure buffers *)

(** What a descriptor must say: kernel read-write memory, and either cached
    write-back and inner shareable or uncached. *)
Definition ns_buf_ok (attr : Z) : Prop :=
  NS_PTE_AP attr = 0 /\
  ((NS_PTE_ATTR_MAIR attr = NS_MAIR_NORMAL_CACHED_WB_RWA /\ NS_PTE_ATTR_SHAREABLE attr = NS_INNER_SHAREABLE) \/
   NS_PTE_ATTR_MAIR attr = NS_MAIR_NORMAL_UNCACHED).

Lemma NS_PTE_AP_cases attr : NS_PTE_AP attr = 0 \/ NS_PTE_AP attr = 1 \/ NS_PTE_AP attr = 2 \/ NS_PTE_AP attr = 3.
Proof.
  unfold NS_PTE_AP. change 0x3 with (2 ^ 2 - 1). rewrite land_pow2_mask by lia.
  pose proof (Z.mod_pos_bound (Z.shiftr attr 6) (2 ^ 2)). lia.
Qed.

Lemma NS_PTE_PHYSADDR_range pte : 0 <= pte < 2 ^ 64 ->
  0 <= NS_PTE_PHYSADDR pte < 2 ^ 48 /\ NS_PTE_PHYSADDR pte mod PAGE_SIZE = 0.
Proof.
  intros Hp. unfold NS_PTE_PHYSADDR. change 0xFFFFFFFFF000 with (Z.shiftl (Z.ones 36) 12).
  assert (Heq : Z.land pte (Z.shiftl (Z.ones 36) 12) = Z.shiftl (Z.land (Z.shiftr pte 12) (2 ^ 36 - 1)) 12).
  { apply Z.bits_inj'. intros n Hn. rewrite Z.land_spec, !Z.shiftl_spec by lia.
    destruct (Z.lt_ge_cases n 12).
    - rewrite !(Z.testbit_neg_r _ (n - 12)) by lia. apply andb_false_r.
    - rewrite Z.land_spec, Z.shiftr_spec by lia. by rewrite Z.sub_add. }
  rewrite Heq, land_pow2_mask, Z.shiftl_mul_pow2 by lia. unfold PAGE_SIZE.
  pose proof (Z.mod_pos_bound (Z.shiftr pte 12) (2 ^ 36)).
  split; [lia|]. change (2 ^ 12) with 4096. by rewrite Z.mod_mul.
Qed.

Lemma ns_mem_buf_cases args : args_wf args ->
  let attr := param args 0 + 2 ^ 32 * param args 1 in
  match get_ns_mem_buf args with
  | (rc, Some (pa, sz, flags)) =>
      rc = NO_ERROR /\ ns_buf_ok attr /\ pa = NS_PTE_PHYSADDR attr /\
      pa mod PAGE_SIZE = 0 /\ 0 <= pa < 2 ^ 48 /\ sz = param args 2 /\
      flags = Z.lor (if NS_PTE_ATTR_MAIR attr =? NS_MAIR_NORMAL_UNCACHED
                     then ARCH_MMU_FLAG_UNCACHED else ARCH_MMU_FLAG_CACHED)
                (Z.lor ARCH_MMU_FLAG_NS ARCH_MMU_FLAG_PERM_NO_EXECUTE)
  | (rc, None) => rc < 0 /\ ~ ns_buf_ok attr
  end.
Proof.
  intros (_ & Hl & Hp) attr.
  assert (Hpar : forall i, 0 <= param args i < 2 ^ 32).
  { intros i. unfold param. destruct (params args !! Z.to_nat i) as [p|] eqn:E; simpl; [|lia].
    rewrite Forall_forall in Hp. apply Hp. by eapply list_elem_of_lookup_2. }
  pose proof (Hpar 0). pose proof (Hpar 1).
  unfold get_ns_mem_buf, smc32_decode_mem_buf_info.
  replace (Z.lor (Z.shiftl (param args 1) 32) (param args 0)) with attr
    by (rewrite lor_shiftl_add, Z.shiftl_mul_pow2 by lia; unfold attr; lia).
  destruct (NS_PTE_PHYSADDR_range attr) as [Hr Hm]; [unfold attr; lia|].
  unfold sm_decode_ns_memory_attr, ns_buf_ok, NS_PTE_AP_U, NS_PTE_AP_RO.
  destruct (NS_PTE_ATTR_MAIR attr =? NS_MAIR_NORMAL_CACHED_WB_RWA) eqn:E1.
  - zbool. rewrite E1.
    destruct (NS_PTE_ATTR_SHAREABLE attr =? NS_INNER_SHAREABLE) eqn:E2; zbool.
    + destruct (NS_PTE_AP_cases attr) as [->|[->|[->| ->]]]; simpl; unfold ERR_INVALID_ARGS;
        naive_solver lia.
    + simpl. unfold ERR_NOT_SUPPORTED. split; [lia|]. intros (_ & [[_ ?]|?]); done.
  - destruct (NS_PTE_ATTR_MAIR attr =? NS_MAIR_NORMAL_UNCACHED) eqn:E2; zbool.
    + rewrite E2. destruct (NS_PTE_AP_cases attr) as [->|[->|[->| ->]]]; simpl; unfold ERR_INVALID_ARGS;
        naive_solver lia.
    + simpl. unfold ERR_NOT_SUPPORTED. split; [lia|]. intros (_ & [[? _]|?]); done.
Qed.

(** A buffer argument is accepted exactly when its descriptor names
    kernel read-write memory that is cached inner-shareable or uncached; the
    address is then page aligned and of 48 bits and the flags are the
    non-secure, never-execute ones of that type. *)
Lemma get_ns_mem_buf_spec args : args_wf args ->
  let attr := param args 0 + 2 ^ 32 * param args 1 in
  match get_ns_mem_buf args with
  | (rc, Some (pa, sz, flags)) =>
      rc = NO_ERROR /\ ns_buf_ok attr /\ pa = NS_PTE_PHYSADDR attr /\
      pa mod PAGE_SIZE = 0 /\ 0 <= pa < 2 ^ 48 /\ sz = param args 2 /\
      flags = Z.lor (if NS_PTE_ATTR_MAIR attr =? NS_MAIR_NORMAL_UNCACHED
                     then ARCH_MMU_FLAG_UNCACHED else ARCH_MMU_FLAG_CACHED)
                (Z.lor ARCH_MMU_FLAG_NS ARCH_MMU_FLAG_PERM_NO_EXECUTE)
  | (rc, None) => rc < 0 /\ ~ ns_buf_ok attr
  end.
Proof. exact (ns_mem_buf_cases args). Qed.

(** ** The Trusted OS entity *)

Lemma to_smc_error_cases err :
  to_smc_error err = err /\ 0 <= err \/
  to_smc_error err = SM_ERR_INVALID_PARAMETERS \/ to_smc_error err = SM_ERR_NOT_SUPPORTED \/
  to_smc_error err = SM_ERR_NOT_ALLOWED \/ to_smc_error err = SM_ERR_INTERNAL_FAILURE.
Proof. unfold to_smc_error. repeat case_match; zbool; auto. Qed.

Definition takes_ns_buf (nr : Z) : bool :=
  bool_decide (nr ∈ [SMC_SC_VIRTIO_GET_DESCR; SMC_SC_VIRTIO_START; SMC_SC_VIRTIO_STOP;
                     SMC_SC_CREATE_QL_TIPC_DEV; SMC_SC_SHUTDOWN_QL_TIPC_DEV; SMC_SC_HANDLE_QL_TIPC_DEV_CMD]).

Lemma with_ns_buf_refused {S} args (k : Z -> Z -> Z -> M S Z) rc s :
  get_ns_mem_buf args = (rc, None) -> with_ns_buf args k s = Done rc s.
Proof. intros H. unfold with_ns_buf. by rewrite H. Qed.

(** The gate in front of the services.  A call of an unknown guest, and a
    call whose buffer descriptor is refused, never reaches a service: the
    state of the services is untouched and the answer is an error.  Whatever a
    service answers, the non-secure world sees a non-negative result or one of
    four monitor errors. *)
Lemma trusty_sm_stdcall_gate {S} (sv : services S) args s : args_wf args ->
  let guest := param args SMC_ARGS_GUESTID in
  let attr := param args 0 + 2 ^ 32 * param args 1 in
  (guest_refused guest = true -> trusty_sm_stdcall sv args s = Done SM_ERR_INVALID_PARAMETERS s) /\
  (takes_ns_buf (smc_nr args) = true -> ~ ns_buf_ok attr ->
     exists r, trusty_sm_stdcall sv args s = Done r s /\ r < 0) /\
  (forall r s', trusty_sm_stdcall sv args s = Done r s' ->
     0 <= r \/ r = SM_ERR_INVALID_PARAMETERS \/ r = SM_ERR_NOT_SUPPORTED \/
     r = SM_ERR_NOT_ALLOWED \/ r = SM_ERR_INTERNAL_FAILURE).
Proof.
  intros Hwf guest attr. unfold trusty_sm_stdcall. fold guest. split_and!.
  - by intros ->.
  - intros Ht Hb. destruct (guest_refused guest).
    { by exists SM_ERR_INVALID_PARAMETERS. }
    pose proof (ns_mem_buf_cases args Hwf) as Hspec.
    destruct (get_ns_mem_buf args) as [rc [[[pa sz] fl]|]] eqn:Eg; [destruct Hspec as (_ & Hok & _); by destruct (Hb Hok)|].
    destruct Hspec as [Hneg _].
    assert (Hrun : stdcall_service sv args guest s = Done rc s).
    { unfold takes_ns_buf in Ht. apply bool_decide_eq_true in Ht. unfold stdcall_service.
      set_unfold in Ht. destruct Ht as [Ht|[Ht|[Ht|[Ht|[Ht|[Ht|[]]]]]]]; rewrite Ht; simpl;
        by apply with_ns_buf_refused. }
    unfold bind. rewrite Hrun. exists (to_smc_error rc). split; [done|].
    destruct (to_smc_error_cases rc) as [[? ?]|[->|[->|[->| ->]]]];
      unfold SM_ERR_INVALID_PARAMETERS, SM_ERR_NOT_SUPPORTED, SM_ERR_NOT_ALLOWED, SM_ERR_INTERNAL_FAILURE; lia.
  - intros r s' H. destruct (guest_refused guest).
    { unfold ret in H. simplify_eq. auto. }
    unfold bind in H. destruct (stdcall_service sv args guest s) as [e s1|w]; [|done].
    unfold ret in H. simplify_eq. destruct (to_smc_error_cases e) as [[-> ?]|?]; auto.
Qed.

(** ** Witnesses *)

Lemma SMC_NR_roundtrip_witness :
  SMC_ENTITY (SMC_NR 50 65533 0 0) = 50 /\ SMC_FUNCTION (SMC_NR 50 65533 0 0) = 65533.
Proof. destruct (SMC_NR_roundtrip 50 65533 0 0) as (H1 & H2 & _); [lia..|]. split; [exact H1|exact H2]. Defined.

Lemma sm_tables_init_wf : tables_wf sm_tables_init.
Proof. by vm_compute. Qed.

Lemma sm_register_entity_claims_witness :
  sm_register_entity 50 (Some trusty_sm_entity) (trusty_sm_init sm_tables_init) =
    (ERR_ALREADY_EXISTS, trusty_sm_init sm_tables_init).
Proof.
  destruct (sm_register_entity_claims sm_tables_init 50 trusty_sm_entity NO_ERROR (trusty_sm_init sm_tables_init))
    as [(_ & _ & _ & _ & _ & _ & _ & _ & H)|[H _]];
    [exact sm_tables_init_wf|lia|by vm_compute|by vm_compute| |exfalso; vm_compute in H; congruence].
  apply H. right. by vm_compute.
Defined.

(** Page 0x80005000, cached write-back, inner shareable, kernel read-write. *)
Definition demo_buf_args : smc32_args :=
  SmcArgs SMC_SC_VIRTIO_START [0x80005300; 0xFF0000; 0x1000; 0; 0; 0; 0].

Lemma demo_buf_args_wf : args_wf demo_buf_args.
Proof. split; [vm_compute; split; congruence|]. split; [reflexivity|]. repeat constructor; lia. Qed.

Lemma get_ns_mem_buf_spec_witness :
  exists pa flags, get_ns_mem_buf demo_buf_args = (NO_ERROR, Some (pa, 0x1000, flags)) /\ pa = 0x80005000.
Proof.
  pose proof (get_ns_mem_buf_spec demo_buf_args demo_buf_args_wf) as H.
  assert (Hv : get_ns_mem_buf demo_buf_args = (NO_ERROR, Some (0x80005000, 0x1000, 48))) by (vm_compute; reflexivity).
  rewrite Hv in H. destruct H as (_ & _ & Hpa & _).
  exists 0x80005000, 48. split; [exact Hv|reflexivity].
Defined.

Definition no_services : services unit :=
  Services unit (fun _ _ _ _ => ret 0) (fun _ _ _ _ => ret 0) (fun _ _ _ _ => ret 0) (fun _ _ => ret 0)
    (fun _ _ _ => ret 0) (ret 0) (fun _ _ _ => ret 0) (fun _ _ => ret 0) (fun _ _ _ => ret 0)
    (fun _ => ret 0) (fun _ _ => ret 0) (fun _ => ret 0).

Lemma trusty_sm_stdcall_gate_witness :
  trusty_sm_stdcall no_services (SmcArgs SMC_SC_VDEV_RESET [1; 0; 0; 0; 0; 0; 16]) tt =
    Done SM_ERR_INVALID_PARAMETERS tt.
Proof.
  destruct (trusty_sm_stdcall_gate no_services (SmcArgs SMC_SC_VDEV_RESET [1; 0; 0; 0; 0; 0; 16]) tt) as [H _].
  - split; [vm_compute; split; congruence|]. split; [reflexivity|]. repeat constructor; lia.
  - apply H. reflexivity.
Defined.

End SmCall.
