(* ===== verification/Sm.v ===== *)
(** * The standard-call state machine of the secure monitor library

    [lib/sm/sm.c]: one standard call at a time is handed from the non-secure
    world to the sm-stdcall thread; any CPU may carry its result back.  The
    critical sections under [stdcallstate.lock] are the operations; an
    execution interleaves them in any order, one step per critical section. *)

From S2P Require Import Prelude SmCall.

Module Sm.
Import SmCall.

Definition TRUSTY_API_VERSION_RESTART_FIQ : Z := 1.
Definition TRUSTY_API_VERSION_SMP : Z := 2.
Definition TRUSTY_API_VERSION_CURRENT : Z := 3.

(** ** State *)

Record sm_std_call_state := StdCall {
  event_signalled : bool;
  std_args : smc32_args;
  std_ret : Z;
  std_done : bool;
  active_cpu : Z;      (* cpu that expects stdcall result *)
  initial_cpu : Z;
  last_cpu : Z;
  restart_count : Z
}.

Record sm_st := SmSt {
  stdcallstate : sm_std_call_state;
  sm_api_version : Z;
  sm_api_version_locked : bool;
  boot_args : option Z;         (* where the boot arguments are mapped *)
  boot_args_refcnt : Z;
  ns_threads_resumed : nat      (* calls of resume_nsthreads *)
}.

Definition set_std (x : sm_std_call_state) (s : sm_st) : sm_st :=
  SmSt x (sm_api_version s) (sm_api_version_locked s) (boot_args s) (boot_args_refcnt s) (ns_threads_resumed s).
Definition set_api (v : Z) (s : sm_st) : sm_st :=
  SmSt (stdcallstate s) v (sm_api_version_locked s) (boot_args s) (boot_args_refcnt s) (ns_threads_resumed s).
Definition set_api_locked (b : bool) (s : sm_st) : sm_st :=
  SmSt (stdcallstate s) (sm_api_version s) b (boot_args s) (boot_args_refcnt s) (ns_threads_resumed s).
Definition set_boot (a : option Z) (n : Z) (s : sm_st) : sm_st :=
  SmSt (stdcallstate s) (sm_api_version s) (sm_api_version_locked s) a n (ns_threads_resumed s).
Definition add_resumed (s : sm_st) : sm_st :=
  SmSt (stdcallstate s) (sm_api_version s) (sm_api_version_locked s) (boot_args s) (boot_args_refcnt s)
    (S (ns_threads_resumed s)).

Definition SMC32_ARGS_INITIAL_VALUE : smc32_args := SmcArgs 0 (replicate 7 0).

Definition sm_init_st : sm_st :=
  SmSt (StdCall false SMC32_ARGS_INITIAL_VALUE 0 false (-1) (-1) (-1) 0) 0 false None 0 0.

Section Ops.
(** Whether the build is the embedded variant. *)
Context (TRUSTY_EMBEDDED_BUILD : bool).

(** ** API version *)

Definition smc_sm_api_version (args : smc32_args) : M sm_st Z :=
  let api_version := param args 0 in
  s <- get ;;
  if negb (sm_api_version_locked s) then
    let v := if TRUSTY_API_VERSION_CURRENT <? api_version then TRUSTY_API_VERSION_CURRENT
             else api_version in
    modify (set_api v) ;;; ret v
  else ret (sm_api_version s).

Definition sm_get_api_version : M sm_st Z :=
  s <- get ;;
  (if negb TRUSTY_EMBEDDED_BUILD && negb (sm_api_version_locked s)
   then modify (set_api_locked true) else ret tt) ;;;
  gets sm_api_version.

(** ** Standard calls *)

Definition sm_queue_stdcall (cpu : Z) (args : smc32_args) : M sm_st Z :=
  s <- get ;;
  let c := stdcallstate s in
  if event_signalled c || std_done c then
    if (smc_nr args =? SMC_SC_RESTART_LAST) && (active_cpu c =? -1) then
      modify (set_std (StdCall (event_signalled c) (std_args c) (std_ret c) (std_done c) cpu
                         (initial_cpu c) (last_cpu c) (s32 (restart_count c + 1)))) ;;;
      ret 0
    else ret SM_ERR_BUSY
  else if smc_nr args =? SMC_SC_RESTART_LAST then ret SM_ERR_UNEXPECTED_RESTART
  else
    modify (set_std (StdCall true args SM_ERR_INTERNAL_FAILURE (std_done c) cpu cpu (last_cpu c) 0)) ;;;
    ret 0.

(** The end of an iteration of [sm_stdcall_loop]: the handler returned [ret_]. *)
Definition sm_stdcall_finish (ret_ : Z) : M sm_st unit :=
  s <- get ;;
  let c := stdcallstate s in
  modify (set_std (StdCall false (std_args c) ret_ true (active_cpu c) (initial_cpu c) (last_cpu c)
                     (restart_count c))).

(** One iteration of [sm_stdcall_loop] after its wait: dispatch by the entity
    of the queued call and publish the result. *)
Definition sm_stdcall_dispatch (registered : nat -> smc32_args -> Z) (fastcall : smc32_args -> Z)
    (t : sm_tables) : M sm_st Z :=
  s <- get ;;
  let args := std_args (stdcallstate s) in
  r <- deref (call_entity registered fastcall (sm_stdcall_table t) (SMC_ENTITY (smc_nr args)) args) ;;
  sm_stdcall_finish r ;;;
  ret r.

(** [sm_irq_return_ns] up to the return to the non-secure world: the code it
    returns with. *)
Definition sm_irq_return_ns (cpu : Z) : M sm_st Z :=
  s <- get ;;
  let c := stdcallstate s in
  if active_cpu c =? cpu then
    modify (set_std (StdCall (event_signalled c) (std_args c) (std_ret c) (std_done c) (-1)
                       (initial_cpu c) (active_cpu c) (restart_count c))) ;;;
    ret SM_ERR_INTERRUPTED
  else ret SM_ERR_NOP_INTERRUPTED.

Definition sm_get_stdcall_ret (cpu : Z) : M sm_st Z :=
  s <- get ;;
  let c := stdcallstate s in
  if negb (active_cpu c =? cpu) then ret SM_ERR_INTERNAL_FAILURE
  else
    modify (set_std (StdCall (event_signalled c) (std_args c) (std_ret c) (std_done c) (-1)
                       (initial_cpu c) (active_cpu c) (restart_count c))) ;;;
    if std_done c then
      s <- get ;;
      let c := stdcallstate s in
      modify (set_std (StdCall (event_signalled c) (std_args c) (std_ret c) false (active_cpu c)
                         (initial_cpu c) (last_cpu c) (restart_count c))) ;;;
      ret (std_ret c)
    else
      v <- sm_get_api_version ;;
      if TRUSTY_API_VERSION_SMP <=? v then ret SM_ERR_CPU_IDLE
      else if negb TRUSTY_EMBEDDED_BUILD && negb (restart_count c =? 0) then ret SM_ERR_BUSY
      else ret SM_ERR_INTERRUPTED.

(** [sm_return_and_wait_for_next_stdcall]: [calls] is what the non-secure world
    answers with.  The result is what is handed to it at each switch, and
    whether the loop was left ([false]: it still waits for a call). *)
Fixpoint sm_return_and_wait (nopcall : Z -> smc32_args -> Z) (cpu ret_ : Z) (calls : list smc32_args)
    : M sm_st (list Z * bool) :=
  match calls with
  | [] => ret ([ret_], false)
  | args :: calls =>
      r <- (if smc_nr args =? SMC_SC_NOP
            then ret (nopcall (SMC_ENTITY (param args 0)) args)
            else sm_queue_stdcall cpu args) ;;
      if r =? 0 then ret ([ret_], true)
      else
        rest <- sm_return_and_wait nopcall cpu r calls ;;
        ret (ret_ :: rest.1, rest.2)
  end.

(** One iteration of [sm_wait_for_smcall] up to the switch. *)
Definition sm_wait_for_smcall_ret (cpu : Z) : M sm_st Z :=
  s <- get ;;
  if cpu =? active_cpu (stdcallstate s) then sm_get_stdcall_ret cpu
  else ret SM_ERR_NOP_DONE.

(** [sm_handle_fiq]: [nrs] are the call numbers the non-secure world comes back
    with.  The result is what it is handed, and whether the handler returned. *)
Fixpoint fiq_wait (expected : Z) (nrs : list Z) : list Z * bool :=
  match nrs with
  | [] => ([], false)
  | nr :: nrs =>
      if nr =? expected then ([], true)
      else let r := fiq_wait expected nrs in (SM_ERR_INTERLEAVED_SMC :: r.1, r.2)
  end.

Definition sm_handle_fiq (nrs : list Z) : M sm_st (list Z * bool) :=
  v <- sm_get_api_version ;;
  let '(first, expected) :=
    if TRUSTY_API_VERSION_RESTART_FIQ <=? v then (SM_ERR_FIQ_INTERRUPTED, SMC_SC_RESTART_FIQ)
    else (SM_ERR_INTERRUPTED, SMC_SC_RESTART_LAST) in
  let r := fiq_wait expected nrs in
  ret (first :: r.1, r.2).

(** ** Boot arguments *)

(** The part of [sm_init] on the boot arguments: [lk_boot_args] and what
    [vmm_alloc_physical] answers. *)
Definition sm_init_boot_args (arg1 arg2 : Z) (mapped : Z + Z) : M sm_st unit :=
  if negb (arg1 =? 0) && negb (arg2 =? 0) then
    let offset := Z.land arg1 (PAGE_SIZE - 1) in
    match mapped with
    | inr vptr =>
        s <- get ;; modify (set_boot (Some (vptr + offset)) (boot_args_refcnt s + 1))
    | inl _ => s <- get ;; modify (set_boot None (boot_args_refcnt s))
    end
  else ret tt.

(** The result is the return code and [*boot_argsp]; the size is
    [lk_boot_args[2]]. *)
Definition sm_get_boot_args : M sm_st (Z * option Z) :=
  s <- get ;;
  match boot_args s with
  | None => ret (ERR_NOT_CONFIGURED, None)
  | Some a => modify (set_boot (Some a) (boot_args_refcnt s + 1)) ;;; ret (NO_ERROR, Some a)
  end.

Definition resume_nsthreads : M sm_st unit := modify add_resumed.

Definition sm_put_boot_args : M sm_st unit :=
  s <- get ;;
  match boot_args s with
  | None => ret tt
  | Some a =>
      let n := boot_args_refcnt s - 1 in
      modify (set_boot (Some a) n) ;;;
      if n =? 0 then modify (set_boot None n) ;;; resume_nsthreads else ret tt
  end.

Definition sm_release_boot_args : M sm_st unit :=
  s <- get ;;
  match boot_args s with
  | Some _ => sm_put_boot_args
  | None => resume_nsthreads
  end.

End Ops.

(** ** Executions

    One event for each critical section, as a caller can tell them apart. *)
Inductive event :=
| EvAccept (cpu : Z) (args : smc32_args)     (* a new call is queued *)
| EvRestart (cpu : Z)                        (* a cpu takes over the wait *)
| EvRefuse (cpu code : Z)
| EvRun (ret : Z)                            (* the handler ran *)
| EvDeliver (cpu ret : Z)                    (* its result goes to the caller *)
| EvWait (cpu code : Z)                      (* the caller is told to come back *)
| EvIrq (cpu code : Z)
| EvVersion (requested code : Z).

Section Executions.
Context (embedded : bool).

Inductive step (s : sm_st) : event -> sm_st -> Prop :=
| StepAccept cpu args s' :
    0 <= cpu -> smc_nr args <> SMC_SC_RESTART_LAST ->
    sm_queue_stdcall cpu args s = Done 0 s' -> step s (EvAccept cpu args) s'
| StepRestart cpu args s' :
    0 <= cpu -> smc_nr args = SMC_SC_RESTART_LAST ->
    sm_queue_stdcall cpu args s = Done 0 s' -> step s (EvRestart cpu) s'
| StepRefuse cpu args code s' :
    0 <= cpu -> code <> 0 ->
    sm_queue_stdcall cpu args s = Done code s' -> step s (EvRefuse cpu code) s'
| StepRun r s' :
    event_signalled (stdcallstate s) = true ->
    sm_stdcall_finish r s = Done tt s' -> step s (EvRun r) s'
| StepDeliver cpu r s' :
    active_cpu (stdcallstate s) = cpu -> std_done (stdcallstate s) = true -> 0 <= cpu ->
    sm_get_stdcall_ret embedded cpu s = Done r s' -> step s (EvDeliver cpu r) s'
| StepWait cpu code s' :
    active_cpu (stdcallstate s) = cpu -> std_done (stdcallstate s) = false -> 0 <= cpu ->
    sm_get_stdcall_ret embedded cpu s = Done code s' -> step s (EvWait cpu code) s'
| StepIrq cpu code s' :
    0 <= cpu -> sm_irq_return_ns cpu s = Done code s' -> step s (EvIrq cpu code) s'
| StepVersion args code s' :
    smc_sm_api_version args s = Done code s' -> step s (EvVersion (param args 0) code) s'.

Inductive reach : list event -> sm_st -> Prop :=
| reach_init s : stdcallstate s = stdcallstate sm_init_st -> reach [] s
| reach_step tr s ev s' : reach tr s -> step s ev s' -> reach (tr ++ [ev]) s'.

(** ** What the non-secure world is promised *)

Inductive call_phase :=
| Idle
| Pending (args : smc32_args)
| Finished (args : smc32_args) (ret : Z).

Inductive spec_step : call_phase -> event -> call_phase -> Prop :=
| SpAccept cpu args : spec_step Idle (EvAccept cpu args) (Pending args)
| SpRun args r : spec_step (Pending args) (EvRun r) (Finished args r)
| SpDeliver cpu args r : spec_step (Finished args r) (EvDeliver cpu r) Idle
| SpRestart cpu p : p <> Idle -> spec_step p (EvRestart cpu) p
| SpRefuse cpu code p : spec_step p (EvRefuse cpu code) p
| SpWait cpu code args : spec_step (Pending args) (EvWait cpu code) (Pending args)
| SpIrq cpu code p : spec_step p (EvIrq cpu code) p
| SpVersion v code p : spec_step p (EvVersion v code) p.

Definition phase (s : sm_st) : call_phase :=
  let c := stdcallstate s in
  if event_signalled c then Pending (std_args c)
  else if std_done c then Finished (std_args c) (std_ret c)
  else Idle.

Definition sm_inv (s : sm_st) : Prop :=
  let c := stdcallstate s in
  ~ (event_signalled c = true /\ std_done c = true) /\
  (active_cpu c <> -1 -> event_signalled c = true \/ std_done c = true).

Lemma sm_get_stdcall_ret_run s : sm_inv s -> active_cpu (stdcallstate s) <> -1 ->
  exists r s', sm_get_stdcall_ret embedded (active_cpu (stdcallstate s)) s = Done r s' /\
    active_cpu (stdcallstate s') = -1 /\
    if std_done (stdcallstate s) then r = std_ret (stdcallstate s) /\ phase s' = Idle
    else phase s' = phase s /\ std_done (stdcallstate s') = false.
Proof.
  intros [Hexcl Hact] Hne. destruct s as [c v l ba bn rs]. simpl in *.
  unfold sm_get_stdcall_ret, bind, get. simpl. rewrite Z.eqb_refl. simpl.
  unfold bind, get, modify, ret. destruct (std_done c) eqn:Ed; simpl.
  - do 2 eexists. split; [done|]. split; [done|]. split; [done|].
    unfold phase. simpl. destruct (event_signalled c); [by destruct Hexcl|done].
  - unfold sm_get_api_version, bind, get, gets, modify, ret. simpl.
    destruct (negb embedded && negb l); simpl;
      destruct (_ <=? _); try (destruct (negb embedded && _)); do 2 eexists; (split; [done|]);
      (split; [done|]); unfold phase; simpl; rewrite Ed; done.
Qed.

Lemma phase_signalled s args : phase s = Pending args <->
  event_signalled (stdcallstate s) = true /\ std_args (stdcallstate s) = args.
Proof. unfold phase. destruct (event_signalled (stdcallstate s)), (std_done (stdcallstate s)); naive_solver. Qed.

Lemma sm_step_refines s ev s' : sm_inv s -> step s ev s' ->
  sm_inv s' /\ spec_step (phase s) ev (phase s').
Proof.
  intros Hinv Hstep. destruct Hstep as [cpu args s' Hc Hn H|cpu args s' Hc Hn H|cpu args code s' Hc Hn H
    |r s' Hsig H|cpu r s' Ha Hd Hc H|cpu code s' Ha Hd Hc H|cpu code s' Hc H|args code s' H].
  1-3: unfold sm_queue_stdcall, bind, get, modify, ret in H; cbn zeta in H;
    destruct (event_signalled (stdcallstate s)) eqn:Es, (std_done (stdcallstate s)) eqn:Ed; simpl in H;
    try (by destruct Hinv as [[] _]);
    destruct (smc_nr args =? SMC_SC_RESTART_LAST) eqn:Er; zbool; simpl in H; try done;
    try (match type of H with context [active_cpu _ =? _] =>
           destruct (active_cpu (stdcallstate s) =? -1) eqn:Ea; zbool end); simplify_eq; try done.
  all: try (split; [exact Hinv|constructor]).
  - unfold phase. rewrite Es, Ed. simpl. split; [|constructor].
    split; simpl; [naive_solver|by left].
  - unfold phase. simpl. rewrite Es. split; [split; simpl; naive_solver|by constructor].
  - unfold phase. simpl. rewrite Es, Ed. split; [split; simpl; naive_solver|by constructor].
  - unfold sm_stdcall_finish, bind, get, modify in H. simplify_eq. unfold phase. simpl. rewrite Hsig.
    split; [|constructor]. split; simpl; [naive_solver|by right].
  - destruct (sm_get_stdcall_ret_run s Hinv) as (r' & s1 & Hrun & Ha1 & Hp); [lia|].
    rewrite Ha in Hrun. rewrite Hrun in H. simplify_eq. rewrite Hd in Hp. destruct Hp as [-> Hp].
    rewrite Hp. split.
    + unfold phase in Hp. split; [|done]. destruct (event_signalled (stdcallstate s')), (std_done (stdcallstate s')); naive_solver.
    + unfold phase. rewrite Hd. destruct Hinv as [Hx _]. destruct (event_signalled (stdcallstate s)); [naive_solver|constructor].
  - destruct (sm_get_stdcall_ret_run s Hinv) as (r' & s1 & Hrun & Ha1 & Hp); [lia|].
    rewrite Ha in Hrun. rewrite Hrun in H. simplify_eq. rewrite Hd in Hp. destruct Hp as [Hp Hd1].
    rewrite Hp. split; [split; [rewrite Hd1; naive_solver|done]|].
    destruct Hinv as [_ Hx]. destruct Hx as [Hx|Hx]; [lia| |congruence].
    unfold phase. rewrite Hx. constructor.
  - unfold sm_irq_return_ns, bind, get, modify, ret in H. cbn zeta in H. destruct (_ =? _); simplify_eq.
    + split; [|by constructor]. destruct Hinv. split; simpl; [done|done].
    + split; [done|constructor].
  - unfold smc_sm_api_version, bind, get, modify, ret in H. cbn zeta in H.
    destruct (negb _); simplify_eq; (split; [done|constructor]).
Qed.

(** ** Exactly once *)

Fixpoint accepts (tr : list event) : list smc32_args :=
  match tr with [] => [] | EvAccept _ a :: tr => a :: accepts tr | _ :: tr => accepts tr end.
Fixpoint runs_of (tr : list event) : list Z :=
  match tr with [] => [] | EvRun r :: tr => r :: runs_of tr | _ :: tr => runs_of tr end.
Fixpoint delivers (tr : list event) : list Z :=
  match tr with [] => [] | EvDeliver _ r :: tr => r :: delivers tr | _ :: tr => delivers tr end.

Lemma accepts_app a b : accepts (a ++ b) = accepts a ++ accepts b.
Proof. induction a as [|[] a IH]; simpl; rewrite ?IH; done. Qed.
Lemma runs_of_app a b : runs_of (a ++ b) = runs_of a ++ runs_of b.
Proof. induction a as [|[] a IH]; simpl; rewrite ?IH; done. Qed.
Lemma delivers_app a b : delivers (a ++ b) = delivers a ++ delivers b.
Proof. induction a as [|[] a IH]; simpl; rewrite ?IH; done. Qed.

Lemma reach_inv tr s : reach tr s -> sm_inv s.
Proof.
  induction 1 as [s Hs|tr s ev s' _ IH Hstep].
  - unfold sm_inv. rewrite Hs. simpl. naive_solver.
  - by eapply sm_step_refines.
Qed.

(** C37: the state machine keeps its promise.  Every critical section, in any
    interleaving, is a step of the three-phase protocol: a call is accepted
    only when none is outstanding, its handler runs once, the value delivered
    is the handler's, and interrupted, refused and restarted calls change
    nothing of it. *)
Theorem sm_stdcall_refines tr s ev s' : reach tr s -> step s ev s' ->
  spec_step (phase s) ev (phase s').
Proof. intros Hr Hs. eapply sm_step_refines; [by eapply reach_inv|done]. Qed.

(** C38: exactly once.  In every execution the results delivered are the
    results of the handler runs, in order and without loss or repetition: at
    most the last run's result is still to be delivered, and at most the last
    accepted call has still to run. *)
Theorem sm_stdcall_exactly_once tr s : reach tr s ->
  match phase s with
  | Idle => delivers tr = runs_of tr /\ length (runs_of tr) = length (accepts tr)
  | Pending args => delivers tr = runs_of tr /\ last (accepts tr) = Some args /\
      S (length (runs_of tr)) = length (accepts tr)
  | Finished args r => runs_of tr = delivers tr ++ [r] /\ last (accepts tr) = Some args /\
      length (runs_of tr) = length (accepts tr)
  end.
Proof.
  induction 1 as [s Hs|tr s ev s' Hr IH Hstep].
  { unfold phase. rewrite Hs. done. }
  destruct (sm_step_refines _ _ _ (reach_inv _ _ Hr) Hstep) as [_ Hsp].
  rewrite accepts_app, runs_of_app, delivers_app.
  destruct Hsp; simpl; rewrite ?app_nil_r; try exact IH; simpl in IH.
  - destruct IH as [-> IH]. rewrite last_snoc, length_app. simpl. split_and!; try done. lia.
  - destruct IH as (-> & Hl & IH). rewrite length_app. simpl. split_and!; try done. lia.
  - destruct IH as (-> & _ & IH). done.
Qed.

(** No result is lost.  When the handler has finished and no CPU is
    waiting (the caller was interrupted away), any CPU that restarts the call
    is accepted and its next return carries the handler's result. *)
Lemma sm_restart_gets_result tr s args r cpu : reach tr s ->
  phase s = Finished args r -> active_cpu (stdcallstate s) = -1 -> 0 <= cpu ->
  exists s1 s2, sm_queue_stdcall cpu (SmcArgs SMC_SC_RESTART_LAST (replicate 7 0)) s = Done 0 s1 /\
    sm_wait_for_smcall_ret embedded cpu s1 = Done r s2 /\ phase s2 = Idle.
Proof.
  intros Hr Hph Hact Hcpu. pose proof (reach_inv _ _ Hr) as [Hx Hy].
  unfold phase in Hph. destruct (event_signalled (stdcallstate s)) eqn:Es; [done|].
  destruct (std_done (stdcallstate s)) eqn:Ed; [|done]. simplify_eq.
  unfold sm_queue_stdcall, bind, get, modify, ret. cbn zeta. rewrite Es, Ed, Hact.
  change (smc_nr (SmcArgs SMC_SC_RESTART_LAST (replicate 7 0)) =? SMC_SC_RESTART_LAST) with true. simpl.
  set (s1 := set_std _ s).
  assert (Hinv1 : sm_inv s1) by (split; simpl; [naive_solver|by right]).
  assert (Ha1 : active_cpu (stdcallstate s1) = cpu) by done.
  destruct (sm_get_stdcall_ret_run s1 Hinv1) as (r' & s2 & Hrun & _ & Hp); [lia|].
  rewrite Ha1 in Hrun. change (std_done (stdcallstate s1)) with true in Hp. destruct Hp as [-> Hp].
  exists s1, s2. split; [done|]. split; [|done].
  unfold sm_wait_for_smcall_ret, bind, get. rewrite Ha1, Z.eqb_refl. exact Hrun.
Qed.

End Executions.

(** ** Witnesses *)

Definition demo_call : smc32_args := SmcArgs SMC_SC_VDEV_RESET (replicate 7 0).
(** CPU 1 queued a call, was interrupted, and the handler answered 5. *)
Definition demo_finished : sm_st :=
  SmSt (StdCall false demo_call 5 true (-1) 1 1 0) 0 false None 0 0.

Lemma demo_reach : reach false [EvAccept 1 demo_call; EvIrq 1 SM_ERR_INTERRUPTED; EvRun 5] demo_finished.
Proof.
  apply (reach_step _ [EvAccept 1 demo_call; EvIrq 1 SM_ERR_INTERRUPTED]
           (SmSt (StdCall true demo_call SM_ERR_INTERNAL_FAILURE false (-1) 1 1 0) 0 false None 0 0));
    [|by constructor].
  apply (reach_step _ [EvAccept 1 demo_call]
           (SmSt (StdCall true demo_call SM_ERR_INTERNAL_FAILURE false 1 1 (-1) 0) 0 false None 0 0));
    [|by constructor].
  apply (reach_step _ [] sm_init_st); [by constructor|].
  by apply (StepAccept _ _ 1 demo_call).
Qed.

Lemma sm_stdcall_refines_witness :
  spec_step (phase demo_finished) (EvRestart 2) (Finished demo_call 5).
Proof.
  pose proof (sm_stdcall_refines false _ demo_finished (EvRestart 2)
    (SmSt (StdCall false demo_call 5 true 2 1 1 1) 0 false None 0 0) demo_reach) as H.
  apply H. apply (StepRestart _ _ 2 (SmcArgs SMC_SC_RESTART_LAST [])); [lia|reflexivity|reflexivity].
Defined.

Lemma sm_stdcall_exactly_once_witness :
  runs_of [EvAccept 1 demo_call; EvIrq 1 SM_ERR_INTERRUPTED; EvRun 5] = [5].
Proof.
  destruct (sm_stdcall_exactly_once false _ demo_finished demo_reach) as (H & _ & _). exact H.
Defined.

Lemma sm_restart_gets_result_witness :
  exists s1 s2, sm_queue_stdcall 3 (SmcArgs SMC_SC_RESTART_LAST (replicate 7 0)) demo_finished = Done 0 s1 /\
    sm_wait_for_smcall_ret false 3 s1 = Done 5 s2 /\ phase s2 = Idle.
Proof.
  apply (sm_restart_gets_result false _ demo_finished demo_call 5 3 demo_reach); [reflexivity|reflexivity|lia].
Defined.

End Sm.
