(* ===== verification/MemLog.v ===== *)
(** * The log shared with the non-secure world

    [lib/memlog/memlog.c], [lib/memlog/trusty-log.h]: a list of ring buffers
    in non-secure memory to which every console message is copied. *)

From S2P Require Import Prelude SmCall.

Module MemLog.
Import SmCall.

Definition SMC_ENTITY_LOGGING : Z := 51.
Definition SMC_SC_SHARED_LOG_VERSION : Z := SMC_STDCALL_NR SMC_ENTITY_LOGGING 0.
Definition SMC_SC_SHARED_LOG_ADD : Z := SMC_STDCALL_NR SMC_ENTITY_LOGGING 1.
Definition SMC_SC_SHARED_LOG_RM : Z := SMC_STDCALL_NR SMC_ENTITY_LOGGING 2.
Definition TRUSTY_LOG_API_VERSION : Z := 1.

(** [offsetof(struct log_rb, data)]. *)
Definition offsetof_data : Z := 12.
Definition mb : Z := Z.shiftl 1 20.

(** ** Data

    [rb_data] is the shared memory from [data] to the end of the mapping.
    The other side can write to the header and the data at any time; here they
    are state that only [memlog_write] changes, so that what is proved of the
    stream speaks of a ring that the other side only reads, as the protocol
    has it. *)
Record log_rb := LogRb { rb_alloc : Z; rb_put : Z; rb_size_field : Z; rb_data : list Z }.

Record memlog := Memlog {
  log_rb_ : log_rb;
  rb_sz : Z;
  buf_pa : Z;
  buf_sz : Z
}.

(** The state is [log_list], most recent first. *)
Notation logs := (list memlog).

(** ** Operations *)

Fixpoint memlog_get_by_pa (pa : Z) (l : logs) : option nat :=
  match l with
  | [] => None
  | log :: l => if buf_pa log =? pa then Some O else S <$> memlog_get_by_pa pa l
  end.

Fixpoint memlog_is_mem_registered (pa sz : Z) (l : logs) : bool :=
  match l with
  | [] => false
  | log :: l =>
      if u64 (pa + sz) <=? buf_pa log then memlog_is_mem_registered pa sz l
      else if u64 (buf_pa log + buf_sz log) <=? pa then memlog_is_mem_registered pa sz l
      else true
  end.

(** [__builtin_clz] is undefined at 0. *)
Definition builtin_clz (v : Z) : option Z := if v =? 0 then None else Some (31 - Z.log2 v).
Definition lower_pow2 (v : Z) : option Z := c ← builtin_clz v; Some (u32 (Z.shiftl 1 (31 - c))).

(** The copy loop: [i] bytes are done; a store outside the mapping faults. *)
Fixpoint copy_bytes (str : list Z) (log_offset sz i : Z) (data : list Z) : option (list Z) :=
  match str with
  | [] => Some data
  | c :: str =>
      let offset := u32 (Z.land (u64 (log_offset + i)) (sz - 1)) in
      if offset <? Z.of_nat (length data)
      then copy_bytes str log_offset sz (i + 1) (<[Z.to_nat offset := c]> data)
      else None
  end.

Definition memlog_write1 (str : list Z) (log : memlog) : option memlog :=
  let rb := log_rb_ log in
  let len := Z.of_nat (length str) in
  data ← copy_bytes str (rb_alloc rb) (rb_sz log) 0 (rb_data rb);
  Some (Memlog (LogRb (u32 (rb_alloc rb + len)) (u32 (rb_put rb + len)) (rb_size_field rb) data)
          (rb_sz log) (buf_pa log) (buf_sz log)).

Definition chunk_size : nat := 128.

(** [n] whole chunks, then the remainder. *)
Fixpoint write_chunks (n : nat) (str : list Z) (log : memlog) : option memlog :=
  match n with
  | O => if decide (str = []) then Some log else memlog_write1 str log
  | S n =>
      log ← memlog_write1 (take chunk_size str) log;
      write_chunks n (drop chunk_size str) log
  end.

Definition memlog_write (str : list Z) (log : memlog) : option memlog :=
  write_chunks (length str / chunk_size) str log.

(** [map_rb]: the range that is mapped; [hyp_check] stands for
    [trusty_hyp_check_guest_pa_valid], [vmm] is the answer of
    [vmm_alloc_physical].  The result is the status and how
    many bytes are mapped from [*va] on. *)
Definition map_rb (hyp_check : Z -> Z -> Z -> Z) (vmm : Z) (pa sz guest : Z) : Z * Z :=
  let offset := Z.land pa (mb - 1) in
  let pa := ROUNDDOWN pa mb in
  let sz := ROUNDUP (sz + offset) mb in
  let err := hyp_check pa sz guest in
  if negb (err =? NO_ERROR) then (err, 0)
  else if negb (vmm =? 0) then (vmm, 0)
  else (0, sz - offset).

Definition args_get_pa (args : smc32_args) : Z := Z.lor (Z.shiftl (param args 1) 32) (param args 0).
Definition args_get_sz (args : smc32_args) : Z := param args 2.
Definition args_get_guest (args : smc32_args) : Z := param args SMC_ARGS_GUESTID.

(** [shared] is what the non-secure memory holds. *)
Definition memlog_add (heap : bool) (hyp_check : Z -> Z -> Z -> Z) (vmm : Z) (shared : Z -> Z)
    (pa sz guest : Z) : M logs Z :=
  l <- get ;;
  if memlog_is_mem_registered pa sz l then ret SM_ERR_INVALID_PARAMETERS
  else if negb heap then ret SM_ERR_INTERNAL_FAILURE
  else
    let r := map_rb hyp_check vmm pa sz guest in
    if negb (r.1 =? NO_ERROR) then ret SM_ERR_INTERNAL_FAILURE
    else
      size <- deref (lower_pow2 (u32 (u64 (sz - offsetof_data)))) ;;
      let rb := LogRb 0 0 size (shared <$> seqZ offsetof_data (r.2 - offsetof_data)) in
      put (Memlog rb size pa sz :: l) ;;;
      ret 0.

(** [free_ok] is the answer of [vmm_free_region]. *)
Definition memlog_rm (free_ok : bool) (pa : Z) : M logs Z :=
  l <- get ;;
  match memlog_get_by_pa pa l with
  | None => ret SM_ERR_INVALID_PARAMETERS
  | Some i =>
      put (delete i l) ;;;
      if free_ok then ret 0 else ret SM_ERR_INTERNAL_FAILURE
  end.

(** [memlog_rst] with the answers of the successive [vmm_free_region]. *)
Fixpoint memlog_rst (frees : list bool) : M logs (option Z) :=
  l <- get ;;
  match l with
  | [] => ret (Some NO_ERROR)
  | log :: _ =>
      match frees with
      | [] => ret None
      | ok :: frees =>
          r <- memlog_rm ok (buf_pa log) ;;
          if r =? NO_ERROR then memlog_rst frees else ret (Some r)
      end
  end.

Definition memlog_stdcall (heap : bool) (hyp_check : Z -> Z -> Z -> Z) (vmm : Z) (shared : Z -> Z)
    (free_ok : bool) (args : smc32_args) : M logs Z :=
  let nr := smc_nr args in
  if nr =? SMC_SC_SHARED_LOG_VERSION then ret TRUSTY_LOG_API_VERSION
  else if nr =? SMC_SC_SHARED_LOG_ADD then
    memlog_add heap hyp_check vmm shared (args_get_pa args) (args_get_sz args) (args_get_guest args)
  else if nr =? SMC_SC_SHARED_LOG_RM then memlog_rm free_ok (args_get_pa args)
  else ret SM_ERR_UNDEFINED_SMC.

Definition log_sm_entity : smc32_entity := SmcEntity None None (Some (H_registered 2)).

Definition memlog_init (t : sm_tables) : sm_tables :=
  (sm_register_entity SMC_ENTITY_LOGGING (Some log_sm_entity) t).2.

(** [memlog_print_callback], called for each registered log. *)
Definition memlog_print_callback (str : list Z) (log : memlog) : option memlog := memlog_write str log.

(** ** The ring as a stream

    [log] has received [stream]: both counters are its length, and the last
    [rb_sz] bytes of it are where a reader looks for them. *)
Record holds_stream (log : memlog) (stream : list Z) : Prop := {
  hs_pow2 : exists k, 0 <= k <= 31 /\ rb_sz log = 2 ^ k;
  hs_room : rb_sz log <= Z.of_nat (length (rb_data (log_rb_ log)));
  hs_alloc : rb_alloc (log_rb_ log) = u32 (Z.of_nat (length stream));
  hs_put : rb_put (log_rb_ log) = u32 (Z.of_nat (length stream));
  hs_data : forall j c, stream !! j = Some c -> Z.of_nat (length stream) - rb_sz log <= Z.of_nat j ->
    rb_data (log_rb_ log) !! Z.to_nat (Z.of_nat j mod rb_sz log) = Some c
}.

(** The offset of the [i]-th byte of a write that starts when [n] bytes had
    been written. *)
Lemma ring_offset n i k : 0 <= k <= 31 -> 0 <= n -> 0 <= i < 2 ^ 32 ->
  u32 (Z.land (u64 (u32 n + i)) (2 ^ k - 1)) = (n + i) mod 2 ^ k.
Proof.
  intros Hk Hn Hi. rewrite land_pow2_mask by lia.
  assert (H1 : 2 ^ 32 = 2 ^ k * 2 ^ (32 - k)) by (rewrite <- Z.pow_add_r by lia; f_equal; lia).
  assert (H2 : 0 < 2 ^ k) by (apply Z.pow_pos_nonneg; lia).
  pose proof (uwrap_range 32 n). unfold u64, u32.
  rewrite (uwrap_small 64) by lia.
  assert (Hm : (uwrap 32 n + i) mod 2 ^ k = (n + i) mod 2 ^ k).
  { unfold uwrap. rewrite <- Zplus_mod_idemp_l. rewrite <- (Zplus_mod_idemp_l n).
    do 2 f_equal. rewrite H1. rewrite Z.rem_mul_r by (try apply Z.pow_nonzero; lia).
    rewrite Z.mul_comm, Z.mod_add by lia. by rewrite Z.mod_mod by lia. }
  rewrite Hm. apply uwrap_small. pose proof (Z.mod_pos_bound (n + i) (2 ^ k)).
  pose proof (Z.pow_le_mono_r 2 k 32). lia.
Qed.

Lemma copy_bytes_spec k n : 0 <= k <= 31 -> 0 <= n -> forall str i data,
  0 <= i -> i + Z.of_nat (length str) <= 2 ^ 32 -> 2 ^ k <= Z.of_nat (length data) ->
  exists data', copy_bytes str (u32 n) (2 ^ k) i data = Some data' /\ length data' = length data /\
    (forall p, p < n + i + Z.of_nat (length str) -> n + i + Z.of_nat (length str) - 2 ^ k <= p ->
       data' !! Z.to_nat (p mod 2 ^ k) =
         if decide (n + i <= p) then str !! Z.to_nat (p - (n + i)) else data !! Z.to_nat (p mod 2 ^ k)).
Proof.
  intros Hk Hn. assert (Hp : 0 < 2 ^ k) by (apply Z.pow_pos_nonneg; lia).
  induction str as [|c str IH]; intros i data Hi Hl Hd; cbn [copy_bytes].
  { exists data. split_and!; try done. intros p H1 H2. simpl in H1.
    rewrite decide_False by lia. done. }
  simpl length in Hl. rewrite ring_offset by lia.
  pose proof (Z.mod_pos_bound (n + i) (2 ^ k) Hp) as Hb.
  rewrite (proj2 (Z.ltb_lt _ _)) by lia.
  destruct (IH (i + 1) (<[Z.to_nat ((n + i) mod 2 ^ k):=c]> data)) as (data' & Hrun & Hlen & Hsp);
    [lia|lia|by rewrite length_insert|].
  exists data'. split; [done|]. rewrite length_insert in Hlen. split; [done|].
  intros p H1 H2. simpl length in H1, H2. rewrite Hsp by lia.
  destruct (decide (n + (i + 1) <= p)) as [Hge|Hlt].
  - rewrite decide_True by lia. replace (Z.to_nat (p - (n + i))) with (S (Z.to_nat (p - (n + (i + 1))))) by lia.
    done.
  - destruct (decide (n + i <= p)) as [Hge'|Hlt'].
    + assert (p = n + i) as -> by lia. rewrite Z.sub_diag. simpl.
      apply list_lookup_insert_eq. lia.
    + apply list_lookup_insert_ne. intros Heq. apply Z2Nat.inj in Heq; [|lia|apply Z.mod_pos_bound; lia].
      (* two different positions less than a ring apart *)
      assert (Hmod : (n + i - p) mod 2 ^ k = 0) by (rewrite Zminus_mod, Heq, Z.sub_diag; apply Z.mod_0_l; lia).
      rewrite Z.mod_small in Hmod; lia.
Qed.

Lemma memlog_write1_stream log stream str : holds_stream log stream ->
  Z.of_nat (length str) <= 2 ^ 32 ->
  exists log', memlog_write1 str log = Some log' /\ holds_stream log' (stream ++ str) /\
    rb_sz log' = rb_sz log.
Proof.
  intros [(k & Hk & Hsz) Hroom Ha Hput Hdata] Hl. unfold memlog_write1. rewrite Ha, Hsz.
  rewrite Hsz in Hroom, Hdata.
  destruct (copy_bytes_spec k (Z.of_nat (length stream)) Hk ltac:(lia) str 0 (rb_data (log_rb_ log)))
    as (data' & -> & Hlen & Hsp); [lia|lia|lia|]. simpl.
  eexists. split; [done|]. split; [|done]. split; simpl.
  - by exists k.
  - lia.
  - rewrite length_app, Nat2Z.inj_add. unfold u32. by rewrite uwrap_add_l.
  - rewrite length_app, Nat2Z.inj_add, Hput. unfold u32. by rewrite uwrap_add_l.
  - intros j c Hj Hge. rewrite length_app in Hge.
    pose proof (lookup_lt_Some _ _ _ Hj) as Hjl. rewrite length_app in Hjl.
    rewrite Hsp by lia. destruct (decide _) as [Hin|Hout].
    + rewrite lookup_app_r in Hj by lia. rewrite <- Hj. f_equal. lia.
    + rewrite lookup_app_l in Hj by lia. apply Hdata; [done|lia].
Qed.

Lemma write_chunks_stream n : forall str log stream, holds_stream log stream ->
  (length str < chunk_size * S n)%nat -> Z.of_nat (length str) <= 2 ^ 32 ->
  exists log', write_chunks n str log = Some log' /\ holds_stream log' (stream ++ str).
Proof.
  induction n as [|n IH]; intros str log stream Hs Hn Hl; cbn [write_chunks].
  - destruct (decide (str = [])) as [->|]; [exists log; by rewrite app_nil_r|].
    destruct (memlog_write1_stream log stream str Hs Hl) as (log' & ? & ? & _). eauto.
  - destruct (memlog_write1_stream log stream (take chunk_size str) Hs) as (log1 & -> & H1 & _).
    { rewrite length_take. lia. }
    simpl. destruct (IH (drop chunk_size str) log1 _ H1) as (log' & Hrun & H2);
      [rewrite length_drop; lia|rewrite length_drop; lia|].
    exists log'. split; [done|]. by rewrite <- app_assoc, take_drop in H2.
Qed.

(** C39: the ring buffer is a faithful tail of the log.  Writing a message of
    any length, in chunks, appends exactly its bytes to the stream a reader
    sees: both counters advance by its length modulo 2^32 and the most recent
    [rb_sz] bytes stay in place, also when the counters wrap.  This is about a
    ring that the other side leaves as it is. *)
Theorem memlog_write_stream log stream str : holds_stream log stream ->
  Z.of_nat (length str) <= 2 ^ 32 ->
  exists log', memlog_write str log = Some log' /\ holds_stream log' (stream ++ str).
Proof.
  intros Hs Hl. apply write_chunks_stream; [done| |done].
  pose proof (Nat.div_mod_eq (length str) chunk_size).
  pose proof (Nat.mod_upper_bound (length str) chunk_size). unfold chunk_size in *. lia.
Qed.

(** ** Registration *)

Definition logs_disjoint (l : logs) : Prop :=
  forall i j a b, l !! i = Some a -> l !! j = Some b -> i <> j ->
    buf_pa a + buf_sz a <= buf_pa b \/ buf_pa b + buf_sz b <= buf_pa a.

Definition logs_wf (l : logs) : Prop :=
  Forall (fun g => 0 <= buf_pa g /\ offsetof_data < buf_sz g < 2 ^ 32 /\ buf_pa g + buf_sz g < 2 ^ 64 /\
    exists stream, holds_stream g stream) l /\ logs_disjoint l.

Lemma not_registered pa sz l : 0 <= pa -> 0 <= sz -> pa + sz < 2 ^ 64 ->
  Forall (fun g => 0 <= buf_pa g /\ 0 <= buf_sz g /\ buf_pa g + buf_sz g < 2 ^ 64) l ->
  memlog_is_mem_registered pa sz l = false ->
  Forall (fun g => pa + sz <= buf_pa g \/ buf_pa g + buf_sz g <= pa) l.
Proof.
  intros Hp Hs Hw Hl. induction Hl as [|g l Hg Hl IH]; simpl; intros H; [constructor|].
  unfold u64 in H. rewrite !uwrap_small in H by lia.
  destruct (pa + sz <=? buf_pa g) eqn:E1; zbool; [constructor; auto|].
  destruct (buf_pa g + buf_sz g <=? pa) eqn:E2; zbool; [constructor; auto|done].
Qed.

Lemma lower_pow2_spec v : 0 < v < 2 ^ 32 ->
  exists k, lower_pow2 v = Some (2 ^ k) /\ 0 <= k <= 31 /\ 2 ^ k <= v < 2 ^ (k + 1).
Proof.
  intros Hv. unfold lower_pow2, builtin_clz. rewrite (proj2 (Z.eqb_neq _ _)) by lia. simpl.
  pose proof (Z.log2_spec v ltac:(lia)) as Hs. pose proof (Z.log2_nonneg v).
  assert (Z.log2 v < 32) by (apply Z.log2_lt_pow2; lia).
  exists (Z.log2 v). replace (31 - (31 - Z.log2 v)) with (Z.log2 v) by lia.
  rewrite Z.shiftl_mul_pow2, Z.mul_1_l by lia. unfold u32.
  rewrite uwrap_small by (pose proof (Z.pow_lt_mono_r 2 (Z.log2 v) 32); lia).
  split; [done|]. split; [lia|]. unfold Z.succ in Hs. lia.
Qed.

Lemma ROUNDUP_mb a : 0 <= a < 2 ^ 63 -> a <= ROUNDUP a mb.
Proof. intros. change mb with (2 ^ 20). rewrite ROUNDUP_spec by lia. dlia. Qed.

(** Registration.  A buffer whose size leaves room for a header and whose
    range does not wrap is either refused without effect or added with an
    empty, well-formed ring of the largest power of two that fits in it,
    inside what is mapped; registered buffers stay disjoint. *)
Lemma memlog_add_spec heap hyp vmm shared pa sz guest l :
  logs_wf l -> 0 <= pa -> offsetof_data < sz < 2 ^ 32 -> pa + sz < 2 ^ 64 ->
  exists r l', memlog_add heap hyp vmm shared pa sz guest l = Done r l' /\ logs_wf l' /\
    ((r < 0 /\ l' = l) \/
     (r = 0 /\ exists log, l' = log :: l /\ buf_pa log = pa /\ buf_sz log = sz /\
        holds_stream log [] /\ rb_sz log <= sz - offsetof_data < 2 * rb_sz log)).
Proof.
  intros [Hl Hd] Hpa Hsz Hw. unfold memlog_add, bind, get.
  destruct (memlog_is_mem_registered pa sz l) eqn:Ereg.
  { exists SM_ERR_INVALID_PARAMETERS, l. split; [done|]. split; [done|]. by left. }
  destruct heap; simpl negb; cbn iota.
  2: { exists SM_ERR_INTERNAL_FAILURE, l. split; [done|]. split; [done|]. by left. }
  destruct (map_rb hyp vmm pa sz guest) as [st n] eqn:Em. cbn zeta. cbn [fst snd].
  destruct (negb (st =? NO_ERROR)) eqn:Est.
  { exists SM_ERR_INTERNAL_FAILURE, l. split; [done|]. split; [done|]. by left. }
  assert (Hn : sz <= n).
  { unfold map_rb in Em. zbool. unfold NO_ERROR in Est. 
    destruct (negb (hyp _ _ _ =? NO_ERROR)) eqn:E1; simplify_eq; try by zbool.
    destruct (negb (vmm =? 0)) eqn:E2; simplify_eq; try by zbool.
    change (mb - 1) with (2 ^ 20 - 1). rewrite land_pow2_mask by lia.
    pose proof (Z.mod_pos_bound pa (2 ^ 20)).
    unfold offsetof_data in Hsz. pose proof (ROUNDUP_mb (sz + pa mod 2 ^ 20)). lia. }
  unfold u32, u64, offsetof_data in *. rewrite (uwrap_small 64), (uwrap_small 32) by lia.
  destruct (lower_pow2_spec (sz - 12)) as (k & -> & Hk & Hk1 & Hk2); [lia|].
  cbn [deref]. unfold ret, put. set (log := Memlog _ _ _ _).
  rewrite Z.pow_add_r in Hk2 by lia.
  assert (Hs : holds_stream log []).
  { split; simpl; try done.
    - by exists k.
    - rewrite length_fmap, length_seqZ. lia. }
  exists 0, (log :: l). split; [done|].
  split; [|right; split; [done|exists log; split_and!; try done; simpl; lia]].
  split.
  { constructor; [|done]. unfold offsetof_data. subst log. cbn [buf_pa buf_sz]. split; [lia|]. split; [lia|]. split; [lia|]. exists []. exact Hs. }
  assert (Hnr : Forall (fun g => pa + sz <= buf_pa g \/ buf_pa g + buf_sz g <= pa) l).
  { apply not_registered; try done; try lia. eapply Forall_impl; [exact Hl|]. unfold offsetof_data. simpl. intros g Hg. lia. }
  rewrite Forall_forall in Hnr.
  intros [|i] [|j] a b Ha Hb Hne; simpl in *; simplify_eq.
  - apply Hnr. by eapply list_elem_of_lookup_2.
  - apply list_elem_of_lookup_2 in Ha. specialize (Hnr _ Ha). cbn [buf_pa buf_sz]. lia.
  - eapply Hd; [exact Ha|exact Hb|lia].
Qed.

(** The size is not checked.  For a buffer smaller than the ring's header
    the subtraction wraps: the ring is taken to be 2^31 bytes, and the first
    write whose position lies past the mapped memory faults the kernel. *)
Lemma memlog_add_undersized shared pa sz guest l :
  0 <= sz < offsetof_data -> 0 <= pa < 2 ^ 62 -> memlog_is_mem_registered pa sz l = false ->
  exists log, memlog_add true (fun _ _ _ => NO_ERROR) 0 shared pa sz guest l = Done 0 (log :: l) /\ rb_sz log = 2 ^ 31 /\
    Z.of_nat (length (rb_data (log_rb_ log))) < 2 ^ 22.
Proof.
  intros Hsz Hpa Hreg. unfold memlog_add, bind, get. rewrite Hreg. cbn [negb].
  unfold map_rb. change (negb (NO_ERROR =? NO_ERROR)) with false. change (negb (0 =? 0)) with false.
  cbn zeta iota. cbn [fst snd]. unfold offsetof_data in *.
  change (negb (0 =? NO_ERROR)) with false. cbn iota.
  assert (Hv : u32 (u64 (sz - 12)) = 2 ^ 32 - 12 + sz).
  { unfold u32, u64, uwrap. rewrite <- (Z.mod_add (sz - 12) 1 (2 ^ 64)) by lia.
    rewrite (Z.mod_small _ (2 ^ 64)) by lia.
    replace (sz - 12 + 1 * 2 ^ 64) with (2 ^ 32 - 12 + sz + (2 ^ 32 - 1) * 2 ^ 32) by lia.
    rewrite Z.mod_add by lia. apply Z.mod_small. lia. }
  rewrite Hv. unfold lower_pow2, builtin_clz. rewrite (proj2 (Z.eqb_neq _ _)) by lia. simpl.
  assert (Hlog : Z.log2 (2 ^ 32 - 12 + sz) = 31) by (apply Z.log2_unique; lia).
  change (4294967296 - 12 + sz) with (2 ^ 32 - 12 + sz). rewrite Hlog.
  unfold ret, put. eexists. split; [done|]. split; [done|]. simpl.
  rewrite length_fmap, length_seqZ.
  change (mb - 1) with (2 ^ 20 - 1). rewrite land_pow2_mask by lia.
  pose proof (Z.mod_pos_bound pa (2 ^ 20)). change mb with (2 ^ 20).
  rewrite ROUNDUP_spec by lia. dlia.
Qed.

(** ** Witnesses *)

Definition demo_log : memlog := Memlog (LogRb 0 0 8 (replicate 20 0)) 8 0x1000 20.

Lemma demo_log_stream : holds_stream demo_log [].
Proof. split; try done. by exists 3. Qed.

Lemma memlog_write_stream_witness :
  exists log', memlog_write [1; 2; 3; 4; 5; 6; 7; 8; 9] demo_log = Some log' /\
    rb_data (log_rb_ log') !! 0%nat = Some 9.
Proof.
  destruct (memlog_write_stream demo_log [] [1; 2; 3; 4; 5; 6; 7; 8; 9] demo_log_stream)
    as (log' & Hrun & Hs); [simpl; lia|].
  exists log'. split; [exact Hrun|].
  assert (Hsz : rb_sz log' = 8) by (vm_compute in Hrun; injection Hrun as <-; reflexivity).
  pose proof (hs_data _ _ Hs 8%nat 9 eq_refl) as H. rewrite Hsz in H. apply H. simpl. lia.
Defined.

Lemma memlog_add_spec_witness :
  exists r l', memlog_add true (fun _ _ _ => NO_ERROR) 0 (fun _ => 0) 0x90000000 0x1000 0 [] = Done r l' /\ logs_wf l'.
Proof.
  destruct (memlog_add_spec true (fun _ _ _ => NO_ERROR) 0 (fun _ => 0) 0x90000000 0x1000 0 []) as (r & l' & Hrun & Hwf & _);
    [split; [constructor|intros i j a b H; discriminate]|lia|unfold offsetof_data; lia|lia|].
  exists r, l'. split; [exact Hrun|exact Hwf].
Defined.

Lemma memlog_add_undersized_witness :
  exists log, memlog_add true (fun _ _ _ => NO_ERROR) 0 (fun _ => 0) 0x90000000 0 0 [] = Done 0 [log] /\ rb_sz log = 2 ^ 31.
Proof.
  destruct (memlog_add_undersized (fun _ => 0) 0x90000000 0 0 []) as (log & Hrun & Hsz & _);
    [unfold offsetof_data; lia|lia|reflexivity|].
  exists log. split; [exact Hrun|exact Hsz].
Defined.

End MemLog.
