(* ===== verification/Vqueue.v ===== *)
(** * Virtio queues shared with the non-secure world

    [lib/trusty/vqueue.c], [vqueue.h] and the ring layout of
    [virtio/virtio_ring.h].  The ring lives in non-secure memory: what a load
    returns is chosen by the other side, so it is a parameter, and every
    access is recorded. *)

From S2P Require Import Prelude SmCall.

Module Vqueue.
Import SmCall.

(** ** Ring layout ([virtio_ring.h]) *)

Definition VRING_DESC_F_NEXT : Z := 1.
Definition VRING_DESC_F_WRITE : Z := 2.
Definition VRING_USED_F_NO_NOTIFY : Z := 1.

Definition sizeof_vring_desc : Z := 16.
Definition sizeof_vring_used_elem : Z := 8.

Record vring := Vring { num : Z; desc : Z; avail : Z; used : Z }.

(** Addresses of the fields of [struct vring_desc], [vring_avail],
    [vring_used]. *)
Definition desc_addr (v : vring) (i : Z) : Z := desc v + sizeof_vring_desc * i.
Definition desc_len (v : vring) (i : Z) : Z := desc v + sizeof_vring_desc * i + 8.
Definition desc_flags (v : vring) (i : Z) : Z := desc v + sizeof_vring_desc * i + 12.
Definition desc_next (v : vring) (i : Z) : Z := desc v + sizeof_vring_desc * i + 14.
Definition avail_idx (v : vring) : Z := avail v + 2.
Definition avail_ring (v : vring) (i : Z) : Z := avail v + 4 + 2 * i.
Definition used_flags (v : vring) : Z := used v.
Definition used_idx (v : vring) : Z := used v + 2.
Definition used_ring_id (v : vring) (i : Z) : Z := used v + 4 + sizeof_vring_used_elem * i.
Definition used_ring_len (v : vring) (i : Z) : Z := used v + 4 + sizeof_vring_used_elem * i + 4.

Definition vring_init (n p align : Z) : vring :=
  let avail := p + n * sizeof_vring_desc in
  Vring n p avail (Z.land (u64 (avail + 4 + 2 * n + 2 + align - 1)) (u64 (Z.lnot (align - 1)))).

Definition vring_size (n align : Z) : Z :=
  u32 (Z.land (u64 (sizeof_vring_desc * n + 2 * u32 (3 + n) + align - 1)) (u64 (Z.lnot (align - 1)))
       + 2 * 3 + sizeof_vring_used_elem * n).

(** ** Data *)

Record vqueue := VQ {
  vq_id : Z;
  vq_vring : vring;
  vring_addr : Z;          (* 0 is NULL *)
  vring_sz : Z;
  last_avail_idx : Z;      (* uint16_t *)
  avail_event : bool;
  notify_cb : Z;
  kick_cb : Z;
  priv : Z
}.

Record iovec_kern := IovecKern { base : Z; iov_len : Z }.

Record vqueue_iovs := Iovs {
  cnt : Z;      (* max number of iovs available *)
  iused : Z;    (* number of iovs currently in use *)
  ilen : Z;     (* total length of all used iovs *)
  phys : list Z;
  iovs : list iovec_kern
}.

Record vqueue_buf := VqBuf { head : Z; in_iovs : vqueue_iovs; out_iovs : vqueue_iovs }.

(** An access of the shared memory: address, width in bytes, value. *)
Inductive access := Rd (a n : Z) | Wr (a n v : Z).

(** The regions of the kernel address space that were mapped here, by their
    virtual address: physical address, size and flags. *)
Notation kregions := (gmap Z (Z * Z * Z)).

Record vst := Vst { st_vq : vqueue; trace : list access; regions : kregions }.

Definition set_vq (q : vqueue) (s : vst) : vst := Vst q (trace s) (regions s).
Definition set_regions (r : kregions) (s : vst) : vst := Vst (st_vq s) (trace s) r.
Definition set_last (i : Z) (q : vqueue) : vqueue :=
  VQ (vq_id q) (vq_vring q) (vring_addr q) (vring_sz q) i (avail_event q) (notify_cb q) (kick_cb q) (priv q).
Definition set_event (b : bool) (q : vqueue) : vqueue :=
  VQ (vq_id q) (vq_vring q) (vring_addr q) (vring_sz q) (last_avail_idx q) b (notify_cb q) (kick_cb q) (priv q).

(** ** The services of the kernel and of the hypervisor

    [vmm_alloc_physical] answers an error or an unused virtual address. *)
Class Platform := {
  trusty_hyp_check_guest_pa_valid : Z -> Z -> Z -> Z;
  vmm_alloc_physical : kregions -> Z -> Z -> Z -> Z + Z;
  vmm_alloc_err : forall rs pa sz fl e, vmm_alloc_physical rs pa sz fl = inl e -> e <> 0;
  vmm_alloc_fresh : forall rs pa sz fl va,
    vmm_alloc_physical rs pa sz fl = inr va -> 0 < va /\ rs !! va = None
}.

Section Ops.
(** [ns n a] is what the [n]-th access finds at address [a]. *)
Context (ns : nat -> Z -> Z).

Definition rd (a n : Z) : M vst Z :=
  fun s => Done (uwrap (8 * n) (ns (length (trace s)) a)) (Vst (st_vq s) (Rd a n :: trace s) (regions s)).
Definition wr (a n v : Z) : M vst unit :=
  fun s => Done tt (Vst (st_vq s) (Wr a n v :: trace s) (regions s)).

(** [event_signal] and [event_unsignal] on [avail_event]. *)
Definition set_signal (b : bool) : M vst unit := modify (fun s => set_vq (set_event b (st_vq s)) s).

(** ** [vqueue_signal_avail] *)

Definition set_no_notify (v : vring) : M vst unit :=
  f <- rd (used_flags v) 2 ;; wr (used_flags v) 2 (Z.lor f VRING_USED_F_NO_NOTIFY).
Definition clear_no_notify (v : vring) : M vst unit :=
  f <- rd (used_flags v) 2 ;; wr (used_flags v) 2 (Z.land f (u16 (Z.lnot VRING_USED_F_NO_NOTIFY))).

Definition vqueue_signal_avail : M vst unit :=
  q <- gets st_vq ;;
  (if negb (vring_addr q =? 0) then set_no_notify (vq_vring q) else ret tt) ;;;
  set_signal true.

(** ** [_vqueue_get_avail_buf_locked] *)

(** Store a descriptor in the list of its direction: [None] when it is full. *)
Definition push_iov (v : vring) (i : Z) (l : vqueue_iovs) : M vst (option vqueue_iovs) :=
  if iused l <? cnt l then
    len <- rd (desc_len v i) 4 ;;
    a <- rd (desc_addr v i) 8 ;;
    b <- deref (iovs l !! Z.to_nat (iused l)) ;;
    _ <- deref (phys l !! Z.to_nat (iused l)) ;;
    a' <- rd (desc_addr v i) 8 ;;
    assert_ (a =? a') ;;;
    len' <- rd (desc_len v i) 4 ;;
    ret (Some (Iovs (cnt l) (u32 (iused l + 1)) (u64 (ilen l + len'))
                 (<[Z.to_nat (iused l) := a]> (phys l))
                 (<[Z.to_nat (iused l) := IovecKern (base b) len]> (iovs l))))
  else ret None.

(** The loop over the chain.  [None]: out of fuel. *)
Fixpoint chain_loop (fuel : nat) (v : vring) (next_idx : Z) (buf : vqueue_buf)
    : M vst (option (Z * vqueue_buf)) :=
  match fuel with
  | O => ret None
  | S fuel =>
      if num v <=? next_idx then ret (Some (ERR_NOT_VALID, buf))
      else
        flags <- rd (desc_flags v next_idx) 2 ;;
        let write := has_flag flags VRING_DESC_F_WRITE in
        r <- push_iov v next_idx (if write then out_iovs buf else in_iovs buf) ;;
        match r with
        | None => ret (Some (ERR_TOO_BIG, buf))
        | Some l =>
            let buf := if write then VqBuf (head buf) (in_iovs buf) l
                       else VqBuf (head buf) l (out_iovs buf) in
            next <- rd (desc_next v next_idx) 2 ;;
            flags <- rd (desc_flags v next_idx) 2 ;;
            if has_flag flags VRING_DESC_F_NEXT then chain_loop fuel v next buf
            else ret (Some (NO_ERROR, buf))
        end
  end.

Definition reset_iovs (l : vqueue_iovs) : vqueue_iovs := Iovs (cnt l) 0 0 (phys l) (iovs l).

(** From the head on: the chain's first index is taken and consumed. *)
Definition take_chain (fuel : nat) (v : vring) (buf : vqueue_buf) : M vst (option (Z * vqueue_buf)) :=
  q <- gets st_vq ;;
  (if num v =? 0 then bad_access else ret tt) ;;;   (* division by zero *)
  next_idx <- rd (avail_ring v (last_avail_idx q mod num v)) 2 ;;
  modify (fun s => set_vq (set_last (u16 (last_avail_idx (st_vq s) + 1)) (st_vq s)) s) ;;;
  if num v <=? next_idx then panic
  else chain_loop fuel v next_idx (VqBuf next_idx (reset_iovs (in_iovs buf)) (reset_iovs (out_iovs buf))).

Definition vqueue_get_avail_buf (fuel : nat) (buf : vqueue_buf) : M vst (option (Z * vqueue_buf)) :=
  q <- gets st_vq ;;
  let v := vq_vring q in
  if vring_addr q =? 0 then ret (Some (ERR_CHANNEL_CLOSED, buf))
  else
    i <- rd (avail_idx v) 2 ;;
    let avail_cnt := u16 (i - last_avail_idx q) in
    if u16 (num v) <? avail_cnt then panic
    else
      i <- rd (avail_idx v) 2 ;;
      if last_avail_idx q =? i then
        set_signal false ;;;
        clear_no_notify v ;;;
        i <- rd (avail_idx v) 2 ;;
        if last_avail_idx q =? i then ret (Some (ERR_NOT_ENOUGH_BUFFER, buf))
        else
          set_no_notify v ;;;
          set_signal true ;;;
          take_chain fuel v buf
      else take_chain fuel v buf.

(** ** [_vqueue_add_buf_locked] *)

Definition vqueue_add_buf (buf : vqueue_buf) (len : Z) : M vst Z :=
  q <- gets st_vq ;;
  let v := vq_vring q in
  if vring_addr q =? 0 then ret ERR_CHANNEL_CLOSED
  else if num v <=? head buf then ret ERR_NOT_VALID
  else
    i <- rd (used_idx v) 2 ;;
    wr (used_ring_id v (i mod num v)) 4 (head buf) ;;;
    wr (used_ring_len v (i mod num v)) 4 (u32 len) ;;;
    i <- rd (used_idx v) 2 ;;
    wr (used_idx v) 2 (u16 (i + 1)) ;;;
    ret NO_ERROR.

Definition vqueue_notify (cb : Z -> Z -> M vst Z) : M vst Z :=
  q <- gets st_vq ;; if negb (notify_cb q =? 0) then cb (notify_cb q) (priv q) else ret 0.
Definition vqueue_kick (cb : Z -> Z -> M vst Z) : M vst Z :=
  q <- gets st_vq ;; if negb (kick_cb q =? 0) then cb (kick_cb q) (priv q) else ret 0.

(** ** Mapping *)
Context `{Platform}.

(** [vmm_alloc_physical] on the kernel address space. *)
Definition map_physical (pa sz fl : Z) : M vst (Z + Z) :=
  rs <- gets regions ;;
  match vmm_alloc_physical rs pa sz fl with
  | inl e => ret (inl e)
  | inr va => modify (set_regions (<[va := (pa, sz, fl)]> rs)) ;;; ret (inr va)
  end.

Definition vmm_free_region (va : Z) : M vst unit :=
  modify (fun s => set_regions (delete va (regions s)) s).

Definition VRING_FLAGS : Z :=
  Z.lor (Z.lor ARCH_MMU_FLAG_NS ARCH_MMU_FLAG_PERM_NO_EXECUTE) ARCH_MMU_FLAG_CACHED.

Definition vqueue_init (id paddr n align priv notify kick guest : Z) : M vst Z :=
  let sz := vring_size n align in
  modify (fun s => let q := st_vq s in
    set_vq (VQ (vq_id q) (vq_vring q) (vring_addr q) sz (last_avail_idx q) (avail_event q)
              (notify_cb q) (kick_cb q) (Vqueue.priv q)) s) ;;;
  let rsz := ROUNDUP sz PAGE_SIZE in
  let err := trusty_hyp_check_guest_pa_valid paddr rsz guest in
  if negb (err =? NO_ERROR) then ret err
  else
    r <- map_physical paddr rsz VRING_FLAGS ;;
    match r with
    | inl err => ret err
    | inr vptr =>
        modify (fun s => set_vq (VQ id (vring_init n vptr align) vptr sz (last_avail_idx (st_vq s)) false
                                   notify kick priv) s) ;;;
        ret NO_ERROR
    end.

Definition vqueue_destroy : M vst unit :=
  q <- gets st_vq ;;
  modify (set_vq (VQ (vq_id q) (vq_vring q) 0 0 0 (avail_event q) (notify_cb q) (kick_cb q) (priv q))) ;;;
  vmm_free_region (vring_addr q).

Definition set_base (i : nat) (b : Z) (l : vqueue_iovs) : vqueue_iovs :=
  Iovs (cnt l) (iused l) (ilen l) (phys l) (alter (fun v => IovecKern b (iov_len v)) i (iovs l)).

(** [while (i--) ...] of the error path. *)
Fixpoint undo_map (i : nat) (l : vqueue_iovs) : M vst vqueue_iovs :=
  match i with
  | O => ret l
  | S i =>
      v <- deref (iovs l !! i) ;;
      vmm_free_region (base v) ;;;
      undo_map i (set_base i 0 l)
  end.

(** [n] entries are left from [i] on. *)
Fixpoint map_loop (n i : nat) (flags guest : Z) (l : vqueue_iovs) : M vst (Z * vqueue_iovs) :=
  match n with
  | O => ret (NO_ERROR, l)
  | S n =>
      v <- deref (iovs l !! i) ;;
      pa <- deref (phys l !! i) ;;
      let sz := ROUNDUP (iov_len v) PAGE_SIZE in
      let err := trusty_hyp_check_guest_pa_valid pa sz guest in
      if negb (err =? NO_ERROR) then ret (err, l)
      else
        r <- map_physical pa sz flags ;;
        match r with
        | inl err => l <- undo_map i (set_base i 0 l) ;; ret (err, l)
        | inr va => map_loop n (S i) flags guest (set_base i va l)
        end
  end.

Definition vqueue_map_iovs (l : vqueue_iovs) (flags guest : Z) : M vst (Z * vqueue_iovs) :=
  assert_ (iused l <=? cnt l) ;;;
  map_loop (Z.to_nat (iused l)) 0 flags guest l.

Fixpoint unmap_loop (n i : nat) (l : vqueue_iovs) : M vst vqueue_iovs :=
  match n with
  | O => ret l
  | S n =>
      v <- deref (iovs l !! i) ;;
      assert_ (negb (base v =? 0)) ;;;
      vmm_free_region (base v) ;;;
      unmap_loop n (S i) (set_base i 0 l)
  end.

Definition vqueue_unmap_iovs (l : vqueue_iovs) : M vst vqueue_iovs :=
  assert_ (iused l <=? cnt l) ;;;
  unmap_loop (Z.to_nat (iused l)) 0 l.
End Ops.

(** ** The ring lies in what is mapped *)

Record vring_ok (v : vring) (p sz : Z) : Prop := {
  ok_num : 0 < num v;
  ok_desc : desc v = p;
  ok_avail : avail v = p + 16 * num v;
  ok_avail_end : avail v + 4 + 2 * num v + 2 <= used v;
  ok_used_end : used v + 4 + 8 * num v + 2 <= p + sz
}.

Lemma round_up_align x k : Z.land (u64 (x + 2 ^ k - 1)) (u64 (Z.lnot (2 ^ k - 1))) = ROUNDUP x (2 ^ k).
Proof. unfold ROUNDUP. by rewrite Z.add_sub_assoc. Qed.

(** Layout.  The descriptor table, the available ring and the used ring
    that [vring_init] lays out from an aligned address follow one another
    without overlap inside the [vring_size] bytes that [vqueue_init] maps. *)
Lemma vring_layout n p k : 0 < n <= 2 ^ 16 -> 0 <= k <= 16 -> 0 <= p < 2 ^ 63 -> p mod 2 ^ k = 0 ->
  vring_ok (vring_init n p (2 ^ k)) p (vring_size n (2 ^ k)).
Proof.
  intros Hn Hk Hp Ha. unfold vring_init, vring_size, sizeof_vring_desc, sizeof_vring_used_elem.
  rewrite !round_up_align. unfold u32 at 2. rewrite (uwrap_small 32 (3 + n)) by lia.
  assert (H2 : 1 <= 2 ^ k <= 2 ^ 16) by (split; [apply (Z.pow_le_mono_r 2 0)|apply Z.pow_le_mono_r]; lia).
  set (A := 2 ^ k) in *.
  assert (Hu : ROUNDUP (p + n * 16 + 4 + 2 * n + 2) A = p + ROUNDUP (16 * n + 2 * (3 + n)) A).
  { unfold A in *. rewrite !ROUNDUP_spec by lia.
    replace (p + n * 16 + 4 + 2 * n + 2 + (2 ^ k - 1)) with (16 * n + 2 * (3 + n) + (2 ^ k - 1) + p) by lia.
    rewrite (Z.add_mod _ p), Ha, Z.add_0_r, Z.mod_mod by lia. lia. }
  assert (Hr : 16 * n + 2 * (3 + n) <= ROUNDUP (16 * n + 2 * (3 + n)) A <= 16 * n + 2 * (3 + n) + A).
  { unfold A in *. rewrite ROUNDUP_spec by lia.
    pose proof (Z.mod_pos_bound (16 * n + 2 * (3 + n) + (2 ^ k - 1)) (2 ^ k)). lia. }
  unfold u32. rewrite uwrap_small by lia.
  split; cbn [num desc avail used]; rewrite ?Hu; lia.
Qed.

Definition acc_in (lo hi : Z) (x : access) : Prop :=
  match x with Rd a n | Wr a n _ => lo <= a /\ a + n <= hi end.

Definition vq_wf (q : vqueue) : Prop :=
  0 <= last_avail_idx q < 2 ^ 16 /\
  (vring_addr q <> 0 -> vring_ok (vq_vring q) (vring_addr q) (vring_sz q)).

(** The same with the size that the ring was laid out for, which [vring_sz]
    is not when a second [vqueue_init] has failed. *)
Definition ring_wf (q : vqueue) : Prop :=
  0 <= last_avail_idx q < 2 ^ 16 /\ (vring_addr q <> 0 -> exists sz, vring_ok (vq_vring q) (vring_addr q) sz).

Lemma vq_ring_wf q : vq_wf q -> ring_wf q.
Proof. intros [Hl Hr]. split; [done|]. eauto. Qed.

(** An array of [cnt] entries of which [iused] are in use. *)
Record iovs_ok (l : vqueue_iovs) : Prop := {
  io_cnt : 0 <= cnt l < 2 ^ 31;
  io_used : 0 <= iused l <= cnt l;
  io_phys : length (phys l) = Z.to_nat (cnt l);
  io_iovs : length (iovs l) = Z.to_nat (cnt l);
  io_lens : Forall (fun v => 0 <= iov_len v < 2 ^ 32) (iovs l)
}.

Definition buf_ok (b : vqueue_buf) : Prop := iovs_ok (in_iovs b) /\ iovs_ok (out_iovs b).

(** How many more descriptors fit. *)
Definition room (b : vqueue_buf) : Z :=
  (cnt (in_iovs b) - iused (in_iovs b)) + (cnt (out_iovs b) - iused (out_iovs b)).

Section Safety.
Context (ns : nat -> Z -> Z) (sz : Z).

(** The accesses recorded in [s] beyond [old] are inside the [sz] bytes of the
    ring of [q]. *)
Definition in_ring (q : vqueue) (old : list access) (s : vst) : Prop :=
  exists new, trace s = new ++ old /\ Forall (acc_in (vring_addr q) (vring_addr q + sz)) new.

Lemma in_ring_refl q s : in_ring q (trace s) s.
Proof. by exists []. Qed.

Lemma in_ring_push q old s x q' : in_ring q old s -> acc_in (vring_addr q) (vring_addr q + sz) x ->
  in_ring q old (Vst q' (x :: trace s) (regions s)).
Proof. intros (new & Ht & Hf) Hx. exists (x :: new). simpl. rewrite Ht. split; [done|by constructor]. Qed.

Lemma safely_rd q old a n s Q : in_ring q old s -> acc_in (vring_addr q) (vring_addr q + sz) (Rd a n) ->
  0 <= n ->
  (forall v s', 0 <= v < 2 ^ (8 * n) -> st_vq s' = st_vq s -> regions s' = regions s -> in_ring q old s' -> Q v s') ->
  safely (rd ns a n) s Q.
Proof.
  intros Hin Hacc Hn H. unfold safely, rd. apply H; try done; [apply uwrap_range; lia|].
  by apply in_ring_push.
Qed.

Lemma safely_wr q old a n v s Q : in_ring q old s ->
  acc_in (vring_addr q) (vring_addr q + sz) (Wr a n v) ->
  (forall s', st_vq s' = st_vq s -> regions s' = regions s -> in_ring q old s' -> Q tt s') ->
  safely (wr a n v) s Q.
Proof. intros Hin Hacc H. unfold safely, wr. apply H; try done. by apply in_ring_push. Qed.

(** Nothing but the trace changed since [s0], and only inside the ring. *)
Definition only_trace (q : vqueue) (s0 s : vst) : Prop :=
  st_vq s = st_vq s0 /\ regions s = regions s0 /\ in_ring q (trace s0) s.

Lemma only_trace_refl q s : only_trace q s s.
Proof. split; [done|]. split; [done|]. apply in_ring_refl. Qed.

Lemma only_trace_trans q s0 s1 s2 : only_trace q s0 s1 -> only_trace q s1 s2 -> only_trace q s0 s2.
Proof.
  intros (Hv & Hr & n1 & Ht1 & Hf1) (Hv2 & Hr2 & n2 & Ht2 & Hf2).
  split; [congruence|]. split; [congruence|]. exists (n2 ++ n1). rewrite Ht2, Ht1, app_assoc.
  split; [done|]. by apply Forall_app.
Qed.

Lemma safely_read q s0 s a n Q : only_trace q s0 s -> 0 <= n ->
  acc_in (vring_addr q) (vring_addr q + sz) (Rd a n) ->
  (forall v s', 0 <= v < 2 ^ (8 * n) -> only_trace q s0 s' -> Q v s') -> safely (rd ns a n) s Q.
Proof.
  intros (Hv & Hr & Hin) Hn Hacc H. eapply safely_rd; [done|done|done|].
  intros v s' Hb Hv' Hr' Hin'. apply H; [done|]. split; [congruence|]. split; [congruence|done].
Qed.

Lemma safely_write q s0 s a n v Q : only_trace q s0 s ->
  acc_in (vring_addr q) (vring_addr q + sz) (Wr a n v) ->
  (forall s', only_trace q s0 s' -> Q tt s') -> safely (wr a n v) s Q.
Proof.
  intros (Hv & Hr & Hin) Hacc H. eapply safely_wr; [done|done|].
  intros s' Hv' Hr' Hin'. apply H. split; [congruence|]. split; [congruence|done].
Qed.

Context (q : vqueue).
Notation v := (vq_vring q).
Context (Hring : vring_ok v (vring_addr q) (sz)).

Ltac ring_bound := destruct Hring; unfold acc_in, desc_addr, desc_len, desc_flags, desc_next, avail_idx,
  avail_ring, used_flags, used_idx, used_ring_id, used_ring_len, sizeof_vring_desc, sizeof_vring_used_elem in *; nia.

Lemma push_iov_safe i l s0 s : iovs_ok l -> 0 <= i < num v -> only_trace q s0 s ->
  safely (push_iov ns v i l) s (fun o s' => only_trace q s0 s' /\
    match o with
    | None => True
    | Some l' => iovs_ok l' /\ cnt l' = cnt l /\ iused l' = iused l + 1 /\ iused l < cnt l
    end).
Proof.
  intros [Hc Hu Hp Hio Hl] Hi Hs. unfold push_iov. destruct (iused l <? cnt l) eqn:E; zbool; [|by apply safely_ret].
  apply safely_bind. eapply safely_read; [done|lia|ring_bound|]. intros len s1 Hlen H1.
  apply safely_bind. eapply safely_read; [done|lia|ring_bound|]. intros a s2 _ H2.
  destruct (lookup_lt_is_Some_2 (iovs l) (Z.to_nat (iused l))) as [b Hb]; [lia|].
  destruct (lookup_lt_is_Some_2 (phys l) (Z.to_nat (iused l))) as [b' Hb']; [lia|].
  apply safely_bind. eapply safely_deref; [done|]. apply safely_bind. eapply safely_deref; [done|].
  apply safely_bind. eapply safely_read; [done|lia|ring_bound|]. intros a' s3 _ H3.
  apply safely_bind. apply safely_assert. intros _.
  apply safely_bind. eapply safely_read; [done|lia|ring_bound|]. intros len' s4 _ H4.
  apply safely_ret. split; [done|]. unfold u32. rewrite uwrap_small by lia.
  split; [|cbn [cnt iused]; lia]. split; cbn [cnt iused phys iovs]; rewrite ?length_insert; try lia.
  by apply Forall_insert.
Qed.

Definition chain_result (r : Z) : Prop := r = NO_ERROR \/ r = ERR_NOT_VALID \/ r = ERR_TOO_BIG.

Lemma chain_loop_safe fuel : forall i buf s0 s, buf_ok buf -> 0 <= i -> room buf < Z.of_nat fuel ->
  only_trace q s0 s ->
  safely (chain_loop ns fuel v i buf) s (fun o s' => only_trace q s0 s' /\
    exists r buf', o = Some (r, buf') /\ chain_result r /\ head buf' = head buf /\ buf_ok buf' /\
      cnt (in_iovs buf') = cnt (in_iovs buf) /\ cnt (out_iovs buf') = cnt (out_iovs buf)).
Proof.
  induction fuel as [|fuel IH]; intros i buf s0 s [Hin Hout] Hi Hf Hs.
  { destruct Hin, Hout. unfold room in Hf. lia. }
  cbn [chain_loop]. destruct (num v <=? i) eqn:Ei; zbool.
  { apply safely_ret. split; [done|]. unfold chain_result. eexists _, _. split; [done|]. split_and!; auto. by split. }
  apply safely_bind. eapply safely_read; [done|lia|ring_bound|]. intros fl s1 _ H1.
  cbv zeta. apply safely_bind. eapply safely_mono; [apply (push_iov_safe i _ s0)|]; [| |done|].
  { by destruct (has_flag _ _). }
  { lia. }
  intros o s2 [H2 Ho]. destruct o as [l|].
  2: { apply safely_ret. split; [done|]. unfold chain_result. eexists _, _. split; [done|]. split_and!; auto. by split. }
  destruct Ho as (Hl & Hcl & Hul & Hlt).
  apply safely_bind. eapply safely_read; [done|lia|ring_bound|]. intros nx s3 Hnx H3.
  apply safely_bind. eapply safely_read; [done|lia|ring_bound|]. intros fl' s4 _ H4.
  unfold room in *.
  destruct (has_flag fl VRING_DESC_F_WRITE), (has_flag fl' VRING_DESC_F_NEXT);
    try (apply safely_ret; split; [done|]; unfold chain_result; eexists _, _; split; [done|];
         cbn [head in_iovs out_iovs]; split_and!; auto; by split);
    (eapply safely_mono; [apply (IH nx _ s0); [by split|lia|cbn [in_iovs out_iovs]; lia|done]|]);
    (intros o s' [Hs' (r & buf' & -> & Hr & Hh & Hok & Hc1 & Hc2)]; split; [done|];
     exists r, buf'; cbn [head in_iovs out_iovs] in *; split_and!; auto; congruence).
Qed.

(** What a taken or refused chain leaves: the vqueue with its index moved over
    the chain, unless there was none. *)
Definition get_post (s0 : vst) (buf : vqueue_buf) (o : option (Z * vqueue_buf)) (s : vst) : Prop :=
  in_ring q (trace s0) s /\ regions s = regions s0 /\
  exists r buf', o = Some (r, buf') /\ cnt (in_iovs buf') = cnt (in_iovs buf) /\
    cnt (out_iovs buf') = cnt (out_iovs buf) /\
    ((r = ERR_NOT_ENOUGH_BUFFER /\ buf' = buf /\ st_vq s = set_event false (st_vq s0)) \/
     (chain_result r /\ buf_ok buf' /\ 0 <= head buf' < num v /\
      exists ev, st_vq s = set_event ev (set_last (u16 (last_avail_idx (st_vq s0) + 1)) (st_vq s0)))).

Lemma in_ring_trans old s1 s2 : in_ring q old s1 -> in_ring q (trace s1) s2 -> in_ring q old s2.
Proof.
  intros (n1 & H1 & F1) (n2 & H2 & F2). exists (n2 ++ n1). rewrite H2, H1, app_assoc.
  split; [done|]. by apply Forall_app.
Qed.

Lemma reset_ok l : iovs_ok l -> iovs_ok (reset_iovs l).
Proof. intros [Hc Hu Hp Hi Hl]. split; cbn [reset_iovs cnt iused phys iovs]; lia || done. Qed.

Lemma take_chain_safe fuel buf s : buf_ok buf -> cnt (in_iovs buf) + cnt (out_iovs buf) < Z.of_nat fuel ->
  0 <= last_avail_idx (st_vq s) ->
  safely (take_chain ns fuel v buf) s (fun o s' => in_ring q (trace s) s' /\ regions s' = regions s /\
    exists r buf', o = Some (r, buf') /\ chain_result r /\ buf_ok buf' /\ 0 <= head buf' < num v /\
      cnt (in_iovs buf') = cnt (in_iovs buf) /\ cnt (out_iovs buf') = cnt (out_iovs buf) /\
      st_vq s' = set_last (u16 (last_avail_idx (st_vq s) + 1)) (st_vq s)).
Proof.
  intros [Hin Hout] Hf Hl. unfold take_chain. apply safely_bind. unfold gets, safely at 1.
  apply safely_bind. rewrite (proj2 (Z.eqb_neq _ _)) by (destruct Hring; lia). apply safely_ret.
  pose proof (Z.mod_pos_bound (last_avail_idx (st_vq s)) (num v) (ok_num _ _ _ Hring)) as Hm.
  apply safely_bind. eapply safely_read; [apply (only_trace_refl q)|lia|ring_bound|].
  intros i s1 Hi (Hv1 & Hr1 & H1). apply safely_bind. unfold modify, safely at 1. rewrite Hv1.
  destruct (num v <=? i) eqn:Ei; zbool; [apply safely_panic|].
  set (s2 := set_vq _ s1).
  eapply safely_mono.
  { apply (chain_loop_safe fuel i _ s2 s2); [|lia| |apply only_trace_refl].
    - split; by apply reset_ok.
    - unfold room. cbn [in_iovs out_iovs reset_iovs cnt iused]. lia. }
  cbn beta. intros o s3 [(Hv3 & Hr3 & H3) (r & buf' & -> & Hr & Hh & Hok & Hc1 & Hc2)].
  split; [eapply in_ring_trans; [exact H1|exact H3]|]. split; [rewrite Hr3; exact Hr1|].
  assert (st_vq s3 = set_last (u16 (last_avail_idx (st_vq s) + 1)) (st_vq s)) as ->.
  { by rewrite Hv3. }
  exists r, buf'. rewrite Hh. cbn [head]. split_and!; auto; lia.
Qed.

Lemma safely_signal b s (Q : unit -> vst -> Prop) :
  Q tt (set_vq (set_event b (st_vq s)) s) -> safely (set_signal b) s Q.
Proof. done. Qed.

Lemma get_avail_buf_post fuel buf s : st_vq s = q -> vring_addr q <> 0 -> 0 <= last_avail_idx q ->
  buf_ok buf -> cnt (in_iovs buf) + cnt (out_iovs buf) < Z.of_nat fuel ->
  safely (vqueue_get_avail_buf ns fuel buf) s (get_post s buf).
Proof.
  intros Hq Hn0 Hl Hb Hf. unfold vqueue_get_avail_buf. apply safely_bind. unfold gets, safely at 1. cbv zeta.
  rewrite Hq. rewrite (proj2 (Z.eqb_neq _ _)) by done.
  apply safely_bind. eapply safely_read; [apply (only_trace_refl q)|lia|ring_bound|]. intros i1 s1 _ H1.
  destruct (_ <? _); [apply safely_panic|].
  apply safely_bind. eapply safely_read; [exact H1|lia|ring_bound|]. intros i2 s2 _ H2.
  destruct (last_avail_idx q =? i2).
  - apply safely_bind, safely_signal. destruct H2 as (Hv2 & Hr2 & H2).
    set (s3 := set_vq _ s2).
    assert (H3 : in_ring q (trace s) s3) by exact H2.
    apply safely_bind, safely_bind.
    eapply safely_read; [apply (only_trace_refl q s3)|lia|ring_bound|]. intros f s4 _ H4.
    eapply safely_write; [exact H4|ring_bound|]. intros s5 H5.
    apply safely_bind. eapply safely_read; [exact H5|lia|ring_bound|]. intros i3 s6 _ H6.
    destruct (last_avail_idx q =? i3).
    + apply safely_ret. destruct H6 as (Hv6 & Hr6 & H6).
      split; [eapply in_ring_trans; [exact H3|exact H6]|]. split; [rewrite Hr6; exact Hr2|].
      exists ERR_NOT_ENOUGH_BUFFER, buf. split_and!; auto. left. split_and!; auto.
      rewrite Hv6. unfold s3. cbn [st_vq set_vq]. by rewrite Hv2.
    + apply safely_bind, safely_bind.
      eapply safely_read; [exact H6|lia|ring_bound|]. intros f' s7 _ H7.
      eapply safely_write; [exact H7|ring_bound|]. intros s8 (Hv8 & Hr8 & H8).
      apply safely_bind, safely_signal. set (s9 := set_vq _ s8).
      assert (H9 : in_ring q (trace s) s9) by (eapply in_ring_trans; [exact H3|exact H8]).
      assert (Hv9 : st_vq s9 = set_event true (st_vq s)).
      { unfold s9. cbn [st_vq set_vq]. rewrite Hv8. unfold s3. cbn [st_vq set_vq]. by rewrite Hv2. }
      assert (Hr9 : regions s9 = regions s) by (unfold s9; cbn [regions set_vq]; rewrite Hr8; exact Hr2).
      eapply safely_mono; [apply (take_chain_safe fuel buf s9); [done|done|rewrite Hv9, Hq; done]|].
      intros o s' (Hi & Hr & r & buf' & -> & Hcr & Hok & Hh & Hc1 & Hc2 & Hv).
      split; [eapply in_ring_trans; [exact H9|exact Hi]|]. split; [congruence|].
      exists r, buf'. split_and!; auto. right. split_and!; auto; try lia. exists true. rewrite Hv, Hv9. done.
  - destruct H2 as (Hv2 & Hr2 & H2).
    eapply safely_mono; [apply (take_chain_safe fuel buf s2); [done|done|rewrite Hv2, Hq; done]|].
    intros o s' (Hi & Hr & r & buf' & -> & Hcr & Hok & Hh & Hc1 & Hc2 & Hv).
    split; [eapply in_ring_trans; [exact H2|exact Hi]|]. split; [congruence|].
    exists r, buf'. split_and!; auto. right. split_and!; auto; try lia. exists (avail_event (st_vq s)).
    rewrite Hv, Hv2. by destruct (st_vq s).
Qed.
End Safety.

(** C40: whatever the non-secure side stores in the ring, and changes while it
    is read, taking a buffer ends (within one step per entry of the two
    lists and one more), touches shared memory inside the mapped ring only,
    and writes the lists inside their arrays.  It either stops the system
    deliberately, or reports that the ring is gone or empty, or moves the
    index over one chain whose head lies in the ring. *)
Theorem vqueue_get_avail_buf_safe ns fuel buf s :
  vq_wf (st_vq s) -> buf_ok buf -> cnt (in_iovs buf) + cnt (out_iovs buf) < Z.of_nat fuel ->
  match vqueue_get_avail_buf ns fuel buf s with
  | Crash w => w = Panic
  | Done o s' =>
      (vring_addr (st_vq s) = 0 /\ o = Some (ERR_CHANNEL_CLOSED, buf) /\ s' = s) \/
      (vring_addr (st_vq s) <> 0 /\ get_post (vring_sz (st_vq s)) (st_vq s) s buf o s')
  end.
Proof.
  intros [Hl Hw] Hb Hf. destruct (decide (vring_addr (st_vq s) = 0)) as [H0|H0].
  - unfold vqueue_get_avail_buf, bind, gets. rewrite H0. by left.
  - pose proof (get_avail_buf_post ns (vring_sz (st_vq s)) (st_vq s) (Hw H0) fuel buf s eq_refl H0 (proj1 Hl) Hb Hf) as H.
    unfold safely in H. destruct (vqueue_get_avail_buf ns fuel buf s); [by right|done].
Qed.

(** ** A well-formed chain is delivered as it is *)

Record descr := Descr { d_addr : Z; d_len : Z; d_write : bool }.

Section Chain.
(** The contents of the shared memory, left alone by the other side. *)
Context (mem : Z -> Z).
Notation quiet := (fun (_ : nat) (a : Z) => mem a).

Definition descr_at (v : vring) (i : Z) : descr :=
  Descr (u64 (mem (desc_addr v i))) (u32 (mem (desc_len v i)))
        (has_flag (u16 (mem (desc_flags v i))) VRING_DESC_F_WRITE).

Inductive chain (v : vring) : Z -> list descr -> Prop :=
| chain_last i : 0 <= i < num v ->
    has_flag (u16 (mem (desc_flags v i))) VRING_DESC_F_NEXT = false -> chain v i [descr_at v i]
| chain_next i ds : 0 <= i < num v ->
    has_flag (u16 (mem (desc_flags v i))) VRING_DESC_F_NEXT = true ->
    chain v (u16 (mem (desc_next v i))) ds -> chain v i (descr_at v i :: ds).

Definition total (ds : list descr) : Z := foldr (fun d n => d_len d + n) 0 ds.

(** The list holds exactly the buffers [ds]. *)
Record holds (l : vqueue_iovs) (ds : list descr) : Prop := {
  h_used : iused l = Z.of_nat (length ds);
  h_len : ilen l = u64 (total ds);
  h_phys : take (length ds) (phys l) = d_addr <$> ds;
  h_iovs : iov_len <$> take (length ds) (iovs l) = d_len <$> ds
}.

Lemma total_app a b : total (a ++ b) = total a + total b.
Proof. unfold total. induction a; simpl; [done|]. rewrite IHa. lia. Qed.

Lemma push_iov_quiet v i l ds s : iovs_ok l -> holds l ds -> iused l < cnt l ->
  exists l' s', push_iov quiet v i l s = Done (Some l') s' /\ st_vq s' = st_vq s /\
    regions s' = regions s /\ iovs_ok l' /\ cnt l' = cnt l /\ holds l' (ds ++ [descr_at v i]).
Proof.
  intros [Hc Hu Hp Hi Hil] [Hhu Hhl Hhp Hhi] Hlt. unfold push_iov, bind, rd.
  rewrite (proj2 (Z.ltb_lt _ _)) by done.
  destruct (lookup_lt_is_Some_2 (iovs l) (Z.to_nat (iused l))) as [b Hb]; [lia|].
  destruct (lookup_lt_is_Some_2 (phys l) (Z.to_nat (iused l))) as [b' Hb']; [lia|].
  rewrite Hb, Hb'. unfold deref, ret. rewrite Z.eqb_refl. unfold assert_, ret.
  change (8 * 8) with 64. change (8 * 4) with 32. eexists _, _. split; [done|]. split; [done|]. split; [done|].
  rewrite Hhu, Nat2Z.id in *. unfold u32 at 1. rewrite uwrap_small by lia.
  split.
  { split; cbn [cnt iused phys iovs]; rewrite ?length_insert; try lia.
    apply Forall_insert; [done|]. apply (uwrap_range 32). lia. }
  split; [done|].
  assert (Hlp : (length ds < length (phys l))%nat) by lia.
  assert (Hli : (length ds < length (iovs l))%nat) by lia.
  unfold u32. rewrite uwrap_small by lia. split; cbn [iused ilen phys iovs]; rewrite ?length_app; cbn [length].
  - lia.
  - rewrite Hhl, total_app. unfold u64. rewrite uwrap_add_l. f_equal. cbn. unfold u32. lia.
  - rewrite fmap_app, <- Hhp. cbn. rewrite Nat.add_1_r, (take_S_r _ _ (u64 (mem (desc_addr v i)))).
    + by rewrite take_insert_ge by lia.
    + by apply list_lookup_insert_eq.
  - rewrite fmap_app, <- Hhi. cbn.
    rewrite Nat.add_1_r, (take_S_r _ _ (IovecKern (base b) (u32 (mem (desc_len v i))))).
    + rewrite take_insert_ge by lia. by rewrite fmap_app.
    + by apply list_lookup_insert_eq.
Qed.

Definition reads (ds : list descr) : list descr := filter (fun d => d_write d = false) ds.
Definition writes (ds : list descr) : list descr := filter (fun d => d_write d = true) ds.

(** The buffer holds [ds], split by direction. *)
Record buf_holds (b : vqueue_buf) (ds : list descr) : Prop := {
  bh_ok : buf_ok b;
  bh_in : holds (in_iovs b) (reads ds);
  bh_out : holds (out_iovs b) (writes ds)
}.

Definition same_bounds (b b' : vqueue_buf) : Prop :=
  head b' = head b /\ cnt (in_iovs b') = cnt (in_iovs b) /\ cnt (out_iovs b') = cnt (out_iovs b).

(** The descriptors [ds] fit in the two lists of [b]. *)
Definition fits (b : vqueue_buf) (ds : list descr) : Prop :=
  Z.of_nat (length (reads ds)) <= cnt (in_iovs b) /\ Z.of_nat (length (writes ds)) <= cnt (out_iovs b).

Lemma reads_app a b : reads (a ++ b) = reads a ++ reads b.
Proof. apply filter_app. Qed.
Lemma writes_app a b : writes (a ++ b) = writes a ++ writes b.
Proof. apply filter_app. Qed.

Lemma reads_one d : reads [d] = if d_write d then [] else [d].
Proof. unfold reads. rewrite filter_cons, filter_nil. by destruct (d_write d). Qed.
Lemma writes_one d : writes [d] = if d_write d then [d] else [].
Proof. unfold writes. rewrite filter_cons, filter_nil. by destruct (d_write d). Qed.

Lemma fits_prefix b a c : fits b (a ++ c) -> fits b a.
Proof. unfold fits. rewrite reads_app, writes_app, !length_app. lia. Qed.

Lemma chain_step fuel v i buf ds s : 0 <= i < num v -> buf_holds buf ds -> fits buf (ds ++ [descr_at v i]) ->
  exists buf' s', buf_holds buf' (ds ++ [descr_at v i]) /\ same_bounds buf buf' /\
    st_vq s' = st_vq s /\ regions s' = regions s /\
    chain_loop quiet (S fuel) v i buf s =
      if has_flag (u16 (mem (desc_flags v i))) VRING_DESC_F_NEXT
      then chain_loop quiet fuel v (u16 (mem (desc_next v i))) buf' s'
      else Done (Some (NO_ERROR, buf')) s'.
Proof.
  intros Hi [[Hiok Hook] Hdi Hdo] [Hci Hco]. cbn [chain_loop]. rewrite (proj2 (Z.leb_gt _ _)) by lia.
  unfold bind at 1, rd at 1. change (8 * 2) with 16.
  change (has_flag _ VRING_DESC_F_WRITE) with (d_write (descr_at v i)). cbv zeta.
  set (s1 := Vst _ _ _). rewrite reads_app, writes_app, reads_one, writes_one, !length_app in *.
  destruct (d_write (descr_at v i)) eqn:Ew.
  - edestruct (push_iov_quiet v i (out_iovs buf) (writes ds) s1 Hook Hdo) as
      (l & s2 & Hp & Hv & Hr & Hok & Hc & Hl).
    { rewrite (h_used _ _ Hdo). cbn [length] in Hco. lia. }
    unfold bind at 1. rewrite Hp. unfold bind, rd.
    exists (VqBuf (head buf) (in_iovs buf) l). eexists (Vst _ _ _).
    split; [|split; [|split; [exact Hv|split; [exact Hr|]]]].
    + split; [by split| |]; cbn [in_iovs out_iovs]; rewrite ?reads_app, ?writes_app, ?reads_one, ?writes_one, Ew;
        [by rewrite app_nil_r|done].
    + by split_and!.
    + cbn [st_vq trace regions]. by destruct (has_flag _ VRING_DESC_F_NEXT).
  - edestruct (push_iov_quiet v i (in_iovs buf) (reads ds) s1 Hiok Hdi) as
      (l & s2 & Hp & Hv & Hr & Hok & Hc & Hl).
    { rewrite (h_used _ _ Hdi). cbn [length] in Hci. lia. }
    unfold bind at 1. rewrite Hp. unfold bind, rd.
    exists (VqBuf (head buf) l (out_iovs buf)). eexists (Vst _ _ _).
    split; [|split; [|split; [exact Hv|split; [exact Hr|]]]].
    + split; [by split| |]; cbn [in_iovs out_iovs]; rewrite ?reads_app, ?writes_app, ?reads_one, ?writes_one, Ew;
        [done|by rewrite app_nil_r].
    + by split_and!.
    + cbn [st_vq trace regions]. by destruct (has_flag _ VRING_DESC_F_NEXT).
Qed.

Lemma chain_loop_quiet v i ds : chain v i ds ->
  forall fuel buf done s, (length ds <= fuel)%nat -> buf_holds buf done -> fits buf (done ++ ds) ->
  exists buf' s', chain_loop quiet fuel v i buf s = Done (Some (NO_ERROR, buf')) s' /\
    st_vq s' = st_vq s /\ regions s' = regions s /\ same_bounds buf buf' /\ buf_holds buf' (done ++ ds).
Proof.
  intros Hch. induction Hch as [i Hi Hnx|i ds Hi Hnx Hch IH];
    intros [|fuel] buf dn s Hf Hb Hfit; simpl in Hf; try lia.
  - destruct (chain_step fuel v i buf dn s Hi Hb Hfit) as (buf' & s' & Hb' & Hsb & Hv & Hr & ->).
    rewrite Hnx. eauto 10.
  - destruct (chain_step fuel v i buf dn s Hi Hb) as (buf' & s' & Hb' & Hsb & Hv & Hr & ->).
    { rewrite cons_middle, app_assoc in Hfit. by apply fits_prefix in Hfit. }
    rewrite Hnx. destruct (IH fuel buf' (dn ++ [descr_at v i]) s') as (buf'' & s'' & Hrun & Hv2 & Hr2 & Hsb2 & Hb2);
      [lia|done| |].
    { unfold fits, same_bounds in *. rewrite <- app_assoc. destruct Hsb as (? & -> & ->). done. }
    rewrite <- app_assoc in Hb2. exists buf'', s''. unfold same_bounds in *. split_and!; auto; intuition congruence.
Qed.

Lemma holds_reset l : iovs_ok l -> holds (reset_iovs l) [].
Proof. done. Qed.
End Chain.

(** When the other side keeps the ring still, taking a buffer delivers
    the chain published at the reader's position: every descriptor of it, in
    order, in the list of its direction, with its address and length, and
    both totals; the position moves by one. *)
Lemma vqueue_get_avail_buf_chain mem fuel buf s ds :
  let q := st_vq s in let v := vq_vring q in
  let idx := u16 (mem (avail_idx v)) in
  let first := u16 (mem (avail_ring v (last_avail_idx q mod num v))) in
  vring_addr q <> 0 -> num v < 2 ^ 16 -> buf_ok buf ->
  last_avail_idx q <> idx -> u16 (idx - last_avail_idx q) <= num v ->
  chain mem v first ds -> (length ds <= fuel)%nat -> fits buf ds ->
  exists buf' s', vqueue_get_avail_buf (fun _ a => mem a) fuel buf s = Done (Some (NO_ERROR, buf')) s' /\
    head buf' = first /\ holds (in_iovs buf') (reads ds) /\ holds (out_iovs buf') (writes ds) /\
    st_vq s' = set_last (u16 (last_avail_idx q + 1)) q /\ regions s' = regions s.
Proof.
  intros q v idx first Ha Hn [Hb1 Hb2] Hne Hcnt Hch Hf Hfit.
  assert (Hfirst : 0 <= first < num v) by (inversion Hch; lia).
  unfold vqueue_get_avail_buf. unfold bind at 1, gets at 1. cbv zeta. fold q. fold v.
  rewrite (proj2 (Z.eqb_neq _ _)) by done.
  unfold bind at 1, rd at 1. change (8 * 2) with 16. fold (u16 (mem (avail_idx v))). fold idx.
  assert (Hn16 : u16 (num v) = num v) by (apply uwrap_small; lia).
  rewrite Hn16, (proj2 (Z.ltb_ge _ _)) by lia.
  unfold bind at 1, rd at 1. change (8 * 2) with 16. fold (u16 (mem (avail_idx v))). fold idx.
  rewrite (proj2 (Z.eqb_neq _ _)) by done.
  unfold take_chain. unfold bind at 1, gets at 1. cbn [st_vq]. fold q.
  rewrite (proj2 (Z.eqb_neq _ 0)) by lia. unfold bind at 1, ret at 1.
  unfold bind at 1, rd at 1. change (8 * 2) with 16. fold (u16 (mem (avail_ring v (last_avail_idx q mod num v)))).
  fold first. unfold bind at 1, modify at 1. rewrite (proj2 (Z.leb_gt _ _)) by lia.
  set (b0 := VqBuf first _ _). set (s0 := set_vq _ _).
  destruct (chain_loop_quiet mem v first ds Hch fuel b0 [] s0) as (buf' & s' & Hrun & Hv & Hr & Hsb & Hbh);
    [done| |done|].
  { split; [split; by apply reset_ok|by apply holds_reset|by apply holds_reset]. }
  rewrite Hrun. exists buf', s'. split; [done|]. destruct Hsb as (Hh & _). split; [by rewrite Hh|].
  split; [exact (bh_in _ _ Hbh)|]. split; [exact (bh_out _ _ Hbh)|]. split; [by rewrite Hv|by rewrite Hr].
Qed.

(** Returning a buffer.  The element is stored in the slot of the ring
    that the used index names, inside the ring, before the index is advanced
    by one; a head outside the ring, or a ring that is gone, is refused
    without any access. *)
Lemma vqueue_add_buf_publishes ns buf len s : vq_wf (st_vq s) -> 0 <= head buf ->
  let q := st_vq s in let v := vq_vring q in
  if vring_addr q =? 0 then vqueue_add_buf ns buf len s = Done ERR_CHANNEL_CLOSED s
  else if num v <=? head buf then vqueue_add_buf ns buf len s = Done ERR_NOT_VALID s
  else exists i j s', vqueue_add_buf ns buf len s = Done NO_ERROR s' /\
    st_vq s' = q /\ regions s' = regions s /\ in_ring (vring_sz q) q (trace s) s' /\ 0 <= i < num v /\
    trace s' = Wr (used_idx v) 2 (u16 (j + 1)) :: Rd (used_idx v) 2 :: Wr (used_ring_len v i) 4 (u32 len) ::
               Wr (used_ring_id v i) 4 (head buf) :: Rd (used_idx v) 2 :: trace s.
Proof.
  intros [_ Hw] Hh q v. unfold vqueue_add_buf, bind, gets. fold q. fold v.
  destruct (vring_addr q =? 0) eqn:E; zbool; [done|].
  destruct (num v <=? head buf) eqn:E2; zbool; [done|].
  destruct (Hw E). fold q v in ok_num0, ok_desc0, ok_avail0, ok_avail_end0, ok_used_end0.
  unfold rd, wr. cbn [st_vq trace regions].
  set (i := _ mod _). assert (Hi : 0 <= i < num v) by (apply Z.mod_pos_bound; lia). clearbody i.
  eexists i, _, _. split; [reflexivity|]. cbn [st_vq trace regions]. split; [done|]. split; [done|].
  split; [|split; [done|reflexivity]].
  eexists [_; _; _; _; _]. split; [reflexivity|].
  unfold used_idx, used_ring_id, used_ring_len, sizeof_vring_used_elem.
  repeat constructor; cbn; lia.
Qed.

(** ** Mapping and unmapping buffers *)

Section Mapping.
Context `{Platform}.

(** [rs] is [rs0] with the entries from [lo] to [n] of [l] mapped. *)
Inductive mapped (l : vqueue_iovs) (fl : Z) (lo : nat) (rs0 : kregions) : nat -> kregions -> Prop :=
| mapped_none : mapped l fl lo rs0 lo rs0
| mapped_more n rs v pa : mapped l fl lo rs0 n rs -> iovs l !! n = Some v -> phys l !! n = Some pa ->
    base v <> 0 -> rs !! base v = None ->
    mapped l fl lo rs0 (S n) (<[base v := (pa, ROUNDUP (iov_len v) PAGE_SIZE, fl)]> rs).

Lemma mapped_set_base l fl lo rs0 n rs j b : (n <= j)%nat ->
  mapped l fl lo rs0 n rs -> mapped (set_base j b l) fl lo rs0 n rs.
Proof.
  intros Hj Hm. induction Hm as [|n rs v pa Hm IH Hv Hp Hb Hf]; [constructor|].
  constructor; auto with lia. cbn [set_base iovs]. rewrite list_lookup_alter_ne by lia. done.
Qed.

Lemma mapped_set_base_low l fl lo rs0 n rs j b : (j < lo)%nat ->
  mapped l fl lo rs0 n rs -> mapped (set_base j b l) fl lo rs0 n rs.
Proof.
  intros Hj Hm. assert (Hlo : (lo <= n)%nat) by (induction Hm; lia).
  induction Hm as [|n rs v pa Hm IH Hv Hp Hb Hf]; [constructor|].
  assert ((lo <= n)%nat) by (clear -Hm; induction Hm; lia).
  constructor; auto. cbn [set_base iovs]. rewrite list_lookup_alter_ne by lia. done.
Qed.

Lemma undo_map_spec n : forall l fl rs0 rs s, mapped l fl 0 rs0 n rs -> regions s = rs ->
  exists l', undo_map n l s = Done l' (set_regions rs0 s).
Proof.
  induction n as [|n IH]; intros l fl rs0 rs s Hm Hr; inversion Hm; subst.
  - exists l. by destruct s.
  - cbn [undo_map]. unfold bind, deref, ret. 
    match goal with Hv : iovs l !! n = Some _ |- _ => rewrite Hv end.
    unfold vmm_free_region, modify.
    match goal with Hv : iovs l !! n = Some ?v, Hm' : mapped l fl 0 rs0 n ?rs |- _ =>
      destruct (IH (set_base n 0 l) fl rs0 rs (set_regions (delete (base v) (regions s)) s)) as [l' Hu] end.
    + by apply mapped_set_base.
    + cbn [regions set_regions].
      match goal with Hr : _ = regions s |- _ => rewrite <- Hr end. by apply delete_insert_id.
    + exists l'. rewrite Hu. by destruct s.
Qed.

Lemma map_loop_spec fl guest rs0 n : forall i l s, mapped l fl 0 rs0 i (regions s) ->
  (i + n <= length (iovs l))%nat -> length (phys l) = length (iovs l) ->
  exists r l' s', map_loop n i fl guest l s = Done (r, l') s' /\ st_vq s' = st_vq s /\ trace s' = trace s /\
    ((r = NO_ERROR /\ mapped l' fl 0 rs0 (i + n) (regions s') /\ length (iovs l') = length (iovs l) /\
        iused l' = iused l /\ cnt l' = cnt l /\ phys l' = phys l /\ (iov_len <$> iovs l') = (iov_len <$> iovs l)) \/
     (r <> NO_ERROR /\ (regions s' = rs0 \/
        exists j v pa, (i <= j < i + n)%nat /\ iovs l' !! j = Some v /\ phys l !! j = Some pa /\
          trusty_hyp_check_guest_pa_valid pa (ROUNDUP (iov_len v) PAGE_SIZE) guest = r /\
          mapped l' fl 0 rs0 j (regions s')))).
Proof.
  induction n as [|n IH]; intros i l s Hm Hlen Hph; cbn [map_loop].
  { exists NO_ERROR, l, s. split; [done|]. split; [done|]. split; [done|]. left.
    rewrite Nat.add_0_r. done. }
  destruct (lookup_lt_is_Some_2 (iovs l) i) as [v Hv]; [lia|].
  destruct (lookup_lt_is_Some_2 (phys l) i) as [pa Hpa]; [lia|].
  unfold bind at 1. rewrite Hv. unfold deref at 1, ret at 1. unfold bind at 1. rewrite Hpa.
  unfold deref at 1, ret at 1. cbv zeta.
  destruct (negb (_ =? NO_ERROR)) eqn:Eh; zbool.
  { eexists _, l, s. split; [done|]. split; [done|]. split; [done|]. right. split; [done|]. right.
    exists i, v, pa. split_and!; auto; lia. }
  unfold bind at 1, map_physical, gets. unfold bind at 1.
  destruct (vmm_alloc_physical _ _ _ _) as [e|va] eqn:Ea.
  - unfold ret at 1. edestruct (undo_map_spec i (set_base i 0 l) fl rs0) as [l' Hu];
      [by apply mapped_set_base|reflexivity|].
    unfold bind. rewrite Hu. eexists _, l', _. split; [done|]. split; [done|]. split; [done|].
    right. split; [|by left]. by eapply vmm_alloc_err.
  - apply vmm_alloc_fresh in Ea as [Hva Hfresh]. assert (Hva0 : va <> 0) by lia. unfold bind at 1, modify, ret at 1.
    set (s1 := set_regions _ s). set (l1 := set_base i va l).
    destruct (IH (S i) l1 s1) as (r & l' & s' & Hrun & Hq & Ht & Hcase).
    + assert (Hv1 : iovs l1 !! i = Some (IovecKern va (iov_len v))).
      { unfold l1. cbn [iovs set_base]. by rewrite list_lookup_alter_eq, Hv. }
      apply (mapped_more l1 fl 0 rs0 i (regions s) (IovecKern va (iov_len v)) pa); [by apply mapped_set_base|exact Hv1|exact Hpa|exact Hva0|exact Hfresh].
    + unfold l1. cbn [iovs set_base]. rewrite length_alter. lia.
    + unfold l1. cbn [iovs phys set_base]. by rewrite length_alter.
    + exists r, l', s'. rewrite Hrun. split; [done|]. split; [exact Hq|]. split; [exact Ht|].
      destruct Hcase as [(Hr & Hm' & Hl' & Hu & Hc & Hp & Hil)|(Hr & Hc)].
      * left. replace (i + S n)%nat with (S i + n)%nat by lia. unfold l1 in *. cbn [iovs phys iused cnt set_base] in *.
        rewrite length_alter in Hl'. split_and!; auto. rewrite Hil. clear.
        revert i. induction (iovs l) as [|x xs IHx]; intros [|i]; simpl; try done; f_equal; [apply IHx].
      * right. split; [done|]. destruct Hc as [Hc|(j & v' & pa' & Hj & Hjv & Hjp & Hh & Hm')]; [by left|right].
        exists j, v', pa'. split_and!; auto; lia.
Qed.

Lemma mapped_ge l fl lo rs0 n rs : mapped l fl lo rs0 n rs -> (lo <= n)%nat.
Proof. induction 1; lia. Qed.

Lemma mapped_at_lo l fl lo rs0 rs : mapped l fl lo rs0 lo rs -> rs = rs0.
Proof.
  intros Hm. inversion Hm as [|n rs' v pa Hm' ? ? ? ? Hn]; [done|].
  apply mapped_ge in Hm'. lia.
Qed.

(** The first region can be taken out first as well. *)
Lemma mapped_first l fl i rs0 n rs : mapped l fl i rs0 n rs -> (i < n)%nat ->
  exists v, iovs l !! i = Some v /\ base v <> 0 /\ is_Some (rs !! base v) /\
    mapped l fl (S i) rs0 n (delete (base v) rs).
Proof.
  intros Hm. induction Hm as [|n rs v pa Hm IH Hv Hp Hb Hf]; intros Hi; [lia|].
  destruct (decide (n = i)) as [->|Hne].
  - apply mapped_at_lo in Hm as ->. exists v. rewrite lookup_insert_eq, delete_insert_id by done.
    split_and!; eauto. constructor.
  - destruct IH as (v0 & Hv0 & Hb0 & [x Hx] & Hm0); [lia|].
    assert (base v0 <> base v) by congruence.
    exists v0. rewrite lookup_insert_ne by done. split_and!; eauto.
    rewrite delete_insert_ne by done. constructor; auto. rewrite lookup_delete_ne by done. done.
Qed.

Lemma unmap_loop_spec fl rs0 n : forall i l s, mapped l fl i rs0 (i + n) (regions s) ->
  exists l', unmap_loop n i l s = Done l' (set_regions rs0 s) /\ iused l' = iused l /\ cnt l' = cnt l.
Proof.
  induction n as [|n IH]; intros i l s Hm.
  - rewrite Nat.add_0_r in Hm. apply mapped_at_lo in Hm. exists l. cbn [unmap_loop]. unfold ret.
    rewrite <- Hm. by destruct s.
  - destruct (mapped_first _ _ _ _ _ _ Hm) as (v & Hv & Hb & _ & Hm'); [lia|].
    cbn [unmap_loop]. unfold bind at 1. rewrite Hv. unfold deref, ret at 1.
    rewrite (proj2 (Z.eqb_neq _ _)) by done. change (negb false) with true.
    unfold assert_, bind, ret at 1, vmm_free_region, modify.
    destruct (IH (S i) (set_base i 0 l) (set_regions (delete (base v) (regions s)) s)) as (l' & Hu & Hl1 & Hl2).
    { replace (S i + n)%nat with (i + S n)%nat by lia. apply mapped_set_base_low; [lia|exact Hm']. }
    exists l'. rewrite Hu. by destruct s.
Qed.
End Mapping.

(** Mapping the buffers of a chain maps every one of them or reports an
    error; after success, unmapping them leaves the kernel address space
    exactly as it was.  When the kernel cannot map a buffer, the ones mapped
    before it are unmapped. *)
Lemma vqueue_map_unmap `{Platform} fl guest l s : iovs_ok l ->
  exists r l' s', vqueue_map_iovs l fl guest s = Done (r, l') s' /\
    st_vq s' = st_vq s /\ trace s' = trace s /\
    ((r = NO_ERROR /\ mapped l' fl 0 (regions s) (Z.to_nat (iused l)) (regions s') /\
        exists l'', vqueue_unmap_iovs l' s' = Done l'' s) \/
     (r <> NO_ERROR /\ (regions s' = regions s \/
        exists i pa sz, (i < Z.to_nat (iused l))%nat /\ phys l !! i = Some pa /\
          trusty_hyp_check_guest_pa_valid pa sz guest = r /\ mapped l' fl 0 (regions s) i (regions s')))).
Proof.
  intros [Hc Hu Hp Hi _]. unfold vqueue_map_iovs, bind, assert_, ret.
  rewrite (proj2 (Z.leb_le _ _)) by lia.
  destruct (map_loop_spec fl guest (regions s) (Z.to_nat (iused l)) 0 l s) as (r & l' & s' & Hrun & Hq & Ht & Hcase);
    [constructor|lia|lia|].
  exists r, l', s'. rewrite Hrun. split; [done|]. split; [done|]. split; [done|].
  destruct Hcase as [(Hr & Hm & _ & Hu' & Hc' & _)|(Hr & [Hs|(j & v & pa & Hj & _ & Hph & Hh & Hm)])].
  - left. split; [done|]. split; [exact Hm|].
    destruct (unmap_loop_spec fl (regions s) (Z.to_nat (iused l)) 0 l' s') as (l'' & Hrun2 & _); [exact Hm|].
    exists l''. unfold vqueue_unmap_iovs, bind, assert_, ret. rewrite Hu', Hc'.
    rewrite (proj2 (Z.leb_le _ _)) by lia. rewrite Hrun2. f_equal.
    destruct s, s'. cbn in *. by subst.
  - right. split; [done|]. by left.
  - right. split; [done|]. right. exists j, pa, (ROUNDUP (iov_len v) PAGE_SIZE). split_and!; auto. lia.
Qed.

(** A buffer that the hypervisor refuses is reported at once, but the
    buffers mapped before it stay mapped: the error path that unmaps them is
    not taken. *)
Lemma vqueue_map_iovs_leak `{Platform} fl guest l s a b va :
  iovs_ok l -> iused l = 2 -> phys l = [a; b] ->
  (forall sz, trusty_hyp_check_guest_pa_valid a sz guest = NO_ERROR) ->
  (forall sz, trusty_hyp_check_guest_pa_valid b sz guest = ERR_INVALID_ARGS) ->
  (forall sz, vmm_alloc_physical (regions s) a sz fl = inr va) ->
  exists l' s', vqueue_map_iovs l fl guest s = Done (ERR_INVALID_ARGS, l') s' /\
    is_Some (regions s' !! va) /\ regions s !! va = None.
Proof.
  intros [Hc Hu Hp Hi _] H2 Hph Ha Hb Hva. rewrite Hph in Hp. cbn [length] in Hp.
  assert (exists v w, iovs l = [v; w]) as (v & w & Hvw).
  { destruct (iovs l) as [|v [|w [|? ?]]]; cbn [length] in Hi; try lia. eauto. }
  unfold vqueue_map_iovs, bind at 1, assert_, ret. rewrite (proj2 (Z.leb_le _ _)) by lia.
  rewrite H2. change (Z.to_nat 2) with 2%nat. cbn [map_loop].
  unfold bind at 1. rewrite Hvw. cbn [lookup list_lookup]. unfold deref at 1, ret at 1.
  unfold bind at 1. rewrite Hph. cbn [lookup list_lookup]. unfold deref at 1, ret at 1. cbv zeta.
  rewrite Ha. change (negb (NO_ERROR =? NO_ERROR)) with false. cbn iota.
  unfold bind at 1, map_physical, gets. unfold bind at 1. rewrite Hva.
  pose proof (vmm_alloc_fresh _ _ _ _ _ (Hva 0)) as [_ Hf].
  unfold bind at 1, modify, ret at 1. unfold bind at 1. unfold set_base. cbn [iovs phys].
  rewrite Hvw. cbn. rewrite Hph. cbn. unfold bind, deref, ret. rewrite Hb. cbn.
  eexists _, _. split; [reflexivity|]. split; [|done]. cbn. rewrite lookup_insert_eq. eauto.
Qed.

(** ** Witnesses *)

#[local] Program Instance demo_platform : Platform := {|
  trusty_hyp_check_guest_pa_valid pa _ _ := if pa =? 0x9000 then ERR_INVALID_ARGS else NO_ERROR;
  vmm_alloc_physical rs pa _ _ :=
    match rs !! (Z.abs pa + 1) with None => inr (Z.abs pa + 1) | Some _ => inl ERR_NO_MEMORY end
|}.
Next Obligation. intros rs pa sz fl e. simpl. by destruct (rs !! _); intros [= <-]. Qed.
Next Obligation.
  intros rs pa sz fl va. simpl. destruct (rs !! (Z.abs pa + 1)) eqn:E; intros [= <-]. split; [lia|done].
Qed.

Lemma vring_layout_witness : vring_ok (vring_init 32 0x80000000 (2 ^ 12)) 0x80000000 (vring_size 32 (2 ^ 12)).
Proof. apply (vring_layout 32 0x80000000 12); [lia|lia|lia|reflexivity]. Defined.

Definition demo_vq : vqueue :=
  VQ 0 (vring_init 4 0x80000000 4096) 0x80000000 (vring_size 4 4096) 0 true 1 1 0.
Definition demo_st : vst := Vst demo_vq [] ∅.

(** Two descriptors, the first to read and the second to write. *)
Definition demo_ring (a : Z) : Z :=
  if a =? 0x80000042 then 1 else if a =? 0x80000044 then 2         (* available: head 2 *)
  else if a =? 0x80000020 then 0x5000 else if a =? 0x80000028 then 100
  else if a =? 0x8000002c then 1 else if a =? 0x8000002e then 0      (* next 0 *)
  else if a =? 0x80000000 then 0x7000 else if a =? 0x80000008 then 16
  else if a =? 0x8000000c then 2 else 0.

Definition demo_iovs : vqueue_iovs := Iovs 2 0 0 [0; 0] [IovecKern 0 0; IovecKern 0 0].
Definition demo_buf : vqueue_buf := VqBuf 0 demo_iovs demo_iovs.

Lemma demo_iovs_ok : iovs_ok demo_iovs.
Proof. split; try done. by repeat constructor. Qed.

Lemma demo_vq_wf : vq_wf demo_vq.
Proof.
  split; [done|]. intros _. apply (vring_layout 4 0x80000000 12); [lia|lia|lia|reflexivity].
Qed.

Lemma vqueue_get_avail_buf_safe_witness :
  match vqueue_get_avail_buf (fun _ a => demo_ring a) 5 demo_buf demo_st with
  | Done o s' => exists r b, o = Some (r, b)
  | Crash _ => True
  end.
Proof.
  pose proof (vqueue_get_avail_buf_safe (fun _ a => demo_ring a) 5 demo_buf demo_st demo_vq_wf
                (conj demo_iovs_ok demo_iovs_ok) eq_refl) as H.
  destruct (vqueue_get_avail_buf _ _ _ _) as [o s'|w]; [|exact I].
  destruct H as [(_ & -> & _)|(_ & _ & _ & r & b & -> & _)]; eexists _, _; reflexivity.
Defined.

Lemma vqueue_get_avail_buf_chain_witness :
  exists buf' s', vqueue_get_avail_buf (fun _ a => demo_ring a) 2 demo_buf demo_st
    = Done (Some (NO_ERROR, buf')) s' /\ head buf' = 2 /\ ilen (in_iovs buf') = 100.
Proof.
  destruct (vqueue_get_avail_buf_chain demo_ring 2 demo_buf demo_st
              [descr_at demo_ring (vq_vring demo_vq) 2; descr_at demo_ring (vq_vring demo_vq) 0])
    as (buf' & s' & Hrun & Hh & Hin & _); try done.
  - split; apply demo_iovs_ok.
  - apply chain_next; [done|reflexivity|]. apply chain_last; [done|reflexivity].
  - exists buf', s'. split; [exact Hrun|]. split; [exact Hh|]. exact (h_len _ _ Hin).
Defined.

Lemma vqueue_add_buf_publishes_witness :
  exists s', vqueue_add_buf (fun _ a => demo_ring a) demo_buf 8 demo_st = Done NO_ERROR s' /\
    length (trace s') = 5%nat.
Proof.
  destruct (vqueue_add_buf_publishes (fun _ a => demo_ring a) demo_buf 8 demo_st demo_vq_wf)
    as (i & j & s' & Hrun & _ & _ & _ & _ & Ht); [done|].
  exists s'. split; [exact Hrun|]. rewrite Ht. reflexivity.
Defined.

Definition demo_used : vqueue_iovs :=
  Iovs 2 2 200 [0x5000; 0x9000] [IovecKern 0 100; IovecKern 0 100].

Lemma demo_used_ok : iovs_ok demo_used.
Proof. split; try done. by repeat constructor. Qed.

Lemma vqueue_map_unmap_witness :
  exists r l' s', vqueue_map_iovs demo_used 0 0 demo_st = Done (r, l') s' /\ st_vq s' = demo_vq.
Proof.
  destruct (vqueue_map_unmap 0 0 demo_used demo_st) as (r & l' & s' & Hrun & Hq & _);
    [apply demo_used_ok|].
  exists r, l', s'. split; [exact Hrun|exact Hq].
Defined.

Lemma vqueue_map_iovs_leak_witness :
  exists l' s', vqueue_map_iovs demo_used 0 0 demo_st = Done (ERR_INVALID_ARGS, l') s' /\
    is_Some (regions s' !! 0x5001).
Proof.
  destruct (vqueue_map_iovs_leak 0 0 demo_used demo_st 0x5000 0x9000 0x5001) as (l' & s' & Hrun & Hs & _);
    try done; try apply demo_used_ok.
  exists l', s'. split; [exact Hrun|exact Hs].
Defined.

End Vqueue.
