(* ===== verification/Handle.v ===== *)
(** * Handles

    [lib/trusty/handle.c], [handle.h], [include/refcount.h]: the reference
    count, the waiter and the guest of a handle.  What [poll] answers depends
    on the object behind the handle. *)

From S2P Require Import Prelude.

Module Handle.

Definition IPC_HANDLE_POLL_NONE : Z := 0x0.
Definition IPC_HANDLE_POLL_READY : Z := 0x1.
Definition IPC_HANDLE_POLL_ERROR : Z := 0x2.
Definition IPC_HANDLE_POLL_HUP : Z := 0x4.
Definition IPC_HANDLE_POLL_MSG : Z := 0x8.
Definition IPC_HANDLE_POLL_SEND_UNBLOCKED : Z := 0x10.

Definition DEFAULT_GUEST_ID : Z := 0xDEADFEED.

(** [wait_event] is the event its waiter sleeps on. *)
Record handle := Hnd { refcnt : Z; wait_event : option Z; cookie : Z; guest_id : Z }.

(** The bytes of a handle that is not initialised yet ([calloc]). *)
Definition handle_zero : handle := Hnd 0 None 0 0.
Definition handle_init : handle := Hnd 1 None 0 DEFAULT_GUEST_ID.

Definition handle_incref (h : handle) : handle := Hnd (refcnt h + 1) (wait_event h) (cookie h) (guest_id h).
(** The counter after a decrement; the object is destroyed when it was 1. *)
Definition handle_decref_cnt (h : handle) : handle * bool :=
  (Hnd (refcnt h - 1) (wait_event h) (cookie h) (guest_id h), refcnt h =? 1).
Definition handle_set_cookie (c : Z) (h : handle) : handle := Hnd (refcnt h) (wait_event h) c (guest_id h).
Definition handle_get_cookie (h : handle) : Z := cookie h.
Definition set_guest (g : Z) (h : handle) : handle := Hnd (refcnt h) (wait_event h) (cookie h) g.
Definition set_wait (e : option Z) (h : handle) : handle := Hnd (refcnt h) e (cookie h) (guest_id h).

(** The event that is signalled, if there is a waiter. *)
Definition handle_notify (h : handle) : option Z := wait_event h.

Definition prepare_wait_handle (ev : Z) (h : handle) : Z * handle :=
  match wait_event h with
  | Some _ => (ERR_ALREADY_STARTED, h)
  | None => (0, set_wait (Some ev) h)
  end.

Definition finish_wait_handle (h : handle) : handle := set_wait None h.

End Handle.
