(* ===== verification/Ipc.v ===== *)
(** * Ports and channels

    [lib/trusty/ipc.c], [ipc.h], [include/reflist.h] and the channel
    operations of [ipc_msg.c].  Objects live in a heap and are freed when
    their last reference goes; a use of a freed object is [BadAccess], a
    failed assertion [Panic].  Every operation runs under [ipc_lock], so it is
    one step. *)

From S2P Require Import Prelude Iovec MsgQueue Handle.

Module Ipc.
Import Iovec MsgQueue Handle.

(** ** Constants *)

Definition IPC_PORT_STATE_INVALID : Z := 0.
Definition IPC_PORT_STATE_LISTENING : Z := 1.
Definition IPC_PORT_STATE_CLOSING : Z := 2.
Definition IPC_PORT_ALLOW_TA_CONNECT : Z := 0x1.
Definition IPC_PORT_ALLOW_NS_CONNECT : Z := 0x2.
Definition IPC_PORT_PATH_MAX : Z := 64.
Definition IPC_CHAN_MAX_BUFS : Z := 32.
Definition IPC_CHAN_MAX_BUF_SIZE : Z := 4096.
Definition IPC_CONNECT_WAIT_FOR_PORT : Z := 0x1.
Definition IPC_CONNECT_ASYNC : Z := 0x2.

(** The channel states, with their numbers in the header. *)
Inductive chan_state : Set :=
| INVALID          (* 0 *)
| ACCEPTING        (* 1 *)
| CONNECTING       (* 2 *)
| CONNECTED        (* 3 *)
| DISCONNECTING    (* 4 *)
| WAITING_FOR_PORT (* 5 *).

#[export] Instance chan_state_eq_dec : EqDecision chan_state.
Proof. solve_decision. Defined.

Definition IPC_CHAN_FLAG_SERVER : Z := 0x1.
Definition AUX_SEND_BLOCKED : Z := 0x1.
Definition AUX_SEND_UNBLOCKED : Z := 0x2.
Definition AUX_CONNECTED : Z := 0x4.

(** A pointer to a [uuid]: [zero_uuid] stands for the non-secure world. *)
Inductive uuid := ZeroUuid | AppUuid (n : Z).
#[export] Instance uuid_eq_dec : EqDecision uuid.
Proof. solve_decision. Defined.

Definition is_ns_client (u : uuid) : bool := bool_decide (u = ZeroUuid).

(** ** Objects

    The references to a channel that its [refobj] lists: its own
    [handle_ref] and [node_ref], the [peer_ref] of another channel, and the
    local reference of a running function. *)
Inductive ref := HandleRef | NodeRef | PeerRef (q : Z) | TmpRef.
#[export] Instance ref_eq_dec : EqDecision ref.
Proof. solve_decision. Defined.

(** The list a channel's [node] is linked in. *)
Inductive list_head := Waiting | Pending (p : Z).
#[export] Instance list_head_eq_dec : EqDecision list_head.
Proof. solve_decision. Defined.

Record port := Port {
  p_path : list Z;
  p_uuid : uuid;
  p_state : Z;
  p_flags : Z;
  num_recv_bufs : Z;
  recv_buf_size : Z;
  p_handle : handle;
  pending_list : list Z
}.

Record chan := Chan {
  refs : list ref;
  peer : option Z;
  c_uuid : uuid;
  c_state : chan_state;
  c_flags : Z;
  aux_state : Z;
  c_handle : handle;
  node : option list_head;
  msg_queue : option ipc_msg_queue;
  c_path : option (list Z)
}.

Record heap := Heap {
  ports : gmap Z port;
  chans : gmap Z chan;
  ipc_port_list : list Z;
  waiting_list : list Z;       (* waiting_for_port_chan_list *)
  next_obj : Z;                (* the next address calloc returns *)
  signalled : list Z;          (* events signalled, most recent first *)
  user : mem                   (* memory of the current application *)
}.

Definition set_ports (x : gmap Z port) (h : heap) : heap :=
  Heap x (chans h) (ipc_port_list h) (waiting_list h) (next_obj h) (signalled h) (user h).
Definition set_chans (x : gmap Z chan) (h : heap) : heap :=
  Heap (ports h) x (ipc_port_list h) (waiting_list h) (next_obj h) (signalled h) (user h).
Definition set_port_list (x : list Z) (h : heap) : heap :=
  Heap (ports h) (chans h) x (waiting_list h) (next_obj h) (signalled h) (user h).
Definition set_waiting (x : list Z) (h : heap) : heap :=
  Heap (ports h) (chans h) (ipc_port_list h) x (next_obj h) (signalled h) (user h).
Definition set_next (x : Z) (h : heap) : heap :=
  Heap (ports h) (chans h) (ipc_port_list h) (waiting_list h) x (signalled h) (user h).
Definition add_signal (e : option Z) (h : heap) : heap :=
  match e with
  | Some e => Heap (ports h) (chans h) (ipc_port_list h) (waiting_list h) (next_obj h) (e :: signalled h) (user h)
  | None => h
  end.
Definition set_user (m : mem) (h : heap) : heap :=
  Heap (ports h) (chans h) (ipc_port_list h) (waiting_list h) (next_obj h) (signalled h) m.

Definition set_p_state (x : Z) (p : port) : port :=
  Port (p_path p) (p_uuid p) x (p_flags p) (num_recv_bufs p) (recv_buf_size p) (p_handle p) (pending_list p).
Definition set_p_handle (x : handle) (p : port) : port :=
  Port (p_path p) (p_uuid p) (p_state p) (p_flags p) (num_recv_bufs p) (recv_buf_size p) x (pending_list p).
Definition set_pending (x : list Z) (p : port) : port :=
  Port (p_path p) (p_uuid p) (p_state p) (p_flags p) (num_recv_bufs p) (recv_buf_size p) (p_handle p) x.

Definition set_refs (x : list ref) (c : chan) : chan :=
  Chan x (peer c) (c_uuid c) (c_state c) (c_flags c) (aux_state c) (c_handle c) (node c) (msg_queue c) (c_path c).
Definition set_peer (x : option Z) (c : chan) : chan :=
  Chan (refs c) x (c_uuid c) (c_state c) (c_flags c) (aux_state c) (c_handle c) (node c) (msg_queue c) (c_path c).
Definition set_state (x : chan_state) (c : chan) : chan :=
  Chan (refs c) (peer c) (c_uuid c) x (c_flags c) (aux_state c) (c_handle c) (node c) (msg_queue c) (c_path c).
Definition set_aux (x : Z) (c : chan) : chan :=
  Chan (refs c) (peer c) (c_uuid c) (c_state c) (c_flags c) x (c_handle c) (node c) (msg_queue c) (c_path c).
Definition set_handle (x : handle) (c : chan) : chan :=
  Chan (refs c) (peer c) (c_uuid c) (c_state c) (c_flags c) (aux_state c) x (node c) (msg_queue c) (c_path c).
Definition set_node (x : option list_head) (c : chan) : chan :=
  Chan (refs c) (peer c) (c_uuid c) (c_state c) (c_flags c) (aux_state c) (c_handle c) x (msg_queue c) (c_path c).
Definition set_mq (x : option ipc_msg_queue) (c : chan) : chan :=
  Chan (refs c) (peer c) (c_uuid c) (c_state c) (c_flags c) (aux_state c) (c_handle c) (node c) x (c_path c).
Definition set_c_path (x : option (list Z)) (c : chan) : chan :=
  Chan (refs c) (peer c) (c_uuid c) (c_state c) (c_flags c) (aux_state c) (c_handle c) (node c) (msg_queue c) x.

(** ** Access to objects *)

Definition get_chan (c : Z) : M heap chan := h <- get ;; deref (chans h !! c).
Definition get_port (p : Z) : M heap port := h <- get ;; deref (ports h !! p).
Definition put_chan (c : Z) (x : chan) : M heap unit := modify (fun h => set_chans (<[c := x]> (chans h)) h).
Definition put_port (p : Z) (x : port) : M heap unit := modify (fun h => set_ports (<[p := x]> (ports h)) h).
Definition upd_chan (c : Z) (f : chan -> chan) : M heap unit := x <- get_chan c ;; put_chan c (f x).
Definition upd_port (p : Z) (f : port -> port) : M heap unit := x <- get_port p ;; put_port p (f x).

(** ** References ([reflist.h]) *)

(** [list_in_list] of a reference that is to be put on channel [c]: its own
    references are only ever on its own list. *)
Definition ref_linked (c : Z) (r : ref) (h : heap) : bool :=
  match r with
  | PeerRef _ => existsb (fun x => bool_decide (r ∈ refs x.2)) (map_to_list (chans h))
  | _ => match chans h !! c with Some x => bool_decide (r ∈ refs x) | None => false end
  end.

Definition chan_add_ref (c : Z) (r : ref) : M heap unit :=
  h <- get ;;
  assert_ (negb (ref_linked c r h)) ;;;
  upd_chan c (fun x => set_refs (refs x ++ [r]) x).

(** [__chan_destroy_refobj]. *)
Definition chan_destroy (c : Z) : M heap unit :=
  x <- get_chan c ;;
  assert_ (bool_decide (peer x = None)) ;;;
  assert_ (bool_decide (node x = None)) ;;;
  modify (fun h => set_chans (delete c (chans h)) h).

Definition chan_del_ref (c : Z) (r : ref) : M heap unit :=
  x <- get_chan c ;;
  assert_ (bool_decide (r ∈ refs x)) ;;;
  let rs := remove_first r (refs x) in
  put_chan c (set_refs rs x) ;;;
  if bool_decide (rs = []) then chan_destroy c else ret tt.

(** [list_delete(&chan->node)]; unlinking a node that is in no list follows
    null pointers. *)
Definition chan_unlink (c : Z) : M heap unit :=
  x <- get_chan c ;;
  match node x with
  | None => bad_access
  | Some Waiting => modify (fun h => set_waiting (remove_first c (waiting_list h)) h)
  | Some (Pending p) => upd_port p (fun x => set_pending (remove_first c (pending_list x)) x)
  end ;;;
  put_chan c (set_node None x).

(** ** Handles of the two kinds of object *)

Inductive hptr := HPort (p : Z) | HChan (c : Z).

Definition ipc_is_channel (x : hptr) : bool := match x with HChan _ => true | HPort _ => false end.
Definition ipc_is_port (x : hptr) : bool := match x with HPort _ => true | HChan _ => false end.

Definition notify_chan (c : Z) : M heap unit :=
  x <- get_chan c ;; modify (add_signal (handle_notify (c_handle x))).
Definition notify_port (p : Z) : M heap unit :=
  x <- get_port p ;; modify (add_signal (handle_notify (p_handle x))).

Definition port_incref (p : Z) : M heap unit :=
  upd_port p (fun x => set_p_handle (handle_incref (p_handle x)) x).

(** [port_handle_destroy]. *)
Definition port_handle_destroy (p : Z) : M heap unit :=
  x <- get_port p ;;
  h <- get ;;
  assert_ (bool_decide (pending_list x = [])) ;;;
  assert_ (negb (bool_decide (p ∈ ipc_port_list h))) ;;;
  modify (fun h => set_ports (delete p (ports h)) h).

Definition chan_handle_destroy (c : Z) : M heap unit := chan_del_ref c HandleRef.

Definition port_decref (p : Z) : M heap unit :=
  x <- get_port p ;;
  let r := handle_decref_cnt (p_handle x) in
  put_port p (set_p_handle r.1 x) ;;;
  if r.2 then port_handle_destroy p else ret tt.

Definition chan_decref (c : Z) : M heap unit :=
  x <- get_chan c ;;
  let r := handle_decref_cnt (c_handle x) in
  put_chan c (set_handle r.1 x) ;;;
  if r.2 then chan_handle_destroy c else ret tt.

Definition handle_decref (x : hptr) : M heap unit :=
  match x with HPort p => port_decref p | HChan c => chan_decref c end.

(** ** Channels *)

(** [chan_alloc]: [ok] says whether [calloc] succeeds; the new object holds
    the caller's reference. *)
Definition chan_alloc (ok : bool) (flags : Z) (u : uuid) : M heap (option Z) :=
  if negb ok then ret None
  else
    h <- get ;;
    let c := next_obj h in
    put_chan c (Chan [TmpRef] None u INVALID flags 0 handle_zero None None None) ;;;
    modify (set_next (c + 1)) ;;;
    ret (Some c).

Definition chan_handle_init (c : Z) : M heap hptr :=
  upd_chan c (set_handle handle_init) ;;;
  chan_add_ref c HandleRef ;;;
  ret (HChan c).

(** [_chan_shutdown_locked]. *)
Definition chan_shutdown_one (c : Z) : M heap unit :=
  x <- get_chan c ;;
  match c_state x with
  | CONNECTED | CONNECTING =>
      upd_chan c (set_state DISCONNECTING) ;;; notify_chan c
  | WAITING_FOR_PORT =>
      assert_ (bool_decide (is_Some (node x))) ;;;
      chan_unlink c ;;;
      chan_del_ref c NodeRef ;;;
      upd_chan c (set_state DISCONNECTING)
  | ACCEPTING => upd_chan c (set_state DISCONNECTING)
  | _ => ret tt
  end.

Definition chan_shutdown_locked (c : Z) : M heap unit :=
  chan_shutdown_one c ;;;
  x <- get_chan c ;;
  match peer x with
  | None => ret tt
  | Some q =>
      chan_shutdown_one q ;;;
      chan_del_ref q (PeerRef c) ;;;
      upd_chan c (set_peer None)
  end.

Definition chan_poll (c : Z) : M heap Z :=
  x <- get_chan c ;;
  match c_state x with
  | INVALID => ret IPC_HANDLE_POLL_ERROR
  | st =>
      let e := if decide (st = DISCONNECTING) then IPC_HANDLE_POLL_HUP else 0 in
      let e := if has_flag (aux_state x) AUX_CONNECTED then Z.lor e IPC_HANDLE_POLL_READY else e in
      let e := match msg_queue x with
               | Some mq => if negb (ipc_msg_queue_is_empty mq) then Z.lor e IPC_HANDLE_POLL_MSG else e
               | None => e
               end in
      let e := if has_flag (aux_state x) AUX_SEND_UNBLOCKED
               then Z.lor e IPC_HANDLE_POLL_SEND_UNBLOCKED else e in
      ret e
  end.

Definition chan_finalize_event (c event : Z) : M heap unit :=
  if has_flag event (Z.lor IPC_HANDLE_POLL_SEND_UNBLOCKED IPC_HANDLE_POLL_READY) then
    (if has_flag event IPC_HANDLE_POLL_SEND_UNBLOCKED
     then upd_chan c (fun x => set_aux (Z.land (aux_state x) (u32 (Z.lnot AUX_SEND_UNBLOCKED))) x)
     else ret tt) ;;;
    (if has_flag event IPC_HANDLE_POLL_READY
     then upd_chan c (fun x => set_aux (Z.land (aux_state x) (u32 (Z.lnot AUX_CONNECTED))) x)
     else ret tt)
  else ret tt.

(** ** Ports *)

(** The bytes of a C string before its terminator. *)
Fixpoint cstr (s : list Z) : list Z :=
  match s with
  | [] => []
  | b :: s => if b =? 0 then [] else b :: cstr s
  end.

(** The result is the return code and the new handle. *)
Definition ipc_port_create (ok : bool) (sid : option uuid) (path : list Z) (nbufs bufsz flags : Z)
    : M heap (Z * option hptr) :=
  match sid with
  | None => ret (ERR_INVALID_ARGS, None)
  | Some sid =>
      if (nbufs =? 0) || (IPC_CHAN_MAX_BUFS <? nbufs) || (bufsz =? 0) || (IPC_CHAN_MAX_BUF_SIZE <? bufsz)
      then ret (ERR_INVALID_ARGS, None)
      else if negb ok then ret (ERR_NO_MEMORY, None)
      else
        let len := Z.of_nat (length (cstr path)) in
        if len =? 0 then ret (ERR_INVALID_ARGS, None)
        else if IPC_PORT_PATH_MAX <=? len then ret (ERR_TOO_BIG, None)
        else
          h <- get ;;
          let p := next_obj h in
          put_port p (Port (cstr path) sid IPC_PORT_STATE_INVALID flags nbufs bufsz handle_init []) ;;;
          modify (set_next (p + 1)) ;;;
          ret (NO_ERROR, Some (HPort p))
  end.

Fixpoint port_find (path : list Z) (l : list Z) : M heap (option Z) :=
  match l with
  | [] => ret None
  | p :: l =>
      x <- get_port p ;;
      if bool_decide (path = p_path x) then ret (Some p) else port_find path l
  end.

Definition port_find_locked (path : list Z) : M heap (option Z) :=
  h <- get ;; port_find path (ipc_port_list h).

Definition port_poll (p : Z) : M heap Z :=
  x <- get_port p ;;
  if negb (p_state x =? IPC_PORT_STATE_LISTENING) then ret IPC_HANDLE_POLL_ERROR
  else match pending_list x with
       | [] => ret 0
       | _ => ret IPC_HANDLE_POLL_READY
       end.

Definition check_access (x : port) (u : option uuid) : Z :=
  match u with
  | None => ERR_ACCESS_DENIED
  | Some u =>
      if is_ns_client u then
        if has_flag (p_flags x) IPC_PORT_ALLOW_NS_CONNECT then NO_ERROR else ERR_ACCESS_DENIED
      else
        if has_flag (p_flags x) IPC_PORT_ALLOW_TA_CONNECT then NO_ERROR else ERR_ACCESS_DENIED
  end.

(** What the allocator answers during an attach: the server object, and for
    the queues of client and server whether the queue and its buffer (with
    the bytes found in it) are given. *)
Record allocs := Allocs {
  a_server : bool;
  a_client_mq : bool * option (list Z);
  a_server_mq : bool * option (list Z)
}.

Definition port_attach_client (a : allocs) (p c : Z) : M heap Z :=
  x <- get_port p ;;
  if negb (p_state x =? IPC_PORT_STATE_LISTENING) then ret ERR_NOT_READY
  else
    client <- get_chan c ;;
    let err := check_access x (Some (c_uuid client)) in
    if negb (err =? NO_ERROR) then ret err
    else
      o <- chan_alloc (a_server a) IPC_CHAN_FLAG_SERVER (p_uuid x) ;;
      match o with
      | None => ret ERR_NO_MEMORY
      | Some s =>
          match ipc_msg_queue_create (a_client_mq a).1 (a_client_mq a).2 (num_recv_bufs x) (recv_buf_size x) with
          | (_, None) => chan_del_ref s TmpRef ;;; ret ERR_NO_MEMORY
          | (_, Some cmq) =>
              upd_chan c (set_mq (Some cmq)) ;;;
              match ipc_msg_queue_create (a_server_mq a).1 (a_server_mq a).2 (num_recv_bufs x) (recv_buf_size x) with
              | (_, None) =>
                  upd_chan c (set_mq None) ;;;
                  chan_del_ref s TmpRef ;;;
                  ret ERR_NO_MEMORY
              | (_, Some smq) =>
                  upd_chan s (set_mq (Some smq)) ;;;
                  upd_chan s (set_state ACCEPTING) ;;;
                  upd_chan c (set_state CONNECTING) ;;;
                  chan_add_ref s (PeerRef c) ;;;
                  upd_chan c (set_peer (Some s)) ;;;
                  chan_add_ref c (PeerRef s) ;;;
                  upd_chan s (set_peer (Some c)) ;;;
                  chan_add_ref s NodeRef ;;;
                  upd_port p (fun x => set_pending (pending_list x ++ [s]) x) ;;;
                  upd_chan s (set_node (Some (Pending p))) ;;;
                  port_incref p ;;;
                  notify_port p ;;;
                  chan_del_ref s TmpRef ;;;
                  ret NO_ERROR
              end
          end
      end.

(** The answers of the hypervisor: may the guest reach this service? *)
Section Hyp.
Context (trusty_hyp_check_guest_access : Z -> uuid -> Z).

(** The loop of [ipc_port_publish] over the clients that wait; [al] are the
    answers of the allocator for the successive attaches. *)
Fixpoint publish_loop (al : nat -> allocs) (i : nat) (p : Z) (l : list Z) (ret_ : Z) : M heap Z :=
  match l with
  | [] => ret ret_
  | c :: l =>
      x <- get_port p ;;
      client <- get_chan c ;;
      path <- deref (c_path client) ;;
      if negb (bool_decide (path = p_path x)) then publish_loop al i p l ret_
      else
        upd_chan c (set_c_path None) ;;;
        chan_add_ref c TmpRef ;;;
        chan_unlink c ;;;
        chan_del_ref c NodeRef ;;;
        let ret_ := trusty_hyp_check_guest_access (guest_id (c_handle client)) (p_uuid x) in
        (if negb (ret_ =? 0) then ret tt
         else
           err <- port_attach_client (al i) p c ;;
           if negb (err =? 0) then chan_shutdown_locked c else ret tt) ;;;
        chan_del_ref c TmpRef ;;;
        publish_loop al (S i) p l ret_
  end.

Definition ipc_port_publish (al : nat -> allocs) (p : Z) : M heap Z :=
  h <- get ;;
  assert_ (negb (bool_decide (p ∈ ipc_port_list h))) ;;;
  x <- get_port p ;;
  o <- port_find_locked (p_path x) ;;
  match o with
  | Some _ => ret ERR_ALREADY_EXISTS
  | None =>
      upd_port p (set_p_state IPC_PORT_STATE_LISTENING) ;;;
      modify (fun h => set_port_list (ipc_port_list h ++ [p]) h) ;;;
      port_incref p ;;;
      h <- get ;;
      publish_loop al 0 p (waiting_list h) NO_ERROR
  end.

(** [path] is the buffer of [max_path] bytes that the caller passes. *)
Definition ipc_port_connect_async (ok : bool) (a : allocs) (strdup : bool) (guest : Z) (cid : option uuid)
    (path : list Z) (max_path flags : Z) : M heap (Z * option hptr) :=
  match cid with
  | None => ret (ERR_INVALID_ARGS, None)
  | Some cid =>
      let len := Z.min (Z.of_nat (length (cstr path))) max_path in
      if (len =? 0) || (max_path <=? len) then ret (ERR_INVALID_ARGS, None)
      else
        o <- chan_alloc ok 0 cid ;;
        match o with
        | None => ret (ERR_NO_MEMORY, None)
        | Some c =>
            o <- port_find_locked (cstr path) ;;
            r <- match o with
                 | Some p =>
                     x <- get_port p ;;
                     let err := trusty_hyp_check_guest_access guest (p_uuid x) in
                     if negb (err =? 0) then ret err
                     else
                       put_port p (set_p_handle (set_guest guest (p_handle x)) x) ;;;
                       port_attach_client a p c
                 | None =>
                     if negb (has_flag flags IPC_CONNECT_WAIT_FOR_PORT) then ret ERR_NOT_FOUND
                     else if negb strdup then ret ERR_NO_MEMORY
                     else
                       upd_chan c (set_c_path (Some (cstr path))) ;;;
                       upd_chan c (set_state WAITING_FOR_PORT) ;;;
                       modify (fun h => set_waiting (waiting_list h ++ [c]) h) ;;;
                       upd_chan c (set_node (Some Waiting)) ;;;
                       chan_add_ref c NodeRef ;;;
                       ret NO_ERROR
                 end ;;
            if negb (r =? 0) then chan_del_ref c TmpRef ;;; ret (r, None)
            else
              hp <- chan_handle_init c ;;
              upd_chan c (fun x => set_handle (set_guest guest (c_handle x)) x) ;;;
              chan_del_ref c TmpRef ;;;
              ret (NO_ERROR, Some hp)
        end
  end.
End Hyp.

(** The result is the return code, the new handle and the uuid of the peer. *)
Definition ipc_port_accept (hp : option hptr) : M heap (Z * option (hptr * uuid)) :=
  match hp with
  | Some (HPort p) =>
      x <- get_port p ;;
      if negb (p_state x =? IPC_PORT_STATE_LISTENING) then ret (ERR_CHANNEL_CLOSED, None)
      else
        match pending_list x with
        | [] => ret (ERR_NO_MSG, None)
        | s :: _ =>
            chan_unlink s ;;;
            server <- get_chan s ;;
            assert_ (has_flag (c_flags server) IPC_CHAN_FLAG_SERVER) ;;;
            chan_add_ref s TmpRef ;;;
            chan_del_ref s NodeRef ;;;
            port_decref p ;;;
            server <- get_chan s ;;
            r <- match peer server with
                 | None => ret None
                 | Some c =>
                     client <- get_chan c ;;
                     if bool_decide (c_state server = ACCEPTING) && bool_decide (c_state client = CONNECTING)
                     then ret (Some (c, client)) else ret None
                 end ;;
            match r with
            | None =>
                chan_shutdown_locked s ;;;
                chan_del_ref s TmpRef ;;;
                ret (ERR_CHANNEL_CLOSED, None)
            | Some (c, client) =>
                upd_chan s (set_state CONNECTED) ;;;
                upd_chan c (set_state CONNECTED) ;;;
                upd_chan c (fun x => set_aux (Z.lor (aux_state x) AUX_CONNECTED) x) ;;;
                nh <- chan_handle_init s ;;
                upd_chan s (fun x => set_handle (set_guest (guest_id (c_handle client)) (c_handle x)) x) ;;;
                notify_chan c ;;;
                chan_del_ref s TmpRef ;;;
                ret (NO_ERROR, Some (nh, c_uuid client))
            end
        end
  | _ => ret (ERR_INVALID_ARGS, None)
  end.

(** The loop of [port_shutdown] over the pending connections. *)
Fixpoint shutdown_loop (p : Z) (l : list Z) : M heap unit :=
  match l with
  | [] => ret tt
  | s :: l =>
      chan_shutdown_locked s ;;;
      chan_unlink s ;;;
      chan_del_ref s NodeRef ;;;
      port_decref p ;;;
      shutdown_loop p l
  end.

Definition port_shutdown (p : Z) : M heap unit :=
  upd_port p (set_p_state IPC_PORT_STATE_CLOSING) ;;;
  h <- get ;;
  (if bool_decide (p ∈ ipc_port_list h) then
     modify (fun h => set_port_list (remove_first p (ipc_port_list h)) h) ;;;
     port_decref p
   else ret tt) ;;;
  x <- get_port p ;;
  shutdown_loop p (pending_list x).

Definition handle_close (x : hptr) : M heap unit :=
  match x with
  | HPort p => port_shutdown p
  | HChan c => chan_shutdown_locked c
  end ;;;
  handle_decref x.

(** ** Messages on channels ([ipc_msg.c]) *)

(** A queue operation, run on the user memory of the heap. *)
Definition on_user {A} (m : M mem A) : M heap A :=
  fun h => match m (user h) with
           | Done a u => Done a (set_user u h)
           | Crash w => Crash w
           end.

(** The channel behind a handle, or the error. *)
Definition check_channel_locked (x : option hptr) : Z + Z :=
  match x with
  | Some (HChan c) => inr c
  | _ => inl ERR_INVALID_ARGS
  end.

Definition check_channel_connected_locked (x : option hptr) : M heap (Z + Z) :=
  match check_channel_locked x with
  | inl e => ret (inl e)
  | inr c =>
      ch <- get_chan c ;;
      match c_state ch with
      | CONNECTED => assert_ (bool_decide (is_Some (peer ch))) ;;; ret (inr c)
      | DISCONNECTING => ret (inl ERR_CHANNEL_CLOSED)
      | _ => ret (inl ERR_NOT_READY)
      end
  end.

Definition msg_write_locked (c : Z) (msg : msg_desc) : M heap Z :=
  ch <- get_chan c ;;
  q <- deref (peer ch) ;;
  pch <- get_chan q ;;
  mq <- deref (msg_queue pch) ;;
  if bool_decide (free_list mq = []) then
    upd_chan c (fun x => set_aux (Z.lor (aux_state x) AUX_SEND_BLOCKED) x) ;;;
    ret ERR_NOT_ENOUGH_BUFFER
  else
    r <- on_user (write_item mq msg) ;;
    upd_chan q (set_mq (Some r.2)) ;;;
    ret r.1.

Definition ipc_send_msg (x : option hptr) (msg : msg_desc) : M heap Z :=
  o <- check_channel_connected_locked x ;;
  match o with
  | inl e => ret e
  | inr c =>
      r <- msg_write_locked c msg ;;
      (if 0 <=? r then
         ch <- get_chan c ;;
         q <- deref (peer ch) ;;
         notify_chan q
       else ret tt) ;;;
      ret r
  end.

(** The result is the return code and what [msg_info] holds. *)
Definition ipc_get_msg (x : option hptr) : M heap (Z * option ipc_msg_info) :=
  match check_channel_locked x with
  | inl e => ret (e, None)
  | inr c =>
      ch <- get_chan c ;;
      mq <- deref (msg_queue ch) ;;
      r <- on_user (msg_peek_next_filled_locked mq) ;;
      if r.1 =? NO_ERROR then
        mq <- on_user (msg_get_filled_locked mq) ;;
        upd_chan c (set_mq (Some mq)) ;;;
        ret r
      else ret r
  end.

Definition ipc_read_msg (x : option hptr) (msg_id offset : Z) (msg : msg_desc) : M heap Z :=
  match check_channel_locked x with
  | inl e => ret e
  | inr c =>
      ch <- get_chan c ;;
      mq <- deref (msg_queue ch) ;;
      on_user (msg_read_locked mq msg_id offset msg)
  end.

Definition msg_put_read_locked (c msg_id : Z) : M heap Z :=
  ch <- get_chan c ;;
  assert_ (bool_decide (is_Some (msg_queue ch))) ;;;
  mq <- deref (msg_queue ch) ;;
  r <- on_user (put_item mq msg_id) ;;
  upd_chan c (set_mq (Some r.2)) ;;;
  if negb (r.1 =? NO_ERROR) then ret r.1
  else
    match peer ch with
    | None => ret NO_ERROR
    | Some q =>
        pch <- get_chan q ;;
        (if has_flag (aux_state pch) AUX_SEND_BLOCKED then
           upd_chan q (fun x => set_aux (Z.lor (Z.land (aux_state x) (u32 (Z.lnot AUX_SEND_BLOCKED)))
                                           AUX_SEND_UNBLOCKED) x) ;;;
           notify_chan q
         else ret tt) ;;;
        ret NO_ERROR
    end.

Definition ipc_put_msg (x : option hptr) (msg_id : Z) : M heap Z :=
  match check_channel_locked x with
  | inl e => ret e
  | inr c => msg_put_read_locked c msg_id
  end.

End Ipc.
