(* ===== verification/IpcInv.v ===== *)
(** * The object graph of ports and channels stays sound

    The invariant of the heap of [Ipc]: every reference that an object lists
    is owed to exactly one holder, the lists and the [node] fields agree, the
    two sides of a connection are in matching states, and the counter of a
    port covers its list, its pending connections and its handles. *)

From S2P Require Import Prelude Iovec MsgQueue Handle Ipc.

Module IpcInv.
Import Iovec MsgQueue Handle Ipc.

(** ** The invariant

    [tmp]: channels that a running function holds a local reference to;
    [wip]: channels it is setting up or taking down; [owe]: a reference
    still listed by a channel whose holder is gone. *)
Record ghost := Ghost { tmp : gset Z; wip : gset Z; owe : option (Z * ref) }.

Definition quiet : ghost := Ghost ∅ ∅ None.

Definition peer_of (h : heap) (q : Z) : option Z := chans h !! q ≫= peer.

(** The states of the two sides of a connection. *)
Definition pair_ok (a b : chan_state) : bool :=
  match a, b with
  | ACCEPTING, CONNECTING | CONNECTING, ACCEPTING | CONNECTED, CONNECTED | DISCONNECTING, DISCONNECTING => true
  | _, _ => false
  end.

Definition ref_due (g : ghost) (h : heap) (c : Z) (x : chan) (r : ref) : Prop :=
  match r with
  | HandleRef => 0 < refcnt (c_handle x)
  | NodeRef => is_Some (node x)
  | PeerRef q => peer_of h q = Some c
  | TmpRef => c ∈ tmp g
  end.

Record refs_ok (g : ghost) (h : heap) (c : Z) (x : chan) : Prop := {
  r_nodup : NoDup (refs x);
  r_some : refs x <> [];
  r_due : forall r, r ∈ refs x <-> ref_due g h c x r \/ owe g = Some (c, r);
  r_owe : forall r, owe g = Some (c, r) -> ~ ref_due g h c x r
}.

(** What a state says about the rest of the object. *)
Definition state_ok (g : ghost) (c : Z) (x : chan) : Prop :=
  match c_state x with
  | INVALID => False
  | WAITING_FOR_PORT =>
      peer x = None /\ node x = Some Waiting /\ is_Some (c_path x) /\ (0 < refcnt (c_handle x) \/ c ∈ tmp g)
  | ACCEPTING =>
      is_Some (peer x) /\ is_Some (msg_queue x) /\ refcnt (c_handle x) = 0 /\
      has_flag (c_flags x) IPC_CHAN_FLAG_SERVER = true /\
      ((exists p, node x = Some (Pending p)) \/ (node x = None /\ c ∈ tmp g))
  | CONNECTING | CONNECTED => is_Some (peer x) /\ is_Some (msg_queue x) /\ node x = None
  | DISCONNECTING =>
      node x = None \/ (exists p, node x = Some (Pending p) /\ refcnt (c_handle x) = 0 /\
                          has_flag (c_flags x) IPC_CHAN_FLAG_SERVER = true)
  end.

Definition wip_ok (x : chan) : Prop :=
  peer x = None /\ node x = None /\ (c_state x = INVALID \/ c_state x = WAITING_FOR_PORT).

Record chan_ok (g : ghost) (c : Z) (x : chan) : Prop := {
  c_cnt : 0 <= refcnt (c_handle x);
  c_mq : forall mq, msg_queue x = Some mq -> mq_wf mq;
  c_held : is_Some (peer x) -> 0 < refcnt (c_handle x) \/ is_Some (node x) \/ c ∈ tmp g;
  c_st : (c ∈ wip g /\ wip_ok x) \/ (c ∉ wip g /\ state_ok g c x)
}.

Definition peer_ok (h : heap) (c : Z) (x : chan) : Prop :=
  forall q, peer x = Some q -> q <> c /\ exists y, chans h !! q = Some y /\
    pair_ok (c_state x) (c_state y) = true /\ (c_state x <> DISCONNECTING -> peer y = Some c).

(** References to a port beyond its list and its pending connections: those
    of its handles. *)
Definition port_ext (h : heap) (p : Z) (y : port) : Z :=
  refcnt (p_handle y) - (if bool_decide (p ∈ ipc_port_list h) then 1 else 0)
    - Z.of_nat (length (pending_list y)).

Record port_ok (h : heap) (p : Z) (y : port) : Prop := {
  p_ext : 0 <= port_ext h p y;
  p_cnt : 0 < refcnt (p_handle y);
  p_bufs : 0 < num_recv_bufs y <= 32 /\ 0 < recv_buf_size y <= 4096;
  p_nodup : NoDup (pending_list y);
  p_pend : forall c, c ∈ pending_list y <-> exists x, chans h !! c = Some x /\ node x = Some (Pending p);
  p_list : p ∈ ipc_port_list h <-> p_state y = IPC_PORT_STATE_LISTENING
}.

Record inv (g : ghost) (h : heap) : Prop := {
  i_refs : forall c x, chans h !! c = Some x -> refs_ok g h c x;
  i_chan : forall c x, chans h !! c = Some x -> chan_ok g c x;
  i_peer : forall c x, chans h !! c = Some x -> peer_ok h c x;
  i_port : forall p y, ports h !! p = Some y -> port_ok h p y;
  i_node : forall c x p, chans h !! c = Some x -> node x = Some (Pending p) -> is_Some (ports h !! p);
  i_wait : forall c, c ∈ waiting_list h <-> exists x, chans h !! c = Some x /\ node x = Some Waiting;
  i_wait_nodup : NoDup (waiting_list h);
  i_list : NoDup (ipc_port_list h) /\ forall p, p ∈ ipc_port_list h -> is_Some (ports h !! p);
  i_fresh : forall i, next_obj h <= i -> chans h !! i = None /\ ports h !! i = None
}.

(** ** Updates of one channel

    [upd c x' h] replaces channel [c]. *)
Definition upd (c : Z) (x : chan) (h : heap) : heap := set_chans (<[c := x]> (chans h)) h.

Lemma peer_of_upd c x h q : peer_of (upd c x h) q = if decide (q = c) then peer x else peer_of h q.
Proof.
  unfold peer_of, upd. simpl. destruct (decide (q = c)) as [->|]; [by rewrite lookup_insert_eq|].
  by rewrite lookup_insert_ne.
Qed.

Lemma upd_lookup c x h d y : chans (upd c x h) !! d = Some y ->
  (d = c /\ y = x) \/ (d <> c /\ chans h !! d = Some y).
Proof. unfold upd. simpl. destruct (decide (d = c)) as [->|]; rewrite ?lookup_insert_eq, ?lookup_insert_ne by done; naive_solver. Qed.

(** The graph sees a channel through these fields only; the state of a
    channel that nobody points to matters to itself only. *)
Definition same_view (x x' : chan) : Prop :=
  peer x' = peer x /\ c_state x' = c_state x /\ node x' = node x.

Definition view_ok (h : heap) (c : Z) (x x' : chan) : Prop :=
  peer x' = peer x /\ node x' = node x /\
  (c_state x' = c_state x \/
   (peer x = None /\ forall d z, chans h !! d = Some z -> peer z <> Some c)).

Lemma same_view_ok h c x x' : same_view x x' -> view_ok h c x x'.
Proof. intros (? & ? & ?). split_and!; auto. Qed.

Lemma peer_of_view h c x x' q : chans h !! c = Some x -> peer x' = peer x ->
  peer_of (upd c x' h) q = peer_of h q.
Proof.
  intros Hx Hv. rewrite peer_of_upd. destruct (decide (q = c)) as [->|]; [|done].
  unfold peer_of. by rewrite Hx.
Qed.

(** Replacing a channel by one with the same view: only its own references
    and its own shape have to be checked. *)
Lemma inv_same_view g g' h c x x' : inv g h -> chans h !! c = Some x -> view_ok h c x x' ->
  refs_ok g' (upd c x' h) c x' -> chan_ok g' c x' ->
  (forall d y, d <> c -> chans h !! d = Some y -> refs_ok g h d y -> refs_ok g' h d y) ->
  (forall d y, d <> c -> chans h !! d = Some y -> chan_ok g d y -> chan_ok g' d y) ->
  inv g' (upd c x' h).
Proof.
  intros Hi Hx (Hp & Hn & Hs) Hr Hc Hro Hco.
  assert (Hpo : forall q, peer_of (upd c x' h) q = peer_of h q) by (intros; by eapply peer_of_view).
  split.
  - intros d y [[-> ->]|[Hd Hy]]%upd_lookup; [done|].
    destruct (Hro d y Hd Hy (i_refs _ _ Hi d y Hy)) as [H1 H2 H3 H4]. split; auto.
    + intros r. rewrite H3. destruct r; simpl; try done. by rewrite Hpo.
    + intros r Hor. specialize (H4 r Hor). destruct r; simpl in *; try done. by rewrite Hpo.
  - intros d y [[-> ->]|[Hd Hy]]%upd_lookup; [done|]. apply (Hco d y Hd Hy), (i_chan _ _ Hi d y Hy).
  - intros d y [[-> ->]|[Hd Hy]]%upd_lookup q Hq.
    + rewrite Hp in Hq. destruct (i_peer _ _ Hi c x Hx q Hq) as (Hne & z & Hz & Hok & Hb).
      split; [done|]. exists z. destruct Hs as [Hs|[Hs _]]; [|congruence].
      rewrite Hs. simpl. by rewrite lookup_insert_ne.
    + destruct (i_peer _ _ Hi d y Hy q Hq) as (Hne & z & Hz & Hok & Hb). split; [done|].
      destruct (decide (q = c)) as [->|].
      * destruct Hs as [Hs|[_ Hs]]; [|by destruct (Hs d y Hy)].
        exists x'. simpl. rewrite lookup_insert_eq. rewrite Hp, Hs. simplify_eq. done.
      * exists z. simpl. by rewrite lookup_insert_ne.
  - intros p y Hy. destruct (i_port _ _ Hi p y Hy) as [H1 H2 H3 H4 H5 H6]. split; auto.
    intros d. rewrite H5. simpl. split; intros (z & Hz & Hnz).
    + destruct (decide (d = c)) as [->|]; [|exists z; by rewrite lookup_insert_ne].
      exists x'. rewrite lookup_insert_eq, Hn. simplify_eq. done.
    + destruct (decide (d = c)) as [->|]; [|exists z; by rewrite lookup_insert_ne in Hz].
      rewrite lookup_insert_eq in Hz. simplify_eq. exists x. by rewrite <- Hn.
  - intros d y p [[-> ->]|[Hd Hy]]%upd_lookup Hpn.
    + rewrite Hn in Hpn. by eapply (i_node _ _ Hi).
    + by eapply (i_node _ _ Hi).
  - intros d. simpl. rewrite (i_wait _ _ Hi d). split; intros (z & Hz & Hnz).
    + destruct (decide (d = c)) as [->|]; [|exists z; by rewrite lookup_insert_ne].
      exists x'. rewrite lookup_insert_eq, Hn. simplify_eq. done.
    + destruct (decide (d = c)) as [->|]; [|exists z; by rewrite lookup_insert_ne in Hz].
      rewrite lookup_insert_eq in Hz. simplify_eq. exists x. by rewrite <- Hn.
  - apply (i_wait_nodup _ _ Hi).
  - apply (i_list _ _ Hi).
  - intros i Hlt. destruct (i_fresh _ _ Hi i Hlt) as [H1 H2]. simpl. split; [|done].
    rewrite lookup_insert_ne; [done|]. intros ->. congruence.
Qed.

Lemma state_ok_ext g g' c x x' : peer x' = peer x -> c_state x' = c_state x -> node x' = node x ->
  refcnt (c_handle x') = refcnt (c_handle x) -> c_flags x' = c_flags x ->
  (is_Some (msg_queue x) -> is_Some (msg_queue x')) ->
  (c_state x = WAITING_FOR_PORT -> is_Some (c_path x) -> is_Some (c_path x')) ->
  (c ∈ tmp g -> c ∈ tmp g') -> state_ok g c x -> state_ok g' c x'.
Proof.
  intros Hp Hs Hn Hr Hf Hm Hpa Ht. unfold state_ok. rewrite Hs, Hp, Hn, Hr, Hf.
  destruct (c_state x); intuition eauto.
Qed.

(** A change of fields the graph does not depend on. *)
#[local] Hint Resolve same_view_ok : core.

Lemma inv_fields g h c x x' : inv g h -> chans h !! c = Some x -> same_view x x' ->
  refs x' = refs x -> refcnt (c_handle x') = refcnt (c_handle x) -> c_flags x' = c_flags x ->
  (forall mq, msg_queue x' = Some mq -> mq_wf mq) -> (is_Some (msg_queue x) -> is_Some (msg_queue x')) ->
  (c ∉ wip g -> c_state x = WAITING_FOR_PORT -> is_Some (c_path x) -> is_Some (c_path x')) ->
  inv g (upd c x' h).
Proof.
  intros Hi Hx Hv Hr Hc Hf Hm Hms Hpa. pose proof Hv as (Hp & Hs & Hn).
  eapply inv_same_view; eauto.
  - destruct (i_refs _ _ Hi c x Hx) as [H1 H2 H3 H4].
    assert (Hd : forall r, ref_due g (upd c x' h) c x' r <-> ref_due g h c x r).
    { intros []; simpl; rewrite ?Hc, ?Hn; try done. by erewrite peer_of_view. }
    split; rewrite ?Hr; auto.
    + intros r. by rewrite H3, Hd.
    + intros r Hor. rewrite Hd. auto.
  - destruct (i_chan _ _ Hi c x Hx) as [H1 H2 H3 H4]. split; rewrite ?Hc, ?Hp, ?Hn; auto.
    destruct H4 as [[Hw H4]|[Hw H4]]; [left|right]; (split; [done|]).
    + unfold wip_ok in *. by rewrite Hp, Hn, Hs.
    + eapply state_ok_ext; eauto.
Qed.

(** ** Paying a reference that is owed *)

Definition settle (g : ghost) : ghost := Ghost (tmp g) (wip g) None.

Lemma peer_of_delete c h q :
  peer_of (set_chans (delete c (chans h)) h) q = if decide (q = c) then None else peer_of h q.
Proof.
  unfold peer_of. simpl. destruct (decide (q = c)) as [->|]; [by rewrite lookup_delete_eq|].
  by rewrite lookup_delete_ne.
Qed.

Section Pay.
Context (g : ghost) (h : heap) (c : Z) (x : chan) (r : ref).
Context (Hi : inv g h) (Ho : owe g = Some (c, r)) (Hx : chans h !! c = Some x).

Lemma owe_others d y : d <> c -> refs_ok g h d y -> refs_ok (settle g) h d y.
Proof.
  intros Hd [H1 H2 H3 H4]. split; auto; [|done].
  intros r'. rewrite H3. rewrite Ho. simpl. unfold ref_due. simpl. naive_solver.
Qed.

Lemma owe_chan d y : chan_ok g d y -> chan_ok (settle g) d y.
Proof. intros [H1 H2 H3 H4]. by split. Qed.

Lemma pay_rest : remove_first r (refs x) <> [] ->
  inv (settle g) (upd c (set_refs (remove_first r (refs x)) x) h).
Proof.
  intros Hne. eapply inv_same_view; eauto using owe_others, owe_chan; [by apply same_view_ok| |].
  - destruct (i_refs _ _ Hi c x Hx) as [H1 H2 H3 H4].
    split; simpl; auto using remove_first_NoDup; [|done].
    intros r'. rewrite elem_of_remove_first by done. rewrite H3.
    assert (Hd : ref_due (settle g) (upd c (set_refs (remove_first r (refs x)) x) h) c
                   (set_refs (remove_first r (refs x)) x) r' <-> ref_due g h c x r').
    { destruct r'; simpl; try done. by erewrite peer_of_view. }
    rewrite Hd. rewrite Ho. specialize (H4 r Ho). split.
    + intros [[?|[= <-]] ?]; [by left|done].
    + intros [?|?]; [|done]. split; [by left|]. congruence.
  - destruct (i_chan _ _ Hi c x Hx) as [H1 H2 H3 H4]. by split.
Qed.

Lemma pay_last : remove_first r (refs x) = [] -> peer x = None /\ node x = None /\
  inv (settle g) (set_chans (delete c (chans h)) h).
Proof.
  intros He. destruct (i_refs _ _ Hi c x Hx) as [H1 H2 H3 H4].
  assert (Hno : forall r', ~ ref_due g h c x r').
  { intros r' Hd. assert (Hin : r' ∈ remove_first r (refs x)).
    { apply elem_of_remove_first; [done|]. split; [apply H3; by left|]. intros ->. by apply (H4 r Ho). }
    rewrite He in Hin. set_solver. }
  assert (Hn : node x = None).
  { destruct (node x) eqn:E; [|done]. destruct (Hno NodeRef). simpl. rewrite E. eauto. }
  assert (Hp : peer x = None).
  { destruct (peer x) eqn:E; [|done].
    destruct (c_held _ _ _ (i_chan _ _ Hi c x Hx)) as [H|[H|H]]; [rewrite E; eauto|..];
      [by destruct (Hno HandleRef)|by destruct (Hno NodeRef)|by destruct (Hno TmpRef)]. }
  assert (Hpo : forall q, peer_of (set_chans (delete c (chans h)) h) q = peer_of h q).
  { intros q. rewrite peer_of_delete. destruct (decide (q = c)) as [->|]; [|done].
    unfold peer_of. by rewrite Hx. }
  assert (Hl : forall d y, delete c (chans h) !! d = Some y -> d <> c /\ chans h !! d = Some y).
  { intros d y Hd. apply lookup_delete_Some in Hd. naive_solver. }
  split; [done|]. split; [done|]. split; simpl.
  - intros d y [Hd Hy]%Hl. destruct (owe_others d y Hd (i_refs _ _ Hi d y Hy)) as [G1 G2 G3 G4].
    split; auto.
    + intros r'. rewrite G3. destruct r'; simpl; try done. by rewrite Hpo.
    + done.
  - intros d y [Hd Hy]%Hl. apply owe_chan, (i_chan _ _ Hi d y Hy).
  - intros d y [Hd Hy]%Hl q Hq. destruct (i_peer _ _ Hi d y Hy q Hq) as (Hne & z & Hz & Hok & Hb).
    split; [done|]. exists z. split; [|done]. simpl. rewrite lookup_delete_ne; [done|].
    intros <-. destruct (Hno (PeerRef d)). simpl. unfold peer_of. by rewrite Hy.
  - intros p y Hy. destruct (i_port _ _ Hi p y Hy) as [G1 G2 G3 G4 G5 G6]. split; auto.
    intros d. rewrite G5. simpl. split; intros (z & Hz & Hnz).
    + exists z. rewrite lookup_delete_ne; [done|]. intros <-. congruence.
    + apply Hl in Hz as [_ Hz]. eauto.
  - intros d y p [Hd Hy]%Hl. by eapply (i_node _ _ Hi).
  - intros d. rewrite (i_wait _ _ Hi d). split; intros (z & Hz & Hnz).
    + exists z. rewrite lookup_delete_ne; [done|]. intros <-. congruence.
    + apply Hl in Hz as [_ Hz]. eauto.
  - apply (i_wait_nodup _ _ Hi).
  - apply (i_list _ _ Hi).
  - intros i Hlt. destruct (i_fresh _ _ Hi i Hlt) as [G1 G2]. split; [|done].
    destruct (decide (i = c)) as [->|]; [by rewrite lookup_delete_eq|by rewrite lookup_delete_ne].
Qed.
End Pay.

(** What [chan_del_ref] leaves of channel [c]. *)
Definition del_post (c : Z) (x : chan) (r : ref) (h h' : heap) : Prop :=
  (remove_first r (refs x) <> [] /\ h' = upd c (set_refs (remove_first r (refs x)) x) h) \/
  (remove_first r (refs x) = [] /\ peer x = None /\ node x = None /\ h' = set_chans (delete c (chans h)) h).

(** ** Running the primitives *)

Lemma runs_get_chan c x h (Q : chan -> heap -> Prop) : chans h !! c = Some x -> Q x h -> runs (get_chan c) h Q.
Proof. intros Hx HQ. unfold runs, get_chan, bind, get. by rewrite Hx. Qed.

Lemma runs_get_port p y h (Q : port -> heap -> Prop) : ports h !! p = Some y -> Q y h -> runs (get_port p) h Q.
Proof. intros Hx HQ. unfold runs, get_port, bind, get. by rewrite Hx. Qed.

Lemma runs_upd_chan c x f h (Q : unit -> heap -> Prop) : chans h !! c = Some x ->
  Q tt (upd c (f x) h) -> runs (upd_chan c f) h Q.
Proof. intros Hx HQ. unfold upd_chan. apply runs_bind. by eapply runs_get_chan. Qed.

Lemma runs_upd_port p y f h (Q : unit -> heap -> Prop) : ports h !! p = Some y ->
  Q tt (set_ports (<[p := f y]> (ports h)) h) -> runs (upd_port p f) h Q.
Proof. intros Hx HQ. unfold upd_port. apply runs_bind. by eapply runs_get_port. Qed.

Lemma runs_pay g h c x r (Q : unit -> heap -> Prop) : inv g h -> owe g = Some (c, r) -> chans h !! c = Some x ->
  (forall h', inv (settle g) h' -> del_post c x r h h' -> Q tt h') -> runs (chan_del_ref c r) h Q.
Proof.
  intros Hi Ho Hx HQ. unfold chan_del_ref. apply runs_bind. eapply runs_get_chan; [done|].
  apply runs_bind. apply runs_assert.
  { apply bool_decide_eq_true. apply (r_due _ _ _ _ (i_refs _ _ Hi c x Hx)). by right. }
  apply runs_bind. change (runs (put_chan c _) h ?P) with (P tt (upd c (set_refs (remove_first r (refs x)) x) h)).
  cbv beta. case_bool_decide as He.
  - destruct (pay_last g h c x r Hi Ho Hx He) as (Hp & Hn & Hi').
    unfold chan_destroy. apply runs_bind. eapply runs_get_chan; [apply lookup_insert_eq|].
    apply runs_bind, runs_assert; [by apply bool_decide_eq_true|].
    apply runs_bind, runs_assert; [by apply bool_decide_eq_true|].
    cbv [runs modify]. unfold upd. simpl.
    rewrite delete_insert_eq. apply HQ; [exact Hi'|]. right. done.
  - apply runs_ret, HQ; [by apply pay_rest|]. by left.
Qed.

(** ** Steps of the operations on the graph *)

(** [g'] differs from [g] about channel [c] only. *)
Definition ghost_off (c : Z) (g g' : ghost) : Prop :=
  forall d, d <> c -> (d ∈ tmp g' <-> d ∈ tmp g) /\ (d ∈ wip g' <-> d ∈ wip g) /\
    forall r, owe g' = Some (d, r) <-> owe g = Some (d, r).

Lemma refs_ok_ghost g g' h c d y : ghost_off c g g' -> d <> c -> refs_ok g h d y -> refs_ok g' h d y.
Proof.
  intros Hg Hd [H1 H2 H3 H4]. destruct (Hg d Hd) as (Ht & _ & Ho).
  assert (Hdue : forall r, ref_due g' h d y r <-> ref_due g h d y r) by (intros []; simpl; done).
  split; auto.
  - intros r. by rewrite H3, Hdue, Ho.
  - intros r Hr. rewrite Hdue. apply H4. by apply Ho.
Qed.

Lemma chan_ok_ghost g g' c d y : ghost_off c g g' -> d <> c -> chan_ok g d y -> chan_ok g' d y.
Proof.
  intros Hg Hd [H1 H2 H3 H4]. destruct (Hg d Hd) as (Ht & Hw & _). split; auto.
  - rewrite Ht. auto.
  - rewrite !Hw. destruct H4 as [?|[? ?]]; [by left|right]. split; [done|].
    apply (state_ok_ext g g' d y y); tauto.
Qed.

Lemma inv_local g g' h c x x' : inv g h -> chans h !! c = Some x -> view_ok h c x x' -> ghost_off c g g' ->
  refs_ok g' h c x' -> chan_ok g' c x' -> inv g' (upd c x' h).
Proof.
  intros Hi Hx Hv Hg Hr Hc. eapply inv_same_view; eauto using refs_ok_ghost, chan_ok_ghost.
  destruct Hr as [H1 H2 H3 H4].
  assert (Hdue : forall r, ref_due g' (upd c x' h) c x' r <-> ref_due g' h c x' r).
  { intros []; simpl; try done. erewrite peer_of_view; [done|done|apply Hv]. }
  split; auto.
  - intros r. by rewrite H3, Hdue.
  - intros r Hr. rewrite Hdue. auto.
Qed.

Lemma upd_id c x h : chans h !! c = Some x -> upd c x h = h.
Proof. intros Hx. unfold upd. rewrite insert_id by done. by destruct h. Qed.

Lemma inv_ghost g g' h c x : inv g h -> chans h !! c = Some x -> ghost_off c g g' ->
  refs_ok g' h c x -> chan_ok g' c x -> inv g' h.
Proof. intros. rewrite <- (upd_id c x h) by done. eapply inv_local; eauto. by apply same_view_ok. Qed.

Definition with_tmp (c : Z) (g : ghost) : ghost := Ghost ({[c]} ∪ tmp g) (wip g) (owe g).
Definition drop_tmp (c : Z) (g : ghost) : ghost := Ghost (tmp g ∖ {[c]}) (wip g) (Some (c, TmpRef)).

Lemma add_tmp_inv g h c x : inv g h -> owe g = None -> chans h !! c = Some x -> c ∉ tmp g ->
  inv (with_tmp c g) (upd c (set_refs (refs x ++ [TmpRef]) x) h).
Proof.
  intros Hi Ho Hx Hc. destruct (i_refs _ _ Hi c x Hx) as [H1 H2 H3 H4]. eapply inv_local; eauto.
  - by apply same_view_ok.
  - intros d Hd. simpl. set_solver.
  - assert (Hnot : TmpRef ∉ refs x) by (rewrite H3, Ho; simpl; naive_solver).
    split; simpl.
    + apply NoDup_app. split; [done|]. split; [set_solver|apply NoDup_singleton].
    + by destruct (refs x).
    + intros r. rewrite elem_of_app, list_elem_of_singleton, H3, Ho.
      destruct r; simpl; set_solver.
    + rewrite Ho. done.
  - destruct (i_chan _ _ Hi c x Hx) as [G1 G2 G3 G4]. split; simpl; auto.
    + intros Hp. specialize (G3 Hp). set_solver.
    + destruct G4 as [?|[? G4]]; [by left|right]. split; [done|].
      apply (state_ok_ext g _ c x); simpl; solve [tauto|set_solver].
Qed.

(** The local reference of [c] goes out of use. *)
Lemma drop_tmp_inv g h c x : inv g h -> owe g = None -> chans h !! c = Some x -> c ∈ tmp g ->
  (is_Some (peer x) -> 0 < refcnt (c_handle x) \/ is_Some (node x)) ->
  (c_state x = ACCEPTING -> is_Some (node x)) -> (c ∉ wip g -> c_state x = WAITING_FOR_PORT -> 0 < refcnt (c_handle x)) ->
  inv (drop_tmp c g) h.
Proof.
  intros Hi Ho Hx Hc Hheld Hacc Hwt. destruct (i_refs _ _ Hi c x Hx) as [H1 H2 H3 H4].
  eapply inv_ghost; eauto.
  - intros d Hd. rewrite Ho. simpl. set_solver.
  - split; simpl; auto.
    + intros r. rewrite H3, Ho. destruct r; simpl; first [naive_solver|set_solver].
    + intros r [= <-]. simpl. set_solver.
  - destruct (i_chan _ _ Hi c x Hx) as [G1 G2 G3 G4]. split; simpl; auto.
    + intros Hp. destruct (Hheld Hp); auto.
    + destruct G4 as [?|[? G4]]; [by left|right]. split; [done|].
      unfold state_ok in *. destruct (c_state x) eqn:E; auto.
      * destruct G4 as (? & ? & ? & ? & [?|[Hn _]]); [by auto 10|].
        destruct (Hacc eq_refl) as [? ?]. congruence.
      * destruct G4 as (? & ? & ? & _). auto 10.
Qed.

(** The first handle on [c]. *)
Lemma handle_init_inv g h c x hd : inv g h -> owe g = None -> chans h !! c = Some x ->
  refcnt (c_handle x) = 0 -> 0 < refcnt hd -> c ∉ wip g -> (c_state x = CONNECTED \/ c_state x = CONNECTING \/
    c_state x = WAITING_FOR_PORT) ->
  inv g (upd c (set_refs (refs x ++ [HandleRef]) (set_handle hd x)) h).
Proof.
  intros Hi Ho Hx H0 Hhd Hw Hst. destruct (i_refs _ _ Hi c x Hx) as [H1 H2 H3 H4].
  eapply inv_local; eauto; [by apply same_view_ok|done| |].
  - assert (Hnot : HandleRef ∉ refs x) by (rewrite H3, Ho; simpl; intros [?|?]; [lia|done]).
    split; simpl; rewrite ?Ho.
    + apply NoDup_app. split; [done|]. split; [set_solver|apply NoDup_singleton].
    + by destruct (refs x).
    + intros r. rewrite elem_of_app, list_elem_of_singleton, H3, Ho. destruct r; simpl; naive_solver lia.
    + done.
  - destruct (i_chan _ _ Hi c x Hx) as [G1 G2 G3 G4]. split; simpl; auto; [lia|].
    destruct G4 as [[? ?]|[? G4]]; [done|right]. split; [done|].
    unfold state_ok in *. simpl. destruct (c_state x); naive_solver.
Qed.

(** A handle reference goes; the last one leaves a debt. *)
Definition drop_handle (c : Z) (last : bool) (g : ghost) : ghost :=
  if last then Ghost (tmp g) (wip g) (Some (c, HandleRef)) else g.

Lemma decref_inv g h c x : inv g h -> owe g = None -> chans h !! c = Some x -> 0 < refcnt (c_handle x) ->
  (refcnt (c_handle x) = 1 -> is_Some (peer x) -> is_Some (node x) \/ c ∈ tmp g) ->
  (refcnt (c_handle x) = 1 -> c_state x <> WAITING_FOR_PORT) ->
  inv (drop_handle c (refcnt (c_handle x) =? 1) g)
    (upd c (set_handle (handle_decref_cnt (c_handle x)).1 x) h).
Proof.
  intros Hi Ho Hx H0 Hheld Hwt. destruct (i_refs _ _ Hi c x Hx) as [H1 H2 H3 H4].
  destruct (i_chan _ _ Hi c x Hx) as [G1 G2 G3 G4].
  assert (Hst : forall g', tmp g' = tmp g -> state_ok g c x ->
            state_ok g' c (set_handle (handle_decref_cnt (c_handle x)).1 x)).
  { intros g' Ht. unfold state_ok. simpl. rewrite Ht.
    destruct (c_state x) eqn:E; auto.
    - intros (_ & _ & ? & _). lia.
    - intros [?|(p & _ & ? & _)]; [by left|lia].
    - intros (? & ? & ? & _). split_and!; auto. left.
      assert (refcnt (c_handle x) <> 1) by (intros F; by apply (Hwt F)). lia. }
  eapply inv_local; eauto.
  - by apply same_view_ok.
  - unfold drop_handle. destruct (_ =? 1); [|done]. intros d Hd. simpl. rewrite Ho. set_solver.
  - unfold drop_handle. destruct (refcnt (c_handle x) =? 1) eqn:E; zbool; split; simpl; auto.
    + intros r. rewrite H3, Ho. destruct r; simpl; naive_solver lia.
    + intros r [= <-]. simpl. lia.
    + intros r. rewrite H3, Ho. destruct r; simpl; naive_solver lia.
    + rewrite Ho. done.
  - unfold drop_handle. destruct (refcnt (c_handle x) =? 1) eqn:E; zbool; split; simpl; auto; try lia.
    all: destruct G4 as [?|[? ?]]; [by left|right]; split; [done|]; by apply Hst.
Qed.

(** *** The two sides of a connection change together *)

(** [x'] has the place of [x] in the graph; its state may differ. *)
Definition same_place (x x' : chan) : Prop :=
  refs x' = refs x /\ peer x' = peer x /\ node x' = node x /\ refcnt (c_handle x') = refcnt (c_handle x).

(** Outside its partner, nobody points to a channel that is not disconnecting. *)
Lemma partner_unique g h c x q d z : inv g h -> chans h !! c = Some x -> peer x = Some q ->
  c_state x <> DISCONNECTING -> chans h !! d = Some z -> peer z = Some c -> d = q.
Proof.
  intros Hi Hx Hp Hs Hz Hpz. destruct (i_peer _ _ Hi d z Hz c Hpz) as (_ & x' & Hx' & Hok & Hb).
  rewrite Hx in Hx'. injection Hx' as <-.
  assert (Hsz : c_state z <> DISCONNECTING) by (intros E; rewrite E in Hok; by destruct (c_state x)).
  specialize (Hb Hsz). congruence.
Qed.

Lemma inv_pair g h c q x y x' y' : inv g h -> chans h !! c = Some x -> chans h !! q = Some y ->
  peer x = Some q -> c_state x <> DISCONNECTING ->
  same_place x x' -> same_place y y' -> pair_ok (c_state x') (c_state y') = true ->
  pair_ok (c_state y') (c_state x') = true -> chan_ok g c x' -> chan_ok g q y' ->
  inv g (upd q y' (upd c x' h)).
Proof.
  intros Hi Hx Hy Hp Hs (Hr1 & Hp1 & Hn1 & Hc1) (Hr2 & Hp2 & Hn2 & Hc2) Hok1 Hok2 Hco1 Hco2.
  destruct (i_peer _ _ Hi c x Hx q Hp) as (Hne & y0 & Hy0 & Hok & Hb). rewrite Hy in Hy0. injection Hy0 as <-.
  specialize (Hb Hs).
  assert (Hsy : c_state y <> DISCONNECTING) by (intros E; rewrite E in Hok; by destruct (c_state x)).
  set (h' := upd q y' (upd c x' h)).
  assert (Hl : forall d z, chans h' !! d = Some z ->
            (d = q /\ z = y') \/ (d = c /\ z = x') \/ (d <> c /\ d <> q /\ chans h !! d = Some z)).
  { intros d z [[-> ->]|[Hd Hz]]%upd_lookup; [by left|]. apply upd_lookup in Hz as [[-> ->]|[Hd' Hz]]; naive_solver. }
  assert (Hlc : chans h' !! c = Some x').
  { unfold h', upd. simpl. rewrite lookup_insert_ne by done. apply lookup_insert_eq. }
  assert (Hlq : chans h' !! q = Some y') by apply lookup_insert_eq.
  assert (Hlo : forall d, d <> c -> d <> q -> chans h' !! d = chans h !! d).
  { intros d H1 H2. unfold h', upd. simpl. by rewrite !lookup_insert_ne. }
  assert (Hnode : forall d l, (exists z, chans h' !! d = Some z /\ node z = l) <->
                              (exists z, chans h !! d = Some z /\ node z = l)).
  { intros d l. destruct (decide (d = c)) as [->|]; [rewrite Hlc, Hx; naive_solver|].
    destruct (decide (d = q)) as [->|]; [rewrite Hlq, Hy; naive_solver|]. by rewrite Hlo. }
  assert (Hpo : forall d, peer_of h' d = peer_of h d).
  { intros d. unfold peer_of. destruct (decide (d = c)) as [->|]; [by rewrite Hlc, Hx|].
    destruct (decide (d = q)) as [->|]; [by rewrite Hlq, Hy|]. by rewrite Hlo. }
  assert (Hrefs : forall d z z', chans h !! d = Some z -> refs z' = refs z -> node z' = node z ->
            refcnt (c_handle z') = refcnt (c_handle z) -> refs_ok g h' d z').
  { intros d z z' Hz Hrz Hnz Hcz. destruct (i_refs _ _ Hi d z Hz) as [G1 G2 G3 G4].
    assert (Hdue : forall r, ref_due g h' d z' r <-> ref_due g h d z r).
    { intros []; simpl; rewrite ?Hcz, ?Hnz, ?Hpo; done. }
    split; rewrite ?Hrz; auto; [intros r; by rewrite G3, Hdue|intros r Hr; rewrite Hdue; auto]. }
  split.
  - intros d z [[-> ->]|[[-> ->]|(H1 & H2 & Hz)]]%Hl; eauto.
  - intros d z [[-> ->]|[[-> ->]|(H1 & H2 & Hz)]]%Hl; auto. apply (i_chan _ _ Hi d z Hz).
  - intros d z [[-> ->]|[[-> ->]|(H1 & H2 & Hz)]]%Hl e He.
    + rewrite Hp2, Hb in He. injection He as <-. split; [done|]. exists x'. rewrite Hlc. split_and!; congruence.
    + rewrite Hp1, Hp in He. injection He as <-. split; [done|]. exists y'. rewrite Hlq. split_and!; congruence.
    + destruct (i_peer _ _ Hi d z Hz e He) as (Hne' & w & Hw & Hok' & Hb'). split; [done|]. exists w.
      destruct (decide (e = c)) as [->|].
      { destruct H2. by eapply (partner_unique g h c x q d z). }
      destruct (decide (e = q)) as [->|].
      { destruct H1. by eapply (partner_unique g h q y c d z). }
      by rewrite Hlo.
  - intros p w Hw. destruct (i_port _ _ Hi p w Hw) as [G1 G2 G3 G4 G5 G6]. split; auto.
    intros d. by rewrite G5, Hnode.
  - intros d z p Hz Hpn. destruct (proj1 (Hnode d (Some (Pending p)))) as (w & Hw & Hnw); [eauto|].
    by eapply (i_node _ _ Hi).
  - intros d. change (waiting_list h') with (waiting_list h). by rewrite (i_wait _ _ Hi d), Hnode.
  - apply (i_wait_nodup _ _ Hi).
  - apply (i_list _ _ Hi).
  - intros i Hlt. destruct (i_fresh _ _ Hi i Hlt) as [G1 G2]. split; [|done].
    rewrite Hlo; [done| |]; intros ->; congruence.
Qed.

(** *** A disconnecting channel lets go of its peer *)

Definition owing (c : Z) (r : ref) (g : ghost) : ghost := Ghost (tmp g) (wip g) (Some (c, r)).

Lemma cut_inv g h c x q : inv g h -> owe g = None -> chans h !! c = Some x -> peer x = Some q ->
  c_state x = DISCONNECTING -> inv (owing q (PeerRef c) g) (upd c (set_peer None x) h).
Proof.
  intros Hi Ho Hx Hp Hs. destruct (i_peer _ _ Hi c x Hx q Hp) as (Hne & y & Hy & Hok & _).
  set (h' := upd c _ h).
  assert (Hpo : forall d, peer_of h' d = if decide (d = c) then None else peer_of h d).
  { intros d. unfold h'. rewrite peer_of_upd. done. }
  assert (Hpc : peer_of h c = Some q) by (unfold peer_of; by rewrite Hx).
  assert (Hrefs : forall d z, refs_ok g h d z -> refs_ok (owing q (PeerRef c) g) h' d z).
  { intros d z [G1 G2 G3 G4]. split; auto.
    - intros r. rewrite G3, Ho. simpl. destruct r as [| |e|]; simpl; [naive_solver|naive_solver| |naive_solver].
      rewrite Hpo. case_decide; [subst; rewrite Hpc|]; naive_solver.
    - intros r [= <- <-]. simpl. rewrite Hpo, decide_True by done. done. }
  assert (Hchan : forall d z, chan_ok g d z -> chan_ok (owing q (PeerRef c) g) d z).
  { intros d z [G1 G2 G3 G4]. by split. }
  assert (Hnode : forall d l, (exists z, chans h' !! d = Some z /\ node z = l) <->
                              (exists z, chans h !! d = Some z /\ node z = l)).
  { intros d l. unfold h', upd. simpl. destruct (decide (d = c)) as [->|].
    - rewrite lookup_insert_eq, Hx. naive_solver.
    - by rewrite lookup_insert_ne. }
  split.
  - intros d z [[-> ->]|[Hd Hz]]%upd_lookup.
    + destruct (Hrefs c x (i_refs _ _ Hi c x Hx)) as [G1 G2 G3 G4]. split; auto.
    + apply Hrefs, (i_refs _ _ Hi d z Hz).
  - intros d z [[-> ->]|[Hd Hz]]%upd_lookup; [|apply Hchan, (i_chan _ _ Hi d z Hz)].
    destruct (Hchan c x (i_chan _ _ Hi c x Hx)) as [G1 G2 G3 G4]. split; simpl; auto; try (by intros [? ?]).
    destruct G4 as [[? (? & ?)]|[? G4]]; [congruence|right]. split; [done|].
    unfold state_ok in *. simpl. by rewrite Hs in *.
  - intros d z [[-> ->]|[Hd Hz]]%upd_lookup e He; [done|].
    destruct (i_peer _ _ Hi d z Hz e He) as (Hne' & w & Hw & Hok' & Hb'). split; [done|].
    destruct (decide (e = c)) as [->|].
    + exists (set_peer None x). unfold h'. simpl. rewrite lookup_insert_eq. simplify_eq.
      split; [done|]. split; [done|]. intros Hsz. rewrite Hs in Hok'. destruct (c_state z); done.
    + exists w. unfold h'. simpl. by rewrite lookup_insert_ne.
  - intros p w Hw. destruct (i_port _ _ Hi p w Hw) as [G1 G2 G3 G4 G5 G6]. split; auto.
    intros d. by rewrite G5, Hnode.
  - intros d z p Hz Hpn. destruct (proj1 (Hnode d (Some (Pending p)))) as (w & Hw & Hnw); [eauto|].
    by eapply (i_node _ _ Hi).
  - intros d. change (waiting_list h') with (waiting_list h). by rewrite (i_wait _ _ Hi d), Hnode.
  - apply (i_wait_nodup _ _ Hi).
  - apply (i_list _ _ Hi).
  - intros i Hlt. destruct (i_fresh _ _ Hi i Hlt) as [G1 G2]. split; [|done].
    unfold h'. simpl. rewrite lookup_insert_ne; [done|]. intros ->. congruence.
Qed.

(** *** Unlinking the node of a channel *)

Lemma unlink_lookup h h' c x d z : chans h' = <[c := set_node None x]> (chans h) -> chans h' !! d = Some z ->
  (d = c /\ z = set_node None x) \/ (d <> c /\ chans h !! d = Some z).
Proof. intros ->. intros [[-> <-]|[Hne Hz]]%lookup_insert_Some; naive_solver. Qed.

(** The nodes that are left. *)
Lemma unlink_node h h' c x d l : chans h' = <[c := set_node None x]> (chans h) -> l <> None ->
  (exists z, chans h' !! d = Some z /\ node z = l) <->
  (d <> c /\ exists z, chans h !! d = Some z /\ node z = l).
Proof.
  intros Hch Hl. rewrite Hch. split.
  - intros (z & Hz & Hn). destruct (decide (d = c)) as [->|].
    + rewrite lookup_insert_eq in Hz. by simplify_eq.
    + rewrite lookup_insert_ne in Hz by done. eauto.
  - intros (Hd & z & Hz & Hn). exists z. by rewrite lookup_insert_ne.
Qed.

Lemma unlink_fresh g h h' c x i : inv g h -> chans h !! c = Some x ->
  chans h' = <[c := set_node None x]> (chans h) -> next_obj h <= i -> chans h' !! i = None.
Proof.
  intros Hi Hx Hch Hlt. destruct (i_fresh _ _ Hi i Hlt) as [G1 _]. rewrite Hch, lookup_insert_ne; [done|].
  intros ->. congruence.
Qed.

Section Unlink.
Context (g g' : ghost) (h h' : heap) (c : Z) (x : chan).
Context (Hi : inv g h) (Ho : owe g = None) (Hx : chans h !! c = Some x) (Hnx : is_Some (node x)).
Context (Hg' : tmp g' = tmp g) (Ho' : owe g' = Some (c, NodeRef)) (Hw' : forall d, d <> c -> d ∈ wip g' <-> d ∈ wip g).
Context (Hch : chans h' = <[c := set_node None x]> (chans h)).
Context (Hco : chan_ok g' c (set_node None x)).

Lemma unlink_peer_of q : peer_of h' q = peer_of h q.
Proof.
  unfold peer_of. rewrite Hch. destruct (decide (q = c)) as [->|]; [by rewrite lookup_insert_eq, Hx|].
  by rewrite lookup_insert_ne.
Qed.

Lemma unlink_refs d z : chans h' !! d = Some z -> refs_ok g' h' d z.
Proof.
  intros [[-> ->]|[Hd Hz]]%(unlink_lookup h h' c x d z Hch).
  - destruct (i_refs _ _ Hi c x Hx) as [H1 H2 H3 H4]. split; simpl; auto.
    + intros r. rewrite H3, Ho, Ho'. destruct r; simpl; rewrite ?Hg', ?unlink_peer_of; try naive_solver.
    + intros r. rewrite Ho'. intros [= <-]. simpl. by intros [? ?].
  - destruct (i_refs _ _ Hi d z Hz) as [H1 H2 H3 H4]. split; simpl; auto.
    + intros r. rewrite H3, Ho, Ho'. destruct r; simpl; rewrite ?Hg', ?unlink_peer_of; naive_solver.
    + intros r. rewrite Ho'. naive_solver.
Qed.

Lemma unlink_chan d z : chans h' !! d = Some z -> chan_ok g' d z.
Proof.
  intros [[-> ->]|[Hd Hz]]%(unlink_lookup h h' c x d z Hch); [done|].
  destruct (i_chan _ _ Hi d z Hz) as [H1 H2 H3 H4]. split; rewrite ?Hg'; auto. rewrite Hw' by done.
  destruct H4 as [?|[? H4]]; [by left|right]. split; [done|].
  apply (state_ok_ext g g' d z z); rewrite ?Hg'; tauto.
Qed.

Lemma unlink_peer d z : chans h' !! d = Some z -> peer_ok h' d z.
Proof.
  intros [[-> ->]|[Hd Hz]]%(unlink_lookup h h' c x d z Hch) q Hq.
  - destruct (i_peer _ _ Hi c x Hx q Hq) as (Hne & w & Hw & Hok & Hb). split; [done|].
    exists w. rewrite Hch, lookup_insert_ne by done. done.
  - destruct (i_peer _ _ Hi d z Hz q Hq) as (Hne & w & Hw & Hok & Hb). split; [done|]. rewrite Hch.
    destruct (decide (q = c)) as [->|].
    + exists (set_node None x). rewrite lookup_insert_eq. simplify_eq. done.
    + exists w. by rewrite lookup_insert_ne.
Qed.

End Unlink.

Definition wip_owing (c : Z) (g : ghost) : ghost := Ghost (tmp g) ({[c]} ∪ wip g) (Some (c, NodeRef)).

Lemma unlink_wait_inv g h c x : inv g h -> owe g = None -> chans h !! c = Some x -> node x = Some Waiting ->
  inv (wip_owing c g) (set_waiting (remove_first c (waiting_list h)) (upd c (set_node None x) h)).
Proof.
  intros Hi Ho Hx Hn. pose proof (i_chan _ _ Hi c x Hx) as [C1 C2 C3 C4].
  assert (Hst : c_state x = WAITING_FOR_PORT /\ peer x = None).
  { destruct C4 as [[_ (_ & ? & _)]|[_ C4]]; [congruence|]. unfold state_ok in C4.
    destruct (c_state x); naive_solver. }
  assert (Hco : chan_ok (wip_owing c g) c (set_node None x)).
  { split; simpl; auto; [rewrite (proj2 Hst); by intros [? ?]|]. left. split; [set_solver|].
    unfold wip_ok. naive_solver. }
  assert (Hw : forall d, d <> c -> d ∈ wip (wip_owing c g) <-> d ∈ wip g) by (simpl; set_solver).
  set (h' := set_waiting _ _).
  split.
  - intros d z. by eapply unlink_refs.
  - intros d z. by eapply unlink_chan.
  - intros d z. by eapply unlink_peer.
  - intros p w Hpw. destruct (i_port _ _ Hi p w Hpw) as [G1 G2 G3 G4 G5 G6]. split; auto.
    intros d. rewrite G5, (unlink_node h h' c x) by done. naive_solver.
  - intros d z p Hz Hpn. apply (unlink_lookup h h' c x d z eq_refl) in Hz as [[-> ->]|[Hd Hz]]; [done|].
    by eapply (i_node _ _ Hi).
  - intros d. change (waiting_list h') with (remove_first c (waiting_list h)).
    rewrite elem_of_remove_first by apply (i_wait_nodup _ _ Hi).
    rewrite (i_wait _ _ Hi d), (unlink_node h h' c x) by done. naive_solver.
  - apply remove_first_NoDup, (i_wait_nodup _ _ Hi).
  - apply (i_list _ _ Hi).
  - intros i Hlt. split; [by apply (unlink_fresh g h h' c x)|apply (i_fresh _ _ Hi i Hlt)].
Qed.

Lemma unlink_pend_inv g h c x p y : inv g h -> owe g = None -> chans h !! c = Some x ->
  node x = Some (Pending p) -> ports h !! p = Some y -> c ∉ wip g ->
  ((c_state x = DISCONNECTING /\ peer x = None) \/ c ∈ tmp g) ->
  inv (owing c NodeRef g)
    (set_ports (<[p := set_pending (remove_first c (pending_list y)) y]> (ports h)) (upd c (set_node None x) h)).
Proof.
  intros Hi Ho Hx Hn Hy Hwip Hor. pose proof (i_chan _ _ Hi c x Hx) as [C1 C2 C3 C4].
  assert (Hco : chan_ok (owing c NodeRef g) c (set_node None x)).
  { split; simpl; auto.
    - intros Hp. destruct Hor as [[_ E]|]; [rewrite E in Hp; by destruct Hp|auto].
    - destruct C4 as [?|[_ C4]]; [tauto|right]. split; [done|]. unfold state_ok in *. simpl.
      destruct (c_state x); naive_solver. }
  set (h' := set_ports _ _).
  assert (Hc : c ∈ pending_list y) by (apply (p_pend _ _ _ (i_port _ _ Hi p y Hy)); eauto).
  split.
  - intros d z. by eapply unlink_refs.
  - intros d z. by eapply unlink_chan.
  - intros d z. by eapply unlink_peer.
  - intros p' w Hpw. unfold h' in Hpw. simpl in Hpw. destruct (decide (p' = p)) as [->|Hne].
    + rewrite lookup_insert_eq in Hpw. injection Hpw as <-.
      destruct (i_port _ _ Hi p y Hy) as [G1 G2 G3 G4 G5 G6]. split; simpl; auto using remove_first_NoDup.
      * unfold port_ext in *. simpl. pose proof (length_remove_first c (pending_list y) Hc). lia.
      * intros d. rewrite elem_of_remove_first by done. rewrite G5.
        pose proof (unlink_node h h' c x d (Some (Pending p)) eq_refl ltac:(done)) as Hun. simpl in Hun.
        rewrite Hun. naive_solver.
    + rewrite lookup_insert_ne in Hpw by done.
      destruct (i_port _ _ Hi p' w Hpw) as [G1 G2 G3 G4 G5 G6]. split; auto.
      intros d. rewrite G5, (unlink_node h h' c x) by done. naive_solver.
  - intros d z p' Hz Hpn. apply (unlink_lookup h h' c x d z eq_refl) in Hz as [[-> ->]|[Hd Hz]]; [done|].
    unfold h'. simpl. apply lookup_insert_is_Some. destruct (decide (p = p')) as [->|]; [by left|right].
    split; [done|]. by eapply (i_node _ _ Hi).
  - intros d. change (waiting_list h') with (waiting_list h).
    rewrite (i_wait _ _ Hi d), (unlink_node h h' c x) by done. naive_solver.
  - apply (i_wait_nodup _ _ Hi).
  - destruct (i_list _ _ Hi) as [L1 L2]. split; [done|]. intros p' Hp'%L2. unfold h'. simpl.
    apply lookup_insert_is_Some. destruct (decide (p = p')); auto.
  - intros i Hlt. split; [by apply (unlink_fresh g h h' c x)|].
    destruct (i_fresh _ _ Hi i Hlt) as [_ G]. unfold h'. simpl. rewrite lookup_insert_ne; [done|]. intros ->. congruence.
Qed.

(** *** Channels under construction *)

Lemma wip_view g h c x : inv g h -> chans h !! c = Some x -> c ∈ wip g ->
  wip_ok x /\ forall d z, chans h !! d = Some z -> peer z <> Some c.
Proof.
  intros Hi Hx Hw. destruct (c_st _ _ _ (i_chan _ _ Hi c x Hx)) as [[_ Hok]|[? _]]; [|done].
  split; [done|]. intros d z Hz Hp. destruct (i_peer _ _ Hi d z Hz c Hp) as (_ & x' & Hx' & Hpk & _).
  simplify_eq. destruct Hok as (_ & _ & [E|E]); rewrite E in Hpk; by destruct (c_state z).
Qed.

Definition done_with (c : Z) (g : ghost) : ghost := Ghost (tmp g) (wip g ∖ {[c]}) (owe g).

(** A channel that is taken down is disconnecting. *)
Lemma wip_disc_inv g h c x : inv g h -> chans h !! c = Some x -> c ∈ wip g ->
  inv (done_with c g) (upd c (set_state DISCONNECTING x) h).
Proof.
  intros Hi Hx Hw. destruct (wip_view g h c x Hi Hx Hw) as [(Hp & Hn & Hs) Hnp].
  destruct (i_refs _ _ Hi c x Hx) as [H1 H2 H3 H4]. eapply inv_local; eauto.
  - by split_and!; auto.
  - intros d Hd. simpl. set_solver.
  - by split.
  - destruct (i_chan _ _ Hi c x Hx) as [G1 G2 G3 G4]. split; simpl; auto. right. split; [set_solver|].
    by left.
Qed.

(** A channel under construction that is gone. *)
Lemma done_gone g h c : inv g h -> chans h !! c = None -> inv (done_with c g) h.
Proof.
  intros Hi Hc. destruct Hi as [I1 I2 I3 I4 I5 I6 I7 I8 I9]. split; auto.
  - intros d x Hd. destruct (I1 d x Hd) as [H1 H2 H3 H4]. by split.
  - intros d x Hd. destruct (I2 d x Hd) as [H1 H2 H3 H4]. split; auto. simpl.
    assert (d <> c) by congruence. rewrite elem_of_difference, elem_of_singleton. intuition auto.
Qed.

Definition fresh_chan (flags : Z) (u : uuid) : chan :=
  Chan [TmpRef] None u INVALID flags 0 handle_zero None None None.

Definition alloced (c : Z) (x : chan) (h : heap) : heap := set_next (c + 1) (upd c x h).

Lemma alloc_inv g h flags u : inv g h -> owe g = None -> next_obj h ∉ tmp g -> next_obj h ∉ wip g ->
  let c := next_obj h in
  inv (Ghost ({[c]} ∪ tmp g) ({[c]} ∪ wip g) None) (alloced c (fresh_chan flags u) h).
Proof.
  intros Hi Ho Ht Hw c. set (h' := alloced c _ h). destruct (i_fresh _ _ Hi c) as [Hc _]; [lia|].
  assert (Hlk : forall d z, chans h' !! d = Some z ->
            (d = c /\ z = fresh_chan flags u) \/ (d <> c /\ chans h !! d = Some z)).
  { intros d z. apply upd_lookup. }
  assert (Hpo : forall q, peer_of h' q = peer_of h q).
  { intros q. unfold peer_of, h', alloced, upd. simpl. destruct (decide (q = c)) as [->|].
    - by rewrite lookup_insert_eq, Hc.
    - by rewrite lookup_insert_ne. }
  assert (Hnp : forall q, peer_of h q <> Some c).
  { intros q Hq. unfold peer_of in Hq. destruct (chans h !! q) as [z|] eqn:Hz; [|done]. simpl in Hq.
    destruct (i_peer _ _ Hi q z Hz c Hq) as (_ & y & Hy & _). congruence. }
  assert (Hnode : forall d l, l <> None -> (exists z, chans h' !! d = Some z /\ node z = l) <->
                              (exists z, chans h !! d = Some z /\ node z = l)).
  { intros d l Hl. split; intros (z & Hz & Hn).
    - apply Hlk in Hz as [[-> ->]|[_ Hz]]; [by subst|eauto].
    - exists z. split; [|done]. unfold h', alloced, upd. simpl. rewrite lookup_insert_ne; [done|].
      intros <-. congruence. }
  split.
  - intros d z [[-> ->]|[Hd Hz]]%Hlk.
    + split; simpl; [apply NoDup_singleton|done| |done]. intros r. rewrite list_elem_of_singleton.
      destruct r; simpl; rewrite ?Hpo; [naive_solver lia|naive_solver|naive_solver|set_solver].
    + destruct (i_refs _ _ Hi d z Hz) as [H1 H2 H3 H4]. split; simpl; auto; [|done].
      intros r. rewrite H3, Ho. destruct r; simpl; rewrite ?Hpo; set_solver.
  - intros d z [[-> ->]|[Hd Hz]]%Hlk.
    + split; simpl; [lia|done|by intros [? ?]|]. left. split; [set_solver|]. unfold wip_ok. naive_solver.
    + destruct (i_chan _ _ Hi d z Hz) as [H1 H2 H3 H4]. split; simpl; auto; [set_solver|].
      destruct H4 as [[? ?]|[? H4]]; [left; set_solver|right]. split; [set_solver|].
      apply (state_ok_ext g _ d z z); simpl; solve [tauto|set_solver].
  - intros d z [[-> ->]|[Hd Hz]]%Hlk q Hq; [done|].
    destruct (i_peer _ _ Hi d z Hz q Hq) as (Hne & w & Hw' & Hok). split; [done|]. exists w. split; [|done].
    unfold h', alloced, upd. simpl. rewrite lookup_insert_ne; [done|]. congruence.
  - intros p w Hpw. destruct (i_port _ _ Hi p w Hpw) as [G1 G2 G3 G4 G5 G6]. split; auto.
    intros d. by rewrite G5, Hnode.
  - intros d z p [[-> ->]|[Hd Hz]]%Hlk Hpn; [done|]. by eapply (i_node _ _ Hi).
  - intros d. change (waiting_list h') with (waiting_list h). by rewrite (i_wait _ _ Hi d), Hnode.
  - apply (i_wait_nodup _ _ Hi).
  - apply (i_list _ _ Hi).
  - intros i Hlt. unfold h', alloced in Hlt. simpl in Hlt. destruct (i_fresh _ _ Hi i) as [G1 G2]; [unfold c in *; lia|].
    split; [|done]. unfold h', alloced, upd. simpl. rewrite lookup_insert_ne; [done|]. lia.
Qed.

(** A client that found no port waits for one. *)
Definition waiting_chan (path : list Z) (x : chan) : chan :=
  set_refs (refs x ++ [NodeRef]) (set_node (Some Waiting) (set_state WAITING_FOR_PORT (set_c_path (Some path) x))).

Lemma wait_inv g h c x path : inv g h -> owe g = None -> chans h !! c = Some x -> c ∈ wip g -> c ∈ tmp g ->
  inv (done_with c g) (set_waiting (waiting_list h ++ [c]) (upd c (waiting_chan path x) h)).
Proof.
  intros Hi Ho Hx Hw Ht. destruct (wip_view g h c x Hi Hx Hw) as [(Hp & Hn & Hs) Hnp].
  set (h' := set_waiting _ _).
  assert (Hlk : forall d z, chans h' !! d = Some z ->
            (d = c /\ z = waiting_chan path x) \/ (d <> c /\ chans h !! d = Some z)).
  { intros d z. apply upd_lookup. }
  assert (Hpo : forall q, peer_of h' q = peer_of h q).
  { intros q. change (peer_of h' q) with (peer_of (upd c (waiting_chan path x) h) q).
    by apply (peer_of_view h c x). }
  assert (Hnc : c ∉ waiting_list h).
  { intros (z & Hz & Hnz)%(i_wait _ _ Hi). congruence. }
  split.
  - intros d z [[-> ->]|[Hd Hz]]%Hlk.
    + destruct (i_refs _ _ Hi c x Hx) as [H1 H2 H3 H4].
      assert (NodeRef ∉ refs x) by (rewrite H3, Ho; simpl; rewrite Hn; intros [[? ?]|?]; done).
      split; simpl; rewrite ?Ho; [|by destruct (refs x)| |done].
      * apply NoDup_app. split; [done|]. split; [set_solver|apply NoDup_singleton].
      * intros r. rewrite elem_of_app, list_elem_of_singleton, H3, Ho.
        destruct r; simpl; rewrite ?Hpo, ?Hn; naive_solver.
    + destruct (i_refs _ _ Hi d z Hz) as [H1 H2 H3 H4]. split; auto; simpl; rewrite ?Ho; [|done].
      intros r. rewrite H3, Ho. destruct r; simpl; rewrite ?Hpo; done.
  - intros d z [[-> ->]|[Hd Hz]]%Hlk.
    + destruct (i_chan _ _ Hi c x Hx) as [H1 H2 H3 H4]. split; simpl; auto; try (rewrite Hp; by intros [? ?]).
      right. split; [set_solver|]. unfold state_ok. simpl. eauto.
    + destruct (i_chan _ _ Hi d z Hz) as [H1 H2 H3 H4]. split; simpl; auto.
      destruct H4 as [[? ?]|[? ?]]; [left; set_solver|right]. split; [set_solver|done].
  - intros d z [[-> ->]|[Hd Hz]]%Hlk q Hq; simpl in Hq; [congruence|].
    destruct (i_peer _ _ Hi d z Hz q Hq) as (Hne & w & Hw' & Hok). split; [done|]. exists w. split; [|done].
    unfold h', upd. simpl. rewrite lookup_insert_ne; [done|]. intros <-. by destruct (Hnp d z Hz).
  - intros p w Hpw. destruct (i_port _ _ Hi p w Hpw) as [G1 G2 G3 G4 G5 G6]. split; auto.
    intros d. rewrite G5. split; intros (z & Hz & Hnz).
    + exists z. split; [|done]. unfold h', upd. simpl. rewrite lookup_insert_ne; [done|]. intros <-. congruence.
    + apply Hlk in Hz as [[-> ->]|[_ Hz]]; [done|eauto].
  - intros d z p [[-> ->]|[Hd Hz]]%Hlk Hpn; [done|]. by eapply (i_node _ _ Hi).
  - intros d. change (waiting_list h') with (waiting_list h ++ [c]).
    rewrite elem_of_app, list_elem_of_singleton, (i_wait _ _ Hi d). split.
    + intros [(z & Hz & Hnz)| ->].
      * exists z. split; [|done]. unfold h', upd. simpl. rewrite lookup_insert_ne; [done|]. intros <-. congruence.
      * exists (waiting_chan path x). split; [apply lookup_insert_eq|done].
    + intros (z & [[-> ->]|[_ Hz]]%Hlk & Hnz); [by right|left]. eauto.
  - change (waiting_list h') with (waiting_list h ++ [c]). apply NoDup_app.
    split; [apply (i_wait_nodup _ _ Hi)|]. split; [set_solver|apply NoDup_singleton].
  - apply (i_list _ _ Hi).
  - intros i Hlt. destruct (i_fresh _ _ Hi i Hlt) as [G1 G2]. split; [|done].
    unfold h', upd. simpl. rewrite lookup_insert_ne; [done|]. intros ->. congruence.
Qed.

(** *** A client is linked to a new server that is pending on a port *)

Record link_post (c s p : Z) (x y x' y' : chan) : Prop := {
  l_refs1 : refs x' = refs x ++ [PeerRef s];
  l_refs2 : refs y' = (refs y ++ [PeerRef c]) ++ [NodeRef];
  l_peer1 : peer x' = Some s;
  l_peer2 : peer y' = Some c;
  l_state1 : c_state x' = CONNECTING;
  l_state2 : c_state y' = ACCEPTING;
  l_node1 : node x' = None;
  l_node2 : node y' = Some (Pending p);
  l_cnt1 : refcnt (c_handle x') = refcnt (c_handle x);
  l_cnt2 : refcnt (c_handle y') = 0;
  l_flags : has_flag (c_flags y') IPC_CHAN_FLAG_SERVER = true;
  l_mq1 : exists mq, msg_queue x' = Some mq /\ mq_wf mq;
  l_mq2 : exists mq, msg_queue y' = Some mq /\ mq_wf mq
}.

Section Link.
Context (g : ghost) (h h' : heap) (c s p : Z) (x y x' y' : chan) (w : port).
Context (Hi : inv g h) (Ho : owe g = None) (Hne : c <> s).
Context (Hx : chans h !! c = Some x) (Hy : chans h !! s = Some y) (Hw : ports h !! p = Some w).
Context (Hcw : c ∈ wip g) (Hsw : s ∈ wip g) (Hst : s ∈ tmp g) (Hct : c ∈ tmp g \/ 0 < refcnt (c_handle x)).
Context (Hsc : refcnt (c_handle y) = 0) (Hl : link_post c s p x y x' y').

Definition link_heap : heap :=
  set_ports (<[p := set_p_handle (handle_incref (p_handle w)) (set_pending (pending_list w ++ [s]) w)]> (ports h))
    (upd s y' (upd c x' h)).

Definition link_ghost : ghost := Ghost (tmp g) (wip g ∖ {[c]} ∖ {[s]}) None.

Lemma link_lookup d z : chans link_heap !! d = Some z ->
  (d = s /\ z = y') \/ (d = c /\ z = x') \/ (d <> c /\ d <> s /\ chans h !! d = Some z).
Proof.
  intros [[-> ->]|[Hd Hz]]%upd_lookup; [by left|]. right.
  apply upd_lookup in Hz as [[-> ->]|[Hd' Hz]]; auto.
Qed.

Lemma link_at_c : chans link_heap !! c = Some x'.
Proof. unfold link_heap, upd. simpl. rewrite lookup_insert_ne by done. apply lookup_insert_eq. Qed.

Lemma link_at_s : chans link_heap !! s = Some y'.
Proof. apply lookup_insert_eq. Qed.

Lemma link_other d : d <> c -> d <> s -> chans link_heap !! d = chans h !! d.
Proof. intros H1 H2. unfold link_heap, upd. simpl. by rewrite !lookup_insert_ne. Qed.

Lemma link_peer_of q : peer_of link_heap q =
  if decide (q = c) then Some s else if decide (q = s) then Some c else peer_of h q.
Proof.
  unfold peer_of. destruct (decide (q = c)) as [->|]; [rewrite link_at_c; apply Hl|].
  destruct (decide (q = s)) as [->|]; [rewrite link_at_s; apply Hl|]. by rewrite link_other.
Qed.

Lemma link_nobody d z : chans h !! d = Some z -> peer z <> Some c /\ peer z <> Some s.
Proof.
  intros Hz. destruct (wip_view g h c x Hi Hx Hcw) as [_ H1]. destruct (wip_view g h s y Hi Hy Hsw) as [_ H2]. eauto.
Qed.

Lemma link_peer_none : peer_of h c = None /\ peer_of h s = None.
Proof.
  destruct (wip_view g h c x Hi Hx Hcw) as [(H1 & _) _]. destruct (wip_view g h s y Hi Hy Hsw) as [(H2 & _) _].
  unfold peer_of. by rewrite Hx, Hy.
Qed.

Lemma link_refs d z : chans link_heap !! d = Some z -> refs_ok link_ghost link_heap d z.
Proof.
  destruct link_peer_none as [Hpc Hps].
  assert (Hnb : forall q, peer_of h q <> Some c /\ peer_of h q <> Some s).
  { intros q. unfold peer_of. destruct (chans h !! q) as [v|] eqn:Hv; [|done]. by apply (link_nobody q). }
  intros [[-> ->]|[[-> ->]|(H1 & H2 & Hz)]]%link_lookup.
  - destruct (i_refs _ _ Hi s y Hy) as [G1 G2 G3 G4].
    assert (Hn : node y = None) by apply (wip_view g h s y Hi Hy Hsw).
    assert (Hnew : PeerRef c ∉ refs y /\ NodeRef ∉ refs y).
    { rewrite !G3, Ho. simpl. rewrite Hpc, Hn. split; intros [H|H]; by inversion H. }
    split; rewrite ?(l_refs2 _ _ _ _ _ _ _ Hl); [..|done].
    + rewrite <- app_assoc. apply NoDup_app. split; [done|]. split; [set_solver|]. apply NoDup_cons. split; [set_solver|apply NoDup_singleton].
    + by destruct (refs y).
    + intros r. rewrite !elem_of_app, !list_elem_of_singleton, G3, Ho. destruct r as [| |q|]; simpl.
      * rewrite (l_cnt2 _ _ _ _ _ _ _ Hl). naive_solver lia.
      * rewrite (l_node2 _ _ _ _ _ _ _ Hl). naive_solver.
      * rewrite link_peer_of. destruct (Hnb q). repeat case_decide; subst; naive_solver.
      * naive_solver.
  - destruct (i_refs _ _ Hi c x Hx) as [G1 G2 G3 G4].
    assert (Hn : node x = None) by apply (wip_view g h c x Hi Hx Hcw).
    assert (Hnew : PeerRef s ∉ refs x) by (rewrite G3, Ho; simpl; rewrite Hps; naive_solver).
    split; rewrite ?(l_refs1 _ _ _ _ _ _ _ Hl); [..|done].
    + apply NoDup_app. split; [done|]. split; [set_solver|apply NoDup_singleton].
    + by destruct (refs x).
    + intros r. rewrite !elem_of_app, !list_elem_of_singleton, G3, Ho. destruct r as [| |q|]; simpl.
      * rewrite (l_cnt1 _ _ _ _ _ _ _ Hl). naive_solver.
      * rewrite (l_node1 _ _ _ _ _ _ _ Hl), Hn. naive_solver.
      * rewrite link_peer_of. destruct (Hnb q). repeat case_decide; subst; naive_solver.
      * naive_solver.
  - destruct (i_refs _ _ Hi d z Hz) as [G1 G2 G3 G4]. split; auto; [|done].
    intros r. rewrite G3, Ho. destruct r as [| |q|]; simpl; try done.
    rewrite link_peer_of. repeat case_decide; subst; naive_solver.
Qed.

Lemma link_chan d z : chans link_heap !! d = Some z -> chan_ok link_ghost d z.
Proof.
  destruct Hl. intros [[-> ->]|[[-> ->]|(H1 & H2 & Hz)]]%link_lookup.
  - split; [lia|destruct l_mq4 as (m & Hm & ?); intros; by simplify_eq|by auto|].
    right. split; [simpl; set_solver|]. unfold state_ok. rewrite l_state4, l_peer4, l_node4.
    destruct l_mq4 as (m & -> & ?). split_and!; eauto.
  - destruct (i_chan _ _ Hi c x Hx) as [G1 G2 G3 G4].
    split; [lia|destruct l_mq3 as (m & Hm & ?); intros; by simplify_eq|rewrite l_cnt3; simpl; tauto|].
    right. split; [simpl; set_solver|]. unfold state_ok. rewrite l_state3, l_peer3, l_node3.
    destruct l_mq3 as (m & -> & ?). split_and!; eauto.
  - destruct (i_chan _ _ Hi d z Hz) as [G1 G2 G3 G4]. split; auto. simpl.
    destruct G4 as [[? ?]|[? ?]]; [left; set_solver|right]. split; [set_solver|done].
Qed.

Lemma link_inv : p_state w = IPC_PORT_STATE_LISTENING -> inv link_ghost link_heap.
Proof.
  intros Hls. assert (Hns : node y = None) by apply (wip_view g h s y Hi Hy Hsw).
  assert (Hnc : node x = None) by apply (wip_view g h c x Hi Hx Hcw).
  assert (Hsp : forall p' v, ports h !! p' = Some v -> s ∉ pending_list v).
  { intros p' v Hv (z & Hz & Hnz)%(p_pend _ _ _ (i_port _ _ Hi p' v Hv)). congruence. }
  assert (Hnode : forall d l, l <> None -> (exists z, chans link_heap !! d = Some z /\ node z = l) <->
            ((exists z, chans h !! d = Some z /\ node z = l) \/ (d = s /\ l = Some (Pending p)))).
  { intros d l Hln. split.
    - intros (z & [[-> ->]|[[-> ->]|(H1 & H2 & Hz)]]%link_lookup & Hn).
      + right. split; [done|]. rewrite <- Hn. apply Hl.
      + rewrite (l_node1 _ _ _ _ _ _ _ Hl) in Hn. by subst.
      + left. eauto.
    - intros [(z & Hz & Hn)|[-> ->]].
      + exists z. rewrite link_other; [done|intros ->; congruence|intros ->; congruence].
      + exists y'. split; [apply link_at_s|apply Hl]. }
  split.
  - apply link_refs.
  - apply link_chan.
  - intros d z [[-> ->]|[[-> ->]|(H1 & H2 & Hz)]]%link_lookup q Hq.
    + rewrite (l_peer2 _ _ _ _ _ _ _ Hl) in Hq. injection Hq as <-. split; [done|]. exists x'.
      rewrite link_at_c. destruct Hl. rewrite l_state3, l_state4. done.
    + rewrite (l_peer1 _ _ _ _ _ _ _ Hl) in Hq. injection Hq as <-. split; [done|]. exists y'.
      rewrite link_at_s. destruct Hl. rewrite l_state3, l_state4. done.
    + destruct (i_peer _ _ Hi d z Hz q Hq) as (Hne' & v & Hv & Hok). split; [done|]. exists v.
      destruct (link_nobody d z Hz). rewrite link_other; [done|congruence|congruence].
  - intros p' v Hv. unfold link_heap in Hv. simpl in Hv. destruct (decide (p' = p)) as [->|Hnp].
    + rewrite lookup_insert_eq in Hv. injection Hv as <-.
      destruct (i_port _ _ Hi p w Hw) as [G1 G2 G3 G4 G5 G6]. split; auto.
      * unfold port_ext in *. simpl. rewrite length_app. simpl. lia.
      * simpl. lia.
      * simpl. apply NoDup_app. split; [done|]. split; [|apply NoDup_singleton].
        intros d Hd. rewrite list_elem_of_singleton. intros ->. by apply (Hsp p w).
      * intros d. simpl pending_list. rewrite elem_of_app, list_elem_of_singleton, G5, Hnode by done. naive_solver.
    + rewrite lookup_insert_ne in Hv by done. destruct (i_port _ _ Hi p' v Hv) as [G1 G2 G3 G4 G5 G6].
      split; auto. intros d. rewrite G5, Hnode by done. naive_solver.
  - intros d z p' Hz Hn. unfold link_heap. simpl. apply lookup_insert_is_Some.
    destruct (decide (p = p')) as [->|Hpp]; [by left|right]. split; [done|].
    apply link_lookup in Hz as [[-> ->]|[[-> ->]|(H1 & H2 & Hz)]].
    + rewrite (l_node2 _ _ _ _ _ _ _ Hl) in Hn. congruence.
    + rewrite (l_node1 _ _ _ _ _ _ _ Hl) in Hn. congruence.
    + by eapply (i_node _ _ Hi).
  - intros d. change (waiting_list link_heap) with (waiting_list h).
    rewrite (i_wait _ _ Hi d), Hnode by done. naive_solver.
  - apply (i_wait_nodup _ _ Hi).
  - destruct (i_list _ _ Hi) as [L1 L2]. split; [done|]. intros p' Hp'%L2. unfold link_heap. simpl.
    apply lookup_insert_is_Some. destruct (decide (p = p')); auto.
  - intros i Hlt. destruct (i_fresh _ _ Hi i Hlt) as [G1 G2]. split.
    + rewrite link_other; [done|intros ->; congruence|intros ->; congruence].
    + unfold link_heap. simpl. rewrite lookup_insert_ne; [done|]. intros ->. congruence.
Qed.
End Link.

(** *** Ports *)

(** Signals and the memory of the application are outside the graph. *)
Lemma inv_same_graph g h h' : inv g h -> chans h' = chans h -> ports h' = ports h ->
  waiting_list h' = waiting_list h -> ipc_port_list h' = ipc_port_list h -> next_obj h' = next_obj h -> inv g h'.
Proof.
  destruct h, h'. simpl. intros [I1 I2 I3 I4 I5 I6 I7 I8 I9] -> -> -> -> ->. split; auto.
  - intros c x Hx. destruct (I1 c x Hx). by split.
  - intros p y Hy. destruct (I4 p y Hy). by split.
Qed.

Lemma inv_signal g e h : inv g h -> inv g (add_signal e h).
Proof. intros Hi. eapply inv_same_graph; [exact Hi|..]; by destruct e. Qed.

Lemma inv_user g u h : inv g h -> inv g (set_user u h).
Proof. intros Hi. by eapply inv_same_graph. Qed.

(** A port changes, and the list of ports with it. *)
Lemma inv_port_upd g h p y y' l : inv g h -> ports h !! p = Some y ->
  pending_list y' = pending_list y -> num_recv_bufs y' = num_recv_bufs y -> recv_buf_size y' = recv_buf_size y ->
  0 < refcnt (p_handle y') -> NoDup l ->
  (forall q, q <> p -> q ∈ l <-> q ∈ ipc_port_list h) -> (p ∈ l <-> p_state y' = IPC_PORT_STATE_LISTENING) ->
  0 <= refcnt (p_handle y') - (if bool_decide (p ∈ l) then 1 else 0) - Z.of_nat (length (pending_list y)) ->
  inv g (set_port_list l (set_ports (<[p := y']> (ports h)) h)).
Proof.
  intros Hi Hy Hpe Hn Hs Hc Hl Hlo Hlp He. destruct Hi as [I1 I2 I3 I4 I5 I6 I7 I8 I9]. split; auto; simpl.
  - intros c x Hx. destruct (I1 c x Hx). by split.
  - intros q z Hz. destruct (decide (q = p)) as [->|Hne].
    + rewrite lookup_insert_eq in Hz. injection Hz as <-. destruct (I4 p y Hy) as [G1 G2 G3 G4 G5 G6].
      split; rewrite ?Hpe, ?Hn, ?Hs; auto. unfold port_ext. simpl. by rewrite Hpe.
    + rewrite lookup_insert_ne in Hz by done. destruct (I4 q z Hz) as [G1 G2 G3 G4 G5 G6].
      split; auto; [|simpl; by rewrite Hlo]. unfold port_ext in *. simpl.
      rewrite (bool_decide_ext (q ∈ l) (q ∈ ipc_port_list h)) by auto. done.
  - intros c x q Hx Hq. apply lookup_insert_is_Some. destruct (decide (p = q)); eauto.
  - destruct I8 as [L1 L2]. split; [done|]. intros q Hq. apply lookup_insert_is_Some.
    destruct (decide (p = q)) as [->|]; [by left|right]. split; [done|]. apply L2. by apply Hlo.
  - intros i Hlt. destruct (I9 i Hlt) as [G1 G2]. split; [done|]. rewrite lookup_insert_ne; [done|]. intros ->. congruence.
Qed.

(** The counter of a port moves within what its references allow. *)
Lemma inv_port_cnt g h p y hd : inv g h -> ports h !! p = Some y -> 0 < refcnt hd ->
  refcnt (p_handle y) - port_ext h p y <= refcnt hd -> inv g (set_ports (<[p := set_p_handle hd y]> (ports h)) h).
Proof.
  intros Hi Hy Hc He.
  assert (Heq : set_ports (<[p := set_p_handle hd y]> (ports h)) h =
    set_port_list (ipc_port_list h) (set_ports (<[p := set_p_handle hd y]> (ports h)) h)) by (by destruct h).
  rewrite Heq. eapply inv_port_upd; eauto.
  - apply (i_list _ _ Hi).
  - apply (p_list _ _ _ (i_port _ _ Hi p y Hy)).
  - unfold port_ext in He. simpl. lia.
Qed.

Lemma inv_port_delete g h p y : inv g h -> ports h !! p = Some y -> pending_list y = [] ->
  p ∉ ipc_port_list h -> inv g (set_ports (delete p (ports h)) h).
Proof.
  intros [I1 I2 I3 I4 I5 I6 I7 I8 I9] Hy Hpe Hl. split; auto; simpl.
  - intros c x Hx. destruct (I1 c x Hx). by split.
  - intros q z Hz. apply lookup_delete_Some in Hz as [Hne Hz]. destruct (I4 q z Hz). by split.
  - intros c x q Hx Hq. apply lookup_delete_is_Some. split; [|eauto]. intros <-.
    assert (c ∈ pending_list y) as Hin by (apply (p_pend _ _ _ (I4 p y Hy)); eauto). rewrite Hpe in Hin. set_solver.
  - destruct I8 as [L1 L2]. split; [done|]. intros q Hq. apply lookup_delete_is_Some. split; [congruence|auto].
  - intros i Hlt. destruct (I9 i Hlt) as [G1 G2]. split; [done|].
    destruct (decide (i = p)) as [->|]; [by rewrite lookup_delete_eq|by rewrite lookup_delete_ne].
Qed.

Lemma inv_port_new g h y : inv g h -> p_state y = IPC_PORT_STATE_INVALID -> pending_list y = [] ->
  0 < refcnt (p_handle y) -> 0 < num_recv_bufs y <= 32 -> 0 < recv_buf_size y <= 4096 ->
  inv g (set_next (next_obj h + 1) (set_ports (<[next_obj h := y]> (ports h)) h)).
Proof.
  intros [I1 I2 I3 I4 I5 I6 I7 I8 I9] Hs Hpe Hc Hb1 Hb2. set (p := next_obj h) in *.
  destruct (I9 p) as [Fc Fp]; [lia|].
  assert (Hpl : p ∉ ipc_port_list h). { intros [? ?]%(proj2 I8). congruence. }
  split; auto; simpl.
  - intros c x Hx. destruct (I1 c x Hx). by split.
  - intros q z Hz. destruct (decide (q = p)) as [->|Hne].
    + rewrite lookup_insert_eq in Hz. injection Hz as <-. split; rewrite ?Hpe; auto.
      * unfold port_ext. simpl. rewrite bool_decide_eq_false_2 by done. rewrite Hpe. simpl. lia.
      * constructor.
      * intros c. split; [set_solver|]. intros (x & Hx & Hn). destruct (I5 c x p Hx Hn) as [? ?]. congruence.
      * simpl. rewrite Hs. split; [done|]. unfold IPC_PORT_STATE_INVALID, IPC_PORT_STATE_LISTENING. lia.
    + rewrite lookup_insert_ne in Hz by done. destruct (I4 q z Hz). by split.
  - intros c x q Hx Hq. apply lookup_insert_is_Some. destruct (decide (p = q)); eauto.
  - destruct I8 as [L1 L2]. split; [done|]. intros q Hq. apply lookup_insert_is_Some. destruct (decide (p = q)); auto.
  - intros i Hlt. destruct (I9 i) as [G1 G2]; [unfold p in *; lia|]. split; [done|]. rewrite lookup_insert_ne; [done|lia].
Qed.

End IpcInv.
