(* ===== verification/IpcKeep.v ===== *)
(** * Handles that others hold are left alone

    Whatever an operation does to the object graph, a channel that has a
    handle keeps its counter, waiter, cookie and guest and its message queue,
    unless it is the channel that the operation is called on; and no kernel
    memory goes away. *)

From S2P Require Import Prelude Iovec MsgQueue MemKeep Handle Ipc IpcInv.

Module IpcKeep.
Import Iovec MsgQueue MemKeep Handle Ipc IpcInv.

(** What a channel keeps. *)
Definition same_end (x x' : chan) : Prop :=
  c_handle x' = c_handle x /\ (is_Some (msg_queue x) -> is_Some (msg_queue x')).

Lemma same_end_refl x : same_end x x.
Proof. done. Qed.

#[local] Hint Resolve same_end_refl : core.

Section Keep.
(** The channels that are watched; all are below [n], the next address. *)
Context (P : Z -> Prop) (n : Z).

Definition kept (h h' : heap) : Prop :=
  n <= next_obj h' /\ mem_kept (user h) (user h') /\
  forall d x, P d -> chans h !! d = Some x -> HandleRef ∈ refs x ->
    exists x', chans h' !! d = Some x' /\ HandleRef ∈ refs x' /\ same_end x x'.

(** A run keeps the watched handles, and its value satisfies [Q]. *)
Definition keep {A} (m : M heap A) (Q : A -> Prop) : Prop :=
  forall h a h', n <= next_obj h -> m h = Done a h' -> kept h h' /\ Q a.

Notation any := (fun _ => True).

Lemma kept_refl h : n <= next_obj h -> kept h h.
Proof. intros Hn. split; [done|]. split; [done|]. eauto 6. Qed.

Lemma kept_trans h1 h2 h3 : kept h1 h2 -> kept h2 h3 -> kept h1 h3.
Proof.
  intros (_ & M1 & H1) (Hn & M2 & H2). split; [done|]. split; [by eapply mem_kept_trans|].
  intros d x Hd Hx Hr. destruct (H1 d x Hd Hx Hr) as (y & Hy & Hr' & He & Hq).
  destruct (H2 d y Hd Hy Hr') as (z & ? & ? & ? & ?). exists z. split_and!; try done. split; [congruence|auto].
Qed.

Lemma keep_bind {A B} (m : M heap A) (f : A -> M heap B) Q R :
  keep m Q -> (forall a, Q a -> keep (f a) R) -> keep (bind m f) R.
Proof.
  intros Hm Hf h b h' Hn. unfold bind. destruct (m h) as [a h1|] eqn:E; [|done]. intros Hb.
  destruct (Hm h a h1 Hn E) as [Hk HQ]. destruct (Hf a HQ h1 b h' (proj1 Hk) Hb) as [Hk' HR].
  split; [by eapply kept_trans|done].
Qed.

Lemma keep_weaken {A} (m : M heap A) Q : keep m Q -> keep m any.
Proof. intros Hm h a h' Hn E. split; [by apply (Hm h a h' Hn)|done]. Qed.

Lemma keep_ret {A} (a : A) : keep (ret a) any.
Proof. intros h b h' Hn [= <- <-]. split; [by apply kept_refl|done]. Qed.

Lemma keep_get : keep get any.
Proof. intros h b h' Hn [= <- <-]. split; [by apply kept_refl|done]. Qed.

Lemma keep_panic {A} : keep (panic (A := A)) any.
Proof. done. Qed.

Lemma keep_bad {A} : keep (bad_access (A := A)) any.
Proof. done. Qed.

Lemma keep_deref {A} (o : option A) : keep (deref o) any.
Proof. destruct o; [apply keep_ret|done]. Qed.

Lemma keep_assert b : keep (assert_ b) any.
Proof. destruct b; [apply keep_ret|done]. Qed.

(** A change of anything but the channels. *)
Lemma keep_modify f : (forall h, chans (f h) = chans h /\ next_obj (f h) = next_obj h /\ user (f h) = user h) ->
  keep (modify f) any.
Proof.
  intros Hf h b h' Hn [= <- <-]. destruct (Hf h) as (Hc & Hx & Hu). split; [|done]. split; [by rewrite Hx|].
  rewrite Hc, Hu. split; [done|]. eauto 6.
Qed.

Lemma keep_get_chan c : keep (get_chan c) any.
Proof. eapply keep_bind; [apply keep_get|]. intros h _. apply keep_deref. Qed.

Lemma keep_get_port p : keep (get_port p) any.
Proof. eapply keep_bind; [apply keep_get|]. intros h _. apply keep_deref. Qed.

Lemma kept_put h c x x' : n <= next_obj h -> chans h !! c = Some x ->
  (P c -> HandleRef ∈ refs x -> HandleRef ∈ refs x' /\ same_end x x') ->
  kept h (set_chans (<[c := x']> (chans h)) h).
Proof.
  intros Hn Hx Hk. split; [done|]. split; [done|]. intros d y Hd Hy Hr. simpl. destruct (decide (d = c)) as [->|].
  - rewrite lookup_insert_eq. assert (y = x) by congruence. subst y. destruct (Hk Hd Hr). eauto.
  - rewrite lookup_insert_ne by done. eauto 6.
Qed.

Lemma keep_upd_chan c f : (forall x, P c -> HandleRef ∈ refs x -> HandleRef ∈ refs (f x) /\ same_end x (f x)) ->
  keep (upd_chan c f) any.
Proof.
  intros Hf h b h' Hn. unfold upd_chan, get_chan, bind, get. destruct (chans h !! c) as [x|] eqn:E; [|done].
  intros [= <- <-]. split; [|done]. eapply kept_put; eauto.
Qed.

Lemma keep_upd_port p f : keep (upd_port p f) any.
Proof.
  eapply keep_bind; [apply keep_get_port|]. intros y _. by apply keep_modify.
Qed.

Lemma keep_put_port p y : keep (put_port p y) any.
Proof. by apply keep_modify. Qed.

Lemma keep_add_ref c r : keep (chan_add_ref c r) any.
Proof.
  eapply keep_bind; [apply keep_get|]. intros h _. eapply keep_bind; [apply keep_assert|]. intros _ _.
  apply keep_upd_chan. intros x _ Hr. simpl. split; [set_solver|done].
Qed.

Lemma keep_del_ref c r : (P c -> r <> HandleRef) -> keep (chan_del_ref c r) any.
Proof.
  intros Hr h b h' Hn. unfold chan_del_ref, get_chan, bind, get, assert_. destruct (chans h !! c) as [x|] eqn:E; [|done].
  simpl. case_bool_decide; [|done]. unfold ret at 1. set (x1 := set_refs _ x). set (h1 := set_chans _ h).
  assert (Hk : kept h h1).
  { eapply kept_put; [done|exact E|]. intros Hc Hin. split; [|done]. simpl. apply remove_first_other; [done|]. by apply not_eq_sym, Hr. }
  change (put_chan c x1 h) with (Done (S := heap) tt h1). cbv iota beta.
  case_bool_decide as He; [|intros [= <- <-]; by split].
  assert (Hnone : P c -> HandleRef ∉ refs x).
  { intros Hc Hin. assert (HandleRef ∈ remove_first r (refs x)) as Hin' by (apply remove_first_other; [done|by apply not_eq_sym, Hr]).
    rewrite He in Hin'. set_solver. }
  unfold chan_destroy, get_chan, bind, get. unfold h1 at 1. simpl. rewrite lookup_insert_eq. simpl. unfold assert_.
  do 2 (case_bool_decide; [|done]; unfold ret at 1; cbv iota beta).
  intros [= <- <-]. split; [|done]. split; [done|]. split; [done|]. intros d y Hd Hy Hin. simpl.
  destruct (decide (d = c)) as [->|]; [|rewrite lookup_delete_ne, lookup_insert_ne by done; eauto 6].
  assert (y = x) by congruence. subst y. by destruct (Hnone Hd).
Qed.

Lemma keep_unlink c : keep (chan_unlink c) any.
Proof.
  intros h b h' Hn. unfold chan_unlink. unfold bind at 1, get_chan at 1, bind at 1, get.
  destruct (chans h !! c) as [x|] eqn:E; [|done]. simpl. unfold bind.
  assert (Hput : forall h1, chans h1 = chans h -> next_obj h1 = next_obj h -> user h1 = user h ->
     kept h (set_chans (<[c := set_node None x]> (chans h1)) h1)).
  { intros h1 Hc Hx Hu. assert (Hk := kept_put h c x (set_node None x) Hn E ltac:(done)). unfold kept. simpl.
    rewrite Hx, Hc, Hu. exact Hk. }
  destruct (node x) as [[|p]|]; [| |done].
  - intros [= <- <-]. split; [|done]. by apply (Hput (set_waiting (remove_first c (waiting_list h)) h)).
  - unfold upd_port, get_port, bind, get. destruct (ports h !! p) as [y|]; [|done]. intros [= <- <-]. split; [|done].
    by apply (Hput (set_ports (<[p := set_pending (remove_first c (pending_list y)) y]> (ports h)) h)).
Qed.

Lemma keep_alloc ok f u : (forall d, P d -> d < n) -> keep (chan_alloc ok f u) (fun o => forall c, o = Some c -> n <= c).
Proof.
  intros HP h o h' Hn. unfold chan_alloc. destruct ok; simpl; [|intros [= <- <-]; split; [by apply kept_refl|done]].
  unfold bind, get, put_chan, modify. intros [= <- <-]. split; [|by intros c [= <-]].
  split; [simpl; lia|]. split; [done|]. intros d x Hd Hx Hr. pose proof (HP d Hd). simpl.
  rewrite lookup_insert_ne by lia. eauto 6.
Qed.

Lemma keep_user {A} (m : M mem A) : mkeep m -> keep (on_user m) any.
Proof.
  intros Hm h a h' Hn. unfold on_user. destruct (m (user h)) eqn:E; [|done]. intros [= <- <-]. split; [|done].
  split; [done|]. split; [by eapply Hm|]. eauto 6.
Qed.
End Keep.

Notation any := (fun _ => True).

#[export] Hint Resolve keep_ret keep_get keep_panic keep_bad keep_deref keep_assert keep_get_chan keep_get_port
  keep_upd_port keep_put_port keep_add_ref keep_unlink keep_user : trusty.

(** Go through an operation that keeps the handles. *)
Ltac keeps :=
  repeat first
    [ solve [eauto with trusty]
    | match goal with
      | |- keep _ _ (bind _ _) _ => eapply (keep_bind _ _ _ _ any); [|intros ? _]
      | |- keep _ _ (modify _) _ => apply keep_modify; by intros []
      | |- keep _ _ (upd_chan _ _) _ => apply keep_upd_chan; by intros
      | |- keep _ _ (chan_del_ref _ _) _ => apply keep_del_ref; by intros
      | |- keep _ _ (if ?b then _ else _) _ => destruct b
      | |- keep _ _ (match ?x with _ => _ end) _ => destruct x
      end
    | progress cbv zeta ].

Section Ops.
Context (P : Z -> Prop) (n : Z).
Notation keep := (keep P n).

Lemma keep_notify_chan c : keep (notify_chan c) any.
Proof. eapply keep_bind; [eauto with trusty|]. intros x _. apply keep_modify. intros h. by destruct (handle_notify _). Qed.

Lemma keep_notify_port p : keep (notify_port p) any.
Proof. eapply keep_bind; [eauto with trusty|]. intros x _. apply keep_modify. intros h. by destruct (handle_notify _). Qed.

Lemma keep_shutdown_one c : keep (chan_shutdown_one c) any.
Proof. unfold chan_shutdown_one. keeps. all: apply keep_notify_chan. Qed.

Lemma keep_shutdown c : keep (chan_shutdown_locked c) any.
Proof. unfold chan_shutdown_locked. keeps. all: apply keep_shutdown_one. Qed.

Lemma keep_decref c : ~ P c -> keep (chan_decref c) any.
Proof.
  intros Hc h a h' Hn. unfold chan_decref, get_chan, bind at 1 2, get. destruct (chans h !! c) as [x|] eqn:E; [|done].
  simpl deref. unfold ret at 1. cbv zeta iota beta. unfold bind at 1.
  set (h1 := set_chans (<[c := set_handle (handle_decref_cnt (c_handle x)).1 x]> (chans h)) h).
  assert (Hk : kept P n h h1) by (eapply kept_put; [done|exact E|done]).
  change (put_chan c (set_handle (handle_decref_cnt (c_handle x)).1 x) h) with (Done (S := heap) tt h1). cbv iota beta.
  destruct (handle_decref_cnt (c_handle x)).2; [|intros [= <- <-]; by split].
  intros Hd. destruct (keep_del_ref P n c HandleRef ltac:(done) h1 a h' (proj1 Hk) Hd) as [Hk' _].
  split; [by eapply kept_trans|done].
Qed.

Lemma keep_close c : ~ P c -> keep (handle_close (HChan c)) any.
Proof.
  intros Hc. unfold handle_close. eapply keep_bind; [apply keep_shutdown|]. intros _ _. by apply keep_decref.
Qed.

Section Alloc.
Context (HP : forall d, P d -> d < n).

Lemma keep_attach a p c : ~ P c -> keep (port_attach_client a p c) any.
Proof.
  intros Hnc. unfold port_attach_client. eapply keep_bind; [eauto with trusty|]. intros x _. destruct (negb _); [apply keep_ret|].
  eapply keep_bind; [eauto with trusty|]. intros client _. cbv zeta. destruct (negb _); [apply keep_ret|].
  eapply keep_bind; [by apply keep_alloc|]. intros [s|] Hs; [|apply keep_ret].
  assert (Hns : ~ P s) by (intros H; specialize (HP s H); specialize (Hs s eq_refl); lia).
  unfold port_incref. keeps. all: first [apply keep_notify_port | apply keep_upd_chan; by intros].
Qed.

Lemma keep_find path : keep (port_find_locked path) any.
Proof.
  eapply keep_bind; [eauto with trusty|]. intros h _. induction (ipc_port_list h); simpl; keeps; done.
Qed.

Lemma keep_connect access ok a dup g cid path mx fl :
  keep (ipc_port_connect_async access ok a dup g cid path mx fl) any.
Proof.
  unfold ipc_port_connect_async. destruct cid as [cid|]; [|apply keep_ret]. cbv zeta.
  destruct (_ || _); [apply keep_ret|]. eapply keep_bind; [by apply keep_alloc|]. intros [c|] Hc; [|apply keep_ret].
  specialize (Hc c eq_refl). assert (Hnc : ~ P c) by (intros H; specialize (HP c H); lia).
  eapply keep_bind; [apply keep_find|]. intros o _.
  eapply (keep_bind _ _ _ _ any).
  - destruct o as [p|]; keeps. by apply keep_attach.
  - intros r _. destruct (negb _); [keeps|]. unfold chan_handle_init. keeps.
Qed.

End Alloc.

Lemma keep_send x msg : keep (ipc_send_msg x msg) any.
Proof.
  unfold ipc_send_msg, check_channel_connected_locked, msg_write_locked. keeps. all: apply keep_notify_chan.
Qed.

Lemma keep_get_msg x : keep (ipc_get_msg x) any.
Proof. unfold ipc_get_msg. keeps. Qed.

Lemma keep_read_msg x id off msg : keep (ipc_read_msg x id off msg) any.
Proof. unfold ipc_read_msg. keeps. Qed.

Lemma keep_put_msg x id : keep (ipc_put_msg x id) any.
Proof. unfold ipc_put_msg, msg_put_read_locked. keeps. all: apply keep_notify_chan. Qed.
End Ops.

(** ** What is kept between sound heaps *)

(** Every channel with a handle, [c] apart, has it still. *)
Definition others_kept (c : Z) (h h' : heap) : Prop :=
  forall d x, d <> c -> chans h !! d = Some x -> 0 < refcnt (c_handle x) ->
    exists x', chans h' !! d = Some x' /\ c_handle x' = c_handle x.

Lemma inv_handle_ref h c x : inv quiet h -> chans h !! c = Some x -> 0 < refcnt (c_handle x) -> HandleRef ∈ refs x.
Proof. intros Hi Hx Hr. apply (r_due _ _ _ _ (i_refs _ _ Hi c x Hx)). by left. Qed.

Definition ends_kept (c : Z) (h h' : heap) : Prop :=
  forall d x, d <> c -> chans h !! d = Some x -> 0 < refcnt (c_handle x) ->
    exists x', chans h' !! d = Some x' /\ same_end x x'.

Lemma ends_others c h h' : ends_kept c h h' -> others_kept c h h'.
Proof. intros He d x Hd Hx Hr. destruct (He d x Hd Hx Hr) as (x' & ? & ? & _). eauto. Qed.

Lemma keep_ends {A} c (m : M heap A) h a h' : inv quiet h ->
  keep (fun d => d < next_obj h /\ d <> c) (next_obj h) m any -> m h = Done a h' ->
  mem_kept (user h) (user h') /\ ends_kept c h h'.
Proof.
  intros Hi Hk Hm. destruct (Hk h a h' ltac:(lia) Hm) as [(_ & Hmem & Hc) _]. split; [done|].
  intros d x Hd Hx Hr. assert (Hlt : d < next_obj h).
  { destruct (Z.lt_ge_cases d (next_obj h)) as [|Hge]; [done|]. destruct (i_fresh _ _ Hi d Hge) as [Hno _]. congruence. }
  destruct (Hc d x (conj Hlt Hd) Hx (inv_handle_ref _ _ _ Hi Hx Hr)) as (x' & ? & _ & ?). eauto.
Qed.

Lemma keep_others {A} c (m : M heap A) h a h' : inv quiet h ->
  keep (fun d => d < next_obj h /\ d <> c) (next_obj h) m any -> m h = Done a h' -> others_kept c h h'.
Proof. intros Hi Hk Hm. apply ends_others. by apply (keep_ends c m h a h' Hi Hk Hm). Qed.

Lemma runs_and {S A} (m : M S A) s (Q R : A -> S -> Prop) :
  runs m s Q -> (forall a s', m s = Done a s' -> R a s') -> runs m s (fun a s' => Q a s' /\ R a s').
Proof. unfold runs. destruct (m s); auto. Qed.

End IpcKeep.
