(* ===== verification/IpcSafe.v ===== *)
(** * Every operation on ports and channels is safe

    Runs of the operations of [Ipc] from a heap that satisfies the invariant
    of [IpcInv]: no freed object is used, no assertion fails, and the
    invariant holds again. *)

From S2P Require Import Prelude Iovec MsgQueue Handle Ipc IpcInv IpcKeep.

Module IpcSafe.
Import Iovec MsgQueue Handle Ipc IpcInv IpcKeep.

(** ** Heaps with the same graph

    They differ in the events that were signalled and in the memory of the
    application. *)
Record graph (h h' : heap) : Prop := {
  g_chans : chans h' = chans h;
  g_ports : ports h' = ports h;
  g_wait : waiting_list h' = waiting_list h;
  g_list : ipc_port_list h' = ipc_port_list h;
  g_next : next_obj h' = next_obj h
}.

#[export] Instance graph_equiv : Equivalence graph.
Proof.
  split.
  - by split.
  - intros h h' []. by split.
  - intros h1 h2 h3 [] []. split; congruence.
Qed.

#[export] Instance inv_graph g : Proper (graph ==> iff) (inv g).
Proof.
  intros h h' Hg. split; intros Hi; (eapply inv_same_graph; [exact Hi|..]); by destruct Hg.
Qed.

#[export] Instance upd_graph c x : Proper (graph ==> graph) (upd c x).
Proof. intros h h' []. split; simpl; congruence. Qed.

Lemma graph_signal e h : graph h (add_signal e h).
Proof. by destruct e. Qed.

Lemma graph_lookup h h' c : graph h h' -> chans h' !! c = chans h !! c.
Proof. intros []. congruence. Qed.

Lemma runs_notify_chan c x h (Q : unit -> heap -> Prop) : chans h !! c = Some x ->
  (forall h', graph h h' -> Q tt h') -> runs (notify_chan c) h Q.
Proof.
  intros Hx HQ. unfold notify_chan. apply runs_bind. eapply runs_get_chan; [done|].
  apply HQ, graph_signal.
Qed.

Lemma runs_notify_port p y h (Q : unit -> heap -> Prop) : ports h !! p = Some y ->
  (forall h', graph h h' -> Q tt h') -> runs (notify_port p) h Q.
Proof.
  intros Hy HQ. unfold notify_port. apply runs_bind. eapply runs_get_port; [done|].
  apply HQ, graph_signal.
Qed.

Lemma del_ref_eq q r h : chan_del_ref q r h =
  match chans h !! q with
  | None => Crash BadAccess
  | Some y =>
      if bool_decide (r ∈ refs y) then
        if bool_decide (remove_first r (refs y) = []) then
          if bool_decide (peer y = None) && bool_decide (node y = None)
          then Done tt (set_chans (delete q (chans h)) h) else Crash Panic
        else Done tt (upd q (set_refs (remove_first r (refs y)) y) h)
      else Crash Panic
  end.
Proof.
  unfold chan_del_ref, bind at 1, get_chan, bind at 1, get. destruct (chans h !! q) as [y|]; [|done].
  simpl. unfold bind at 1. destruct (bool_decide (r ∈ refs y)); [|done]. simpl. unfold bind at 1. simpl.
  destruct (bool_decide (remove_first r (refs y) = [])); [|done].
  unfold chan_destroy, bind at 1, get_chan, bind at 1, get. simpl. rewrite lookup_insert_eq. simpl.
  unfold bind at 1. simpl. destruct (bool_decide (peer y = None)); [|done]. simpl.
  unfold bind at 1. destruct (bool_decide (node y = None)); [|done]. simpl. unfold modify. simpl.
  by rewrite delete_insert_eq.
Qed.

(** Dropping a reference on [q] and updating another channel commute. *)
Lemma del_ref_comm c q r x f h (Q : unit -> heap -> Prop) : c <> q -> chans h !! c = Some x ->
  runs (chan_del_ref q r) (upd c (f x) h) Q -> runs (chan_del_ref q r ;;; upd_chan c f) h Q.
Proof.
  intros Hne Hx. rewrite runs_bind. unfold runs at 1 2. rewrite !del_ref_eq. unfold upd at 1.
  cbn [chans set_chans]. rewrite lookup_insert_ne by done.
  destruct (chans h !! q) as [y|]; [|done]. destruct (bool_decide (r ∈ refs y)); [|done].
  destruct (bool_decide (remove_first r (refs y) = [])).
  - destruct (_ && _); [|done]. intros HQ. eapply runs_upd_chan; [simpl; by rewrite lookup_delete_ne|].
    revert HQ. unfold upd. simpl. by rewrite delete_insert_ne.
  - intros HQ. eapply runs_upd_chan; [unfold upd; simpl; by rewrite lookup_insert_ne|].
    revert HQ. unfold upd. simpl. by rewrite insert_insert_ne.
Qed.

(** ** Shutting down a channel *)

Lemma shutdown_one_live c x h : chans h !! c = Some x -> c_state x <> INVALID -> c_state x <> WAITING_FOR_PORT ->
  runs (chan_shutdown_one c) h (fun _ h' => graph (upd c (set_state DISCONNECTING x) h) h').
Proof.
  intros Hx H1 H2. unfold chan_shutdown_one. apply runs_bind. eapply runs_get_chan; [done|].
  destruct (c_state x) eqn:Es; try done.
  - eapply runs_upd_chan; [done|]. done.
  - apply runs_bind. eapply runs_upd_chan; [done|].
    eapply runs_notify_chan; [apply lookup_insert_eq|]. done.
  - apply runs_bind. eapply runs_upd_chan; [done|].
    eapply runs_notify_chan; [apply lookup_insert_eq|]. done.
  - apply runs_ret. rewrite upd_id; [done|]. rewrite Hx. f_equal. destruct x. simpl in *. by subst.
Qed.

(** What a shutdown of [c] leaves: [c] disconnecting, without peer and in no
    list of waiting clients; its peer disconnecting or gone; nothing else
    changed. *)
Record down_post (h : heap) (c : Z) (x : chan) (h' : heap) : Prop := {
  d_self : exists x', chans h' !! c = Some x' /\ c_state x' = DISCONNECTING /\ peer x' = None /\
             node x' = (if decide (node x = Some Waiting) then None else node x) /\
             c_handle x' = c_handle x /\ c_flags x' = c_flags x;
  d_peer : forall q, peer x = Some q ->
             match chans h' !! q with Some y => c_state y = DISCONNECTING | None => True end;
  d_other : forall d, d <> c -> peer x <> Some d -> chans h' !! d = chans h !! d;
  d_wait : node x <> Some Waiting -> waiting_list h' = waiting_list h;
  d_ports : ports h' = ports h;
  d_list : ipc_port_list h' = ipc_port_list h;
  d_next : next_obj h' = next_obj h
}.

Lemma disc_ok g c x : chan_ok g c x -> c ∉ wip g -> c_state x <> WAITING_FOR_PORT ->
  chan_ok g c (set_state DISCONNECTING x).
Proof.
  intros [H1 H2 H3 H4] Hw Hs. split; auto. right. split; [done|].
  destruct H4 as [[? _]|[_ H4]]; [done|]. unfold state_ok in *. simpl.
  destruct (c_state x); naive_solver.
Qed.

Lemma settle_owing c r g : owe g = None -> settle (owing c r g) = g.
Proof. destruct g. simpl. by intros ->. Qed.

Lemma not_waiting_node g c x : chan_ok g c x -> c_state x <> WAITING_FOR_PORT -> node x <> Some Waiting.
Proof.
  intros [_ _ _ [[_ (_ & H & _)]|[_ H]]] Hs; [congruence|]. unfold state_ok in H.
  destruct (c_state x); naive_solver.
Qed.

(** Cutting a disconnecting channel from its disconnecting peer. *)
Lemma cut_run g h c x q (Q : unit -> heap -> Prop) : inv g h -> owe g = None -> chans h !! c = Some x ->
  peer x = Some q -> c_state x = DISCONNECTING ->
  (forall h', inv g h' -> chans h' !! c = Some (set_peer None x) ->
     (forall d, d <> c -> d <> q -> chans h' !! d = chans h !! d) ->
     match chans h' !! q with Some y => c_state y = DISCONNECTING | None => True end ->
     ports h' = ports h -> ipc_port_list h' = ipc_port_list h -> next_obj h' = next_obj h ->
     waiting_list h' = waiting_list h -> Q tt h') ->
  runs (chan_del_ref q (PeerRef c) ;;; upd_chan c (set_peer None)) h Q.
Proof.
  intros Hi Ho Hx Hp Hs HQ. destruct (i_peer _ _ Hi c x Hx q Hp) as (Hne & y & Hy & Hok & _).
  assert (Hys : c_state y = DISCONNECTING) by (rewrite Hs in Hok; by destruct (c_state y)).
  eapply del_ref_comm; [done|exact Hx|].
  pose proof (cut_inv g h c x q Hi Ho Hx Hp Hs) as Hcut.
  eapply runs_pay; [exact Hcut|done|unfold upd; simpl; rewrite lookup_insert_ne by done; exact Hy|].
  rewrite settle_owing by done. intros h' Hi' Hpost.
  assert (Hcase : ((exists y', chans h' = <[q := y']> (<[c := set_peer None x]> (chans h)) /\ c_state y' = DISCONNECTING)
      \/ chans h' = delete q (<[c := set_peer None x]> (chans h))) /\ ports h' = ports h /\
      ipc_port_list h' = ipc_port_list h /\ next_obj h' = next_obj h /\ waiting_list h' = waiting_list h).
  { destruct Hpost as [(_ & ->)|(_ & _ & _ & ->)]; (split; [|done]); [left|right]; simpl; [|done].
    eexists. split; [done|]. done. }
  destruct Hcase as [[(y' & Hch & Hy')|Hch] (Hpo & Hl & Hn & Hw)]; apply HQ; auto; rewrite Hch.
  - rewrite lookup_insert_ne by done. apply lookup_insert_eq.
  - intros d H1 H2. by rewrite !lookup_insert_ne.
  - by rewrite lookup_insert_eq.
  - rewrite lookup_delete_ne by done. apply lookup_insert_eq.
  - intros d H1 H2. by rewrite lookup_delete_ne, lookup_insert_ne.
  - by rewrite lookup_delete_eq.
Qed.

(** *** The three cases of a shutdown *)

Lemma shutdown_waiting g h c x (Q : unit -> heap -> Prop) : inv g h -> owe g = None -> chans h !! c = Some x ->
  c ∉ wip g -> 0 < refcnt (c_handle x) \/ c ∈ tmp g -> c_state x = WAITING_FOR_PORT ->
  (forall h', inv g h' -> down_post h c x h' -> Q tt h') -> runs (chan_shutdown_locked c) h Q.
Proof.
  intros Hi Ho Hx Hw Hheld Hs HQ.
  destruct (c_st _ _ _ (i_chan _ _ Hi c x Hx)) as [[? _]|[_ Hst]]; [done|].
  unfold state_ok in Hst. rewrite Hs in Hst. destruct Hst as (Hp & Hn & _).
  unfold chan_shutdown_locked. apply runs_bind. unfold chan_shutdown_one.
  apply runs_bind. eapply runs_get_chan; [done|]. rewrite Hs.
  apply runs_bind, runs_assert; [by rewrite Hn|].
  apply runs_bind. unfold chan_unlink. apply runs_bind. eapply runs_get_chan; [done|]. rewrite Hn.
  pose proof (unlink_wait_inv g h c x Hi Ho Hx Hn) as Hu. set (h1 := set_waiting _ _) in Hu.
  change (runs (chan_del_ref c NodeRef ;;; upd_chan c (set_state DISCONNECTING)) h1
    (fun _ s' => runs (x <- get_chan c ;; match peer x with None => ret tt | Some q => chan_shutdown_one q ;;;
       chan_del_ref q (PeerRef c) ;;; upd_chan c (set_peer None) end) s' Q)).
  apply runs_bind. eapply runs_pay; [exact Hu|done|apply lookup_insert_eq|].
  intros h2 Hi2 [(Hne & ->)|(He & _)].
  2: { exfalso. destruct (i_refs _ _ Hi c x Hx) as [R1 R2 R3 R4].
       assert (Hin : exists r, r ∈ refs x /\ r <> NodeRef).
       { destruct Hheld; [exists HandleRef|exists TmpRef]; (split; [apply R3; by left|done]). }
       destruct Hin as (r & Hr & Hrn). assert (Hr' : r ∈ remove_first NodeRef (refs x)) by (by apply elem_of_remove_first).
       simpl in He. rewrite He in Hr'. set_solver. }
  eapply runs_upd_chan; [apply lookup_insert_eq|].
  apply runs_bind. eapply runs_get_chan; [apply lookup_insert_eq|]. simpl peer. rewrite Hp. apply runs_ret, HQ.
  - pose proof (wip_disc_inv _ _ c _ Hi2 (lookup_insert_eq _ _ _) ltac:(simpl; set_solver)) as Hd.
    assert (Hg : done_with c (settle (wip_owing c g)) = g).
    { destruct g as [t w o]. simpl in *. subst. unfold done_with. simpl. f_equal. set_solver. }
    by rewrite Hg in Hd.
  - split; try done.
    + eexists. split; [apply lookup_insert_eq|]. simpl. by rewrite decide_True.
    + intros q. by rewrite Hp.
    + intros d Hd _. unfold upd. simpl. by rewrite !lookup_insert_ne.
Qed.

Lemma shutdown_alone g h c x (Q : unit -> heap -> Prop) : inv g h -> chans h !! c = Some x ->
  c_state x = DISCONNECTING -> peer x = None -> node x <> Some Waiting ->
  (forall h', inv g h' -> down_post h c x h' -> Q tt h') -> runs (chan_shutdown_locked c) h Q.
Proof.
  intros Hi Hx Hs Hp Hn HQ. unfold chan_shutdown_locked. apply runs_bind.
  unfold chan_shutdown_one. apply runs_bind. eapply runs_get_chan; [done|]. rewrite Hs. apply runs_ret.
  apply runs_bind. eapply runs_get_chan; [done|]. rewrite Hp. apply runs_ret, HQ; [done|].
  split; try done; [|intros q; by rewrite Hp].
  exists x. rewrite decide_False by done. done.
Qed.

Lemma shutdown_pair g h c x q (Q : unit -> heap -> Prop) : inv g h -> owe g = None -> chans h !! c = Some x ->
  peer x = Some q -> c ∉ wip g ->
  (forall h', inv g h' -> down_post h c x h' -> Q tt h') -> runs (chan_shutdown_locked c) h Q.
Proof.
  intros Hi Ho Hx Hp Hw HQ. destruct (i_peer _ _ Hi c x Hx q Hp) as (Hne & y & Hy & Hok & Hb).
  assert (Hsx : c_state x <> INVALID /\ c_state x <> WAITING_FOR_PORT)
    by (split; intros E; rewrite E in Hok; by destruct (c_state y)).
  assert (Hsy : c_state y <> INVALID /\ c_state y <> WAITING_FOR_PORT)
    by (split; intros E; rewrite E in Hok; by destruct (c_state x)).
  assert (Hwq : q ∉ wip g).
  { intros Hq. destruct (wip_view g h q y Hi Hy Hq) as [_ Hnp]. by destruct (Hnp c x Hx). }
  pose proof (i_chan _ _ Hi c x Hx) as Cx. pose proof (i_chan _ _ Hi q y Hy) as Cy.
  unfold chan_shutdown_locked. apply runs_bind.
  eapply runs_mono; [apply shutdown_one_live; [done|apply Hsx..]|]. intros [] h1 H1. cbv beta.
  assert (Hc1 : chans h1 !! c = Some (set_state DISCONNECTING x))
    by (rewrite (graph_lookup _ _ _ H1); apply lookup_insert_eq).
  assert (Hq1 : chans h1 !! q = Some y)
    by (rewrite (graph_lookup _ _ _ H1); unfold upd; simpl; by rewrite lookup_insert_ne).
  apply runs_bind. eapply runs_get_chan; [done|]. simpl peer. rewrite Hp.
  apply runs_bind. eapply runs_mono; [apply shutdown_one_live; [done|apply Hsy..]|]. intros [] h2 H2. cbv beta.
  assert (H3 : graph (upd q (set_state DISCONNECTING y) (upd c (set_state DISCONNECTING x) h)) h2).
  { rewrite H1. exact H2. }
  assert (Hi2 : inv g h2).
  { rewrite <- H3. destruct (decide (c_state x = DISCONNECTING)) as [E|E].
    - rewrite E in Hok. assert (E2 : c_state y = DISCONNECTING) by (by destruct (c_state y)).
      rewrite (upd_id c) by (rewrite Hx; f_equal; destruct x; simpl in *; by subst).
      rewrite (upd_id q); [done|]. rewrite Hy. f_equal. destruct y; simpl in *; by subst.
    - eapply inv_pair; eauto; try done; apply disc_ok; auto; apply Hsx || apply Hsy. }
  eapply (cut_run g h2 c (set_state DISCONNECTING x) q); [exact Hi2|done| |exact Hp|done|].
  { rewrite (graph_lookup _ _ _ H3). unfold upd. simpl. rewrite lookup_insert_ne by done. apply lookup_insert_eq. }
  intros h' Hi' Hc' Ho' Hq' Hpo Hl Hn Hwl. apply HQ; [done|]. destruct H3 as [G1 G2 G3 G4 G5]. split.
  - eexists. split; [exact Hc'|]. simpl. split; [done|]. split; [done|].
    rewrite decide_False; [done|]. eapply not_waiting_node; [exact Cx|apply Hsx].
  - intros q' Hq2. rewrite Hp in Hq2. injection Hq2 as <-. exact Hq'.
  - intros d Hd Hd2. rewrite Hp in Hd2. rewrite Ho' by congruence. rewrite G1. simpl.
    rewrite !lookup_insert_ne by congruence. done.
  - intros _. rewrite Hwl, G3. done.
  - rewrite Hpo, G2. done.
  - rewrite Hl, G4. done.
  - rewrite Hn, G5. done.
Qed.

(** A shutdown of a channel that somebody holds. *)
Lemma shutdown_run g h c x (Q : unit -> heap -> Prop) : inv g h -> owe g = None -> chans h !! c = Some x ->
  c ∉ wip g -> 0 < refcnt (c_handle x) \/ c ∈ tmp g \/ is_Some (node x) /\ node x <> Some Waiting ->
  (forall h', inv g h' -> down_post h c x h' -> Q tt h') -> runs (chan_shutdown_locked c) h Q.
Proof.
  intros Hi Ho Hx Hw Hheld HQ. destruct (peer x) as [q|] eqn:Hp; [by eapply shutdown_pair|].
  pose proof (i_chan _ _ Hi c x Hx) as Cx.
  destruct (c_st _ _ _ Cx) as [[? _]|[_ Hst]]; [done|].
  unfold state_ok in Hst. destruct (c_state x) eqn:Hs; try done; rewrite ?Hp in Hst.
  - destruct Hst as [[? ?] _]. done.
  - destruct Hst as [[? ?] _]. done.
  - destruct Hst as [[? ?] _]. done.
  - eapply shutdown_alone; eauto. eapply not_waiting_node; [exact Cx|congruence].
  - eapply shutdown_waiting; eauto. destruct Hst as (_ & Hn & _). tauto.
Qed.

(** ** Dropping a handle of a channel *)

Lemma chan_decref_run h c x (Q : unit -> heap -> Prop) : inv quiet h -> chans h !! c = Some x ->
  0 < refcnt (c_handle x) -> (refcnt (c_handle x) = 1 -> peer x = None /\ c_state x <> WAITING_FOR_PORT) ->
  (forall h', inv quiet h' -> (forall d, d <> c -> chans h' !! d = chans h !! d) ->
     (chans h' !! c = None \/ exists x', chans h' !! c = Some x' /\ c_state x' = c_state x /\
        refcnt (c_handle x') = refcnt (c_handle x) - 1) ->
     ports h' = ports h -> ipc_port_list h' = ipc_port_list h -> waiting_list h' = waiting_list h -> Q tt h') ->
  runs (chan_decref c) h Q.
Proof.
  intros Hi Hx Hc Hp HQ. unfold chan_decref. apply runs_bind. eapply runs_get_chan; [done|].
  assert (Hd := decref_inv quiet h c x Hi eq_refl Hx Hc ltac:(intros E [q Hq]; destruct (Hp E); congruence)
    ltac:(intros E; by destruct (Hp E))).
  apply runs_bind. set (x1 := set_handle _ x) in *.
  change (runs (if (handle_decref_cnt (c_handle x)).2 then chan_handle_destroy c else ret tt) (upd c x1 h) Q).
  simpl. destruct (refcnt (c_handle x) =? 1) eqn:E; zbool.
  - eapply runs_pay; [exact Hd|done|apply lookup_insert_eq|].
    intros h' Hi' [(_ & ->)|(_ & _ & _ & ->)]; (apply HQ; try done).
    + intros d Hd'. unfold upd. simpl. by rewrite !lookup_insert_ne.
    + right. eexists. split; [apply lookup_insert_eq|]. done.
    + intros d Hd'. unfold upd. simpl. by rewrite lookup_delete_ne, lookup_insert_ne.
    + left. unfold upd. simpl. by rewrite lookup_delete_eq.
  - apply runs_ret, HQ; try done.
    + intros d Hd'. unfold upd. simpl. by rewrite lookup_insert_ne.
    + right. exists x1. split; [apply lookup_insert_eq|]. done.
Qed.

Lemma chan_close_end h c x : inv quiet h -> chans h !! c = Some x -> 0 < refcnt (c_handle x) ->
  runs (handle_close (HChan c)) h (fun _ h' => inv quiet h' /\
    match chans h' !! c with
    | Some x' => c_state x' = DISCONNECTING /\ refcnt (c_handle x') = refcnt (c_handle x) - 1
    | None => True
    end /\
    (forall q, peer x = Some q ->
       match chans h' !! q with Some y => c_state y = DISCONNECTING | None => True end) /\
    (forall d, d <> c -> peer x <> Some d -> chans h' !! d = chans h !! d) /\
    ports h' = ports h /\ ipc_port_list h' = ipc_port_list h).
Proof.
  intros Hi Hx Hc. unfold handle_close. apply runs_bind.
  eapply shutdown_run; [exact Hi|done|done|set_solver|by left|].
  intros h1 Hi1 [(x1 & Hx1 & Hs1 & Hp1 & Hn1 & Hh1 & _) Hpe Hot _ Hpo Hl _].
  eapply chan_decref_run; [done|exact Hx1|by rewrite Hh1|intros _; split; congruence|].
  intros h2 Hi2 Hot2 Hc2 Hpo2 Hl2 _. split; [done|]. split.
  { destruct Hc2 as [-> |(x2 & -> & Hs2 & Hr2)]; [done|]. rewrite Hs2, Hr2, Hh1. done. }
  split; [|split; [|split; congruence]].
  - intros q Hq. assert (q <> c) by (destruct (i_peer _ _ Hi c x Hx q Hq); done).
    rewrite Hot2 by done. by apply Hpe.
  - intros d Hd Hq. rewrite Hot2 by done. by apply Hot.
Qed.

Lemma chan_close_run h c x : inv quiet h -> chans h !! c = Some x -> 0 < refcnt (c_handle x) ->
  runs (handle_close (HChan c)) h (fun _ h' => inv quiet h' /\
    match chans h' !! c with
    | Some x' => c_state x' = DISCONNECTING /\ refcnt (c_handle x') = refcnt (c_handle x) - 1
    | None => True
    end /\
    (forall q, peer x = Some q ->
       match chans h' !! q with Some y => c_state y = DISCONNECTING | None => True end) /\
    (forall d, d <> c -> peer x <> Some d -> chans h' !! d = chans h !! d) /\
    ports h' = ports h /\ ipc_port_list h' = ipc_port_list h /\ others_kept c h h').
Proof.
  intros Hi Hx Hc. eapply runs_mono; [eapply runs_and; [by apply chan_close_end|]|].
  - intros u h' E. refine (keep_others c _ h u h' Hi _ E). apply keep_close. lia.
  - cbv beta. intros _ h' [(? & ? & ? & ? & ? & ?) ?]. split_and!; auto.
Qed.

Lemma bind_goes {S A B} (m : M S A) (f : A -> M S B) s a s' : m s = Done a s' -> bind m f s = f a s'.
Proof. unfold bind. by intros ->. Qed.

Lemma goes_get_chan c x h : chans h !! c = Some x -> get_chan c h = Done x h.
Proof. intros Hy. unfold get_chan, bind, get. by rewrite Hy. Qed.

(** A waiting channel that is in no list cannot be shut down. *)
Lemma shutdown_doomed {A} c x (k : M heap A) h : chans h !! c = Some x -> c_state x = WAITING_FOR_PORT -> node x = None ->
  (chan_shutdown_locked c ;;; k) h = Crash Panic.
Proof.
  intros Hx Hs Hn. unfold chan_shutdown_locked, chan_shutdown_one. unfold bind at 1 2 3.
  rewrite (goes_get_chan c x h Hx), Hs, Hn. done.
Qed.

(** C4: closing a handle of a channel, in a state where the object graph is
    sound ([inv quiet], what every call keeps that does not end in one of
    the findings), uses no freed object and fails no assertion.  Afterwards
    the channel is disconnecting or freed, its peer is disconnecting or
    freed, and every other channel, port and list but the list of waiting
    clients is as before; the object graph is sound again.  The soundness is
    needed: a channel that waits for a port but is in no list, which is what
    a publication that the hypervisor refuses leaves behind (ipc.c:281),
    stops the machine when its handle is closed. *)
Theorem chan_close_safe h c x : chans h !! c = Some x ->
  (inv quiet h -> 0 < refcnt (c_handle x) ->
    runs (handle_close (HChan c)) h (fun _ h' => inv quiet h' /\
      match chans h' !! c with
      | Some x' => c_state x' = DISCONNECTING /\ refcnt (c_handle x') = refcnt (c_handle x) - 1
      | None => True
      end /\
      (forall q, peer x = Some q ->
         match chans h' !! q with Some y => c_state y = DISCONNECTING | None => True end) /\
      (forall d, d <> c -> peer x <> Some d -> chans h' !! d = chans h !! d) /\
      ports h' = ports h /\ ipc_port_list h' = ipc_port_list h /\ others_kept c h h')) /\
  (c_state x = WAITING_FOR_PORT -> node x = None -> handle_close (HChan c) h = Crash Panic).
Proof.
  intros Hx. split; [intros; by apply chan_close_run|].
  intros Hs Hn. unfold handle_close. by eapply shutdown_doomed.
Qed.

(** ** Closing a port *)

Lemma put_port_eq p y h : put_port p y h = Done tt (set_ports (<[p := y]> (ports h)) h).
Proof. done. Qed.

(** A decrement that does not reach zero. *)
Lemma port_decref_run g h p y (Q : unit -> heap -> Prop) : inv g h -> ports h !! p = Some y ->
  1 <= port_ext h p y -> 1 < refcnt (p_handle y) ->
  (forall y', y' = set_p_handle (handle_decref_cnt (p_handle y)).1 y ->
     inv g (set_ports (<[p := y']> (ports h)) h) -> Q tt (set_ports (<[p := y']> (ports h)) h)) ->
  runs (port_decref p) h Q.
Proof.
  intros Hi Hy He Hc HQ. unfold port_decref. apply runs_bind. eapply runs_get_port; [done|].
  apply runs_bind. unfold runs at 1. rewrite put_port_eq. simpl.
  rewrite (proj2 (Z.eqb_neq _ _)) by lia. apply runs_ret, HQ; [done|].
  apply inv_port_cnt; simpl; auto; lia.
Qed.

Lemma shutdown_loop_run l : forall h p y (Q : unit -> heap -> Prop), inv quiet h -> ports h !! p = Some y ->
  pending_list y = l -> 1 <= port_ext h p y ->
  (forall h' y', inv quiet h' -> ports h' = <[p := y']> (ports h) -> pending_list y' = [] ->
     p_state y' = p_state y -> refcnt (p_handle y') = refcnt (p_handle y) - Z.of_nat (length l) ->
     ipc_port_list h' = ipc_port_list h -> Q tt h') ->
  runs (shutdown_loop p l) h Q.
Proof.
  induction l as [|s l IH]; intros h p y Q Hi Hy Hl He HQ; cbn [shutdown_loop].
  { apply runs_ret, (HQ h y); auto; [by rewrite insert_id|simpl; lia]. }
  pose proof (i_port _ _ Hi p y Hy) as [P1 P2 P3 P4 P5 P6]. rewrite Hl in *.
  destruct (proj1 (P5 s)) as (x & Hx & Hn); [left|].
  apply runs_bind. eapply shutdown_run; [exact Hi|done|exact Hx|set_solver|right; right; rewrite Hn; split; eauto; done|].
  intros h1 Hi1 [(x1 & Hx1 & Hs1 & Hp1 & Hn1 & Hh1 & _) _ Hot _ Hpo Hli _].
  rewrite decide_False in Hn1 by (rewrite Hn; done). rewrite Hn in Hn1.
  assert (Hy1 : ports h1 !! p = Some y) by congruence.
  apply runs_bind. unfold chan_unlink. apply runs_bind. eapply runs_get_chan; [exact Hx1|]. rewrite Hn1.
  apply runs_bind. eapply runs_upd_port; [exact Hy1|]. 
  pose proof (unlink_pend_inv quiet h1 s x1 p y Hi1 eq_refl Hx1 Hn1 Hy1 ltac:(set_solver) ltac:(by left)) as Hu.
  set (h2 := set_ports _ (upd s _ h1)) in Hu. change (runs (put_chan s _) ?a ?P) with (P tt h2). cbv beta.
  apply runs_bind. eapply runs_pay; [exact Hu|done|apply lookup_insert_eq|].
  intros h3 Hi3 Hpost. set (y2 := set_pending (remove_first s (pending_list y)) y) in *.
  assert (Hy2 : pending_list y2 = l) by (unfold y2; simpl; rewrite Hl; simpl; by rewrite decide_True).
  assert (H3 : ports h3 = <[p := y2]> (ports h1) /\ ipc_port_list h3 = ipc_port_list h1).
  { by destruct Hpost as [(_ & ->)|(_ & _ & _ & ->)]. }
  destruct H3 as (Hp3 & Hl3).
  assert (Hy3 : ports h3 !! p = Some y2) by (rewrite Hp3; apply lookup_insert_eq).
  assert (He3 : 1 <= port_ext h3 p y2 /\ 1 < refcnt (p_handle y2)).
  { unfold port_ext in *. rewrite Hl3, Hli, Hy2. rewrite Hl in He. simpl length in *. simpl p_handle.
    destruct (bool_decide _); lia. }
  apply runs_bind. eapply port_decref_run; [exact Hi3|exact Hy3|apply He3|apply He3|].
  intros y4 Hy4 Hi4. eapply IH; [exact Hi4|apply lookup_insert_eq|by subst y4| |].
  { unfold port_ext in *. subst y4. simpl. rewrite Hl3, Hli. rewrite Hl in He. simpl length in *.
    unfold y2 in Hy2. simpl in Hy2. rewrite Hy2. destruct (bool_decide _); lia. }
  intros h5 y5 Hi5 Hp5 Hpe5 Hst5 Hc5 Hl5. apply (HQ h5 y5); auto.
  - rewrite Hp5. simpl. rewrite Hp3, Hpo, !insert_insert_eq. done.
  - rewrite Hst5. by subst y4.
  - rewrite Hc5. subst y4. simpl. lia.
  - rewrite Hl5. simpl. congruence.
Qed.

(** C5: closing the handle of a port is safe in every state.  Afterwards the
    port accepts nothing more: it is not listed, no connection is pending on
    it, and the object itself is freed unless another handle remains. *)
Theorem port_close_safe h p y : inv quiet h -> ports h !! p = Some y -> 1 <= port_ext h p y ->
  runs (handle_close (HPort p)) h (fun _ h' => inv quiet h' /\ p ∉ ipc_port_list h' /\
    (forall c x, chans h' !! c = Some x -> node x <> Some (Pending p)) /\
    (forall q, q <> p -> ports h' !! q = ports h !! q) /\
    if port_ext h p y =? 1 then ports h' !! p = None
    else exists y', ports h' !! p = Some y' /\ p_state y' = IPC_PORT_STATE_CLOSING /\
           port_ext h' p y' = port_ext h p y - 1).
Proof.
  intros Hi Hy He. pose proof (i_port _ _ Hi p y Hy) as [P1 P2 P3 P4 P5 P6].
  destruct (i_list _ _ Hi) as [Lnd Lin].
  unfold handle_close. apply runs_bind. unfold port_shutdown.
  apply runs_bind. eapply runs_upd_port; [exact Hy|].
  set (y1 := set_p_state IPC_PORT_STATE_CLOSING y). set (h1 := set_ports _ h).
  apply runs_bind. unfold runs at 1, get. change (ipc_port_list h1) with (ipc_port_list h).
  set (l' := remove_first p (ipc_port_list h)).
  set (hd := if bool_decide (p ∈ ipc_port_list h) then (handle_decref_cnt (p_handle y)).1 else p_handle y).
  set (y2 := set_p_handle hd y1).
  assert (Hl' : forall q, q ∈ l' <-> q ∈ ipc_port_list h /\ q <> p) by (intros q; by apply elem_of_remove_first).
  assert (Hhd : refcnt hd = port_ext h p y + Z.of_nat (length (pending_list y))).
  { unfold hd, port_ext. case_bool_decide; simpl; lia. }
  set (h2 := set_port_list l' (set_ports (<[p := y2]> (ports h)) h)).
  assert (Hi2 : inv quiet h2).
  { eapply inv_port_upd; eauto; try done; try (simpl; lia).
    - by apply remove_first_NoDup.
    - intros q Hq. rewrite Hl'. tauto.
    - rewrite Hl'. simpl. split; [tauto|done].
    - rewrite bool_decide_eq_false_2 by (rewrite Hl'; tauto). simpl. lia. }
  apply runs_bind. assert (Hrun : forall Q : unit -> heap -> Prop, Q tt h2 ->
    runs (if bool_decide (p ∈ ipc_port_list h)
          then modify (fun h => set_port_list (remove_first p (ipc_port_list h)) h) ;;; port_decref p
          else ret tt) h1 Q).
  { intros Q HQ. unfold h2, y2, hd, l' in HQ. case_bool_decide as Hin.
    - apply runs_bind. unfold runs at 1, modify. unfold port_decref. apply runs_bind.
      eapply runs_get_port; [apply lookup_insert_eq|]. apply runs_bind. unfold runs at 1. rewrite put_port_eq.
      simpl. unfold port_ext in He. rewrite bool_decide_eq_true_2 in He by done.
      rewrite (proj2 (Z.eqb_neq _ _)) by lia. apply runs_ret. revert HQ.
      unfold h1. simpl. by rewrite insert_insert_eq.
    - apply runs_ret. revert HQ. rewrite remove_first_not_elem by done.
      unfold h1. by destruct h, y. }
  apply Hrun. clear Hrun.
  apply runs_bind. eapply runs_get_port; [apply lookup_insert_eq|].
  assert (He2 : port_ext h2 p y2 = port_ext h p y).
  { unfold port_ext at 1. simpl. rewrite bool_decide_eq_false_2 by (rewrite Hl'; tauto). lia. }
  eapply shutdown_loop_run; [exact Hi2|apply lookup_insert_eq|done|lia|].
  intros h3 y3 Hi3 Hp3 Hpe3 Hst3 Hc3 Hl3. simpl in Hc3, Hp3, Hl3. rewrite insert_insert_eq in Hp3.
  assert (Hy3 : ports h3 !! p = Some y3) by (rewrite Hp3; apply lookup_insert_eq).
  assert (Hnl : p ∉ ipc_port_list h3) by (rewrite Hl3, Hl'; tauto).
  unfold port_decref. cbn [handle_decref]. unfold port_decref.
  apply runs_bind. eapply runs_get_port; [exact Hy3|].
  assert (Hc3' : refcnt (p_handle y3) = port_ext h p y) by lia.
  assert (Hnode : forall c x, chans h3 !! c = Some x -> node x <> Some (Pending p)).
  { intros c x Hx Hn. assert (Hin : c ∈ pending_list y3) by (apply (p_pend _ _ _ (i_port _ _ Hi3 p y3 Hy3)); eauto).
    rewrite Hpe3 in Hin. set_solver. }
  apply runs_bind. unfold runs at 1. rewrite put_port_eq. simpl. rewrite Hc3'.
  destruct (port_ext h p y =? 1) eqn:E; zbool.
  - unfold port_handle_destroy. apply runs_bind. eapply runs_get_port; [apply lookup_insert_eq|].
    apply runs_bind. unfold runs at 1, get.
    apply runs_bind, runs_assert; [by apply bool_decide_eq_true_2|].
    apply runs_bind, runs_assert; [simpl; by rewrite bool_decide_eq_false_2|].
    unfold runs, modify. simpl. rewrite delete_insert_eq. split_and!; auto.
    + eapply (inv_port_delete quiet h3 p y3); eauto.
    + intros q Hq. rewrite lookup_delete_ne, Hp3 by done. by rewrite lookup_insert_ne.
    + apply lookup_delete_eq.
  - apply runs_ret. split_and!; auto.
    + apply inv_port_cnt; auto; simpl; [lia|]. unfold port_ext at 1. rewrite bool_decide_eq_false_2 by done.
      rewrite Hpe3. simpl. lia.
    + intros q Hq. simpl. rewrite lookup_insert_ne, Hp3 by done. by rewrite lookup_insert_ne.
    + eexists. split; [apply lookup_insert_eq|]. simpl. split; [done|].
      unfold port_ext at 1. simpl. rewrite (bool_decide_eq_false_2 (p ∈ ipc_port_list h3)) by done.
      rewrite Hpe3. simpl. lia.
Qed.

(** ** Attaching a client to a port *)

(** What is assumed of the allocator: a buffer for a queue has the size that
    was asked for. *)
Definition allocs_ok (a : allocs) (n sz : Z) : Prop :=
  (forall b, (a_client_mq a).2 = Some b -> Z.of_nat (length b) = n * sz) /\
  (forall b, (a_server_mq a).2 = Some b -> Z.of_nat (length b) = n * sz).

(** Every allocation of an attach succeeds. *)
Definition allocs_give (a : allocs) : Prop :=
  a_server a = true /\ (a_client_mq a).1 = true /\ is_Some (a_client_mq a).2 /\
  (a_server_mq a).1 = true /\ is_Some (a_server_mq a).2.

(** Why an attach is refused, with the code it returns. *)
Definition attach_refused (a : allocs) (w : port) (u : uuid) (r : Z) : Prop :=
  (p_state w <> IPC_PORT_STATE_LISTENING /\ r = ERR_NOT_READY) \/
  (check_access w (Some u) <> NO_ERROR /\ r = check_access w (Some u)) \/
  (~ allocs_give a /\ r = ERR_NO_MEMORY).

Lemma attach_refused_code a w u r : attach_refused a w u r -> r <> 0.
Proof. by intros [(_ & ->)|[(H & ->)|(_ & ->)]]. Qed.

Lemma mq_create_case have mb n sz : 0 < n <= 32 -> 0 < sz <= 4096 ->
  (forall b, mb = Some b -> Z.of_nat (length b) = n * sz) ->
  ((have = false \/ mb = None) /\ exists e, ipc_msg_queue_create have mb n sz = (e, None)) \/
  (exists mq, ipc_msg_queue_create have mb n sz = (0, Some mq) /\ mq_wf mq /\ pending mq = []).
Proof.
  intros Hn Hsz Hb. destruct have; [|left; split; [by left|eexists; reflexivity]].
  destruct mb as [b|]; [|left; split; [by right|eexists; reflexivity]]. right.
  destruct (ipc_msg_queue_create_wf b n sz) as (mq & Hc & Hwf & Hp & _); [lia|lia|by apply Hb|].
  exists mq. done.
Qed.

(** Two channels [c] and [s] of a heap. *)
Definition two (c : Z) (x : chan) (s : Z) (y : chan) (h : heap) : heap := upd s y (upd c x h).

Section Two.
Context (c s : Z) (Hne : c <> s).

Lemma two_c x y h : chans (two c x s y h) !! c = Some x.
Proof. unfold two, upd. simpl. rewrite lookup_insert_ne by done. apply lookup_insert_eq. Qed.
Lemma two_s x y h : chans (two c x s y h) !! s = Some y.
Proof. apply lookup_insert_eq. Qed.
Lemma upd_two_c x x' y h : upd c x' (two c x s y h) = two c x' s y h.
Proof. unfold two, upd. simpl. rewrite insert_insert_ne by done. by rewrite insert_insert_eq. Qed.
Lemma upd_two_s x y y' h : upd s y' (two c x s y h) = two c x s y' h.
Proof. unfold two, upd. simpl. by rewrite insert_insert_eq. Qed.

Lemma runs_two_c x y h f (Q : unit -> heap -> Prop) :
  Q tt (two c (f x) s y h) -> runs (upd_chan c f) (two c x s y h) Q.
Proof. intros HQ. eapply runs_upd_chan; [apply two_c|]. by rewrite upd_two_c. Qed.
Lemma runs_two_s x y h f (Q : unit -> heap -> Prop) :
  Q tt (two c x s (f y) h) -> runs (upd_chan s f) (two c x s y h) Q.
Proof. intros HQ. eapply runs_upd_chan; [apply two_s|]. by rewrite upd_two_s. Qed.
End Two.

Lemma peer_ref_free c q h : (forall d z, chans h !! d = Some z -> PeerRef q ∉ refs z) ->
  ref_linked c (PeerRef q) h = false.
Proof.
  intros Hn. simpl. apply not_true_is_false. intros Hex. apply existsb_exists in Hex as ([d z] & Hin & Hb).
  apply list_elem_of_In, elem_of_map_to_list in Hin. apply bool_decide_eq_true in Hb. by apply (Hn d z).
Qed.

Lemma runs_add_ref c r x h (Q : unit -> heap -> Prop) : chans h !! c = Some x -> ref_linked c r h = false ->
  Q tt (upd c (set_refs (refs x ++ [r]) x) h) -> runs (chan_add_ref c r) h Q.
Proof.
  intros Hx Hl HQ. unfold chan_add_ref. apply runs_bind. unfold runs at 1, get.
  apply runs_bind, runs_assert; [by rewrite Hl|]. by eapply runs_upd_chan.
Qed.

Lemma self_ref_free c r x h : chans h !! c = Some x -> r ∉ refs x -> (forall q, r <> PeerRef q) ->
  ref_linked c r h = false.
Proof.
  intros Hx Hr Hn. destruct r; simpl; rewrite ?Hx; try (by apply bool_decide_eq_false_2). by destruct (Hn q).
Qed.

(** A local reference that is the last one frees the channel. *)
Lemma runs_drop_tmp g h c x (Q : unit -> heap -> Prop) : inv g h -> owe g = None -> chans h !! c = Some x ->
  c ∈ tmp g -> (is_Some (peer x) -> 0 < refcnt (c_handle x) \/ is_Some (node x)) ->
  (c_state x = ACCEPTING -> is_Some (node x)) -> (c ∉ wip g -> c_state x = WAITING_FOR_PORT -> 0 < refcnt (c_handle x)) ->
  (forall h', inv (Ghost (tmp g ∖ {[c]}) (wip g) None) h' -> del_post c x TmpRef h h' -> Q tt h') ->
  runs (chan_del_ref c TmpRef) h Q.
Proof.
  intros Hi Ho Hx Hc H1 H2 H3 HQ. eapply runs_pay; [by eapply drop_tmp_inv|done|exact Hx|]. exact HQ.
Qed.

Definition attached (w : port) (s : Z) : port :=
  set_p_handle (handle_incref (p_handle w)) (set_pending (pending_list w ++ [s]) w).

(** What an attach of [c] to [p] may leave. *)
Record attach_post (g : ghost) (h : heap) (c p : Z) (x : chan) (w : port) (h' : heap) : Prop := {
  a_inv : inv (Ghost (tmp g) (wip g ∖ {[c]}) None) h';
  a_fresh : chans h !! next_obj h = None;
  a_client : exists x', chans h' !! c = Some x' /\ c_state x' = CONNECTING /\ peer x' = Some (next_obj h) /\
     c_handle x' = c_handle x /\ TmpRef ∈ refs x';
  a_srv : exists y', chans h' !! next_obj h = Some y' /\ c_state y' = ACCEPTING /\ peer y' = Some c /\
     node y' = Some (Pending p);
  a_other : forall d, d <> c -> d <> next_obj h -> chans h' !! d = chans h !! d;
  a_ports : ports h' = <[p := attached w (next_obj h)]> (ports h);
  a_wait : waiting_list h' = waiting_list h;
  a_list : ipc_port_list h' = ipc_port_list h;
  a_next : next_obj h' = next_obj h + 1
}.

(** A refused attach changes no object. *)
Record same_objects (h h' : heap) : Prop := {
  s_chans : chans h' = chans h;
  s_ports : ports h' = ports h;
  s_wait : waiting_list h' = waiting_list h;
  s_list : ipc_port_list h' = ipc_port_list h;
  s_next : next_obj h <= next_obj h'
}.

Section Attach.
Context (g : ghost) (h : heap) (c p : Z) (x : chan) (w : port) (a : allocs).
Context (Hi : inv g h) (Ho : owe g = None) (Hx : chans h !! c = Some x) (Hw : ports h !! p = Some w).
Context (Hcw : c ∈ wip g) (Hct : c ∈ tmp g) (Hmq : msg_queue x = None \/ allocs_give a).
Context (Hnt : next_obj h ∉ tmp g) (Hnw : next_obj h ∉ wip g).
Notation s := (next_obj h).

Lemma new_ne : c <> s.
Proof. intros E. destruct (i_fresh _ _ Hi s) as [H _]; [lia|]. congruence. Qed.

(** The new server goes again when a queue cannot be allocated. *)
Lemma attach_undo flags u (Q : unit -> heap -> Prop) :
  (forall h', inv g h' -> same_objects h h' -> Q tt h') ->
  runs (chan_del_ref s TmpRef) (alloced s (fresh_chan flags u) h) Q.
Proof.
  intros HQ. pose proof (alloc_inv g h flags u Hi Ho Hnt Hnw) as Ha. cbv zeta in Ha.
  destruct (i_fresh _ _ Hi s) as [Hs _]; [lia|].
  eapply runs_drop_tmp; [exact Ha|done|apply lookup_insert_eq|simpl; set_solver|by intros [? ?]|done|done|].
  intros h' Hi' [(Hr & _)|(_ & _ & _ & ->)]; [done|].
  assert (Hch : chans (set_chans (delete s (chans (alloced s (fresh_chan flags u) h)))
                        (alloced s (fresh_chan flags u) h)) = chans h).
  { simpl. rewrite delete_insert_eq. by rewrite delete_id. }
  apply HQ.
  - apply (done_gone _ _ s) in Hi'; [|by rewrite Hch].
    assert (Hg : done_with s (Ghost (({[s]} ∪ tmp g) ∖ {[s]}) ({[s]} ∪ wip g) None) = g).
    { destruct g as [t wi o]. simpl in *. subst o. unfold done_with. simpl. f_equal; set_solver. }
    unfold done_with in *. simpl in *. by rewrite Hg in Hi'.
  - split; try done. simpl. lia.
Qed.

Definition linked_client (cmq : ipc_msg_queue) : chan :=
  set_refs (refs x ++ [PeerRef s]) (set_peer (Some s) (set_state CONNECTING (set_mq (Some cmq) x))).

Definition linked_server (smq : ipc_msg_queue) : chan :=
  set_node (Some (Pending p)) (set_refs ((refs (fresh_chan IPC_CHAN_FLAG_SERVER (p_uuid w)) ++ [PeerRef c]) ++ [NodeRef])
    (set_peer (Some c) (set_state ACCEPTING (set_mq (Some smq) (fresh_chan IPC_CHAN_FLAG_SERVER (p_uuid w)))))).

Lemma attach_link cmq smq (Q : Z -> heap -> Prop) : mq_wf cmq -> mq_wf smq -> p_state w = IPC_PORT_STATE_LISTENING ->
  (forall h', attach_post g h c p x w h' -> Q NO_ERROR h') ->
  runs (upd_chan s (set_mq (Some smq)) ;;; upd_chan s (set_state ACCEPTING) ;;; upd_chan c (set_state CONNECTING) ;;;
        chan_add_ref s (PeerRef c) ;;; upd_chan c (set_peer (Some s)) ;;; chan_add_ref c (PeerRef s) ;;;
        upd_chan s (set_peer (Some c)) ;;; chan_add_ref s NodeRef ;;;
        upd_port p (fun x => set_pending (pending_list x ++ [s]) x) ;;;
        upd_chan s (set_node (Some (Pending p))) ;;; port_incref p ;;; notify_port p ;;;
        chan_del_ref s TmpRef ;;; ret NO_ERROR)
    (two c (set_mq (Some cmq) x) s (fresh_chan IPC_CHAN_FLAG_SERVER (p_uuid w)) (set_next (s + 1) h)) Q.
Proof.
  intros Hwf1 Hwf2 Hls HQ. pose proof new_ne as Hne. set (y := fresh_chan _ _). set (hn := set_next (s + 1) h).
  assert (Hfree : forall q d z, q = c \/ q = s -> chans h !! d = Some z -> PeerRef q ∉ refs z).
  { intros q d z Hq Hz Hin. apply (r_due _ _ _ _ (i_refs _ _ Hi d z Hz)) in Hin as [Hd|Hd]; [|congruence].
    simpl in Hd. unfold peer_of in Hd. destruct Hq as [->| ->].
    - rewrite Hx in Hd. simpl in Hd. destruct (wip_view g h c x Hi Hx Hcw) as [[Hp _] _]. congruence.
    - destruct (i_fresh _ _ Hi s) as [Hs _]; [lia|]. by rewrite Hs in Hd. }
  assert (Htwo : forall q x' y', q = c \/ q = s -> PeerRef q ∉ refs x' -> PeerRef q ∉ refs y' ->
            forall d, ref_linked d (PeerRef q) (two c x' s y' hn) = false).
  { intros q x' y' Hq H1 H2 d. apply peer_ref_free. intros e z Hz.
    apply upd_lookup in Hz as [[_ ->]|[_ Hz]]; [done|]. apply upd_lookup in Hz as [[_ ->]|[_ Hz]]; [done|].
    by eapply Hfree. }
  assert (Hrx : PeerRef c ∉ refs x /\ PeerRef s ∉ refs x) by (split; eapply Hfree; eauto).
  apply runs_bind, runs_two_s. apply runs_bind, runs_two_s.
  apply runs_bind, runs_two_c; [done|].
  apply runs_bind. eapply runs_add_ref; [by apply two_s|apply Htwo; [by left|apply Hrx|simpl; set_solver]|].
  rewrite upd_two_s by done. apply runs_bind, runs_two_c; [done|].
  apply runs_bind. eapply runs_add_ref; [by apply two_c|apply Htwo; [by right|apply Hrx|simpl; set_solver]|].
  rewrite upd_two_c by done. apply runs_bind, runs_two_s.
  apply runs_bind. eapply runs_add_ref; [by apply two_s|eapply self_ref_free; [by apply two_s|simpl; set_solver|done]|].
  rewrite upd_two_s by done.
  apply runs_bind. eapply runs_upd_port; [exact Hw|].
  apply runs_bind. eapply runs_upd_chan; [by apply (two_s c s)|].
  apply runs_bind. unfold port_incref. eapply runs_upd_port; [apply lookup_insert_eq|].
  pose proof (alloc_inv g h IPC_CHAN_FLAG_SERVER (p_uuid w) Hi Ho Hnt Hnw) as Ha. cbv zeta in Ha. fold y in Ha.
  set (X := linked_client cmq). set (Y := linked_server smq).
  assert (Hlink : inv (link_ghost (Ghost ({[s]} ∪ tmp g) ({[s]} ∪ wip g) None) c s)
                    (link_heap (alloced s y h) c s p X Y w)).
  { eapply (link_inv _ (alloced s y h) c s p x y X Y w); [exact Ha|reflexivity|exact Hne|..|exact Hls].
    - unfold alloced, upd. simpl. by rewrite lookup_insert_ne.
    - apply lookup_insert_eq.
    - exact Hw.
    - apply elem_of_union. by right.
    - apply elem_of_union_l, elem_of_singleton_2. reflexivity.
    - apply elem_of_union_l, elem_of_singleton_2. reflexivity.
    - left. apply elem_of_union. by right.
    - reflexivity.
    - split; try reflexivity.
      + unfold X. simpl. destruct (wip_view g h c x Hi Hx Hcw) as [(_ & Hn & _) _]. exact Hn.
      + eexists. split; [reflexivity|exact Hwf1].
      + eexists. split; [reflexivity|exact Hwf2]. }
  match goal with |- runs _ ?h' _ => set (h1 := h') end.
  assert (Hg : graph (link_heap (alloced s y h) c s p X Y w) h1).
  { split; try done.
    - unfold h1, link_heap, alloced, two, upd. simpl.
      apply map_eq. intros d. destruct (decide (d = s)) as [->|]; [by rewrite !lookup_insert_eq|].
      destruct (decide (d = c)) as [->|]; rewrite ?(lookup_insert_ne _ s) by congruence;
        [by rewrite !lookup_insert_eq|by rewrite !lookup_insert_ne by congruence].
    - unfold h1, link_heap, hn. simpl. by rewrite insert_insert_eq. }
  apply runs_bind. eapply runs_notify_port; [apply lookup_insert_eq|]. intros h2 Hg2.
  rewrite Hg2 in Hg. rewrite Hg in Hlink.
  assert (Hs2 : chans h2 !! s = Some Y).
  { rewrite (graph_lookup _ _ _ Hg). apply link_at_s. }
  assert (Hc2 : chans h2 !! c = Some X).
  { rewrite (graph_lookup _ _ _ Hg). by apply link_at_c. }
  assert (Ho2 : forall d, d <> c -> d <> s -> chans h2 !! d = chans h !! d).
  { intros d H1 H2. rewrite (graph_lookup _ _ _ Hg), link_other by done. unfold alloced, upd. simpl.
    by rewrite lookup_insert_ne. }
  apply runs_bind. eapply runs_drop_tmp; [exact Hlink|done|exact Hs2|simpl; set_solver|by right|by eauto|done|].
  intros h3 Hi3 [(_ & ->)|(Hr & _)]; [|done].
  apply runs_ret, HQ. destruct Hg as [_ G2 G3 G4 G5]. split; try done.
  - assert (Hge : Ghost (tmp (link_ghost (Ghost ({[s]} ∪ tmp g) ({[s]} ∪ wip g) None) c s) ∖ {[s]})
       (wip (link_ghost (Ghost ({[s]} ∪ tmp g) ({[s]} ∪ wip g) None) c s)) None = Ghost (tmp g) (wip g ∖ {[c]}) None).
    { simpl. f_equal; set_solver. }
    rewrite Hge in Hi3. exact Hi3.
  - apply (i_fresh _ _ Hi). lia.
  - exists X. unfold upd. simpl. rewrite lookup_insert_ne by done. split; [done|]. split_and!; try done.
    apply elem_of_app. left. apply (r_due _ _ _ _ (i_refs _ _ Hi c x Hx)). by left.
  - eexists. split; [apply lookup_insert_eq|]. done.
  - intros d H1 H2. unfold upd. simpl. rewrite lookup_insert_ne by done. by apply Ho2.
Qed.

Lemma attach_run (Q : Z -> heap -> Prop) : allocs_ok a (num_recv_bufs w) (recv_buf_size w) ->
  (forall r h', attach_refused a w (c_uuid x) r -> inv g h' -> same_objects h h' -> Q r h') ->
  (forall h', p_state w = IPC_PORT_STATE_LISTENING -> check_access w (Some (c_uuid x)) = NO_ERROR ->
     attach_post g h c p x w h' -> Q NO_ERROR h') ->
  runs (port_attach_client a p c) h Q.
Proof.
  intros [Ha1 Ha2] HQe HQ. pose proof new_ne as Hne.
  destruct (p_bufs _ _ _ (i_port _ _ Hi p w Hw)) as [Hb1 Hb2].
  assert (Hsame : same_objects h h) by (split; done || lia).
  unfold port_attach_client. apply runs_bind. eapply runs_get_port; [exact Hw|].
  destruct (negb (p_state w =? _)) eqn:Est; zbool; [apply runs_ret, HQe; [by left|done..]|].
  apply runs_bind. eapply runs_get_chan; [exact Hx|]. cbv zeta.
  destruct (negb (check_access w _ =? NO_ERROR)) eqn:Eac; zbool; [apply runs_ret, HQe; [by right; left|done..]|].
  apply runs_bind. unfold chan_alloc.
  destruct (a_server a) eqn:Eas; simpl; [|apply runs_ret, HQe; [right; right; split; [intros [? _]; congruence|done]|done..]].
  change (runs (h0 <- get ;; ?k h0) h ?P) with (runs (k h) h P). cbv beta.
  apply runs_bind. change (runs (put_chan s ?z) h ?P) with (P tt (upd s z h)). cbv beta.
  apply runs_bind. change (runs (modify (set_next (s + 1))) ?h ?P) with (P tt (set_next (s + 1) h)). cbv beta.
  apply runs_ret. fold (fresh_chan IPC_CHAN_FLAG_SERVER (p_uuid w)).
  change (set_next (s + 1) (set_chans (<[s := fresh_chan IPC_CHAN_FLAG_SERVER (p_uuid w)]> (chans h)) h))
    with (alloced s (fresh_chan IPC_CHAN_FLAG_SERVER (p_uuid w)) h).
  destruct (mq_create_case (a_client_mq a).1 (a_client_mq a).2 (num_recv_bufs w) (recv_buf_size w) Hb1 Hb2 Ha1)
    as [[Hno [e ->]]|(cmq & -> & Hwf1 & _)].
  { apply runs_bind, attach_undo. intros h' Hi' Hs'. apply runs_ret, HQe; [|done..]. right. right. split; [|done].
    intros (_ & G1 & [? G2] & _). destruct Hno; congruence. }
  assert (Hxa : chans (alloced s (fresh_chan IPC_CHAN_FLAG_SERVER (p_uuid w)) h) !! c = Some x).
  { unfold alloced, upd. simpl. by rewrite lookup_insert_ne. }
  apply runs_bind. eapply runs_upd_chan; [exact Hxa|].
  destruct (mq_create_case (a_server_mq a).1 (a_server_mq a).2 (num_recv_bufs w) (recv_buf_size w) Hb1 Hb2 Ha2)
    as [[Hno [e ->]]|(smq & -> & Hwf2 & _)].
  - apply runs_bind. eapply runs_upd_chan; [apply lookup_insert_eq|].
    assert (Hmq' : msg_queue x = None).
    { destruct Hmq as [|(_ & _ & _ & G1 & [? G2])]; [done|]. destruct Hno; congruence. }
    assert (Hback : upd c (set_mq None (set_mq (Some cmq) x)) (upd c (set_mq (Some cmq) x)
       (alloced s (fresh_chan IPC_CHAN_FLAG_SERVER (p_uuid w)) h)) = alloced s (fresh_chan IPC_CHAN_FLAG_SERVER (p_uuid w)) h).
    { assert (Hsx : set_mq None (set_mq (Some cmq) x) = x) by (clear -Hmq'; destruct x; simpl in *; by subst).
      rewrite Hsx. rewrite <- (upd_id c x _ Hxa) at 2. unfold upd at 1. cbn [chans set_chans upd].
      unfold upd at 2. cbn [chans set_chans]. by rewrite insert_insert_eq. }
    rewrite Hback. apply runs_bind, attach_undo. intros h' Hi' Hs'. apply runs_ret, HQe; [|done..]. right. right.
    split; [|done]. intros (_ & _ & _ & G1 & [? G2]). destruct Hno; congruence.
  - assert (Htwo : upd c (set_mq (Some cmq) x) (alloced s (fresh_chan IPC_CHAN_FLAG_SERVER (p_uuid w)) h) =
      two c (set_mq (Some cmq) x) s (fresh_chan IPC_CHAN_FLAG_SERVER (p_uuid w)) (set_next (s + 1) h)).
    { unfold two, alloced, upd, set_next. simpl. unfold set_chans. simpl. f_equal. by rewrite insert_insert_ne. }
    rewrite Htwo. apply attach_link; auto.
Qed.
End Attach.

(** ** Connecting *)

Lemma port_find_run path l h (Q : option Z -> heap -> Prop) :
  (forall p, p ∈ l -> is_Some (ports h !! p)) ->
  (forall p y, p ∈ l -> ports h !! p = Some y -> path = p_path y -> Q (Some p) h) ->
  ((forall p y, p ∈ l -> ports h !! p = Some y -> path <> p_path y) -> Q None h) ->
  runs (port_find path l) h Q.
Proof.
  induction l as [|p l IH]; intros Hl HQ1 HQ2; cbn [port_find].
  - apply runs_ret, HQ2. set_solver.
  - destruct (Hl p) as [y Hy]; [left|]. apply runs_bind. eapply runs_get_port; [exact Hy|].
    case_bool_decide as Hp.
    + apply runs_ret. eapply HQ1; [left|exact Hy|exact Hp].
    + apply IH.
      * intros q Hq. apply Hl. by right.
      * intros q z Hq. apply HQ1. by right.
      * intros Hn. apply HQ2. intros q z [->|Hq]%elem_of_cons Hz; [congruence|by eapply Hn].
Qed.

Lemma port_find_locked_run g path h (Q : option Z -> heap -> Prop) : inv g h ->
  (forall p y, p ∈ ipc_port_list h -> ports h !! p = Some y -> path = p_path y -> Q (Some p) h) ->
  ((forall p y, p ∈ ipc_port_list h -> ports h !! p = Some y -> path <> p_path y) -> Q None h) ->
  runs (port_find_locked path) h Q.
Proof.
  intros Hi. unfold port_find_locked. intros H1 H2. apply runs_bind. unfold runs at 1, get.
  apply port_find_run; [apply (i_list _ _ Hi)|done|done].
Qed.

(** The new client and what it is. *)
Definition new_client_post (access : Z -> uuid -> Z) (guest : Z) (cid : uuid) (path : list Z) (flags : Z) (h : heap)
    (c : Z) (h' : heap) : Prop :=
  chans h !! c = None /\ exists x', chans h' !! c = Some x' /\ refcnt (c_handle x') = 1 /\
    guest_id (c_handle x') = guest /\ Handle.wait_event (c_handle x') = None /\
    ((c_state x' = CONNECTING /\ exists p w s y', peer x' = Some s /\ chans h' !! s = Some y' /\
        c_state y' = ACCEPTING /\ peer y' = Some c /\ ports h !! p = Some w /\ p_path w = path /\
        p_state w = IPC_PORT_STATE_LISTENING /\ check_access w (Some cid) = NO_ERROR /\ access guest (p_uuid w) = 0 /\
        (exists w', ports h' !! p = Some w' /\ pending_list w' = pending_list w ++ [s])) \/
     (c_state x' = WAITING_FOR_PORT /\ has_flag flags IPC_CONNECT_WAIT_FOR_PORT = true /\
        waiting_list h' = waiting_list h ++ [c] /\
        (forall p y, p ∈ ipc_port_list h -> ports h !! p = Some y -> path <> p_path y))).

(** Why a connection request is refused, and the code that it returns. *)
Inductive connect_refused (access : Z -> uuid -> Z) (ok : bool) (a : allocs) (strdup : bool) (guest : Z)
    (cid : option uuid) (path : list Z) (max_path flags : Z) (h : heap) : Z -> Prop :=
| RefusedId : cid = None -> connect_refused access ok a strdup guest cid path max_path flags h ERR_INVALID_ARGS
| RefusedPath : Z.of_nat (length (cstr path)) = 0 \/ max_path <= Z.of_nat (length (cstr path)) \/ max_path = 0 ->
    connect_refused access ok a strdup guest cid path max_path flags h ERR_INVALID_ARGS
| RefusedMem : ok = false \/ strdup = false ->
    connect_refused access ok a strdup guest cid path max_path flags h ERR_NO_MEMORY
| RefusedHyp p w : p ∈ ipc_port_list h -> ports h !! p = Some w -> p_path w = cstr path ->
    access guest (p_uuid w) <> 0 ->
    connect_refused access ok a strdup guest cid path max_path flags h (access guest (p_uuid w))
| RefusedPort p w u r : p ∈ ipc_port_list h -> ports h !! p = Some w -> p_path w = cstr path -> cid = Some u ->
    (check_access w (Some u) <> NO_ERROR /\ r = check_access w (Some u) \/ ~ allocs_give a /\ r = ERR_NO_MEMORY) ->
    connect_refused access ok a strdup guest cid path max_path flags h r
| RefusedNone : has_flag flags IPC_CONNECT_WAIT_FOR_PORT = false ->
    (forall p y, p ∈ ipc_port_list h -> ports h !! p = Some y -> cstr path <> p_path y) ->
    connect_refused access ok a strdup guest cid path max_path flags h ERR_NOT_FOUND.

(** The handle of a connected or waiting client is made, and the local
    reference dropped. *)
Lemma finish_client h c x guest (Q : Z * option hptr -> heap -> Prop) :
  inv (Ghost {[c]} ∅ None) h -> chans h !! c = Some x -> refcnt (c_handle x) = 0 -> TmpRef ∈ refs x ->
  c_state x = CONNECTING \/ c_state x = WAITING_FOR_PORT ->
  (forall x' h', inv quiet h' -> h' = upd c x' h -> c_state x' = c_state x -> peer x' = peer x ->
     refcnt (c_handle x') = 1 -> guest_id (c_handle x') = guest /\ Handle.wait_event (c_handle x') = None -> Q (NO_ERROR, Some (HChan c)) h') ->
  runs (hp <- chan_handle_init c ;; upd_chan c (fun x => set_handle (set_guest guest (c_handle x)) x) ;;;
        chan_del_ref c TmpRef ;;; ret (NO_ERROR, Some hp)) h Q.
Proof.
  intros Hi Hx H0 Htmp Hst HQ. apply runs_bind. unfold chan_handle_init.
  assert (Hnh : HandleRef ∉ refs x).
  { intros Hin. apply (r_due _ _ _ _ (i_refs _ _ Hi c x Hx)) in Hin as [Hd|Hd]; [simpl in Hd; lia|done]. }
  apply runs_bind. eapply runs_upd_chan; [exact Hx|].
  apply runs_bind. eapply runs_add_ref; [apply lookup_insert_eq|eapply self_ref_free; [apply lookup_insert_eq|exact Hnh|done]|].
  apply runs_ret. apply runs_bind. eapply runs_upd_chan; [apply lookup_insert_eq|].
  set (x1 := set_handle (set_guest guest _) _).
  assert (Hh1 : upd c x1 (upd c (set_refs (refs (set_handle handle_init x) ++ [HandleRef]) (set_handle handle_init x))
                  (upd c (set_handle handle_init x) h)) = upd c x1 h).
  { unfold upd. simpl. by rewrite !insert_insert_eq. }
  rewrite Hh1. clear Hh1.
  assert (Hi1 : inv (Ghost {[c]} ∅ None) (upd c x1 h)).
  { apply (handle_init_inv (Ghost {[c]} ∅ None) h c x (set_guest guest handle_init)); auto; simpl; try lia; try set_solver. }
  apply runs_bind. eapply runs_drop_tmp; [exact Hi1|done|apply lookup_insert_eq|simpl; set_solver|..].
  - intros _. left. simpl. lia.
  - simpl. intros E. destruct Hst; congruence.
  - intros _ _. simpl. lia.
  - intros h' Hi' [(_ & ->)|(Hr & _)].
    + apply runs_ret. simpl in Hi'. eapply HQ; [|unfold upd; simpl; rewrite insert_insert_eq; reflexivity|done..].
      assert (Hg : Ghost ({[c]} ∖ {[c]}) ∅ None = quiet) by (unfold quiet; f_equal; set_solver).
      by rewrite <- Hg.
    + exfalso. assert (Hin : HandleRef ∈ remove_first TmpRef (refs x1)).
      { apply elem_of_remove_first; [apply (i_refs _ _ Hi1 c x1), lookup_insert_eq|]. split; [|done].
        simpl. apply elem_of_app. right. by left. }
      rewrite Hr in Hin. set_solver.
Qed.

(** A client that could not be connected goes again. *)
Lemma drop_client h c x r (Q : Z * option hptr -> heap -> Prop) : inv (Ghost {[c]} {[c]} None) h ->
  chans h !! c = Some x -> refs x = [TmpRef] -> 
  (forall h', inv quiet h' -> chans h' = delete c (chans h) -> ports h' = ports h -> waiting_list h' = waiting_list h ->
     ipc_port_list h' = ipc_port_list h -> Q (r, None) h') ->
  runs (chan_del_ref c TmpRef ;;; ret (r, None)) h Q.
Proof.
  intros Hi Hx Hr HQ. destruct (wip_view _ h c x Hi Hx) as [(Hp & Hn & Hs) _]; [simpl; set_solver|].
  apply runs_bind. eapply runs_drop_tmp; [exact Hi|done|exact Hx|simpl; set_solver|rewrite Hp; by intros [? ?]|..].
  - intros E. destruct Hs; congruence.
  - simpl. set_solver.
  - intros h' Hi' [(Hne & _)|(_ & _ & _ & ->)]; [by rewrite Hr in Hne|].
    apply runs_ret, HQ; try done. apply (done_gone _ _ c) in Hi'; [|simpl; by rewrite lookup_delete_eq].
    assert (Hg : done_with c (Ghost ({[c]} ∖ {[c]}) {[c]} None) = quiet).
    { unfold done_with, quiet. simpl. f_equal; set_solver. }
    simpl in Hi'. by rewrite Hg in Hi'.
Qed.

Lemma port_guest_inv g h p w guest : inv g h -> ports h !! p = Some w ->
  inv g (set_ports (<[p := set_p_handle (set_guest guest (p_handle w)) w]> (ports h)) h).
Proof.
  intros Hi Hw. pose proof (i_port _ _ Hi p w Hw) as [P1 P2 P3 P4 P5 P6].
  apply inv_port_cnt; simpl; auto; lia.
Qed.

Section Connect.
Context (access : Z -> uuid -> Z) (a : allocs) (guest : Z) (cid : uuid) (path : list Z) (flags : Z).
Context (h : heap) (Hi : inv quiet h).
Notation c := (next_obj h).
Notation h1 := (alloced c (fresh_chan 0 cid) h).
Notation g1 := (Ghost {[c]} {[c]} None).

Lemma connect_alloc_inv : inv g1 h1.
Proof.
  pose proof (alloc_inv quiet h 0 cid Hi eq_refl) as Ha. simpl in Ha.
  rewrite !(right_id_L ∅ (∪)) in Ha. apply Ha; set_solver.
Qed.

Lemma connect_client : chans h1 !! c = Some (fresh_chan 0 cid).
Proof. apply lookup_insert_eq. Qed.

Lemma connect_fresh : chans h !! c = None.
Proof. apply (i_fresh _ _ Hi). lia. Qed.

(** The client is given up. *)
Lemma connect_fail h2 r (Q : Z * option hptr -> heap -> Prop) : inv g1 h2 -> chans h2 = chans h1 ->
  (forall h', inv quiet h' -> chans h' = chans h -> waiting_list h' = waiting_list h2 ->
     ipc_port_list h' = ipc_port_list h2 -> Q (r, None) h') ->
  runs (chan_del_ref c TmpRef ;;; ret (r, None)) h2 Q.
Proof.
  intros Hi2 Hc HQ. eapply drop_client; [exact Hi2|rewrite Hc; apply connect_client|done|].
  intros h' Hi' Hc' _ Hw Hl. apply HQ; try done. rewrite Hc', Hc. simpl. rewrite delete_insert_eq.
  apply delete_id, connect_fresh.
Qed.

Lemma connect_found p w (Q : Z -> heap -> Prop) : ports h !! p = Some w ->
  allocs_ok a (num_recv_bufs w) (recv_buf_size w) ->
  (forall r h', (access guest (p_uuid w) <> 0 /\ r = access guest (p_uuid w)) \/ attach_refused a w cid r ->
     inv g1 h' -> chans h' = chans h1 -> waiting_list h' = waiting_list h ->
     ipc_port_list h' = ipc_port_list h -> Q r h') ->
  (forall h', access guest (p_uuid w) = 0 -> p_state w = IPC_PORT_STATE_LISTENING ->
     check_access w (Some cid) = NO_ERROR ->
     attach_post g1 (set_ports (<[p := set_p_handle (set_guest guest (p_handle w)) w]> (ports h1)) h1) c p
       (fresh_chan 0 cid) (set_p_handle (set_guest guest (p_handle w)) w) h' -> Q NO_ERROR h') ->
  runs (x <- get_port p ;;
        let err := access guest (p_uuid x) in
        if negb (err =? 0) then ret err
        else put_port p (set_p_handle (set_guest guest (p_handle x)) x) ;;; port_attach_client a p c) h1 Q.
Proof.
  intros Hw Ha HQe HQ. pose proof connect_alloc_inv as Hi1.
  apply runs_bind. eapply runs_get_port; [exact Hw|]. cbv zeta.
  destruct (negb (access guest (p_uuid w) =? 0)) eqn:Eacc; zbool; [apply runs_ret, HQe; [by left|done..]|].
  apply runs_bind. unfold runs at 1. rewrite put_port_eq.
  eapply (attach_run g1 _ c p (fresh_chan 0 cid) (set_p_handle (set_guest guest (p_handle w)) w) a); try done.
  - by apply port_guest_inv.
  - apply connect_client.
  - apply lookup_insert_eq.
  - simpl. set_solver.
  - simpl. set_solver.
  - by left.
  - simpl. rewrite elem_of_singleton. lia.
  - simpl. rewrite elem_of_singleton. lia.
  - intros r h' Hr Hi' [S1 S2 S3 S4 S5]. apply HQe; [right; exact Hr|done..].
  - intros h' Hst Hca Hp. by apply HQ.
Qed.

Lemma connect_wait (Q : Z -> heap -> Prop) :
  Q NO_ERROR (set_waiting (waiting_list h1 ++ [c]) (upd c (waiting_chan path (fresh_chan 0 cid)) h1)) ->
  runs (upd_chan c (set_c_path (Some path)) ;;; upd_chan c (set_state WAITING_FOR_PORT) ;;;
        modify (fun h => set_waiting (waiting_list h ++ [c]) h) ;;; upd_chan c (set_node (Some Waiting)) ;;;
        chan_add_ref c NodeRef ;;; ret NO_ERROR) h1 Q.
Proof.
  intros HQ. apply runs_bind. eapply runs_upd_chan; [apply connect_client|].
  apply runs_bind. eapply runs_upd_chan; [apply lookup_insert_eq|].
  apply runs_bind. unfold runs at 1, modify.
  apply runs_bind. eapply runs_upd_chan; [apply lookup_insert_eq|].
  apply runs_bind. eapply runs_add_ref; [apply lookup_insert_eq|eapply self_ref_free;
    [apply lookup_insert_eq|simpl; set_solver|done]|].
  apply runs_ret. revert HQ. unfold upd, alloced, set_waiting. simpl. unfold set_chans. simpl.
  by rewrite !insert_insert_eq.
Qed.
End Connect.

Lemma connect_end access ok a strdup guest cid path max_path flags h : inv quiet h ->
  (forall p w, ports h !! p = Some w -> allocs_ok a (num_recv_bufs w) (recv_buf_size w)) ->
  runs (ipc_port_connect_async access ok a strdup guest cid path max_path flags) h (fun r h' => inv quiet h' /\
    ((exists e, r = (e, None) /\ e <> 0 /\
        connect_refused access ok a strdup guest cid path max_path flags h e /\ chans h' = chans h /\ waiting_list h' = waiting_list h /\
        ipc_port_list h' = ipc_port_list h) \/
     (exists c u, r = (NO_ERROR, Some (HChan c)) /\ cid = Some u /\
        new_client_post access guest u (cstr path) flags h c h'))).
Proof.
  intros Hi Ha. set (Q := fun r h' => _).
  assert (Herr : forall e h', connect_refused access ok a strdup guest cid path max_path flags h e -> e <> 0 ->
            inv quiet h' -> chans h' = chans h -> waiting_list h' = waiting_list h ->
            ipc_port_list h' = ipc_port_list h -> Q (e, None) h') by (unfold Q; eauto 10).
  unfold ipc_port_connect_async. destruct cid as [cid|]; [|apply runs_ret, Herr; [by constructor|done..]].
  cbv zeta. destruct (_ || _) eqn:Elen.
  { apply runs_ret, Herr; [|done..]. apply RefusedPath. apply orb_true_iff in Elen as [E|E]; zbool; lia. }
  unfold chan_alloc. destruct ok; simpl negb; cbv iota; [|apply runs_bind, runs_ret, runs_ret, Herr; [by apply RefusedMem; left|done..]].
  apply runs_bind, runs_bind. unfold runs at 1, get. apply runs_bind. cbv zeta.
  change (runs (put_chan (next_obj h) ?z) h ?P) with (P tt (upd (next_obj h) z h)). cbv beta.
  apply runs_bind. unfold runs at 1, modify. apply runs_ret. set (c := next_obj h).
  change (set_next (c + 1) (upd c _ h)) with (alloced c (fresh_chan 0 cid) h).
  pose proof (connect_alloc_inv cid h Hi) as Hi1. pose proof (connect_fresh h Hi) as Hfr.
  apply runs_bind. eapply port_find_locked_run; [exact Hi1|..].
  - intros p w Hp Hw Hpath. apply runs_bind. eapply (connect_found access a guest cid h Hi p w); [exact Hw|by eapply Ha|..].
    + intros r h' Hr Hi' Hc' Hw' Hl'.
      assert (Hr0 : r <> 0) by (destruct Hr as [(? & ->)|Hr]; [done|by eapply attach_refused_code]).
      rewrite (proj2 (Z.eqb_neq r 0)) by done. simpl negb. cbv iota.
      eapply (connect_fail cid h Hi); [exact Hi'|exact Hc'|]. intros h2 Hi2 Hc2 Hw2 Hl2. apply Herr; [|congruence..].
      destruct Hr as [(? & ->)|[(Hst & _)|Hr]]; [by eapply RefusedHyp| |by eapply RefusedPort].
      destruct Hst. by apply (p_list _ _ _ (i_port _ _ Hi p w Hw)).
    + intros h' Hacc Hst Hca [A1 A2 (x' & Hx' & Hsx & Hpx & Hhx & Htx) (y' & Hy' & Hsy & Hpy & Hny) A5 A6 A7 A8 A9].
      simpl negb. cbv iota. simpl in Hy', Hpx, A6.
      eapply (finish_client h' c x' guest).
      { replace (Ghost {[c]} ∅ None) with (Ghost (tmp (Ghost {[c]} {[c]} None)) (wip (Ghost {[c]} {[c]} None) ∖ {[c]}) None)
          by (simpl; f_equal; set_solver). exact A1. }
      { exact Hx'. } { by rewrite Hhx. } { exact Htx. } { by left. }
      intros x2 h2 Hi2 -> Hs2 Hp2 Hr2 [Hg2 Hw2]. unfold Q. split; [done|right]. exists c, cid. split; [done|]. split; [done|].
      assert (Hne : c <> c + 1) by lia.
      split; [done|]. exists x2. split; [apply lookup_insert_eq|]. split_and!; [done|done|done|left].
      split; [congruence|]. exists p, w, (c + 1), y'. rewrite Hp2. split_and!; try done.
      * unfold upd. simpl. by rewrite lookup_insert_ne.
      * eexists. simpl. rewrite A6. split; [apply lookup_insert_eq|]. done.
  - intros Hnone. destruct (has_flag flags IPC_CONNECT_WAIT_FOR_PORT) eqn:Ef; simpl negb; cbv iota.
    2: { apply runs_bind, runs_ret. simpl negb. cbv iota. eapply (connect_fail cid h Hi); [exact Hi1|done|].
         intros. apply Herr; [by apply RefusedNone|done..]. }
    destruct strdup; simpl negb; cbv iota.
    2: { apply runs_bind, runs_ret. simpl negb. cbv iota. eapply (connect_fail cid h Hi); [exact Hi1|done|].
         intros. apply Herr; [by apply RefusedMem; right|done..]. }
    apply runs_bind. apply (connect_wait access cid (cstr path) flags h Hi). simpl negb. cbv iota.
    pose proof (wait_inv _ _ c _ (cstr path) Hi1 eq_refl (connect_client cid h) ltac:(simpl; set_solver)
      ltac:(simpl; set_solver)) as Hiw.
    eapply (finish_client _ c (waiting_chan (cstr path) (fresh_chan 0 cid)) guest).
    { replace (Ghost {[c]} ∅ None) with (done_with c (Ghost {[c]} {[c]} None))
        by (unfold done_with; simpl; f_equal; set_solver). exact Hiw. }
    { apply lookup_insert_eq. } { done. } { simpl. set_solver. } { by right. }
    intros x2 h2 Hi2 -> Hs2 Hp2 Hr2 [Hg2 Hw2]. unfold Q. split; [done|right]. exists c, cid. split; [done|]. split; [done|].
    split; [done|]. exists x2. split; [apply lookup_insert_eq|]. split_and!; [done|done|done|right].
    split; [done|]. split; [done|]. split; [done|]. exact Hnone.
Qed.

Lemma connect_run access ok a strdup guest cid path max_path flags h : inv quiet h ->
  (forall p w, ports h !! p = Some w -> allocs_ok a (num_recv_bufs w) (recv_buf_size w)) ->
  runs (ipc_port_connect_async access ok a strdup guest cid path max_path flags) h (fun r h' => inv quiet h' /\
    others_kept (next_obj h) h h' /\
    ((exists e, r = (e, None) /\ e <> 0 /\
        connect_refused access ok a strdup guest cid path max_path flags h e /\ chans h' = chans h /\ waiting_list h' = waiting_list h /\
        ipc_port_list h' = ipc_port_list h) \/
     (exists c u, r = (NO_ERROR, Some (HChan c)) /\ cid = Some u /\
        new_client_post access guest u (cstr path) flags h c h'))).
Proof.
  intros Hi Ha. eapply runs_mono; [eapply runs_and; [by apply connect_end|]|].
  - intros u h' E. refine (keep_others (next_obj h) _ h u h' Hi _ E). apply keep_connect. by intros d [? _].
  - cbv beta. intros r h' [[? ?] ?]. auto.
Qed.

(** C6: a connection request is safe whatever path, flags and identity are
    passed, whatever the hypervisor and the allocator answer, and leaves the
    object graph sound.  It is refused with an error and no channel stays
    behind, for one of the reasons of [connect_refused] and with its code, or
    makes one new client channel with one handle, which either is
    connecting to a listening port of that path that admits the client, with
    a server channel at the end of the port's pending connections, or waits
    for a port where none has that path. *)
Theorem connect_safe access ok a strdup guest cid path max_path flags h : inv quiet h ->
  (forall p w, ports h !! p = Some w -> allocs_ok a (num_recv_bufs w) (recv_buf_size w)) ->
  runs (ipc_port_connect_async access ok a strdup guest cid path max_path flags) h (fun r h' => inv quiet h' /\
    others_kept (next_obj h) h h' /\
    ((exists e, r = (e, None) /\ e <> 0 /\
        connect_refused access ok a strdup guest cid path max_path flags h e /\ chans h' = chans h /\ waiting_list h' = waiting_list h /\
        ipc_port_list h' = ipc_port_list h) \/
     (exists c u, r = (NO_ERROR, Some (HChan c)) /\ cid = Some u /\
        new_client_post access guest u (cstr path) flags h c h'))).
Proof. apply connect_run. Qed.

End IpcSafe.
