(* ===== verification/IpcServe.v ===== *)
(** * Creating, publishing and accepting

    The server's side of [Ipc]: what [ipc_port_accept], [ipc_port_create] and
    [ipc_port_publish] do from a sound object graph, and the cases in which
    [ipc_port_publish] leaves it. *)

From S2P Require Import Prelude Iovec MsgQueue Handle Ipc IpcInv IpcSafe.

Module IpcServe.
Import Iovec MsgQueue Handle Ipc IpcInv IpcSafe.

(** ** Accepting *)

Section Accept.
Context (h : heap) (p s : Z) (y : port) (x : chan) (l : list Z).
Context (Hi : inv quiet h) (Hy : ports h !! p = Some y) (Hl : pending_list y = s :: l).
Context (Hls : p_state y = IPC_PORT_STATE_LISTENING) (Hx : chans h !! s = Some x) (Hn : node x = Some (Pending p)).

Definition taken : chan := set_refs (remove_first NodeRef (refs x ++ [TmpRef])) (set_node None x).
Definition drained : port := set_p_handle (handle_decref_cnt (p_handle y)).1 (set_pending l y).

Notation held := (Ghost {[s]} ∅ None).

Lemma taken_held : TmpRef ∈ refs taken.
Proof.
  apply elem_of_remove_first.
  - destruct (i_refs _ _ Hi s x Hx) as [H1 H2 H3 H4]. apply NoDup_app. split; [done|]. split; [|apply NoDup_singleton].
    intros r Hr. rewrite list_elem_of_singleton. intros ->. apply H3 in Hr as [Hr|Hr]; [simpl in Hr; set_solver|done].
  - split; [apply elem_of_app; right; by left|done].
Qed.

(** The connection leaves the queue of the port. *)
Lemma accept_take {A} (k : chan -> M heap A) (Q : A -> heap -> Prop) :
  (forall h', inv held h' -> chans h' = <[s := taken]> (chans h) -> ports h' = <[p := drained]> (ports h) ->
     waiting_list h' = waiting_list h -> ipc_port_list h' = ipc_port_list h -> runs (k taken) h' Q) ->
  runs (chan_unlink s ;;; server <- get_chan s ;; assert_ (has_flag (c_flags server) IPC_CHAN_FLAG_SERVER) ;;;
        chan_add_ref s TmpRef ;;; chan_del_ref s NodeRef ;;; port_decref p ;;; server <- get_chan s ;; k server) h Q.
Proof.
  intros Hk. pose proof (i_chan _ _ Hi s x Hx) as [C1 C2 C3 C4].
  assert (Hfl : has_flag (c_flags x) IPC_CHAN_FLAG_SERVER = true).
  { destruct C4 as [[? _]|[_ C4]]; [done|]. unfold state_ok in C4. destruct (c_state x); naive_solver. }
  assert (Htmp : TmpRef ∉ refs x).
  { intros Hr. apply (r_due _ _ _ _ (i_refs _ _ Hi s x Hx)) in Hr as [Hr|Hr]; [simpl in Hr; set_solver|done]. }
  apply runs_bind. unfold chan_unlink. apply runs_bind. eapply runs_get_chan; [exact Hx|]. rewrite Hn.
  apply runs_bind. eapply runs_upd_port; [exact Hy|].
  change (runs (put_chan s ?z) ?h ?P) with (P tt (upd s z h)). cbv beta.
  apply runs_bind. eapply runs_get_chan; [apply lookup_insert_eq|].
  apply runs_bind, runs_assert; [exact Hfl|].
  apply runs_bind. eapply runs_add_ref; [apply lookup_insert_eq|eapply self_ref_free; [apply lookup_insert_eq|exact Htmp|done]|].
  pose proof (add_tmp_inv quiet h s x Hi eq_refl Hx ltac:(simpl; set_solver)) as Ha.
  pose proof (unlink_pend_inv _ _ s _ p y Ha eq_refl (lookup_insert_eq _ _ _) Hn Hy ltac:(simpl; set_solver)
    ltac:(right; simpl; set_solver)) as Hu.
  match goal with |- runs _ ?h' _ => set (h1 := h') end.
  match type of Hu with inv ?g' ?h' => assert (Hh : h' = h1) end.
  { unfold h1, upd. simpl. unfold set_chans, set_ports. simpl. f_equal. by rewrite !insert_insert_eq. }
  rewrite Hh in Hu. clear Ha Hh.
  set (x1 := set_refs (refs x ++ [TmpRef]) (set_node None x)).
  assert (Hx1 : chans h1 !! s = Some x1) by apply lookup_insert_eq.
  apply runs_bind. eapply runs_pay; [exact Hu|done|exact Hx1|].
  intros h2 Hi2 [(Hr & ->)|(Hr & _)]; [|exfalso; pose proof taken_held as Hin; unfold taken in Hin; simpl in *;
    rewrite Hr in Hin; set_solver].
  assert (Hg : settle (owing s NodeRef (with_tmp s quiet)) = held) by (unfold settle; simpl; f_equal; set_solver).
  rewrite Hg in Hi2. clear Hg.
  assert (Hrem : remove_first s (pending_list y) = l) by (rewrite Hl; simpl; by rewrite decide_True).
  assert (Hp1 : ports h1 !! p = Some (set_pending l y)) by (unfold h1; simpl; rewrite lookup_insert_eq; by rewrite Hrem).
  pose proof (i_port _ _ Hi p y Hy) as [P1 P2 P3 P4 P5 P6].
  assert (Hin : p ∈ ipc_port_list h) by (by apply P6).
  unfold port_ext in P1. rewrite bool_decide_eq_true_2, Hl in P1 by done. simpl in P1.
  apply runs_bind. eapply (port_decref_run held); [exact Hi2|exact Hp1|..].
  { unfold port_ext. simpl. rewrite bool_decide_eq_true_2 by done. lia. }
  { simpl. lia. }
  intros y' -> Hi3. apply runs_bind. eapply runs_get_chan; [apply lookup_insert_eq|].
  apply (Hk _ Hi3); try done.
  - unfold h1, upd. simpl. by rewrite !insert_insert_eq.
  - unfold h1, drained. simpl. by rewrite insert_insert_eq.
Qed.
(** Server and client are connected. *)
Definition accept_post (c : Z) (client : chan) (h' : heap) : Prop :=
  ports h' = <[p := drained]> (ports h) /\
  (exists s', chans h' !! s = Some s' /\ c_state s' = CONNECTED /\ peer s' = Some c /\
     refcnt (c_handle s') = 1 /\ guest_id (c_handle s') = guest_id (c_handle client) /\ msg_queue s' = msg_queue x) /\
  (exists c', chans h' !! c = Some c' /\ c_state c' = CONNECTED /\ peer c' = Some s /\
     has_flag (aux_state c') AUX_CONNECTED = true /\ c_handle c' = c_handle client /\ msg_queue c' = msg_queue client) /\
  (forall d, d <> s -> d <> c -> chans h' !! d = chans h !! d).

(** The connection failed before it was accepted. *)
Definition reject_post (h' : heap) : Prop :=
  ports h' = <[p := drained]> (ports h) /\
  match chans h' !! s with
  | Some s' => c_state s' = DISCONNECTING /\ peer s' = None /\ node s' = None
  | None => True
  end /\
  (forall d, d <> s -> peer x <> Some d -> chans h' !! d = chans h !! d).

Lemma accept_connect c client h1 (Q : Z * option (hptr * uuid) -> heap -> Prop) : inv held h1 ->
  chans h1 = <[s := taken]> (chans h) -> ports h1 = <[p := drained]> (ports h) ->
  c_state x = ACCEPTING -> peer x = Some c -> chans h !! c = Some client -> c_state client = CONNECTING ->
  (forall h', inv quiet h' -> accept_post c client h' -> Q (NO_ERROR, Some (HChan s, c_uuid client)) h') ->
  runs (upd_chan s (set_state CONNECTED) ;;; upd_chan c (set_state CONNECTED) ;;;
        upd_chan c (fun x => set_aux (Z.lor (aux_state x) AUX_CONNECTED) x) ;;;
        nh <- chan_handle_init s ;;
        upd_chan s (fun x => set_handle (set_guest (guest_id (c_handle client)) (c_handle x)) x) ;;;
        notify_chan c ;;; chan_del_ref s TmpRef ;;; ret (NO_ERROR, Some (nh, c_uuid client))) h1 Q.
Proof.
  intros Hi1 Hch Hpo Hsx Hpx Hc Hsc HQ.
  destruct (i_peer _ _ Hi s x Hx c Hpx) as (Hne & client' & Hc' & _ & Hback). rewrite Hc in Hc'.
  injection Hc' as <-. specialize (Hback ltac:(congruence)).
  assert (Hs1 : chans h1 !! s = Some taken) by (rewrite Hch; apply lookup_insert_eq).
  assert (Hc1 : chans h1 !! c = Some client) by (by rewrite Hch, lookup_insert_ne by done).
  pose proof (i_chan _ _ Hi1 s taken Hs1) as [S1 S2 S3 S4].
  pose proof (i_chan _ _ Hi1 c client Hc1) as [C1 C2 C3 C4].
  destruct S4 as [[? _]|[_ S4]]; [done|]. unfold state_ok in S4. simpl in S4. rewrite Hsx in S4.
  destruct C4 as [[? _]|[Hwc C4]]; [done|]. unfold state_ok in C4. rewrite Hsc in C4.
  set (x2 := set_state CONNECTED taken). set (c2 := set_aux (Z.lor (aux_state client) AUX_CONNECTED) (set_state CONNECTED client)).
  assert (Hi2 : inv held (upd c c2 (upd s x2 h1))).
  { eapply inv_pair; [exact Hi1|exact Hs1|exact Hc1|exact Hpx|simpl; congruence|done..| |].
    - split; simpl; auto. right. split; [done|]. unfold state_ok. simpl. tauto.
    - split; simpl; auto. }
  assert (Hnh : HandleRef ∉ refs x2).
  { intros Hin. simpl in Hin. change (HandleRef ∈ refs taken) in Hin.
    apply (r_due _ _ _ _ (i_refs _ _ Hi1 s taken Hs1)) in Hin as [Hd|Hd]; [simpl in Hd; lia|done]. }
  apply runs_bind. eapply runs_upd_chan; [exact Hs1|].
  apply runs_bind. eapply runs_upd_chan; [unfold upd; simpl; rewrite lookup_insert_ne by done; exact Hc1|].
  apply runs_bind. eapply runs_upd_chan; [apply lookup_insert_eq|].
  apply runs_bind. unfold chan_handle_init. apply runs_bind.
  eapply runs_upd_chan; [unfold upd; simpl; rewrite !lookup_insert_ne by done; apply lookup_insert_eq|].
  apply runs_bind. eapply runs_add_ref; [apply lookup_insert_eq|eapply self_ref_free; [apply lookup_insert_eq|exact Hnh|done]|].
  apply runs_ret. apply runs_bind. eapply runs_upd_chan; [apply lookup_insert_eq|].
  set (x3 := set_refs (refs x2 ++ [HandleRef]) (set_handle (set_guest (guest_id (c_handle client)) handle_init) x2)).
  assert (Hi3 : inv held (upd s x3 (upd c c2 (upd s x2 h1)))).
  { apply (handle_init_inv held _ s x2); auto; simpl.
    - rewrite lookup_insert_ne by done. apply lookup_insert_eq.
    - apply S4.
    - lia. }
  match goal with |- runs _ ?h' _ => set (h3 := h') end.
  match type of Hi3 with inv _ ?h' => assert (Hh : h' = h3) end.
  { unfold h3, upd. simpl. unfold set_chans. simpl. f_equal. apply map_eq. intros d.
    destruct (decide (d = s)) as [->|]; [by rewrite !lookup_insert_eq|].
    destruct (decide (d = c)) as [->|]; rewrite ?(lookup_insert_ne _ s) by congruence.
    - by rewrite !lookup_insert_eq.
    - by rewrite !lookup_insert_ne by congruence. }
  rewrite Hh in Hi3.
  assert (Hs3 : chans h3 !! s = Some x3) by (rewrite <- Hh; apply lookup_insert_eq).
  assert (Hc3 : chans h3 !! c = Some c2).
  { rewrite <- Hh. unfold upd. simpl. rewrite lookup_insert_ne by done. apply lookup_insert_eq. }
  assert (Ho3 : forall d, d <> s -> d <> c -> chans h3 !! d = chans h !! d).
  { intros d H1 H2. rewrite <- Hh. unfold upd. simpl. rewrite !lookup_insert_ne, Hch by done.
    by rewrite lookup_insert_ne. }
  assert (Hp3 : ports h3 = <[p := drained]> (ports h)) by (rewrite <- Hpo; done).
  clearbody h3. clear Hh Hi2.
  apply runs_bind. eapply runs_notify_chan; [exact Hc3|]. intros h4 Hg.
  rewrite Hg in Hi3. rewrite <- (graph_lookup _ _ s Hg) in Hs3. rewrite <- (graph_lookup _ _ c Hg) in Hc3.
  apply runs_bind. eapply runs_drop_tmp; [exact Hi3|done|exact Hs3|simpl; set_solver|simpl; left; lia|done|done|].
  intros h5 Hi5 [(Hr & ->)|(Hr & _)].
  2: { exfalso. assert (Hin : HandleRef ∈ remove_first TmpRef (refs x3)).
       { apply elem_of_remove_first; [apply (i_refs _ _ Hi3 s x3), Hs3|]. split; [|done].
         simpl. apply elem_of_app. right. by left. }
       rewrite Hr in Hin. set_solver. }
  apply runs_ret, HQ.
  - assert (Hgq : Ghost (tmp held ∖ {[s]}) (wip held) None = quiet) by (unfold quiet; simpl; f_equal; set_solver).
    by rewrite <- Hgq.
  - destruct Hg as [G1 G2 _ _ _]. split; [simpl; congruence|]. split_and!.
    + eexists. split; [apply lookup_insert_eq|]. done.
    + exists c2. unfold upd. simpl. rewrite lookup_insert_ne by done. split_and!; auto.
      change (has_flag (Z.lor (aux_state client) AUX_CONNECTED) (2 ^ 2) = true).
      rewrite has_flag_pow2, Z.lor_spec by lia. apply orb_true_r.
    + intros d H1 H2. unfold upd. simpl. rewrite lookup_insert_ne, G1 by done. by apply Ho3.
Qed.

Lemma accept_reject h1 (Q : Z * option (hptr * uuid) -> heap -> Prop) : inv held h1 ->
  chans h1 = <[s := taken]> (chans h) -> ports h1 = <[p := drained]> (ports h) -> c_state x = DISCONNECTING ->
  (forall h', inv quiet h' -> reject_post h' -> Q (ERR_CHANNEL_CLOSED, None) h') ->
  runs (chan_shutdown_locked s ;;; chan_del_ref s TmpRef ;;; ret (ERR_CHANNEL_CLOSED, None)) h1 Q.
Proof.
  intros Hi1 Hch Hpo Hsx HQ.
  assert (Hs1 : chans h1 !! s = Some taken) by (rewrite Hch; apply lookup_insert_eq).
  apply runs_bind. eapply (shutdown_run held); [exact Hi1|done|exact Hs1|set_solver|right; left; simpl; set_solver|].
  intros h2 Hi2 [(x2 & Hx2 & Hs2 & Hp2 & Hn2 & Hh2 & _) D2 D3 _ D5 _ _].
  apply runs_bind. eapply (runs_drop_tmp held); [exact Hi2|done|exact Hx2|simpl; set_solver|rewrite Hp2; by intros [? ?]|congruence|congruence|].
  intros h3 Hi3 Hpost. apply runs_ret, HQ.
  - assert (Hgq : Ghost (tmp held ∖ {[s]}) (wip held) None = quiet) by (unfold quiet; simpl; f_equal; set_solver).
    by rewrite <- Hgq.
  - destruct Hpost as [(_ & ->)|(_ & _ & _ & ->)]; unfold upd; (split; [simpl; congruence|]); simpl.
    + rewrite lookup_insert_eq. simpl. split; [done|]. intros d H1 H2. rewrite lookup_insert_ne, D3, Hch by done.
      by rewrite lookup_insert_ne.
    + rewrite lookup_delete_eq. split; [done|]. intros d H1 H2. rewrite lookup_delete_ne, D3, Hch by done.
      by rewrite lookup_insert_ne.
Qed.

End Accept.

(** C7: accepting on a port is safe in every state of port and connection.
    A port that does not listen or has no pending connection is left as it
    is.  Otherwise the oldest pending connection is taken off the port: when
    its client still waits for it, both ends become connected to each other,
    with one handle on the server's end that carries the guest of the client,
    and the client's identity is returned; when the client has gone the
    server's end is shut down and [ERR_CHANNEL_CLOSED] returned. *)
Theorem accept_safe h p y : inv quiet h -> ports h !! p = Some y ->
  runs (ipc_port_accept (Some (HPort p))) h (fun r h' => inv quiet h' /\
    if p_state y =? IPC_PORT_STATE_LISTENING then
      match pending_list y with
      | [] => r = (ERR_NO_MSG, None) /\ h' = h
      | s :: l => exists x, chans h !! s = Some x /\
          match c_state x, peer x with
          | ACCEPTING, Some c => exists client, chans h !! c = Some client /\
              r = (NO_ERROR, Some (HChan s, c_uuid client)) /\ accept_post h p s y x l c client h'
          | _, _ => r = (ERR_CHANNEL_CLOSED, None) /\ reject_post h p s y x l h'
          end
      end
    else r = (ERR_CHANNEL_CLOSED, None) /\ h' = h).
Proof.
  intros Hi Hy. unfold ipc_port_accept. apply runs_bind. eapply runs_get_port; [exact Hy|].
  destruct (p_state y =? _) eqn:Est; simpl negb; cbv iota; [|by apply runs_ret]. zbool.
  destruct (pending_list y) as [|s l] eqn:Hl; [by apply runs_ret|].
  destruct (proj1 (p_pend _ _ _ (i_port _ _ Hi p y Hy) s)) as (x & Hx & Hn); [rewrite Hl; left|].
  pose proof (i_chan _ _ Hi s x Hx) as [_ _ _ C4]. destruct C4 as [[? _]|[_ C4]]; [done|].
  eapply (accept_take h p s y x l); eauto. intros h1 Hi1 Hch Hpo _ _.
  assert (Hs1 : chans h1 !! s = Some (taken x)) by (rewrite Hch; apply lookup_insert_eq).
  unfold state_ok in C4. rewrite Hn in C4. destruct (c_state x) eqn:Hsx; try naive_solver.
  - destruct C4 as ([c Hc] & _).
    destruct (i_peer _ _ Hi s x Hx c Hc) as (Hne & client & Hcl & Hok & _).
    assert (Hsc : c_state client = CONNECTING) by (rewrite Hsx in Hok; by destruct (c_state client)).
    apply runs_bind. simpl peer. rewrite Hc. apply runs_bind.
    eapply runs_get_chan; [rewrite Hch, lookup_insert_ne by done; exact Hcl|].
    simpl c_state. rewrite !bool_decide_eq_true_2 by done. apply runs_ret.
    eapply (accept_connect h p s y x l); eauto.
    intros h' Hi' Hp'. split; [done|]. exists x. rewrite Hsx, Hc. eauto.
  - assert (Hrej : runs (chan_shutdown_locked s ;;; chan_del_ref s TmpRef ;;; ret (ERR_CHANNEL_CLOSED, @None (hptr * uuid))) h1
      (fun r h' => r = (ERR_CHANNEL_CLOSED, None) /\ inv quiet h' /\ reject_post h p s y x l h')).
    { eapply (accept_reject h p s y x l); eauto. }
    apply runs_bind. destruct (peer (taken x)) as [c|] eqn:Hc.
    + destruct (i_peer _ _ Hi s x Hx c Hc) as (Hne & client & Hcl & _).
      apply runs_bind. eapply runs_get_chan; [rewrite Hch, lookup_insert_ne by done; exact Hcl|].
      simpl c_state. rewrite (bool_decide_eq_false_2 (c_state x = ACCEPTING)) by congruence. apply runs_ret.
      eapply runs_mono; [exact Hrej|]. intros r h' (-> & Hi' & Hp'). split; [done|]. exists x. by rewrite Hsx.
    + apply runs_ret. eapply runs_mono; [exact Hrej|]. intros r h' (-> & Hi' & Hp'). split; [done|]. exists x. by rewrite Hsx.
Qed.

(** ** Creating a port *)

(** A port is created exactly for an identity, a non-empty path shorter
    than 64 bytes, 1 to 32 buffers of 1 to 4096 bytes, and a successful
    allocation; it starts outside the list of ports, with one handle, and
    everything else is as before.  Every refusal leaves the heap alone. *)
Lemma create_spec ok sid path nbufs bufsz flags h : inv quiet h -> 0 <= nbufs -> 0 <= bufsz ->
  let p := next_obj h in
  let len := Z.of_nat (length (cstr path)) in
  runs (ipc_port_create ok sid path nbufs bufsz flags) h (fun r h' => inv quiet h' /\
    ((exists u, sid = Some u /\ 0 < nbufs <= 32 /\ 0 < bufsz <= 4096 /\ ok = true /\ 0 < len < 64 /\
        r = (NO_ERROR, Some (HPort p)) /\ chans h' = chans h /\ ipc_port_list h' = ipc_port_list h /\
        waiting_list h' = waiting_list h /\ (forall q, q <> p -> ports h' !! q = ports h !! q) /\ p ∉ ipc_port_list h /\
        exists y, ports h' !! p = Some y /\ p_path y = cstr path /\ p_uuid y = u /\ p_flags y = flags /\
          port_ext h' p y = 1) \/
     (h' = h /\ exists e, r = (e, None) /\
        ((e = ERR_INVALID_ARGS /\ (sid = None \/ ~ 0 < nbufs <= 32 \/ ~ 0 < bufsz <= 4096 \/ len = 0)) \/
         (e = ERR_NO_MEMORY /\ ok = false) \/ (e = ERR_TOO_BIG /\ 64 <= len))))).
Proof.
  intros Hi Hn Hs p len. unfold ipc_port_create. destruct sid as [u|]; [|apply runs_ret; eauto 10].
  unfold IPC_CHAN_MAX_BUFS, IPC_CHAN_MAX_BUF_SIZE, IPC_PORT_PATH_MAX.
  destruct (_ || _ || _ || _) eqn:Earg.
  { apply runs_ret. split; [done|right]. split; [done|]. eexists. split; [done|]. left. split; [done|].
    rewrite !orb_true_iff in Earg. destruct Earg as [[[E|E]|E]|E]; zbool; intuition lia. }
  zbool. destruct ok; simpl negb; cbv iota; [|apply runs_ret; eauto 10].
  fold len. destruct (len =? 0) eqn:E0; zbool; [apply runs_ret; eauto 12|].
  destruct (64 <=? len) eqn:E64; zbool; [apply runs_ret; eauto 12|].
  apply runs_bind. unfold runs at 1, get. apply runs_bind. fold p. unfold runs at 1. rewrite put_port_eq.
  apply runs_bind. unfold runs at 1, modify. apply runs_ret.
  assert (Hi' := inv_port_new quiet h (Port (cstr path) u IPC_PORT_STATE_INVALID flags nbufs bufsz handle_init [])
    Hi eq_refl eq_refl ltac:(simpl; lia) ltac:(simpl; lia) ltac:(simpl; lia)).
  split; [exact Hi'|left]. exists u. assert (Hpl : p ∉ ipc_port_list h).
  { intros Hin. apply (i_list _ _ Hi) in Hin as [? Hin]. destruct (i_fresh _ _ Hi p) as [_ ?]; [lia|]. congruence. }
  split_and!; try done; try lia.
  - intros q Hq. simpl. by rewrite lookup_insert_ne.
  - eexists. split; [apply lookup_insert_eq|]. split_and!; try done. unfold port_ext. simpl.
    by rewrite bool_decide_eq_false_2.
Qed.

(** ** Publishing *)

(** A client that waits for a port with this path. *)
Definition waits_for (path : list Z) (x : chan) : Prop := c_state x = WAITING_FOR_PORT /\ c_path x = Some path.

(** A client leaves the list of waiting clients while the running function
    holds it. *)
Definition unwaited (x : chan) : chan :=
  set_refs (remove_first NodeRef (refs x ++ [TmpRef])) (set_node None (set_c_path None x)).

Definition unwait (c : Z) (x : chan) (h : heap) : heap :=
  set_waiting (remove_first c (waiting_list h)) (upd c (unwaited x) h).

Notation setup c := (Ghost {[c]} {[c]} None).

Lemma unwait_run {A} h c x (k : M heap A) (Q : A -> heap -> Prop) : inv quiet h -> chans h !! c = Some x ->
  c_state x = WAITING_FOR_PORT ->
  (inv (setup c) (unwait c x h) -> TmpRef ∈ refs (unwaited x) -> runs k (unwait c x h) Q) ->
  runs (upd_chan c (set_c_path None) ;;; chan_add_ref c TmpRef ;;; chan_unlink c ;;; chan_del_ref c NodeRef ;;; k) h Q.
Proof.
  intros Hi Hx Hs HQ. pose proof (i_chan _ _ Hi c x Hx) as [_ _ _ [[? _]|[_ C4]]]; [done|].
  unfold state_ok in C4. rewrite Hs in C4. destruct C4 as (Hp & Hn & _).
  assert (Htmp : TmpRef ∉ refs x).
  { intros Hr. apply (r_due _ _ _ _ (i_refs _ _ Hi c x Hx)) in Hr as [Hr|Hr]; [simpl in Hr; set_solver|done]. }
  pose proof (add_tmp_inv quiet h c x Hi eq_refl Hx ltac:(simpl; set_solver)) as Ha.
  pose proof (unlink_wait_inv _ _ c _ Ha eq_refl (lookup_insert_eq _ _ _) Hn) as Hu.
  set (x1 := set_refs (refs x ++ [TmpRef]) (set_node None (set_c_path None x))).
  assert (Hu1 := inv_fields _ _ c _ x1 Hu (lookup_insert_eq _ _ _) ltac:(done) eq_refl eq_refl eq_refl
    (c_mq _ _ _ (i_chan _ _ Hi c x Hx)) ltac:(done) ltac:(simpl; set_solver)).
  apply runs_bind. eapply runs_upd_chan; [exact Hx|].
  apply runs_bind. eapply runs_add_ref; [apply lookup_insert_eq|eapply self_ref_free; [apply lookup_insert_eq|exact Htmp|done]|].
  apply runs_bind. unfold chan_unlink. apply runs_bind. eapply runs_get_chan; [apply lookup_insert_eq|].
  simpl node. rewrite Hn. cbv iota. apply runs_bind. unfold runs at 1, modify.
  change (runs (put_chan c ?z) ?h ?P) with (P tt (upd c z h)). cbv beta.
  match goal with |- runs _ ?h' _ => set (h1 := h') end.
  match type of Hu1 with inv _ ?h' => assert (Hh : h' = h1) end.
  { unfold h1, upd. simpl. unfold set_chans, set_waiting. simpl. by rewrite !insert_insert_eq. }
  rewrite Hh in Hu1. clear Ha Hu Hh. apply runs_bind.
  assert (Hin : TmpRef ∈ remove_first NodeRef (refs x1)).
  { apply elem_of_remove_first; [apply (i_refs _ _ Hu1 c x1), lookup_insert_eq|]. split; [|done].
    simpl. apply elem_of_app. right. by left. }
  eapply runs_pay; [exact Hu1|done|apply lookup_insert_eq|].
  intros h2 Hi2 [(Hr & ->)|(Hr & _)]; [|change (remove_first NodeRef (refs x1) = []) in Hr; rewrite Hr in Hin; set_solver].
  assert (Hh : upd c (set_refs (remove_first NodeRef (refs x1)) x1) h1 = unwait c x h).
  { unfold h1, unwait, upd. simpl. unfold set_chans, set_waiting. simpl. by rewrite !insert_insert_eq. }
  assert (Hg : settle (wip_owing c (with_tmp c quiet)) = setup c) by (unfold settle; simpl; f_equal; set_solver).
  change (inv (settle (wip_owing c (with_tmp c quiet))) (upd c (set_refs (remove_first NodeRef (refs x1)) x1) h1)) in Hi2.
  rewrite Hg, Hh in Hi2. change (runs k (upd c (set_refs (remove_first NodeRef (refs x1)) x1) h1) Q). rewrite Hh.
  by apply HQ.
Qed.

(** Client [c] is connecting to server [s] that is pending on port [p]. *)
Definition linked_at (p : Z) (h : heap) (c s : Z) : Prop :=
  exists x y, chans h !! c = Some x /\ c_state x = CONNECTING /\ peer x = Some s /\
    chans h !! s = Some y /\ c_state y = ACCEPTING /\ peer y = Some c /\ node y = Some (Pending p).

(** The port lets the client in. *)
Definition admitted (access : Z -> uuid -> Z) (y : port) (x : chan) : Prop :=
  access (guest_id (c_handle x)) (p_uuid y) = 0 /\ check_access y (Some (c_uuid x)) = NO_ERROR.

(** What one waiting client that is served leaves. *)
Record served (p : Z) (h : heap) (c : Z) (y : port) (h' : heap) : Prop := {
  v_inv : inv quiet h';
  v_link : linked_at p h' c (next_obj h);
  v_other : forall d z, d <> c -> chans h !! d = Some z -> chans h' !! d = Some z;
  v_ports : ports h' = <[p := attached y (next_obj h)]> (ports h);
  v_wait : waiting_list h' = remove_first c (waiting_list h);
  v_list : ipc_port_list h' = ipc_port_list h
}.

Section Publish.
Context (access : Z -> uuid -> Z) (al : nat -> allocs).

Lemma serve_run {A} h c x p y a (k : M heap A) (Q : A -> heap -> Prop) :
  inv quiet h -> chans h !! c = Some x -> c_state x = WAITING_FOR_PORT -> ports h !! p = Some y ->
  p_state y = IPC_PORT_STATE_LISTENING -> admitted access y x ->
  allocs_ok a (num_recv_bufs y) (recv_buf_size y) -> allocs_give a ->
  inv (setup c) (unwait c x h) -> TmpRef ∈ refs (unwaited x) ->
  (forall h', served p h c y h' -> runs k h' Q) ->
  runs ((err <- port_attach_client a p c ;; if negb (err =? 0) then chan_shutdown_locked c else ret tt) ;;;
        chan_del_ref c TmpRef ;;; k) (unwait c x h) Q.
Proof.
  intros Hi Hx Hs Hy Hls [Hacc Hca] Hok Hgive Hu Htmp HQ.
  assert (Hcnt : 0 < refcnt (c_handle x)).
  { pose proof (i_chan _ _ Hi c x Hx) as [_ _ _ [[? _]|[_ C4]]]; [done|].
    unfold state_ok in C4. rewrite Hs in C4. destruct C4 as (_ & _ & _ & [?|?]); [done|set_solver]. }
  destruct (i_fresh _ _ Hi (next_obj h)) as [Hfr _]; [lia|].
  assert (Hne : next_obj h <> c) by congruence.
  apply runs_bind, runs_bind.
  eapply (attach_run (setup c) (unwait c x h) c p (unwaited x) y a); try done.
  - apply lookup_insert_eq.
  - simpl. set_solver.
  - simpl. set_solver.
  - by right.
  - simpl. set_solver.
  - simpl. set_solver.
  - intros r h' Hr Hi' Hs'. exfalso. by destruct Hr as [(? & _)|[(Hc & _)|(? & _)]].
  - intros h' _ _ [A1 A2 (x' & Hx' & Hsx & Hpx & Hhx & Htx) (y' & Hy' & Hsy & Hpy & Hny) A5 A6 A7 A8 A9].
    simpl negb. cbv iota. apply runs_ret. apply runs_bind.
    assert (Hh : HandleRef ∈ refs x').
    { apply (r_due _ _ _ _ (i_refs _ _ A1 c x' Hx')). left. simpl. by rewrite Hhx. }
    eapply (runs_drop_tmp (Ghost (tmp (setup c)) (wip (setup c) ∖ {[c]}) None));
      [exact A1|done|exact Hx'|simpl; set_solver|rewrite Hhx; by left|congruence|congruence|].
    intros h2 Hi2 [(_ & ->)|(Hr & _)].
    2: { exfalso. assert (Hin : HandleRef ∈ remove_first TmpRef (refs x')).
         { apply elem_of_remove_first; [apply (i_refs _ _ A1 c x' Hx')|done]. }
         rewrite Hr in Hin. set_solver. }
    apply HQ. simpl in *. split; try done.
    + assert (Hg : Ghost ({[c]} ∖ {[c]}) ({[c]} ∖ {[c]}) None = quiet) by (unfold quiet; f_equal; set_solver).
      by rewrite <- Hg.
    + eexists _, y'. split; [apply lookup_insert_eq|]. split_and!; try done.
      unfold upd. simpl. by rewrite lookup_insert_ne.
    + intros d z Hd Hz. unfold upd. simpl. rewrite lookup_insert_ne by done.
      rewrite A5; [simpl; by rewrite lookup_insert_ne|done|]. congruence.
Qed.

(** The clients among [l] that wait for [path]. *)
Definition wants (path : list Z) (h : heap) (c : Z) : bool :=
  match chans h !! c with Some x => bool_decide (c_path x = Some path) | None => false end.

(** What the loop over the waiting clients [l] leaves: those that want the
    port are served in their order. *)
Record loop_post (p : Z) (h : heap) (l : list Z) (y : port) (h' : heap) : Prop := {
  lp_inv : inv quiet h';
  lp_port : exists y' ss, ports h' = <[p := y']> (ports h) /\ p_state y' = p_state y /\
     pending_list y' = pending_list y ++ ss /\ Forall2 (linked_at p h') (List.filter (wants (p_path y) h) l) ss;
  lp_other : forall d z, d ∉ List.filter (wants (p_path y) h) l -> chans h !! d = Some z -> chans h' !! d = Some z;
  lp_wait : forall d, d ∈ waiting_list h' <-> d ∈ waiting_list h /\ d ∉ List.filter (wants (p_path y) h) l;
  lp_list : ipc_port_list h' = ipc_port_list h
}.

Lemma linked_persists p h1 h2 c s : linked_at p h1 c s ->
  (forall d z, d = c \/ d = s -> chans h1 !! d = Some z -> chans h2 !! d = Some z) -> linked_at p h2 c s.
Proof. intros (x & y & H1 & H2 & H3 & H4 & H5) H. exists x, y. eauto 10. Qed.

Lemma loop_post_cons p h c y h1 l h2 : served p h c y h1 -> wants (p_path y) h c = true -> c ∉ l ->
  inv quiet h -> (forall d, d ∈ l -> is_Some (chans h !! d)) ->
  loop_post p h1 l (attached y (next_obj h)) h2 -> loop_post p h (c :: l) y h2.
Proof.
  intros [V1 V2 V3 V4 V5 V6] Hc Hcl Hi Hl [L1 (y' & ss & L2 & L3 & L4 & L5) L6 L7 L8].
  destruct (i_fresh _ _ Hi (next_obj h)) as [Hfr _]; [lia|].
  assert (Hf : List.filter (wants (p_path y) h1) l = List.filter (wants (p_path y) h) l).
  { apply List.filter_ext_in. intros d Hd%list_elem_of_In. destruct (Hl d Hd) as [z Hz]. unfold wants.
    rewrite Hz. erewrite V3; [done| |exact Hz]. by intros ->. }
  assert (Hsub : forall d, d ∈ List.filter (wants (p_path y) h) l -> d ∈ l).
  { intros d Hd%list_elem_of_In. apply list_elem_of_In. by apply List.filter_In in Hd as [? _]. }
  simpl in L5, L6, L7, L4. rewrite Hf in L5, L6, L7. split; auto; simpl; rewrite ?Hc.
  - exists y', (next_obj h :: ss). split_and!; auto.
    + by rewrite L2, V4, insert_insert_eq.
    + by rewrite L4, <- app_assoc.
    + constructor; [|done]. eapply linked_persists; [exact V2|]. intros d z Hd. apply L6.
      intros Hin. apply Hsub in Hin. destruct Hd as [->| ->]; [done|]. apply Hl in Hin as [? ?]. congruence.
  - intros d z Hd Hz. apply L6; [set_solver|]. apply V3; [set_solver|done].
  - intros d. rewrite L7, V5, elem_of_remove_first by apply (i_wait_nodup _ _ Hi). set_solver.
  - congruence.
Qed.

Lemma loop_post_skip p h c y l h2 : wants (p_path y) h c = false ->
  loop_post p h l y h2 -> loop_post p h (c :: l) y h2.
Proof. intros Hc [L1 L2 L3 L4 L5]. split; simpl; rewrite ?Hc; auto. Qed.

Lemma publish_loop_run p l : forall h i y (Q : Z -> heap -> Prop), inv quiet h -> ports h !! p = Some y ->
  p_state y = IPC_PORT_STATE_LISTENING -> NoDup l ->
  (forall c, c ∈ l -> exists x, chans h !! c = Some x /\ c_state x = WAITING_FOR_PORT /\ is_Some (c_path x) /\
     (c_path x = Some (p_path y) -> admitted access y x)) ->
  (forall i, allocs_ok (al i) (num_recv_bufs y) (recv_buf_size y) /\ allocs_give (al i)) ->
  (forall h', loop_post p h l y h' -> Q NO_ERROR h') ->
  runs (publish_loop access al i p l NO_ERROR) h Q.
Proof.
  induction l as [|c l IH]; intros h i y Q Hi Hy Hls Hnd Hl Ha HQ; cbn [publish_loop].
  { apply runs_ret, HQ. split; auto; [|set_solver]. exists y, []. rewrite app_nil_r, insert_id by done. by split_and!. }
  apply NoDup_cons in Hnd as [Hcl Hnd]. destruct (Hl c) as (x & Hx & Hs & [path Hpath] & Hadm); [left|].
  apply runs_bind. eapply runs_get_port; [exact Hy|].
  apply runs_bind. eapply runs_get_chan; [exact Hx|].
  apply runs_bind. eapply runs_deref; [exact Hpath|].
  destruct (negb (bool_decide (path = p_path y))) eqn:Ep; [|zbool]; apply negb_true_iff in Ep || idtac.
  - apply bool_decide_eq_false in Ep. eapply IH; eauto.
    + intros d Hd. apply Hl. by right.
    + intros h' Hp. apply HQ, loop_post_skip; [|done]. unfold wants. rewrite Hx.
      apply bool_decide_eq_false. congruence.
  - apply bool_decide_eq_true in Ep. subst path. specialize (Hadm Hpath).
    eapply (unwait_run h c x); [exact Hi|exact Hx|exact Hs|]. intros Hu Htmp. cbv zeta.
    rewrite (proj1 Hadm). simpl negb. cbv iota.
    eapply serve_run; eauto; [apply Ha..|]. intros h1 Hsv. pose proof Hsv as [V1 V2 V3 V4 V5 V6].
    eapply (IH h1 (S i) (attached y (next_obj h))); auto.
    + rewrite V4. apply lookup_insert_eq.
    + intros d Hd. destruct (Hl d) as (z & Hz & ?); [by right|]. exists z. split; [|done].
      apply V3; [|done]. by intros ->.
    + intros h2 Hp. apply HQ. eapply loop_post_cons; eauto.
      * unfold wants. rewrite Hx. by apply bool_decide_eq_true.
      * intros d Hd. destruct (Hl d) as (z & Hz & ?); [by right|eauto].
Qed.

End Publish.

(** C8: publishing a port that is not listed yet, when the object graph is
    sound, every client that waits for its path is admitted by the port and by
    the hypervisor and memory suffices for its connection, makes it listening and listed and turns
    exactly the clients that wait for its path into pending connections of
    the port, in the order in which they asked; every other channel and
    waiting client is as before, and the object graph stays sound.  A second
    port of the same path is refused and nothing changes.  Without the
    conditions on the clients the code may fail an assertion, at once or when
    the client is closed (ipc.c:281; the Lemmas of [IpcFaults]). *)
Theorem publish_safe access al h p y : inv quiet h -> ports h !! p = Some y -> p ∉ ipc_port_list h ->
  (forall c x, chans h !! c = Some x -> waits_for (p_path y) x -> admitted access y x) ->
  (forall i, allocs_ok (al i) (num_recv_bufs y) (recv_buf_size y) /\ allocs_give (al i)) ->
  runs (ipc_port_publish access al p) h (fun r h' => inv quiet h' /\
    ((r = ERR_ALREADY_EXISTS /\ h' = h /\
        exists q w, q ∈ ipc_port_list h /\ ports h !! q = Some w /\ p_path w = p_path y) \/
     (r = NO_ERROR /\ ipc_port_list h' = ipc_port_list h ++ [p] /\
        (exists y' ss, ports h' = <[p := y']> (ports h) /\ p_state y' = IPC_PORT_STATE_LISTENING /\
           pending_list y' = pending_list y ++ ss /\
           Forall2 (linked_at p h') (List.filter (wants (p_path y) h) (waiting_list h)) ss) /\
        (forall d z, d ∉ List.filter (wants (p_path y) h) (waiting_list h) -> chans h !! d = Some z ->
           chans h' !! d = Some z) /\
        (forall d, d ∈ waiting_list h' <-> d ∈ waiting_list h /\ wants (p_path y) h d = false)))).
Proof.
  intros Hi Hy Hpl Hadm Ha. unfold ipc_port_publish. apply runs_bind. unfold runs at 1, get.
  apply runs_bind, runs_assert; [by rewrite bool_decide_eq_false_2|].
  apply runs_bind. eapply runs_get_port; [exact Hy|].
  apply runs_bind. eapply port_find_locked_run; [exact Hi|..].
  { intros q w Hq Hw Hpath. apply runs_ret. split; [done|left]. split; [done|]. split; [done|]. eauto. }
  intros _. pose proof (i_port _ _ Hi p y Hy) as [P1 P2 P3 P4 P5 P6]. destruct (i_list _ _ Hi) as [L1 L2].
  apply runs_bind. eapply runs_upd_port; [exact Hy|].
  apply runs_bind. unfold runs at 1, modify.
  apply runs_bind. unfold port_incref. eapply runs_upd_port; [apply lookup_insert_eq|].
  apply runs_bind. unfold runs at 1, get.
  set (y1 := set_p_handle (handle_incref (p_handle y)) (set_p_state IPC_PORT_STATE_LISTENING y)).
  match goal with |- runs (publish_loop _ _ _ _ (waiting_list ?h') _) _ _ => set (h1 := h') end.
  assert (Hi1 : inv quiet h1).
  { assert (Hh : set_port_list (ipc_port_list h ++ [p]) (set_ports (<[p := y1]> (ports h)) h) = h1).
    { unfold h1. simpl. unfold set_ports, set_port_list. simpl. by rewrite insert_insert_eq. }
    rewrite <- Hh. unfold port_ext in P1. rewrite bool_decide_eq_false_2 in P1 by done.
    eapply (inv_port_upd quiet h p y); [exact Hi|exact Hy|done|done|done|simpl; lia|..].
    - apply NoDup_app. split; [done|]. split; [|apply NoDup_singleton]. set_solver.
    - intros q Hq. rewrite elem_of_app, list_elem_of_singleton. tauto.
    - split; [done|]. intros _. apply elem_of_app. right. by left.
    - rewrite bool_decide_eq_true_2 by (apply elem_of_app; right; by left). simpl. lia. }
  eapply (publish_loop_run access al p (waiting_list h1) h1 0 y1); auto.
  - apply lookup_insert_eq.
  - apply (i_wait_nodup _ _ Hi).
  - intros c (x & Hx & Hn)%(i_wait _ _ Hi). exists x. split; [exact Hx|].
    pose proof (i_chan _ _ Hi c x Hx) as [_ _ _ [[? _]|[_ C4]]]; [done|]. unfold state_ok in C4. rewrite Hn in C4.
    destruct (c_state x) eqn:Hs.
    + done.
    + destruct C4 as (_ & _ & _ & _ & [[? ?]|[? _]]); done.
    + by destruct C4 as (_ & _ & ?).
    + by destruct C4 as (_ & _ & ?).
    + destruct C4 as [?|(? & ? & _)]; done.
    + destruct C4 as (_ & _ & Hpath & _). split_and!; auto. intros Hw. by apply (Hadm c x Hx).
  - intros h' [Q1 (y' & ss & Q2 & Q3 & Q4 & Q5) Q6 Q7 Q8]. split; [done|right]. split; [done|]. split; [exact Q8|].
    split_and!.
    + exists y', ss. split_and!; try done. rewrite Q2. simpl. by rewrite !insert_insert_eq.
    + exact Q6.
    + intros d. rewrite Q7. change (waiting_list h1) with (waiting_list h). split; intros [Hd Hf]; (split; [done|]).
      * apply not_true_is_false. intros Ht. apply Hf, list_elem_of_In, List.filter_In. split; [|done]. by apply list_elem_of_In.
      * intros Hin%list_elem_of_In%List.filter_In. destruct Hin as [_ Hin]. change (wants (p_path y) h d = true) in Hin. congruence.
Qed.

End IpcServe.
