(* ===== verification/IpcMsg.v ===== *)
(** * Messages between the two ends of a connection

    The channel operations of [ipc_msg.c] on a sound object graph: a message
    that is sent is queued at the other end of the connection, and flow
    control wakes a sender that found the queue full. *)

From S2P Require Import Prelude Iovec MsgQueue Handle Ipc IpcInv IpcSafe.

Module IpcMsg.
Import Iovec MsgQueue Handle Ipc IpcInv IpcSafe.

Lemma set_user_same h : set_user (user h) h = h.
Proof. by destruct h. Qed.

Lemma chans_signal e h : chans (add_signal e h) = chans h.
Proof. by destruct e. Qed.

(** A queue operation that leaves the memory of the application alone. *)
Lemma runs_on_user {A} (m : M mem A) a h (Q : A -> heap -> Prop) : m (user h) = Done a (user h) ->
  Q a h -> runs (on_user m) h Q.
Proof. intros Hm HQ. unfold runs, on_user. by rewrite Hm, set_user_same. Qed.

(** A change of the queue or of the flow-control flags is none of the graph. *)
Lemma inv_aux g h c x a : inv g h -> chans h !! c = Some x -> inv g (upd c (set_aux a x) h).
Proof.
  intros Hi Hx. eapply inv_fields; eauto; try done. intros mq. apply (i_chan _ _ Hi c x Hx).
Qed.

Lemma inv_mq g h c x mq : inv g h -> chans h !! c = Some x -> mq_wf mq -> inv g (upd c (set_mq (Some mq) x) h).
Proof. intros Hi Hx Hmq. eapply inv_fields; eauto; try done. simpl. by intros ? [= <-]. Qed.

Lemma capacity_0 mq : capacity mq = 0 <-> free_list mq = [].
Proof. unfold capacity. destruct (free_list mq); simpl; split; (done || lia). Qed.

(** A connected channel has a partner with a queue. *)
Lemma connected_peer g h c x : inv g h -> chans h !! c = Some x -> c ∉ wip g -> c_state x = CONNECTED ->
  exists q y mq, peer x = Some q /\ q <> c /\ chans h !! q = Some y /\ peer y = Some c /\ msg_queue y = Some mq /\ mq_wf mq.
Proof.
  intros Hi Hx Hw Hs. pose proof (i_chan _ _ Hi c x Hx) as [_ _ _ [[? _]|[_ C4]]]; [done|].
  unfold state_ok in C4. rewrite Hs in C4. destruct C4 as ([q Hq] & _).
  destruct (i_peer _ _ Hi c x Hx q Hq) as (Hne & y & Hy & Hok & Hb). rewrite Hs in Hok, Hb.
  assert (Hsy : c_state y = CONNECTED) by (by destruct (c_state y)).
  pose proof (i_chan _ _ Hi q y Hy) as [_ D2 _ [[? D4]|[_ D4]]].
  - destruct D4 as (_ & _ & [E|E]); congruence.
  - unfold state_ok in D4. rewrite Hsy in D4. destruct D4 as (_ & [mq Hmq] & _).
    exists q, y, mq. split_and!; auto.
Qed.

(** ** Sending *)

(** What a send on the connected channel [c] does: [R] relates the queue at
    the other end, the result and the queue afterwards. *)
Definition sent (R : ipc_msg_queue -> Z -> ipc_msg_queue -> Prop) (h : heap) (c : Z) (x : chan) (r : Z) (h' : heap) : Prop :=
  exists q y mq, peer x = Some q /\ chans h !! q = Some y /\ msg_queue y = Some mq /\ ports h' = ports h /\
    ((capacity mq = 0 /\ r = ERR_NOT_ENOUGH_BUFFER /\ signalled h' = signalled h /\
        chans h' = <[c := set_aux (Z.lor (aux_state x) AUX_SEND_BLOCKED) x]> (chans h)) \/
     (exists mq', 0 < capacity mq /\ R mq r mq' /\ chans h' = <[q := set_mq (Some mq') y]> (chans h) /\
        signalled h' = (if 0 <=? r then option_list (wait_event (c_handle y)) else []) ++ signalled h)).

Lemma send_run h c x msg R : inv quiet h -> chans h !! c = Some x ->
  (forall mq, mq_wf mq -> free_list mq <> [] ->
     exists r mq', write_item mq msg (user h) = Done (r, mq') (user h) /\ mq_wf mq' /\ R mq r mq') ->
  runs (ipc_send_msg (Some (HChan c)) msg) h (fun r h' => inv quiet h' /\
    match c_state x with
    | CONNECTED => sent R h c x r h'
    | DISCONNECTING => r = ERR_CHANNEL_CLOSED /\ h' = h
    | _ => r = ERR_NOT_READY /\ h' = h
    end).
Proof.
  intros Hi Hx HR. unfold ipc_send_msg, check_channel_connected_locked. simpl check_channel_locked. cbv iota.
  apply runs_bind, runs_bind. eapply runs_get_chan; [exact Hx|].
  destruct (c_state x) eqn:Hs; try (by apply runs_ret, runs_ret).
  destruct (connected_peer quiet h c x Hi Hx ltac:(set_solver) Hs) as (q & y & mq & Hq & Hne & Hy & _ & Hmq & Hwf).
  apply runs_bind, runs_assert; [by rewrite Hq|]. apply runs_ret.
  apply runs_bind. unfold msg_write_locked. apply runs_bind. eapply runs_get_chan; [exact Hx|].
  apply runs_bind. eapply runs_deref; [exact Hq|]. apply runs_bind. eapply runs_get_chan; [exact Hy|].
  apply runs_bind. eapply runs_deref; [exact Hmq|]. case_bool_decide as Hf.
  - apply runs_bind. eapply runs_upd_chan; [exact Hx|]. apply runs_ret.
    rewrite (proj2 (Z.leb_gt 0 _)) by (unfold ERR_NOT_ENOUGH_BUFFER; lia). apply runs_bind, runs_ret, runs_ret.
    split; [by apply inv_aux|]. exists q, y, mq. split_and!; try done. left. split_and!; try done. by apply capacity_0.
  - destruct (HR mq Hwf Hf) as (r & mq' & Hrun & Hwf' & Hres).
    assert (Hcap : 0 < capacity mq).
    { unfold capacity. destruct (free_list mq); [done|]. simpl. lia. }
    apply runs_bind. eapply runs_on_user; [exact Hrun|]. apply runs_bind. eapply runs_upd_chan; [exact Hy|].
    simpl. apply runs_ret. assert (Hi' := inv_mq quiet h q y mq' Hi Hy Hwf').
    apply runs_bind. destruct (0 <=? r) eqn:Er.
    + apply runs_bind. eapply runs_get_chan; [unfold upd; simpl; rewrite lookup_insert_ne by done; exact Hx|].
      apply runs_bind. eapply runs_deref; [exact Hq|]. unfold notify_chan. apply runs_bind.
      eapply runs_get_chan; [apply lookup_insert_eq|]. apply runs_ret. split; [by apply inv_signal|].
      exists q, y, mq. unfold handle_notify. simpl c_handle. rewrite Er.
      split_and!; try done; [by destruct (wait_event (c_handle y))|]. right. exists mq'.
      split_and!; try done; by destruct (wait_event (c_handle y)).
    + apply runs_ret, runs_ret. split; [done|].
      exists q, y, mq. rewrite Er. split_and!; try done. right. by exists mq'.
Qed.

(** The message that a user's list describes: every entry and every byte it
    points to is readable, and no handles come with it. *)
Definition user_message (m : mem) (iov niov nh : Z) (bytes : list Z) : Prop :=
  nh = 0 /\ exists segs chunks, niov = Z.of_nat (length segs) /\ descriptors (Iovec.user m) iov 0 segs /\
    Forall2 (fun v bs => uiov_len v = Z.of_nat (length bs) /\ holds (Iovec.user m) (uiov_base v) bs) segs chunks /\
    bytes = concat chunks.

(** What it does to the queue that it is sent to.  A message that is described
    is always queued, as far as a buffer holds it; handles are not supported,
    and memory that cannot be read is the only other cause of a failure. *)
Definition user_sent (iov niov nh : Z) (m : mem) (mq : ipc_msg_queue) (r : Z) (mq' : ipc_msg_queue) : Prop :=
  (nh = 0 /\ exists msg, r = Z.of_nat (length msg) /\ capacity mq' = capacity mq - 1 /\ pending mq' = pending mq ++ [msg] /\
     user_iovec_to_membuf (item_sz mq) iov niov m = Done (r, msg) m /\
     forall bytes, user_message m iov niov nh bytes -> msg = take (Z.to_nat (item_sz mq)) bytes) \/
  (capacity mq' = capacity mq /\ pending mq' = pending mq /\ (forall bytes, ~ user_message m iov niov nh bytes) /\
     (nh <> 0 /\ r = ERR_NOT_SUPPORTED \/
      nh = 0 /\ r = ERR_FAULT /\ exists bs, user_iovec_to_membuf (item_sz mq) iov niov m = Done (ERR_FAULT, bs) m)).

Lemma write_user mq iov niov nh m : mq_wf mq -> free_list mq <> [] ->
  exists r mq', write_item mq (MsgUser niov iov nh) m = Done (r, mq') m /\ mq_wf mq' /\ user_sent iov niov nh m mq r mq'.
Proof.
  intros Hwf Hf. pose proof (wf_sz _ Hwf) as Hsz. destruct (decide (nh = 0)) as [->|Hn].
  - destruct (user_iovec_to_membuf_safe (item_sz mq) iov niov m ltac:(lia)) as (r & bs & Hg & Hl & Hr).
    assert (Hmsg : forall bytes, user_message m iov niov 0 bytes -> r = Z.of_nat (length bs) /\ bs = take (Z.to_nat (item_sz mq)) bytes).
    { intros bytes (_ & segs & chunks & -> & Hd & Hc & ->). rewrite (user_iovec_to_membuf_gather m (item_sz mq) iov segs chunks Hd Hc) in Hg by lia.
      injection Hg as <- <-. rewrite length_take. split; [lia|done]. }
    destruct (write_item_run mq (MsgUser niov iov 0) m m r bs Hwf Hf Hg Hl) as (mq' & Hrun & Hwf' & _ & _ & _ & Hq).
    { destruct Hr as [->| ->]; [by left|by right]. }
    exists r, mq'. split; [done|]. split; [done|]. destruct Hr as [->| ->].
    + left. split; [done|]. exists bs. rewrite (proj2 (Z.ltb_ge _ 0)) in Hq by lia. destruct Hq as [Hp Hc].
      split_and!; [done..|]. intros bytes Hb. by apply Hmsg.
    + right. change (ERR_FAULT <? 0) with true in Hq. destruct Hq as [Hp Hc]. split_and!; [done|done| |right; eauto].
      intros bytes Hb. destruct (Hmsg bytes Hb) as [E _]. unfold ERR_FAULT in E. lia.
  - destruct (write_item_run mq (MsgUser niov iov nh) m m ERR_NOT_SUPPORTED [] Hwf Hf) as (mq' & Hrun & Hwf' & _ & _ & _ & Hq).
    { cbn [load_msg]. by rewrite (proj2 (Z.eqb_neq nh 0) Hn). }
    { simpl. lia. } { by right. }
    exists ERR_NOT_SUPPORTED, mq'. split; [done|]. split; [done|]. right. destruct Hq as [Hp Hc]. split_and!; [done|done| |by left].
    by intros bytes [? _].
Qed.

(** C9: sending on a channel never faults the kernel, whatever the caller
    passes, and keeps the object graph sound.  On a connected channel with a
    free buffer at the other end, a message whose list and bytes are readable
    is queued there, behind what is queued already and cut to the size of a
    buffer, and the other end is notified.  A message with handles is refused with
    [ERR_NOT_SUPPORTED], one that cannot be read with [ERR_FAULT], and neither
    changes the queue; with no free buffer the sender is marked as
    blocked.  On a channel that is not connected nothing happens but the error. *)
Theorem send_delivers h c x niov iov nh : inv quiet h -> chans h !! c = Some x ->
  runs (ipc_send_msg (Some (HChan c)) (MsgUser niov iov nh)) h (fun r h' => inv quiet h' /\
    match c_state x with
    | CONNECTED => sent (user_sent iov niov nh (user h)) h c x r h'
    | DISCONNECTING => r = ERR_CHANNEL_CLOSED /\ h' = h
    | _ => r = ERR_NOT_READY /\ h' = h
    end).
Proof. intros Hi Hx. apply send_run; [done..|]. intros mq Hwf Hf. by apply write_user. Qed.

(** What the bytes at a kernel address do to the queue: the message is cut
    to the size of a buffer. *)
Definition kern_sent (bs : list Z) (mq : ipc_msg_queue) (r : Z) (mq' : ipc_msg_queue) : Prop :=
  let msg := take (Z.to_nat (item_sz mq)) bs in
  r = Z.of_nat (length msg) /\ capacity mq' = capacity mq - 1 /\ pending mq' = pending mq ++ [msg].

Lemma send_kern_run h c x a bs : inv quiet h -> chans h !! c = Some x -> a <> 0 ->
  kread a (length bs) (kernel (user h)) = Some bs ->
  runs (ipc_send_msg (Some (HChan c)) (MsgKern 1 (Some [IovecKern a (Z.of_nat (length bs))]) 0)) h (fun r h' => inv quiet h' /\
    match c_state x with
    | CONNECTED => sent (kern_sent bs) h c x r h'
    | DISCONNECTING => r = ERR_CHANNEL_CLOSED /\ h' = h
    | _ => r = ERR_NOT_READY /\ h' = h
    end).
Proof.
  intros Hi Hx Ha Hrd. apply send_run; [done..|]. intros mq Hwf Hf.
  destruct (write_kern mq a bs (user h) Hwf Hf Ha Hrd) as (mq' & Hrun & Hwf' & Hp & Hc).
  eexists _, mq'. split_and!; [exact Hrun|done|]. by split_and!.
Qed.

(** ** Retiring a message *)

(** The other end after a buffer became free: woken if it was blocked. *)
Definition woken (y y' : chan) : Prop :=
  if has_flag (aux_state y) AUX_SEND_BLOCKED then
    has_flag (aux_state y') AUX_SEND_BLOCKED = false /\ has_flag (aux_state y') AUX_SEND_UNBLOCKED = true
  else y' = y.

Lemma unblock_flags a : let a' := Z.lor (Z.land a (u32 (Z.lnot AUX_SEND_BLOCKED))) AUX_SEND_UNBLOCKED in
  has_flag a' AUX_SEND_BLOCKED = false /\ has_flag a' AUX_SEND_UNBLOCKED = true.
Proof.
  intros a'. split.
  - change AUX_SEND_BLOCKED with (2 ^ 0). rewrite has_flag_pow2 by lia. unfold a'.
    rewrite Z.lor_spec, Z.land_spec. change (Z.testbit (u32 (Z.lnot AUX_SEND_BLOCKED)) 0) with false.
    by rewrite andb_false_r.
  - change (has_flag a' (2 ^ 1) = true).
    rewrite has_flag_pow2 by lia. unfold a'. rewrite Z.lor_spec. apply orb_true_r.
Qed.

(** The run of [ipc_put_msg]. *)
Lemma put_run h c x mq id : inv quiet h -> chans h !! c = Some x -> msg_queue x = Some mq -> 0 <= id ->
  runs (ipc_put_msg (Some (HChan c)) id) h (fun r h' => inv quiet h' /\
    match reading mq id with
    | None => r = ERR_INVALID_ARGS /\ h' = h
    | Some _ => r = NO_ERROR /\ ports h' = ports h /\ user h' = user h /\
        (exists mq', chans h' !! c = Some (set_mq (Some mq') x) /\ pending mq' = pending mq /\
           capacity mq' = capacity mq + 1 /\ reading mq' id = None) /\
        match peer x with
        | None => signalled h' = signalled h
        | Some q => exists y y', chans h !! q = Some y /\ chans h' !! q = Some y' /\ woken y y' /\
            signalled h' = (if has_flag (aux_state y) AUX_SEND_BLOCKED then option_list (wait_event (c_handle y)) else [])
                             ++ signalled h
        end
    end).
Proof.
  intros Hi Hx Hmq Hid. assert (Hwf : mq_wf mq) by (by apply (i_chan _ _ Hi c x Hx)).
  unfold ipc_put_msg. simpl check_channel_locked. cbv iota. unfold msg_put_read_locked.
  apply runs_bind. eapply runs_get_chan; [exact Hx|].
  apply runs_bind, runs_assert; [by rewrite Hmq|]. apply runs_bind. eapply runs_deref; [exact Hmq|].
  pose proof (put_retires mq id (user h) Hwf Hid) as Hput. destruct (reading mq id) as [msg|].
  - destruct Hput as (mq' & Hrun & Hwf' & Hp & Hc & Hrd & _).
    apply runs_bind. eapply runs_on_user; [exact Hrun|]. apply runs_bind. eapply runs_upd_chan; [exact Hx|].
    simpl negb. cbv iota. assert (Hi' := inv_mq quiet h c x mq' Hi Hx Hwf').
    destruct (peer x) as [q|] eqn:Hq.
    + destruct (i_peer _ _ Hi c x Hx q Hq) as (Hne & y & Hy & _).
      assert (Hy' : chans (upd c (set_mq (Some mq') x) h) !! q = Some y).
      { unfold upd. simpl. by rewrite lookup_insert_ne. }
      apply runs_bind. eapply runs_get_chan; [exact Hy'|]. apply runs_bind.
      destruct (has_flag (aux_state y) AUX_SEND_BLOCKED) eqn:Eb.
      * apply runs_bind. eapply runs_upd_chan; [exact Hy'|]. unfold notify_chan. apply runs_bind.
        eapply runs_get_chan; [apply lookup_insert_eq|]. apply runs_ret.
        split; [by apply inv_signal, inv_aux|]. unfold handle_notify. simpl c_handle.
        destruct (unblock_flags (aux_state y)) as [U1 U2].
        split; [done|]. split; [by destruct (wait_event (c_handle y))|]. split; [by destruct (wait_event (c_handle y))|]. split.
        { exists mq'. split_and!; auto. rewrite chans_signal. unfold upd. simpl.
          rewrite lookup_insert_ne by done. apply lookup_insert_eq. }
        eexists y, _. split; [done|]. split; [|split].
        { rewrite chans_signal. apply lookup_insert_eq. }
        { unfold woken. by rewrite Eb. }
        { rewrite Eb. by destruct (wait_event (c_handle y)). }
      * apply runs_ret, runs_ret. split; [done|]. split; [done|]. split; [done|]. split; [done|]. split.
        { exists mq'. split_and!; auto. apply lookup_insert_eq. }
        exists y, y. unfold woken. by rewrite Eb.
    + apply runs_ret. split; [done|]. split; [done|]. split; [done|]. split; [done|]. split; [|done].
      exists mq'. split_and!; auto. apply lookup_insert_eq.
  - apply runs_bind. eapply runs_on_user; [exact Hput|]. apply runs_bind. eapply runs_upd_chan; [exact Hx|].
    simpl negb. cbv iota. apply runs_ret. simpl snd.
    assert (Hsx : set_mq (Some mq) x = x) by (destruct x; simpl in *; by subst).
    by rewrite Hsx, upd_id.
Qed.

(** ** Receiving *)

Lemma get_run h c x mq (Q : Z * option ipc_msg_info -> heap -> Prop) : inv quiet h -> chans h !! c = Some x ->
  msg_queue x = Some mq ->
  (pending mq = [] -> Q (ERR_NO_MSG, None) h) ->
  (forall msg rest id mq', pending mq = msg :: rest -> mq_wf mq' -> pending mq' = rest -> reading mq' id = Some msg -> 0 <= id ->
     Q (NO_ERROR, Some (MsgInfo (Z.of_nat (length msg)) id)) (upd c (set_mq (Some mq') x) h)) ->
  runs (ipc_get_msg (Some (HChan c))) h Q.
Proof.
  intros Hi Hx Hmq Hno Hsome. assert (Hwf : mq_wf mq) by (by apply (i_chan _ _ Hi c x Hx)).
  unfold ipc_get_msg. simpl check_channel_locked. cbv iota. apply runs_bind. eapply runs_get_chan; [exact Hx|].
  apply runs_bind. eapply runs_deref; [exact Hmq|]. pose proof (get_fifo mq (user h) Hwf) as Hg.
  destruct (pending mq) as [|msg rest].
  - apply runs_bind. eapply runs_on_user; [exact Hg|]. apply runs_ret. by apply Hno.
  - destruct Hg as (id & mq' & Hpk & _ & Hget & Hwf' & Hp & _ & Hrd & _).
    apply runs_bind. eapply runs_on_user; [exact Hpk|]. cbn [fst]. rewrite Z.eqb_refl.
    apply runs_bind. eapply runs_on_user; [exact Hget|]. apply runs_bind. eapply runs_upd_chan; [exact Hx|].
    apply runs_ret. eapply Hsome; eauto. by apply (reading_lookup mq' id msg).
Qed.

Lemma read_kern_run h c x mq id msg a n k (Q : Z -> heap -> Prop) : inv quiet h -> chans h !! c = Some x ->
  msg_queue x = Some mq -> reading mq id = Some msg -> a <> 0 -> 0 <= n ->
  kwrite a (take (Z.to_nat n) msg) (kernel (user h)) = Some k ->
  Q (Z.of_nat (length (take (Z.to_nat n) msg))) (Ipc.set_user (set_kernel k (user h)) h) ->
  runs (ipc_read_msg (Some (HChan c)) id 0 (MsgKern 1 (Some [IovecKern a n]) 0)) h Q.
Proof.
  intros Hi Hx Hmq Hrd Ha Hn Hk HQ. assert (Hwf : mq_wf mq) by (by apply (i_chan _ _ Hi c x Hx)).
  unfold ipc_read_msg. simpl check_channel_locked. cbv iota. apply runs_bind. eapply runs_get_chan; [exact Hx|].
  apply runs_bind. eapply runs_deref; [exact Hmq|]. unfold runs, on_user.
  rewrite (read_kern mq id msg a n (user h) Hwf Hrd Ha Hn), Hk. exact HQ.
Qed.

(** Putting a message back on a channel frees its buffer once and wakes
    the sender: if the other end was blocked on a full queue it is marked as
    unblocked and notified, so it learns that it can send again; memory is as
    it was.  An id that names no message being read is refused and changes
    nothing. *)
Lemma put_unblocks h c x mq id : inv quiet h -> chans h !! c = Some x -> msg_queue x = Some mq -> 0 <= id ->
  runs (ipc_put_msg (Some (HChan c)) id) h (fun r h' => inv quiet h' /\
    match reading mq id with
    | None => r = ERR_INVALID_ARGS /\ h' = h
    | Some _ => r = NO_ERROR /\ ports h' = ports h /\ user h' = user h /\
        (exists mq', chans h' !! c = Some (set_mq (Some mq') x) /\ pending mq' = pending mq /\
           capacity mq' = capacity mq + 1 /\ reading mq' id = None) /\
        match peer x with
        | None => signalled h' = signalled h
        | Some q => exists y y', chans h !! q = Some y /\ chans h' !! q = Some y' /\ woken y y' /\
            signalled h' = (if has_flag (aux_state y) AUX_SEND_BLOCKED then option_list (wait_event (c_handle y)) else [])
                             ++ signalled h
        end
    end).
Proof. apply put_run. Qed.

End IpcMsg.
