(* ===== verification/IpcDemo.v ===== *)
(** * A sound object graph, and the theorems on it

    The heap that a short run of the operations leaves: ports 1 (listening)
    and 7 (new), the connection 2-3, the pending connection 4-5 and the
    waiting client 6.  It satisfies the invariant, and each theorem on ports
    and channels is applied to it. *)

From S2P Require Import Prelude Iovec MsgQueue Handle Ipc IpcInv IpcSafe IpcServe IpcMsg.

Module IpcDemo.
Import Iovec MsgQueue Handle Ipc IpcInv IpcSafe IpcServe IpcMsg.

Definition app : uuid := AppUuid 7.
Definition give : allocs := Allocs true (true, Some [0; 0; 0; 0]) (true, Some [0; 0; 0; 0]).
Definition allow (_ : Z) (_ : uuid) : Z := 0.
Definition empty_heap : heap := Heap ∅ ∅ [] [] 1 [] demo_mem.

Definition demo_run : M heap unit :=
  _ <- ipc_port_create true (Some app) [97; 0] 1 4 3 ;;
  _ <- ipc_port_publish allow (fun _ => give) 1 ;;
  _ <- ipc_port_connect_async allow true give true 5 (Some ZeroUuid) [97; 0] 64 0 ;;
  _ <- ipc_port_accept (Some (HPort 1)) ;;
  _ <- ipc_port_connect_async allow true give true 5 (Some ZeroUuid) [97; 0] 64 0 ;;
  _ <- ipc_port_connect_async allow true give true 5 (Some app) [98; 0] 64 1 ;;
  _ <- ipc_port_create true (Some app) [98; 0] 1 4 3 ;;
  ret tt.

Definition mq0 : ipc_msg_queue := MsgQueue [0%nat] [] [] 1 4 [0; 0; 0; 0] [MsgItem 0 0 0 0].
Definition hd5 : handle := Hnd 1 None 0 5.

Definition port1 : port := Port [97] app 1 3 1 4 (Hnd 3 None 0 5) [5].
Definition port7 : port := Port [98] app 0 3 1 4 handle_init [].
Definition chan2 : chan := Chan [PeerRef 3; HandleRef] (Some 3) ZeroUuid CONNECTED 0 4 hd5 None (Some mq0) None.
Definition chan3 : chan := Chan [PeerRef 2; HandleRef] (Some 2) app CONNECTED 1 0 hd5 None (Some mq0) None.
Definition chan4 : chan := Chan [PeerRef 5; HandleRef] (Some 5) ZeroUuid CONNECTING 0 0 hd5 None (Some mq0) None.
Definition chan5 : chan :=
  Chan [PeerRef 4; NodeRef] (Some 4) app ACCEPTING 1 0 handle_zero (Some (Pending 1)) (Some mq0) None.
Definition chan6 : chan :=
  Chan [NodeRef; HandleRef] None app WAITING_FOR_PORT 0 0 hd5 (Some Waiting) None (Some [98]).

Definition demo : heap :=
  Heap (<[1 := port1]> (<[7 := port7]> ∅))
    (<[2 := chan2]> (<[3 := chan3]> (<[4 := chan4]> (<[5 := chan5]> (<[6 := chan6]> ∅)))))
    [1] [6] 8 [] demo_mem.

Lemma demo_reached : demo_run empty_heap = Done tt demo.
Proof. vm_compute. reflexivity. Qed.

Lemma demo_chans c x : chans demo !! c = Some x ->
  (c = 2 /\ x = chan2) \/ (c = 3 /\ x = chan3) \/ (c = 4 /\ x = chan4) \/ (c = 5 /\ x = chan5) \/ (c = 6 /\ x = chan6).
Proof.
  simpl. intros Hx. repeat (apply lookup_insert_Some in Hx as [[<- <-]|[_ Hx]]; [tauto|]).
  by rewrite lookup_empty in Hx.
Qed.

Lemma demo_peer q c : peer_of demo q = Some c ->
  (q = 2 /\ c = 3) \/ (q = 3 /\ c = 2) \/ (q = 4 /\ c = 5) \/ (q = 5 /\ c = 4).
Proof.
  unfold peer_of. intros Hq. destruct (chans demo !! q) as [x|] eqn:Hx; [|done]. simpl in Hq.
  apply demo_chans in Hx as [[-> ->]|[[-> ->]|[[-> ->]|[[-> ->]|[-> ->]]]]]; simpl in Hq; injection Hq as <- || done;
    tauto.
Qed.

Lemma demo_ports p y : ports demo !! p = Some y -> (p = 1 /\ y = port1) \/ (p = 7 /\ y = port7).
Proof.
  simpl. intros Hx. repeat (apply lookup_insert_Some in Hx as [[<- <-]|[_ Hx]]; [tauto|]).
  by rewrite lookup_empty in Hx.
Qed.

Lemma mq0_wf : mq_wf mq0.
Proof.
  split; simpl; try lia; try reflexivity.
  intros [|i] it Hi; simpl in Hi; inversion Hi; subst; simpl; unfold on_list; simpl.
  split_and!; try lia. left. split; [done|left].
Qed.

Ltac chan_cases H := apply demo_chans in H as [[-> ->]|[[-> ->]|[[-> ->]|[[-> ->]|[-> ->]]]]].

Lemma demo_refs c x : chans demo !! c = Some x -> refs_ok quiet demo c x.
Proof.
  intros Hx. pose proof (demo_peer) as Hp.
  assert (H2 : peer_of demo 2 = Some 3) by reflexivity. assert (H3 : peer_of demo 3 = Some 2) by reflexivity.
  assert (H4 : peer_of demo 4 = Some 5) by reflexivity. assert (H5 : peer_of demo 5 = Some 4) by reflexivity.
  chan_cases Hx; (split; simpl; [by apply (bool_decide_unpack _); vm_compute|done| |done]); intros r;
    rewrite !elem_of_cons, elem_of_nil; destruct r as [| |q|]; simpl; (split;
    [intros [E|[E|[]]]; (done || (injection E as ->; by left) || (left; lia) || (left; by eexists))
    |intros [E|E]; [|done]]); try (by (lia || destruct E || set_solver)); try tauto;
    try (apply Hp in E; naive_solver); by apply not_elem_of_empty in E.
Qed.

Lemma demo_inv : inv quiet demo.
Proof.
  split.
  - exact demo_refs.
  - intros c x Hx. chan_cases Hx; (split; simpl; [lia| |intros _; first [left; lia|right; left; by eexists]| ]);
      try (intros mq [= <-]; apply mq0_wf); try done; try (right; split; [set_solver|]; unfold state_ok; simpl; split_and!; eauto; left; lia).
  - intros c x Hx. chan_cases Hx; intros q [= <-]; (split; [lia|]); eexists; (split; [reflexivity|done]).
  - intros p y Hy. apply demo_ports in Hy as [[-> ->]|[-> ->]].
    + split; simpl; try (by vm_compute); try lia; [apply NoDup_singleton| |].
      * intros c. rewrite list_elem_of_singleton. split; [intros ->; by exists chan5|].
        intros (x & Hx & Hn). chan_cases Hx; done.
      * rewrite list_elem_of_singleton. done.
    + split; simpl; try (by vm_compute); try lia; [constructor| |].
      * intros c. rewrite elem_of_nil. split; [done|]. intros (x & Hx & Hn). chan_cases Hx; done.
      * rewrite list_elem_of_singleton. split; [lia|done].
  - intros c x p Hx Hn. chan_cases Hx; simpl in Hn; injection Hn as <- || done. by eexists.
  - intros c. simpl. rewrite list_elem_of_singleton. split; [intros ->; by exists chan6|].
    intros (x & Hx & Hn). chan_cases Hx; done.
  - apply NoDup_singleton.
  - split; [apply NoDup_singleton|]. intros p. simpl. rewrite list_elem_of_singleton. intros ->. by eexists.
  - intros i Hi. simpl in Hi. split.
    + destruct (chans demo !! i) eqn:Hx; [|done]. chan_cases Hx; lia.
    + destruct (ports demo !! i) eqn:Hx; [|done]. apply demo_ports in Hx as [[-> _]|[-> _]]; lia.
Qed.

(** The same with a message being read at 3 and a sender blocked at 2. *)
Definition demo_busy : heap :=
  upd 3 (set_mq (Some demo_mq) chan3) (upd 2 (set_aux AUX_SEND_BLOCKED chan2) demo).

Lemma demo_busy_inv : inv quiet demo_busy.
Proof. apply inv_mq; [by apply inv_aux; [apply demo_inv|]|done|apply demo_mq_wf]. Qed.

(** ** The theorems at work *)

Lemma give_ok p y : ports demo !! p = Some y -> allocs_ok give (num_recv_bufs y) (recv_buf_size y).
Proof. intros [[-> ->]|[-> ->]]%demo_ports; split; by intros b [= <-]. Qed.

Lemma chan_close_safe_witness :
  (exists h', handle_close (HChan 2) demo = Done tt h' /\ inv quiet h' /\ chans h' !! 4 = Some chan4) /\
  handle_close (HChan 2) (upd 2 (set_node None (set_state WAITING_FOR_PORT chan2)) demo) = Crash Panic.
Proof.
  split.
  - pose proof (proj1 (chan_close_safe demo 2 chan2 eq_refl) demo_inv eq_refl) as H.
    rewrite runs_done in H. destruct H as ([] & h' & Hrun & Hi & _ & _ & Ho & _). exists h'. split; [exact Hrun|].
    split; [exact Hi|]. rewrite (Ho 4); [reflexivity|lia|by intros [= ?]].
  - apply (proj2 (chan_close_safe (upd 2 (set_node None (set_state WAITING_FOR_PORT chan2)) demo) 2
      (set_node None (set_state WAITING_FOR_PORT chan2)) (lookup_insert_eq _ _ _))); reflexivity.
Defined.

Lemma port_close_safe_witness :
  exists h', handle_close (HPort 1) demo = Done tt h' /\ inv quiet h' /\ ports h' !! 1 = None.
Proof.
  pose proof (port_close_safe demo 1 port1 demo_inv eq_refl ltac:(by vm_compute)) as H.
  rewrite runs_done in H. destruct H as ([] & h' & Hrun & Hi & _ & _ & _ & Hp). exists h'.
  split; [exact Hrun|]. split; [exact Hi|exact Hp].
Defined.

Lemma connect_safe_witness :
  exists r h', ipc_port_connect_async allow true give true 5 (Some ZeroUuid) [97; 0] 64 0 demo = Done r h' /\
    inv quiet h' /\ r = (NO_ERROR, Some (HChan 8)).
Proof.
  pose proof (connect_safe allow true give true 5 (Some ZeroUuid) [97; 0] 64 0 demo demo_inv give_ok) as H.
  rewrite runs_done in H. destruct H as (r & h' & Hrun & Hi & _). exists r, h'. split; [exact Hrun|]. split; [exact Hi|].
  assert (Hv : exists h2, ipc_port_connect_async allow true give true 5 (Some ZeroUuid) [97; 0] 64 0 demo =
    Done (NO_ERROR, Some (HChan 8)) h2) by (eexists; vm_compute; reflexivity).
  destruct Hv as [h2 Hv]. rewrite Hrun in Hv. by injection Hv.
Defined.

Lemma accept_safe_witness :
  exists r h', ipc_port_accept (Some (HPort 1)) demo = Done r h' /\ inv quiet h' /\
    r = (NO_ERROR, Some (HChan 5, ZeroUuid)) /\ accept_post demo 1 5 port1 chan5 [] 4 chan4 h'.
Proof.
  pose proof (accept_safe demo 1 port1 demo_inv eq_refl) as H.
  rewrite runs_done in H. destruct H as (r & h' & Hrun & Hi & x & Hx & H). exists r, h'. split; [exact Hrun|]. split; [exact Hi|].
  injection Hx as <-. simpl in H. destruct H as (client & Hc & Hr & Hp). injection Hc as <-. split; [exact Hr|exact Hp].
Defined.

Lemma create_spec_witness :
  exists r h', ipc_port_create true (Some app) [99; 0] 2 128 1 demo = Done r h' /\ inv quiet h' /\
    ports h' !! 1 = Some port1.
Proof.
  pose proof (create_spec true (Some app) [99; 0] 2 128 1 demo demo_inv ltac:(lia) ltac:(lia)) as H.
  cbv zeta in H. rewrite runs_done in H. destruct H as (r & h' & Hrun & Hi & H). exists r, h'. split; [exact Hrun|]. split; [exact Hi|].
  destruct H as [(u & _ & _ & _ & _ & _ & _ & _ & _ & _ & Ho & _)|[-> _]]; [apply (Ho 1); simpl; lia|reflexivity].
Defined.

Lemma publish_safe_witness :
  exists r h', ipc_port_publish allow (fun _ => give) 7 demo = Done r h' /\ inv quiet h' /\
    (r = NO_ERROR -> exists s, linked_at 7 h' 6 s).
Proof.
  pose proof (publish_safe allow (fun _ => give) demo 7 port7 demo_inv eq_refl) as H.
  lapply H; [clear H; intros H|simpl; rewrite list_elem_of_singleton; lia].
  lapply H; [clear H; intros H|].
  2: { intros c x Hx [_ Hp]. split; [done|]. chan_cases Hx; done. }
  lapply H; [clear H; intros H|].
  2: { intros i. split; [split; by intros b [= <-]|split_and!; eauto]. }
  rewrite runs_done in H. destruct H as (r & h' & Hrun & Hi & H). exists r, h'. split; [exact Hrun|]. split; [exact Hi|].
  intros Hr. destruct H as [(He & _)|(_ & _ & (y' & ss & _ & _ & _ & Hf) & _)]; [by rewrite Hr in He|].
  change (List.filter (wants (p_path port7) demo) (waiting_list demo)) with [6] in Hf.
  destruct ss as [|s ss]; [by inversion Hf|]. exists s. by inversion Hf.
Defined.

(** The list at 0x1000 has two readable segments, seven bytes together: the first
    four, as many as a buffer has, arrive at the other end of channel 2. *)
Lemma send_delivers_witness :
  exists h' mq', ipc_send_msg (Some (HChan 2)) (MsgUser 2 0x1000 0) demo = Done 4 h' /\ inv quiet h' /\
    chans h' !! 3 = Some (set_mq (Some mq') chan3) /\ pending mq' = [[65; 66; 67; 68]].
Proof.
  pose proof (send_delivers demo 2 chan2 2 0x1000 0 demo_inv eq_refl) as H.
  rewrite runs_done in H. destruct H as (r & h' & Hrun & Hi & q & y & mq & Hq & Hy & Hmq & _ & H).
  injection Hq as <-. injection Hy as <-. injection Hmq as <-.
  assert (Hg : user_iovec_to_membuf (item_sz mq0) 0x1000 2 (Ipc.user demo) = Done (4, [65; 66; 67; 68]) (Ipc.user demo)) by (vm_compute; reflexivity).
  destruct H as [(Hcap & _)|(mq' & _ & [(_ & msg & _ & _ & Hp & Hm & _)|(_ & _ & _ & [[Hn _]|(_ & _ & bs & Hm)])] & Hc & _)];
    [discriminate Hcap| |destruct (Hn eq_refl)|pose proof (eq_trans (eq_sym Hm) Hg) as E; discriminate E].
  pose proof (eq_trans (eq_sym Hm) Hg) as E. injection E as Hr Hb. exists h', mq'. split; [rewrite <- Hr; exact Hrun|]. split; [exact Hi|].
  rewrite Hc, Hp, Hb. split; [apply lookup_insert_eq|reflexivity].
Defined.

Lemma put_unblocks_witness :
  exists h' y', ipc_put_msg (Some (HChan 3)) 0 demo_busy = Done NO_ERROR h' /\ inv quiet h' /\
    chans h' !! 2 = Some y' /\ has_flag (aux_state y') AUX_SEND_UNBLOCKED = true.
Proof.
  pose proof (put_unblocks demo_busy 3 (set_mq (Some demo_mq) chan3) demo_mq 0 demo_busy_inv eq_refl eq_refl ltac:(lia)) as H.
  rewrite runs_done in H. destruct H as (r & h' & Hrun & Hi & H). change (reading demo_mq 0) with (Some [1; 2; 3]) in H. cbv iota in H.
  destruct H as (Hr & _ & _ & _ & y & y' & Hy & Hy' & Hw & _). injection Hy as <-. exists h', y'.
  split; [by rewrite <- Hr|]. split; [exact Hi|]. split; [exact Hy'|]. apply Hw.
Defined.

End IpcDemo.
