(* ===== verification/IpcFaults.v ===== *)
(** * Where publishing a port breaks the object graph

    [ipc_port_publish] takes a waiting client off the list of waiting clients
    before it knows whether the client may connect, and leaves it in the
    state of a waiting client.  A client that the port refuses therefore fails
    the assertion of [_chan_shutdown_locked] at once, one that the hypervisor
    refuses fails it when it is closed. *)

From S2P Require Import Prelude Iovec MsgQueue Handle Ipc IpcInv IpcSafe IpcServe IpcDemo.

Module IpcFaults.
Import Iovec MsgQueue Handle Ipc IpcInv IpcSafe IpcServe IpcDemo.

Lemma goes_get_port p y h : ports h !! p = Some y -> get_port p h = Done y h.
Proof. intros Hy. unfold get_port, bind, get. by rewrite Hy. Qed.

Lemma unwait_goes {A} h c x (k : M heap A) : inv quiet h -> chans h !! c = Some x -> c_state x = WAITING_FOR_PORT ->
  (upd_chan c (set_c_path None) ;;; chan_add_ref c TmpRef ;;; chan_unlink c ;;; chan_del_ref c NodeRef ;;; k) h =
  k (unwait c x h).
Proof.
  intros Hi Hx Hs.
  assert (H : runs (upd_chan c (set_c_path None) ;;; chan_add_ref c TmpRef ;;; chan_unlink c ;;;
    chan_del_ref c NodeRef ;;; get) h (fun a h' => h' = a /\ a = unwait c x h)).
  { apply (unwait_run h c x); [done..|]. intros _ _. by split. }
  unfold runs, bind, get in *. repeat (case_match; [|done]). simplify_eq. by destruct H as [_ ->].
Qed.

(** Publishing up to the loop: the port is listening, listed and counted. *)
Definition listed (p : Z) (y : port) (h : heap) : heap :=
  set_port_list (ipc_port_list h ++ [p])
    (set_ports (<[p := set_p_handle (handle_incref (p_handle y)) (set_p_state IPC_PORT_STATE_LISTENING y)]> (ports h)) h).

Lemma publish_goes access al h p y : inv quiet h -> ports h !! p = Some y -> p ∉ ipc_port_list h ->
  (forall q w, q ∈ ipc_port_list h -> ports h !! q = Some w -> p_path w <> p_path y) ->
  ipc_port_publish access al p h = publish_loop access al 0 p (waiting_list h) NO_ERROR (listed p y h).
Proof.
  intros Hi Hy Hp Hn. unfold ipc_port_publish. erewrite bind_goes by reflexivity.
  rewrite bool_decide_eq_false_2 by done. erewrite bind_goes by reflexivity.
  erewrite bind_goes by (by apply goes_get_port).
  assert (Hf : port_find_locked (p_path y) h = Done None h).
  { assert (H : runs (port_find_locked (p_path y)) h (fun r h' => r = None /\ h' = h)).
    { eapply port_find_locked_run; [exact Hi| |done]. intros q w Hq Hw E. by destruct (Hn q w Hq Hw). }
    rewrite runs_done in H. destruct H as (? & ? & H & -> & ->). exact H. }
  erewrite bind_goes by exact Hf. cbv iota.
  unfold upd_port, port_incref. rewrite (bind_goes _ _ _ tt
    (set_ports (<[p := set_p_state IPC_PORT_STATE_LISTENING y]> (ports h)) h)).
  2: { erewrite bind_goes by (by apply goes_get_port). done. }
  erewrite bind_goes by reflexivity. unfold upd_port. erewrite bind_goes.
  2: { erewrite bind_goes by (apply goes_get_port, lookup_insert_eq). rewrite put_port_eq. reflexivity. }
  erewrite bind_goes by reflexivity. f_equal. unfold listed, set_port_list, set_ports. simpl. by rewrite insert_insert_eq.
Qed.

Lemma listed_inv h p y : inv quiet h -> ports h !! p = Some y -> p ∉ ipc_port_list h -> inv quiet (listed p y h).
Proof.
  intros Hi Hy Hp. pose proof (i_port _ _ Hi p y Hy) as [P1 P2 P3 P4 P5 P6]. destruct (i_list _ _ Hi) as [L1 L2].
  unfold port_ext in P1. rewrite bool_decide_eq_false_2 in P1 by done.
  eapply (inv_port_upd quiet h p y); [exact Hi|exact Hy|done|done|done|simpl; lia|..].
  - apply NoDup_app. split; [done|]. split; [|apply NoDup_singleton]. set_solver.
  - intros q Hq. rewrite elem_of_app, list_elem_of_singleton. tauto.
  - split; [done|]. intros _. apply elem_of_app. right. by left.
  - rewrite bool_decide_eq_true_2 by (apply elem_of_app; right; by left). simpl. lia.
Qed.

Section Refused.
Context (access : Z -> uuid -> Z) (al : nat -> allocs) (h : heap) (p : Z) (y : port) (c : Z) (x : chan) (l : list Z).
Context (Hi : inv quiet h) (Hy : ports h !! p = Some y) (Hp : p ∉ ipc_port_list h).
Context (Hn : forall q w, q ∈ ipc_port_list h -> ports h !! q = Some w -> p_path w <> p_path y).
Context (Hw : waiting_list h = c :: l) (Hx : chans h !! c = Some x) (Hpath : c_path x = Some (p_path y)).

Lemma refused_waiting : c_state x = WAITING_FOR_PORT.
Proof.
  destruct (proj1 (i_wait _ _ Hi c)) as (x' & Hx' & Hnx); [rewrite Hw; left|]. simplify_eq.
  pose proof (i_chan _ _ Hi c x Hx) as [_ _ _ [[? _]|[_ C4]]]; [done|]. unfold state_ok in C4. rewrite Hnx in C4.
  destruct (c_state x) eqn:Hs; [done| | | | |done].
  - destruct C4 as (_ & _ & _ & _ & [[? ?]|[? _]]); done.
  - by destruct C4 as (_ & _ & ?).
  - by destruct C4 as (_ & _ & ?).
  - destruct C4 as [?|(? & ? & _)]; done.
Qed.

(** The loop takes the first client off the list. *)
Lemma refused_goes : ipc_port_publish access al p h =
  (let ret_ := access (guest_id (c_handle x)) (p_uuid y) in
   (if negb (ret_ =? 0) then ret tt
    else err <- port_attach_client (al 0%nat) p c ;; if negb (err =? 0) then chan_shutdown_locked c else ret tt) ;;;
   chan_del_ref c TmpRef ;;; publish_loop access al 1 p l ret_) (unwait c x (listed p y h)).
Proof.
  rewrite (publish_goes access al h p y) by done. rewrite Hw. cbn [publish_loop].
  erewrite bind_goes by (apply goes_get_port, lookup_insert_eq).
  erewrite bind_goes by (apply goes_get_chan; exact Hx). rewrite Hpath. erewrite bind_goes by reflexivity.
  simpl p_path. rewrite bool_decide_eq_true_2 by done. simpl negb. cbv iota.
  refine (unwait_goes (listed p y h) c x _ _ Hx refused_waiting). by apply listed_inv.
Qed.

End Refused.

(** Publishing a port stops the machine when the first client that waits
    for it is not one that the flags of the port admit: the client has been
    taken off the list of waiting clients but is still in the state of one,
    and shutting it down fails an assertion. *)
Lemma publish_refused_panics access al h p y c x l : inv quiet h -> ports h !! p = Some y -> p ∉ ipc_port_list h ->
  (forall q w, q ∈ ipc_port_list h -> ports h !! q = Some w -> p_path w <> p_path y) ->
  waiting_list h = c :: l -> chans h !! c = Some x -> c_path x = Some (p_path y) ->
  access (guest_id (c_handle x)) (p_uuid y) = 0 -> check_access y (Some (c_uuid x)) <> NO_ERROR ->
  ipc_port_publish access al p h = Crash Panic.
Proof.
  intros Hi Hy Hp Hn Hw Hx Hpath Ha Hc. rewrite (refused_goes access al h p y c x l) by done.
  set (h1 := unwait c x (listed p y h)). change NO_ERROR with 0 in Hc.
  assert (Hatt : port_attach_client (al 0%nat) p c h1 = Done (check_access y (Some (c_uuid x))) h1).
  { unfold port_attach_client. erewrite bind_goes by (apply goes_get_port, lookup_insert_eq).
    cbn [p_state set_p_handle set_p_state]. rewrite Z.eqb_refl. cbn [negb].
    erewrite bind_goes by (apply goes_get_chan, lookup_insert_eq). cbv zeta.
    repeat match goal with |- context [check_access ?w ?u] =>
      progress change (check_access w u) with (check_access y (Some (c_uuid x))) end.
    change NO_ERROR with 0. by rewrite (proj2 (Z.eqb_neq _ _) Hc). }
  cbv zeta. rewrite Ha. simpl negb. cbv iota. unfold bind at 1. rewrite (bind_goes _ _ _ _ _ Hatt).
  assert (Hs : c_state x = WAITING_FOR_PORT) by (by eapply refused_waiting).
  rewrite (proj2 (Z.eqb_neq _ _) Hc). simpl negb. cbv iota.
  pose proof (shutdown_doomed c (unwaited x) (ret tt) h1 (lookup_insert_eq _ _ _) Hs eq_refl) as H.
  unfold bind in H. cbn [negb]. destruct (chan_shutdown_locked c _); [done|]. congruence.
Qed.

(** When the hypervisor refuses the one client that waits for a port, the
    port is published all the same but the refusal is returned, and the client
    is left in the state of a waiting client without being in the list of
    them: closing its handle stops the machine. *)
Lemma publish_denied_dooms access al h p y c x : inv quiet h -> ports h !! p = Some y -> p ∉ ipc_port_list h ->
  (forall q w, q ∈ ipc_port_list h -> ports h !! q = Some w -> p_path w <> p_path y) ->
  waiting_list h = [c] -> chans h !! c = Some x -> c_path x = Some (p_path y) ->
  access (guest_id (c_handle x)) (p_uuid y) <> 0 ->
  exists h', ipc_port_publish access al p h = Done (access (guest_id (c_handle x)) (p_uuid y)) h' /\
    p ∈ ipc_port_list h' /\ handle_close (HChan c) h' = Crash Panic.
Proof.
  intros Hi Hy Hp Hn Hw Hx Hpath Ha. rewrite (refused_goes access al h p y c x []) by done.
  assert (Hs : c_state x = WAITING_FOR_PORT) by (by eapply refused_waiting).
  cbv zeta. rewrite (proj2 (Z.eqb_neq _ _) Ha). simpl negb. cbv iota. erewrite bind_goes by reflexivity.
  set (h1 := unwait c x (listed p y h)).
  assert (Hin : TmpRef ∈ refs (unwaited x) /\ HandleRef ∈ refs (unwaited x)).
  { assert (G : forall Q : Prop, (inv (Ghost {[c]} {[c]} None) h1 -> TmpRef ∈ refs (unwaited x) -> Q) -> Q).
    { intros Q HQ. pose proof (unwait_run (listed p y h) c x (ret tt) (fun _ _ => Q)
        (listed_inv h p y Hi Hy Hp) Hx Hs ltac:(intros; apply runs_ret; auto)) as R.
      apply runs_done in R as (? & ? & _ & R). exact R. }
    apply G. intros Hi1 Ht. split; [done|].
    apply (r_due _ _ _ _ (i_refs _ _ Hi1 c (unwaited x) (lookup_insert_eq _ _ _))). left. simpl.
    pose proof (i_chan _ _ Hi c x Hx) as [_ _ _ [[? _]|[_ C4]]]; [done|].
    unfold state_ok in C4. rewrite Hs in C4. destruct C4 as (_ & _ & _ & [?|?]); [done|set_solver]. }
  assert (Hne : remove_first TmpRef (refs (unwaited x)) <> []).
  { destruct Hin as [_ Hin]. intros E. assert (E2 : HandleRef ∈ remove_first TmpRef (refs (unwaited x))); [|by rewrite E in E2; set_solver].
    clear -Hin. induction (refs (unwaited x)) as [|r rs IH]; [done|]. simpl. case_decide; set_solver. }
  exists (upd c (set_refs (remove_first TmpRef (refs (unwaited x))) (unwaited x)) h1). split_and!.
  - erewrite bind_goes; [reflexivity|]. rewrite del_ref_eq. unfold h1, unwait. simpl chans. unfold upd at 1. simpl chans.
    rewrite lookup_insert_eq. rewrite bool_decide_eq_true_2 by apply Hin. by rewrite bool_decide_eq_false_2.
  - simpl. apply elem_of_app. right. by left.
  - unfold handle_close. eapply shutdown_doomed; [apply lookup_insert_eq|exact Hs|done].
Qed.

(** Port 7 admits nobody. *)
Definition shut7 : port := Port [98] app 0 0 1 4 handle_init [].
Definition demo_shut : heap := set_port_list [1] (set_ports (<[7 := shut7]> (ports demo)) demo).

Lemma demo_shut_inv : inv quiet demo_shut.
Proof.
  apply (inv_port_upd quiet demo 7 port7 shut7 [1] demo_inv); try done; [apply NoDup_singleton|simpl].
  rewrite list_elem_of_singleton. done.
Qed.

Lemma demo_path7 (h : heap) q w : ipc_port_list h = [1] -> ports h !! 1 = Some port1 -> q ∈ ipc_port_list h ->
  ports h !! q = Some w -> p_path w <> [98].
Proof. intros Hl H1 Hq Hw. rewrite Hl, list_elem_of_singleton in Hq. subst q. rewrite H1 in Hw. by injection Hw as <-. Qed.

Lemma publish_refused_panics_witness : ipc_port_publish allow (fun _ => give) 7 demo_shut = Crash Panic.
Proof.
  apply (publish_refused_panics allow (fun _ => give) demo_shut 7 shut7 6 chan6 [] demo_shut_inv); try done.
  - simpl. rewrite list_elem_of_singleton. lia.
  - intros q w. by apply (demo_path7 demo_shut).
Defined.

Lemma publish_denied_dooms_witness :
  exists h', ipc_port_publish (fun _ _ => -1) (fun _ => give) 7 demo = Done (-1) h' /\
    7 ∈ ipc_port_list h' /\ handle_close (HChan 6) h' = Crash Panic.
Proof.
  apply (publish_denied_dooms (fun _ _ => -1) (fun _ => give) demo 7 port7 6 chan6 demo_inv); try done.
  - simpl. rewrite list_elem_of_singleton. lia.
  - intros q w. by apply (demo_path7 demo).
Defined.

End IpcFaults.
