(* ===== verification/HandleList.v ===== *)
(** * Waiting on handles

    [handle_wait], the handle lists and [handle_list_wait] of
    [lib/trusty/handle.c], over any kind of object that offers the operations
    of [struct handle_ops]. *)

From S2P Require Import Prelude Handle.

Module HandleList.
Import Handle.

(** ** What a handle offers

    [S] is the store of objects, [H] a pointer to a handle.  [finalize_event]
    does nothing where the object has no such operation; [signal] is
    [event_signal]. *)
Class HandleOps (S H : Type) := {
  poll : H -> M S Z;
  finalize_event : H -> Z -> M S unit;
  incref : H -> M S unit;
  decref : H -> M S unit;
  prepare_wait : Z -> H -> M S Z;
  finish_wait : H -> M S unit;
  notify : H -> M S unit;
  signal : Z -> M S unit
}.

(** What a kind of object promises: [ready] is what polling answers,
    [waiter] the event that its waiter sleeps on. *)
Class HandleLaws (S H : Type) `{HandleOps S H, EqDecision H} := {
  live : S -> H -> Prop;
  ready : S -> H -> Z;
  waiter : S -> H -> option Z;
  set_waiter : H -> option Z -> S -> S;
  poll_law s x : live s x -> poll x s = Done (ready s x) s;
  prepare_law s x ev : live s x -> prepare_wait ev x s =
    match waiter s x with Some _ => Done ERR_ALREADY_STARTED s | None => Done 0 (set_waiter x (Some ev) s) end;
  finish_law s x : live s x -> finish_wait x s = Done tt (set_waiter x None s);
  set_waiter_live s x w y : live s x -> live (set_waiter x w s) y <-> live s y;
  set_waiter_ready s x w y : live s x -> ready (set_waiter x w s) y = ready s y;
  set_waiter_waiter s x w y : live s x -> waiter (set_waiter x w s) y = if decide (y = x) then w else waiter s y;
  set_waiter_same s x w : live s x -> waiter s x = w -> set_waiter x w s = s;
  set_waiter_twice s x w w' : set_waiter x w (set_waiter x w' s) = set_waiter x w s;
  set_waiter_comm s x y w w' : x <> y -> set_waiter x w (set_waiter y w' s) = set_waiter y w' (set_waiter x w s);
  use_run s x e : live s x -> exists s', (finalize_event x e ;;; incref x) s = Done tt s' /\
    (forall y, live s' y <-> live s y) /\ (forall y, waiter s' y = waiter s y) /\
    (forall y, y <> x -> ready s' y = ready s y)
}.

Section Lists.
Context {S H : Type} `{HandleOps S H} `{EqDecision H}.

Record handle_list := HList { handles : list H; wait_event : option Z }.

Definition handle_list_init : handle_list := HList [] None.

(** A store together with a list. *)
Notation St := (S * handle_list)%type.

Definition on_obj {A} (m : M S A) : M St A := fun s =>
  match m s.1 with Done a o => Done a (o, s.2) | Crash w => Crash w end.
Definition get_list : M St handle_list := gets snd.
Definition put_list (l : handle_list) : M St unit := modify (fun s => (s.1, l)).

(** [elsewhere]: the handle is in another list. *)
Definition handle_list_add (elsewhere : bool) (x : H) : M St unit :=
  l <- get_list ;;
  assert_ (negb (elsewhere || bool_decide (x ∈ handles l))) ;;;
  on_obj (incref x) ;;;
  put_list (HList (handles l ++ [x]) (wait_event l)) ;;;
  match wait_event l with
  | None => ret tt
  | Some ev =>
      _ <- on_obj (prepare_wait ev x) ;;
      event <- on_obj (poll x) ;;
      if negb (event =? 0) then on_obj (notify x) else ret tt
  end.

Definition handle_list_del (x : H) : M St unit :=
  l <- get_list ;;
  assert_ (bool_decide (x ∈ handles l)) ;;;
  let l' := remove_first x (handles l) in
  put_list (HList l' (wait_event l)) ;;;
  match wait_event l with
  | None => ret tt
  | Some ev =>
      on_obj (finish_wait x) ;;;
      match l' with
      | [] => on_obj (signal ev)
      | _ => ret tt
      end
  end ;;;
  on_obj (decref x).

Fixpoint delete_all_loop (n : nat) : M St unit :=
  match n with
  | O => ret tt
  | Datatypes.S n =>
      l <- get_list ;;
      match handles l with
      | [] => ret tt
      | x :: _ => handle_list_del x ;;; delete_all_loop n
      end
  end.

Definition handle_list_delete_all : M St unit :=
  l <- get_list ;; delete_all_loop (Datatypes.S (length (handles l))).

(** [_hlist_finish_wait_locked]. *)
Fixpoint hlist_finish_wait (last : option H) (l : list H) : M S unit :=
  match l with
  | [] => ret tt
  | x :: l =>
      finish_wait x ;;;
      if bool_decide (last = Some x) then ret tt else hlist_finish_wait last l
  end.

(** The loop of [_hlist_do_poll_locked]: the return code, the handle and its
    event, and the last handle that was prepared. *)
Fixpoint hlist_poll_loop (prepare : bool) (ev : Z) (last : option H) (l : list H) : M S (Z * option (H * Z) * option H) :=
  match l with
  | [] => ret (0, None, last)
  | x :: l =>
      let go (last : option H) :=
        event <- poll x ;;
        if negb (event =? 0) then ret (1, Some (x, event), last) else hlist_poll_loop prepare ev last l in
      if prepare then
        r <- prepare_wait ev x ;;
        if negb (r =? 0) then ret (r, None, last) else go (Some x)
      else go last
  end.

Definition hlist_do_poll (prepare : bool) (ev : Z) (l : list H) : M S (Z * option (H * Z)) :=
  match l with
  | [] => ret (ERR_NOT_FOUND, None)
  | _ =>
      r <- hlist_poll_loop prepare ev None l ;;
      (if negb (r.1.1 =? 0) && prepare && bool_decide (is_Some r.2) then hlist_finish_wait r.2 l else ret tt) ;;;
      ret r.1
  end.

(** The list after its head is moved behind the handle just found. *)
Fixpoint rotate (x : H) (before l : list H) : list H :=
  match l with
  | [] => before
  | y :: l => if decide (y = x) then l ++ before ++ [x] else rotate x (before ++ [y]) l
  end.

(** The loop of [handle_list_wait] once no handle was ready: each entry of
    [waits] is the result of one wait on the event, and what others did to the
    objects and to the list meanwhile.  The answer is [None] while the
    schedule does not end the wait. *)
Fixpoint wait_loop (ev : Z) (waits : list (Z * (St -> St))) : M St (option (Z * option (H * Z))) :=
  match waits with
  | [] => ret None
  | (r, others) :: waits =>
      modify others ;;;
      if r <? 0 then ret (Some (r, None))
      else
        l <- get_list ;;
        p <- on_obj (hlist_do_poll false ev (handles l)) ;;
        if p.1 =? 0 then wait_loop ev waits else ret (Some p)
  end.

(** The result is the return code, with the handle and its event. *)
Definition handle_list_wait (ev : Z) (waits : list (Z * (St -> St))) : M St (option (Z * option (H * Z))) :=
  l <- get_list ;;
  assert_ (bool_decide (wait_event l = None)) ;;;
  put_list (HList (handles l) (Some ev)) ;;;
  p <- on_obj (hlist_do_poll true ev (handles l)) ;;
  o <- (if p.1 <? 0 then ret (Some p)
        else if p.1 =? 0 then
          q <- wait_loop ev waits ;;
          match q with
          | None => ret None
          | Some q => l <- get_list ;; on_obj (hlist_finish_wait None (handles l)) ;;; ret (Some q)
          end
        else ret (Some p)) ;;
  match o with
  | None => ret None
  | Some (r, found) =>
      r <- match found with
           | Some (x, event) =>
               if r =? 1 then
                 on_obj (finalize_event x event ;;; incref x) ;;;
                 l <- get_list ;;
                 put_list (HList (rotate x [] (handles l)) (wait_event l)) ;;;
                 ret NO_ERROR
               else ret r
           | None => ret r
           end ;;
      l <- get_list ;;
      put_list (HList (handles l) None) ;;;
      ret (Some (r, found))
  end.

(** ** Waiting on one handle *)

Fixpoint handle_wait_loop (x : H) (waits : list (Z * (S -> S))) : M S (option (Z * Z)) :=
  event <- poll x ;;
  if negb (event =? 0) then ret (Some (NO_ERROR, event))
  else
    match waits with
    | [] => ret None
    | (r, others) :: waits =>
        modify others ;;;
        if r <? 0 then ret (Some (r, 0)) else handle_wait_loop x waits
    end.

Definition handle_wait (ev : Z) (x : H) (waits : list (Z * (S -> S))) : M S (option (Z * Z)) :=
  r <- prepare_wait ev x ;;
  if negb (r =? 0) then ret (Some (r, 0))
  else
    o <- handle_wait_loop x waits ;;
    match o with
    | None => ret None
    | Some (r, event) =>
        (if r =? NO_ERROR then finalize_event x event else ret tt) ;;;
        finish_wait x ;;;
        ret (Some (r, event))
    end.

End Lists.
Arguments handle_list : clear implicits.

(** ** Polling a list *)

Section Laws.
Context {S H : Type} `{HandleLaws S H}.
Notation St := (S * handle_list H)%type.

Definition set_waiters (l : list H) (w : option Z) (s : S) : S := foldr (fun x s => set_waiter x w s) s l.

Lemma set_waiters_live s l w y : (forall x, x ∈ l -> live s x) -> live (set_waiters l w s) y <-> live s y.
Proof.
  revert y. induction l as [|x l IH]; simpl; intros y Hl; [done|].
  assert (Hl' : forall z, z ∈ l -> live s z) by set_solver.
  rewrite set_waiter_live; [by apply IH|]. apply IH; [done|]. apply Hl. left.
Qed.

Lemma set_waiters_waiter s l w y : (forall x, x ∈ l -> live s x) ->
  waiter (set_waiters l w s) y = if bool_decide (y ∈ l) then w else waiter s y.
Proof.
  induction l as [|x l IH]; simpl; intros Hl; [done|].
  rewrite set_waiter_waiter by (apply set_waiters_live; set_solver). rewrite IH by set_solver. clear IH.
  destruct (decide (y = x)) as [->|Hne]; [by rewrite bool_decide_eq_true_2 by set_solver|].
  rewrite (bool_decide_ext (y ∈ l) (y ∈ x :: l)) by set_solver. done.
Qed.

Lemma set_waiters_ready s l w y : (forall x, x ∈ l -> live s x) -> ready (set_waiters l w s) y = ready s y.
Proof.
  induction l as [|x l IH]; simpl; intros Hl; [done|].
  rewrite set_waiter_ready; [apply IH; set_solver|]. apply set_waiters_live; set_solver.
Qed.

Lemma set_waiters_out s l w x w' : x ∉ l -> set_waiters l w (set_waiter x w' s) = set_waiter x w' (set_waiters l w s).
Proof.
  induction l as [|y l IH]; simpl; intros Hx; [done|]. rewrite IH by set_solver.
  apply set_waiter_comm. set_solver.
Qed.

Lemma set_waiters_app s l l' w : set_waiters (l ++ l') w s = set_waiters l w (set_waiters l' w s).
Proof. unfold set_waiters. by rewrite foldr_app. Qed.

Lemma set_waiters_snoc s l x w : x ∉ l -> set_waiters (l ++ [x]) w s = set_waiter x w (set_waiters l w s).
Proof. intros Hx. rewrite set_waiters_app. simpl. by apply set_waiters_out. Qed.

(** Undoing the preparation restores the store. *)
Lemma set_waiters_undo s l w : NoDup l -> (forall x, x ∈ l -> live s x /\ waiter s x = None) ->
  set_waiters l None (set_waiters l w s) = s.
Proof.
  induction 1 as [|x l Hx Hnd IH]; simpl; intros Hl; [done|].
  rewrite (set_waiters_out _ l None x w) by done. rewrite IH by set_solver.
  rewrite set_waiter_twice. apply set_waiter_same; apply Hl; left.
Qed.

Lemma finish_run s l last rest : NoDup l -> (forall x, x ∈ l -> live s x) ->
  match last with Some x => exists l', l = l' ++ [x] | None => rest = [] end ->
  hlist_finish_wait last (l ++ rest) s = Done tt (set_waiters l None s).
Proof.
  intros Hnd. revert s. induction Hnd as [|x l Hx Hnd IH]; intros s Hl Hlast; simpl.
  { destruct last; [by destruct Hlast as [[] ?]|]. by subst. }
  unfold bind at 1. rewrite finish_law by (apply Hl; left).
  destruct (bool_decide (last = Some x)) eqn:E.
  - apply bool_decide_eq_true in E. subst last. destruct Hlast as [l' Hl'].
    destruct l as [|z l]; [done|]. exfalso. destruct l' as [|y l']; [by inversion Hl'|].
    injection Hl' as -> Hl'. apply Hx. rewrite Hl'. set_solver.
  - apply bool_decide_eq_false in E. rewrite IH.
    + f_equal. by apply set_waiters_out.
    + intros y Hy. apply set_waiter_live; apply Hl; set_solver.
    + destruct last as [y|]; [|done]. destruct Hlast as [l' Hl']. destruct l' as [|z l']; [by injection Hl' as -> _|].
      injection Hl' as -> ->. by exists l'.
Qed.

(** The first handle that is ready, and what stands before and behind it. *)
Fixpoint first_ready (s : S) (l : list H) : option (list H * H * list H) :=
  match l with
  | [] => None
  | x :: l => if negb (ready s x =? 0) then Some ([], x, l)
              else match first_ready s l with Some (a, y, b) => Some (x :: a, y, b) | None => None end
  end.

Lemma first_ready_split s l a x b : first_ready s l = Some (a, x, b) ->
  l = a ++ x :: b /\ ready s x <> 0 /\ forall y, y ∈ a -> ready s y = 0.
Proof.
  revert a. induction l as [|y l IH]; simpl; intros a Ha; [done|].
  destruct (negb (ready s y =? 0)) eqn:E; zbool; [injection Ha as <- -> ->; set_solver|].
  destruct (first_ready s l) as [[[a' x'] b']|]; [|done]. injection Ha as <- -> ->.
  destruct (IH a' eq_refl) as (-> & Hr & Ha'). split_and!; try done. set_solver.
Qed.

Lemma first_ready_None s l : first_ready s l = None -> forall y, y ∈ l -> ready s y = 0.
Proof.
  induction l as [|y l IH]; simpl; [set_solver|].
  destruct (negb (ready s y =? 0)) eqn:E; zbool; [done|].
  destruct (first_ready s l) as [[[a' x'] b']|]; [done|]. set_solver.
Qed.

(** A list that nobody waits on. *)
Definition idle (s : S) (l : list H) : Prop := NoDup l /\ forall x, x ∈ l -> live s x /\ waiter s x = None.

Lemma first_ready_ext s s' l : (forall y, y ∈ l -> ready s' y = ready s y) -> first_ready s' l = first_ready s l.
Proof.
  induction l as [|x l IH]; simpl; intros Hl; [done|]. rewrite Hl by set_solver. by rewrite IH by set_solver.
Qed.

Lemma poll_loop_prepare ev s last l : idle s l ->
  hlist_poll_loop true ev last l s =
    match first_ready s l with
    | Some (a, x, b) => Done (1, Some (x, ready s x), Some x) (set_waiters (a ++ [x]) (Some ev) s)
    | None => Done (0, None, match List.rev l with [] => last | x :: _ => Some x end) (set_waiters l (Some ev) s)
    end.
Proof.
  revert s last. induction l as [|x l IH]; intros s last [Hnd Hl]; [done|]. apply NoDup_cons in Hnd as [Hx Hnd].
  assert (Hlx : live s x) by (apply Hl; left).
  cbn [hlist_poll_loop first_ready]. unfold bind at 1. rewrite prepare_law by done. rewrite (proj2 (Hl x ltac:(left))).
  cbn -[hlist_poll_loop]. unfold bind at 1. rewrite poll_law by (by apply set_waiter_live). rewrite set_waiter_ready by done.
  destruct (negb (ready s x =? 0)); [done|]. rewrite IH.
  - rewrite (first_ready_ext s) by (intros; by apply set_waiter_ready).
    destruct (first_ready s l) as [[[a y] b]|] eqn:E.
    + apply first_ready_split in E as (-> & _). rewrite set_waiter_ready by done. f_equal. simpl.
      apply set_waiters_out. set_solver.
    + f_equal; [|by apply set_waiters_out]. f_equal. destruct (List.rev l) as [|z r] eqn:Er; simpl.
      * by destruct l; [|apply (f_equal length) in Er; rewrite List.length_rev in Er].
      * by destruct (List.rev l).
  - split; [done|]. intros y Hy. rewrite set_waiter_live, set_waiter_waiter by done.
    rewrite decide_False by (by intros ->). apply Hl. by right.
Qed.

Lemma poll_loop_again ev s last l : (forall x, x ∈ l -> live s x) ->
  hlist_poll_loop false ev last l s = Done (match first_ready s l with
    | Some (_, x, _) => (1, Some (x, ready s x), last) | None => (0, None, last) end) s.
Proof.
  induction l as [|x l IH]; simpl; intros Hl; [done|]. unfold bind. rewrite poll_law by (apply Hl; left).
  destruct (negb (ready s x =? 0)); [done|]. rewrite IH by set_solver.
  by destruct (first_ready s l) as [[[a y] b]|].
Qed.

(** Polling with preparation: with a handle ready the store is as before,
    with none ready every handle of the list notifies the event. *)
Lemma do_poll_prepare ev s l : idle s l ->
  hlist_do_poll true ev l s = match l with [] => Done (ERR_NOT_FOUND, None) s | _ =>
    match first_ready s l with
    | Some (_, x, _) => Done (1, Some (x, ready s x)) s
    | None => Done (0, None) (set_waiters l (Some ev) s)
    end end.
Proof.
  intros Hid. unfold hlist_do_poll. destruct l as [|x l]; [done|]. unfold bind at 1.
  rewrite poll_loop_prepare by done. destruct (first_ready s (x :: l)) as [[[a y] b]|] eqn:E; [|done].
  apply first_ready_split in E as (Hs & _). destruct Hid as [Hnd Hl]. rewrite Hs in *.
  unfold bind. rewrite bool_decide_eq_true_2 by eauto. cbn [fst snd Z.eqb negb andb].
  replace (a ++ y :: b) with ((a ++ [y]) ++ b) in * by (by rewrite <- app_assoc).
  apply NoDup_app in Hnd as (Hnd & _ & _).
  rewrite finish_run; [|done| |by eexists].
  - rewrite set_waiters_undo; [done|done|]. intros z Hz. apply Hl. set_solver.
  - intros z Hz. apply set_waiters_live; [|apply Hl]; set_solver.
Qed.

Lemma rotate_split (x : H) before a b : x ∉ a -> rotate x before (a ++ x :: b) = b ++ before ++ a ++ [x].
Proof.
  revert before. induction a as [|y a IH]; intros before Hx; simpl.
  - rewrite decide_True by done. done.
  - rewrite decide_False by set_solver. rewrite IH by set_solver. by rewrite <- !app_assoc.
Qed.

Lemma wait_ready ev waits s l a x b : idle s l -> first_ready s l = Some (a, x, b) ->
  handle_list_wait ev waits (s, HList l None) =
    match (finalize_event x (ready s x) ;;; incref x) s with
    | Done _ s' => Done (Some (NO_ERROR, Some (x, ready s x))) (s', HList (b ++ a ++ [x]) None)
    | Crash w => Crash w
    end.
Proof.
  intros Hid Hf. pose proof (first_ready_split _ _ _ _ _ Hf) as (Hs & _).
  assert (Hp : hlist_do_poll true ev l s = Done (1, Some (x, ready s x)) s).
  { rewrite do_poll_prepare, Hf by done. rewrite Hs. by destruct a. }
  unfold handle_list_wait. unfold bind at 1, get_list, gets. simpl snd. unfold bind at 1. simpl.
  unfold bind at 1, put_list, modify. simpl. unfold bind at 1, on_obj at 1. simpl fst. rewrite Hp.
  unfold bind at 1. cbn -[rotate]. unfold bind at 1. cbn -[rotate]. unfold bind at 1, on_obj. simpl fst.
  destruct ((finalize_event x (ready s x) ;;; incref x) s) as [[] s'|w]; [|done].
  cbn -[rotate]. unfold bind, ret. cbn -[rotate]. do 2 f_equal. f_equal. rewrite Hs, rotate_split; [done|].
  destruct Hid as [Hnd _]. rewrite Hs in Hnd. apply NoDup_app in Hnd as (_ & Hnd & _). set_solver.
Qed.

(** Waiting on a list in which a handle is ready answers at once with the
    first such handle and its event, takes one reference on it, leaves the
    waiters of all handles as they were, and moves the handle and everything
    before it to the end of the list.  With none ready and a timeout, the
    objects and the list are as before; an empty list is [ERR_NOT_FOUND]. *)
Lemma handle_list_wait_spec ev r s l : idle s l -> r < 0 ->
  match l, first_ready s l with
  | [], _ => handle_list_wait ev [(r, fun x => x)] (s, HList l None) = Done (Some (ERR_NOT_FOUND, None)) (s, HList [] None)
  | _, Some (a, x, b) => exists s', (finalize_event x (ready s x) ;;; incref x) s = Done tt s' /\
      handle_list_wait ev [(r, fun x => x)] (s, HList l None) =
        Done (Some (NO_ERROR, Some (x, ready s x))) (s', HList (b ++ a ++ [x]) None)
  | _, None => handle_list_wait ev [(r, fun x => x)] (s, HList l None) = Done (Some (r, None)) (s, HList l None)
  end.
Proof.
  intros Hid Hr. destruct l as [|y l0] eqn:El; [done|]. rewrite <- El in *.
  destruct (first_ready s l) as [[[a x] b]|] eqn:Hf.
  - destruct (first_ready_split _ _ _ _ _ Hf) as (Hs & _).
    assert (Hx : x ∈ l) by (rewrite Hs; set_solver).
    destruct (use_run s x (ready s x)) as (s' & Hu & _); [by apply Hid|]. exists s'. split; [done|].
    by rewrite (wait_ready ev _ s l a x b), Hu.
  - assert (Hp : hlist_do_poll true ev l s = Done (0, None) (set_waiters l (Some ev) s)).
    { rewrite do_poll_prepare, Hf by done. by rewrite El. }
    unfold handle_list_wait. unfold bind at 1, get_list, gets. simpl snd. unfold bind at 1. simpl.
    unfold bind at 1, put_list, modify. simpl. unfold bind at 1, on_obj at 1. simpl fst. rewrite Hp.
    unfold bind at 1. cbn -[hlist_finish_wait]. unfold bind at 1 2, wait_loop, bind at 1, modify. cbn -[hlist_finish_wait].
    rewrite (proj2 (Z.ltb_lt r 0) Hr). cbn -[hlist_finish_wait]. unfold bind at 1, get_list, gets. cbn -[hlist_finish_wait].
    unfold bind at 1, on_obj. simpl fst. destruct Hid as [Hnd Hl].
    pose proof (finish_run (set_waiters l (Some ev) s) l None [] Hnd) as Hfin. rewrite app_nil_r in Hfin.
    rewrite Hfin; [|intros z Hz; apply set_waiters_live; [|apply Hl]; set_solver|done].
    rewrite set_waiters_undo by done. done.
Qed.

(** *** Every ready handle is served *)

Fixpoint wait_times (ev : Z) (n : nat) : M St (list (option (Z * option (H * Z)))) :=
  match n with
  | O => ret []
  | Datatypes.S n => r <- handle_list_wait ev [] ;; rs <- wait_times ev n ;; ret (r :: rs)
  end.

(** C29: waiting is fair.  A handle that is ready and stays so is returned
    after at most as many waits as handles stand before it in the list,
    however often the other handles are ready. *)
Theorem handle_list_wait_fair ev s l k x : idle s l -> l !! k = Some x -> ready s x <> 0 ->
  exists n rs st, (n <= k)%nat /\ wait_times ev (Datatypes.S n) (s, HList l None) = Done rs st /\
    list.last rs = Some (Some (NO_ERROR, Some (x, ready s x))).
Proof.
  revert s l. induction k as [k IH] using (well_founded_induction lt_wf). intros s l Hid Hk Hr.
  destruct (first_ready s l) as [[[a y] b]|] eqn:Hf.
  2: { destruct Hr. eapply first_ready_None; [done|]. by eapply list_elem_of_lookup_2. }
  pose proof (first_ready_split _ _ _ _ _ Hf) as (Hs & Hry & Ha). pose proof Hid as [Hnd Hl].
  destruct (use_run s y (ready s y)) as (s' & Hu & Hlive & Hwait & Hready); [apply Hl; set_solver|].
  pose proof (wait_ready ev [] s l a y b Hid Hf) as Hw. rewrite Hu in Hw.
  destruct (decide (x = y)) as [->|Hne].
  { exists 0%nat, [Some (NO_ERROR, Some (y, ready s y))]. eexists. split; [lia|]. split; [|done].
    cbn [wait_times]. unfold bind. rewrite Hw. done. }
  rewrite Hs in Hk, Hnd. assert (Hka : (length a < k)%nat).
  { apply lookup_app_Some in Hk as [Hk|[Hk1 Hk2]].
    - apply list_elem_of_lookup_2 in Hk. by apply Ha in Hk.
    - destruct (k - length a)%nat eqn:E; [|lia]. simpl in Hk2. congruence. }
  rewrite lookup_app_r in Hk by lia. destruct (k - length a)%nat as [|k'] eqn:E; [lia|]. simpl in Hk.
  destruct (IH k' ltac:(lia) s' (b ++ a ++ [y])) as (n & rs & st & Hn & Hrun & Hlast).
  - split.
    + revert Hnd. apply NoDup_Permutation_proper. by rewrite (Permutation_app_comm b), <- app_assoc.
    + intros z Hz. rewrite Hlive, Hwait. apply Hl. rewrite Hs. set_solver.
  - by apply lookup_app_l_Some.
  - by rewrite Hready.
  - rewrite Hready in Hlast by done.
    exists (Datatypes.S n), (Some (NO_ERROR, Some (y, ready s y)) :: rs), st. split; [lia|]. split.
    + cbn [wait_times] in *. unfold bind at 1. rewrite Hw. unfold bind at 1. by rewrite Hrun.
    + destruct rs as [|r rs]; [done|]. exact Hlast.
Qed.

End Laws.

End HandleList.
