(* ===== verification/IpcHandle.v ===== *)
(** * Ports and channels as handles

    The [handle_ops] of ports and channels ([ipc.c]) with the operations that
    [handle.c] has on every handle, and the proof that they keep the promises
    of [HandleList]. *)

From S2P Require Import Prelude Iovec MsgQueue Handle Ipc IpcInv HandleList.

Module IpcHandle.
Import Iovec MsgQueue Handle Ipc IpcInv HandleList.

#[export] Instance hptr_eq_dec : EqDecision hptr.
Proof. solve_decision. Defined.

(** The handle inside an object. *)
Definition handle_of (h : heap) (x : hptr) : option handle :=
  match x with
  | HPort p => p_handle <$> ports h !! p
  | HChan c => c_handle <$> chans h !! c
  end.

Definition upd_handle (x : hptr) (f : handle -> handle) : M heap unit :=
  match x with
  | HPort p => upd_port p (fun y => set_p_handle (f (p_handle y)) y)
  | HChan c => upd_chan c (fun y => set_handle (f (c_handle y)) y)
  end.

Definition get_handle (x : hptr) : M heap handle := h <- get ;; deref (handle_of h x).

(** [ipc_port_handle_ops] and [ipc_chan_handle_ops]. *)
Definition handle_poll (x : hptr) : M heap Z :=
  match x with HPort p => port_poll p | HChan c => chan_poll c end.

Definition handle_finalize (x : hptr) (event : Z) : M heap unit :=
  match x with HPort _ => ret tt | HChan c => chan_finalize_event c event end.

#[export] Instance ipc_handle_ops : HandleOps heap hptr := {
  poll := handle_poll;
  finalize_event := handle_finalize;
  incref x := upd_handle x handle_incref;
  decref := handle_decref;
  prepare_wait ev x := y <- get_handle x ;; let r := prepare_wait_handle ev y in upd_handle x (fun _ => r.2) ;;; ret r.1;
  finish_wait x := upd_handle x finish_wait_handle;
  notify x := match x with HPort p => notify_port p | HChan c => notify_chan c end;
  signal ev := modify (add_signal (Some ev))
}.

(** ** The promises *)

(** A store in which the handle of one object is replaced. *)
Definition put_handle (x : hptr) (y : handle) (h : heap) : heap :=
  match x with
  | HPort p => match ports h !! p with Some z => set_ports (<[p := set_p_handle y z]> (ports h)) h | None => h end
  | HChan c => match chans h !! c with Some z => set_chans (<[c := set_handle y z]> (chans h)) h | None => h end
  end.

Definition event_of (h : heap) (x : hptr) : option Z := y ← handle_of h x; Handle.wait_event y.
Definition put_event (x : hptr) (w : option Z) (h : heap) : heap :=
  match handle_of h x with Some y => put_handle x (set_wait w y) h | None => h end.

(** What polling answers, as a function of the object. *)
Definition port_ready (y : port) : Z :=
  if negb (p_state y =? IPC_PORT_STATE_LISTENING) then IPC_HANDLE_POLL_ERROR
  else match pending_list y with [] => 0 | _ => IPC_HANDLE_POLL_READY end.

Definition chan_ready (x : chan) : Z :=
  match c_state x with
  | INVALID => IPC_HANDLE_POLL_ERROR
  | st =>
      let e := if decide (st = DISCONNECTING) then IPC_HANDLE_POLL_HUP else 0 in
      let e := if has_flag (aux_state x) AUX_CONNECTED then Z.lor e IPC_HANDLE_POLL_READY else e in
      let e := match msg_queue x with
               | Some mq => if negb (ipc_msg_queue_is_empty mq) then Z.lor e IPC_HANDLE_POLL_MSG else e
               | None => e
               end in
      if has_flag (aux_state x) AUX_SEND_UNBLOCKED then Z.lor e IPC_HANDLE_POLL_SEND_UNBLOCKED else e
  end.

Definition ready_of (h : heap) (x : hptr) : Z :=
  match x with
  | HPort p => default 0 (port_ready <$> ports h !! p)
  | HChan c => default 0 (chan_ready <$> chans h !! c)
  end.

Lemma upd_handle_run x f h y : handle_of h x = Some y -> upd_handle x f h = Done tt (put_handle x (f y) h).
Proof.
  destruct x as [p|c]; simpl; intros Hy.
  - destruct (ports h !! p) as [z|] eqn:E; [|done]. injection Hy as <-.
    unfold upd_port, get_port, bind, get. by rewrite E.
  - destruct (chans h !! c) as [z|] eqn:E; [|done]. injection Hy as <-.
    unfold upd_chan, get_chan, bind, get. by rewrite E.
Qed.

Lemma handle_of_put x y h z : is_Some (handle_of h x) ->
  handle_of (put_handle x y h) z = if decide (z = x) then Some y else handle_of h z.
Proof.
  intros [w Hw]. destruct x as [p|c]; simpl in *.
  - destruct (ports h !! p) as [v|] eqn:E; [|done]. destruct z as [q|d]; [|by rewrite decide_False by done]. simpl handle_of.
    destruct (decide (q = p)) as [->|Hne]; [by rewrite lookup_insert_eq, decide_True|].
    rewrite lookup_insert_ne by done. by rewrite decide_False by congruence.
  - destruct (chans h !! c) as [v|] eqn:E; [|done]. destruct z as [q|d]; [by rewrite decide_False by done|]. simpl handle_of.
    destruct (decide (d = c)) as [->|Hne]; [by rewrite lookup_insert_eq, decide_True|].
    rewrite lookup_insert_ne by done. by rewrite decide_False by congruence.
Qed.

Lemma ready_of_put x y h z : ready_of (put_handle x y h) z = ready_of h z.
Proof.
  destruct x as [p|c]; simpl.
  - destruct (ports h !! p) as [v|] eqn:E; [|done]. destruct z as [q|d]; simpl; [|done].
    destruct (decide (q = p)) as [->|Hne]; [by rewrite lookup_insert_eq, E|by rewrite lookup_insert_ne].
  - destruct (chans h !! c) as [v|] eqn:E; [|done]. destruct z as [q|d]; simpl; [done|].
    destruct (decide (d = c)) as [->|Hne]; [by rewrite lookup_insert_eq, E|by rewrite lookup_insert_ne].
Qed.

Lemma put_handle_same x y h : handle_of h x = Some y -> put_handle x y h = h.
Proof.
  destruct x as [p|c]; simpl; intros Hy.
  - destruct (ports h !! p) as [z|] eqn:E; [|done]. injection Hy as <-. rewrite insert_id; [by destruct h|].
    rewrite E. by destruct z.
  - destruct (chans h !! c) as [z|] eqn:E; [|done]. injection Hy as <-. rewrite insert_id; [by destruct h|].
    rewrite E. by destruct z.
Qed.

Lemma put_handle_twice x y y' h : put_handle x y (put_handle x y' h) = put_handle x y h.
Proof.
  destruct x as [p|c]; simpl.
  - destruct (ports h !! p) as [z|] eqn:E; simpl; [|by rewrite E]. rewrite lookup_insert_eq.
    unfold set_ports. simpl. by rewrite insert_insert_eq.
  - destruct (chans h !! c) as [z|] eqn:E; simpl; [|by rewrite E]. rewrite lookup_insert_eq.
    unfold set_chans. simpl. by rewrite insert_insert_eq.
Qed.

Lemma put_handle_comm x y v w h : x <> y -> put_handle x v (put_handle y w h) = put_handle y w (put_handle x v h).
Proof.
  intros Hne. destruct x as [p|c], y as [q|d]; simpl.
  - assert (p <> q) by congruence.
    destruct (ports h !! q) eqn:Eq, (ports h !! p) eqn:Ep; simpl; rewrite ?lookup_insert_ne, ?Ep, ?Eq by done; try done.
    unfold set_ports. simpl. by rewrite insert_insert_ne.
  - destruct (ports h !! p) eqn:Ep, (chans h !! d) eqn:Eq; simpl; rewrite ?Ep, ?Eq; done.
  - destruct (ports h !! q) eqn:Ep, (chans h !! c) eqn:Eq; simpl; rewrite ?Ep, ?Eq; done.
  - assert (c <> d) by congruence.
    destruct (chans h !! d) eqn:Eq, (chans h !! c) eqn:Ep; simpl; rewrite ?lookup_insert_ne, ?Ep, ?Eq by done; try done.
    unfold set_chans. simpl. by rewrite insert_insert_ne.
Qed.

(** Consuming the events of a channel touches its flags only. *)
Lemma finalize_run x e h : is_Some (handle_of h x) -> exists h', handle_finalize x e h = Done tt h' /\
  (forall z, handle_of h' z = handle_of h z) /\ (forall z, z <> x -> ready_of h' z = ready_of h z).
Proof.
  intros [y Hy]. destruct x as [p|c]; simpl in *; [by exists h|].
  destruct (chans h !! c) as [z|] eqn:E; [|done].
  assert (Hstep : forall a h1, (exists v, h1 = set_chans (<[c := v]> (chans h)) h /\ c_handle v = c_handle z) \/ h1 = h ->
    exists h2, upd_chan c (fun x => set_aux (a x) x) h1 = Done tt h2 /\
      exists v, h2 = set_chans (<[c := v]> (chans h)) h /\ c_handle v = c_handle z).
  { intros a h1 [(v & -> & Hv)| ->]; unfold upd_chan, get_chan, bind, get; simpl.
    - rewrite lookup_insert_eq. exists (set_chans (<[c := set_aux (a v) v]> (chans h)) h).
      split; [|by exists (set_aux (a v) v)]. unfold put_chan, modify, set_chans. simpl. by rewrite insert_insert_eq.
    - rewrite E. exists (set_chans (<[c := set_aux (a z) z]> (chans h)) h). split; [done|]. by exists (set_aux (a z) z). }
  assert (Hend : exists h', chan_finalize_event c e h = Done tt h' /\
    ((exists v, h' = set_chans (<[c := v]> (chans h)) h /\ c_handle v = c_handle z) \/ h' = h)).
  { unfold chan_finalize_event. destruct (has_flag e _); [|eauto]. unfold bind.
    destruct (has_flag e IPC_HANDLE_POLL_SEND_UNBLOCKED).
    - destruct (Hstep (fun x => Z.land (aux_state x) (u32 (Z.lnot AUX_SEND_UNBLOCKED))) h (or_intror eq_refl))
        as (h1 & -> & Hh1).
      destruct (has_flag e IPC_HANDLE_POLL_READY); [|eauto].
      destruct (Hstep (fun x => Z.land (aux_state x) (u32 (Z.lnot AUX_CONNECTED))) h1 (or_introl Hh1))
        as (h2 & -> & Hh2). eauto.
    - unfold ret at 1. destruct (has_flag e IPC_HANDLE_POLL_READY); [|eauto].
      destruct (Hstep (fun x => Z.land (aux_state x) (u32 (Z.lnot AUX_CONNECTED))) h (or_intror eq_refl))
        as (h2 & -> & Hh2). eauto. }
  destruct Hend as (h' & Hrun & Hh'). exists h'. split; [done|].
  destruct Hh' as [(v & -> & Hv)| ->]; [|done]. split.
  - intros [q|d]; simpl; [done|]. destruct (decide (d = c)) as [->|]; [by rewrite lookup_insert_eq, E; simpl; rewrite Hv|].
    by rewrite lookup_insert_ne.
  - intros [q|d] Hne; simpl; [done|]. rewrite lookup_insert_ne by congruence. done.
Qed.

#[export] Instance ipc_handle_laws : HandleLaws heap hptr.
Proof.
  refine {| live h x := is_Some (handle_of h x); ready := ready_of; waiter := event_of; set_waiter := put_event |}.
  - intros h [p|c] [y Hy]; simpl in *; unfold port_poll, chan_poll, get_port, get_chan, bind, get.
    + destruct (ports h !! p) as [z|]; [|done]. simpl. unfold port_ready. destruct (negb _); [done|].
      by destruct (pending_list z).
    + destruct (chans h !! c) as [z|]; [|done]. simpl. unfold chan_ready. by destruct (c_state z).
  - intros h x ev [y Hy]. cbn [prepare_wait ipc_handle_ops]. unfold event_of, put_event, get_handle.
    unfold bind at 1, bind at 1, get. rewrite Hy. simpl. unfold bind. rewrite (upd_handle_run x _ h y Hy).
    unfold prepare_wait_handle. destruct (Handle.wait_event y) eqn:E; [|done]. simpl. by rewrite put_handle_same.
  - intros h x [y Hy]. cbn [finish_wait ipc_handle_ops]. rewrite (upd_handle_run x _ h y Hy). unfold put_event.
    by rewrite Hy.
  - intros h x w z [y Hy]. unfold put_event. rewrite Hy, handle_of_put by eauto. destruct (decide (z = x)) as [->|]; [|done].
    rewrite Hy. split; eauto.
  - intros h x w z [y Hy]. unfold put_event. rewrite Hy. apply ready_of_put.
  - intros h x w z [y Hy]. unfold put_event, event_of. rewrite Hy, handle_of_put by eauto. by destruct (decide (z = x)).
  - intros h x w [y Hy] Hw. unfold put_event, event_of in *. rewrite Hy in *. simpl in Hw. apply put_handle_same.
    rewrite Hy. destruct y. simpl in *. by subst.
  - intros h x w w'. unfold put_event. destruct (handle_of h x) as [y|] eqn:Hy; [|by rewrite Hy].
    rewrite handle_of_put, decide_True by eauto. by rewrite put_handle_twice.
  - intros h x y w w' Hne. unfold put_event.
    destruct (handle_of h x) as [v|] eqn:Hx, (handle_of h y) as [u|] eqn:Hy; rewrite ?Hx, ?Hy; try done.
    + rewrite !handle_of_put, !decide_False, Hx, Hy by eauto. by apply put_handle_comm.
    + rewrite handle_of_put, decide_False, Hy by eauto. done.
    + rewrite handle_of_put, decide_False, Hx by eauto. done.
  - intros h x e Hx. destruct (finalize_run x e h Hx) as (h1 & Hrun & Hh & Hr). destruct Hx as [y Hy].
    exists (put_handle x (handle_incref y) h1). cbn [finalize_event incref ipc_handle_ops]. unfold bind. rewrite Hrun.
    assert (Hy1 : handle_of h1 x = Some y) by (by rewrite Hh). rewrite (upd_handle_run x _ h1 y Hy1). split; [done|].
    split_and!.
    + intros z. rewrite handle_of_put by eauto. rewrite Hh. destruct (decide (z = x)) as [->|]; [|done]. rewrite Hy. split; eauto.
    + intros z. unfold event_of. rewrite handle_of_put by eauto. rewrite Hh. destruct (decide (z = x)) as [->|]; [|done].
      by rewrite Hy.
    + intros z Hz. rewrite ready_of_put. by apply Hr.
Defined.

End IpcHandle.
