(* ===== verification/IpcTouch.v ===== *)
(** * Operations on the handle of one channel

    Counting, waiting, cookies and handle lists touch the handle of a channel
    and the signalled events, and nothing else of the object graph. *)

From S2P Require Import Prelude Iovec MsgQueue Handle Ipc IpcInv IpcKeep HandleList IpcHandle.

Module IpcTouch.
Import Iovec MsgQueue Handle Ipc IpcInv IpcKeep HandleList IpcHandle.

(** [h'] is [h] with the handle [y] in channel [c], and perhaps more events
    signalled. *)
Record touched (c : Z) (y : handle) (h h' : heap) : Prop := {
  to_chans : exists x, chans h !! c = Some x /\ chans h' = <[c := set_handle y x]> (chans h);
  to_ports : ports h' = ports h;
  to_wait : waiting_list h' = waiting_list h;
  to_list : ipc_port_list h' = ipc_port_list h;
  to_next : next_obj h' = next_obj h;
  to_user : user h' = user h
}.

Lemma touched_trans c y z h1 h2 h3 : touched c y h1 h2 -> touched c z h2 h3 -> touched c z h1 h3.
Proof.
  intros [(x & Hx & E) ? ? ? ? ?] [(x' & Hx' & E') ? ? ? ? ?]. split; try congruence.
  exists x. split; [done|]. rewrite E', E. rewrite E, lookup_insert_eq in Hx'. injection Hx' as <-.
  by rewrite insert_insert_eq.
Qed.

Lemma touched_at c y h h' : touched c y h h' -> exists x, chans h !! c = Some x /\ chans h' !! c = Some (set_handle y x).
Proof. intros [(x & Hx & E) _ _ _ _ _]. exists x. split; [done|]. rewrite E. apply lookup_insert_eq. Qed.

Lemma touched_ne c y h h' d : touched c y h h' -> d <> c -> chans h' !! d = chans h !! d.
Proof. intros [(x & Hx & E) _ _ _ _ _] Hd. by rewrite E, lookup_insert_ne. Qed.

Lemma handle_inv h c x y : inv quiet h -> chans h !! c = Some x -> 0 < refcnt (c_handle x) -> 0 < refcnt y ->
  inv quiet (upd c (set_handle y x) h).
Proof.
  intros Hi Hx Hp Hy. destruct (i_refs _ _ Hi c x Hx) as [H1 H2 H3 H4]. destruct (i_chan _ _ Hi c x Hx) as [G1 G2 G3 G4].
  eapply inv_local; eauto; [by apply same_view_ok|done| |].
  - split; simpl; auto; intros r; [rewrite H3|]; destruct r; simpl in *; naive_solver lia.
  - split; simpl; auto; [lia|]. destruct G4 as [?|[? G4]]; [by left|right]. split; [done|].
    unfold state_ok in *. simpl. destruct (c_state x); naive_solver lia.
Qed.

Lemma touched_inv c y h h' x : inv quiet h -> touched c y h h' -> chans h !! c = Some x ->
  0 < refcnt (c_handle x) -> 0 < refcnt y -> inv quiet h'.
Proof.
  intros Hi [(x' & Hx & E) ? ? ? ? ?] Hx' Hp Hy. assert (x' = x) by congruence. subst x'.
  apply (inv_same_graph _ (upd c (set_handle y x) h)); simpl; auto. by apply handle_inv.
Qed.

Lemma touched_kept c y h h' : touched c y h h' -> others_kept c h h'.
Proof. intros Ht d x Hd Hx _. exists x. by rewrite (touched_ne c y h h'). Qed.

(** ** The operations *)

Lemma upd_handle_touch c f h x : chans h !! c = Some x ->
  runs (upd_handle (HChan c) f) h (fun _ h' => touched c (f (c_handle x)) h h').
Proof.
  intros Hx. unfold upd_handle. eapply runs_upd_chan; [exact Hx|]. split; try done. exists x. done.
Qed.

Lemma signal_touch c e h x : chans h !! c = Some x -> touched c (c_handle x) h (add_signal e h).
Proof.
  intros Hx. assert (Hs : set_handle (c_handle x) x = x) by by destruct x.
  split; try by destruct e. exists x. split; [done|]. rewrite Hs, insert_id by done. by destruct e.
Qed.

Lemma notify_touch c h x : chans h !! c = Some x ->
  runs (notify_chan c) h (fun _ h' => touched c (c_handle x) h h').
Proof.
  intros Hx. unfold notify_chan. apply runs_bind. eapply runs_get_chan; [exact Hx|]. by apply signal_touch.
Qed.

Lemma decref_touch c h x : chans h !! c = Some x -> 1 < refcnt (c_handle x) ->
  runs (handle_decref (HChan c)) h (fun _ h' => touched c (handle_decref_cnt (c_handle x)).1 h h').
Proof.
  intros Hx Hr. simpl. unfold chan_decref. apply runs_bind. eapply runs_get_chan; [exact Hx|]. cbv zeta.
  apply runs_bind. unfold runs at 1, put_chan, modify. cbn [handle_decref_cnt snd].
  rewrite (proj2 (Z.eqb_neq _ 1)) by lia. apply runs_ret. split; try done. exists x. done.
Qed.

Lemma get_handle_run c h x : chans h !! c = Some x -> get_handle (HChan c) h = Done (c_handle x) h.
Proof. intros Hx. unfold get_handle, bind, get. simpl. by rewrite Hx. Qed.

Lemma prepare_touch ev c h x : chans h !! c = Some x ->
  runs (prepare_wait ev (HChan c)) h (fun _ h' => exists w, touched c (set_wait w (c_handle x)) h h').
Proof.
  intros Hx. cbn [prepare_wait ipc_handle_ops]. apply runs_bind. unfold runs at 1. rewrite (get_handle_run c h x Hx).
  cbv zeta. apply runs_bind. eapply runs_mono; [by apply upd_handle_touch|]. intros [] h' Ht. apply runs_ret.
  unfold prepare_wait_handle in Ht. destruct (Handle.wait_event (c_handle x)) eqn:E; simpl in Ht.
  - exists (Handle.wait_event (c_handle x)). assert (Hs : forall y, set_wait (Handle.wait_event y) y = y) by (by intros []). by rewrite Hs.
  - by exists (Some ev).
Qed.

Lemma chan_poll_touch c h x : chans h !! c = Some x -> exists e, chan_poll c h = Done e h.
Proof.
  intros Hx. unfold chan_poll, get_chan, bind, get. rewrite Hx. simpl. destruct (c_state x); by eexists.
Qed.

(** ** In a world that has the heap as a part *)
Section Lift.
Context {S : Type} `{HandleOps S hptr} (get_heap : S -> heap) (put_heap : heap -> S -> S).
Context (lift : forall A, M heap A -> M S A).
Context (Hlift : forall A (m : M heap A) s Q, runs m (get_heap s) (fun a h => Q a (put_heap h s)) -> runs (lift A m) s Q).
Context (Hget : forall h s, get_heap (put_heap h s) = h) (Hput : forall h h' s, put_heap h (put_heap h' s) = put_heap h s).
Context (Hinc : forall x, incref x = lift unit (incref x)) (Hdec : forall x, decref x = lift unit (decref x)).
Context (Hprep : forall e x, prepare_wait e x = lift Z (prepare_wait e x)) (Hfin : forall x, finish_wait x = lift unit (finish_wait x)).
Context (Hpoll : forall x, poll x = lift Z (poll x)) (Hnot : forall x, notify x = lift unit (notify x)).
Context (Hsig : forall e, signal e = lift unit (signal e)).
Context (c : Z).

Definition at_handle (x : chan) (k : handle -> Prop) (s0 : S) (s : S) : Prop :=
  exists h y, s = put_heap h s0 /\ touched c y (get_heap s0) h /\ k y.

Lemma at_step {A} (m : M heap A) x (k k' : handle -> Prop) s0 s (Q : A -> S -> Prop) :
  chans (get_heap s0) !! c = Some x -> at_handle x k s0 s ->
  (forall h z, chans h !! c = Some z -> k (c_handle z) -> runs m h (fun _ h' => exists y, touched c y h h' /\ k' y)) ->
  (forall a s', at_handle x k' s0 s' -> Q a s') -> runs (lift A m) s Q.
Proof.
  intros Hx (h & y & -> & Ht & Hk) Hm HQ. destruct (touched_at _ _ _ _ Ht) as (x' & Hx' & Hc).
  apply Hlift. rewrite Hget. eapply runs_mono; [eapply (Hm h _ Hc); simpl; exact Hk|].
  intros a h' (z & Hz & Hk'). rewrite Hput. apply HQ. exists h', z. split; [done|]. split; [by eapply touched_trans|done].
Qed.

Lemma at_start x k s : chans (get_heap s) !! c = Some x -> k (c_handle x) -> put_heap (get_heap s) s = s -> at_handle x k s s.
Proof.
  intros Hx Hk Hs. exists (get_heap s), (c_handle x). split; [done|]. split; [|done].
  apply (signal_touch c None _ x Hx).
Qed.

(** Joining a list: one more reference; the cookie stays. *)
Lemma list_add_run x s l Q : chans (get_heap s) !! c = Some x -> put_heap (get_heap s) s = s -> HChan c ∉ handles l ->
  (forall s', at_handle x (fun y => refcnt y = refcnt (c_handle x) + 1 /\ cookie y = cookie (c_handle x) /\
       guest_id y = guest_id (c_handle x)) s s' ->
     Q tt (s', HList (handles l ++ [HChan c]) (wait_event l))) ->
  runs (handle_list_add (S := S) false (HChan c)) (s, l) Q.
Proof.
  intros Hx Hs Hn HQ. unfold handle_list_add. apply runs_bind. unfold get_list, gets, runs at 1. cbn [snd].
  apply runs_bind, runs_assert; [rewrite orb_false_l, bool_decide_false by done; done|].
  set (k := fun y => refcnt y = refcnt (c_handle x) + 1 /\ cookie y = cookie (c_handle x) /\ guest_id y = guest_id (c_handle x)) in *.
  assert (Hon : forall A (m : M S A) (s1 : S) (l1 : handle_list hptr) (R : A -> S * handle_list hptr -> Prop),
     runs m s1 (fun a s2 => R a (s2, l1)) -> runs (on_obj m) (s1, l1) R).
  { intros A m s1 l1 R. unfold runs, on_obj. simpl. by destruct (m s1). }
  apply runs_bind, Hon. rewrite Hinc. eapply (at_step _ x (eq (c_handle x)) k s s); [exact Hx|by apply at_start|..].
  { intros h z Hz Hk. cbn [incref ipc_handle_ops]. eapply runs_mono; [by apply upd_handle_touch|]. 
    intros [] h' Ht. eexists. split; [exact Ht|]. rewrite <- Hk. by unfold k. }
  intros _ s1 H1. apply runs_bind. unfold put_list, modify, runs at 1. cbn [fst].
  destruct (wait_event l) as [ev|]; [|by apply runs_ret, HQ].
  apply runs_bind, Hon. rewrite Hprep. eapply (at_step _ x k k s s1); [exact Hx|exact H1|..].
  { intros h z Hz Hk. eapply runs_mono; [by apply prepare_touch|]. intros _ h' [w Ht]. eexists. split; [exact Ht|exact Hk]. }
  intros _ s2 H2. apply runs_bind, Hon. rewrite Hpoll. eapply (at_step _ x k k s s2); [exact Hx|exact H2|..].
  { intros h z Hz Hk. cbn [poll ipc_handle_ops handle_poll]. destruct (chan_poll_touch c h z Hz) as [e He].
    unfold runs. rewrite He. exists (c_handle z). split; [|done]. apply (signal_touch c None _ z Hz). }
  intros e s3 H3. destruct (negb _); [|by apply runs_ret, HQ].
  apply Hon. rewrite Hnot. eapply (at_step _ x k k s s3); [exact Hx|exact H3|..].
  { intros h z Hz Hk. eapply runs_mono; [by apply notify_touch|]. intros [] h' Ht. eauto. }
  intros [] s4 H4. by apply HQ.
Qed.

(** Leaving a list. *)
Lemma list_del_run x s l Q : chans (get_heap s) !! c = Some x -> put_heap (get_heap s) s = s -> HChan c ∈ handles l ->
  1 < refcnt (c_handle x) ->
  (forall s', at_handle x (fun y => refcnt y = refcnt (c_handle x) - 1) s s' ->
     Q tt (s', HList (remove_first (HChan c) (handles l)) (wait_event l))) ->
  runs (handle_list_del (S := S) (HChan c)) (s, l) Q.
Proof.
  intros Hx Hs Hin Hr HQ. unfold handle_list_del. apply runs_bind. unfold get_list, gets, runs at 1. cbn [snd].
  apply runs_bind, runs_assert; [by rewrite bool_decide_true|]. cbv zeta. apply runs_bind.
  unfold put_list, modify, runs at 1. cbn [fst]. set (l' := HList _ _).
  assert (Hon : forall A (m : M S A) (s1 : S) (R : A -> S * handle_list hptr -> Prop),
     runs m s1 (fun a s2 => R a (s2, l')) -> runs (on_obj m) (s1, l') R).
  { intros A m s1 R. unfold runs, on_obj. simpl. by destruct (m s1). }
  set (k := fun y => refcnt y = refcnt (c_handle x)).
  assert (Hend : forall s1, at_handle x k s s1 -> runs (on_obj (decref (HChan c))) (s1, l') Q).
  { intros s1 H1. apply Hon. rewrite Hdec. eapply (at_step _ x k _ s s1); [exact Hx|exact H1| |intros [] s2 H2; by apply HQ].
    intros h z Hz Hk. cbn [decref ipc_handle_ops]. eapply runs_mono; [apply decref_touch; [exact Hz|unfold k in Hk; lia]|].
    intros [] h' Ht. eexists. split; [exact Ht|]. simpl. unfold k in Hk. lia. }
  apply runs_bind. destruct (wait_event l) as [ev|]; [|apply runs_ret, Hend; by apply at_start].
  apply runs_bind, Hon. rewrite Hfin. eapply (at_step _ x k k s s); [exact Hx|by apply at_start|..].
  { intros h z Hz Hk. cbn [finish_wait ipc_handle_ops]. eapply runs_mono; [by apply upd_handle_touch|]. 
    intros [] h' Ht. eexists. split; [exact Ht|exact Hk]. }
  intros _ s1 H1. destruct (remove_first _ _); [|by apply runs_ret, Hend].
  apply Hon. rewrite Hsig. eapply (at_step _ x k k s s1); [exact Hx|exact H1|..].
  { intros h z Hz Hk. cbn [signal ipc_handle_ops]. unfold runs, modify. eexists. split; [by apply signal_touch|exact Hk]. }
  intros [] s2 H2. by apply Hend.
Qed.
End Lift.

End IpcTouch.
