(* ===== verification/IpcWait.v ===== *)
(** * Polling the channels of a table

    A wait with no time to wait, on one channel or on the channels of a list,
    consumes the events of at most one channel and changes nothing else. *)

From S2P Require Import Prelude Iovec MsgQueue Handle Ipc IpcInv IpcKeep IpcMsg HandleList IpcHandle IpcTouch.

Module IpcWait.
Import Iovec MsgQueue Handle Ipc IpcInv IpcKeep IpcMsg HandleList IpcHandle IpcTouch.

(** How the waits of a call with a zero timeout go when nothing happens. *)
Definition no_time {S : Type} : list (Z * (S -> S)) := [(ERR_TIMED_OUT, fun s => s)].

Lemma upd_upd c x y h : upd c x (upd c y h) = upd c x h.
Proof. unfold upd, set_chans. simpl. by rewrite insert_insert_eq. Qed.

Lemma upd_look c x h : chans (upd c x h) !! c = Some x.
Proof. apply lookup_insert_eq. Qed.

Lemma upd_chan_eq c f h x : chans h !! c = Some x -> upd_chan c f h = Done tt (upd c (f x) h).
Proof. intros Hx. unfold upd_chan, get_chan, bind, get. by rewrite Hx. Qed.

(** Consuming the events of a channel changes its flags. *)
Lemma finalize_eq c e h x : chans h !! c = Some x -> exists a, chan_finalize_event c e h = Done tt (upd c (set_aux a x) h).
Proof.
  intros Hx. assert (Hid : upd c (set_aux (aux_state x) x) h = h) by (rewrite <- (upd_id c x h Hx) at 2; by destruct x).
  unfold chan_finalize_event. destruct (has_flag e (Z.lor _ _)); [|exists (aux_state x); by rewrite Hid].
  unfold bind. destruct (has_flag e IPC_HANDLE_POLL_SEND_UNBLOCKED).
  - rewrite (upd_chan_eq c _ h x Hx). destruct (has_flag e IPC_HANDLE_POLL_READY); [|by eexists].
    rewrite (upd_chan_eq c _ _ _ (upd_look _ _ _)), upd_upd. by eexists.
  - unfold ret at 1. destruct (has_flag e IPC_HANDLE_POLL_READY); [|exists (aux_state x); by rewrite Hid].
    rewrite (upd_chan_eq c _ h x Hx). by eexists.
Qed.

Lemma put_event_eq c w h x : chans h !! c = Some x ->
  put_event (HChan c) w h = upd c (set_handle (set_wait w (c_handle x)) x) h.
Proof. intros Hx. unfold put_event. simpl. by rewrite Hx. Qed.

Section Wait.
Context (h : heap) (c : Z) (x : chan).
Context (Hx : chans h !! c = Some x) (Hw : Handle.wait_event (c_handle x) = None).

Lemma chan_live : HandleList.live h (HChan c).
Proof. change (is_Some (handle_of h (HChan c))). simpl. by rewrite Hx. Qed.

Lemma chan_waiter : event_of h (HChan c) = None.
Proof. unfold event_of. simpl. by rewrite Hx. Qed.

Lemma chan_ready_of : ready_of h (HChan c) = chan_ready x.
Proof. simpl. by rewrite Hx. Qed.

(** Nothing has happened on the channel: the wait times out. *)
Lemma handle_wait_idle ev : chan_ready x = 0 -> handle_wait ev (HChan c) no_time h = Done (Some (ERR_TIMED_OUT, 0)) h.
Proof.
  intros Hr. pose proof chan_live as Hl. unfold handle_wait, bind at 1. rewrite (prepare_law h (HChan c) ev Hl).
  change (waiter h (HChan c)) with (event_of h (HChan c)). rewrite chan_waiter.
  cbn -[handle_wait_loop set_waiter finish_wait]. unfold handle_wait_loop, no_time, bind at 1 2.
  assert (Hl1 : HandleList.live (set_waiter (HChan c) (Some ev) h) (HChan c)) by (by apply set_waiter_live).
  rewrite (poll_law _ _ Hl1), set_waiter_ready by done. change (ready h (HChan c)) with (ready_of h (HChan c)).
  rewrite chan_ready_of, Hr. cbn -[set_waiter finish_wait]. unfold bind, modify. cbn -[set_waiter finish_wait].
  rewrite (finish_law _ _ Hl1), set_waiter_twice, set_waiter_same; [done|done|]. apply chan_waiter.
Qed.

(** An event is there: it is consumed. *)
Lemma handle_wait_ready ev polls : chan_ready x <> 0 -> exists a,
  handle_wait ev (HChan c) polls h = Done (Some (NO_ERROR, chan_ready x)) (upd c (set_aux a x) h).
Proof.
  intros Hr. pose proof chan_live as Hl. unfold handle_wait, bind at 1. rewrite (prepare_law h (HChan c) ev Hl).
  change (waiter h (HChan c)) with (event_of h (HChan c)). rewrite chan_waiter.
  cbn -[handle_wait_loop set_waiter finish_wait finalize_event].
  assert (Hl1 : HandleList.live (set_waiter (HChan c) (Some ev) h) (HChan c)) by (by apply set_waiter_live).
  assert (Hloop : handle_wait_loop (HChan c) polls (set_waiter (HChan c) (Some ev) h) =
    Done (Some (NO_ERROR, chan_ready x)) (set_waiter (HChan c) (Some ev) h)).
  { destruct polls as [|[r f] polls]; cbn -[set_waiter poll]; unfold bind at 1; rewrite (poll_law _ _ Hl1), set_waiter_ready by done;
      change (ready h (HChan c)) with (ready_of h (HChan c)); rewrite chan_ready_of, (proj2 (Z.eqb_neq _ 0) Hr); done. }
  unfold bind at 1. rewrite Hloop. cbn -[set_waiter finish_wait finalize_event].
  change (set_waiter (HChan c) (Some ev) h) with (put_event (HChan c) (Some ev) h). rewrite (put_event_eq c (Some ev) h x Hx).
  set (x1 := set_handle _ x). change (finalize_event (HChan c) (chan_ready x)) with (chan_finalize_event c (chan_ready x)).
  destruct (finalize_eq c (chan_ready x) (upd c x1 h) x1 (upd_look _ _ _)) as [a Ha]. exists a.
  unfold bind. rewrite Ha, upd_upd. change (finish_wait (HChan c)) with (upd_handle (HChan c) finish_wait_handle).
  unfold upd_handle. rewrite (upd_chan_eq c _ _ _ (upd_look _ _ _)), upd_upd. do 2 f_equal.
  destruct x as [? ? ? ? ? ? [] ? ? ?]. simpl in *. by subst.
Qed.

(** The end of an answered wait on a list takes a reference. *)
Lemma answer_eq e : exists a, (finalize_event (HChan c) e ;;; incref (HChan c)) h =
  Done tt (upd c (set_handle (handle_incref (c_handle x)) (set_aux a x)) h).
Proof.
  destruct (finalize_eq c e h x Hx) as [a Ha]. exists a. unfold bind.
  change (finalize_event (HChan c) e) with (chan_finalize_event c e). rewrite Ha.
  change (incref (HChan c)) with (upd_chan c (fun y => set_handle (handle_incref (c_handle y)) y)).
  by rewrite (upd_chan_eq c _ _ _ (upd_look _ _ _)), upd_upd.
Qed.

(** Dropping it again; [u] is what the memory has become. *)
Lemma answer_dropped a u : 1 <= refcnt (c_handle x) ->
  decref (HChan c) (Ipc.set_user u (upd c (set_handle (handle_incref (c_handle x)) (set_aux a x)) h)) =
    Done tt (Ipc.set_user u (upd c (set_aux a x) h)).
Proof.
  clear Hw. intros Hr. change (decref (HChan c)) with (chan_decref c). unfold chan_decref, get_chan, put_chan, bind, get, modify.
  cbn [Ipc.set_user chans upd set_chans]. rewrite lookup_insert_eq. cbn [deref ret handle_decref_cnt fst snd c_handle set_handle handle_incref refcnt].
  rewrite (proj2 (Z.eqb_neq _ 1)) by lia. unfold ret. f_equal. unfold upd, set_chans, Ipc.set_user. simpl.
  rewrite insert_insert_eq. do 2 f_equal.
  destruct x as [? ? ? ? ? ? [] ? ? ?]. unfold set_handle, set_aux, handle_incref. simpl. repeat f_equal. lia.
Qed.
End Wait.

(** Polling a list, by what its first ready channel is. *)
Lemma handle_list_poll ev h l : idle h l -> l <> [] ->
  match first_ready h l with
  | None => handle_list_wait ev no_time (h, HList l None) = Done (Some (ERR_TIMED_OUT, None)) (h, HList l None)
  | Some (a, x, b) => exists h', (finalize_event x (ready_of h x) ;;; incref x) h = Done tt h' /\
      handle_list_wait ev no_time (h, HList l None) = Done (Some (NO_ERROR, Some (x, ready_of h x))) (h', HList (b ++ a ++ [x]) None)
  end.
Proof.
  intros Hid Hl. pose proof (handle_list_wait_spec ev ERR_TIMED_OUT h l Hid ltac:(done)) as Hw. destruct l as [|y l]; [done|exact Hw].
Qed.

Lemma handle_list_poll_empty ev h : handle_list_wait ev no_time (h, HList (H := hptr) [] None) = Done (Some (ERR_NOT_FOUND, None)) (h, HList [] None).
Proof. done. Qed.
End IpcWait.
