(* ===== verification/EptTable.v ===== *)
(** * Tables of endpoints

    Both tipc devices keep the connections of the other side in an array of
    endpoints with a bitmap of the slots in use, a handle list, and cookies
    that point back from the channels to the endpoints.  The invariant of such
    a table, over any type of endpoint, and what attaching and dropping a
    channel do to it. *)

From S2P Require Import Prelude Bitmap Iovec MsgQueue MemKeep Handle Ipc IpcInv IpcKeep IpcSafe HandleList IpcHandle IpcTouch.

Module EptTable.
Import Bitmap Iovec MsgQueue MemKeep Handle Ipc IpcInv IpcKeep IpcSafe HandleList IpcHandle IpcTouch.

Section Table.
Context {E : Type} (chan_of : E -> option hptr) (free : E) (N : Z) (ptr : Z -> Z).

(** A connected endpoint: a live channel whose cookie points back, with one
    reference for the table and one for the list. *)
Definition live_at (h : heap) (i : nat) (e : E) : Prop :=
  exists c x, chan_of e = Some (HChan c) /\ chans h !! c = Some x /\
    cookie (c_handle x) = ptr (Z.of_nat i) /\ 2 <= refcnt (c_handle x).

Record table_ok (h : heap) (es : list E) (bm : bitmap) (l : list hptr) : Prop := {
  t_inv : inv quiet h;
  t_len : length es = Z.to_nat N;
  t_wf : bitmap_wf bm N;
  t_ept : forall i e, es !! i = Some e -> if bit_at bm (Z.of_nat i) then live_at h i e else e = free;
  t_list : l ≡ₚ omap chan_of es;
  t_nodup : NoDup l
}.

(** [b] is the bitmap [a] with one bit changed. *)
Definition bit_set (i : Z) (v : bool) (a b : bitmap) : Prop :=
  bitmap_wf b N /\ forall k, 0 <= k -> bit_at b k = if k =? i then v else bit_at a k.

Context (Hfree : chan_of free = None).

Lemma table_lookup h es bm l i : table_ok h es bm l -> 0 <= i < N -> exists e, es !! Z.to_nat i = Some e.
Proof. intros Ht Hi. apply lookup_lt_is_Some. rewrite (t_len _ _ _ _ Ht). lia. Qed.

Lemma table_test h es bm l i : table_ok h es bm l -> 0 <= i < N -> bitmap_test bm i = Some (bit_at bm i).
Proof. intros Ht Hi. apply (bitmap_test_spec _ N); [apply Ht|done]. Qed.

(** A slot is in use exactly when its endpoint has a channel. *)
Lemma table_used h es bm l i e : table_ok h es bm l -> es !! i = Some e ->
  bit_at bm (Z.of_nat i) = bool_decide (is_Some (chan_of e)).
Proof.
  intros Ht He. pose proof (t_ept _ _ _ _ Ht i e He) as H. destruct (bit_at _ _).
  - destruct H as (c & x & -> & _). by rewrite bool_decide_true.
  - subst. by rewrite Hfree.
Qed.

Lemma table_listed h es bm l x : table_ok h es bm l -> x ∈ l <-> exists i e, es !! i = Some e /\ chan_of e = Some x.
Proof.
  intros Ht. rewrite (t_list _ _ _ _ Ht), list_elem_of_omap. split.
  - intros (e & [i Hi]%list_elem_of_lookup & He). eauto.
  - intros (i & e & Hi & He). exists e. split; [by eapply list_elem_of_lookup_2|done].
Qed.

Lemma table_inj h es bm l i j a b x : table_ok h es bm l -> es !! i = Some a -> es !! j = Some b ->
  chan_of a = Some x -> chan_of b = Some x -> i = j.
Proof.
  intros Ht. pose proof (t_nodup _ _ _ _ Ht) as Hnd. rewrite (t_list _ _ _ _ Ht) in Hnd. by apply omap_NoDup_inj.
Qed.

Lemma table_live h es bm l x : table_ok h es bm l -> x ∈ l ->
  exists i e c z, es !! i = Some e /\ chan_of e = Some x /\ x = HChan c /\ chans h !! c = Some z /\
    cookie (c_handle z) = ptr (Z.of_nat i) /\ 2 <= refcnt (c_handle z).
Proof.
  intros Ht Hx. apply (table_listed _ _ _ _ _ Ht) in Hx as (i & e & Hi & He). pose proof (t_ept _ _ _ _ Ht i e Hi) as H.
  pose proof (table_used _ _ _ _ _ _ Ht Hi) as Hb. rewrite He, bool_decide_true in Hb by done. rewrite Hb in H.
  destruct H as (c & z & Hc & Hz & Hk & Hr). rewrite He in Hc. injection Hc as ->. by exists i, e, c, z.
Qed.

(** A channel that does not exist is none of the table. *)
Lemma table_fresh h es bm l c : table_ok h es bm l -> chans h !! c = None -> HChan c ∉ l.
Proof.
  intros Ht Hc Hin. destruct (table_live _ _ _ _ _ Ht Hin) as (i & e & c' & z & _ & _ & [= <-] & Hz & _). congruence.
Qed.

Lemma table_next h es bm l : table_ok h es bm l -> chans h !! next_obj h = None.
Proof. intros Ht. apply (i_fresh _ _ (t_inv _ _ _ _ Ht)). lia. Qed.

(** ** Changes of the heap *)

Lemma table_heap h es bm l h' : table_ok h es bm l -> inv quiet h' ->
  (forall c x, HChan c ∈ l -> chans h !! c = Some x -> 0 < refcnt (c_handle x) ->
     exists x', chans h' !! c = Some x' /\ cookie (c_handle x') = cookie (c_handle x) /\
       refcnt (c_handle x) <= refcnt (c_handle x')) ->
  table_ok h' es bm l.
Proof.
  intros Ht Hi Hk. pose proof Ht as [T1 T2 T3 T4 T5 T6]. split; auto. intros i e He.
  specialize (T4 i e He). destruct (bit_at _ _); [|done]. destruct T4 as (c & x & Hc & Hx & Hco & Hr).
  destruct (Hk c x) as (x' & Hx' & Hco' & Hr'); [|done|lia|].
  - apply (table_listed h es bm l); [done|]. eauto.
  - exists c, x'. split_and!; try done; [congruence|lia].
Qed.

(** The order of the list does not matter. *)
Lemma table_perm h es bm l l' : table_ok h es bm l -> l' ≡ₚ l -> table_ok h es bm l'.
Proof. intros [T1 T2 T3 T4 T5 T6] Hp. split; auto; by rewrite Hp. Qed.

Lemma table_others h es bm l h' c : table_ok h es bm l -> inv quiet h' -> others_kept c h h' -> HChan c ∉ l ->
  table_ok h' es bm l.
Proof.
  intros Ht Hi Ho Hc. apply (table_heap h); [done|done|]. intros d x Hin Hx Hr.
  destruct (Ho d x) as (x' & Hx' & He); [by intros ->|done|done|]. exists x'. rewrite He. split_and!; done || lia.
Qed.

(** A heap operation that keeps the handles of all channels keeps the table. *)
Lemma table_keep {A} (m : M heap A) h es bm l a h' : table_ok h es bm l -> inv quiet h' ->
  (forall P n, keep P n m any) -> m h = Done a h' -> table_ok h' es bm l.
Proof.
  intros Ht Hi Hk Hm. eapply (table_others h es bm l h' (next_obj h)); [done|done| |].
  - eapply keep_others; [apply Ht|apply Hk|exact Hm].
  - eapply table_fresh; [exact Ht|]. by eapply table_next.
Qed.

(** ** Adding and removing a connection *)

Lemma table_add h es bm l i b e c z h' : table_ok h es bm l -> 0 <= i < N -> bit_at bm i = false ->
  bit_set i true bm b -> inv quiet h' -> others_kept c h h' -> HChan c ∉ l -> chan_of e = Some (HChan c) ->
  chans h' !! c = Some z -> cookie (c_handle z) = ptr i -> 2 <= refcnt (c_handle z) ->
  table_ok h' (<[Z.to_nat i := e]> es) b (l ++ [HChan c]).
Proof.
  intros Ht Hi Hf [Hwf Hbits] Hinv Ho Hc Hec Hz Hco Hr. destruct (table_lookup _ _ _ _ i Ht Hi) as [e0 He0].
  pose proof (t_ept _ _ _ _ Ht _ e0 He0) as Hen. rewrite Z2Nat.id, Hf in Hen by lia. subst e0.
  pose proof Ht as [T1 T2 T3 T4 T5 T6]. split; auto.
  - by rewrite length_insert.
  - intros j f Hj. rewrite Hbits by lia. destruct (Z.of_nat j =? i) eqn:Eq; zbool.
    + assert (j = Z.to_nat i) as -> by lia. rewrite list_lookup_insert_eq in Hj by lia. injection Hj as <-.
      exists c, z. rewrite Z2Nat.id by lia. done.
    + rewrite list_lookup_insert_ne in Hj by lia. specialize (T4 j f Hj). destruct (bit_at bm (Z.of_nat j)); [|done].
      destruct T4 as (d & x & Hd1 & Hx & Hk & Hr1). destruct (Ho d x) as (x' & Hx' & He'); [|done|lia|].
      { intros ->. apply Hc, (table_listed h es bm l); [done|]. eauto. }
      exists d, x'. rewrite He'. done.
  - rewrite T5. pose proof (omap_update chan_of es _ _ e He0) as Hp.
    rewrite Hfree, Hec in Hp. simpl in Hp. rewrite Hp. by rewrite Permutation_app_comm.
  - apply NoDup_app. split; [done|]. split; [|apply NoDup_singleton]. intros y Hy. rewrite list_elem_of_singleton. by intros ->.
Qed.

Lemma table_remove h es bm l i b e c h' : table_ok h es bm l -> 0 <= i < N -> es !! Z.to_nat i = Some e ->
  chan_of e = Some (HChan c) -> bit_set i false bm b -> inv quiet h' -> others_kept c h h' ->
  table_ok h' (<[Z.to_nat i := free]> es) b (remove_first (HChan c) l).
Proof.
  intros Ht Hi He Hec [Hwf Hbits] Hinv Ho.
  pose proof Ht as [T1 T2 T3 T4 T5 T6]. split; auto.
  - by rewrite length_insert.
  - intros j f Hj. rewrite Hbits by lia. destruct (Z.of_nat j =? i) eqn:Eq; zbool.
    + assert (j = Z.to_nat i) as -> by lia. rewrite list_lookup_insert_eq in Hj by lia. by injection Hj as <-.
    + rewrite list_lookup_insert_ne in Hj by lia. specialize (T4 j f Hj). destruct (bit_at bm (Z.of_nat j)); [|done].
      destruct T4 as (d & x & Hd1 & Hx & Hk & Hr1). destruct (Ho d x) as (x' & Hx' & He'); [|done|lia|].
      { intros ->. assert (j = Z.to_nat i); [|lia]. by eapply table_inj. }
      exists d, x'. rewrite He'. done.
  - pose proof (omap_update chan_of es _ _ free He) as Hp. rewrite Hec, Hfree in Hp. simpl in Hp.
    apply (Permutation_cons_inv (a := HChan c)). rewrite Hp, <- T5. symmetry. apply remove_first_perm.
    apply (table_listed h es bm l); [done|]. eauto.
  - by apply remove_first_NoDup.
Qed.

(** Taking a slot: none is left, or the first free one is marked. *)
Lemma table_alloc h es bm l : table_ok h es bm l -> exists r, bitmap_ffz bm N = Some r /\
  ((r = -1 /\ forall k, 0 <= k < N -> bit_at bm k = true) \/
   (0 <= r < N /\ bit_at bm r = false /\ (forall k, 0 <= k < r -> bit_at bm k = true) /\
      exists b, bitmap_set bm r = Some b /\ bit_set r true bm b)).
Proof.
  intros Ht. destruct (bitmap_ffz_first_zero bm N (t_wf _ _ _ _ Ht)) as (r & Hr & [[-> Hall]|(Hb & Hz & Hlow)]).
  - exists (-1). auto.
  - exists r. split; [done|]. right. split; [done|]. split; [done|]. split; [done|].
    destruct (bitmap_set_spec bm N r (t_wf _ _ _ _ Ht) Hb) as (b & Hs & Hwf & Hbits). exists b. by split.
Qed.

Lemma table_clear h es bm l i : table_ok h es bm l -> 0 <= i < N ->
  exists b, bitmap_clear bm i = Some b /\ bit_set i false bm b.
Proof.
  intros Ht Hi. destruct (bitmap_clear_spec bm N i (t_wf _ _ _ _ Ht) Hi) as (b & Hs & Hwf & Hbits). exists b. by split.
Qed.

(** A new table is empty. *)
Lemma table_new h : inv quiet h -> 0 <= N -> table_ok h (replicate (Z.to_nat N) free) (bitmap_zero N) [].
Proof.
  intros Hi HN. split; [done|by rewrite length_replicate|by apply bitmap_zero_wf| | |constructor].
  - intros i e He. rewrite bitmap_zero_bit. by apply lookup_replicate in He as [-> _].
  - induction (Z.to_nat N) as [|n IH]; simpl; [done|]. by rewrite Hfree.
Qed.

(** Nothing is connected when the list is empty. *)
Lemma table_empty h es bm l : table_ok h es bm l -> (forall i e, es !! i = Some e -> chan_of e = None) -> l = [].
Proof.
  intros Ht Hno. destruct l as [|x xs]; [done|]. exfalso.
  destruct (proj1 (table_listed _ _ _ _ x Ht) ltac:(left)) as (i & e & He & Hc). by rewrite (Hno i e He) in Hc.
Qed.
End Table.

(** ** Dropping and attaching, in a world that has the heap as a part *)

(** [c], which was [x], has been closed: it and its peer are disconnecting or
    gone, and the other channels keep their handles and queues. *)
Definition closed (c : Z) (x : chan) (h h' : heap) : Prop :=
  inv quiet h' /\ (mem_kept (user h) (user h') /\ ends_kept c h h') /\
  match chans h' !! c with Some x' => c_state x' = DISCONNECTING | None => True end /\
  (forall q, peer x = Some q -> match chans h' !! q with Some y => c_state y = DISCONNECTING | None => True end).

Lemma closed_others c x h h' : closed c x h h' -> inv quiet h' /\ others_kept c h h'.
Proof. intros (Hi & [_ He] & _). split; [done|by apply ends_others]. Qed.

Lemma touched_ends c y h h' : touched c y h h' -> mem_kept (user h) (user h') /\ ends_kept c h h'.
Proof.
  intros Ht. split; [by rewrite (to_user _ _ _ _ Ht)|]. intros d x Hd Hx _. exists x.
  split; [by rewrite (touched_ne c y h h')|apply same_end_refl].
Qed.

Lemma ends_kept_any a b h h' : ends_kept a h h' -> chans h !! a = None -> ends_kept b h h'.
Proof. intros Ho Ha d x _ Hx Hr. apply (Ho d x); [congruence|done|done]. Qed.

Lemma ends_kept_trans c h1 h2 h3 : ends_kept c h1 h2 -> ends_kept c h2 h3 -> ends_kept c h1 h3.
Proof.
  intros H1 H2 d x Hd Hx Hr. destruct (H1 d x Hd Hx Hr) as (x' & Hx' & He & Hq).
  destruct (H2 d x' Hd Hx') as (x'' & Hx'' & He' & Hq'); [by rewrite He|]. exists x''. split; [done|].
  split; [congruence|auto].
Qed.

Lemma others_kept_any a b h h' : others_kept a h h' -> chans h !! a = None -> others_kept b h h'.
Proof. intros Ho Ha d x _ Hx Hr. apply (Ho d x); [congruence|done|done]. Qed.

Lemma others_kept_trans c h1 h2 h3 : others_kept c h1 h2 -> others_kept c h2 h3 -> others_kept c h1 h3.
Proof.
  intros H1 H2 d x Hd Hx Hr. destruct (H1 d x Hd Hx Hr) as (x' & Hx' & He).
  destruct (H2 d x' Hd Hx') as (x'' & Hx'' & He'); [by rewrite He|]. exists x''. split; [done|congruence].
Qed.

Section Lift.
Context {S : Type} `{HandleOps S hptr} (get_heap : S -> heap) (put_heap : heap -> S -> S).
Context (lift : forall A, M heap A -> M S A).
Context (Hlift : forall A (m : M heap A) s Q, runs m (get_heap s) (fun a h => Q a (put_heap h s)) -> runs (lift A m) s Q).
Context (Hget : forall h s, get_heap (put_heap h s) = h) (Hput : forall h h' s, put_heap h (put_heap h' s) = put_heap h s).
Context (Hid : forall s, put_heap (get_heap s) s = s).
Context (Hinc : forall x, incref x = lift unit (incref x)) (Hdec : forall x, decref x = lift unit (decref x)).
Context (Hprep : forall e x, prepare_wait e x = lift Z (prepare_wait e x)) (Hfin : forall x, finish_wait x = lift unit (finish_wait x)).
Context (Hpoll : forall x, poll x = lift Z (poll x)) (Hnot : forall x, notify x = lift unit (notify x)).
Context (Hsig : forall e, signal e = lift unit (signal e)).

Lemma runs_on_obj {A} (m : M S A) s l (Q : A -> S * handle_list hptr -> Prop) :
  runs m s (fun a s' => Q a (s', l)) -> runs (on_obj m) (s, l) Q.
Proof. unfold runs, on_obj. simpl. by destruct (m s). Qed.

(** A channel leaves the list, loses its cookie and is closed. *)
Definition drop_listed_chan (chan : hptr) : M (S * handle_list hptr) unit :=
  handle_list_del chan ;;;
  on_obj (lift unit (upd_handle chan (handle_set_cookie 0))) ;;;
  on_obj (lift unit (handle_close chan)).

Lemma drop_listed_run s l c x (Q : unit -> S * handle_list hptr -> Prop) : inv quiet (get_heap s) ->
  chans (get_heap s) !! c = Some x -> 2 <= refcnt (c_handle x) -> HChan c ∈ handles l ->
  (forall h', closed c x (get_heap s) h' ->
     Q tt (put_heap h' s, HList (remove_first (HChan c) (handles l)) (wait_event l))) ->
  runs (drop_listed_chan (HChan c)) (s, l) Q.
Proof.
  intros Hi Hx Hr Hin HQ. unfold drop_listed_chan. apply runs_bind.
  eapply (list_del_run get_heap put_heap lift); [done..|exact Hx|apply Hid|exact Hin|lia|].
  intros s1 (h1 & y1 & -> & Ht1 & Hy1). cbv beta in Hy1. destruct (touched_at _ _ _ _ Ht1) as (x0 & Hx0 & Hx1).
  assert (x0 = x) by congruence. subst x0.
  apply runs_bind, runs_on_obj, Hlift. rewrite Hget, ?Hput.
  eapply runs_mono; [apply upd_handle_touch; exact Hx1|]. intros [] h2 Ht2. cbv beta. rewrite Hput.
  pose proof (touched_trans _ _ _ _ _ _ Ht1 Ht2) as Ht. set (y2 := handle_set_cookie 0 _) in *.
  assert (Hy2 : refcnt y2 = refcnt (c_handle x) - 1) by exact Hy1.
  assert (Hi2 : inv quiet h2) by (eapply touched_inv; [exact Hi|exact Ht|exact Hx|lia|lia]).
  destruct (touched_at _ _ _ _ Ht) as (x0 & Hx0' & Hx2). assert (x0 = x) by congruence. subst x0.
  apply runs_on_obj, Hlift. rewrite Hget.
  eapply runs_mono; [eapply (runs_and _ _ _ (fun _ h3 => mem_kept (user h2) (user h3) /\ ends_kept c h2 h3));
    [apply (chan_close_run h2 c _ Hi2 Hx2); simpl; lia|]|].
  { intros [] h3 E. eapply (keep_ends c); [exact Hi2|apply keep_close; by intros [_ ?]|exact E]. }
  cbv beta. intros [] h3 [(Hi3 & Hc & Hp & _ & _ & _ & _) [Hm Ho]]. rewrite Hput.
  destruct (touched_ends _ _ _ _ Ht) as [Hm' Ho'].
  apply HQ. split; [done|]. split; [|split].
  - split; [by eapply mem_kept_trans|by eapply ends_kept_trans].
  - destruct (chans h3 !! c); [apply Hc|done].
  - intros q Hq. by apply Hp.
Qed.

(** A new channel gets the cookie [k] and joins the list. *)
Definition attach_listed_chan (k : Z) (chan : hptr) : M (S * handle_list hptr) unit :=
  on_obj (lift unit (upd_handle chan (handle_set_cookie k))) ;;;
  handle_list_add false chan.

Lemma attach_listed_run s l c x k (Q : unit -> S * handle_list hptr -> Prop) : inv quiet (get_heap s) ->
  chans (get_heap s) !! c = Some x -> refcnt (c_handle x) = 1 -> HChan c ∉ handles l ->
  (forall h' y, touched c y (get_heap s) h' -> inv quiet h' -> chans h' !! c = Some (set_handle y x) -> cookie y = k -> refcnt y = 2 ->
     Q tt (put_heap h' s, HList (handles l ++ [HChan c]) (wait_event l))) ->
  runs (attach_listed_chan k (HChan c)) (s, l) Q.
Proof.
  intros Hi Hx Hrc Hc HQ. unfold attach_listed_chan. apply runs_bind, runs_on_obj, Hlift.
  eapply runs_mono; [apply upd_handle_touch; exact Hx|]. intros [] h2 Ht2. cbv beta.
  destruct (touched_at _ _ _ _ Ht2) as (x0 & Hx0 & Hx2). assert (x0 = x) by congruence. subst x0.
  eapply (list_add_run get_heap put_heap lift); [done..|rewrite Hget; exact Hx2|by rewrite Hget, Hput|exact Hc|].
  intros s3 (h3 & y3 & -> & Ht3 & Hr3 & Hk3 & _). rewrite Hget in Ht3. simpl in Hr3, Hk3. rewrite Hput.
  pose proof (touched_trans _ _ _ _ _ _ Ht2 Ht3) as Ht.
  destruct (touched_at _ _ _ _ Ht) as (x0 & Hx0' & Hx3). assert (x0 = x) by congruence. subst x0.
  apply (HQ h3 y3); [exact Ht| |exact Hx3|done|lia].
  eapply touched_inv; [exact Hi|exact Ht|exact Hx|lia|lia].
Qed.
End Lift.
End EptTable.
