(* ===== verification/TipcDev.v ===== *)
(** * The tipc virtio device

    [lib/trusty/tipc_dev.c], [tipc_dev.h]: the device that connects the
    non-secure world to the IPC ports.  Its receive thread takes messages from
    one virtio queue and connects, disconnects and sends; its transmit thread
    waits on the handles of the connections and forwards what arrives. *)

From S2P Require Import Prelude Bitmap Iovec MsgQueue Handle Ipc HandleList IpcHandle Vqueue.

Module TipcDev.
Import Bitmap Iovec MsgQueue Handle Ipc HandleList IpcHandle.

(** ** Constants *)

Definition VIRTIO_ID_TIPC : Z := 13.
Definition TIPC_VQ_TX : nat := 0.
Definition TIPC_VQ_RX : nat := 1.
Definition TIPC_VQ_NUM : Z := 2.
Definition MAX_RX_IOVS : Z := 1.
Definition MAX_TX_IOVS : Z := 1.
Definition TIPC_CTRL_ADDR : Z := 53.
Definition TIPC_ADDR_MAX_NUM : Z := 256.
Definition TIPC_ADDR_BASE : Z := 1000.
Definition TIPC_MAX_SRV_NAME_LEN : Z := 256.

Definition TIPC_CTRL_MSGTYPE_GO_ONLINE : Z := 1.
Definition TIPC_CTRL_MSGTYPE_GO_OFFLINE : Z := 2.
Definition TIPC_CTRL_MSGTYPE_CONN_REQ : Z := 3.
Definition TIPC_CTRL_MSGTYPE_CONN_RSP : Z := 4.
Definition TIPC_CTRL_MSGTYPE_DISC_REQ : Z := 5.

Definition VDEV_STATE_RESET : Z := 0.
Definition VDEV_STATE_ACTIVE : Z := 1.
Definition RSC_VDEV : Z := 3.
Definition VIRTIO_CONFIG_S_ACKNOWLEDGE : Z := 1.
Definition VIRTIO_CONFIG_S_DRIVER : Z := 2.
Definition VIRTIO_CONFIG_S_DRIVER_OK : Z := 4.

(** Sizes of the packed structures of the protocol. *)
Definition sizeof_tipc_hdr : Z := 16.
Definition sizeof_ctrl_msg_hdr : Z := 8.
Definition sizeof_conn_req_body : Z := TIPC_MAX_SRV_NAME_LEN.
Definition sizeof_conn_rsp_body : Z := 20.
Definition sizeof_disc_req_body : Z := 4.

(** ** Bytes in memory *)

Definition bytes16 (x : Z) : list Z := [x mod 256; x / 2 ^ 8 mod 256].
Definition bytes32 (x : Z) : list Z :=
  [x mod 256; x / 2 ^ 8 mod 256; x / 2 ^ 16 mod 256; x / 2 ^ 24 mod 256].
Definition le16 (bs : list Z) : Z := match bs with [b0; b1] => b0 + 2 ^ 8 * b1 | _ => 0 end.

(** [struct tipc_hdr] *)
Definition tipc_hdr_bytes (src dst len flags : Z) : list Z :=
  bytes32 src ++ bytes32 dst ++ bytes32 0 ++ bytes16 len ++ bytes16 flags.
(** [struct tipc_ctrl_msg_hdr], and the three control messages that are sent. *)
Definition ctrl_msg_hdr_bytes (type body_len : Z) : list Z := bytes32 type ++ bytes32 body_len.
Definition go_online_msg : list Z := ctrl_msg_hdr_bytes TIPC_CTRL_MSGTYPE_GO_ONLINE 0.
Definition conn_rsp_msg (target status remote max_msg_size max_msg_cnt : Z) : list Z :=
  ctrl_msg_hdr_bytes TIPC_CTRL_MSGTYPE_CONN_RSP sizeof_conn_rsp_body ++
  bytes32 target ++ bytes32 status ++ bytes32 remote ++ bytes32 max_msg_size ++ bytes32 max_msg_cnt.
Definition disc_req_msg (target : Z) : list Z :=
  ctrl_msg_hdr_bytes TIPC_CTRL_MSGTYPE_DISC_REQ sizeof_disc_req_body ++ bytes32 target.

(** ** The device *)

Record tipc_ept := Ept { remote : Z; ept_chan : option hptr }.

Record tipc_dev := Dev {
  devid : Z;
  vstate : Z;               (* vd.state *)
  guest : Z;
  dev_uuid : uuid;
  descr : list Z;           (* the descr_size bytes at descr_ptr *)
  epts : list tipc_ept;
  inuse : bitmap;
  have_handles : bool;      (* the event *)
  rx_thread : option Z;
  tx_thread : option Z;
  tx_stop : bool;
  rx_stop : bool
}.

Definition set_vstate (x : Z) (d : tipc_dev) : tipc_dev :=
  Dev (devid d) x (guest d) (dev_uuid d) (descr d) (epts d) (inuse d) (have_handles d) (rx_thread d) (tx_thread d) (tx_stop d) (rx_stop d).
Definition set_ept (i : Z) (x : tipc_ept) (d : tipc_dev) : tipc_dev :=
  Dev (devid d) (vstate d) (guest d) (dev_uuid d) (descr d) (<[Z.to_nat i := x]> (epts d)) (inuse d) (have_handles d) (rx_thread d) (tx_thread d) (tx_stop d) (rx_stop d).
Definition set_inuse (x : bitmap) (d : tipc_dev) : tipc_dev :=
  Dev (devid d) (vstate d) (guest d) (dev_uuid d) (descr d) (epts d) x (have_handles d) (rx_thread d) (tx_thread d) (tx_stop d) (rx_stop d).
Definition set_have_handles (x : bool) (d : tipc_dev) : tipc_dev :=
  Dev (devid d) (vstate d) (guest d) (dev_uuid d) (descr d) (epts d) (inuse d) x (rx_thread d) (tx_thread d) (tx_stop d) (rx_stop d).
Definition set_rx (t : option Z) (stop : bool) (d : tipc_dev) : tipc_dev :=
  Dev (devid d) (vstate d) (guest d) (dev_uuid d) (descr d) (epts d) (inuse d) (have_handles d) t (tx_thread d) (tx_stop d) stop.
Definition set_tx (t : option Z) (stop : bool) (d : tipc_dev) : tipc_dev :=
  Dev (devid d) (vstate d) (guest d) (dev_uuid d) (descr d) (epts d) (inuse d) (have_handles d) (rx_thread d) t stop (rx_stop d).

(** The world of a device: the IPC objects and kernel memory, the device, its
    queues, the accesses of the rings, the mapped regions, what the windows
    into non-secure memory held when they were unmapped, and how often a
    thread of the device has waited.  The handle list is kept beside it. *)
Record world := World {
  w_heap : heap;
  w_dev : tipc_dev;
  w_vqs : list Vqueue.vqueue;
  w_trace : list Vqueue.access;
  w_regions : Vqueue.kregions;
  w_sent : list (Z * list Z);
  w_waits : nat
}.

Definition set_heap (h : heap) (w : world) : world :=
  World h (w_dev w) (w_vqs w) (w_trace w) (w_regions w) (w_sent w) (w_waits w).
Definition set_dev (d : tipc_dev) (w : world) : world :=
  World (w_heap w) d (w_vqs w) (w_trace w) (w_regions w) (w_sent w) (w_waits w).
Definition set_vst (i : nat) (s : Vqueue.vst) (w : world) : world :=
  World (w_heap w) (w_dev w) (<[i := Vqueue.st_vq s]> (w_vqs w)) (Vqueue.trace s) (Vqueue.regions s) (w_sent w) (w_waits w).
Definition set_sent (x : list (Z * list Z)) (w : world) : world :=
  World (w_heap w) (w_dev w) (w_vqs w) (w_trace w) (w_regions w) x (w_waits w).
Definition set_waits (n : nat) (w : world) : world :=
  World (w_heap w) (w_dev w) (w_vqs w) (w_trace w) (w_regions w) (w_sent w) n.

Definition kmem_of (w : world) : kmem := kernel (user (w_heap w)).
Definition set_kmem (k : kmem) (w : world) : world :=
  set_heap (Ipc.set_user (set_kernel k (user (w_heap w))) (w_heap w)) w.

Definition on_ipc {A} (m : M heap A) : M world A := fun w =>
  match m (w_heap w) with Done a h => Done a (set_heap h w) | Crash e => Crash e end.
Definition on_mem {A} (m : M mem A) : M world A := on_ipc (on_user m).
Definition on_vq {A} (i : nat) (m : M Vqueue.vst A) : M world A := fun w =>
  match w_vqs w !! i with
  | None => Crash BadAccess
  | Some q =>
      match m (Vqueue.Vst q (w_trace w) (w_regions w)) with Done a s => Done a (set_vst i s w) | Crash e => Crash e end
  end.
Definition get_dev : M world tipc_dev := gets w_dev.
Definition upd_dev (f : tipc_dev -> tipc_dev) : M world unit := modify (fun w => set_dev (f (w_dev w)) w).

(** The operations of a handle, seen from the device. *)
#[export] Instance world_handle_ops : HandleOps world hptr := {
  poll x := on_ipc (poll x);
  finalize_event x e := on_ipc (finalize_event x e);
  incref x := on_ipc (incref x);
  decref x := on_ipc (decref x);
  prepare_wait ev x := on_ipc (prepare_wait ev x);
  finish_wait x := on_ipc (finish_wait x);
  notify x := on_ipc (notify x);
  signal ev := on_ipc (signal ev)
}.

Notation W := (world * handle_list hptr)%type.

Definition on_dev {A} (m : M world A) : M W A := on_obj m.

(** What others did while a thread of the device waited: the other thread, the
    applications, the non-secure world. *)
Definition event_wait (others : nat -> W -> W) : M W unit :=
  modify (fun s => let n := w_waits s.1 in others n (set_waits (S n) s.1, s.2)).

(** ** Addresses and endpoints *)

Definition addr_to_slot (addr : Z) : Z := u32 (addr - TIPC_ADDR_BASE).
Definition slot_to_addr (slot : Z) : Z := u32 (slot + TIPC_ADDR_BASE).

Definition sizeof_tipc_ept : Z := 16.

(** [ipc_mem]: how the allocations of the next connection request end. *)
Section Device.
Context (ns : nat -> Z -> Z) (others : nat -> W -> W) (wait_fuel : nat).
Context `{Vqueue.Platform}.
Context (ept_base : Z) (access : Z -> uuid -> Z) (ipc_mem : world -> bool * allocs * bool).

(** A pointer to an endpoint is the address of its entry in [epts]. *)
Definition ept_ptr (slot : Z) : Z := ept_base + sizeof_tipc_ept * slot.
Definition ptr_slot (p : Z) : Z := (p - ept_base) / sizeof_tipc_ept.

Definition get_ept (slot : Z) : M world tipc_ept := d <- get_dev ;; deref (epts d !! Z.to_nat slot).

Definition alloc_local_addr (rem : Z) (chan : hptr) : M world Z :=
  d <- get_dev ;;
  slot <- deref (bitmap_ffz (inuse d) TIPC_ADDR_MAX_NUM) ;;
  if 0 <=? slot then
    b <- deref (bitmap_set (inuse d) slot) ;;
    upd_dev (set_inuse b) ;;;
    _ <- get_ept slot ;;
    upd_dev (set_ept slot (Ept rem (Some chan))) ;;;
    ret (slot_to_addr slot)
  else ret 0.

(** The slot of the endpoint, if there is one. *)
Definition lookup_ept (local : Z) : M world (option Z) :=
  let slot := addr_to_slot local in
  if slot <? TIPC_ADDR_MAX_NUM then
    d <- get_dev ;;
    used <- deref (bitmap_test (inuse d) slot) ;;
    ret (if used then Some slot else None)
  else ret None.

Definition ept_to_addr (slot : Z) : Z := slot_to_addr slot.

Definition free_local_addr (local : Z) : M world unit :=
  let slot := addr_to_slot local in
  if slot <? TIPC_ADDR_MAX_NUM then
    d <- get_dev ;;
    b <- deref (bitmap_clear (inuse d) slot) ;;
    upd_dev (set_inuse b) ;;;
    _ <- get_ept slot ;;
    upd_dev (set_ept slot (Ept 0 None))
  else ret tt.

(** The cookie of a channel points to its endpoint. *)
Definition get_cookie_ept (x : hptr) : M world (option Z) :=
  y <- on_ipc (get_handle x) ;;
  let c := handle_get_cookie y in
  ret (if c =? 0 then None else Some (ptr_slot c)).
Definition set_cookie (x : hptr) (c : Z) : M world unit := on_ipc (upd_handle x (handle_set_cookie c)).

(** ** Windows into non-secure memory

    A mapped buffer shows, from its mapping on, bytes that the other side
    chose; the code reads each of them once.  What a window holds when it is
    unmapped is left to the other side. *)
Definition window (n : nat) (va len : Z) : kmem :=
  map_seqZ va ((fun a => u8 (ns n a)) <$> seqZ va (ROUNDUP len PAGE_SIZE)).

Definition used_iovs (l : Vqueue.vqueue_iovs) : list (Z * Vqueue.iovec_kern) :=
  take (Z.to_nat (Vqueue.iused l)) (zip (Vqueue.phys l) (Vqueue.iovs l)).

Definition show (l : Vqueue.vqueue_iovs) (w : world) : world :=
  set_kmem (foldr (fun x k => window (length (w_trace w)) (Vqueue.base x.2) (Vqueue.iov_len x.2) ∪ k)
              (kmem_of w) (used_iovs l)) w.

Definition window_bytes (k : kmem) (x : Z * Vqueue.iovec_kern) : Z * list Z :=
  (x.1, omap (fun a => k !! a) (seqZ (Vqueue.base x.2) (Vqueue.iov_len x.2))).

Definition hide (l : Vqueue.vqueue_iovs) (w : world) : world :=
  set_sent ((window_bytes (kmem_of w) <$> used_iovs l) ++ w_sent w)
    (set_kmem (foldr (fun x k => k ∖ window 0 (Vqueue.base x.2) (Vqueue.iov_len x.2)) (kmem_of w) (used_iovs l)) w).

Definition map_iovs (q : nat) (l : Vqueue.vqueue_iovs) (flags gst : Z) : M world (Z * Vqueue.vqueue_iovs) :=
  r <- on_vq q (Vqueue.vqueue_map_iovs l flags gst) ;;
  (if r.1 =? 0 then modify (show r.2) else ret tt) ;;;
  ret r.
Definition unmap_iovs (q : nat) (l : Vqueue.vqueue_iovs) : M world Vqueue.vqueue_iovs :=
  modify (hide l) ;;; on_vq q (Vqueue.vqueue_unmap_iovs l).

Definition load8 (a : Z) : M world Z := bs <- on_mem (memcpy_from a 1) ;; deref (head bs).
Definition load16 (a : Z) : M world Z := bs <- on_mem (memcpy_from a 2) ;; ret (le16 bs).
Definition load32 (a : Z) : M world Z := bs <- on_mem (memcpy_from a 4) ;; ret (le32 bs).

(** [strncpy] into a local array of [n] bytes: what is behind the terminator
    is not written, and not read later. *)
Fixpoint strncpy (n : nat) (src : Z) : M world (list Z) :=
  match n with
  | O => ret []
  | S n => c <- load8 src ;; if c =? 0 then ret [0] else s <- strncpy n (src + 1) ;; ret (c :: s)
  end.

(** ** Sending ([tipc_send_data], [tipc_send_buf])

    The chains of the device hold one descriptor, so two turns of the loop
    over a chain are enough. *)
Definition chain_fuel : nat := 2.

Definition out_buf : Vqueue.vqueue_buf :=
  Vqueue.VqBuf 0 (Vqueue.Iovs 0 0 0 [] []) (Vqueue.Iovs MAX_TX_IOVS 0 0 [0] [Vqueue.IovecKern 0 0]).
Definition in_buf : Vqueue.vqueue_buf :=
  Vqueue.VqBuf 0 (Vqueue.Iovs MAX_RX_IOVS 0 0 [0] [Vqueue.IovecKern 0 0]) (Vqueue.Iovs 0 0 0 [] []).

Definition get_avail (q : nat) (buf : Vqueue.vqueue_buf) : M W (option (Z * Vqueue.vqueue_buf)) :=
  on_dev (on_vq q (Vqueue.vqueue_get_avail_buf ns chain_fuel buf)).

(** The loop that gets a buffer, waiting for one if [wait]: the error that
    [tipc_send_data] returns, or the buffer. *)
Fixpoint get_tx_buf (fuel : nat) (wait : bool) (buf : Vqueue.vqueue_buf) : M W (option (Z + Vqueue.vqueue_buf)) :=
  match fuel with
  | O => ret None
  | S fuel =>
      r <~ get_avail TIPC_VQ_TX buf ;;
      if r.1 =? NO_ERROR then tret (inr r.2)
      else if negb (r.1 =? ERR_NOT_ENOUGH_BUFFER) || negb wait then tret (inl r.1)
      else
        event_wait others ;;;
        d <- on_dev get_dev ;;
        if tx_stop d then tret (inl ERR_CHANNEL_CLOSED) else get_tx_buf fuel wait r.2
  end.

Definition MAP_FLAGS : Z :=
  Z.lor (Z.lor SmCall.SmCall.ARCH_MMU_FLAG_NS SmCall.SmCall.ARCH_MMU_FLAG_PERM_NO_EXECUTE) SmCall.SmCall.ARCH_MMU_FLAG_CACHED.

Definition tipc_send_data (local rem : Z) (cb : Z -> Z -> M world Z) (data_len : Z) (wait : bool) : M W (option Z) :=
  let ttl_len := sizeof_tipc_hdr + data_len in
  o <~ get_tx_buf wait_fuel wait out_buf ;;
  match o with
  | inl e => tret e
  | inr buf =>
      let out := Vqueue.out_iovs buf in
      tlift (on_dev (
        r <- (if Vqueue.iused out =? 0 then ret ERR_NOT_ENOUGH_BUFFER
              else
                v <- deref (head (Vqueue.iovs out)) ;;
                if Vqueue.iov_len v <? sizeof_tipc_hdr then ret ERR_NOT_ENOUGH_BUFFER
                else
                  d <- get_dev ;;
                  m <- map_iovs TIPC_VQ_TX out MAP_FLAGS (guest d) ;;
                  if negb (m.1 =? NO_ERROR) then ret m.1
                  else
                    v <- deref (head (Vqueue.iovs m.2)) ;;
                    on_mem (memcpy_to (Vqueue.base v) (tipc_hdr_bytes local rem data_len 0)) ;;;
                    let len := if Vqueue.iov_len v <? ttl_len then u16 (Vqueue.iov_len v - sizeof_tipc_hdr) else data_len in
                    r <- cb (Vqueue.base v + sizeof_tipc_hdr) len ;;
                    unmap_iovs TIPC_VQ_TX m.2 ;;;
                    ret (if 0 <=? r then r + sizeof_tipc_hdr else r)) ;;
        on_vq TIPC_VQ_TX (Vqueue.vqueue_add_buf ns buf r)))
  end.

(** [_send_buf]. *)
Definition send_buf_cb (data : list Z) (dst sz : Z) : M world Z :=
  assert_ (negb (dst =? 0)) ;;;
  assert_ (sz <=? Z.of_nat (length data)) ;;;
  on_mem (memcpy_to dst (take (Z.to_nat sz) data)) ;;;
  ret sz.

Definition tipc_send_buf (local rem : Z) (data : list Z) (wait : bool) : M W (option Z) :=
  tipc_send_data local rem (send_buf_cb data) (Z.of_nat (length data)) wait.

Definition go_online : M W (option Z) := tipc_send_buf TIPC_CTRL_ADDR TIPC_CTRL_ADDR go_online_msg true.

Definition send_conn_rsp (local rem status msg_sz msg_cnt : Z) : M W (option Z) :=
  tipc_send_buf TIPC_CTRL_ADDR TIPC_CTRL_ADDR (conn_rsp_msg rem status local msg_sz msg_cnt) true.

Definition send_disc_req (local rem : Z) : M W (option Z) :=
  tipc_send_buf local TIPC_CTRL_ADDR (disc_req_msg rem) true.

(** ** Receiving *)

(** The part of [handle_conn_req] before the answer: the channel with its
    local address, or the code of [ipc_port_connect_async]. *)
Definition open_conn (rem : Z) (name : list Z) : M world (Z * Z * option hptr) :=
  d <- get_dev ;;
  w <- get ;;
  let '(ok, al, dup) := ipc_mem w in
  r <- on_ipc (ipc_port_connect_async access ok al dup (guest d) (Some (dev_uuid d)) name TIPC_MAX_SRV_NAME_LEN 0) ;;
  if r.1 =? NO_ERROR then
    chan <- deref r.2 ;;
    local <- alloc_local_addr rem chan ;;
    if local =? 0 then on_ipc (handle_close chan) ;;; ret (r.1, local, None)
    else ret (r.1, local, Some chan)
  else ret (r.1, 0, None).

Definition handle_conn_req (rem ns_req : Z) : M W (option Z) :=
  name <- on_dev (strncpy (Z.to_nat TIPC_MAX_SRV_NAME_LEN) ns_req) ;;
  r <- on_dev (open_conn rem name) ;;
  let '(err, local, o) := r in
  match o with
  | Some chan =>
      e <- on_dev (lookup_ept local) ;;
      on_dev (set_cookie chan (match e with Some slot => ept_ptr slot | None => 0 end)) ;;;
      handle_list_add false chan ;;;
      on_dev (upd_dev (set_have_handles true)) ;;;
      tret NO_ERROR
  | None => send_conn_rsp local rem (u32 err) 0 0
  end.

(** The full search of [handle_disc_req]: [n] slots are left from [slot]. *)
Fixpoint search_ept (n : nat) (slot rem : Z) : M world (option Z) :=
  match n with
  | O => ret None
  | S n =>
      d <- get_dev ;;
      used <- deref (bitmap_test (inuse d) slot) ;;
      if used then
        e <- get_ept slot ;;
        if remote e =? rem then ret (Some slot) else search_ept n (slot + 1) rem
      else search_ept n (slot + 1) rem
  end.

(** Detach and close the channel of an endpoint. *)
Definition drop_chan (chan : hptr) : M W unit :=
  handle_list_del chan ;;;
  on_dev (set_cookie chan 0) ;;;
  on_dev (on_ipc (handle_close chan)).

(** Lines of [handle_disc_req] on the endpoint that is found. *)
Definition drop_ept (slot : Z) : M W unit :=
  x <- on_dev (get_ept slot) ;;
  match ept_chan x with Some chan => drop_chan chan | None => ret tt end ;;;
  on_dev (free_local_addr (ept_to_addr slot)).

Definition handle_disc_req (rem ns_req : Z) : M W Z :=
  target <- on_dev (load32 ns_req) ;;
  e <- on_dev (lookup_ept target) ;;
  let search := search_ept (Z.to_nat TIPC_ADDR_MAX_NUM) 0 rem in
  e <- on_dev (match e with
               | Some slot => x <- get_ept slot ;; if remote x =? rem then ret (Some slot) else search
               | None => search
               end) ;;
  match e with
  | Some slot => drop_ept slot
  | None => ret tt
  end ;;;
  ret NO_ERROR.

Definition handle_ctrl_msg (rem ns_data msg_len : Z) : M W (option Z) :=
  assert_ (negb (ns_data =? 0)) ;;;
  if msg_len <? sizeof_ctrl_msg_hdr then tret ERR_NOT_VALID
  else
    msg_type <- on_dev (load32 ns_data) ;;
    msg_body_len <- on_dev (load32 (ns_data + 4)) ;;
    let ns_msg_body := ns_data + sizeof_ctrl_msg_hdr in
    if negb (sizeof_ctrl_msg_hdr + msg_body_len =? msg_len) then tret ERR_NOT_VALID
    else if msg_type =? TIPC_CTRL_MSGTYPE_CONN_REQ then
      if negb (msg_body_len =? sizeof_conn_req_body) then tret ERR_NOT_VALID else handle_conn_req rem ns_msg_body
    else if msg_type =? TIPC_CTRL_MSGTYPE_DISC_REQ then
      if negb (msg_body_len =? sizeof_disc_req_body) then tret ERR_NOT_VALID else tlift (handle_disc_req rem ns_msg_body)
    else tret ERR_NOT_VALID.

Definition handle_chan_msg (rem local ns_data len : Z) : M world Z :=
  e <- lookup_ept local ;;
  match e with
  | Some slot =>
      x <- get_ept slot ;;
      if remote x =? rem then
        match ept_chan x with
        | Some chan => on_ipc (ipc_send_msg (Some chan) (MsgKern 1 (Some [Iovec.IovecKern ns_data len]) 0))
        | None => ret ERR_NOT_FOUND
        end
      else ret ERR_NOT_FOUND
  | None => ret ERR_NOT_FOUND
  end.

Definition RX_FLAGS : Z := Z.lor MAP_FLAGS SmCall.SmCall.ARCH_MMU_FLAG_PERM_RO.

(** The result is the return code and the buffer. *)
Definition handle_rx_msg (buf : Vqueue.vqueue_buf) : M W (option (Z * Vqueue.vqueue_buf)) :=
  let l := Vqueue.in_iovs buf in
  if Vqueue.iused l =? 0 then tret (ERR_INVALID_ARGS, buf)
  else
    d <- on_dev get_dev ;;
    m <- on_dev (map_iovs TIPC_VQ_RX l RX_FLAGS (guest d)) ;;
    if negb (m.1 =? 0) then tret (m.1, Vqueue.VqBuf (Vqueue.head buf) m.2 (Vqueue.out_iovs buf))
    else
      v <- deref (head (Vqueue.iovs m.2)) ;;
      let ns_hdr := Vqueue.base v in
      r <~ (if Vqueue.iov_len v <? sizeof_tipc_hdr then tret ERR_INVALID_ARGS
            else
              ns_data_len <- on_dev (load16 (ns_hdr + 12)) ;;
              src_addr <- on_dev (load32 ns_hdr) ;;
              dst_addr <- on_dev (load32 (ns_hdr + 4)) ;;
              let ns_data := ns_hdr + sizeof_tipc_hdr in
              if negb (ns_data_len + sizeof_tipc_hdr =? Vqueue.iov_len v) then tret ERR_INVALID_ARGS
              else if dst_addr =? TIPC_CTRL_ADDR then handle_ctrl_msg src_addr ns_data ns_data_len
              else tlift (on_dev (handle_chan_msg src_addr dst_addr ns_data ns_data_len))) ;;
      l <- on_dev (unmap_iovs TIPC_VQ_RX m.2) ;;
      tret (r, Vqueue.VqBuf (Vqueue.head buf) l (Vqueue.out_iovs buf)).

(** The loop of [tipc_rx_thread_func]. *)
Fixpoint rx_loop (fuel : nat) (buf : Vqueue.vqueue_buf) : M W (option unit) :=
  match fuel with
  | O => ret None
  | S fuel =>
      d <- on_dev get_dev ;;
      if rx_stop d then tret tt
      else
        event_wait others ;;;
        r <~ get_avail TIPC_VQ_RX buf ;;
        if r.1 =? ERR_CHANNEL_CLOSED then tret tt
        else if r.1 =? ERR_NOT_ENOUGH_BUFFER then rx_loop fuel r.2
        else
          r <~ (if r.1 =? NO_ERROR then handle_rx_msg r.2 else tret r) ;;
          e <- on_dev (on_vq TIPC_VQ_RX (Vqueue.vqueue_add_buf ns r.2 r.1)) ;;
          if e =? ERR_CHANNEL_CLOSED then tret tt
          else if negb (e =? NO_ERROR) then panic
          else rx_loop fuel r.2
  end.

Definition tipc_rx_thread_func (fuel : nat) : M W (option Z) := rx_loop fuel in_buf ~;; tret 0.

(** ** Transmitting *)

(** [tx_data_cb]: the message [id] of [chan] is read into the buffer and put
    back. *)
Definition tx_data_cb (chan : hptr) (id : Z) (dst len : Z) : M world Z :=
  assert_ (negb (dst =? 0)) ;;;
  rc <- on_ipc (ipc_read_msg (Some chan) id 0 (MsgKern 1 (Some [Iovec.IovecKern dst len]) 0)) ;;
  _ <- on_ipc (ipc_put_msg (Some chan) id) ;;
  ret rc.

(** The loop of [handle_tx_msg]. *)
Fixpoint tx_msg_loop (fuel : nat) (chan : hptr) (rem : Z) : M W (option unit) :=
  match fuel with
  | O => ret None
  | S fuel =>
      r <- on_dev (on_ipc (ipc_get_msg (Some chan))) ;;
      if r.1 =? ERR_NO_MSG then tret tt
      else if negb (r.1 =? NO_ERROR) then panic
      else
        inf <- deref r.2 ;;
        _ <~ tipc_send_data 0 rem (tx_data_cb chan (info_id inf)) (u16 (info_len inf)) true ;;
        tx_msg_loop fuel chan rem
  end.

Definition handle_tx_msg (fuel : nat) (chan : hptr) : M W (option unit) :=
  e <- on_dev (get_cookie_ept chan) ;;
  match e with
  | None => tret tt
  | Some slot => x <- on_dev (get_ept slot) ;; tx_msg_loop fuel chan (remote x)
  end.

Definition handle_hup (chan : hptr) : M W (option unit) :=
  e <- on_dev (get_cookie_ept chan) ;;
  match e with
  | None => tret tt
  | Some slot =>
      x <- on_dev (get_ept slot) ;;
      let rem := remote x in
      let local := ept_to_addr slot in
      drop_chan chan ;;;
      on_dev (free_local_addr local) ;;;
      send_disc_req local rem ~;; tret tt
  end.

Definition handle_ready (chan : hptr) : M W (option unit) :=
  e <- on_dev (get_cookie_ept chan) ;;
  match e with
  | None => tret tt
  | Some slot =>
      x <- on_dev (get_ept slot) ;;
      send_conn_rsp (ept_to_addr slot) (remote x) 0 IPC_CHAN_MAX_BUF_SIZE 1 ~;; tret tt
  end.

(** One event of the loop of [handle_tx], after the wait. *)
Definition tx_event (fuel : nat) (chan : hptr) (event : Z) : M W (option unit) :=
  assert_ (ipc_is_channel chan) ;;;
  (if has_flag event IPC_HANDLE_POLL_READY then handle_ready chan
   else if has_flag event IPC_HANDLE_POLL_MSG then handle_tx_msg fuel chan
   else if has_flag event IPC_HANDLE_POLL_HUP then handle_hup chan
   else tret tt) ~;;
  tlift (on_dev (on_ipc (decref chan))).

(** [ev] is the event on the stack of the wait; [sched] has for each round
    how the waits in it go. *)
Fixpoint handle_tx (fuel : nat) (ev : Z) (sched : list (list (Z * (W -> W)))) : M W (option unit) :=
  match sched with
  | [] => ret None
  | waits :: sched =>
      r <~ handle_list_wait ev waits ;;
      if r.1 =? ERR_NOT_FOUND then tret tt
      else if r.1 <? 0 then panic
      else
        f <- deref r.2 ;;
        tx_event fuel f.1 f.2 ~;; handle_tx fuel ev sched
  end.

Fixpoint tx_thread_loop (fuel : nat) (ev : Z) (rounds : list (list (list (Z * (W -> W))))) : M W (option unit) :=
  match rounds with
  | [] => ret None
  | sched :: rounds =>
      d <- on_dev get_dev ;;
      if tx_stop d then tret tt
      else
        event_wait others ;;;
        on_dev (upd_dev (set_have_handles false)) ;;;   (* EVENT_FLAG_AUTOUNSIGNAL *)
        handle_tx fuel ev sched ~;; tx_thread_loop fuel ev rounds
  end.

Definition tipc_tx_thread_func (fuel : nat) (ev : Z) (rounds : list (list (list (Z * (W -> W))))) : M W (option Z) :=
  tx_thread_loop fuel ev rounds ~;; tret 0.

(** ** Reset *)

(** [n] slots are left from [slot]. *)
Fixpoint close_loop (n : nat) (slot : Z) : M W unit :=
  match n with
  | O => ret tt
  | S n =>
      d <- on_dev get_dev ;;
      used <- deref (bitmap_test (inuse d) slot) ;;
      (if used then
         x <- on_dev (get_ept slot) ;;
         match ept_chan x with
         | Some chan => drop_chan chan ;;; on_dev (free_local_addr (ept_to_addr slot))
         | None => ret tt
         end
       else ret tt) ;;;
      close_loop n (slot + 1)
  end.

(** [join_rx] and [join_tx]: the results of the two [thread_join]s. *)
Definition tipc_dev_reset (join_rx join_tx : Z) : M W Z :=
  d <- on_dev get_dev ;;
  if vstate d =? VDEV_STATE_RESET then ret NO_ERROR
  else
    on_dev (upd_dev (fun d => set_rx (rx_thread d) true d)) ;;;
    on_dev (on_vq TIPC_VQ_RX (Vqueue.vqueue_signal_avail ns)) ;;;
    event_wait others ;;;
    (if negb (join_rx =? NO_ERROR) then panic else ret tt) ;;;
    on_dev (upd_dev (set_rx None false)) ;;;
    on_dev (upd_dev (fun d => set_tx (tx_thread d) true d)) ;;;
    close_loop (Z.to_nat TIPC_ADDR_MAX_NUM) 0 ;;;
    on_dev (upd_dev (set_have_handles true)) ;;;
    on_dev (on_vq TIPC_VQ_TX (Vqueue.vqueue_signal_avail ns)) ;;;
    event_wait others ;;;
    (if negb (join_tx =? NO_ERROR) then panic else ret tt) ;;;
    on_dev (upd_dev (set_tx None false)) ;;;
    on_dev (on_vq TIPC_VQ_RX Vqueue.vqueue_destroy) ;;;
    on_dev (on_vq TIPC_VQ_TX Vqueue.vqueue_destroy) ;;;
    on_dev (upd_dev (set_vstate VDEV_STATE_RESET)) ;;;
    ret NO_ERROR.

(** ** The operations of the virtio device

    The fields of [struct tipc_vdev_descr], by their offset in its bytes. *)
Definition field32 (bs : list Z) (off : nat) : Z := le32 (take 4 (drop off bs)).
Definition field8 (bs : list Z) (off : nat) : Z := nth off bs 0.
Definition off_notifyid : nat := 8.
Definition descr_type (bs : list Z) : Z := field32 bs 0.
Definition descr_id (bs : list Z) : Z := field32 bs 4.
Definition descr_status (bs : list Z) : Z := field8 bs 24.
Definition descr_num_of_vrings (bs : list Z) : Z := field8 bs 25.

(** [struct fw_rsc_vdev_vring]. *)
Record vring_descr := VringDescr { vr_da : Z; vr_align : Z; vr_num : Z; vr_notifyid : Z; vr_reserved : Z }.
Definition descr_vring (bs : list Z) (i : nat) : vring_descr :=
  let o := (28 + 20 * i)%nat in
  VringDescr (field32 bs o) (field32 bs (o + 4)) (field32 bs (o + 8)) (field32 bs (o + 12)) (field32 bs (o + 16)).

Definition tipc_descr_size : M world Z := d <- get_dev ;; ret (Z.of_nat (length (descr d))).

(** [tipc_get_vdev_descr]: the bytes that are stored at the destination, and
    the size. *)
Definition tipc_get_vdev_descr : M world (list Z * Z) :=
  d <- get_dev ;;
  ret (list_inserts off_notifyid (bytes32 (devid d)) (descr d), Z.of_nat (length (descr d))).

Definition validate_descr (bs : list Z) : Z :=
  if negb (descr_type bs =? RSC_VDEV) then ERR_INVALID_ARGS
  else if negb (descr_id bs =? VIRTIO_ID_TIPC) then ERR_INVALID_ARGS
  else if negb (descr_num_of_vrings bs =? TIPC_VQ_NUM) then ERR_INVALID_ARGS
  else if negb (descr_status bs =? Z.lor (Z.lor VIRTIO_CONFIG_S_ACKNOWLEDGE VIRTIO_CONFIG_S_DRIVER) VIRTIO_CONFIG_S_DRIVER_OK)
  then ERR_INVALID_ARGS
  else NO_ERROR.

(** [notify_cbs]: the two callbacks, by numbers; both signal the queue. *)
Definition notify_cbs (i : nat) : Z := Z.of_nat i + 1.
Definition vq_notify_cb (cb priv : Z) : M Vqueue.vst Z := Vqueue.vqueue_signal_avail ns ;;; ret 0.

(** [while (vring_cnt--) vqueue_destroy(...)]. *)
Fixpoint undo_vqs (i : nat) : M world unit :=
  match i with O => ret tt | S i => on_vq i Vqueue.vqueue_destroy ;;; undo_vqs i end.

(** [n] rings are left from ring [i]; [priv] is the address of the device. *)
Fixpoint init_vqs (n i : nat) (bs : list Z) (priv : Z) : M world Z :=
  match n with
  | O => ret NO_ERROR
  | S n =>
      d <- get_dev ;;
      let v := descr_vring bs i in
      let pa64 := Z.lor (u64 (Z.shiftl (vr_reserved v) 32)) (vr_da v) in
      r <- on_vq i (Vqueue.vqueue_init (vr_notifyid v) pa64 (vr_num v) (vr_align v) priv (notify_cbs i) 0 (guest d)) ;;
      if negb (r =? 0) then undo_vqs i ;;; ret r else init_vqs n (S i) bs priv
  end.

(** [thr]: the threads that are created. *)
Definition tipc_dev_probe (bs : list Z) (priv : Z) (thr : option Z * option Z) : M W (option Z) :=
  d <- on_dev get_dev ;;
  if negb (vstate d =? VDEV_STATE_RESET) then tret ERR_BAD_STATE
  else
    let r := validate_descr bs in
    if negb (r =? NO_ERROR) then tret r
    else
      r <- on_dev (init_vqs (Z.to_nat (descr_num_of_vrings bs)) 0 bs priv) ;;
      if negb (r =? NO_ERROR) then tret r
      else
        on_dev (upd_dev (fun d => set_rx thr.1 (rx_stop d) d)) ;;;
        on_dev (upd_dev (fun d => set_tx thr.2 (tx_stop d) d)) ;;;
        r <~ go_online ;;
        (if r =? NO_ERROR then on_dev (upd_dev (set_vstate VDEV_STATE_ACTIVE)) else ret tt) ;;;
        tret r.

Definition tipc_vdev_kick_vq (vqid : Z) : M world Z :=
  w <- get ;;
  tx <- deref (w_vqs w !! TIPC_VQ_TX) ;;
  if vqid =? Vqueue.vq_id tx then on_vq TIPC_VQ_TX (Vqueue.vqueue_notify vq_notify_cb)
  else
    rx <- deref (w_vqs w !! TIPC_VQ_RX) ;;
    if vqid =? Vqueue.vq_id rx then on_vq TIPC_VQ_RX (Vqueue.vqueue_notify vq_notify_cb) else ret ERR_NOT_FOUND.
End Device.

(** [create_tipc_device], without the registration on the bus: the device
    that [calloc] and the assignments leave. *)
Definition tipc_device_new (bs : list Z) (u : uuid) (gst : Z) : tipc_dev :=
  Dev 0 VDEV_STATE_RESET gst u bs (replicate (Z.to_nat TIPC_ADDR_MAX_NUM) (Ept 0 None)) (bitmap_zero TIPC_ADDR_MAX_NUM)
    false None None false false.

End TipcDev.
