(* ===== verification/TipcDevInv.v ===== *)
(** * The endpoint table of a tipc device stays consistent

    The bitmap, the endpoints, the handle list and the cookies of the channels
    describe the same connections, whatever the non-secure world sends. *)

From S2P Require Import Prelude Bitmap Iovec MsgQueue Handle Ipc IpcInv IpcKeep IpcSafe IpcMsg HandleList IpcHandle.
From S2P Require Import IpcTouch EptTable Vqueue TipcDev.

Module TipcDevInv.
Import Bitmap Iovec MsgQueue Handle Ipc IpcInv IpcKeep IpcSafe IpcMsg HandleList IpcHandle IpcTouch EptTable TipcDev.

(** ** Runs in the parts of the world *)

Lemma runs_on_dev {A} (m : M world A) w l (Q : A -> W -> Prop) :
  runs m w (fun a w' => Q a (w', l)) -> runs (on_dev m) (w, l) Q.
Proof. unfold runs, on_dev, on_obj. simpl. by destruct (m w). Qed.

Lemma safely_on_dev {A} (m : M world A) w l (Q : A -> W -> Prop) :
  safely m w (fun a w' => Q a (w', l)) -> safely (on_dev m) (w, l) Q.
Proof. unfold safely, on_dev, on_obj. simpl. by destruct (m w). Qed.

Lemma runs_on_ipc {A} (m : M heap A) w (Q : A -> world -> Prop) :
  runs m (w_heap w) (fun a h => Q a (set_heap h w)) -> runs (on_ipc m) w Q.
Proof. unfold runs, on_ipc. by destruct (m (w_heap w)). Qed.

Lemma runs_bind' {S A B} (m : M S A) (f : A -> M S B) s Q :
  runs m s (fun a s' => runs (f a) s' Q) -> runs (bind m f) s Q.
Proof. apply runs_bind. Qed.

Lemma set_heap_id w : set_heap (w_heap w) w = w.
Proof. by destruct w. Qed.

(** The handle lists of the device work on the heap in it. *)
Definition at_chan (c : Z) (k : handle -> Prop) (w w' : world) : Prop :=
  exists h y, w' = set_heap h w /\ touched c y (w_heap w) h /\ k y.

Lemma dev_list_add c x w l Q : chans (w_heap w) !! c = Some x -> HChan c ∉ handles l ->
  (forall w', at_chan c (fun y => refcnt y = refcnt (c_handle x) + 1 /\ cookie y = cookie (c_handle x) /\
       guest_id y = guest_id (c_handle x)) w w' ->
     Q tt (w', HList (handles l ++ [HChan c]) (wait_event l))) ->
  runs (handle_list_add false (HChan c)) (w, l) Q.
Proof.
  intros Hx Hn HQ. eapply (list_add_run w_heap set_heap (@on_ipc)) with (x := x); auto using set_heap_id, runs_on_ipc.
Qed.

(** Loads from kernel memory. *)
Lemma memcpy_from_run a n bs w : kread a (Z.to_nat n) (kmem_of w) = Some bs ->
  on_mem (memcpy_from a n) w = Done bs w.
Proof.
  intros Hr. unfold on_mem, on_ipc, on_user, memcpy_from. unfold kmem_of in Hr. rewrite Hr.
  by destruct w as [[] ? ? ? ? ? ?].
Qed.

Lemma load32_run a bs w : kread a 4 (kmem_of w) = Some bs -> load32 a w = Done (le32 bs) w.
Proof. intros Hr. unfold load32, bind. by rewrite (memcpy_from_run a 4 bs). Qed.

Lemma load16_run a bs w : kread a 2 (kmem_of w) = Some bs -> load16 a w = Done (le16 bs) w.
Proof. intros Hr. unfold load16, bind. by rewrite (memcpy_from_run a 2 bs). Qed.

Lemma runs_eq {S A} (m : M S A) s a s' (Q : A -> S -> Prop) : m s = Done a s' -> Q a s' -> runs m s Q.
Proof. intros Hm HQ. unfold runs. by rewrite Hm. Qed.

Section Inv.
Context (base : Z).

(** ** The invariant *)

(** The table of the device is consistent with its handle list and the heap. *)
Definition dev_ok (w : world) (l : handle_list hptr) : Prop :=
  table_ok ept_chan (Ept 0 None) 256 (ept_ptr base) (w_heap w) (epts (w_dev w)) (inuse (w_dev w)) (handles l).

Lemma d_inv w l : dev_ok w l -> inv quiet (w_heap w).
Proof. intros Hd. apply (t_inv _ _ _ _ _ _ _ _ Hd). Qed.

Lemma d_len w l : dev_ok w l -> length (epts (w_dev w)) = 256%nat.
Proof. intros Hd. apply (t_len _ _ _ _ _ _ _ _ Hd). Qed.

Lemma d_wf w l : dev_ok w l -> bitmap_wf (inuse (w_dev w)) 256.
Proof. intros Hd. apply (t_wf _ _ _ _ _ _ _ _ Hd). Qed.

Lemma d_ept w l : dev_ok w l -> forall i e, epts (w_dev w) !! i = Some e ->
  if bit_at (inuse (w_dev w)) (Z.of_nat i) then live_at ept_chan (ept_ptr base) (w_heap w) i e else e = Ept 0 None.
Proof. intros Hd. apply (t_ept _ _ _ _ _ _ _ _ Hd). Qed.

(** What the table says of an address: the remote address and the channel. *)
Definition conn_at (d : tipc_dev) (a : Z) : option (Z * hptr) :=
  if addr_to_slot a <? 256 then
    e ← epts d !! Z.to_nat (addr_to_slot a); c ← ept_chan e; Some (remote e, c)
  else None.

Lemma slot_range a : 0 <= addr_to_slot a < 2 ^ 32.
Proof. apply uwrap_range. lia. Qed.

Lemma slot_addr i : 0 <= i < 256 -> addr_to_slot (slot_to_addr i) = i.
Proof.
  intros Hi. unfold addr_to_slot, slot_to_addr, TIPC_ADDR_BASE, u32. rewrite (uwrap_small 32 (i + 1000)) by lia.
  rewrite uwrap_small; lia.
Qed.

Lemma ept_lookup w l i : dev_ok w l -> 0 <= i < 256 -> exists e, epts (w_dev w) !! Z.to_nat i = Some e.
Proof. intros Hd. apply (table_lookup ept_chan (Ept 0 None) 256 (ept_ptr base) _ _ _ _ i Hd). Qed.

Lemma bit_run w l i : dev_ok w l -> 0 <= i < 256 ->
  bitmap_test (inuse (w_dev w)) i = Some (bit_at (inuse (w_dev w)) i).
Proof. intros Hd. apply (table_test ept_chan (Ept 0 None) 256 (ept_ptr base) _ _ _ _ i Hd). Qed.

(** The channel of an endpoint that is in use. *)
Lemma ept_used w l i e : dev_ok w l -> epts (w_dev w) !! i = Some e ->
  bit_at (inuse (w_dev w)) (Z.of_nat i) = bool_decide (is_Some (ept_chan e)).
Proof. intros Hd. apply (table_used ept_chan (Ept 0 None) 256 (ept_ptr base) eq_refl _ _ _ _ i e Hd). Qed.

Lemma listed w l x : dev_ok w l -> x ∈ handles l <-> exists i e, epts (w_dev w) !! i = Some e /\ ept_chan e = Some x.
Proof. intros Hd. apply (table_listed ept_chan (Ept 0 None) 256 (ept_ptr base) _ _ _ _ x Hd). Qed.

Lemma listed_live w l x : dev_ok w l -> x ∈ handles l ->
  exists i e c z, epts (w_dev w) !! i = Some e /\ ept_chan e = Some x /\ x = HChan c /\ chans (w_heap w) !! c = Some z /\
    cookie (c_handle z) = ept_ptr base (Z.of_nat i) /\ 2 <= refcnt (c_handle z).
Proof. intros Hd. eapply (table_live ept_chan (Ept 0 None) 256 (ept_ptr base) eq_refl); exact Hd. Qed.

(** ** Steps that leave the table alone *)

Lemma dev_ok_others w l h' c : dev_ok w l -> inv quiet h' -> others_kept c (w_heap w) h' -> HChan c ∉ handles l ->
  dev_ok (set_heap h' w) l.
Proof. intros Hd. apply (table_others ept_chan (Ept 0 None) 256 (ept_ptr base) (w_heap w)), Hd. Qed.

(** Fields of the device that the table does not depend on. *)
Lemma dev_ok_dev w l d : dev_ok w l -> epts d = epts (w_dev w) -> inuse d = inuse (w_dev w) -> dev_ok (set_dev d w) l.
Proof. intros Hd He Hb. unfold dev_ok. simpl. by rewrite He, Hb. Qed.

Lemma dev_ok_same w w' l : dev_ok w l -> w_heap w' = w_heap w -> w_dev w' = w_dev w -> dev_ok w' l.
Proof. intros Hok Hh Hd. unfold dev_ok. by rewrite Hh, Hd. Qed.

(** ** Looking up an address *)

Lemma get_ept_run w i e (Q : tipc_ept -> world -> Prop) : epts (w_dev w) !! Z.to_nat i = Some e -> Q e w -> runs (get_ept i) w Q.
Proof. intros He HQ. unfold get_ept, get_dev. apply runs_bind'. unfold runs at 1, gets. eapply runs_deref; eauto. Qed.

Lemma lookup_ept_run w l a (Q : option Z -> world -> Prop) : dev_ok w l ->
  Q (if conn_at (w_dev w) a then Some (addr_to_slot a) else None) w -> runs (lookup_ept a) w Q.
Proof.
  intros Hd HQ. unfold lookup_ept, conn_at in *. pose proof (slot_range a) as Hr. set (s := addr_to_slot a) in *.
  change TIPC_ADDR_MAX_NUM with 256. destruct (s <? 256) eqn:E; zbool; [|by apply runs_ret].
  destruct (ept_lookup w l s Hd ltac:(lia)) as [e He]. rewrite He in HQ. simpl in HQ.
  apply runs_bind'. unfold get_dev, runs at 1, gets. apply runs_bind'.
  eapply runs_deref; [apply (bit_run w l); [done|lia]|].
  pose proof (ept_used w l _ e Hd He) as Hb. rewrite Z2Nat.id in Hb by lia. rewrite Hb.
  apply runs_ret. destruct (ept_chan e); simpl in *; done.
Qed.

(** ** Adding and removing an endpoint *)

Definition with_ept (i : Z) (e : tipc_ept) (b : bitmap) (d : tipc_dev) : tipc_dev := set_ept i e (set_inuse b d).

Lemma conn_at_with i e b d a : 0 <= i < 256 -> length (epts d) = 256%nat ->
  conn_at (with_ept i e b d) a =
    if addr_to_slot a =? i then (c ← ept_chan e; Some (remote e, c)) else conn_at d a.
Proof.
  intros Hi Hl. unfold conn_at. simpl epts. pose proof (slot_range a). set (s := addr_to_slot a) in *.
  destruct (s =? i) eqn:E; zbool.
  - subst i. rewrite (proj2 (Z.ltb_lt s 256)) by lia. rewrite list_lookup_insert_eq by lia. done.
  - destruct (s <? 256) eqn:E2; [|done]. rewrite list_lookup_insert_ne by lia. done.
Qed.

Lemma alloc_run w l rem chan (Q : Z -> world -> Prop) : dev_ok w l ->
  ((forall k, 0 <= k < 256 -> bit_at (inuse (w_dev w)) k = true) -> Q 0 w) ->
  (forall i b, 0 <= i < 256 -> bit_at (inuse (w_dev w)) i = false ->
     (forall k, 0 <= k < i -> bit_at (inuse (w_dev w)) k = true) -> bit_set 256 i true (inuse (w_dev w)) b ->
     Q (slot_to_addr i) (set_dev (with_ept i (Ept rem (Some chan)) b (w_dev w)) w)) ->
  runs (alloc_local_addr rem chan) w Q.
Proof.
  intros Hd Hfull Hfree. unfold alloc_local_addr. apply runs_bind'. unfold get_dev, runs at 1, gets.
  destruct (table_alloc _ _ _ _ _ _ _ _ Hd) as (r & Hr & [[-> Hall]|(Hb & Hz & Hlow & b & Hs & Hbs)]).
  - apply runs_bind'. eapply runs_deref; [exact Hr|]. apply runs_ret, Hfull. done.
  - apply runs_bind'. eapply runs_deref; [exact Hr|]. rewrite (proj2 (Z.leb_le 0 r)) by lia.
    apply runs_bind'. eapply runs_deref; [exact Hs|]. apply runs_bind'. unfold upd_dev, runs at 1, modify.
    apply runs_bind'. destruct (ept_lookup w l r Hd Hb) as [e He]. eapply get_ept_run; [exact He|].
    apply runs_bind'. unfold runs at 1. apply runs_ret. by apply Hfree.
Qed.

Lemma free_run w l i (Q : unit -> world -> Prop) : dev_ok w l -> 0 <= i < 256 ->
  forall h, (forall b, bit_set 256 i false (inuse (w_dev w)) b -> Q tt (set_dev (with_ept i (Ept 0 None) b (w_dev w)) (set_heap h w))) ->
  runs (free_local_addr (slot_to_addr i)) (set_heap h w) Q.
Proof.
  intros Hd Hi h HQ. unfold free_local_addr. rewrite slot_addr by done. rewrite (proj2 (Z.ltb_lt i _)) by (unfold TIPC_ADDR_MAX_NUM; lia).
  apply runs_bind'. unfold get_dev, runs at 1, gets.
  destruct (table_clear _ _ _ _ _ _ _ _ i Hd Hi) as (b & Hs & Hbs).
  apply runs_bind'. eapply runs_deref; [exact Hs|]. apply runs_bind'. unfold upd_dev, runs at 1, modify.
  apply runs_bind'. destruct (ept_lookup w l i Hd Hi) as [e He]. eapply get_ept_run; [exact He|].
  unfold runs. by apply HQ.
Qed.

Lemma dev_ok_add w l i b rem c z h' we : dev_ok w l -> 0 <= i < 256 -> bit_at (inuse (w_dev w)) i = false ->
  bit_set 256 i true (inuse (w_dev w)) b -> inv quiet h' -> others_kept c (w_heap w) h' -> HChan c ∉ handles l ->
  chans h' !! c = Some z -> cookie (c_handle z) = ept_ptr base i -> 2 <= refcnt (c_handle z) ->
  dev_ok (set_dev (with_ept i (Ept rem (Some (HChan c))) b (w_dev w)) (set_heap h' w)) (HList (handles l ++ [HChan c]) we).
Proof.
  intros Hd Hi Hf Hb Hinv Ho Hc Hz Hco Hr. apply (table_add ept_chan (Ept 0 None) 256 (ept_ptr base) eq_refl _ _ _ _ i b _ c z h' Hd); auto.
Qed.

Lemma dev_ok_remove w l i b e c h' we : dev_ok w l -> 0 <= i < 256 -> epts (w_dev w) !! Z.to_nat i = Some e ->
  ept_chan e = Some (HChan c) -> bit_set 256 i false (inuse (w_dev w)) b -> inv quiet h' -> others_kept c (w_heap w) h' ->
  dev_ok (set_dev (with_ept i (Ept 0 None) b (w_dev w)) (set_heap h' w)) (HList (remove_first (HChan c) (handles l)) we).
Proof.
  intros Hd Hi He Hec Hb Hinv Ho. apply (table_remove ept_chan (Ept 0 None) 256 (ept_ptr base) eq_refl _ _ _ _ i b e c h' Hd); auto.
Qed.

(** ** Dropping a connection *)

Lemma drop_run w l c x (Q : unit -> W -> Prop) : inv quiet (w_heap w) -> chans (w_heap w) !! c = Some x ->
  2 <= refcnt (c_handle x) -> HChan c ∈ handles l ->
  (forall h', closed c x (w_heap w) h' ->
     Q tt (set_heap h' w, HList (remove_first (HChan c) (handles l)) (wait_event l))) ->
  runs (drop_chan (HChan c)) (w, l) Q.
Proof.
  intros Hi Hx Hr Hin HQ.
  eapply (drop_listed_run w_heap set_heap (@on_ipc)); eauto using runs_on_ipc, set_heap_id.
Qed.

Lemma drop_ept_run w l i e c x (Q : unit -> W -> Prop) : dev_ok w l -> 0 <= i < 256 ->
  epts (w_dev w) !! Z.to_nat i = Some e -> ept_chan e = Some (HChan c) -> chans (w_heap w) !! c = Some x ->
  (forall h' b, closed c x (w_heap w) h' -> bit_set 256 i false (inuse (w_dev w)) b ->
     let w' := set_dev (with_ept i (Ept 0 None) b (w_dev w)) (set_heap h' w) in
     let l' := HList (remove_first (HChan c) (handles l)) (wait_event l) in
     dev_ok w' l' -> Q tt (w', l')) ->
  runs (drop_chan (HChan c) ;;; on_dev (free_local_addr (ept_to_addr i))) (w, l) Q.
Proof.
  intros Hd Hi He Hc Hx HQ. assert (Hin : HChan c ∈ handles l) by (apply (listed w l); eauto).
  destruct (listed_live _ _ _ Hd Hin) as (j & e' & c' & z & _ & _ & [= <-] & Hz & _ & Hr).
  assert (z = x) by congruence. subst z.
  apply runs_bind'. eapply drop_run; [apply Hd|exact Hx|done|exact Hin|]. intros h' Hcl.
  apply runs_on_dev. eapply free_run; [exact Hd|done|]. intros b Hb. apply HQ; [done|done|].
  destruct (closed_others _ _ _ _ Hcl) as [Hi' Ho]. by eapply dev_ok_remove.
Qed.

(** ** The disconnect request *)

(** The endpoint that a request of [rem] for [target] takes down: the one that
    [target] names if it belongs to [rem], else the first one of [rem]. *)
Definition of_remote (d : tipc_dev) (rem i : Z) : Prop := exists c, conn_at d (slot_to_addr i) = Some (rem, c).

Definition victim (d : tipc_dev) (rem target : Z) (o : option Z) : Prop :=
  match o with
  | Some i => 0 <= i < 256 /\ of_remote d rem i /\
      (addr_to_slot target = i \/
       (~ (addr_to_slot target < 256 /\ of_remote d rem (addr_to_slot target)) /\ forall k, 0 <= k < i -> ~ of_remote d rem k))
  | None => forall k, 0 <= k < 256 -> ~ of_remote d rem k
  end.

Lemma of_remote_ept w l rem i e : dev_ok w l -> 0 <= i < 256 -> epts (w_dev w) !! Z.to_nat i = Some e ->
  of_remote (w_dev w) rem i <-> bit_at (inuse (w_dev w)) i = true /\ remote e = rem.
Proof.
  intros Hd Hi He. unfold of_remote, conn_at. rewrite slot_addr, (proj2 (Z.ltb_lt i 256)) by lia. rewrite He. simpl.
  pose proof (ept_used _ _ _ _ Hd He) as Hb. rewrite Z2Nat.id in Hb by lia. rewrite Hb.
  destruct (ept_chan e) as [c|]; simpl; split.
  - intros (y & [= <- _]). done.
  - intros [_ <-]. eauto.
  - by intros (y & ?).
  - by intros [? _].
Qed.

Lemma search_run w l rem n i (Q : option Z -> world -> Prop) : dev_ok w l -> 0 <= i -> i + Z.of_nat n = 256 ->
  (forall o, match o with
             | Some j => i <= j < 256 /\ of_remote (w_dev w) rem j /\ (forall k, i <= k < j -> ~ of_remote (w_dev w) rem k)
             | None => forall k, i <= k < 256 -> ~ of_remote (w_dev w) rem k
             end -> Q o w) ->
  runs (search_ept n i rem) w Q.
Proof.
  intros Hd. revert i. induction n as [|n IH]; intros i Hi Hn HQ; simpl; [apply runs_ret, HQ; lia|].
  destruct (ept_lookup w l i Hd ltac:(lia)) as [e He]. pose proof (of_remote_ept w l rem i e Hd ltac:(lia) He) as Hof.
  apply runs_bind'. unfold get_dev, runs at 1, gets. apply runs_bind'. eapply runs_deref; [apply (bit_run w l); [done|lia]|].
  assert (Hnext : ~ of_remote (w_dev w) rem i -> runs (search_ept n (i + 1) rem) w Q).
  { intros Hno. apply IH; [lia|lia|]. intros [j|] Ho.
    - destruct Ho as (Hj & Hr & Hlow). apply HQ. split; [lia|]. split; [done|]. intros k Hk.
      destruct (decide (k = i)) as [->|]; [done|]. apply Hlow. lia.
    - apply HQ. intros k Hk. destruct (decide (k = i)) as [->|]; [done|]. apply Ho. lia. }
  destruct (bit_at (inuse (w_dev w)) i) eqn:Eb; [|apply Hnext; rewrite Hof; by intros [? _]].
  apply runs_bind'. eapply get_ept_run; [exact He|]. destruct (remote e =? rem) eqn:Er; zbool.
  - apply runs_ret, HQ. split; [lia|]. split; [by apply Hof|]. intros k Hk. lia.
  - apply Hnext. rewrite Hof. by intros [_ ?].
Qed.

(** What a disconnect request does to the device. *)
Definition disconnected (w : world) (l : handle_list hptr) (rem target : Z) (s' : W) : Prop :=
  exists o, victim (w_dev w) rem target o /\
    match o with
    | None => s' = (w, l)
    | Some i => exists c x, conn_at (w_dev w) (slot_to_addr i) = Some (rem, HChan c) /\ chans (w_heap w) !! c = Some x /\
        closed c x (w_heap w) (w_heap s'.1) /\ handles s'.2 = remove_first (HChan c) (handles l) /\
        (forall a, conn_at (w_dev s'.1) a = if addr_to_slot a =? i then None else conn_at (w_dev w) a)
    end.

Lemma drop_found w l rem i target (Q : unit -> W -> Prop) : dev_ok w l -> victim (w_dev w) rem target (Some i) ->
  (forall s', dev_ok s'.1 s'.2 -> disconnected w l rem target s' -> w_vqs s'.1 = w_vqs w -> Q tt s') ->
  runs (drop_ept i) (w, l) Q.
Proof.
  intros Hd Hv HQ. pose proof Hv as (Hi & Hof & _). destruct (ept_lookup w l i Hd Hi) as [e He].
  pose proof (proj1 (of_remote_ept w l rem i e Hd Hi He) Hof) as [Hb Hrem].
  pose proof (d_ept _ _ Hd _ e He) as Hl. rewrite Z2Nat.id, Hb in Hl by lia. destruct Hl as (c & x & Hc & Hx & _).
  unfold drop_ept. apply runs_bind'. apply runs_on_dev. eapply get_ept_run; [exact He|]. rewrite Hc.
  eapply drop_ept_run; [exact Hd|exact Hi|exact He|exact Hc|exact Hx|].
  intros h' b Hcl Hbs w' l' Hd'. apply HQ; [done| |done]. exists (Some i). split; [done|]. exists c, x.
  assert (Hlen := d_len _ _ Hd). split; [|split; [done|split; [exact Hcl|split; [done|]]]].
  - unfold conn_at. rewrite slot_addr, (proj2 (Z.ltb_lt i 256)) by lia. rewrite He. simpl. rewrite Hc. simpl. by rewrite Hrem.
  - intros a. apply (conn_at_with i (Ept 0 None) b (w_dev w) a Hi Hlen).
Qed.

Lemma disc_run w l rem a bs (Q : Z -> W -> Prop) : dev_ok w l -> kread a 4 (kmem_of w) = Some bs ->
  (forall s', dev_ok s'.1 s'.2 -> disconnected w l rem (le32 bs) s' -> w_vqs s'.1 = w_vqs w -> Q NO_ERROR s') ->
  runs (handle_disc_req rem a) (w, l) Q.
Proof.
  intros Hd Hr HQ. unfold handle_disc_req. apply runs_bind', runs_on_dev. eapply runs_eq; [by apply load32_run|].
  apply runs_bind', runs_on_dev. eapply lookup_ept_run; [exact Hd|]. cbv zeta.
  set (t := addr_to_slot (le32 bs)). pose proof (slot_range (le32 bs)) as Ht. fold t in Ht.
  apply runs_bind'. set (k := fun o s' => runs _ s' Q). change (fun a0 s' => k a0 s') with k.
  assert (Hk : forall o, victim (w_dev w) rem (le32 bs) o -> k o (w, l)).
  { intros [i|] Hv; unfold k; apply runs_bind'.
    - eapply drop_found; [exact Hd|exact Hv|]. intros s' ? ? ?. by apply runs_ret, HQ.
    - apply runs_ret, runs_ret, HQ; [done| |done]. by exists None. }
  assert (Hsearch : ~ (t < 256 /\ of_remote (w_dev w) rem t) ->
    runs (search_ept (Z.to_nat TIPC_ADDR_MAX_NUM) 0 rem) w (fun o w' => k o (w', l))).
  { intros Hno. eapply search_run; [exact Hd|done|done|]. intros [j|] Ho; apply Hk; [|done].
    destruct Ho as (Hj & Hof & Hlow). split; [done|]. split; [done|]. right. done. }
  set (srch := search_ept _ _ _) in *. clearbody srch.
  apply runs_on_dev. unfold conn_at. fold t. destruct (t <? 256) eqn:Et; zbool; [|apply Hsearch; lia].
  destruct (ept_lookup w l t Hd ltac:(lia)) as [e He]. pose proof (of_remote_ept w l rem t e Hd ltac:(lia) He) as Hof.
  pose proof (ept_used _ _ _ _ Hd He) as Hb. rewrite Z2Nat.id in Hb by lia. rewrite Hb in Hof.
  rewrite He. simpl. destruct (ept_chan e) as [c|]; simpl; [|apply Hsearch; rewrite Hof; by intros (_ & ? & _)].
  apply runs_bind'. eapply get_ept_run; [exact He|]. destruct (remote e =? rem) eqn:Er; zbool.
  - apply runs_ret, Hk. split; [lia|]. split; [by apply Hof|]. by left.
  - apply Hsearch. rewrite Hof. by intros (_ & _ & ?).
Qed.

End Inv.
End TipcDevInv.
