(* ===== verification/TipcConn.v ===== *)
(** * Connecting to a port and sending to one from the non-secure world

    [handle_conn_req], [handle_chan_msg] and [handle_disc_req] of
    [tipc_dev.c]: what each does to the connections of a device. *)

From S2P Require Import Prelude Bitmap Iovec MsgQueue Handle Ipc IpcInv IpcKeep IpcSafe IpcMsg HandleList IpcHandle.
From S2P Require Import IpcTouch EptTable Vqueue TipcDev TipcDevInv.

Module TipcConn.
Import Bitmap Iovec MsgQueue Handle Ipc IpcInv IpcKeep IpcSafe IpcMsg HandleList IpcHandle IpcTouch EptTable TipcDev TipcDevInv.

Lemma on_dev_done {A} (m : M world A) w l a w' : m w = Done a w' -> on_dev m (w, l) = Done a (w', l).
Proof. intros Hm. unfold on_dev, on_obj. simpl. by rewrite Hm. Qed.

(** ** The name of the port *)

(** What [strncpy] stores: the bytes up to the terminator. *)
Fixpoint upto_nul (bs : list Z) : list Z :=
  match bs with [] => [] | b :: bs => if b =? 0 then [0] else b :: upto_nul bs end.

Lemma upto_nul_cstr bs : cstr (upto_nul bs) = cstr bs.
Proof. induction bs as [|b bs IH]; simpl; [done|]. destruct (b =? 0) eqn:E; simpl; [done|]. rewrite E. by f_equal. Qed.

Lemma strncpy_run n a bs w : kread a n (kmem_of w) = Some bs -> strncpy n a w = Done (upto_nul bs) w.
Proof.
  revert a bs. induction n as [|n IH]; intros a bs; simpl; [by intros [= <-]|].
  destruct (kmem_of w !! a) as [b|] eqn:Hb; [|done]. simpl.
  destruct (kread (a + 1) n (kmem_of w)) as [bs'|] eqn:Hr; [|done]. simpl. intros [= <-].
  assert (H8 : load8 a w = Done b w).
  { unfold load8. erewrite bind_done; [|apply (memcpy_from_run a 1 [b]); simpl; by rewrite Hb]. done. }
  rewrite (bind_done _ _ _ _ _ H8). simpl. destruct (b =? 0); [done|]. by rewrite (bind_done _ _ _ _ _ (IH _ _ Hr)).
Qed.

Section Conn.
Context (base : Z) (access : Z -> uuid -> Z) (ipc_mem : world -> bool * allocs * bool).

(** The allocations of a connection give buffers of the size asked for. *)
Definition mem_ok : Prop := forall w p y, ports (w_heap w) !! p = Some y ->
  allocs_ok (ipc_mem w).1.2 (num_recv_bufs y) (recv_buf_size y).
Context (Hmem : mem_ok).

Definition refused (w : world) (name : list Z) (e : Z) : Prop :=
  connect_refused access (ipc_mem w).1.1 (ipc_mem w).1.2 (ipc_mem w).2 (guest (w_dev w)) (Some (dev_uuid (w_dev w)))
    name TIPC_MAX_SRV_NAME_LEN 0 (w_heap w) e.

Definition new_client (w : world) (name : list Z) (c : Z) (h' : heap) : Prop :=
  new_client_post access (guest (w_dev w)) (dev_uuid (w_dev w)) (cstr name) 0 (w_heap w) c h'.

(** Every slot is used; slot [i] is the first that is not. *)
Definition full (d : tipc_dev) : Prop := forall i, 0 <= i < 256 -> is_Some (conn_at d (slot_to_addr i)).
Definition first_free (d : tipc_dev) (i : Z) : Prop :=
  0 <= i < 256 /\ conn_at d (slot_to_addr i) = None /\ forall k, 0 <= k < i -> is_Some (conn_at d (slot_to_addr k)).

Lemma conn_at_bit w l i : dev_ok base w l -> 0 <= i < 256 ->
  is_Some (conn_at (w_dev w) (slot_to_addr i)) <-> bit_at (inuse (w_dev w)) i = true.
Proof.
  intros Hd Hi. unfold conn_at. rewrite slot_addr, (proj2 (Z.ltb_lt i 256)) by lia.
  destruct (ept_lookup base w l i Hd Hi) as [e He]. rewrite He. simpl.
  pose proof (ept_used base w l _ e Hd He) as Hb. rewrite Z2Nat.id in Hb by lia. rewrite Hb.
  destruct (ept_chan e); simpl; split; try done.
Qed.

(** A channel that did not exist is none of the table. *)
Lemma fresh_not_listed w l c : dev_ok base w l -> chans (w_heap w) !! c = None -> HChan c ∉ handles l.
Proof. apply (table_fresh ept_chan (Ept 0 None) 256 (ept_ptr base) eq_refl). Qed.

Lemma next_fresh w l : dev_ok base w l -> chans (w_heap w) !! next_obj (w_heap w) = None.
Proof. intros Hd. apply (i_fresh _ _ (d_inv _ _ _ Hd)). lia. Qed.

Lemma open_conn_run w l rem name : dev_ok base w l ->
  runs (open_conn access ipc_mem rem name) w (fun r w1 =>
    (exists e h1, r = (e, 0, None) /\ e <> 0 /\ refused w name e /\ w1 = set_heap h1 w /\ dev_ok base w1 l /\
       chans h1 = chans (w_heap w)) \/
    (exists h1, r = (NO_ERROR, 0, None) /\ full (w_dev w) /\ w1 = set_heap h1 w /\ dev_ok base w1 l) \/
    (exists i b c h1, r = (NO_ERROR, slot_to_addr i, Some (HChan c)) /\ first_free (w_dev w) i /\
       bit_set 256 i true (inuse (w_dev w)) b /\ w1 = set_dev (with_ept i (Ept rem (Some (HChan c))) b (w_dev w)) (set_heap h1 w) /\
       inv quiet h1 /\ new_client w name c h1 /\ others_kept c (w_heap w) h1)).
Proof.
  intros Hd. unfold open_conn. apply runs_bind'. unfold get_dev, runs at 1, gets.
  apply runs_bind'. unfold runs at 1, get. destruct (ipc_mem w) as [[ok al] dup] eqn:Em.
  apply runs_bind', runs_on_ipc. eapply runs_mono; [apply connect_run; [apply Hd|]|].
  { intros p y Hp. pose proof (Hmem w p y Hp) as H. by rewrite Em in H. }
  intros r h1 (Hi1 & Ho & Hr). pose proof (next_fresh w l Hd) as Hnf.
  destruct Hr as [(e & -> & He & Href & Hc & _)|(c & u & -> & [= <-] & Hnew)].
  { simpl. rewrite (proj2 (Z.eqb_neq e NO_ERROR)) by done. apply runs_ret. left. exists e, h1.
    split; [done|]. split; [done|]. split; [unfold refused; by rewrite Em|]. split; [done|]. split; [|done].
    eapply dev_ok_others; [done|done|exact Ho|]. by apply (fresh_not_listed w l). }
  assert (Hnc : chans (w_heap w) !! c = None) by apply Hnew.
  assert (Hc : HChan c ∉ handles l) by by apply (fresh_not_listed w l).
  assert (Hd1 : dev_ok base (set_heap h1 w) l).
  { eapply dev_ok_others; [done|done|exact Ho|]. by apply (fresh_not_listed w l). }
  simpl. apply runs_bind'. simpl. apply runs_bind'.
  eapply alloc_run; [exact Hd1| |].
  - intros Hall. simpl. apply runs_bind', runs_on_ipc. simpl. destruct Hnew as (_ & x & Hx & Hrc & _).
    eapply runs_mono; [eapply chan_close_run; [exact Hi1|exact Hx|lia]|].
    intros _ h2 (Hi2 & _ & _ & _ & _ & _ & Ho2). apply runs_ret. right; left. exists h2. split; [done|].
    split; [intros i Hi; apply (conn_at_bit w l); auto|]. split; [done|].
    eapply (dev_ok_others base w l h2 c); [done|done| |done].
    eapply others_kept_trans; [|exact Ho2]. by eapply others_kept_any.
  - intros i b Hi Hf Hlow Hb. simpl.
    rewrite (proj2 (Z.eqb_neq (slot_to_addr i) 0)).
    2: { unfold slot_to_addr, u32, TIPC_ADDR_BASE. rewrite uwrap_small; lia. }
    apply runs_ret. right; right. exists i, b, c, h1. split; [done|]. split; [|split; [done|split; [done|split; [done|split; [done|]]]]].
    + split; [done|]. simpl in *. split.
      * apply eq_None_not_Some. rewrite (conn_at_bit w l) by done. by rewrite Hf.
      * intros k Hk. apply (conn_at_bit w l); [done|lia|]. by apply Hlow.
    + by eapply others_kept_any.
Qed.

Lemma lookup_new w l i e b h : dev_ok base w l -> 0 <= i < 256 -> bit_set 256 i true (inuse (w_dev w)) b ->
  let w' := set_dev (with_ept i e b (w_dev w)) (set_heap h w) in
  lookup_ept (slot_to_addr i) w' = Done (Some i) w'.
Proof.
  intros Hd Hi [Hwf Hb] w'. unfold lookup_ept. rewrite slot_addr by done.
  rewrite (proj2 (Z.ltb_lt i _)) by (unfold TIPC_ADDR_MAX_NUM; lia). unfold get_dev, gets, bind.
  change (inuse (w_dev w')) with b. rewrite (bitmap_test_spec b 256 i Hwf Hi), Hb, Z.eqb_refl by lia. done.
Qed.

(** The connection that a request makes: the channel [c] in slot [i], which
    its cookie names, with a reference for the table and one for the list. *)
Definition connected (w : world) (l : handle_list hptr) (rem : Z) (name : list Z) (s' : W) : Prop :=
  exists i c h1 y, first_free (w_dev w) i /\ new_client w name c h1 /\ touched c y h1 (w_heap s'.1) /\
    cookie y = ept_ptr base i /\ refcnt y = 2 /\ handles s'.2 = handles l ++ [HChan c] /\
    (forall a, conn_at (w_dev s'.1) a = if addr_to_slot a =? i then Some (rem, HChan c) else conn_at (w_dev w) a) /\
    have_handles (w_dev s'.1) = true.

(** The end of [handle_conn_req] on the slot that was taken. *)
Lemma conn_attach_run w l rem name i b c h1 (Q : option Z -> W -> Prop) : dev_ok base w l -> first_free (w_dev w) i ->
  bit_set 256 i true (inuse (w_dev w)) b -> inv quiet h1 -> new_client w name c h1 -> others_kept c (w_heap w) h1 ->
  (forall s', dev_ok base s'.1 s'.2 -> connected w l rem name s' -> w_vqs s'.1 = w_vqs w -> Q (Some NO_ERROR) s') ->
  runs (on_dev (set_cookie (HChan c) (ept_ptr base i)) ;;; handle_list_add false (HChan c) ;;;
        on_dev (upd_dev (set_have_handles true)) ;;; tret NO_ERROR)
    (set_dev (with_ept i (Ept rem (Some (HChan c))) b (w_dev w)) (set_heap h1 w), l) Q.
Proof.
  intros Hd Hf Hb Hi1 Hnew Ho HQ. pose proof Hf as (Hi & Hno & _).
  assert (Hc : HChan c ∉ handles l) by (apply (fresh_not_listed w l); [done|apply Hnew]).
  pose proof Hnew as (_ & x & Hx & Hrc & _).
  set (w1 := set_dev _ _). apply (runs_assoc _ (fun _ => handle_list_add false (HChan c)) (fun _ => _)), runs_bind'.
  eapply (attach_listed_run w_heap set_heap (@on_ipc)) with (x := x); eauto using runs_on_ipc, set_heap_id.
  intros h3 y3 Ht Hi3 Hx3 Hk Hr3.
  assert (Hbit : bit_at (inuse (w_dev w)) i = false).
  { apply not_true_iff_false. rewrite <- (conn_at_bit w l) by done. rewrite Hno. by intros [? ?]. }
  assert (Hok : dev_ok base (set_dev (with_ept i (Ept rem (Some (HChan c))) b (w_dev w)) (set_heap h3 w))
                  (HList (handles l ++ [HChan c]) (wait_event l))).
  { eapply dev_ok_add; [done|done|done|done|exact Hi3| |done|exact Hx3|done|simpl; lia].
    eapply others_kept_trans; [exact Ho|]. by eapply touched_kept. }
  apply runs_bind', runs_on_dev. unfold upd_dev, runs at 1, modify. apply runs_ret, HQ.
  - by eapply (dev_ok_dev base _ _ _ Hok).
  - exists i, c, h1, y3. split; [done|]. split; [done|]. split; [exact Ht|]. split; [done|]. split; [lia|]. split; [done|].
    split; [|done]. intros a. apply (conn_at_with i (Ept rem (Some (HChan c))) b (w_dev w) a Hi (d_len _ _ _ Hd)).
  - done.
Qed.

Context (ns : nat -> Z -> Z) (others : nat -> W -> W) (wait_fuel : nat) `{Vqueue.Platform}.

(** A request ends here or with an answer, which is sent from a state in which
    the device has the connections that it had before. *)
Definition conn_post (w : world) (l : handle_list hptr) (rem : Z) (name : list Z) (o : outcome W (option Z)) : Prop :=
  (exists s', o = Done (Some NO_ERROR) s' /\ dev_ok base s'.1 s'.2 /\ w_vqs s'.1 = w_vqs w /\ connected w l rem name s') \/
  (exists e h1, o = send_conn_rsp ns others wait_fuel 0 rem (u32 e) 0 0 (set_heap h1 w, l) /\ dev_ok base (set_heap h1 w) l /\
     ((e <> 0 /\ refused w name e /\ chans h1 = chans (w_heap w)) \/ (e = 0 /\ full (w_dev w)))).

Lemma conn_run w l rem a bs : dev_ok base w l -> kread a (Z.to_nat TIPC_MAX_SRV_NAME_LEN) (kmem_of w) = Some bs ->
  conn_post w l rem (upto_nul bs) (handle_conn_req ns others wait_fuel base access ipc_mem rem a (w, l)).
Proof.
  intros Hd Hr. set (name := upto_nul bs). unfold handle_conn_req.
  rewrite (bind_done _ _ _ _ _ (on_dev_done _ _ l _ _ (strncpy_run _ _ _ _ Hr))). fold name.
  destruct (proj1 (runs_done _ _ _) (open_conn_run w l rem name Hd)) as (r & w1 & Hrun & Hcase).
  rewrite (bind_done _ _ _ _ _ (on_dev_done _ _ l _ _ Hrun)).
  destruct Hcase as [(e & h1 & -> & He & Href & -> & Hd1 & Hc)|[(h1 & -> & Hfull & -> & Hd1)|Hnew]].
  - right. exists e, h1. split; [done|]. split; [done|]. by left.
  - right. exists 0, h1. split; [done|]. split; [done|]. by right.
  - destruct Hnew as (i & b & c & h1 & -> & Hf & Hb & -> & Hi1 & Hcl & Ho). left.
    rewrite (bind_done _ _ _ _ _ (on_dev_done _ _ l _ _ (lookup_new w l i _ b h1 Hd (proj1 Hf) Hb))).
    destruct (proj1 (runs_done _ _ _) (conn_attach_run w l rem name i b c h1
      (fun o s' => o = Some NO_ERROR /\ dev_ok base s'.1 s'.2 /\ w_vqs s'.1 = w_vqs w /\ connected w l rem name s')
      Hd Hf Hb Hi1 Hcl Ho (fun s a b c => conj eq_refl (conj a (conj c b))))) as (o & s' & Hrun' & -> & Hrest).
    exists s'. split; [exact Hrun'|exact Hrest].
Qed.

(** ** A message for a connection *)

(** What [handle_chan_msg] does with a message for [local]. *)
Definition routed (w : world) (rem local : Z) (bs : list Z) (r : Z) (w' : world) : Prop :=
  match conn_at (w_dev w) local with
  | Some (rem', HChan c) =>
      if rem' =? rem then
        exists x h', chans (w_heap w) !! c = Some x /\ w' = set_heap h' w /\
          match c_state x with
          | CONNECTED => sent (kern_sent bs) (w_heap w) c x r h'
          | DISCONNECTING => r = ERR_CHANNEL_CLOSED /\ h' = w_heap w
          | _ => r = ERR_NOT_READY /\ h' = w_heap w
          end
      else r = ERR_NOT_FOUND /\ w' = w
  | _ => r = ERR_NOT_FOUND /\ w' = w
  end.

Lemma chan_msg_run w l rem local a bs : dev_ok base w l -> a <> 0 -> kread a (length bs) (kmem_of w) = Some bs ->
  runs (handle_chan_msg rem local a (Z.of_nat (length bs))) w (fun r w' => dev_ok base w' l /\ w_vqs w' = w_vqs w /\
    w_dev w' = w_dev w /\ routed w rem local bs r w').
Proof.
  intros Hd Ha Hr. unfold handle_chan_msg. apply runs_bind'. eapply lookup_ept_run; [exact Hd|]. unfold routed, conn_at.
  pose proof (slot_range local) as Hs. set (s := addr_to_slot local) in *.
  destruct (s <? 256) eqn:Es; zbool; [|by apply runs_ret].
  destruct (ept_lookup base w l s Hd ltac:(lia)) as [e He]. rewrite He. simpl.
  destruct (ept_chan e) as [x|] eqn:Ex; simpl; [|by apply runs_ret].
  assert (Hin : x ∈ handles l) by (apply (listed base w l); eauto).
  destruct (listed_live base w l _ Hd Hin) as (j & e' & c & z & _ & _ & -> & Hz & _).
  apply runs_bind'. eapply get_ept_run; [exact He|]. destruct (remote e =? rem); [|by apply runs_ret].
  rewrite Ex. apply runs_on_ipc. pose proof (next_fresh w l Hd) as Hnf.
  eapply runs_mono; [eapply runs_and; [by apply send_kern_run; [apply Hd| | |]|]|].
  { intros r h' E. refine (keep_others (next_obj (w_heap w)) _ _ r h' (d_inv _ _ _ Hd) (keep_send _ _ _ _) E). }
  cbv beta. intros r h' [[Hi' Hres] Ho]. split; [|split; [done|split; [done|]]].
  - eapply dev_ok_others; [done|done|exact Ho|by apply (fresh_not_listed w l)].
  - exists z, h'. split; [done|]. split; [done|exact Hres].
Qed.
End Conn.
End TipcConn.
