(* ===== verification/TipcWin.v ===== *)
(** * The queues and the windows of a tipc device

    Taking a buffer from a queue, mapping it and unmapping it leave the
    connections of the device alone; while a buffer is mapped every byte of
    it can be read and written. *)

From S2P Require Import Prelude Bitmap Iovec MsgQueue Handle Ipc IpcInv HandleList IpcHandle.
From S2P Require Import EptTable Vqueue TipcDev TipcDevInv TipcConn.

Module TipcWin.
Import Bitmap Iovec MsgQueue Handle Ipc IpcInv HandleList IpcHandle EptTable TipcDev TipcDevInv TipcConn.

(** ** Memory that is there *)

Definition present (a n : Z) (k : kmem) : Prop := forall i, a <= i < a + n -> is_Some (k !! i).

Lemma present_sub a n b m k : present a n k -> a <= b -> b + m <= a + n -> present b m k.
Proof. intros Hp H1 H2 i Hi. apply Hp. lia. Qed.

Lemma present_read a n k : present a (Z.of_nat n) k -> exists bs, kread a n k = Some bs /\ length bs = n.
Proof.
  revert a. induction n as [|n IH]; intros a Hp; simpl; [by exists []|].
  destruct (Hp a) as [b Hb]; [lia|]. rewrite Hb. simpl.
  destruct (IH (a + 1)) as (bs & -> & Hl); [eapply present_sub; [exact Hp|lia|lia]|].
  exists (b :: bs). simpl. by rewrite Hl.
Qed.

Lemma present_write bs : forall a k, present a (Z.of_nat (length bs)) k ->
  exists k', kwrite a bs k = Some k' /\ forall b m, present b m k -> present b m k'.
Proof.
  induction bs as [|x bs IH]; intros a k Hp; simpl; [by exists k|].
  simpl in Hp. destruct (Hp a) as [b Hb]; [lia|]. rewrite Hb. simpl.
  assert (Hins : forall b m, present b m k -> present b m (<[a := x]> k)).
  { intros c m Hc i Hi. rewrite lookup_insert_is_Some. destruct (decide (a = i)); [by left|right]. auto. }
  destruct (IH (a + 1) (<[a := x]> k)) as (k' & Hw & Hk').
  { apply Hins. eapply present_sub; [exact Hp|lia|lia]. }
  exists k'. auto.
Qed.

Lemma roundup_ge n : 0 <= n < 2 ^ 32 -> n <= ROUNDUP n PAGE_SIZE.
Proof.
  intros Hn. change PAGE_SIZE with (2 ^ 12). rewrite ROUNDUP_spec by lia.
  pose proof (Z.mod_pos_bound (n + (2 ^ 12 - 1)) (2 ^ 12)). lia.
Qed.

Lemma window_present ns n va len k : 0 <= len < 2 ^ 32 -> present va len (window ns n va len ∪ k).
Proof.
  intros Hl i Hi. apply lookup_union_is_Some. left. unfold window. rewrite lookup_map_seqZ.
  pose proof (roundup_ge len Hl). rewrite option_guard_True by lia.
  apply lookup_lt_is_Some. rewrite length_fmap, length_seqZ. lia.
Qed.

(** ** Steps that leave the connections alone *)

(** Only kernel memory and the accounts of the mappings differ. *)
Definition mem_only (w w' : world) : Prop :=
  w_dev w' = w_dev w /\ w_vqs w' = w_vqs w /\ exists u, w_heap w' = set_user u (w_heap w).

Lemma set_user_id h : set_user (user h) h = h.
Proof. by destruct h. Qed.

Lemma mem_only_refl w : mem_only w w.
Proof. split; [done|]. split; [done|]. exists (user (w_heap w)). by rewrite set_user_id. Qed.

Lemma mem_only_trans a b c : mem_only a b -> mem_only b c -> mem_only a c.
Proof.
  intros (D1 & V1 & u1 & H1) (D2 & V2 & u2 & H2). split; [congruence|]. split; [congruence|].
  exists u2. by rewrite H2, H1.
Qed.

Section Good.
Context (base : Z).

Definition good (w : world) (l : handle_list hptr) : Prop :=
  dev_ok base w l /\ exists tx rx, w_vqs w = [tx; rx] /\ Vqueue.ring_wf tx /\ Vqueue.ring_wf rx.

Lemma good_mem w w' l : good w l -> mem_only w w' -> good w' l.
Proof.
  intros [[D1 D2 D3 D4 D5 D6] (tx & rx & Hv & Ht & Hr)] (Hd & Hq & u & Hh). split.
  - unfold dev_ok. rewrite Hd, Hh. split; [by apply inv_user|exact D2|exact D3|exact D4|exact D5|exact D6].
  - exists tx, rx. by rewrite Hq.
Qed.

Lemma good_dev w l w' l' : good w l -> dev_ok base w' l' -> w_vqs w' = w_vqs w -> good w' l'.
Proof. intros [_ (tx & rx & Hv & Ht & Hr)] Hd Hq. split; [done|]. exists tx, rx. by rewrite Hq. Qed.

Lemma good_vq w l i : good w l -> (i < 2)%nat -> exists q, w_vqs w !! i = Some q /\ Vqueue.ring_wf q.
Proof. intros [_ (tx & rx & -> & Ht & Hr)] Hi. destruct i as [|[|]]; [by exists tx|by exists rx|lia]. Qed.

Lemma good_set_vst w l i s : good w l -> (i < 2)%nat -> Vqueue.ring_wf (Vqueue.st_vq s) -> good (set_vst i s w) l.
Proof.
  intros [Hd (tx & rx & Hv & Ht & Hr)] Hi Hs. split; [by apply (dev_ok_same base w)|].
  simpl. rewrite Hv. destruct i as [|[|]]; [| |lia]; simpl; eauto.
Qed.

Lemma safely_on_vq {A} i q (m : M Vqueue.vst A) w (Q : A -> world -> Prop) : w_vqs w !! i = Some q ->
  safely m (Vqueue.Vst q (w_trace w) (w_regions w)) (fun a s => Q a (set_vst i s w)) -> safely (on_vq i m) w Q.
Proof. intros Hq. unfold safely, on_vq. rewrite Hq. by destruct (m _). Qed.

(** ** Taking and returning a buffer *)

Section Queue.
Context (ns : nat -> Z -> Z).

Lemma get_avail_safe i n m buf w l (Q : option (Z * Vqueue.vqueue_buf) -> world -> Prop) : good w l -> (i < 2)%nat ->
  Vqueue.buf_ok buf -> Vqueue.cnt (Vqueue.in_iovs buf) = n -> Vqueue.cnt (Vqueue.out_iovs buf) = m -> n + m < 2 ->
  (forall r buf' w', good w' l -> Vqueue.buf_ok buf' -> Vqueue.cnt (Vqueue.in_iovs buf') = n ->
     Vqueue.cnt (Vqueue.out_iovs buf') = m -> Q (Some (r, buf')) w') ->
  safely (on_vq i (Vqueue.vqueue_get_avail_buf ns chain_fuel buf)) w Q.
Proof.
  intros Hg Hi Hb Hn Hm Hnm HQ. destruct (good_vq w l i Hg Hi) as (q & Hq & Hwf).
  eapply safely_on_vq; [exact Hq|]. pose proof Hwf as [Hl Hring].
  destruct (decide (Vqueue.vring_addr q = 0)) as [H0|H0].
  - unfold Vqueue.vqueue_get_avail_buf. apply safely_bind. unfold gets, safely at 1. simpl. rewrite H0. simpl.
    apply safely_ret, HQ; auto. by apply good_set_vst.
  - destruct (Hring H0) as [sz Hsz]. eapply safely_mono.
    + eapply (Vqueue.get_avail_buf_post ns sz q); [exact Hsz|done|done|lia|done|]. unfold chain_fuel. lia.
    + intros o s (_ & _ & r & buf' & -> & Hc1 & Hc2 & Hcase). apply HQ; [| |congruence|congruence].
      * apply good_set_vst; [done..|]. cbn [Vqueue.st_vq] in *.
        destruct Hcase as [(_ & _ & ->)|(_ & _ & _ & ev & ->)]; split; simpl; auto. apply uwrap_range. lia.
      * by destruct Hcase as [(_ & -> & _)|(_ & ? & _)].
Qed.

Lemma add_buf_safe i buf r w l (Q : Z -> world -> Prop) : good w l -> (i < 2)%nat ->
  (forall e w', good w' l -> Q e w') -> safely (on_vq i (Vqueue.vqueue_add_buf ns buf r)) w Q.
Proof.
  intros Hg Hi HQ. destruct (good_vq w l i Hg Hi) as (q & Hq & Hwf). eapply safely_on_vq; [exact Hq|].
  unfold Vqueue.vqueue_add_buf, safely, bind, gets, Vqueue.rd, Vqueue.wr. simpl.
  destruct (_ =? 0); [|destruct (_ <=? _)]; apply HQ, good_set_vst; done.
Qed.
End Queue.

(** ** Mapping a buffer *)

Section Map.
Context (ns : nat -> Z -> Z) `{Vqueue.Platform}.

(** A list with the one buffer [v] in use. *)
Definition one (l : Vqueue.vqueue_iovs) (v : Vqueue.iovec_kern) : Prop :=
  Vqueue.cnt l = 1 /\ Vqueue.iused l = 1 /\ (exists pa, Vqueue.phys l = [pa]) /\ Vqueue.iovs l = [v] /\
  0 <= Vqueue.iov_len v < 2 ^ 32.

Lemma one_ok l v : one l v -> Vqueue.iovs_ok l.
Proof.
  intros (Hc & Hu & (pa & Hp) & Hi & Hl). split; rewrite ?Hc, ?Hu, ?Hp, ?Hi; try done. by apply Forall_singleton.
Qed.

Lemma used_one l : Vqueue.iovs_ok l -> Vqueue.cnt l = 1 -> Vqueue.iused l <> 0 -> exists v, one l v.
Proof.
  intros [Hc Hu Hp Hi Hl] H1 H0. rewrite H1 in *. destruct (Vqueue.iovs l) as [|v [|]] eqn:Ev; try (simpl in Hi; lia).
  destruct (Vqueue.phys l) as [|pa [|]] eqn:Ep; try (simpl in Hp; lia). apply Forall_cons in Hl as [Hl _].
  exists v. unfold one. rewrite Ep. split_and!; try done; try lia. by exists pa.
Qed.

Lemma set_base_one l v b : one l v -> one (Vqueue.set_base 0 b l) (Vqueue.IovecKern b (Vqueue.iov_len v)).
Proof. intros (Hc & Hu & Hp & Hi & Hl). unfold one. simpl. by rewrite Hi. Qed.

Lemma map_one i l v fl g w q (Q : Z * Vqueue.vqueue_iovs -> world -> Prop) : one l v -> w_vqs w !! i = Some q ->
  (forall r l' v' w', r <> 0 -> one l' v' -> mem_only w w' -> Q (r, l') w') ->
  (forall va l' w', one l' (Vqueue.IovecKern va (Vqueue.iov_len v)) -> 0 < va -> mem_only w w' ->
     present va (Vqueue.iov_len v) (kmem_of w') -> Q (0, l') w') ->
  safely (map_iovs ns i l fl g) w Q.
Proof.
  intros Ho Hq HE HS. pose proof Ho as (Hc & Hu & (pa & Hp) & Hi & Hl). unfold map_iovs. apply safely_bind.
  eapply safely_on_vq; [exact Hq|]. unfold Vqueue.vqueue_map_iovs. rewrite Hu, Hc. simpl.
  unfold safely at 1, bind, assert_, ret, deref, gets. simpl. rewrite Hi, Hp. simpl.
  assert (Hid : forall r, mem_only w (set_vst i (Vqueue.Vst q (w_trace w) r) w)).
  { intros r. split; [done|]. split; [by apply list_insert_id|]. exists (user (w_heap w)). simpl. by rewrite set_user_id. }
  destruct (negb (Vqueue.trusty_hyp_check_guest_pa_valid pa _ g =? NO_ERROR)) eqn:Eh; zbool.
  { simpl. set (r := Vqueue.trusty_hyp_check_guest_pa_valid _ _ _) in *. 
    rewrite (proj2 (Z.eqb_neq r 0)) by done. by eapply HE. }
  unfold Vqueue.map_physical, bind, gets, ret. simpl. destruct (Vqueue.vmm_alloc_physical _ _ _ _) as [e|va] eqn:Ea.
  - simpl. rewrite (proj2 (Z.eqb_neq e 0)) by (by eapply Vqueue.vmm_alloc_err).
    eapply HE; [by eapply Vqueue.vmm_alloc_err|by apply set_base_one|apply Hid].
  - apply Vqueue.vmm_alloc_fresh in Ea as [Hva _]. simpl.
    assert (Ho' := set_base_one l v va Ho). apply (HS va); [done|done| |].
    + eapply mem_only_trans; [apply Hid|]. split; [done|]. split; [done|]. eexists. reflexivity.
    + unfold show. unfold used_iovs. destruct Ho' as (_ & Hu' & (pa' & ->) & -> & _). rewrite Hu'. simpl.
      by apply window_present.
Qed.

Lemma unmap_one i l v w q (Q : Vqueue.vqueue_iovs -> world -> Prop) : one l v -> Vqueue.base v <> 0 ->
  w_vqs w !! i = Some q -> (forall l' v' w', one l' v' -> mem_only w w' -> Q l' w') ->
  safely (unmap_iovs ns i l) w Q.
Proof.
  intros Ho Hb Hq HQ. pose proof Ho as (Hc & Hu & (pa & Hp) & Hi & Hl). unfold unmap_iovs. apply safely_bind.
  unfold modify, safely at 1. set (w1 := hide ns l w).
  assert (H1 : mem_only w w1) by (split; [done|]; split; [done|]; eexists; reflexivity).
  eapply safely_on_vq; [exact Hq|]. unfold Vqueue.vqueue_unmap_iovs. rewrite Hu, Hc. simpl.
  unfold safely, bind, assert_, ret, deref, Vqueue.vmm_free_region, modify. simpl. rewrite Hi. simpl.
  rewrite (proj2 (Z.eqb_neq (Vqueue.base v) 0)) by done. simpl.
  eapply HQ; [by eapply set_base_one|]. eapply mem_only_trans; [exact H1|].
  split; [done|]. split; [by apply list_insert_id|]. exists (user (w_heap w1)). symmetry. apply set_user_id.
Qed.
End Map.
End Good.
End TipcWin.
