(* ===== verification/TipcRx.v ===== *)
(** * The receive thread of a tipc device against the non-secure world

    Whatever the other side puts into the queues and the buffers, and changes
    while the code works on it, no message makes the device use a pointer that
    is not valid, and the connections stay consistent. *)

From S2P Require Import Prelude Bitmap Iovec MsgQueue Handle Ipc IpcInv HandleList IpcHandle Vqueue TipcDev TipcDevInv.
From S2P Require Import TipcConn TipcWin.

Module TipcRx.
Import Bitmap Iovec MsgQueue Handle Ipc IpcInv HandleList IpcHandle TipcDev TipcDevInv TipcConn TipcWin.

Lemma tx_lt : (TIPC_VQ_TX < 2)%nat.
Proof. unfold TIPC_VQ_TX. lia. Qed.
Lemma rx_lt : (TIPC_VQ_RX < 2)%nat.
Proof. unfold TIPC_VQ_RX. lia. Qed.

Section Rx.
Context (base : Z).
Notation good := (good base).

(** What the rest of the system does while a thread of the device waits
    leaves the device consistent. *)
Definition others_good (others : nat -> W -> W) : Prop :=
  forall n w l, good w l -> good (others n (w, l)).1 (others n (w, l)).2.

Context (ns : nat -> Z -> Z) (others : nat -> W -> W) (Hothers : others_good others) (wait_fuel : nat) `{Vqueue.Platform}.

Lemma event_wait_safe w l (Q : unit -> W -> Prop) : good w l -> (forall s, good s.1 s.2 -> Q tt s) ->
  safely (event_wait others) (w, l) Q.
Proof.
  intros Hg HQ. unfold event_wait, modify, safely. apply HQ, Hothers.
  eapply good_mem; [exact Hg|]. split; [done|]. split; [done|]. exists (user (w_heap w)). symmetry. apply set_user_id.
Qed.

(** ** Sending *)

Definition tx_buf_ok (b : Vqueue.vqueue_buf) : Prop :=
  Vqueue.buf_ok b /\ Vqueue.cnt (Vqueue.in_iovs b) = 0 /\ Vqueue.cnt (Vqueue.out_iovs b) = 1.
Definition rx_buf_ok (b : Vqueue.vqueue_buf) : Prop :=
  Vqueue.buf_ok b /\ Vqueue.cnt (Vqueue.in_iovs b) = 1 /\ Vqueue.cnt (Vqueue.out_iovs b) = 0.

Lemma out_buf_ok : tx_buf_ok out_buf.
Proof. split; [|done]. split; split; try done. by apply Forall_singleton. Qed.
Lemma in_buf_ok : rx_buf_ok in_buf.
Proof. split; [|done]. split; split; try done. by apply Forall_singleton. Qed.

Lemma get_tx_buf_safe wait n : forall buf w l (Q : Z + Vqueue.vqueue_buf -> W -> Prop), good w l -> tx_buf_ok buf ->
  (forall r s, good s.1 s.2 -> match r with inl _ => True | inr b => tx_buf_ok b end -> Q r s) ->
  tsafely (get_tx_buf ns others n wait buf) (w, l) Q.
Proof.
  induction n as [|n IH]; intros buf w l Q Hg Hb HQ; [apply tsafely_none|]. simpl. pose proof Hb as (Hb1 & Hb2 & Hb3).
  apply tsafely_tbind. unfold tsafely at 1, get_avail. apply safely_on_dev.
  eapply get_avail_safe; [exact Hg|exact tx_lt|done|done|done|lia|].
  intros r buf' w' Hg' Hb' Hn Hm. simpl. assert (Htx : tx_buf_ok buf') by by split.
  destruct (r =? NO_ERROR); [by apply tsafely_tret, HQ|]. destruct (_ || _); [by apply tsafely_tret, HQ|].
  apply tsafely_bind, event_wait_safe; [done|]. intros [w2 l2] Hg2. apply tsafely_bind. unfold safely at 1. simpl.
  destruct (tx_stop _); [by apply tsafely_tret, HQ|]. by apply IH.
Qed.

(** A callback that fills the [len] bytes it is given. *)
Definition cb_safe (cb : Z -> Z -> M world Z) (n : Z) : Prop :=
  forall dst len w l (Q : Z -> world -> Prop), good w l -> 0 < dst -> 0 <= len <= n -> present dst len (kmem_of w) ->
    (forall r w', good w' l -> Q r w') -> safely (cb dst len) w Q.

(** Writing bytes that are there. *)
Lemma memcpy_to_safe a bs w (Q : unit -> world -> Prop) : present a (Z.of_nat (length bs)) (kmem_of w) ->
  (forall w', mem_only w w' -> (forall b m, present b m (kmem_of w) -> present b m (kmem_of w')) -> Q tt w') ->
  safely (on_mem (memcpy_to a bs)) w Q.
Proof.
  intros Hp HQ. destruct (present_write bs a (kmem_of w) Hp) as (k & Hw & Hk). unfold kmem_of in Hw.
  unfold safely, on_mem, on_ipc, on_user, memcpy_to. rewrite Hw. simpl. apply HQ; [|exact Hk].
  split; [done|]. split; [done|]. eexists. reflexivity.
Qed.

Lemma send_data_safe local rem cb n wait w l (Q : Z -> W -> Prop) : good w l -> 0 <= n < 2 ^ 16 -> cb_safe cb n ->
  (forall r s, good s.1 s.2 -> Q r s) ->
  tsafely (tipc_send_data ns others wait_fuel local rem cb n wait) (w, l) Q.
Proof.
  intros Hg Hn Hcb HQ. unfold tipc_send_data. apply tsafely_tbind. apply get_tx_buf_safe; [done|apply out_buf_ok|].
  intros [e|buf] [w1 l1] Hg1 Hb; [by apply tsafely_tret, HQ|]. destruct Hb as ([_ Hok] & _ & Hc).
  apply tsafely_tlift, safely_on_dev, safely_bind. simpl in Hg1.
  set (K := fun (r : Z) w' => safely (on_vq TIPC_VQ_TX (Vqueue.vqueue_add_buf ns buf r)) w' (fun a w'' => Q a (w'', l1))).
  change (safely ?m w1 (fun a s' => safely _ s' _)) with (safely m w1 K).
  assert (HK : forall r w', good w' l1 -> K r w').
  { intros r w' Hg'. unfold K. apply (add_buf_safe base ns TIPC_VQ_TX buf r w' l1); [exact Hg'|exact tx_lt|]. intros e w'' Hg''. by apply HQ. }
  clearbody K. destruct (Vqueue.iused (Vqueue.out_iovs buf) =? 0) eqn:Eu; zbool; [by apply safely_ret, HK|].
  destruct (used_one _ Hok Hc Eu) as [v Ho]. pose proof Ho as (_ & _ & _ & Hiv & Hlen).
  apply safely_bind. eapply safely_deref; [by rewrite Hiv|].
  destruct (Vqueue.iov_len v <? sizeof_tipc_hdr) eqn:El; zbool; [by apply safely_ret, HK|].
  apply safely_bind. unfold safely at 1, get_dev, gets. apply safely_bind.
  destruct (good_vq base w1 l1 TIPC_VQ_TX Hg1) as (q & Hq & _); [exact tx_lt|].
  eapply map_one; [exact Ho|exact Hq| |].
  { intros r l' v' w' Hr _ Hm. simpl. rewrite (proj2 (Z.eqb_neq r _)) by done. apply safely_ret, HK. by eapply good_mem. }
  intros va l' w2 Ho2 Hva Hm2 Hp2. pose proof Ho2 as (_ & _ & _ & Hiv2 & _). simpl.
  pose proof (good_mem base w1 w2 l1 Hg1 Hm2) as Hg2.
  apply safely_bind. eapply safely_deref; [by rewrite Hiv2|]. simpl.
  apply safely_bind. eapply memcpy_to_safe.
  { eapply present_sub; [exact Hp2|lia|]. unfold sizeof_tipc_hdr in *. simpl. lia. }
  intros w3 Hm3 Hk3. set (len := if _ <? _ then _ else _).
  assert (Hlen' : 0 <= len <= n /\ len + sizeof_tipc_hdr <= Vqueue.iov_len v).
  { unfold len, sizeof_tipc_hdr in *. destruct (_ <? _) eqn:E; zbool; [|lia]. unfold u16. rewrite uwrap_small by lia. lia. }
  clearbody len. apply safely_bind. pose proof (good_mem base w2 w3 l1 Hg2 Hm3) as Hg3.
  apply (Hcb _ len w3 l1); [done|unfold sizeof_tipc_hdr; lia|lia| |].
  { apply Hk3. eapply present_sub; [exact Hp2|unfold sizeof_tipc_hdr; lia|lia]. }
  intros r w4 Hg4. apply safely_bind. destruct (good_vq base w4 l1 TIPC_VQ_TX Hg4) as (q4 & Hq4 & _); [exact tx_lt|].
  eapply unmap_one; [exact Ho2|simpl; lia|exact Hq4|]. intros l'' v'' w5 _ Hm5. apply safely_ret, HK. by eapply good_mem.
Qed.

Lemma send_buf_safe local rem data wait w l (Q : Z -> W -> Prop) : good w l -> Z.of_nat (length data) < 2 ^ 16 ->
  (forall r s, good s.1 s.2 -> Q r s) -> tsafely (tipc_send_buf ns others wait_fuel local rem data wait) (w, l) Q.
Proof.
  intros Hg Hn HQ. unfold tipc_send_buf. apply send_data_safe; [done|lia| |done].
  intros dst len w1 l1 Q1 Hg1 Hd Hl Hp HQ1. unfold send_buf_cb. apply safely_bind, safely_assert. intros _.
  apply safely_bind, safely_assert. intros _. apply safely_bind. eapply memcpy_to_safe.
  { eapply present_sub; [exact Hp|lia|]. rewrite length_take. lia. }
  intros w2 Hm _. apply safely_ret, HQ1. by eapply good_mem.
Qed.

Lemma conn_rsp_safe local rem st sz cnt w l (Q : Z -> W -> Prop) : good w l -> (forall r s, good s.1 s.2 -> Q r s) ->
  tsafely (send_conn_rsp ns others wait_fuel local rem st sz cnt) (w, l) Q.
Proof. intros Hg HQ. unfold send_conn_rsp. by apply send_buf_safe. Qed.

Lemma disc_req_safe local rem w l (Q : Z -> W -> Prop) : good w l -> (forall r s, good s.1 s.2 -> Q r s) ->
  tsafely (send_disc_req ns others wait_fuel local rem) (w, l) Q.
Proof. intros Hg HQ. unfold send_disc_req. by apply send_buf_safe. Qed.

(** ** Messages from the other side *)

Context (access : Z -> uuid -> Z) (ipc_mem : world -> bool * allocs * bool) (Hmem : mem_ok ipc_mem).

Lemma conn_req_safe rem a w l (Q : Z -> W -> Prop) : good w l -> present a TIPC_MAX_SRV_NAME_LEN (kmem_of w) ->
  (forall r s, good s.1 s.2 -> Q r s) ->
  tsafely (handle_conn_req ns others wait_fuel base access ipc_mem rem a) (w, l) Q.
Proof.
  intros Hg Hp HQ. destruct (present_read a (Z.to_nat TIPC_MAX_SRV_NAME_LEN) _ Hp) as (bs & Hr & _).
  pose proof (conn_run base access ipc_mem Hmem ns others wait_fuel w l rem a bs (proj1 Hg) Hr) as Hpost.
  unfold tsafely, safely. destruct Hpost as [(s' & -> & Hd & Hq & _)|(e & h1 & -> & Hd & _)].
  - apply HQ. by eapply good_dev.
  - apply (conn_rsp_safe 0 rem (u32 e) 0 0 (set_heap h1 w) l Q); [|exact HQ]. by eapply good_dev.
Qed.

Lemma disc_req_handled rem a w l (Q : Z -> W -> Prop) : good w l -> present a 4 (kmem_of w) ->
  (forall r s, good s.1 s.2 -> Q r s) -> safely (handle_disc_req rem a) (w, l) Q.
Proof.
  intros Hg Hp HQ. destruct (present_read a 4 _ Hp) as (bs & Hr & _). apply runs_safely.
  eapply disc_run; [apply Hg|exact Hr|]. intros s' Hd _ Hq. apply HQ. by eapply good_dev.
Qed.

Lemma safely_load32 a w (Q : Z -> world -> Prop) : present a 4 (kmem_of w) -> (forall v, Q v w) -> safely (load32 a) w Q.
Proof.
  intros Hp HQ. destruct (present_read a 4 _ Hp) as (bs & Hr & _). unfold safely. by rewrite (load32_run a bs w Hr).
Qed.

Lemma safely_load16 a w (Q : Z -> world -> Prop) : present a 2 (kmem_of w) -> (forall v, Q v w) -> safely (load16 a) w Q.
Proof.
  intros Hp HQ. destruct (present_read a 2 _ Hp) as (bs & Hr & _). unfold safely. by rewrite (load16_run a bs w Hr).
Qed.

Lemma ctrl_msg_safe rem a n w l (Q : Z -> W -> Prop) : good w l -> present a n (kmem_of w) ->
  (forall r s, good s.1 s.2 -> Q r s) ->
  tsafely (handle_ctrl_msg ns others wait_fuel base access ipc_mem rem a n) (w, l) Q.
Proof.
  intros Hg Hp HQ. unfold handle_ctrl_msg. apply tsafely_bind, safely_assert. intros _.
  destruct (n <? sizeof_ctrl_msg_hdr) eqn:En; zbool; [by apply tsafely_tret, HQ|]. unfold sizeof_ctrl_msg_hdr in *.
  apply tsafely_bind, safely_on_dev, safely_load32; [eapply present_sub; [exact Hp|lia|lia]|]. intros ty.
  apply tsafely_bind, safely_on_dev, safely_load32; [eapply present_sub; [exact Hp|lia|lia]|]. intros len. cbv zeta.
  destruct (8 + len =? n) eqn:Eb; zbool; simpl negb; cbv iota; [|by apply tsafely_tret, HQ].
  destruct (ty =? TIPC_CTRL_MSGTYPE_CONN_REQ); [|destruct (ty =? TIPC_CTRL_MSGTYPE_DISC_REQ)]; [| |by apply tsafely_tret, HQ].
  - destruct (len =? sizeof_conn_req_body) eqn:El; zbool; simpl negb; cbv iota; [|by apply tsafely_tret, HQ].
    apply conn_req_safe; [done| |done]. unfold sizeof_conn_req_body in El. eapply present_sub; [exact Hp|lia|lia].
  - destruct (len =? sizeof_disc_req_body) eqn:El; zbool; simpl negb; cbv iota; [|by apply tsafely_tret, HQ].
    apply tsafely_tlift, disc_req_handled; [done| |done]. unfold sizeof_disc_req_body in El. eapply present_sub; [exact Hp|lia|lia].
Qed.

Lemma chan_msg_safe rem local a n w l (Q : Z -> world -> Prop) : good w l -> 0 < a -> 0 <= n -> present a n (kmem_of w) ->
  (forall r w', good w' l -> Q r w') -> safely (handle_chan_msg rem local a n) w Q.
Proof.
  intros Hg Ha Hn Hp HQ. destruct (present_read a (Z.to_nat n) (kmem_of w)) as (bs & Hr & Hl); [by rewrite Z2Nat.id|].
  replace n with (Z.of_nat (length bs)) by lia. rewrite <- Hl in Hr. apply runs_safely.
  eapply runs_mono; [apply (chan_msg_run base w l rem local a bs (proj1 Hg)); [lia|exact Hr]|].
  intros r w' (Hd & Hq & _ & _). apply HQ. by eapply good_dev.
Qed.

Lemma rx_msg_safe buf w l (Q : Z * Vqueue.vqueue_buf -> W -> Prop) : good w l -> rx_buf_ok buf ->
  (forall r s, good s.1 s.2 -> rx_buf_ok r.2 -> Q r s) ->
  tsafely (handle_rx_msg ns others wait_fuel base access ipc_mem buf) (w, l) Q.
Proof.
  intros Hg Hb HQ. pose proof Hb as ([Hok Hok2] & Hc & Hc2). unfold handle_rx_msg. cbv zeta.
  destruct (Vqueue.iused (Vqueue.in_iovs buf) =? 0) eqn:Eu; zbool; [by apply tsafely_tret, HQ|].
  destruct (used_one _ Hok Hc Eu) as [v Ho].
  assert (Hbuf : forall l' v', one l' v' -> rx_buf_ok (Vqueue.VqBuf (Vqueue.head buf) l' (Vqueue.out_iovs buf))).
  { intros l' v' Ho'. split; [|split; [apply Ho'|done]]. split; [by eapply one_ok|done]. }
  apply tsafely_bind. unfold safely at 1. simpl. apply tsafely_bind, safely_on_dev.
  destruct (good_vq base w l TIPC_VQ_RX Hg rx_lt) as (q & Hq & _).
  eapply map_one; [exact Ho|exact Hq| |].
  { intros r l' v' w' Hr Ho' Hm. simpl. rewrite (proj2 (Z.eqb_neq r 0)) by done. apply tsafely_tret, HQ; [|by eapply Hbuf].
    by eapply good_mem. }
  intros va l' w2 Ho2 Hva Hm2 Hp. pose proof Ho2 as (_ & _ & _ & Hiv2 & Hlen). simpl.
  pose proof (good_mem base w w2 l Hg Hm2) as Hg2. simpl in Hlen.
  apply tsafely_bind. eapply safely_deref; [by rewrite Hiv2|]. simpl. apply tsafely_tbind.
  set (K := fun (r : Z) (s' : W) => tsafely _ s' Q).
  change (tsafely ?m (w2, l) (fun a s' => tsafely _ s' Q)) with (tsafely m (w2, l) K).
  assert (HK : forall r s, good s.1 s.2 -> K r s).
  { intros r [w3 l3] Hg3. unfold K. apply tsafely_bind, safely_on_dev.
    destruct (good_vq base w3 l3 TIPC_VQ_RX Hg3 rx_lt) as (q3 & Hq3 & _).
    eapply unmap_one; [exact Ho2|simpl; lia|exact Hq3|]. intros l'' v'' w4 Ho4 Hm4.
    apply tsafely_tret, HQ; [|by eapply Hbuf]. by eapply good_mem. }
  clearbody K. destruct (Vqueue.iov_len v <? sizeof_tipc_hdr) eqn:El; zbool; [by apply tsafely_tret, HK|].
  unfold sizeof_tipc_hdr in *.
  apply tsafely_bind, safely_on_dev, safely_load16; [eapply present_sub; [exact Hp|lia|lia]|]. intros n.
  apply tsafely_bind, safely_on_dev, safely_load32; [eapply present_sub; [exact Hp|lia|lia]|]. intros src.
  apply tsafely_bind, safely_on_dev, safely_load32; [eapply present_sub; [exact Hp|lia|lia]|]. intros dst. cbv zeta.
  destruct (n + 16 =? Vqueue.iov_len v) eqn:En; zbool; simpl negb; cbv iota; [|by apply tsafely_tret, HK].
  destruct (dst =? TIPC_CTRL_ADDR).
  - apply ctrl_msg_safe; [done| |done]. eapply present_sub; [exact Hp|lia|lia].
  - apply tsafely_tlift, safely_on_dev, (chan_msg_safe _ _ _ _ _ l); [done|lia|lia| |].
    + eapply present_sub; [exact Hp|lia|lia].
    + intros r w' Hg'. by apply HK.
Qed.

Lemma rx_loop_safe n : forall buf w l, good w l -> rx_buf_ok buf ->
  tsafely (rx_loop ns others wait_fuel base access ipc_mem n buf) (w, l) (fun _ s => good s.1 s.2).
Proof.
  induction n as [|n IH]; intros buf w l Hg Hb; [apply tsafely_none|]. simpl. apply tsafely_bind. unfold safely at 1. simpl.
  destruct (rx_stop (w_dev w)); [by apply tsafely_tret|].
  apply tsafely_bind, event_wait_safe; [done|]. intros [w1 l1] Hg1. pose proof Hb as (Hb1 & Hb2 & Hb3).
  apply tsafely_tbind. unfold tsafely at 1, get_avail. apply safely_on_dev.
  apply (get_avail_safe base ns TIPC_VQ_RX 1 0 buf w1 l1); [exact Hg1|exact rx_lt|done|done|done|lia|].
  intros r buf' w2 Hg2 Hb' Hn Hm. simpl. assert (Hrx : rx_buf_ok buf') by by split.
  destruct (r =? ERR_CHANNEL_CLOSED); [by apply tsafely_tret|]. destruct (r =? ERR_NOT_ENOUGH_BUFFER); [by apply IH|].
  apply tsafely_tbind. set (K := fun (x : Z * Vqueue.vqueue_buf) (s' : W) => tsafely _ s' _).
  change (tsafely ?m (w2, l1) (fun a s' => tsafely _ s' _)) with (tsafely m (w2, l1) K).
  assert (HK : forall x s, good s.1 s.2 -> rx_buf_ok x.2 -> K x s).
  { intros x [w3 l3] Hg3 Hx. unfold K. apply tsafely_bind, safely_on_dev.
    apply (add_buf_safe base ns TIPC_VQ_RX x.2 x.1 w3 l3); [exact Hg3|exact rx_lt|]. intros e w4 Hg4.
    destruct (e =? ERR_CHANNEL_CLOSED); [by apply tsafely_tret|].
    destruct (negb (e =? NO_ERROR)); [apply safely_panic|]. by apply IH. }
  clearbody K. destruct (r =? NO_ERROR); [|by apply tsafely_tret, HK]. by apply rx_msg_safe.
Qed.
End Rx.

(** ** The claims *)

(** C10: the receive thread survives the non-secure world.  However long it
    runs, whatever the other side stores in the queues and in the buffers that
    it offers and however it changes them while the thread reads them, the
    thread never uses an invalid pointer and stops the machine only
    deliberately; whenever it ends, its bitmap, endpoints, handle list and
    cookies still describe the same connections and the IPC objects are sound. *)
Theorem tipc_rx_thread_safe `{Vqueue.Platform} base ns others wait_fuel access ipc_mem fuel w l :
  others_good base others -> mem_ok ipc_mem -> good base w l ->
  match tipc_rx_thread_func ns others wait_fuel base access ipc_mem fuel (w, l) with
  | Done (Some r) s => r = 0 /\ good base s.1 s.2
  | Done None _ => True
  | Crash why => why = Panic
  end.
Proof.
  intros Ho Hm Hg.
  assert (Hs : tsafely (tipc_rx_thread_func ns others wait_fuel base access ipc_mem fuel) (w, l)
                 (fun r s => r = 0 /\ good base s.1 s.2)).
  { unfold tipc_rx_thread_func. apply tsafely_tbind. eapply tsafely_mono; [apply rx_loop_safe; auto using in_buf_ok|].
    intros [] s Hs. by apply tsafely_tret. }
  unfold tsafely, safely in Hs. by destruct (tipc_rx_thread_func _ _ _ _ _ _ _ _) as [[r|] s|why].
Qed.

(** C12: a message goes to the connection at its destination address, or
    nowhere.  The channel that the table has there gets it, and only if the
    sender is the remote end that made the connection; any other address, and
    any other sender, is answered with [ERR_NOT_FOUND] and changes nothing.
    At the channel ([sent], [kern_sent]): when it is connected and the other
    end has a free buffer, the message becomes the last one of the other end,
    with the bytes of the ring buffer as far as a receive buffer holds them
    (the rest is cut off, and the answer is the length that was kept), and the
    other end is signalled; when there is no free buffer nothing is queued,
    the channel is marked as blocked and the answer is
    [ERR_NOT_ENOUGH_BUFFER]; when the other end is gone, or the channel is
    still waiting, it is [ERR_CHANNEL_CLOSED] or [ERR_NOT_READY] and nothing
    changes.  The bookkeeping of the device stays sound in every case. *)
Theorem handle_chan_msg_routes base w l rem local a bs : dev_ok base w l -> a <> 0 ->
  kread a (length bs) (kmem_of w) = Some bs ->
  runs (handle_chan_msg rem local a (Z.of_nat (length bs))) w (fun r w' => dev_ok base w' l /\ w_vqs w' = w_vqs w /\
    w_dev w' = w_dev w /\ routed w rem local bs r w').
Proof. apply chan_msg_run. Qed.

(** C11: a connection request takes the first free slot for a channel that is
    new, connecting to the named port or waiting for it, and lists it for the
    transmit thread; the other connections stay.  When the request is refused,
    no slot is taken and the answer carries the error; when all 256 slots are
    used the new channel is closed again and the answer has the status of
    success, with local address 0. *)
Theorem handle_conn_req_connects `{Vqueue.Platform} base ns others wait_fuel access ipc_mem w l rem a bs :
  mem_ok ipc_mem -> dev_ok base w l -> kread a (Z.to_nat TIPC_MAX_SRV_NAME_LEN) (kmem_of w) = Some bs ->
  conn_post base access ipc_mem ns others wait_fuel w l rem (upto_nul bs)
    (handle_conn_req ns others wait_fuel base access ipc_mem rem a (w, l)).
Proof. intros Hm. by apply conn_run. Qed.

(** A disconnect request closes exactly one connection of its sender, or
    nothing: the one with the given local address if it is the sender's, else
    the first one of the sender.  Its channel leaves the list and is closed,
    its slot is free again, and every other address means what it did. *)
Lemma handle_disc_req_drops base w l rem a bs : dev_ok base w l -> kread a 4 (kmem_of w) = Some bs ->
  runs (handle_disc_req rem a) (w, l) (fun r s' => r = NO_ERROR /\ dev_ok base s'.1 s'.2 /\
    disconnected w l rem (le32 bs) s' /\ w_vqs s'.1 = w_vqs w).
Proof. intros Hd Hr. eapply disc_run; [exact Hd|exact Hr|]. auto. Qed.
End TipcRx.
