(* ===== verification/TipcReset.v ===== *)
(** * Hanging up and resetting a tipc device

    [handle_hup], [tipc_dev_reset] of [tipc_dev.c]. *)

From S2P Require Import Prelude Bitmap Iovec MsgQueue Handle Ipc IpcInv IpcKeep IpcSafe HandleList IpcHandle EptTable Vqueue TipcDev TipcDevInv.
From S2P Require Import TipcConn TipcWin TipcRx.

Module TipcReset.
Import Bitmap Iovec MsgQueue Handle Ipc IpcInv IpcKeep IpcSafe HandleList IpcHandle EptTable TipcDev TipcDevInv TipcConn TipcWin TipcRx.

Section Reset.
Context (base : Z).
Notation good := (good base).

Lemma ptr_slot_ptr i : ptr_slot base (ept_ptr base i) = i.
Proof.
  unfold ptr_slot, ept_ptr, sizeof_tipc_ept. replace (base + 16 * i - base) with (i * 16) by lia. by rewrite Z.div_mul.
Qed.

(** ** A channel that was hung up *)

(** The channel [c] of slot [i] is taken out of the device. *)
Definition hung_up (w : world) (l : handle_list hptr) (i : Z) (rem c : Z) (x : chan) (w' : world) (l' : handle_list hptr) : Prop :=
  dev_ok base w' l' /\ w_vqs w' = w_vqs w /\ closed c x (w_heap w) (w_heap w') /\
  handles l' = remove_first (HChan c) (handles l) /\
  (forall a, conn_at (w_dev w') a = if addr_to_slot a =? i then None else conn_at (w_dev w) a).

Context (ns : nat -> Z -> Z) (others : nat -> W -> W) (wait_fuel : nat) `{Vqueue.Platform}.

Lemma drop_listed w l i rem c x (Q : unit -> W -> Prop) : dev_ok base w l -> 0 <= i < 256 ->
  conn_at (w_dev w) (slot_to_addr i) = Some (rem, HChan c) -> chans (w_heap w) !! c = Some x ->
  (forall w' l', hung_up w l i rem c x w' l' -> w_dev w' = with_ept i (Ept 0 None) (inuse (w_dev w')) (w_dev w) ->
     wait_event l' = wait_event l -> Q tt (w', l')) ->
  runs (drop_chan (HChan c) ;;; on_dev (free_local_addr (ept_to_addr i))) (w, l) Q.
Proof.
  intros Hd Hi Hat Hx HQ. unfold conn_at in Hat. rewrite slot_addr, (proj2 (Z.ltb_lt i 256)) in Hat by lia.
  destruct (epts (w_dev w) !! Z.to_nat i) as [e|] eqn:He; [|done]. simpl in Hat.
  destruct (ept_chan e) as [y|] eqn:Ec; [|done]. injection Hat as _ ->.
  eapply (drop_ept_run base); [exact Hd|exact Hi|exact He|exact Ec|exact Hx|]. intros h' b Hcl Hb w' l' Hd'.
  apply HQ; [|done|done]. split; [done|]. split; [done|]. split; [exact Hcl|]. split; [done|].
  intros a. apply (conn_at_with i (Ept 0 None) b (w_dev w) a Hi (d_len _ _ _ Hd)).
Qed.

Lemma hup_run w l i rem c x : 0 < base -> dev_ok base w l -> 0 <= i < 256 ->
  conn_at (w_dev w) (slot_to_addr i) = Some (rem, HChan c) -> chans (w_heap w) !! c = Some x ->
  exists w' l', hung_up w l i rem c x w' l' /\
    handle_hup ns others wait_fuel base (HChan c) (w, l) =
      (send_disc_req ns others wait_fuel (slot_to_addr i) rem ~;; tret tt) (w', l').
Proof.
  intros Hb Hd Hi Hat Hx. pose proof Hat as Hat'. unfold conn_at in Hat.
  rewrite slot_addr, (proj2 (Z.ltb_lt i 256)) in Hat by lia.
  destruct (epts (w_dev w) !! Z.to_nat i) as [e|] eqn:He; [|done]. simpl in Hat.
  destruct (ept_chan e) as [y|] eqn:Ec; [|done]. injection Hat as Hrem ->.
  pose proof (d_ept _ _ _ Hd _ e He) as Hl. rewrite Z2Nat.id in Hl by lia.
  assert (Hbit : bit_at (inuse (w_dev w)) i = true) by (by apply (conn_at_bit base w l); eauto).
  rewrite Hbit in Hl. destruct Hl as (c' & z & Hc' & Hz & Hco & _). rewrite Ec in Hc'. injection Hc' as <-.
  assert (z = x) by congruence. subst z. rewrite Z2Nat.id in Hco by lia.
  assert (Hcook : get_cookie_ept base (HChan c) w = Done (Some i) w).
  { unfold get_cookie_ept, bind, on_ipc. rewrite (IpcTouch.IpcTouch.get_handle_run c _ x Hx). unfold handle_get_cookie.
    rewrite Hco, set_heap_id, ptr_slot_ptr. rewrite (proj2 (Z.eqb_neq _ 0)); [done|]. unfold ept_ptr, sizeof_tipc_ept. lia. }
  assert (Hget : get_ept i w = Done e w) by (unfold get_ept, get_dev, gets, bind; by rewrite He).
  destruct (proj1 (runs_done _ _ _) (drop_listed w l i rem c x (fun _ s => hung_up w l i rem c x s.1 s.2) Hd Hi Hat' Hx
    (fun w' l' Hh _ _ => Hh))) as ([] & [w' l'] & Hrun & Hh).
  exists w', l'. split; [exact Hh|]. unfold handle_hup.
  rewrite (bind_done _ _ _ _ _ (on_dev_done _ _ l _ _ Hcook)), (bind_done _ _ _ _ _ (on_dev_done _ _ l _ _ Hget)). cbv zeta.
  rewrite Hrem. unfold bind in *. destruct (drop_chan (HChan c) (w, l)) as [[] s1|why]; [|done]. simpl.
  by rewrite Hrun.
Qed.

(** ** Closing all connections *)

Lemma conn_at_out d a : 256 <= addr_to_slot a -> conn_at d a = None.
Proof. intros Ha. unfold conn_at. by rewrite (proj2 (Z.ltb_ge _ _)). Qed.

(** Nothing is connected. *)
Definition empty (w : world) (l : handle_list hptr) : Prop := handles l = [] /\ forall a, conn_at (w_dev w) a = None.

Lemma empty_handles w l : dev_ok base w l -> (forall a, conn_at (w_dev w) a = None) -> handles l = [].
Proof.
  intros Hd Hno. destruct (handles l) as [|x xs] eqn:E; [done|]. exfalso.
  assert (Hin : x ∈ handles l) by (rewrite E; left). apply (listed base w l x Hd) in Hin as (i & e & He & Hc).
  pose proof (lookup_lt_Some _ _ _ He) as Hlt. rewrite (d_len _ _ _ Hd) in Hlt.
  specialize (Hno (slot_to_addr (Z.of_nat i))). unfold conn_at in Hno.
  rewrite slot_addr, (proj2 (Z.ltb_lt _ _)), Nat2Z.id, He in Hno by lia. simpl in Hno. by rewrite Hc in Hno.
Qed.

(** The fields of a device beside its endpoints and its flags. *)
Definition same_rest (d d' : tipc_dev) : Prop := d' = Dev (devid d) (vstate d) (guest d) (dev_uuid d) (descr d) (epts d') (inuse d')
  (have_handles d) (rx_thread d) (tx_thread d) (tx_stop d) (rx_stop d).

Lemma close_loop_run n : forall i w l (Q : unit -> W -> Prop), dev_ok base w l -> 0 <= i -> i + Z.of_nat n = 256 ->
  (forall a, addr_to_slot a < i -> conn_at (w_dev w) a = None) ->
  (forall s, dev_ok base s.1 s.2 -> empty s.1 s.2 -> w_vqs s.1 = w_vqs w -> same_rest (w_dev w) (w_dev s.1) -> Q tt s) ->
  runs (close_loop n i) (w, l) Q.
Proof.
  induction n as [|n IH]; intros i w l Q Hd Hi Hn Hlow HQ; simpl.
  { apply runs_ret, HQ; [done| |done|unfold same_rest; simpl; by destruct (w_dev w)]. simpl.
    assert (Hno : forall a, conn_at (w_dev w) a = None).
    { intros a. destruct (Z.lt_ge_cases (addr_to_slot a) i); [by apply Hlow|]. apply conn_at_out. lia. }
    split; [by apply (empty_handles w l)|done]. }
  destruct (ept_lookup base w l i Hd ltac:(lia)) as [e He].
  assert (Hi256 : 0 <= i < 256) by lia.
  assert (Hat : conn_at (w_dev w) (slot_to_addr i) = (c ← ept_chan e; Some (remote e, c))).
  { unfold conn_at. rewrite slot_addr, (proj2 (Z.ltb_lt i 256)), He by lia. done. }
  pose proof (ept_used base w l _ e Hd He) as Hb. rewrite Z2Nat.id in Hb by lia.
  apply runs_bind'. unfold runs at 1. simpl. apply runs_bind'.
  eapply runs_deref; [apply (bit_run base w l); [done|lia]|]. rewrite Hb. apply runs_bind'.
  destruct (ept_chan e) as [x|] eqn:Ec; simpl in Hat |- *.
  - apply runs_bind', runs_on_dev. eapply get_ept_run; [exact He|]. rewrite Ec.
    destruct (listed_live base w l x Hd) as (j & e' & c & z & _ & _ & -> & Hz & _); [apply (listed base w l); eauto|].
    eapply drop_listed; [exact Hd|exact Hi256|exact Hat|exact Hz|]. intros w' l' (Hd' & Hq & _ & _ & Hc) Hdev _.
    apply IH; [done|lia|lia| |].
    + intros a Ha. rewrite Hc. destruct (addr_to_slot a =? i) eqn:E; zbool; [done|]. apply Hlow. lia.
    + intros s Hs He' Hv Hsame. apply HQ; [done|done|congruence|]. unfold same_rest in *. rewrite Hsame, Hdev. done.
  - apply runs_ret. apply IH; [done|lia|lia| |done]. intros a Ha.
    destruct (addr_to_slot a =? i) eqn:E; zbool; [|apply Hlow; lia]. unfold conn_at.
    rewrite (proj2 (Z.ltb_lt _ 256)), E, He by lia. simpl. by rewrite Ec.
Qed.

(** ** The reset *)

(** What only [tipc_dev_probe] and [tipc_dev_reset] write: the threads of the
    device with their stop flags, and where the rings are mapped. *)
Definition controls (d : tipc_dev) : option Z * bool * (option Z * bool) :=
  (rx_thread d, rx_stop d, (tx_thread d, tx_stop d)).
Definition rings (w : world) : list Z := Vqueue.vring_addr <$> w_vqs w.

(** The rest of the system leaves these alone, and without a receive thread
    nothing connects. *)
Definition others_idle : Prop := forall n w l, good w l -> let s := others n (w, l) in
  controls (w_dev s.1) = controls (w_dev w) /\ rings s.1 = rings w /\
  (rx_thread (w_dev w) = None -> empty w l -> empty s.1 s.2).

Context (Hothers : others_good base others) (Hidle : others_idle).

Lemma signal_run i w l (Q : unit -> world -> Prop) : good w l -> (i < 2)%nat ->
  (forall s, good (set_vst i s w) l -> rings (set_vst i s w) = rings w -> Q tt (set_vst i s w)) ->
  runs (on_vq i (Vqueue.vqueue_signal_avail ns)) w Q.
Proof.
  intros Hg Hi HQ. destruct (good_vq base w l i Hg Hi) as (q & Hq & Hwf). unfold runs, on_vq. rewrite Hq.
  unfold Vqueue.vqueue_signal_avail, bind, gets, ret. simpl.
  destruct (negb _); simpl; (apply HQ; [by apply good_set_vst|]; unfold rings; simpl;
    rewrite list_fmap_insert; apply list_insert_id; by rewrite list_lookup_fmap, Hq).
Qed.

(** A queue that is destroyed has no ring, and the ring is not mapped. *)
Lemma destroy_run i w l q (Q : unit -> world -> Prop) : good w l -> (i < 2)%nat -> w_vqs w !! i = Some q ->
  (forall s, Vqueue.vring_addr (Vqueue.st_vq s) = 0 -> Vqueue.regions s = delete (Vqueue.vring_addr q) (w_regions w) ->
     good (set_vst i s w) l -> Q tt (set_vst i s w)) ->
  runs (on_vq i Vqueue.vqueue_destroy) w Q.
Proof.
  intros Hg Hi Hq HQ. unfold runs, on_vq. rewrite Hq. unfold Vqueue.vqueue_destroy, bind, gets, modify. simpl.
  apply HQ; [done|done|]. apply good_set_vst; [done..|]. split; simpl; [lia|done].
Qed.

Lemma good_upd_dev w l f : good w l -> (forall d, epts (f d) = epts d /\ inuse (f d) = inuse d) -> good (set_dev (f (w_dev w)) w) l.
Proof. intros [Hd Hv] Hf. split; [|exact Hv]. apply dev_ok_dev; [done|apply Hf..]. Qed.

Lemma wait_run w l (Q : unit -> W -> Prop) : good w l ->
  (forall s, good s.1 s.2 -> controls (w_dev s.1) = controls (w_dev w) -> rings s.1 = rings w ->
     (rx_thread (w_dev w) = None -> empty w l -> empty s.1 s.2) -> Q tt s) ->
  runs (event_wait others) (w, l) Q.
Proof.
  intros Hg HQ. unfold event_wait, modify, runs. simpl.
  assert (Hg' : good (set_waits (S (w_waits w)) w) l).
  { eapply good_mem; [exact Hg|]. split; [done|]. split; [done|]. exists (user (w_heap w)). symmetry. apply set_user_id. }
  destruct (Hidle (w_waits w) _ _ Hg') as (Hc & Hr & He). apply HQ; [by apply Hothers|done..].
Qed.

(** [m] ends with [Q] when [b], and stops the machine on purpose when not. *)
Definition ends {A} (b : bool) (m : M W A) (s : W) (Q : A -> W -> Prop) : Prop :=
  match m s with Done a s' => b = true /\ Q a s' | Crash why => b = false /\ why = Panic end.

Lemma reset_bind {A B} b (m : M W A) (f : A -> M W B) s Q : runs m s (fun a s' => ends b (f a) s' Q) -> ends b (bind m f) s Q.
Proof. unfold ends, runs, bind. by destruct (m s). Qed.

(** A [thread_join] that must succeed. *)
Lemma reset_join {A} join b (m : M W A) s Q : (join = NO_ERROR -> ends b m s Q) ->
  ends ((join =? NO_ERROR) && b) ((if negb (join =? NO_ERROR) then panic else ret tt) ;;; m) s Q.
Proof. intros Hm. destruct (Z.eqb_spec join NO_ERROR) as [E|]; [by apply Hm|done]. Qed.

(** What a device looks like after the reset: [w] before, [s] after. *)
Definition cleared (w : world) (s : W) : Prop :=
  good s.1 s.2 /\ empty s.1 s.2 /\ vstate (w_dev s.1) = VDEV_STATE_RESET /\
  controls (w_dev s.1) = (None, false, (None, false)) /\
  (forall i q, w_vqs s.1 !! i = Some q -> Vqueue.vring_addr q = 0) /\
  (forall a, a ∈ rings w -> w_regions s.1 !! a = None).

(** The end of the reset, on the world after both joins. *)
Lemma unmap_run w l (Q : Z -> W -> Prop) w0 : good w l -> empty w l -> controls (w_dev w) = (None, false, (None, false)) ->
  rings w = rings w0 -> (forall s, cleared w0 s -> Q NO_ERROR s) ->
  runs (on_dev (on_vq TIPC_VQ_RX Vqueue.vqueue_destroy) ;;; on_dev (on_vq TIPC_VQ_TX Vqueue.vqueue_destroy) ;;;
        on_dev (upd_dev (set_vstate VDEV_STATE_RESET)) ;;; ret NO_ERROR) (w, l) Q.
Proof.
  intros Hg He Hc Hr HQ. pose proof Hg as [_ (tx & rx & Hv & _)]. unfold rings in Hr at 1. rewrite Hv in Hr. simpl in Hr.
  apply runs_bind', runs_on_dev. eapply (destroy_run TIPC_VQ_RX w l rx); [exact Hg|exact rx_lt|by rewrite Hv|]. intros s1 Hs1 Hd1 Hg1.
  apply runs_bind', runs_on_dev.
  eapply (destroy_run TIPC_VQ_TX _ l tx); [exact Hg1|exact tx_lt|change (<[1%nat:=Vqueue.st_vq s1]> (w_vqs w) !! 0%nat = Some tx); by rewrite Hv|].
  intros s2 Hs2 Hd2 Hg2. apply runs_bind'. unfold runs at 1. simpl. apply runs_ret, HQ. unfold cleared. cbn [fst snd].
  split_and!; try done.
  - change (forall i q, <[0%nat:=Vqueue.st_vq s2]> (<[1%nat:=Vqueue.st_vq s1]> (w_vqs w)) !! i = Some q -> Vqueue.vring_addr q = 0).
    rewrite Hv. simpl. intros [|[|i]] q Hq; simpl in Hq; [| |done]; injection Hq as <-; done.
  - intros a Ha. change (Vqueue.regions s2 !! a = None). rewrite Hd2. simpl. rewrite Hd1.
    rewrite <- Hr in Ha. apply list_elem_of_In in Ha. simpl in Ha.
    destruct (decide (Vqueue.vring_addr tx = a)) as [->|Hne]; [by rewrite lookup_delete_eq|].
    rewrite lookup_delete_ne by done. destruct Ha as [?|[->|[]]]; [done|]. by rewrite lookup_delete_eq.
Qed.

Lemma reset_run jr jt w l (Q : Z -> W -> Prop) : good w l -> vstate (w_dev w) <> VDEV_STATE_RESET ->
  (forall s, cleared w s -> Q NO_ERROR s) ->
  ends ((jr =? NO_ERROR) && ((jt =? NO_ERROR) && true)) (tipc_dev_reset ns others jr jt) (w, l) Q.
Proof.
  intros Hg Hst HQ. unfold tipc_dev_reset.
  set (big := Z.to_nat TIPC_ADDR_MAX_NUM). assert (Hbig : Z.of_nat big = 256) by done. clearbody big.
  apply reset_bind. unfold runs at 1. simpl.
  rewrite (proj2 (Z.eqb_neq (vstate (w_dev w)) _)) by exact Hst.
  apply reset_bind. unfold runs at 1. simpl. apply reset_bind, runs_on_dev.
  set (w1 := set_dev _ w). assert (Hg1 : good w1 l) by (by apply (good_upd_dev w l (fun d => set_rx (rx_thread d) true d))).
  eapply (signal_run TIPC_VQ_RX w1 l); [exact Hg1|exact rx_lt|]. intros q1 Hg2 Hq1.
  apply reset_bind. eapply wait_run; [exact Hg2|]. intros [w3 l3] Hg3 _ Hr3 _. cbn [fst snd] in *.
  apply reset_join. intros _. apply reset_bind. unfold runs at 1. simpl. apply reset_bind. unfold runs at 1. simpl.
  set (w4 := set_dev _ (set_dev _ w3)).
  assert (Hg4 : good w4 l3).
  { apply (good_upd_dev (set_dev (set_rx None false (w_dev w3)) w3) l3 (fun d => set_tx (tx_thread d) true d)); [|done].
    by apply (good_upd_dev w3 l3 (set_rx None false)). }
  apply reset_bind.
  eapply (close_loop_run big 0 w4 l3); [apply Hg4|lia|lia| |].
  { intros a Ha. pose proof (slot_range a). lia. }
  intros [w5 l5] Hd5 He5 Hv5 Hs5. cbn [fst snd] in *. assert (Hg5 : good w5 l5) by (eapply good_dev; [exact Hg4|done|done]).
  apply reset_bind. unfold runs at 1. simpl. set (w6 := set_dev _ w5).
  assert (Hg6 : good w6 l5) by (by apply (good_upd_dev w5 l5 (set_have_handles true))).
  apply reset_bind, runs_on_dev. eapply (signal_run TIPC_VQ_TX w6 l5); [exact Hg6|exact tx_lt|]. intros q7 Hg7 Hq7.
  apply reset_bind. eapply wait_run; [exact Hg7|]. intros [w8 l8] Hg8 Hc8 Hr8 He8. cbn [fst snd] in *.
  assert (Hc7 : controls (w_dev (set_vst TIPC_VQ_TX q7 w6)) = (None, false, (tx_thread (w_dev w3), true))).
  { simpl. rewrite Hs5. done. }
  assert (Hrx : rx_thread (w_dev (set_vst TIPC_VQ_TX q7 w6)) = None) by (unfold controls in Hc7; congruence).
  specialize (He8 Hrx He5). rewrite Hc7 in Hc8. unfold controls in Hc8. injection Hc8 as Hc8 Hc8' _ _.
  apply reset_join. intros _. apply reset_bind. unfold runs at 1. simpl. set (w9 := set_dev _ w8).
  assert (Hg9 : good w9 l8) by (by apply (good_upd_dev w8 l8 (set_tx None false))).
  assert (Hall : runs (on_dev (on_vq TIPC_VQ_RX Vqueue.vqueue_destroy) ;;; on_dev (on_vq TIPC_VQ_TX Vqueue.vqueue_destroy) ;;;
        on_dev (upd_dev (set_vstate VDEV_STATE_RESET)) ;;; ret NO_ERROR) (w9, l8) Q).
  { apply unmap_run with w; [done|done| | |done].
    - unfold controls. simpl. by rewrite Hc8, Hc8'.
    - change (rings w8 = rings w). rewrite Hr8, Hq7. transitivity (rings w3); [|by rewrite Hr3, Hq1].
      unfold rings. change (w_vqs w6) with (w_vqs w5). by rewrite Hv5. }
  unfold ends. unfold runs in Hall. destruct (_ ;;; _) as [a s'|why] in Hall |- *; [done|done].
Qed.
End Reset.

(** C13: resetting a device leaves it as it was created.  On a device that is
    already reset nothing happens.  On any other one, when both threads end
    in time (each [thread_join] succeeds), every connection is closed and its
    slot free, the handle list is empty, both threads are forgotten with
    their stop flags lowered, neither queue has a ring and the memory of both
    rings is unmapped, the state is reset, and the IPC objects are sound;
    when one of them does not, the machine is stopped on purpose.  While the
    reset waits for the threads, they, the applications and the other side
    may do whatever keeps the device consistent ([others_good]), except that
    only the reset writes the threads, the flags and where the rings are, and
    that nobody connects once the receive thread has ended ([others_idle]). *)
Theorem tipc_dev_reset_clears base ns others join_rx join_tx w l :
  others_good base others -> others_idle base others -> good base w l ->
  if vstate (w_dev w) =? VDEV_STATE_RESET then tipc_dev_reset ns others join_rx join_tx (w, l) = Done NO_ERROR (w, l)
  else match tipc_dev_reset ns others join_rx join_tx (w, l) with
  | Done r s => join_rx = NO_ERROR /\ join_tx = NO_ERROR /\ r = NO_ERROR /\ good base s.1 s.2 /\ empty s.1 s.2 /\
      vstate (w_dev s.1) = VDEV_STATE_RESET /\ rx_thread (w_dev s.1) = None /\ rx_stop (w_dev s.1) = false /\
      tx_thread (w_dev s.1) = None /\ tx_stop (w_dev s.1) = false /\
      (forall i q, w_vqs s.1 !! i = Some q -> Vqueue.vring_addr q = 0) /\
      (forall i q, w_vqs w !! i = Some q -> w_regions s.1 !! Vqueue.vring_addr q = None)
  | Crash why => why = Panic /\ (join_rx <> NO_ERROR \/ join_tx <> NO_ERROR)
  end.
Proof.
  intros Ho Hi Hg. destruct (Z.eqb_spec (vstate (w_dev w)) VDEV_STATE_RESET) as [E|Hst].
  { unfold tipc_dev_reset, bind at 1. simpl. by rewrite E. }
  pose proof (reset_run base ns others Ho Hi join_rx join_tx w l (fun r s => r = NO_ERROR /\ cleared base w s) Hg Hst) as H.
  specialize (H (fun s Hs => conj eq_refl Hs)). unfold ends in H. destruct (tipc_dev_reset _ _ _ _ _) as [r s|why].
  - destruct H as [Hj (-> & Hgs & Hes & Hvs & Hcs & Hqs & Hrs)]. unfold controls in Hcs. injection Hcs as ? ? ? ?.
    rewrite andb_true_r in Hj. apply andb_true_iff in Hj as [?%Z.eqb_eq ?%Z.eqb_eq]. split_and!; try done.
    intros i q Hq. apply Hrs. unfold rings. eapply list_elem_of_lookup_2. by rewrite list_lookup_fmap, Hq.
  - destruct H as [Hj ->]. split; [done|]. rewrite andb_true_r in Hj.
    apply andb_false_iff in Hj as [?%Z.eqb_neq|?%Z.eqb_neq]; auto.
Qed.

(** When the other end of a connection is gone, the transmit thread takes
    exactly that connection down: the channel leaves the list and is closed,
    its slot is free, every other address means what it did, and the remote
    end that made the connection is told, from its local address. *)
Lemma handle_hup_disconnects `{Vqueue.Platform} base ns others wait_fuel w l i rem c x : 0 < base -> dev_ok base w l ->
  0 <= i < 256 -> conn_at (w_dev w) (slot_to_addr i) = Some (rem, HChan c) -> chans (w_heap w) !! c = Some x ->
  exists w' l', hung_up base w l i rem c x w' l' /\
    handle_hup ns others wait_fuel base (HChan c) (w, l) =
      (send_disc_req ns others wait_fuel (slot_to_addr i) rem ~;; tret tt) (w', l').
Proof. apply hup_run. Qed.

End TipcReset.
