(* ===== verification/TipcDevDemo.v ===== *)
(** * A device with one connection, and the theorems on it *)

From S2P Require Import Prelude Bitmap Iovec MsgQueue Handle Ipc IpcInv IpcKeep IpcSafe IpcMsg IpcDemo HandleList IpcHandle.
From S2P Require Import EptTable Vqueue TipcDev TipcDevInv TipcConn TipcWin TipcRx TipcReset.

Module TipcDevDemo.
Import Bitmap Iovec MsgQueue Handle Ipc IpcInv IpcKeep IpcSafe IpcMsg IpcDemo HandleList IpcHandle.
Import EptTable TipcDev TipcDevInv TipcConn TipcWin TipcRx TipcReset.

(** A device that was just created has a sound, empty table. *)
Lemma new_dev_ok base h bs u g vqs : inv quiet h ->
  dev_ok base (World h (tipc_device_new bs u g) vqs [] ∅ [] 0) handle_list_init.
Proof. intros Hi. by apply (table_new ept_chan (Ept 0 None) 256 (ept_ptr base)). Qed.

Definition base : Z := 0x10000.

(** Channel 2 of the demonstration heap is the connection, in slot 0. *)
Definition linked2 : handle := Hnd 2 None base 5.
Definition bytes_at (a : Z) (bs : list Z) : kmem := map_seqZ a bs.
(** A disconnect request for address 1000, a message, and a port name. *)
Definition demo_kmem : kmem :=
  bytes_at 0x200 [232; 3; 0; 0] ∪ bytes_at 0x300 [1; 2; 3] ∪ bytes_at 0x400 ([97] ++ replicate 255 0).
Definition dev_heap : heap :=
  Ipc.set_user (set_kernel demo_kmem (user demo)) (upd 2 (set_handle linked2 chan2) demo).

Definition both : list Vqueue.vqueue := [Vqueue.demo_vq; Vqueue.demo_vq].
Definition new_world : world := World demo (tipc_device_new [] ZeroUuid 5) both [] ∅ [] 0.

Definition slot0 : bitmap := default [] (bitmap_set (bitmap_zero 256) 0).
Definition dev_w : world :=
  set_dev (with_ept 0 (Ept 77 (Some (HChan 2))) slot0 (w_dev new_world)) (set_heap dev_heap new_world).
Definition dev_l : handle_list hptr := HList [HChan 2] None.

Lemma dev_w_ok : dev_ok base dev_w dev_l.
Proof.
  destruct (bitmap_set_spec (bitmap_zero 256) 256 0) as (b & Hs & Hwf & Hbits); [by apply bitmap_zero_wf|done|].
  assert (Hb : slot0 = b) by (unfold slot0; by rewrite Hs).
  apply (dev_ok_add base new_world handle_list_init 0 slot0 77 2 (set_handle linked2 chan2) dev_heap None); try done.
  - apply new_dev_ok, demo_inv.
  - rewrite Hb. by split.
  - apply inv_user, (IpcTouch.IpcTouch.handle_inv demo 2 chan2); [apply demo_inv|done..].
  - intros d x Hd Hx _. exists x. split; [|done]. unfold dev_heap, upd. simpl. by rewrite lookup_insert_ne.
  - apply not_elem_of_nil.
Qed.

Lemma dev_w_good : good base dev_w dev_l.
Proof. split; [apply dev_w_ok|]. exists Vqueue.demo_vq, Vqueue.demo_vq. split_and!; auto; apply Vqueue.vq_ring_wf, Vqueue.demo_vq_wf. Qed.

(** Allocations that fail, which keeps every promise. *)
Definition poor (w : world) : bool * allocs * bool := (true, Allocs false (false, None) (false, None), true).
Lemma poor_ok : mem_ok poor.
Proof. intros w p y _. by split. Qed.

(** Nobody else runs, but the receive thread is told to stop after a while. *)
Definition nobody (n : nat) (s : W) : W := s.
Definition stopper (n : nat) (s : W) : W :=
  if decide (n = 1%nat) then (set_dev (set_rx (rx_thread (w_dev s.1)) true (w_dev s.1)) s.1, s.2) else s.
Lemma stopper_good : others_good base stopper.
Proof.
  intros n w l Hg. unfold stopper. destruct (decide _); [|done]. by apply (good_upd_dev base w l (fun d => set_rx (rx_thread d) true d)).
Qed.

(** A ring with one message of 4 bytes for address 1000 from 77, in a buffer
    at 0x5000, which the kernel maps at 0x5001. *)
Definition message : list Z := tipc_hdr_bytes 77 1000 4 0 ++ [9; 8; 7; 6].
Definition rx_ns (n : nat) (a : Z) : Z :=
  if a =? 0x80000042 then 1                               (* available: 1 *)
  else if a =? 0x80000000 then 0x5000 else if a =? 0x80000008 then 20
  else if (0x5001 <=? a) && (a <? 0x5001 + 20) then nth (Z.to_nat (a - 0x5001)) message 0 else 0.

Definition queue_of (c : Z) (h : heap) : list (list Z) := default [] (x ← chans h !! c; pending <$> msg_queue x).

Lemma tipc_rx_thread_safe_witness : exists s,
  tipc_rx_thread_func (H := Vqueue.demo_platform) rx_ns stopper 1 base allow poor 3 (dev_w, dev_l) = Done (Some 0) s /\
  good base s.1 s.2 /\ queue_of 3 (w_heap s.1) = [[9; 8; 7; 6]].
Proof.
  pose proof (tipc_rx_thread_safe (H := Vqueue.demo_platform) base rx_ns stopper 1 allow poor 3 dev_w dev_l stopper_good poor_ok dev_w_good) as Hs.
  assert (Hq : match tipc_rx_thread_func (H := Vqueue.demo_platform) rx_ns stopper 1 base allow poor 3 (dev_w, dev_l) with
               | Done (Some _) s => queue_of 3 (w_heap s.1) | _ => [] end = [[9; 8; 7; 6]]) by (vm_compute; reflexivity).
  destruct (tipc_rx_thread_func _ _ _ _ _ _ _ _) as [[r|] s|why]; [|discriminate Hq..].
  destruct Hs as [-> Hg]. exists s. split; [reflexivity|]. split; [exact Hg|exact Hq].
Defined.

(** The message arrives at channel 3, the other end of the connection. *)
Lemma handle_chan_msg_routes_witness :
  exists w', handle_chan_msg 77 1000 0x300 3 dev_w = Done 3 w' /\ routed dev_w 77 1000 [1; 2; 3] 3 w' /\
    queue_of 3 (w_heap w') = [[1; 2; 3]].
Proof.
  pose proof (handle_chan_msg_routes base dev_w dev_l 77 1000 0x300 [1; 2; 3] dev_w_ok ltac:(lia) ltac:(vm_compute; reflexivity)) as H.
  rewrite runs_done in H. destruct H as (r & w' & Hrun & _ & _ & _ & Hr). 
  assert (Hq : match handle_chan_msg 77 1000 0x300 3 dev_w with Done r w1 => (r, queue_of 3 (w_heap w1)) | _ => (0, []) end =
    (3, [[1; 2; 3]])) by (vm_compute; reflexivity).
  change (length [1; 2; 3]) with 3%nat in Hrun. change (Z.of_nat 3) with 3 in Hrun. rewrite Hrun in Hq. injection Hq as -> Hq.
  exists w'. split; [exact Hrun|]. split; [exact Hr|exact Hq].
Defined.

Lemma handle_conn_req_connects_witness :
  conn_post base allow poor rx_ns nobody 1 (H := Vqueue.demo_platform) dev_w dev_l 78 (upto_nul ([97] ++ replicate 255 0))
    (handle_conn_req (H := Vqueue.demo_platform) rx_ns nobody 1 base allow poor 78 0x400 (dev_w, dev_l)).
Proof.
  apply (handle_conn_req_connects (H := Vqueue.demo_platform) base rx_ns nobody 1 allow poor dev_w dev_l 78 0x400
    ([97] ++ replicate 255 0) poor_ok dev_w_ok). vm_compute. reflexivity.
Defined.

Lemma handle_disc_req_drops_witness :
  exists s, handle_disc_req 77 0x200 (dev_w, dev_l) = Done NO_ERROR s /\ disconnected dev_w dev_l 77 1000 s.
Proof.
  pose proof (handle_disc_req_drops base dev_w dev_l 77 0x200 [232; 3; 0; 0] dev_w_ok ltac:(vm_compute; reflexivity)) as H.
  rewrite runs_done in H. destruct H as (r & s & Hrun & -> & _ & Hd & _). exists s. split; [exact Hrun|exact Hd].
Defined.

Lemma dev_w_conn : conn_at (w_dev dev_w) (slot_to_addr 0) = Some (77, HChan 2).
Proof. reflexivity. Qed.

Lemma handle_hup_disconnects_witness : exists w' l',
  hung_up base dev_w dev_l 0 77 2 (set_handle linked2 chan2) w' l' /\
  handle_hup (H := Vqueue.demo_platform) rx_ns nobody 1 base (HChan 2) (dev_w, dev_l) =
    (send_disc_req (H := Vqueue.demo_platform) rx_ns nobody 1 (slot_to_addr 0) 77 ~;; tret tt) (w', l').
Proof.
  apply (handle_hup_disconnects (H := Vqueue.demo_platform) base rx_ns nobody 1 dev_w dev_l 0 77 2 (set_handle linked2 chan2));
    [reflexivity|exact dev_w_ok|lia|exact dev_w_conn|reflexivity].
Defined.

(** The device, active, with its threads and its rings in their mapping. *)
Definition ring_at : Z := Vqueue.vring_addr Vqueue.demo_vq.
Definition active_dev : tipc_dev :=
  set_tx (Some 2) false (set_rx (Some 1) false (set_vstate VDEV_STATE_ACTIVE (w_dev dev_w))).
Definition active_w : world := set_dev active_dev (World (w_heap dev_w) (w_dev dev_w) both [] {[ring_at := (0x8000, 4096, 0)]} [] 0).

Lemma active_good : good base active_w dev_l.
Proof.
  apply (good_upd_dev base (World (w_heap dev_w) (w_dev dev_w) both [] {[ring_at := (0x8000, 4096, 0)]} [] 0) dev_l
    (fun d => set_tx (Some 2) false (set_rx (Some 1) false (set_vstate VDEV_STATE_ACTIVE d)))); [|done].
  destruct dev_w_good as [Hd Hv]. split; [by apply (dev_ok_same base dev_w)|exact Hv].
Qed.
Lemma active_up : (vstate (w_dev active_w) =? VDEV_STATE_RESET) = false.
Proof. reflexivity. Qed.
Lemma nobody_ok : others_good base nobody /\ others_idle base nobody.
Proof. split; by intros n w l. Qed.

Lemma tipc_dev_reset_clears_witness :
  (exists s, tipc_dev_reset rx_ns nobody NO_ERROR NO_ERROR (active_w, dev_l) = Done NO_ERROR s /\ empty s.1 s.2 /\
     rx_stop (w_dev s.1) = false /\ w_regions active_w !! ring_at = Some (0x8000, 4096, 0) /\ w_regions s.1 !! ring_at = None) /\
  tipc_dev_reset rx_ns nobody NO_ERROR (-1) (active_w, dev_l) = Crash Panic.
Proof.
  split.
  - pose proof (tipc_dev_reset_clears base rx_ns nobody NO_ERROR NO_ERROR active_w dev_l (proj1 nobody_ok) (proj2 nobody_ok) active_good) as H.
    rewrite active_up in H. destruct (tipc_dev_reset _ _ _ _ _) as [r s|why].
    + destruct H as (_ & _ & -> & _ & He & _ & _ & Hs & _ & _ & _ & Hr). exists s. split; [reflexivity|]. split; [exact He|].
      split; [exact Hs|]. split; [reflexivity|]. exact (Hr 0%nat Vqueue.demo_vq eq_refl).
    + by destruct H as [_ [?|?]].
  - pose proof (tipc_dev_reset_clears base rx_ns nobody NO_ERROR (-1) active_w dev_l (proj1 nobody_ok) (proj2 nobody_ok) active_good) as H.
    rewrite active_up in H. destruct (tipc_dev_reset _ _ _ _ _) as [r s|why].
    + by destruct H as (_ & ? & _).
    + by destruct H as [-> _].
Defined.

(** ** A message that is lost

    Channel 2 holds one message for the other side, whose ring offers a buffer
    of 8 bytes. *)
Definition tx_world : world :=
  match ipc_send_msg (Some (HChan 3)) (MsgKern 1 (Some [IovecKern 0x300 3]) 0) dev_heap with
  | Done _ h => set_heap h dev_w
  | Crash _ => dev_w
  end.
Definition small_ns (n : nat) (a : Z) : Z :=
  if a =? 0x80000042 then 1 else if a =? 0x80000000 then 0x5000 else if a =? 0x80000008 then 8
  else if a =? 0x8000000c then Vqueue.VRING_DESC_F_WRITE else 0.
Definition free_in (c : Z) (h : heap) : Z := default 0 (x ← chans h !! c; capacity <$> msg_queue x).

(** A buffer that is too small for the header costs the message and its place
    in the queue: the message is taken out of the queue, not delivered, and
    not put back, so the channel has one buffer less for good. *)
Example handle_tx_msg_loses :
  queue_of 2 (w_heap tx_world) = [[1; 2; 3]] /\
  match handle_tx_msg (H := Vqueue.demo_platform) small_ns nobody 2 base 2 (HChan 2) (tx_world, dev_l) with
  | Done (Some tt) s => queue_of 2 (w_heap s.1) = [] /\ free_in 2 (w_heap s.1) = 0 /\ w_sent s.1 = []
  | _ => False
  end.
Proof. vm_compute. auto. Qed.

End TipcDevDemo.
