(* ===== verification/TipcDevQl.v ===== *)
(** * The queue-less tipc device

    [lib/trusty/tipc_dev_ql.c], [tipc_dev_ql.h]: a device without virtio
    queues.  The boot loader shares one buffer with it and sends each command
    in a secure monitor call; the answer is written over the command. *)

From S2P Require Import Prelude Bitmap Iovec MsgQueue Handle Ipc HandleList IpcHandle SmCall Vqueue TipcDev.

Module TipcDevQl.
Import Bitmap Iovec MsgQueue Handle Ipc HandleList IpcHandle.

(** ** Constants *)

Definition QL_TIPC_DEV_MAX_NUM : Z := 2.
Definition QL_TIPC_ADDR_MAX_NUM : Z := 32.
Definition QL_TIPC_ADDR_BASE : Z := 32.
Definition TIPC_MAX_SRV_NAME_LEN : Z := 256.

Definition QL_TIPC_DEV_RESP : Z := 0x8000.
Definition QL_TIPC_DEV_CONNECT : Z := 1.
Definition QL_TIPC_DEV_GET_EVENT : Z := 2.
Definition QL_TIPC_DEV_SEND : Z := 3.
Definition QL_TIPC_DEV_RECV : Z := 4.
Definition QL_TIPC_DEV_DISCONNECT : Z := 5.

(** [struct tipc_cmd_hdr], [tipc_event], [tipc_wait_req], [tipc_connect_req];
    the local request of [dev_connect], whose 273 bytes are padded to a
    multiple of the alignment of its first field. *)
Definition sizeof_tipc_cmd_hdr : Z := 16.
Definition sizeof_tipc_event : Z := 16.
Definition sizeof_tipc_wait_req : Z := 8.
Definition sizeof_tipc_connect_req : Z := 16.
Definition sizeof_req : Z := (sizeof_tipc_connect_req + (TIPC_MAX_SRV_NAME_LEN + 1) + 7) / 8 * 8.
Definition sizeof_tipc_ept : Z := 16.

Definition bytes64 (x : Z) : list Z := TipcDev.bytes32 (u32 x) ++ TipcDev.bytes32 (x / 2 ^ 32).
Definition le64 (bs : list Z) : Z := le32 (take 4 bs) + 2 ^ 32 * le32 (take 4 (drop 4 bs)).

(** ** The device *)

Record tipc_ept := Ept { ept_chan : option hptr; ept_cookie : Z }.

(** [epts_at]: the address of the endpoints in the device. *)
Record ql_tipc_dev := Dev {
  hlist : handle_list hptr;
  ns_mmu_flags : Z;
  ns_sz : Z;
  ns_pa : Z;
  ns_va : Z;
  guest : Z;
  dev_uuid : uuid;
  inuse : bitmap;
  epts : list tipc_ept;
  epts_at : Z
}.

Definition set_hlist (x : handle_list hptr) (d : ql_tipc_dev) : ql_tipc_dev :=
  Dev x (ns_mmu_flags d) (ns_sz d) (ns_pa d) (ns_va d) (guest d) (dev_uuid d) (inuse d) (epts d) (epts_at d).
Definition set_inuse (x : bitmap) (d : ql_tipc_dev) : ql_tipc_dev :=
  Dev (hlist d) (ns_mmu_flags d) (ns_sz d) (ns_pa d) (ns_va d) (guest d) (dev_uuid d) x (epts d) (epts_at d).
Definition set_ept (i : Z) (x : tipc_ept) (d : ql_tipc_dev) : ql_tipc_dev :=
  Dev (hlist d) (ns_mmu_flags d) (ns_sz d) (ns_pa d) (ns_va d) (guest d) (dev_uuid d) (inuse d)
    (<[Z.to_nat i := x]> (epts d)) (epts_at d).
Definition set_va (x : Z) (d : ql_tipc_dev) : ql_tipc_dev :=
  Dev (hlist d) (ns_mmu_flags d) (ns_sz d) (ns_pa d) x (guest d) (dev_uuid d) (inuse d) (epts d) (epts_at d).

(** The IPC objects and kernel memory, and the device. *)
Notation W := (heap * ql_tipc_dev)%type.

Definition on_heap {A} (m : M heap A) : M W A := fun s =>
  match m s.1 with Done a h => Done a (h, s.2) | Crash e => Crash e end.
Definition on_mem {A} (m : M mem A) : M W A := on_heap (on_user m).
Definition on_list {A} (m : M (heap * handle_list hptr) A) : M W A := fun s =>
  match m (s.1, hlist s.2) with Done a (h, l) => Done a (h, set_hlist l s.2) | Crash e => Crash e end.
Definition get_dev : M W ql_tipc_dev := gets snd.
Definition upd_dev (f : ql_tipc_dev -> ql_tipc_dev) : M W unit := modify (fun s => (s.1, f s.2)).

(** ** Addresses and endpoints *)

Definition addr_to_slot (addr : Z) : Z := u32 (addr - QL_TIPC_ADDR_BASE).
Definition slot_to_addr (slot : Z) : Z := u32 (slot + QL_TIPC_ADDR_BASE).

(** A pointer to an endpoint is the address of its entry in [epts]. *)
Definition ept_ptr (at_ slot : Z) : Z := at_ + sizeof_tipc_ept * slot.
Definition ptr_slot (at_ p : Z) : Z := (p - at_) / sizeof_tipc_ept.

Definition get_ept (slot : Z) : M W tipc_ept := d <- get_dev ;; deref (epts d !! Z.to_nat slot).

Definition alloc_local_addr (chan : hptr) (cookie : Z) : M W Z :=
  d <- get_dev ;;
  slot <- deref (bitmap_ffz (inuse d) QL_TIPC_ADDR_MAX_NUM) ;;
  if 0 <=? slot then
    b <- deref (bitmap_set (inuse d) slot) ;;
    upd_dev (set_inuse b) ;;;
    _ <- get_ept slot ;;
    upd_dev (set_ept slot (Ept (Some chan) cookie)) ;;;
    ret (slot_to_addr slot)
  else ret 0.

(** The slot of the endpoint, if there is one. *)
Definition ept_lookup (local : Z) : M W (option Z) :=
  let slot := addr_to_slot local in
  if slot <? QL_TIPC_ADDR_MAX_NUM then
    d <- get_dev ;;
    used <- deref (bitmap_test (inuse d) slot) ;;
    ret (if used then Some slot else None)
  else ret None.

Definition ept_to_addr (slot : Z) : Z := slot_to_addr slot.

Definition free_local_addr (local : Z) : M W unit :=
  let slot := addr_to_slot local in
  if slot <? QL_TIPC_ADDR_MAX_NUM then
    d <- get_dev ;;
    b <- deref (bitmap_clear (inuse d) slot) ;;
    upd_dev (set_inuse b) ;;;
    _ <- get_ept slot ;;
    upd_dev (set_ept slot (Ept None 0))
  else ret tt.

(** [handle_list_del], [handle_set_cookie], [handle_close]. *)
Definition drop_chan (chan : hptr) : M W unit :=
  on_list (handle_list_del chan ;;;
           on_obj (upd_handle chan (handle_set_cookie 0)) ;;;
           on_obj (handle_close chan)).

(** The channel of the endpoint that [target] names. *)
Definition target_chan (target : Z) : M W (option hptr) :=
  e <- ept_lookup target ;;
  match e with
  | None => ret None
  | Some slot => x <- get_ept slot ;; ret (ept_chan x)
  end.

(** ** The shared buffer *)

Definition store (off : Z) (bs : list Z) : M W unit :=
  d <- get_dev ;; on_mem (memcpy_to (ns_va d + off) bs).

(** The fields [status], [payload_len] and [opcode] of the header, in the
    order of the stores. *)
Definition set_status (cmd err len : Z) : M W Z :=
  store 4 (TipcDev.bytes32 (if err <? 0 then 1 else 0)) ;;;
  store 12 (TipcDev.bytes32 (u32 len)) ;;;
  store 0 (TipcDev.bytes16 (u16 (Z.lor cmd QL_TIPC_DEV_RESP))) ;;;
  ret err.

(** [*evt], in the order of the stores: [handle], [event], [cookie]. *)
Definition store_event (hnd event cookie : Z) : M W unit :=
  store (sizeof_tipc_cmd_hdr + 4) (TipcDev.bytes32 hnd) ;;;
  store sizeof_tipc_cmd_hdr (TipcDev.bytes32 event) ;;;
  store (sizeof_tipc_cmd_hdr + 8) (bytes64 cookie).

(** ** The commands

    [polls], [lpolls]: how the waits in a command go, none of which sleeps;
    [ev] is the event on the stack of the wait. *)
Section Commands.
Context (access : Z -> uuid -> Z) (ipc_mem : heap -> bool * allocs * bool).
Context (ev : Z) (polls : list (Z * (heap -> heap))).
Context (lpolls : list (Z * (heap * handle_list hptr -> heap * handle_list hptr))).

(** [ipc_port_connect_async] and [alloc_local_addr]: the codes of both, and
    the channel if there is one. *)
Definition open_conn (name : list Z) (max_path cookie : Z) : M W (Z * Z * option hptr) :=
  d <- get_dev ;;
  s <- get ;;
  let '(ok, al, dup) := ipc_mem s.1 in
  r <- on_heap (ipc_port_connect_async access ok al dup (guest d) (Some (dev_uuid d)) name max_path 0) ;;
  if negb (r.1 =? NO_ERROR) then ret (r.1, 0, None)
  else
    chan <- deref r.2 ;;
    local <- alloc_local_addr chan cookie ;;
    if local =? 0 then on_heap (handle_close chan) ;;; ret (r.1, local, None)
    else ret (r.1, local, Some chan).

Definition dev_connect (ns_payload ns_payload_len : Z) : M W Z :=
  let opcode := QL_TIPC_DEV_CONNECT in
  if ns_payload_len <=? sizeof_tipc_connect_req then set_status opcode ERR_INVALID_ARGS 0
  else if sizeof_req <=? ns_payload_len then set_status opcode ERR_INVALID_ARGS 0
  else
    req <- on_mem (memcpy_from ns_payload ns_payload_len) ;;
    let name := drop (Z.to_nat sizeof_tipc_connect_req) req ++ [0] in
    r <- open_conn name (ns_payload_len - sizeof_tipc_connect_req) (le64 (take 8 req)) ;;
    let '(rc, local, o) := r in
    if negb (rc =? NO_ERROR) then set_status opcode rc 0
    else
      match o with
      | None => set_status opcode ERR_NO_RESOURCES 0
      | Some chan =>
          e <- ept_lookup local ;;
          d <- get_dev ;;
          let c := match e with Some slot => ept_ptr (epts_at d) slot | None => 0 end in
          on_list (on_obj (upd_handle chan (handle_set_cookie c)) ;;; handle_list_add false chan) ;;;
          store 8 (TipcDev.bytes32 local) ;;;
          set_status opcode 0 0
      end.

Definition dev_disconnect (target : Z) : M W Z :=
  x <- target_chan target ;;
  match x with
  | None => ret SmCall.SM_ERR_INVALID_PARAMETERS
  | Some chan =>
      drop_chan chan ;;;
      free_local_addr target ;;;
      set_status QL_TIPC_DEV_DISCONNECT 0 0
  end.

Definition dev_send (ns_data len target : Z) : M W Z :=
  let opcode := QL_TIPC_DEV_SEND in
  x <- target_chan target ;;
  match x with
  | None => set_status opcode ERR_INVALID_ARGS 0
  | Some chan =>
      r <- on_heap (ipc_send_msg (Some chan) (MsgKern 1 (Some [Iovec.IovecKern ns_data len]) 0)) ;;
      set_status opcode r 0
  end.

Definition dev_recv (target : Z) : M W Z :=
  let opcode := QL_TIPC_DEV_RECV in
  x <- target_chan target ;;
  match x with
  | None => set_status opcode ERR_INVALID_ARGS 0
  | Some chan =>
      r <- on_heap (ipc_get_msg (Some chan)) ;;
      if r.1 <? 0 then set_status opcode r.1 0
      else
        mi <- deref r.2 ;;
        d <- get_dev ;;
        rc <- on_heap (ipc_read_msg (Some chan) (info_id mi) 0 (MsgKern 1
                (Some [Iovec.IovecKern (ns_va d + sizeof_tipc_cmd_hdr) (ns_sz d - sizeof_tipc_cmd_hdr)]) 0)) ;;
        _ <- on_heap (ipc_put_msg (Some chan) (info_id mi)) ;;
        if rc <? 0 then set_status opcode rc 0
        else if rc <? info_len mi then set_status opcode ERR_BAD_LEN 0
        else set_status opcode rc (info_len mi)
  end.

(** The wait on one handle. *)
Definition wait_target (target : Z) : M W (option (option Z)) :=
  e <- ept_lookup target ;;
  match e with
  | None => tret None
  | Some slot =>
      x <- get_ept slot ;;
      match ept_chan x with
      | None => tret None
      | Some chan =>
          r <~ on_heap (handle_wait ev chan polls) ;;
          (if r.1 =? ERR_TIMED_OUT then store_event 0 0 0
           else if r.1 <? 0 then panic
           else store_event target r.2 (ept_cookie x)) ;;;
          tret (Some 0)
      end
  end.

(** The wait on all handles.  Where no handle was ready [chan] is a null
    pointer. *)
Definition wait_any : M W (option Z) :=
  r <~ on_list (handle_list_wait ev lpolls) ;;
  if r.1 =? ERR_NOT_FOUND then tret r.1
  else
    (if r.1 =? ERR_TIMED_OUT then store_event 0 0 0 else ret tt) ;;;
    (if (r.1 <? 0) && negb (r.1 =? ERR_TIMED_OUT) then panic
     else
       x <- deref r.2 ;;
       d <- get_dev ;;
       y <- on_heap (get_handle x.1) ;;
       let ept := handle_get_cookie y in
       let slot := ptr_slot (epts_at d) ept in
       store (sizeof_tipc_cmd_hdr + 4) (TipcDev.bytes32 (ept_to_addr slot)) ;;;
       store sizeof_tipc_cmd_hdr (TipcDev.bytes32 x.2) ;;;
       (if ept =? 0 then bad_access else ret tt) ;;;
       e <- get_ept slot ;;
       store (sizeof_tipc_cmd_hdr + 8) (bytes64 (ept_cookie e)) ;;;
       on_heap (decref x.1)) ;;;
    tret 0.

Definition dev_get_event (ns_sz target : Z) : M W (option Z) :=
  let opcode := QL_TIPC_DEV_GET_EVENT in
  if ns_sz <? sizeof_tipc_wait_req then tlift (set_status opcode ERR_INVALID_ARGS 0)
  else if negb (target =? 0) then
    r <~ wait_target target ;;
    match r with
    | None => tlift (set_status opcode ERR_INVALID_ARGS 0)
    | Some _ => tlift (set_status opcode 0 sizeof_tipc_event)
    end
  else
    r <~ wait_any ;;
    if r =? ERR_NOT_FOUND then tlift (set_status opcode r 0)
    else tlift (set_status opcode 0 sizeof_tipc_event).

(** [struct tipc_cmd_hdr], as it was copied out. *)
Record tipc_cmd_hdr := CmdHdr { opcode : Z; flags : Z; status : Z; cmd_handle : Z; payload_len : Z }.

Definition dev_handle_cmd (cmd : tipc_cmd_hdr) (ns_payload : Z) : M W (option Z) :=
  if opcode cmd =? QL_TIPC_DEV_SEND then tlift (dev_send ns_payload (payload_len cmd) (cmd_handle cmd))
  else if opcode cmd =? QL_TIPC_DEV_RECV then tlift (dev_recv (cmd_handle cmd))
  else if opcode cmd =? QL_TIPC_DEV_GET_EVENT then dev_get_event (payload_len cmd) (cmd_handle cmd)
  else if opcode cmd =? QL_TIPC_DEV_CONNECT then tlift (dev_connect ns_payload (payload_len cmd))
  else if opcode cmd =? QL_TIPC_DEV_DISCONNECT then tlift (dev_disconnect (cmd_handle cmd))
  else tlift (set_status (opcode cmd) ERR_NOT_SUPPORTED 0).

Definition cmd_hdr_of (bs : list Z) : tipc_cmd_hdr :=
  CmdHdr (TipcDev.le16 (take 2 bs)) (TipcDev.le16 (take 2 (drop 2 bs))) (le32 (take 4 (drop 4 bs)))
    (le32 (take 4 (drop 8 bs))) (le32 (take 4 (drop 12 bs))).

(** The part of [ql_tipc_handle_cmd] behind the lookup. *)
Definition dev_command (cmd_sz : Z) : M W (option Z) :=
  if cmd_sz <? sizeof_tipc_cmd_hdr then tret SmCall.SM_ERR_INVALID_PARAMETERS
  else
    d <- get_dev ;;
    bs <- on_mem (memcpy_from (ns_va d) sizeof_tipc_cmd_hdr) ;;
    let cmd := cmd_hdr_of bs in
    if negb (payload_len cmd =? cmd_sz - sizeof_tipc_cmd_hdr) then tret SmCall.SM_ERR_INVALID_PARAMETERS
    else dev_handle_cmd cmd (ns_va d + sizeof_tipc_cmd_hdr).
End Commands.

(** ** The devices *)

(** The list of devices, the newest first, with their number. *)
Record world := World {
  w_heap : heap;
  w_regions : Vqueue.kregions;
  _dev_list : list ql_tipc_dev;
  _dev_cnt : Z
}.

Definition put_dev (i : nat) (s : W) (w : world) : world :=
  World s.1 (w_regions w) (<[i := s.2]> (_dev_list w)) (_dev_cnt w).

Definition dev_lookup (buf_pa : Z) (w : world) : option (nat * ql_tipc_dev) :=
  list_find (fun d => ns_pa d = buf_pa) (_dev_list w).

Definition on_dev {A} (i : nat) (m : M W A) : M world A := fun w =>
  match _dev_list w !! i with
  | None => Crash BadAccess
  | Some d => match m (w_heap w, d) with Done a s => Done a (put_dev i s w) | Crash e => Crash e end
  end.

(** What the shared buffer holds when a command comes was chosen by the other
    side; a command reads each of its bytes at most once. *)
Definition ns_window (ns : Z -> Z) (d : ql_tipc_dev) : kmem := TipcDev.window (fun _ => ns) 0 (ns_va d) (ns_sz d).
Definition show (ns : Z -> Z) (s : W) : W :=
  (Ipc.set_user (set_kernel (ns_window ns s.2 ∪ kernel (user s.1)) (user s.1)) s.1, s.2).
(** The buffer is no longer mapped. *)
Definition hide (s : W) : W :=
  (Ipc.set_user (set_kernel (kernel (user s.1) ∖ ns_window (fun _ => 0) s.2) (user s.1)) s.1, s.2).

Section Devices.
Context `{Vqueue.Platform}.

(** [mem]: the address of the endpoints in what [calloc] returns. *)
Definition dev_create (buf_pa buf_sz buf_mmu_flags : Z) (mem : option Z) : M world Z :=
  w <- get ;;
  if bool_decide (is_Some (dev_lookup buf_pa w)) then ret SmCall.SM_ERR_INVALID_PARAMETERS
  else if negb (Z.land buf_pa (PAGE_SIZE - 1) =? 0) then ret SmCall.SM_ERR_INVALID_PARAMETERS
  else if buf_sz =? 0 then ret SmCall.SM_ERR_INVALID_PARAMETERS
  else if negb (Z.land buf_sz (PAGE_SIZE - 1) =? 0) then ret SmCall.SM_ERR_INVALID_PARAMETERS
  else if QL_TIPC_DEV_MAX_NUM <=? _dev_cnt w then ret SmCall.SM_ERR_NOT_ALLOWED
  else
    match mem with
    | None => ret SmCall.SM_ERR_INTERNAL_FAILURE
    | Some at_ =>
        match Vqueue.vmm_alloc_physical (w_regions w) buf_pa (ROUNDUP buf_sz PAGE_SIZE) buf_mmu_flags with
        | inl _ => ret SmCall.SM_ERR_INTERNAL_FAILURE
        | inr va =>
            let d := Dev handle_list_init buf_mmu_flags buf_sz buf_pa va 0 ZeroUuid (bitmap_zero QL_TIPC_ADDR_MAX_NUM)
                       (replicate (Z.to_nat QL_TIPC_ADDR_MAX_NUM) (Ept None 0)) at_ in
            modify (fun w => World (w_heap w) (<[va := (buf_pa, ROUNDUP buf_sz PAGE_SIZE, buf_mmu_flags)]> (w_regions w))
                               (d :: _dev_list w) (u32 (_dev_cnt w + 1))) ;;;
            ret 0
        end
    end.

(** [n] slots are left from [slot]. *)
Fixpoint close_loop (n : nat) (slot : Z) : M W unit :=
  match n with
  | O => ret tt
  | S n =>
      d <- get_dev ;;
      used <- deref (bitmap_test (inuse d) slot) ;;
      (if used then
         x <- get_ept slot ;;
         match ept_chan x with
         | Some chan => drop_chan chan
         | None => ret tt
         end
       else ret tt) ;;;
      close_loop n (slot + 1)
  end.

(** The device at index [i] of the list; it is freed at the end, so only the
    heap remains. *)
Definition dev_shutdown (i : nat) : M world unit := fun w =>
  match _dev_list w !! i with
  | None => Crash BadAccess
  | Some d =>
      (assert_ (negb (ns_va d =? 0)) ;;;
       modify (fun w => World (hide (w_heap w, d)).1 (delete (ns_va d) (w_regions w)) (delete i (_dev_list w))
                          (u32 (_dev_cnt w - 1))) ;;;
       (fun w => match close_loop (length (epts d)) 0 (w_heap w, set_va 0 d) with
                 | Done _ s => Done tt (World s.1 (w_regions w) (_dev_list w) (_dev_cnt w))
                 | Crash e => Crash e
                 end)) w
  end.

Definition ql_tipc_create_device (buf_pa buf_sz buf_mmu_flags : Z) (mem : option Z) : M world Z :=
  dev_create buf_pa buf_sz buf_mmu_flags mem.

Definition ql_tipc_shutdown_device (buf_pa : Z) : M world Z :=
  w <- get ;;
  match dev_lookup buf_pa w with
  | None => ret SmCall.SM_ERR_INVALID_PARAMETERS
  | Some (i, _) => dev_shutdown i ;;; ret 0
  end.

Definition ql_tipc_handle_cmd (access : Z -> uuid -> Z) (ipc_mem : heap -> bool * allocs * bool) (ev : Z)
    (polls : list (Z * (heap -> heap))) (lpolls : list (Z * (heap * handle_list hptr -> heap * handle_list hptr)))
    (ns : Z -> Z) (buf_pa cmd_sz : Z) : M world (option Z) :=
  w <- get ;;
  match dev_lookup buf_pa w with
  | None => tret SmCall.SM_ERR_INVALID_PARAMETERS
  | Some (i, _) => on_dev i (modify (show ns) ;;; dev_command access ipc_mem ev polls lpolls cmd_sz)
  end.
End Devices.
End TipcDevQl.
