(* ===== verification/TipcDevQlInv.v ===== *)
(** * Commands of the queue-less tipc device

    Whatever the other side puts into the shared buffer, a command leaves the
    endpoint table of its device sound and the other devices alone. *)

From S2P Require Import Prelude Bitmap Iovec MsgQueue MemKeep Handle Ipc IpcInv IpcKeep IpcSafe IpcMsg HandleList IpcHandle.
From S2P Require Import IpcTouch IpcWait EptTable SmCall TipcDev TipcWin TipcDevQl.

Module TipcDevQlInv.
Import Bitmap Iovec MsgQueue MemKeep Handle Ipc IpcInv IpcKeep IpcSafe IpcMsg HandleList IpcHandle IpcTouch IpcWait EptTable TipcDevQl.

(** ** Runs in the parts of the state *)

Lemma runs_on_heap {A} (m : M heap A) s (Q : A -> W -> Prop) :
  runs m s.1 (fun a h => Q a (h, s.2)) -> runs (on_heap m) s Q.
Proof. unfold runs, on_heap. by destruct (m s.1). Qed.

Lemma runs_on_list {A} (m : M (heap * handle_list hptr) A) s (Q : A -> W -> Prop) :
  runs m (s.1, hlist s.2) (fun a t => Q a (t.1, set_hlist t.2 s.2)) -> runs (on_list m) s Q.
Proof. unfold runs, on_list. by destruct (m _) as [a []|]. Qed.

(** ** The invariant *)

Definition table (h : heap) (d : ql_tipc_dev) : Prop :=
  table_ok ept_chan (Ept None 0) 32 (ept_ptr (epts_at d)) h (epts d) (inuse d) (handles (hlist d)).

(** The channels of a device have queues, and nobody waits on them. *)
Definition ends_ok (h : heap) (l : list hptr) : Prop :=
  forall c x, HChan c ∈ l -> chans h !! c = Some x -> Handle.wait_event (c_handle x) = None /\ is_Some (msg_queue x).

Record dev_ok (s : W) : Prop := {
  q_table : table s.1 s.2;
  q_wait : HandleList.wait_event (hlist s.2) = None;
  q_ends : ends_ok s.1 (handles (hlist s.2));
  q_at : 0 < epts_at s.2;
  q_va : 0 < ns_va s.2;
  q_sz : PAGE_SIZE <= ns_sz s.2 < 2 ^ 32
}.

(** Every byte of the shared buffer can be read and written. *)
Definition buffer (s : W) : Prop := TipcWin.present (ns_va s.2) (ns_sz s.2) (kernel (user s.1)).

Definition good (s : W) : Prop := dev_ok s /\ buffer s.

(** What no command changes. *)
Definition same_rest (d d' : ql_tipc_dev) : Prop :=
  ns_mmu_flags d' = ns_mmu_flags d /\ ns_sz d' = ns_sz d /\ ns_pa d' = ns_pa d /\ ns_va d' = ns_va d /\
  guest d' = guest d /\ dev_uuid d' = dev_uuid d /\ epts_at d' = epts_at d.

(** From [s] to [s'] memory stays, the channels of others keep their handles
    and queues, and what the device gained is new. *)
Record step (s s' : W) : Prop := {
  s_mem : mem_kept (user s.1) (user s'.1);
  s_rest : same_rest s.2 s'.2;
  s_ends : forall c x, HChan c ∉ handles (hlist s.2) -> chans s.1 !! c = Some x -> 0 < refcnt (c_handle x) ->
    exists x', chans s'.1 !! c = Some x' /\ same_end x x';
  s_new : forall c, HChan c ∈ handles (hlist s'.2) -> HChan c ∈ handles (hlist s.2) \/ chans s.1 !! c = None
}.

Lemma same_rest_refl d : same_rest d d.
Proof. done. Qed.

Lemma step_refl s : step s s.
Proof. split; [done|done|intros c x _ Hx _; exists x; split; [done|apply same_end_refl]|auto]. Qed.

(** The device is as it was, and every channel that has a handle keeps it. *)
Record calm (s s' : W) : Prop := {
  k_dev : s'.2 = s.2;
  k_mem : mem_kept (user s.1) (user s'.1);
  k_ends : forall c x, chans s.1 !! c = Some x -> 0 < refcnt (c_handle x) -> exists x', chans s'.1 !! c = Some x' /\ same_end x x'
}.

Lemma calm_refl s : calm s s.
Proof. split; [done|done|]. intros c x Hx _. exists x. split; [done|apply same_end_refl]. Qed.

Lemma calm_trans a b c : calm a b -> calm b c -> calm a c.
Proof.
  intros [D1 M1 E1] [D2 M2 E2]. split; [congruence|by eapply mem_kept_trans|].
  intros d x Hx Hr. destruct (E1 d x Hx Hr) as (x1 & Hx1 & He1 & Hq1).
  destruct (E2 d x1 Hx1) as (x2 & Hx2 & He2 & Hq2); [by rewrite He1|]. exists x2. split; [done|]. split; [congruence|auto].
Qed.

Lemma step_calm s s1 s2 : step s s1 -> calm s1 s2 -> step s s2.
Proof.
  intros [M R E N] [Hd Hm He]. split; rewrite ?Hd; [by eapply mem_kept_trans|done| |exact N].
  intros c x Hc Hx Hr. destruct (E c x Hc Hx Hr) as (x1 & Hx1 & He1 & Hq1).
  destruct (He c x1 Hx1) as (x2 & Hx2 & He2 & Hq2); [by rewrite He1|]. exists x2. split; [done|]. split; [congruence|auto].
Qed.

Lemma calm_step s s' : calm s s' -> step s s'.
Proof. intros Hc. eapply step_calm; [apply step_refl|done]. Qed.

(** The channels of a table all have handles. *)
Lemma ql_listed_live s c : dev_ok s -> HChan c ∈ handles (hlist s.2) -> exists i e x, epts s.2 !! i = Some e /\
  ept_chan e = Some (HChan c) /\ chans s.1 !! c = Some x /\ cookie (c_handle x) = ept_ptr (epts_at s.2) (Z.of_nat i) /\
  2 <= refcnt (c_handle x).
Proof.
  intros Hd Hin. destruct (table_live ept_chan (Ept None 0) 32 _ eq_refl _ _ _ _ _ (q_table _ Hd) Hin)
    as (i & e & c' & x & He & Hc & [= <-] & Hx & Hk & Hr). by exists i, e, x.
Qed.

Lemma good_calm s s' : good s -> calm s s' -> inv quiet s'.1 -> good s'.
Proof.
  intros [Hd B] [Hs Hm He] Hi. pose proof Hd as [T1 T2 T3 T4 T5 T6]. split.
  - split; rewrite ?Hs; auto.
    + apply (table_heap ept_chan (Ept None 0) 32 _ s.1); [exact T1|done|]. intros c x _ Hx Hr.
      destruct (He c x Hx Hr) as (x' & Hx' & Heq & _). exists x'. rewrite Heq. split_and!; done || lia.
    + intros c x' Hin Hx'. destruct (ql_listed_live s c Hd Hin) as (i & e & x & _ & _ & Hx & _ & Hr).
      destruct (He c x Hx) as (x1 & Hx1 & Heq & Hq); [lia|]. assert (x1 = x') by congruence. subst x1.
      destruct (T3 c x Hin Hx) as [Hw Hmq]. rewrite Heq. auto.
  - unfold buffer in *. rewrite Hs. intros i Hi'. apply Hm. by apply B.
Qed.

(** A heap operation that keeps the handles. *)
Lemma run_calm {A} (m : M heap A) s (R Q : A -> W -> Prop) : good s -> (forall P n, keep P n m any) ->
  runs m s.1 (fun a h => inv quiet h /\ R a (h, s.2)) ->
  (forall a s', good s' -> calm s s' -> R a s' -> Q a s') -> runs (on_heap m) s Q.
Proof.
  intros Hg Hk Hm HQ. pose proof (t_inv _ _ _ _ _ _ _ _ (q_table _ (proj1 Hg))) as Hi. apply runs_on_heap.
  eapply runs_mono; [eapply (runs_and _ _ _ (fun _ h => mem_kept (user s.1) (user h) /\ ends_kept (next_obj s.1) s.1 h)); [exact Hm|]|].
  { intros a h E. eapply (keep_ends (next_obj s.1)); [exact Hi|apply Hk|exact E]. }
  cbv beta. intros a h [[Hi' HR] [Hmem He]].
  assert (Hc : calm s (h, s.2)).
  { split; [done|done|]. intros c x Hx Hr. apply (He c x); [|done|done]. intros ->.
    pose proof (table_next _ _ _ _ _ _ _ _ (q_table _ (proj1 Hg))). congruence. }
  apply HQ; [by eapply good_calm|done|done].
Qed.

(** ** The shared buffer *)

Lemma store_run off bs s (Q : unit -> W -> Prop) : good s -> 0 <= off -> off + Z.of_nat (length bs) <= ns_sz s.2 ->
  (forall k, kwrite (ns_va s.2 + off) bs (kernel (user s.1)) = Some k ->
     let s' := (Ipc.set_user (set_kernel k (user s.1)) s.1, s.2) in good s' -> calm s s' -> Q tt s') ->
  runs (store off bs) s Q.
Proof.
  intros Hg Ho Hl HQ. unfold store. apply runs_bind. unfold get_dev, runs at 1, gets.
  destruct (TipcWin.present_write bs (ns_va s.2 + off) (kernel (user s.1))) as (k & Hk & _).
  { eapply TipcWin.present_sub; [apply (proj2 Hg)|lia|lia]. }
  unfold on_mem. apply runs_on_heap. unfold runs, on_user, memcpy_to. rewrite Hk.
  assert (Hc : calm s (Ipc.set_user (set_kernel k (user s.1)) s.1, s.2)).
  { split; [done| |].
    - intros a Ha. simpl. by eapply kwrite_kept.
    - intros c x Hx _. exists x. split; [done|apply same_end_refl]. }
  apply (HQ k Hk); [|done]. eapply good_calm; [done|done|]. apply inv_user. apply (t_inv _ _ _ _ _ _ _ _ (q_table _ (proj1 Hg))).
Qed.

(** The answer in the header of the buffer. *)
Definition answered (s : W) (cmd err len : Z) : Prop :=
  let k := kernel (user s.1) in
  kread (ns_va s.2) 2 k = Some (TipcDev.bytes16 (u16 (Z.lor cmd QL_TIPC_DEV_RESP))) /\
  kread (ns_va s.2 + 4) 4 k = Some (TipcDev.bytes32 (if err <? 0 then 1 else 0)) /\
  kread (ns_va s.2 + 12) 4 k = Some (TipcDev.bytes32 (u32 len)).

Lemma set_status_run cmd err len s (Q : Z -> W -> Prop) : good s ->
  (forall u, let s' := (Ipc.set_user u s.1, s.2) in good s' -> calm s s' -> answered s' cmd err len ->
     (forall b n, sizeof_tipc_cmd_hdr <= b -> kread (ns_va s.2 + b) n (kernel u) = kread (ns_va s.2 + b) n (kernel (user s.1))) ->
     kread (ns_va s.2 + 8) 4 (kernel u) = kread (ns_va s.2 + 8) 4 (kernel (user s.1)) -> Q err s') ->
  runs (set_status cmd err len) s Q.
Proof.
  intros Hg HQ. pose proof (q_sz _ (proj1 Hg)) as Hsz. unfold PAGE_SIZE in Hsz. unfold set_status.
  apply runs_bind. eapply store_run; [done|lia|simpl; lia|]. intros k1 W1 s1 G1 C1. 
  apply runs_bind. eapply store_run; [done|lia|simpl; lia|]. intros k2 W2 s2 G2 C2.
  apply runs_bind. eapply store_run; [done|lia|simpl; lia|]. intros k3 W3 s3 G3 C3.
  apply runs_ret. cbn [fst snd s1 s2] in *. assert (C : calm s s3) by (eapply calm_trans; [done|by eapply calm_trans]).
  rewrite Z.add_0_r in W3. refine (HQ (set_kernel k3 (user s2.1)) G3 C _ _ _).
  2: { intros b n Hb. unfold sizeof_tipc_cmd_hdr in Hb. cbn [kernel set_kernel].
       rewrite (kread_apart _ _ _ _ _ _ W3), (kread_apart _ _ _ _ _ _ W2), (kread_apart _ _ _ _ _ _ W1) by (simpl; lia). done. }
  2: { cbn [kernel set_kernel].
       rewrite (kread_apart _ _ _ _ _ _ W3), (kread_apart _ _ _ _ _ _ W2), (kread_apart _ _ _ _ _ _ W1) by (simpl; lia). done. }
  unfold answered. cbn [fst snd user Ipc.set_user kernel set_kernel]. split; [|split].
  - exact (kread_written _ _ _ _ W3).
  - rewrite (kread_apart _ _ _ _ _ _ W3) by (simpl; lia). rewrite (kread_apart _ _ _ _ _ _ W2) by (simpl; lia).
    exact (kread_written _ _ _ _ W1).
  - rewrite (kread_apart _ _ _ _ _ _ W3) by (simpl; lia). exact (kread_written _ _ _ _ W2).
Qed.

(** ** Addresses *)

(** What the table says of an address: the channel and the cookie. *)
Definition conn_at (d : ql_tipc_dev) (a : Z) : option (hptr * Z) :=
  if addr_to_slot a <? 32 then
    e ← epts d !! Z.to_nat (addr_to_slot a); c ← ept_chan e; Some (c, ept_cookie e)
  else None.

Lemma ql_slot_range a : 0 <= addr_to_slot a < 2 ^ 32.
Proof. apply uwrap_range. lia. Qed.

Lemma ql_slot_addr i : 0 <= i < 32 -> addr_to_slot (slot_to_addr i) = i.
Proof.
  intros Hi. unfold addr_to_slot, slot_to_addr, QL_TIPC_ADDR_BASE, u32. rewrite (uwrap_small 32 (i + 32)) by lia.
  rewrite uwrap_small; lia.
Qed.

Lemma slot_addr_pos i : 0 <= i < 32 -> slot_to_addr i <> 0.
Proof. intros Hi. unfold slot_to_addr, u32, QL_TIPC_ADDR_BASE. rewrite uwrap_small; lia. Qed.

Definition with_ept (i : Z) (e : tipc_ept) (b : bitmap) (d : ql_tipc_dev) : ql_tipc_dev := set_ept i e (set_inuse b d).

Lemma ql_conn_at_with i e b d a : 0 <= i < 32 -> length (epts d) = 32%nat ->
  conn_at (with_ept i e b d) a = if addr_to_slot a =? i then (c ← ept_chan e; Some (c, ept_cookie e)) else conn_at d a.
Proof.
  intros Hi Hl. unfold conn_at. simpl epts. pose proof (ql_slot_range a). set (s := addr_to_slot a) in *.
  destruct (s =? i) eqn:E; zbool.
  - subst i. rewrite (proj2 (Z.ltb_lt s 32)) by lia. by rewrite list_lookup_insert_eq by lia.
  - destruct (s <? 32) eqn:E2; [|done]. by rewrite list_lookup_insert_ne by lia.
Qed.

Section Lookup.
Context (s : W) (Hd : dev_ok s).
Notation tbl := (q_table _ Hd).

Lemma ept_at i : 0 <= i < 32 -> exists e, epts s.2 !! Z.to_nat i = Some e.
Proof. apply (table_lookup _ _ _ _ _ _ _ _ i tbl). Qed.

Lemma bit_test i : 0 <= i < 32 -> bitmap_test (inuse s.2) i = Some (bit_at (inuse s.2) i).
Proof. apply (table_test _ _ _ _ _ _ _ _ i tbl). Qed.

Lemma bit_used i e : 0 <= i < 32 -> epts s.2 !! Z.to_nat i = Some e ->
  bit_at (inuse s.2) i = bool_decide (is_Some (ept_chan e)).
Proof.
  intros Hi He. rewrite <- (table_used ept_chan (Ept None 0) 32 _ eq_refl _ _ _ _ _ _ tbl He). by rewrite Z2Nat.id by lia.
Qed.

Lemma ql_get_ept_run i e (Q : tipc_ept -> W -> Prop) : epts s.2 !! Z.to_nat i = Some e -> Q e s -> runs (get_ept i) s Q.
Proof. intros He HQ. unfold get_ept. apply runs_bind. unfold get_dev, runs at 1, gets. eapply runs_deref; eauto. Qed.

Lemma lookup_run a (Q : option Z -> W -> Prop) :
  Q (if conn_at s.2 a then Some (addr_to_slot a) else None) s -> runs (ept_lookup a) s Q.
Proof.
  intros HQ. unfold ept_lookup, conn_at in *. pose proof (ql_slot_range a) as Hr. set (i := addr_to_slot a) in *.
  change QL_TIPC_ADDR_MAX_NUM with 32. destruct (i <? 32) eqn:E; zbool; [|by apply runs_ret].
  destruct (ept_at i) as [e He]; [lia|]. rewrite He in HQ. simpl in HQ.
  apply runs_bind. unfold get_dev, runs at 1, gets. apply runs_bind. eapply runs_deref; [apply bit_test; lia|].
  rewrite (bit_used i e) by (lia || done). apply runs_ret. destruct (ept_chan e); simpl in *; done.
Qed.

Lemma target_run a (Q : option hptr -> W -> Prop) : Q (fst <$> conn_at s.2 a) s -> runs (target_chan a) s Q.
Proof.
  intros HQ. unfold target_chan. apply runs_bind, lookup_run. unfold conn_at in *. pose proof (ql_slot_range a) as Hr.
  set (i := addr_to_slot a) in *. destruct (i <? 32) eqn:E; zbool; [|by apply runs_ret].
  destruct (ept_at i) as [e He]; [lia|]. rewrite He in *. simpl in *. destruct (ept_chan e) as [c|] eqn:Ec; simpl in *; [|by apply runs_ret].
  apply runs_bind. eapply ql_get_ept_run; [exact He|]. apply runs_ret. by rewrite Ec.
Qed.

(** The channel behind an address. *)
Lemma conn_live a c k : conn_at s.2 a = Some (c, k) -> exists d x mq e, c = HChan d /\ HChan d ∈ handles (hlist s.2) /\
  0 <= addr_to_slot a < 32 /\ epts s.2 !! Z.to_nat (addr_to_slot a) = Some e /\ ept_chan e = Some c /\ ept_cookie e = k /\
  chans s.1 !! d = Some x /\ msg_queue x = Some mq /\ Handle.wait_event (c_handle x) = None /\ 2 <= refcnt (c_handle x).
Proof.
  unfold conn_at. pose proof (ql_slot_range a) as Hr. set (i := addr_to_slot a) in *. destruct (i <? 32) eqn:E; zbool; [|done].
  destruct (ept_at i) as [e He]; [lia|]. rewrite He. simpl. destruct (ept_chan e) as [c'|] eqn:Ec; [|done]. simpl. intros [= -> <-].
  assert (Hin : c ∈ handles (hlist s.2)).
  { apply (table_listed _ _ _ _ _ _ _ _ _ tbl). eauto. }
  destruct (table_live ept_chan (Ept None 0) 32 _ eq_refl _ _ _ _ _ tbl Hin) as (j & e' & d & x & _ & _ & -> & Hx & _ & Hrc).
  destruct (q_ends _ Hd d x Hin Hx) as [Hw [mq Hmq]]. exists d, x, mq, e. split_and!; try done; lia.
Qed.
End Lookup.
End TipcDevQlInv.
