(* ===== verification/TipcDevQlCmd.v ===== *)
(** * What each command of the queue-less tipc device does

    The effect of a command on the connections, the channels and the shared
    buffer, command by command, and the proof that the handlers have it. *)

From S2P Require Import Prelude Bitmap Iovec MsgQueue MemKeep Handle Ipc IpcInv IpcKeep IpcSafe IpcMsg HandleList IpcHandle.
From S2P Require Import IpcTouch IpcWait EptTable SmCall TipcDev TipcWin TipcDevQl TipcDevQlInv.

Module TipcDevQlCmd.
Import Bitmap Iovec MsgQueue MemKeep Handle Ipc IpcInv IpcKeep IpcSafe IpcMsg HandleList IpcHandle IpcTouch IpcWait EptTable.
Import TipcDevQl TipcDevQlInv.

(** [s'] has the device and the channels of [s]. *)
Definition same_conns (s s' : W) : Prop := s'.2 = s.2 /\ chans s'.1 = chans s.1.

(** The bytes behind the header. *)
Definition payload (s : W) (n : Z) : option (list Z) :=
  kread (ns_va s.2 + sizeof_tipc_cmd_hdr) (Z.to_nat n) (kernel (user s.1)).

(** What a command does: the payload that it reads, its result and the state
    that it leaves. *)
Definition send_effect (target : Z) (bs : list Z) (s : W) (r : Z) (s' : W) : Prop :=
  answered s' QL_TIPC_DEV_SEND r 0 /\ s'.2 = s.2 /\
  match conn_at s.2 target with
  | Some (HChan c, _) => exists x, chans s.1 !! c = Some x /\
      match c_state x with
      | CONNECTED => sent (kern_sent bs) s.1 c x r s'.1
      | DISCONNECTING => r = ERR_CHANNEL_CLOSED /\ same_conns s s'
      | _ => r = ERR_NOT_READY /\ same_conns s s'
      end
  | _ => r = ERR_INVALID_ARGS /\ same_conns s s'
  end.

(** The oldest message of the channel is taken out of its queue; it is in the
    buffer if it fits, else it is lost. *)
Definition recv_effect (target : Z) (s : W) (r : Z) (s' : W) : Prop :=
  s'.2 = s.2 /\
  match conn_at s.2 target with
  | Some (HChan c, _) => exists x mq, chans s.1 !! c = Some x /\ msg_queue x = Some mq /\
      match pending mq with
      | [] => r = ERR_NO_MSG /\ same_conns s s' /\ answered s' QL_TIPC_DEV_RECV r 0
      | msg :: rest =>
          (exists mq', chans s'.1 !! c = Some (set_mq (Some mq') x) /\ pending mq' = rest) /\
          let len := Z.of_nat (length msg) in
          if len <=? ns_sz s.2 - sizeof_tipc_cmd_hdr then
            r = len /\ answered s' QL_TIPC_DEV_RECV r len /\ payload s' len = Some msg
          else r = ERR_BAD_LEN /\ answered s' QL_TIPC_DEV_RECV r 0
      end
  | _ => r = ERR_INVALID_ARGS /\ same_conns s s' /\ answered s' QL_TIPC_DEV_RECV r 0
  end.

Lemma good_inv s : good s -> inv quiet s.1.
Proof. intros [Hd _]. apply (t_inv _ _ _ _ _ _ _ _ (q_table _ Hd)). Qed.

Lemma ql_send_run target bs s (Q : Z -> W -> Prop) : good s -> payload s (Z.of_nat (length bs)) = Some bs ->
  (forall r s', good s' -> calm s s' -> send_effect target bs s r s' -> Q r s') ->
  runs (dev_send (ns_va s.2 + sizeof_tipc_cmd_hdr) (Z.of_nat (length bs)) target) s Q.
Proof.
  intros Hg Hb HQ. unfold payload in Hb. rewrite Nat2Z.id in Hb. pose proof (proj1 Hg) as Hd. unfold dev_send. apply runs_bind.
  apply (target_run s Hd). destruct (conn_at s.2 target) as [[c k]|] eqn:Ec; simpl.
  - destruct (conn_live s Hd target c k Ec) as (d & x & mq & e & -> & _ & _ & _ & _ & _ & Hx & _).
    apply runs_bind. eapply (run_calm _ _ (fun r s1 => match c_state x with
      | CONNECTED => sent (kern_sent bs) s.1 d x r s1.1
      | DISCONNECTING => r = ERR_CHANNEL_CLOSED /\ s1.1 = s.1
      | _ => r = ERR_NOT_READY /\ s1.1 = s.1
      end)); [exact Hg|intros P n; apply keep_send| |].
    { apply (send_kern_run s.1 d x (ns_va s.2 + sizeof_tipc_cmd_hdr) bs); [by apply good_inv|exact Hx| |exact Hb].
      pose proof (q_va _ Hd). unfold sizeof_tipc_cmd_hdr. lia. }
    intros r s1 G1 C1 Hr. pose proof (k_dev _ _ C1) as E2. apply set_status_run; [exact G1|]. intros u s' G' C' Ha _ _.
    apply HQ; [done|by eapply calm_trans|]. split; [done|]. split; [exact E2|]. rewrite Ec. exists x. split; [done|].
    destruct (c_state x); try exact Hr;
      (destruct Hr as [-> Hh]; split; [done|split; [exact E2|cbn [fst s' Ipc.set_user chans]; by rewrite Hh]]).
  - apply set_status_run; [done|]. intros u s' G' C' Ha _ _. apply HQ; [done|done|]. split; [done|]. split; [done|]. by rewrite Ec.
Qed.

(** The message [id] of the channel [d] is read into the buffer and put
    back. *)
Lemma recv_message_run s s0 d x mq id msg rest (Q : Z -> W -> Prop) : good s -> chans s.1 !! d = Some x ->
  msg_queue x = Some mq -> reading mq id = Some msg -> 0 <= id -> pending mq = rest -> calm s0 s ->
  (forall r s', good s' -> calm s0 s' ->
     (exists mq', chans s'.1 !! d = Some (set_mq (Some mq') x) /\ pending mq' = rest) ->
     (let len := Z.of_nat (length msg) in
      if len <=? ns_sz s.2 - sizeof_tipc_cmd_hdr then
        r = len /\ answered s' QL_TIPC_DEV_RECV r len /\ payload s' len = Some msg
      else r = ERR_BAD_LEN /\ answered s' QL_TIPC_DEV_RECV r 0) -> Q r s') ->
  runs (rc <- on_heap (ipc_read_msg (Some (HChan d)) id 0 (MsgKern 1
          (Some [Iovec.IovecKern (ns_va s.2 + sizeof_tipc_cmd_hdr) (ns_sz s.2 - sizeof_tipc_cmd_hdr)]) 0)) ;;
        _ <- on_heap (ipc_put_msg (Some (HChan d)) id) ;;
        if rc <? 0 then set_status QL_TIPC_DEV_RECV rc 0
        else if rc <? Z.of_nat (length msg) then set_status QL_TIPC_DEV_RECV ERR_BAD_LEN 0
        else set_status QL_TIPC_DEV_RECV rc (Z.of_nat (length msg))) s Q.
Proof.
  intros Hg Hx Hmq Hrd Hid Hp C0 HQ. pose proof (proj1 Hg) as Hd. pose proof (q_sz _ Hd) as Hsz. unfold PAGE_SIZE in Hsz.
  pose proof (q_va _ Hd) as Hva. set (n := ns_sz s.2 - sizeof_tipc_cmd_hdr) in *. set (bs := take (Z.to_nat n) msg).
  assert (Hn : 0 < n) by (unfold n, sizeof_tipc_cmd_hdr; lia).
  assert (Hbs : Z.of_nat (length bs) <= n) by (unfold bs; rewrite length_take; lia).
  destruct (TipcWin.present_write bs (ns_va s.2 + sizeof_tipc_cmd_hdr) (kernel (user s.1))) as (kk & Hk & _).
  { eapply TipcWin.present_sub; [apply (proj2 Hg)| |]; unfold sizeof_tipc_cmd_hdr in *; lia. }
  apply runs_bind. eapply (run_calm _ _ (fun r s1 => r = Z.of_nat (length bs) /\ s1.1 = Ipc.set_user (set_kernel kk (user s.1)) s.1));
    [exact Hg|intros P m; apply keep_read_msg| |].
  { eapply read_kern_run; [by apply good_inv|exact Hx|exact Hmq|exact Hrd| |lia|exact Hk|].
    - unfold sizeof_tipc_cmd_hdr. lia.
    - split; [by apply inv_user, good_inv|]. done. }
  intros r s2 G2 C2 (-> & E2). pose proof (k_dev _ _ C2) as D2.
  apply runs_bind. eapply (run_calm _ _ (fun (r : Z) s1 => user s1.1 = user s2.1 /\
      exists mq', chans s1.1 !! d = Some (set_mq (Some mq') x) /\ pending mq' = rest));
    [exact G2|intros P m; apply keep_put_msg| |].
  { eapply runs_mono; [apply (put_run s2.1 d x mq id); [by apply good_inv|by rewrite E2|exact Hmq|exact Hid]|].
    cbv beta. rewrite Hrd. intros _ h' (Hi' & _ & _ & Hu & (mq' & Hc & Hpm & _) & _). split; [done|]. split; [done|]. exists mq'.
    split; [done|]. congruence. }
  intros _ s3 G3 C3 [Hu Hc]. pose proof (k_dev _ _ C3) as D3.
  assert (C : calm s0 s3) by (eapply calm_trans; [exact C0|by eapply calm_trans]).
  rewrite (proj2 (Z.ltb_ge _ 0)) by lia.
  destruct (Z.of_nat (length bs) <? Z.of_nat (length msg)) eqn:E; zbool; (apply set_status_run; [done|]; intros u s' G' C' Ha Hsame _);
    (apply HQ; [done|by eapply calm_trans|exact Hc|]); cbv zeta.
  - rewrite (proj2 (Z.leb_gt _ _)); [done|]. unfold bs in E. rewrite length_take in E. lia.
  - assert (Hlen : (length msg <= Z.to_nat n)%nat) by (unfold bs in E; rewrite length_take in E; lia).
    assert (Hm : bs = msg) by (unfold bs; by rewrite take_ge).
    rewrite (proj2 (Z.leb_le _ _)) by lia. rewrite Hm in *. split; [done|]. split; [done|].
    unfold payload. cbn [fst snd s' user Ipc.set_user]. rewrite Hsame by done.
    rewrite D3, D2, Hu, E2, Nat2Z.id. exact (kread_written _ _ _ _ Hk).
Qed.

Lemma recv_run target s (Q : Z -> W -> Prop) : good s ->
  (forall r s', good s' -> calm s s' -> recv_effect target s r s' -> Q r s') ->
  runs (dev_recv target) s Q.
Proof.
  intros Hg HQ. pose proof (proj1 Hg) as Hd. unfold dev_recv. apply runs_bind, (target_run s Hd). unfold recv_effect in HQ.
  destruct (conn_at s.2 target) as [[c k]|] eqn:Ec; simpl.
  2: { apply set_status_run; [done|]. intros u s' G C Ha _ _. by apply HQ. }
  destruct (conn_live s Hd target c k Ec) as (d & x & mq & e & -> & _ & _ & _ & _ & _ & Hx & Hmq & _).
  apply runs_bind. eapply (run_calm _ _ (fun r s1 => match pending mq with
      | [] => r = (ERR_NO_MSG, None) /\ s1.1 = s.1
      | msg :: rest => exists id mq', r = (NO_ERROR, Some (MsgInfo (Z.of_nat (length msg)) id)) /\
          s1.1 = upd d (set_mq (Some mq') x) s.1 /\ pending mq' = rest /\ reading mq' id = Some msg /\ 0 <= id
      end)); [exact Hg|intros P n; apply keep_get_msg| |].
  { eapply get_run; [by apply good_inv|exact Hx|exact Hmq| |].
    - intros ->. split; [by apply good_inv|done].
    - intros msg rest id mq' -> Hwf' Hp Hrd Hid. split; [apply inv_mq; [by apply good_inv|done|done]|]. eauto 8. }
  intros r s1 G1 C1 Hr. pose proof (k_dev _ _ C1) as D1. destruct (pending mq) as [|msg rest] eqn:Ep.
  { destruct Hr as [-> Hh]. cbn [fst snd]. rewrite (proj2 (Z.ltb_lt ERR_NO_MSG 0)) by done. apply set_status_run; [done|].
    intros u s' G C Ha _ _. apply HQ; [done|by eapply calm_trans|]. split; [done|]. exists x, mq. rewrite Ep.
    split_and!; try done. split; [done|]. cbn [fst s' Ipc.set_user chans]. by rewrite Hh. }
  destruct Hr as (id & mq' & -> & E1 & Hp & Hrd & Hid). cbn [fst snd]. rewrite (proj2 (Z.ltb_ge NO_ERROR 0)) by done.
  apply runs_bind. cbn [deref]. apply runs_ret. apply runs_bind. unfold get_dev, runs at 1, gets. cbn [info_id info_len].
  eapply (recv_message_run s1 s d (set_mq (Some mq') x) mq' id msg rest); [exact G1|rewrite E1; apply upd_look|done|exact Hrd|exact Hid|exact Hp|exact C1|].
  intros r s' G C Hc Ho. apply HQ; [done|done|]. split; [by rewrite (k_dev _ _ C)|]. exists x, mq. split; [done|]. split; [done|].
  rewrite Ep. rewrite D1 in Ho. split; [|exact Ho]. destruct Hc as (mq2 & Hc & Hp2). by exists mq2.
Qed.

(** ** Disconnecting *)

Definition disc_effect (target : Z) (s : W) (r : Z) (s' : W) : Prop :=
  match conn_at s.2 target with
  | Some (HChan c, _) => r = 0 /\ answered s' QL_TIPC_DEV_DISCONNECT 0 0 /\
      (exists x, chans s.1 !! c = Some x /\ closed c x s.1 s'.1) /\
      handles (hlist s'.2) = remove_first (HChan c) (handles (hlist s.2)) /\
      (forall a, conn_at s'.2 a = if addr_to_slot a =? addr_to_slot target then None else conn_at s.2 a)
  | _ => r = SmCall.SM_ERR_INVALID_PARAMETERS /\ s' = s
  end.

Lemma remove_first_NoDup_elem (x y : hptr) l : NoDup l -> x ∈ l -> y ∈ remove_first x l -> y ∈ l /\ y <> x.
Proof.
  intros Hnd Hx Hy. split; [by eapply remove_first_subseteq|]. intros ->.
  rewrite (remove_first_perm x l Hx) in Hnd. apply NoDup_cons in Hnd as [Hno _]. done.
Qed.

(** A channel is closed, and its slot free again. *)
Lemma good_remove s i b e c x h' : good s -> 0 <= i < 32 -> epts s.2 !! Z.to_nat i = Some e -> ept_chan e = Some (HChan c) ->
  closed c x s.1 h' -> bit_set 32 i false (inuse s.2) b ->
  let l' := HList (remove_first (HChan c) (handles (hlist s.2))) (HandleList.wait_event (hlist s.2)) in
  let s' := (h', with_ept i (Ept None 0) b (set_hlist l' s.2)) in good s' /\ step s s'.
Proof.
  intros [Hd B] Hi He Hc Hcl Hb l' s'. pose proof Hd as [T1 T2 T3 T4 T5 T6]. pose proof (closed_others _ _ _ _ Hcl) as [Hinv Ho].
  destruct Hcl as (_ & [Hm Hends] & _). pose proof (t_nodup _ _ _ _ _ _ _ _ T1) as Hnd.
  assert (Hown : HChan c ∈ handles (hlist s.2)).
  { apply (table_listed _ _ _ _ _ _ _ _ _ T1). eauto. }
  assert (Hsub : forall d, HChan d ∈ handles l' -> HChan d ∈ handles (hlist s.2) /\ d <> c).
  { intros d Hin. simpl in Hin. apply remove_first_NoDup_elem in Hin as [? ?]; [|done|done]. split; [done|congruence]. }
  split; [split; [split; simpl; auto|]|split; simpl].
  - by apply (table_remove ept_chan (Ept None 0) 32 _ eq_refl s.1 (epts s.2) (inuse s.2) _ i b e c).
  - intros d y Hin Hy. destruct (Hsub d Hin) as [Hind Hne]. destruct (ql_listed_live s d Hd Hind) as (j & e' & z & _ & _ & Hz & _ & Hr).
    destruct (Hends d z Hne Hz) as (z' & Hz' & Heq & Hq); [lia|]. assert (z' = y) by congruence. subst z'.
    destruct (T3 d z Hind Hz) as [Hw Hmq]. rewrite Heq. auto.
  - intros a Ha. apply Hm. by apply B.
  - exact Hm.
  - done.
  - intros d y Hd' Hy Hr. apply Hends; [|done|done]. by intros ->.
  - intros d Hin. left. by apply Hsub.
Qed.

Lemma ql_drop_run s c x (Q : unit -> W -> Prop) : good s -> chans s.1 !! c = Some x -> HChan c ∈ handles (hlist s.2) ->
  (forall h', closed c x s.1 h' -> Q tt (h', set_hlist (HList (remove_first (HChan c) (handles (hlist s.2)))
     (HandleList.wait_event (hlist s.2))) s.2)) ->
  runs (drop_chan (HChan c)) s Q.
Proof.
  intros Hg Hx Hin HQ. apply runs_on_list.
  destruct (ql_listed_live s c (proj1 Hg) Hin) as (i & e & x' & _ & _ & Hx' & _ & Hr). assert (x' = x) by congruence. subst x'.
  refine (drop_listed_run (fun h => h) (fun h _ => h) (fun _ m => m) _ _ _ _ _ _ _ s.1 (hlist s.2) c x _ (good_inv s Hg) Hx Hr Hin _);
    try done.
Qed.

Lemma disconnect_run target s (Q : Z -> W -> Prop) : good s ->
  (forall r s', good s' -> step s s' -> disc_effect target s r s' -> Q r s') ->
  runs (dev_disconnect target) s Q.
Proof.
  intros Hg HQ. pose proof (proj1 Hg) as Hd. unfold dev_disconnect. apply runs_bind, (target_run s Hd). unfold disc_effect in HQ.
  destruct (conn_at s.2 target) as [[c k]|] eqn:Ec; simpl.
  2: { apply runs_ret. apply HQ; [done|apply step_refl|done]. }
  destruct (conn_live s Hd target c k Ec) as (d & x & mq & e & -> & Hin & Hi & He & Hce & _ & Hx & _).
  apply runs_bind. eapply ql_drop_run; [exact Hg|exact Hx|exact Hin|]. intros h' Hcl.
  set (l' := HList _ _). set (s1 := (h', set_hlist l' s.2)). apply runs_bind. unfold free_local_addr.
  rewrite (proj2 (Z.ltb_lt _ _)) by (unfold QL_TIPC_ADDR_MAX_NUM; lia). apply runs_bind. unfold get_dev, runs at 1, gets. cbn [snd s1].
  destruct (table_clear _ _ _ _ _ _ _ _ (addr_to_slot target) (q_table _ Hd) Hi) as (b & Hs & Hbs).
  apply runs_bind. eapply runs_deref; [exact Hs|]. apply runs_bind. unfold upd_dev, runs at 1, modify. cbn [fst snd].
  apply runs_bind. unfold get_ept. apply runs_bind. unfold get_dev, runs at 1, gets. eapply runs_deref; [exact He|].
  unfold runs at 1. cbn [fst snd]. change (set_ept (addr_to_slot target) (Ept None 0) (set_inuse b (set_hlist l' s.2)))
    with (with_ept (addr_to_slot target) (Ept None 0) b (set_hlist l' s.2)).
  destruct (good_remove s (addr_to_slot target) b e d x h' Hg Hi He Hce Hcl Hbs) as [G2 S2].
  set (s2 := (h', _)) in *. apply set_status_run; [exact G2|]. intros u s' G C Ha _ _. apply HQ; [done|by eapply step_calm|].
  split; [done|]. split; [done|]. split; [|split; [done|]].
  - exists x. split; [done|]. destruct Hcl as (H1 & [H2 H3] & H4 & H5). split; [apply good_inv in G; exact G|].
    split; [split; [|exact H3]|split; [exact H4|exact H5]]. eapply mem_kept_trans; [exact H2|apply (k_mem _ _ C)].
  - intros a. apply (ql_conn_at_with (addr_to_slot target) (Ept None 0) b (set_hlist l' s.2) a Hi). apply (t_len _ _ _ _ _ _ _ _ (q_table _ Hd)).
Qed.
End TipcDevQlCmd.
