(* ===== verification/TipcDevQlEvent.v ===== *)
(** * The events of the queue-less tipc device

    [dev_get_event] polls one channel or all of them and answers with one
    event.  On a device whose channels are all idle it uses a null pointer. *)

From S2P Require Import Prelude Bitmap Iovec MsgQueue MemKeep Handle Ipc IpcInv IpcKeep IpcSafe IpcMsg HandleList IpcHandle.
From S2P Require Import IpcTouch IpcWait EptTable SmCall TipcDev TipcWin TipcDevQl TipcDevQlInv TipcDevQlCmd.

Module TipcDevQlEvent.
Import Bitmap Iovec MsgQueue MemKeep Handle Ipc IpcInv IpcKeep IpcSafe IpcMsg HandleList IpcHandle IpcTouch IpcWait EptTable.
Import TipcDevQl TipcDevQlInv TipcDevQlCmd.

(** The event in the buffer. *)
Definition event_in (va : Z) (k : kmem) (hnd event cookie : Z) : Prop :=
  kread (va + (sizeof_tipc_cmd_hdr + 4)) 4 k = Some (TipcDev.bytes32 hnd) /\
  kread (va + sizeof_tipc_cmd_hdr) 4 k = Some (TipcDev.bytes32 event) /\
  kread (va + (sizeof_tipc_cmd_hdr + 8)) 8 k = Some (bytes64 cookie).

Lemma event_written va k0 k1 k2 k3 hnd event cookie :
  kwrite (va + (sizeof_tipc_cmd_hdr + 4)) (TipcDev.bytes32 hnd) k0 = Some k1 ->
  kwrite (va + sizeof_tipc_cmd_hdr) (TipcDev.bytes32 event) k1 = Some k2 ->
  kwrite (va + (sizeof_tipc_cmd_hdr + 8)) (bytes64 cookie) k2 = Some k3 -> event_in va k3 hnd event cookie.
Proof.
  unfold sizeof_tipc_cmd_hdr. intros W1 W2 W3. unfold event_in, sizeof_tipc_cmd_hdr. split; [|split].
  - rewrite (kread_apart _ _ _ _ _ _ W3), (kread_apart _ _ _ _ _ _ W2) by (simpl; lia). exact (kread_written _ _ _ _ W1).
  - rewrite (kread_apart _ _ _ _ _ _ W3) by (simpl; lia). exact (kread_written _ _ _ _ W2).
  - exact (kread_written _ _ _ _ W3).
Qed.

Lemma event_same va k k' hnd event cookie :
  (forall b n, sizeof_tipc_cmd_hdr <= b -> kread (va + b) n k' = kread (va + b) n k) ->
  event_in va k hnd event cookie -> event_in va k' hnd event cookie.
Proof. unfold event_in. intros Hs. by rewrite !Hs by (unfold sizeof_tipc_cmd_hdr; lia). Qed.

(** A store that looks at the buffer only. *)
Lemma store_raw off bs h d (Q : unit -> W -> Prop) : TipcWin.present (ns_va d) (ns_sz d) (kernel (user h)) -> 0 <= off ->
  off + Z.of_nat (length bs) <= ns_sz d ->
  (forall u, kwrite (ns_va d + off) bs (kernel (user h)) = Some (kernel u) -> TipcWin.present (ns_va d) (ns_sz d) (kernel u) ->
     mem_kept (user h) u -> Q tt (Ipc.set_user u h, d)) ->
  runs (store off bs) (h, d) Q.
Proof.
  intros Hp Ho Hl HQ. unfold store. apply runs_bind. unfold get_dev, runs at 1, gets. cbn [snd].
  destruct (TipcWin.present_write bs (ns_va d + off) (kernel (user h))) as (k & Hk & Hpk).
  { eapply TipcWin.present_sub; [exact Hp|lia|lia]. }
  unfold on_mem. apply runs_on_heap. unfold runs, on_user, memcpy_to. cbn [fst snd]. rewrite Hk. apply HQ; [exact Hk|by apply Hpk|].
  intros a Ha. by eapply kwrite_kept.
Qed.

Lemma store_event_run s hnd event cookie (Q : unit -> W -> Prop) : good s ->
  (forall u, good (Ipc.set_user u s.1, s.2) -> calm s (Ipc.set_user u s.1, s.2) -> event_in (ns_va s.2) (kernel u) hnd event cookie ->
     Q tt (Ipc.set_user u s.1, s.2)) ->
  runs (store_event hnd event cookie) s Q.
Proof.
  intros Hg HQ. pose proof (q_sz _ (proj1 Hg)) as Hsz. unfold PAGE_SIZE in Hsz. destruct s as [h d]. cbn [fst snd] in *.
  unfold store_event. apply runs_bind. apply store_raw; [apply (proj2 Hg)|done|unfold sizeof_tipc_cmd_hdr; simpl; lia|]. intros u1 W1 P1 M1.
  apply runs_bind. apply store_raw; [exact P1|done|unfold sizeof_tipc_cmd_hdr; simpl; lia|]. intros u2 W2 P2 M2.
  apply store_raw; [exact P2|done|unfold sizeof_tipc_cmd_hdr; simpl; lia|]. intros u3 W3 P3 M3.
  change (Ipc.set_user u3 _) with (Ipc.set_user u3 h). 
  assert (C : calm (h, d) (Ipc.set_user u3 h, d)).
  { split; [done| |].
    - eapply mem_kept_trans; [exact M1|]. eapply mem_kept_trans; [exact M2|exact M3].
    - intros c x Hx _. exists x. split; [done|apply same_end_refl]. }
  apply HQ; [|done|by eapply event_written]. eapply good_calm; [done|done|]. by apply inv_user, (good_inv (h, d)).
Qed.

(** ** What an event request does *)

Definition polled_one (target c k : Z) (s s' : W) : Prop :=
  s'.2 = s.2 /\ exists x, chans s.1 !! c = Some x /\
    if chan_ready x =? 0 then chans s'.1 = chans s.1 /\ event_in (ns_va s.2) (kernel (user s'.1)) 0 0 0
    else (exists fl, chans s'.1 = <[c := set_aux fl x]> (chans s.1)) /\
         event_in (ns_va s.2) (kernel (user s'.1)) target (chan_ready x) k.

Definition polled_any (a : list hptr) (c : Z) (b : list hptr) (s s' : W) : Prop :=
  handles (hlist s'.2) = b ++ a ++ [HChan c] /\ (forall adr, conn_at s'.2 adr = conn_at s.2 adr) /\
  exists x adr k, chans s.1 !! c = Some x /\ conn_at s.2 adr = Some (HChan c, k) /\
    (exists fl, chans s'.1 = <[c := set_aux fl x]> (chans s.1)) /\
    event_in (ns_va s.2) (kernel (user s'.1)) adr (chan_ready x) k.

Definition event_effect (target len : Z) (s : W) (r : Z) (s' : W) : Prop :=
  if len <? sizeof_tipc_wait_req then r = ERR_INVALID_ARGS /\ same_conns s s' /\ answered s' QL_TIPC_DEV_GET_EVENT r 0
  else if target =? 0 then
    match first_ready s.1 (handles (hlist s.2)) with
    | Some (a, HChan c, b) => r = 0 /\ answered s' QL_TIPC_DEV_GET_EVENT 0 sizeof_tipc_event /\ polled_any a c b s s'
    | _ => r = ERR_NOT_FOUND /\ same_conns s s' /\ answered s' QL_TIPC_DEV_GET_EVENT r 0
    end
  else
    match conn_at s.2 target with
    | Some (HChan c, k) => r = 0 /\ answered s' QL_TIPC_DEV_GET_EVENT 0 sizeof_tipc_event /\ polled_one target c k s s'
    | _ => r = ERR_INVALID_ARGS /\ same_conns s s' /\ answered s' QL_TIPC_DEV_GET_EVENT r 0
    end.

(** Every channel of the device is idle, and there is one. *)
Definition stuck (s : W) : Prop := handles (hlist s.2) <> [] /\ first_ready s.1 (handles (hlist s.2)) = None.

(** ** One channel *)

Lemma calm_aux s c x fl : good s -> chans s.1 !! c = Some x ->
  good (upd c (set_aux fl x) s.1, s.2) /\ calm s (upd c (set_aux fl x) s.1, s.2).
Proof.
  intros Hg Hx. assert (C : calm s (upd c (set_aux fl x) s.1, s.2)).
  { split; [done|apply mem_kept_refl|]. intros d y Hy _. destruct (decide (d = c)) as [->|Hne].
    - exists (set_aux fl x). split; [apply upd_look|]. assert (y = x) by congruence. by subst y.
    - exists y. split; [|apply same_end_refl]. unfold upd. simpl. by rewrite lookup_insert_ne. }
  split; [|done]. eapply good_calm; [done|done|]. apply inv_aux; [by apply good_inv|done].
Qed.

Lemma wait_target_run ev target s (Q : option (option Z) -> W -> Prop) : good s ->
  (conn_at s.2 target = None -> Q (Some None) s) ->
  (forall c k s', conn_at s.2 target = Some (HChan c, k) -> good s' -> calm s s' -> polled_one target c k s s' -> Q (Some (Some 0)) s') ->
  runs (wait_target ev no_time target) s Q.
Proof.
  intros Hg Hno Hyes. pose proof (proj1 Hg) as Hd. unfold wait_target. apply runs_bind, (lookup_run s Hd).
  destruct (conn_at s.2 target) as [[c k]|] eqn:Ec; [|by apply runs_ret, Hno].
  destruct (conn_live s Hd target c k Ec) as (d & x & mq & e & -> & _ & _ & He & Hce & Hk & Hx & _ & Hw & _).
  apply runs_bind. eapply (ql_get_ept_run s); [exact He|]. rewrite Hce. subst k.
  unfold tbind. apply runs_bind, runs_on_heap. destruct (decide (chan_ready x = 0)) as [Hr|Hr].
  - unfold runs at 1. rewrite (handle_wait_idle s.1 d x Hx Hw ev Hr). cbn [fst snd]. rewrite Z.eqb_refl. apply runs_bind. destruct s as [h dd]. cbn [fst snd] in *.
    eapply store_event_run; [exact Hg|]. intros u G C He'. apply runs_ret. eapply Hyes; [reflexivity|exact G|exact C|].
    split; [done|]. exists x. split; [done|]. rewrite Hr. done.
  - destruct (handle_wait_ready s.1 d x Hx Hw ev no_time Hr) as [fl Hrun].
    unfold runs at 1. rewrite Hrun. cbn [fst snd]. change (NO_ERROR =? ERR_TIMED_OUT) with false. change (NO_ERROR <? 0) with false. cbv iota.
    destruct (calm_aux s d x fl Hg Hx) as [G1 C1]. apply runs_bind. eapply store_event_run; [exact G1|]. intros u G C He'. apply runs_ret.
    eapply Hyes; [reflexivity|exact G|by eapply calm_trans|]. split; [done|]. exists x. split; [done|].
    rewrite (proj2 (Z.eqb_neq _ 0)) by done. split; [by exists fl|exact He'].
Qed.

(** ** All channels *)

Lemma hlist_eta s : dev_ok s -> hlist s.2 = HList (handles (hlist s.2)) None.
Proof. intros Hd. rewrite <- (q_wait s Hd). by destruct (hlist s.2). Qed.

Lemma list_idle s : dev_ok s -> idle s.1 (handles (hlist s.2)).
Proof.
  intros Hd. split; [apply (t_nodup _ _ _ _ _ _ _ _ (q_table _ Hd))|]. intros x Hin.
  destruct (table_live ept_chan (Ept None 0) 32 _ eq_refl _ _ _ _ _ (q_table _ Hd) Hin) as (i & e & c & z & _ & _ & -> & Hz & _).
  destruct (q_ends _ Hd c z Hin Hz) as [Hw _]. split; [by apply (chan_live s.1 c z)|]. by apply (chan_waiter s.1 c z).
Qed.

(** The list in another order. *)
Lemma good_perm s s' l : good s -> step s s' -> good s' -> s'.2 = s.2 -> l ≡ₚ handles (hlist s.2) ->
  let s2 := (s'.1, set_hlist (HList l None) s'.2) in good s2 /\ step s s2.
Proof.
  intros Hg [M R E N] [[T1 T2 T3 T4 T5 T6] B] Hs Hp s2. assert (Hin : forall x, x ∈ l <-> x ∈ handles (hlist s'.2)).
  { intros x. by rewrite Hs, Hp. }
  split; [split; [split; simpl; auto|exact B]|split; simpl; auto].
  - eapply table_perm; [exact T1|]. simpl. by rewrite Hs.
  - intros c x Hc. apply T3. by apply Hin.
  - intros c Hc. apply N. by apply Hin.
Qed.

(** The endpoint behind the cookie of a listed channel. *)
Lemma listed_slot s c : dev_ok s -> HChan c ∈ handles (hlist s.2) -> exists i e x, 0 <= i < 32 /\ epts s.2 !! Z.to_nat i = Some e /\
  chans s.1 !! c = Some x /\ cookie (c_handle x) = ept_ptr (epts_at s.2) i /\ 2 <= refcnt (c_handle x) /\
  Handle.wait_event (c_handle x) = None /\ conn_at s.2 (slot_to_addr i) = Some (HChan c, ept_cookie e).
Proof.
  intros Hd Hin. destruct (ql_listed_live s c Hd Hin) as (i & e & x & He & Hc & Hx & Hk & Hr).
  assert (Hi : 0 <= Z.of_nat i < 32).
  { apply lookup_lt_Some in He. rewrite (t_len _ _ _ _ _ _ _ _ (q_table _ Hd)) in He. lia. }
  destruct (q_ends _ Hd c x Hin Hx) as [Hw _]. exists (Z.of_nat i), e, x. rewrite Nat2Z.id. split_and!; try done; try lia.
  unfold conn_at. rewrite ql_slot_addr, (proj2 (Z.ltb_lt _ 32)), Nat2Z.id by lia. rewrite He. simpl. by rewrite Hc.
Qed.

Lemma ql_ptr_slot_ptr at_ i : ptr_slot at_ (ept_ptr at_ i) = i.
Proof.
  unfold ptr_slot, ept_ptr, sizeof_tipc_ept. replace (at_ + 16 * i - at_) with (i * 16) by lia. by rewrite Z.div_mul.
Qed.

(** The lines of [wait_any] on the channel that was found. *)
Definition report_found (x : hptr) (event : Z) : M W unit :=
  d <- get_dev ;;
  y <- on_heap (get_handle x) ;;
  let ept := handle_get_cookie y in
  let slot := ptr_slot (epts_at d) ept in
  store (sizeof_tipc_cmd_hdr + 4) (TipcDev.bytes32 (ept_to_addr slot)) ;;;
  store sizeof_tipc_cmd_hdr (TipcDev.bytes32 event) ;;;
  (if ept =? 0 then bad_access else ret tt) ;;;
  e <- get_ept slot ;;
  store (sizeof_tipc_cmd_hdr + 8) (bytes64 (ept_cookie e)) ;;;
  on_heap (decref x).

Lemma report_run h d c y fl event i e (Q : unit -> W -> Prop) : chans h !! c = Some y -> 1 <= refcnt (c_handle y) ->
  cookie (c_handle y) = ept_ptr (epts_at d) i -> 0 <= i -> 0 < epts_at d -> epts d !! Z.to_nat i = Some e ->
  TipcWin.present (ns_va d) (ns_sz d) (kernel (user h)) -> PAGE_SIZE <= ns_sz d ->
  (forall u, mem_kept (user h) u -> event_in (ns_va d) (kernel u) (slot_to_addr i) event (ept_cookie e) ->
     Q tt (Ipc.set_user u (upd c (set_aux fl y) h), d)) ->
  runs (report_found (HChan c) event) (upd c (set_handle (handle_incref (c_handle y)) (set_aux fl y)) h, d) Q.
Proof.
  intros Hy Hr Hk Hi Hat He Hp Hsz HQ. unfold PAGE_SIZE in Hsz. unfold report_found. set (h1 := upd c _ h).
  apply runs_bind. unfold get_dev, runs at 1, gets. cbn [snd]. apply runs_bind, runs_on_heap.
  assert (Hy1 : chans h1 !! c = Some (set_handle (handle_incref (c_handle y)) (set_aux fl y))) by apply upd_look.
  unfold runs at 1. cbn [fst]. rewrite (get_handle_run c h1 _ Hy1). cbn [snd]. cbv zeta. unfold handle_get_cookie.
  cbn [c_handle set_handle handle_incref cookie]. rewrite Hk, ql_ptr_slot_ptr. apply runs_bind.
  apply store_raw; [exact Hp|done|unfold sizeof_tipc_cmd_hdr; simpl; lia|]. intros u1 W1 P1 M1.
  apply runs_bind. apply store_raw; [exact P1|done|unfold sizeof_tipc_cmd_hdr; simpl; lia|]. intros u2 W2 P2 M2.
  rewrite (proj2 (Z.eqb_neq _ 0)) by (unfold ept_ptr, sizeof_tipc_ept; lia). apply runs_bind, runs_ret.
  apply runs_bind. unfold get_ept. apply runs_bind. unfold get_dev, runs at 1, gets. cbn [snd]. eapply runs_deref; [exact He|].
  apply runs_bind. apply store_raw; [exact P2|done|unfold sizeof_tipc_cmd_hdr; simpl; lia|]. intros u3 W3 P3 M3.
  apply runs_on_heap. unfold runs. cbn [fst snd]. change (Ipc.set_user u3 _) with (Ipc.set_user u3 h1). unfold h1.
  rewrite (answer_dropped h c y Hy fl u3 Hr). apply HQ; [|by eapply event_written].
  eapply mem_kept_trans; [exact M1|]. eapply mem_kept_trans; [exact M2|exact M3].
Qed.

Lemma wait_any_run ev s (Q : option Z -> W -> Prop) : good s -> ~ stuck s ->
  (handles (hlist s.2) = [] -> Q (Some ERR_NOT_FOUND) s) ->
  (forall a c b s', first_ready s.1 (handles (hlist s.2)) = Some (a, HChan c, b) -> good s' -> step s s' -> polled_any a c b s s' -> Q (Some 0) s') ->
  runs (wait_any ev no_time) s Q.
Proof.
  intros Hg Hst Hno Hyes. pose proof (proj1 Hg) as Hd. unfold wait_any, tbind. apply runs_bind, runs_on_list. unfold runs at 1.
  rewrite (hlist_eta s Hd). destruct (handles (hlist s.2)) as [|x0 l0] eqn:El.
  { rewrite (handle_list_poll_empty ev s.1). cbn [fst snd]. apply runs_ret. rewrite <- El, <- (hlist_eta s Hd).
    destruct s as [h d]. assert (Hid : set_hlist (hlist d) d = d) by (by destruct d). cbn [fst snd]. rewrite Hid. by apply Hno. }
  rewrite <- El in *. set (l := handles (hlist s.2)) in *. assert (Hne : l <> []) by (by rewrite El).
  pose proof (handle_list_poll ev s.1 l (list_idle s Hd) Hne) as Hp. destruct (first_ready s.1 l) as [[[a x] b]|] eqn:Ef.
  2: { destruct Hst. by split. }
  destruct (first_ready_split _ _ _ _ _ Ef) as (Hl & _). assert (Hin : x ∈ l) by (rewrite Hl; set_solver).
  destruct (table_live ept_chan (Ept None 0) 32 _ eq_refl _ _ _ _ _ (q_table _ Hd) Hin) as (_ & _ & c & _ & _ & _ & -> & _).
  destruct (listed_slot s c Hd Hin) as (i & e & y & Hi & He & Hy & Hk & Hr & Hw & Hc).
  destruct Hp as (h' & Hfin & Hrun). destruct (answer_eq s.1 c y Hy (ready_of s.1 (HChan c))) as [fl Hans].
  assert (h' = upd c (set_handle (handle_incref (c_handle y)) (set_aux fl y)) s.1) as -> by congruence.
  rewrite Hrun. cbn [fst snd]. change (NO_ERROR =? ERR_NOT_FOUND) with false. change (NO_ERROR =? ERR_TIMED_OUT) with false.
  change (NO_ERROR <? 0) with false. cbv iota. cbn [andb]. apply runs_bind, runs_ret, runs_bind, runs_bind. cbn [deref]. apply runs_ret.
  cbn [fst snd]. set (d1 := set_hlist _ s.2). change (runs (report_found (HChan c) (ready_of s.1 (HChan c)))
    (upd c (set_handle (handle_incref (c_handle y)) (set_aux fl y)) s.1, d1) (fun (_ : unit) s' => runs (tret 0) s' Q)).
  pose proof (q_sz _ Hd) as Hsz. eapply (report_run s.1 d1 c y fl _ i e);
    [exact Hy|lia|exact Hk|lia|apply (q_at _ Hd)|exact He|apply (proj2 Hg)|apply Hsz|].
  intros u Hmem Hev. apply runs_ret. destruct (calm_aux s c y fl Hg Hy) as [G1 C1].
  set (s1 := (upd c (set_aux fl y) s.1, s.2)) in *. assert (C2 : calm s1 (Ipc.set_user u s1.1, s.2)).
  { split; [done|exact Hmem|]. intros z w Hz _. exists w. split; [exact Hz|apply same_end_refl]. }
  assert (G2 : good (Ipc.set_user u s1.1, s.2)) by (eapply good_calm; [exact G1|exact C2|]; by apply inv_user, (good_inv s1)).
  destruct (good_perm s (Ipc.set_user u s1.1, s.2) (b ++ a ++ [HChan c]) Hg) as [G3 S3]; [|exact G2|done| |].
  { apply calm_step. by eapply calm_trans. }
  { change (handles (hlist s.2)) with l. rewrite Hl. solve_Permutation. }
  eapply Hyes; [done|exact G3|exact S3|]. split; [done|]. split; [done|]. exists y, (slot_to_addr i), (ept_cookie e).
  split; [done|]. split; [done|]. split; [by exists fl|]. rewrite <- (chan_ready_of s.1 c y Hy). exact Hev.
Qed.

(** With every channel idle the pointer that is used is null. *)
Lemma wait_any_stuck ev s : good s -> stuck s -> wait_any ev no_time s = Crash BadAccess.
Proof.
  intros Hg [Hne Hf]. pose proof (proj1 Hg) as Hd. unfold wait_any, tbind, bind at 1, on_list. rewrite (hlist_eta s Hd).
  pose proof (handle_list_poll ev s.1 _ (list_idle s Hd) Hne) as Hp. rewrite Hf in Hp. rewrite Hp. cbn [fst snd].
  change (ERR_TIMED_OUT =? ERR_NOT_FOUND) with false. change (ERR_TIMED_OUT =? ERR_TIMED_OUT) with true. cbv iota.
  rewrite <- (hlist_eta s Hd). assert (Hs : (s.1, set_hlist (hlist s.2) s.2) = s) by (by destruct s as [h []]). rewrite Hs.
  assert (Hr : runs (store_event 0 0 0) s (fun _ _ => True)) by (apply store_event_run; auto).
  unfold runs in Hr. unfold bind at 1. by destruct (store_event 0 0 0 s) as [[] s'|].
Qed.

(** ** The request *)

Lemma event_refused_run r s (Q : option Z -> W -> Prop) : good s ->
  (forall s', good s' -> step s s' -> same_conns s s' -> answered s' QL_TIPC_DEV_GET_EVENT r 0 -> Q (Some r) s') ->
  runs (tlift (set_status QL_TIPC_DEV_GET_EVENT r 0)) s Q.
Proof.
  intros Hg HQ. unfold tlift. apply runs_bind, set_status_run; [done|]. intros u s' G C Ha _ _. apply runs_ret.
  apply HQ; [done|by apply calm_step|done|done].
Qed.

Lemma event_run ev target len s (Q : option Z -> W -> Prop) : good s ->
  (target = 0 -> sizeof_tipc_wait_req <= len -> ~ stuck s) ->
  (forall r s', good s' -> step s s' -> event_effect target len s r s' -> Q (Some r) s') ->
  runs (dev_get_event ev no_time no_time len target) s Q.
Proof.
  intros Hg Hst HQ. unfold dev_get_event, event_effect in *. destruct (len <? sizeof_tipc_wait_req) eqn:El.
  { apply event_refused_run; [done|]. intros s' G S C Ha. by apply HQ. }
  zbool. destruct (target =? 0) eqn:Et; zbool; cbn [negb].
  - unfold tbind. apply runs_bind. eapply (wait_any_run ev s); [exact Hg|by apply Hst| |].
    + intros Hn. rewrite Z.eqb_refl. apply event_refused_run; [done|]. intros s' G S C Ha. apply HQ; [done|done|]. by rewrite Hn.
    + intros a c b s1 Hf G1 S1 Hp. change (0 =? ERR_NOT_FOUND) with false. cbv iota. unfold tlift. apply runs_bind, set_status_run; [done|].
      intros u s' G C Ha Hsame _. apply runs_ret. apply HQ; [done|by eapply step_calm|]. rewrite Hf. split; [done|]. split; [done|].
      destruct Hp as (Hl & Hc & x & adr & k & Hx & Hk & Hfl & Hev). split; [exact Hl|]. split; [exact Hc|]. exists x, adr, k.
      split; [done|]. split; [done|]. split; [exact Hfl|]. eapply event_same; [|exact Hev].
      intros o n Ho. rewrite <- (proj1 (proj2 (proj2 (proj2 (s_rest _ _ S1))))). by apply Hsame.
  - unfold tbind. apply runs_bind. eapply (wait_target_run ev target s); [exact Hg| |].
    + intros Hn. apply event_refused_run; [done|]. intros s' G S C Ha. apply HQ; [done|done|]. by rewrite Hn.
    + intros c k s1 Hc G1 C1 Hp. unfold tlift. apply runs_bind, set_status_run; [done|].
      intros u s' G C Ha Hsame _. apply runs_ret. apply HQ; [done|eapply step_calm; [by apply calm_step|done]|]. rewrite Hc.
      split; [done|]. split; [done|]. destruct Hp as (Hd & x & Hx & Hev). split; [exact Hd|]. exists x. split; [done|].
      rewrite Hd in Hsame. destruct (chan_ready x =? 0).
      * split; [apply Hev|]. eapply event_same; [exact Hsame|apply Hev].
      * split; [apply Hev|]. eapply event_same; [exact Hsame|apply Hev].
Qed.

(** An event request on all channels is answered only if one of them has
    an event.  On a device with channels of which none has one, the event that
    is reported is the one of a null pointer: the kernel faults.  The other
    side chooses when it asks. *)
Lemma get_event_null ev len s : good s -> stuck s -> sizeof_tipc_wait_req <= len ->
  dev_get_event ev no_time no_time len 0 s = Crash BadAccess.
Proof.
  intros Hg Hs Hl. unfold dev_get_event. rewrite (proj2 (Z.ltb_ge _ _)) by done. cbn [negb Z.eqb].
  unfold tbind, bind at 1. by rewrite (wait_any_stuck ev s Hg Hs).
Qed.
End TipcDevQlEvent.
