(* ===== verification/TipcDevQlConn.v ===== *)
(** * Connecting through the queue-less tipc device

    [dev_connect]: the request is checked and copied out, a channel is opened
    and takes the first free slot of the device. *)

From S2P Require Import Prelude Bitmap Iovec MsgQueue MemKeep Handle Ipc IpcInv IpcKeep IpcSafe IpcMsg HandleList IpcHandle.
From S2P Require Import IpcTouch IpcWait EptTable SmCall TipcDev TipcWin TipcDevQl TipcDevQlInv TipcDevQlCmd.

Module TipcDevQlConn.
Import Bitmap Iovec MsgQueue MemKeep Handle Ipc IpcInv IpcKeep IpcSafe IpcMsg HandleList IpcHandle IpcTouch IpcWait EptTable.
Import TipcDevQl TipcDevQlInv TipcDevQlCmd.

Section Conn.
Context (access : Z -> uuid -> Z) (ipc_mem : heap -> bool * allocs * bool).

(** The allocations of a connection give buffers of the size asked for. *)
Definition mem_ok : Prop := forall h p y, ports h !! p = Some y ->
  allocs_ok (ipc_mem h).1.2 (num_recv_bufs y) (recv_buf_size y).
Context (Hmem : mem_ok).

Definition refused (s : W) (name : list Z) (max_path e : Z) : Prop :=
  connect_refused access (ipc_mem s.1).1.1 (ipc_mem s.1).1.2 (ipc_mem s.1).2 (guest s.2) (Some (dev_uuid s.2)) name max_path 0 s.1 e.

Definition new_client (s : W) (name : list Z) (c : Z) (h' : heap) : Prop :=
  new_client_post access (guest s.2) (dev_uuid s.2) (cstr name) 0 s.1 c h'.

(** Every slot is used; slot [i] is the first that is not. *)
Definition full (d : ql_tipc_dev) : Prop := forall i, 0 <= i < 32 -> is_Some (conn_at d (slot_to_addr i)).
Definition first_free (d : ql_tipc_dev) (i : Z) : Prop :=
  0 <= i < 32 /\ conn_at d (slot_to_addr i) = None /\ forall k, 0 <= k < i -> is_Some (conn_at d (slot_to_addr k)).

Lemma ql_conn_at_bit s i : dev_ok s -> 0 <= i < 32 ->
  is_Some (conn_at s.2 (slot_to_addr i)) <-> bit_at (inuse s.2) i = true.
Proof.
  intros Hd Hi. unfold conn_at. rewrite ql_slot_addr, (proj2 (Z.ltb_lt i 32)) by lia.
  destruct (ept_at s Hd i Hi) as [e He]. rewrite He. simpl. rewrite (bit_used s Hd i e Hi He).
  destruct (ept_chan e); simpl; split; try done.
Qed.

Lemma fresh_calm s h' d : good s -> ends_kept (next_obj s.1) s.1 h' -> mem_kept (user s.1) (user h') -> d = s.2 -> calm s (h', d).
Proof.
  intros Hg He Hm ->. split; [done|done|]. intros c x Hx Hr. apply (He c x); [|done|done]. intros ->.
  pose proof (table_next _ _ _ _ _ _ _ _ (q_table _ (proj1 Hg))). congruence.
Qed.

(** The outcomes of [open_conn]. *)
Definition opened (s : W) (name : list Z) (max_path ck : Z) (r : Z * Z * option hptr) (s1 : W) : Prop :=
  (exists e, r = (e, 0, None) /\ e <> 0 /\ refused s name max_path e /\ good s1 /\ calm s s1 /\ chans s1.1 = chans s.1) \/
  (r = (NO_ERROR, 0, None) /\ full s.2 /\ good s1 /\ calm s s1) \/
  (exists i b c h1, r = (NO_ERROR, slot_to_addr i, Some (HChan c)) /\ first_free s.2 i /\ bit_set 32 i true (inuse s.2) b /\
     s1 = (h1, with_ept i (Ept (Some (HChan c)) ck) b s.2) /\ inv quiet h1 /\ new_client s name c h1 /\
     mem_kept (user s.1) (user h1) /\ ends_kept (next_obj s.1) s.1 h1).

(** The slot for a channel that is new in [h1]. *)
Lemma slot_run s name max_path ck c h1 : good s -> inv quiet h1 -> new_client s name c h1 ->
  mem_kept (user s.1) (user h1) -> ends_kept (next_obj s.1) s.1 h1 ->
  runs (local <- alloc_local_addr (HChan c) ck ;;
        if local =? 0 then on_heap (handle_close (HChan c)) ;;; ret (NO_ERROR, local, None)
        else ret (NO_ERROR, local, Some (HChan c))) (h1, s.2) (opened s name max_path ck).
Proof.
  intros Hg Hi1 Hnew Hm He. pose proof (proj1 Hg) as Hd. pose proof (fresh_calm s h1 s.2 Hg He Hm eq_refl) as C1.
  pose proof (good_calm _ _ Hg C1 Hi1) as G1. pose proof Hnew as (Hnc & x & Hx & Hrc & _).
  apply runs_bind. unfold alloc_local_addr. apply runs_bind. unfold get_dev, runs at 1, gets. cbn [snd].
  destruct (table_alloc _ _ _ _ _ _ _ _ (q_table _ Hd)) as (r & Hr & [[-> Hall]|(Hb & Hz & Hlow & b & Hs & Hbs)]).
  - apply runs_bind. eapply runs_deref; [exact Hr|]. apply runs_ret. cbn [Z.eqb]. apply runs_bind, runs_on_heap. cbn [fst snd].
    eapply runs_mono; [eapply (runs_and _ _ _ (fun _ h3 => mem_kept (user h1) (user h3) /\ ends_kept c h1 h3));
      [apply (chan_close_run h1 c x Hi1 Hx); lia|]|].
    { intros [] h3 E. eapply (keep_ends c); [exact Hi1|apply keep_close; by intros [_ ?]|exact E]. }
    cbv beta. intros [] h2 [(Hi2 & _) [Hm2 He2]]. apply runs_ret. right; left. split; [done|].
    split; [intros i Hi; apply (ql_conn_at_bit s); auto|]. assert (C2 : calm s (h2, s.2)).
    { apply fresh_calm; [done| |by eapply mem_kept_trans|done]. eapply ends_kept_any; [|exact Hnc].
      eapply ends_kept_trans; [|exact He2]. eapply ends_kept_any; [exact He|].
      apply (table_next _ _ _ _ _ _ _ _ (q_table _ Hd)). }
    split; [|exact C2]. eapply good_calm; [exact Hg|exact C2|exact Hi2].
  - apply runs_bind. eapply runs_deref; [exact Hr|]. rewrite (proj2 (Z.leb_le 0 r)) by lia.
    apply runs_bind. eapply runs_deref; [exact Hs|]. apply runs_bind. unfold upd_dev, runs at 1, modify. cbn [fst snd].
    destruct (ept_at s Hd r Hb) as [e0 He0]. apply runs_bind. unfold get_ept. apply runs_bind. unfold get_dev, runs at 1, gets. cbn [snd].
    eapply runs_deref; [exact He0|]. apply runs_bind. unfold runs at 1. cbn [fst snd]. apply runs_ret.
    rewrite (proj2 (Z.eqb_neq (slot_to_addr r) 0)) by (by apply slot_addr_pos). apply runs_ret. right; right.
    exists r, b, c, h1. split; [done|]. split; [|split; [done|split; [done|split; [done|split; [done|split; [done|done]]]]]].
    split; [done|]. split.
    + apply eq_None_not_Some. rewrite (ql_conn_at_bit s) by done. by rewrite Hz.
    + intros k Hk. apply (ql_conn_at_bit s); [done|lia|]. by apply Hlow.
Qed.

Lemma open_run s name max_path ck : good s -> runs (open_conn access ipc_mem name max_path ck) s (opened s name max_path ck).
Proof.
  intros Hg. pose proof (good_inv s Hg) as Hi. unfold open_conn. apply runs_bind. unfold get_dev, runs at 1, gets.
  apply runs_bind. unfold runs at 1, get. destruct (ipc_mem s.1) as [[ok al] dup] eqn:Em.
  apply runs_bind, runs_on_heap. eapply runs_mono; [eapply (runs_and _ _ _ (fun _ h => mem_kept (user s.1) (user h) /\ ends_kept (next_obj s.1) s.1 h));
    [apply connect_run; [exact Hi|]|]|].
  { intros p y Hp. pose proof (Hmem s.1 p y Hp) as H. by rewrite Em in H. }
  { intros r h E. eapply (keep_ends (next_obj s.1)); [exact Hi| |exact E]. apply keep_connect. by intros d [? _]. }
  cbv beta. intros r h1 [(Hi1 & _ & Hr) [Hm He]]. cbn [fst snd].
  destruct Hr as [(e & -> & Hne & Href & Hc & _)|(c & u & -> & [= <-] & Hnew)].
  - cbn [fst]. rewrite (proj2 (Z.eqb_neq e NO_ERROR)) by done. cbn [negb]. apply runs_ret. left. exists e. split; [done|]. split; [done|].
    split; [unfold refused; by rewrite Em|]. assert (C : calm s (h1, s.2)) by by apply fresh_calm.
    split; [eapply good_calm; [exact Hg|exact C|exact Hi1]|]. split; [exact C|exact Hc].
  - cbn [fst snd]. rewrite Z.eqb_refl. cbn [negb]. apply runs_bind. cbn [deref]. apply runs_ret. by apply slot_run.
Qed.

(** ** The slot and the channel *)

(** A listed channel: its cookie names the slot [i], the list holds a
    reference. *)
Definition attached (at_ i : Z) (x : chan) : chan :=
  set_handle (handle_incref (handle_set_cookie (ept_ptr at_ i) (c_handle x))) x.

Lemma attach_eq k c x h l : chans h !! c = Some x -> HChan c ∉ l ->
  (on_obj (upd_handle (HChan c) (handle_set_cookie k)) ;;; handle_list_add false (HChan c)) (h, HList l None) =
    Done tt (upd c (set_handle (handle_incref (handle_set_cookie k (c_handle x))) x) h, HList (l ++ [HChan c]) None).
Proof.
  intros Hx Hn. unfold bind at 1, on_obj at 1. cbn [fst snd upd_handle]. rewrite (upd_chan_eq c _ h x Hx).
  unfold handle_list_add, get_list, put_list, on_obj, bind, gets, modify, assert_. cbn [fst snd handles HandleList.wait_event].
  rewrite bool_decide_eq_false_2 by done. cbn [orb negb]. unfold ret. cbn [fst snd incref ipc_handle_ops upd_handle].
  by rewrite (upd_chan_eq c _ _ _ (upd_look _ _ _)), upd_upd.
Qed.

(** A channel without a flag to wait for a port is connecting, with a queue. *)
Lemma client_queue s name c h1 : inv quiet h1 -> new_client s name c h1 -> exists x, chans h1 !! c = Some x /\
  refcnt (c_handle x) = 1 /\ Handle.wait_event (c_handle x) = None /\ is_Some (msg_queue x).
Proof.
  intros Hi (_ & x & Hx & Hr & _ & Hw & Hst). exists x. split_and!; try done. destruct Hst as [[Hst _]|(_ & Hf & _)]; [|done].
  destruct (c_st _ _ _ (i_chan _ _ Hi c x Hx)) as [[Hin _]|[_ Hs]]; [done|]. unfold state_ok in Hs. rewrite Hst in Hs. apply Hs.
Qed.

Lemma good_add s i b ck c x h1 : good s -> first_free s.2 i -> bit_set 32 i true (inuse s.2) b -> inv quiet h1 ->
  chans s.1 !! c = None -> chans h1 !! c = Some x -> refcnt (c_handle x) = 1 -> Handle.wait_event (c_handle x) = None ->
  is_Some (msg_queue x) -> mem_kept (user s.1) (user h1) -> ends_kept (next_obj s.1) s.1 h1 ->
  let s2 := (upd c (attached (epts_at s.2) i x) h1,
             set_hlist (HList (handles (hlist s.2) ++ [HChan c]) None) (with_ept i (Ept (Some (HChan c)) ck) b s.2)) in
  good s2 /\ step s s2.
Proof.
  intros Hg (Hi & Hno & _) Hb Hi1 Hnc Hx Hrc Hw Hq Hm He s2. pose proof (proj1 Hg) as Hd. pose proof Hd as [T1 T2 T3 T4 T5 T6].
  assert (Hnl : HChan c ∉ handles (hlist s.2)) by (eapply (table_fresh ept_chan (Ept None 0) 32 _ eq_refl); [exact T1|exact Hnc]).
  assert (Hbit : bit_at (inuse s.2) i = false).
  { apply not_true_iff_false. rewrite <- (ql_conn_at_bit s) by done. rewrite Hno. by intros [? ?]. }
  assert (Ht : touched c (handle_incref (handle_set_cookie (ept_ptr (epts_at s.2) i) (c_handle x))) h1 s2.1).
  { split; try done. by exists x. }
  assert (Hi2 : inv quiet s2.1) by (eapply touched_inv; [exact Hi1|exact Ht|exact Hx|lia|simpl; lia]).
  assert (He0 : ends_kept c s.1 s2.1).
  { eapply ends_kept_trans; [eapply ends_kept_any; [exact He|apply (table_next _ _ _ _ _ _ _ _ T1)]|]. by apply (touched_ends _ _ _ _ Ht). }
  split; [split; [split; simpl; auto|]|split; simpl].
  - eapply (table_add ept_chan (Ept None 0) 32 (ept_ptr (epts_at s.2)) eq_refl s.1 (epts s.2) (inuse s.2) _ i b);
      [exact T1|exact Hi|exact Hbit|exact Hb|exact Hi2|by apply ends_others|exact Hnl|done|apply upd_look|done|simpl; lia].
  - intros d z Hin Hz. apply elem_of_app in Hin as [Hin|Hin%list_elem_of_singleton].
    + destruct (ql_listed_live s d Hd Hin) as (_ & _ & z0 & _ & _ & Hz0 & _ & Hr). 
      destruct (He0 d z0) as (z' & Hz' & Heq & Hqq); [congruence|done|lia|]. assert (z' = z) by (unfold s2 in Hz'; cbn [fst] in Hz'; congruence). subst z'.
      destruct (T3 d z0 Hin Hz0) as [Hwd Hqd]. rewrite Heq. auto.
    + injection Hin as ->. rewrite upd_look in Hz. injection Hz as <-. done.
  - intros a Ha. apply Hm. by apply (proj2 Hg).
  - exact Hm.
  - done.
  - intros d z _ Hz Hr. apply He0; [|done|done]. congruence.
  - intros d Hin. apply elem_of_app in Hin as [Hin|Hin%list_elem_of_singleton]; [by left|]. injection Hin as ->. by right.
Qed.

(** ** The request *)

Definition conn_effect (bs : list Z) (s : W) (r : Z) (s' : W) : Prop :=
  let len := Z.of_nat (length bs) in
  let name := drop (Z.to_nat sizeof_tipc_connect_req) bs ++ [0] in
  let ck := le64 (take 8 bs) in
  answered s' QL_TIPC_DEV_CONNECT r 0 /\
  if (len <=? sizeof_tipc_connect_req) || (sizeof_req <=? len) then r = ERR_INVALID_ARGS /\ same_conns s s'
  else
    (r <> 0 /\ refused s name (len - sizeof_tipc_connect_req) r /\ same_conns s s') \/
    (r = ERR_NO_RESOURCES /\ full s.2 /\ s'.2 = s.2) \/
    (r = 0 /\ exists i c x h1 u, first_free s.2 i /\ new_client s name c h1 /\ chans h1 !! c = Some x /\
       s'.1 = Ipc.set_user u (upd c (attached (epts_at s.2) i x) h1) /\
       handles (hlist s'.2) = handles (hlist s.2) ++ [HChan c] /\
       (forall a, conn_at s'.2 a = if addr_to_slot a =? i then Some (HChan c, ck) else conn_at s.2 a) /\
       kread (ns_va s.2 + 8) 4 (kernel u) = Some (TipcDev.bytes32 (slot_to_addr i))).

Lemma ql_lookup_new s i e b h : dev_ok s -> 0 <= i < 32 -> bit_set 32 i true (inuse s.2) b ->
  ept_lookup (slot_to_addr i) (h, with_ept i e b s.2) = Done (Some i) (h, with_ept i e b s.2).
Proof.
  intros Hd Hi [Hwf Hb]. unfold ept_lookup. rewrite ql_slot_addr by done.
  rewrite (proj2 (Z.ltb_lt i _)) by (unfold QL_TIPC_ADDR_MAX_NUM; lia). unfold get_dev, gets, bind. cbn [fst snd].
  change (inuse (with_ept i e b s.2)) with b. rewrite (bitmap_test_spec b 32 i Hwf Hi), Hb, Z.eqb_refl by lia. done.
Qed.

Lemma answer_run r s s0 (Q : Z -> W -> Prop) : good s -> step s0 s ->
  (forall u, let s' := (Ipc.set_user u s.1, s.2) in good s' -> step s0 s' -> answered s' QL_TIPC_DEV_CONNECT r 0 ->
     kread (ns_va s.2 + 8) 4 (kernel u) = kread (ns_va s.2 + 8) 4 (kernel (user s.1)) -> Q r s') ->
  runs (set_status QL_TIPC_DEV_CONNECT r 0) s Q.
Proof. intros Hg Hs HQ. apply set_status_run; [done|]. intros u s' G C Ha _ Hk. apply HQ; [done|by eapply step_calm|done|done]. Qed.

Lemma new_conn_run s bs i b c h1 (Q : Z -> W -> Prop) : good s -> first_free s.2 i -> bit_set 32 i true (inuse s.2) b ->
  inv quiet h1 -> new_client s (drop (Z.to_nat sizeof_tipc_connect_req) bs ++ [0]) c h1 ->
  mem_kept (user s.1) (user h1) -> ends_kept (next_obj s.1) s.1 h1 ->
  sizeof_tipc_connect_req < Z.of_nat (length bs) < sizeof_req ->
  (forall r s', good s' -> step s s' -> conn_effect bs s r s' -> Q r s') ->
  runs (e <- ept_lookup (slot_to_addr i) ;;
        d <- get_dev ;;
        let c0 := match e with Some slot => ept_ptr (epts_at d) slot | None => 0 end in
        on_list (on_obj (upd_handle (HChan c) (handle_set_cookie c0)) ;;; handle_list_add false (HChan c)) ;;;
        store 8 (TipcDev.bytes32 (slot_to_addr i)) ;;;
        set_status QL_TIPC_DEV_CONNECT 0 0) (h1, with_ept i (Ept (Some (HChan c)) (le64 (take 8 bs))) b s.2) Q.
Proof.
  intros Hg Hf Hb Hi1 Hnew Hm He Hlen HQ. pose proof (proj1 Hg) as Hd. pose proof Hf as (Hi & _).
  destruct (client_queue s _ c h1 Hi1 Hnew) as (x & Hx & Hrc & Hw & Hq). pose proof Hnew as (Hnc & _).
  assert (Hnl : HChan c ∉ handles (hlist s.2)) by (eapply (table_fresh ept_chan (Ept None 0) 32 _ eq_refl); [apply (q_table _ Hd)|exact Hnc]).
  apply runs_bind. unfold runs at 1. rewrite (ql_lookup_new s i _ b h1 Hd Hi Hb). apply runs_bind. unfold get_dev, runs at 1, gets. cbn [snd].
  cbv zeta. apply runs_bind, runs_on_list. unfold runs at 1. cbn [fst snd].
  change (hlist (with_ept i (Ept (Some (HChan c)) (le64 (take 8 bs))) b s.2)) with (hlist s.2).
  destruct (hlist s.2) as [l we] eqn:El. assert (we = None) as -> by (pose proof (q_wait _ Hd) as H; by rewrite El in H).
  rewrite (attach_eq _ c x h1 l Hx Hnl). cbn [fst snd].
  destruct (good_add s i b (le64 (take 8 bs)) c x h1 Hg Hf Hb Hi1 Hnc Hx Hrc Hw Hq Hm He) as [G2 S2]. rewrite El in G2, S2. cbn [handles] in G2, S2.
  set (s2 := (_, _)) in G2, S2. change (epts_at (with_ept i (Ept (Some (HChan c)) (le64 (take 8 bs))) b s.2)) with (epts_at s.2).
  match goal with |- runs _ ?st _ => change st with s2 end. pose proof (q_sz _ Hd) as Hsz. unfold PAGE_SIZE in Hsz.
  apply runs_bind. eapply store_run; [exact G2|lia|simpl; lia|]. intros k W1 s3 G3 C3.
  apply (answer_run 0 s3 s); [exact G3|by eapply step_calm|]. intros u s' G S Ha Hk. apply HQ; [done|done|]. split; [done|].
  rewrite (proj2 (Z.leb_gt _ _)), (proj2 (Z.leb_gt _ _)) by lia. cbn [orb]. right; right. split; [done|].
  exists i, c, x, h1, u. split; [done|]. split; [done|]. split; [done|]. split; [done|]. split; [by rewrite El|].
  split; [intros a; apply (ql_conn_at_with i (Ept (Some (HChan c)) (le64 (take 8 bs))) b s.2 a Hi), (t_len _ _ _ _ _ _ _ _ (q_table _ Hd))|].
  change (ns_va s3.2) with (ns_va s.2) in Hk. rewrite Hk. exact (kread_written _ _ _ _ W1).
Qed.

Lemma connect_cmd_run bs s (Q : Z -> W -> Prop) : good s -> payload s (Z.of_nat (length bs)) = Some bs ->
  (forall r s', good s' -> step s s' -> conn_effect bs s r s' -> Q r s') ->
  runs (dev_connect access ipc_mem (ns_va s.2 + sizeof_tipc_cmd_hdr) (Z.of_nat (length bs))) s Q.
Proof.
  intros Hg Hb HQ. unfold dev_connect. set (len := Z.of_nat (length bs)) in *.
  destruct (len <=? sizeof_tipc_connect_req) eqn:E1.
  { apply (answer_run _ s s); [done|apply step_refl|]. intros u s' G S Ha _. apply HQ; [done|done|]. split; [done|]. fold len. by rewrite E1. }
  destruct (sizeof_req <=? len) eqn:E2.
  { apply (answer_run _ s s); [done|apply step_refl|]. intros u s' G S Ha _. apply HQ; [done|done|]. split; [done|]. fold len. by rewrite E1, E2. }
  apply runs_bind. unfold on_mem. apply runs_on_heap. unfold runs at 1, on_user, memcpy_from. unfold payload in Hb. rewrite Hb.
  rewrite set_user_same. assert (Hs : (s.1, s.2) = s) by (by destruct s). rewrite Hs. cbv zeta. set (name := drop _ bs ++ [0]).
  apply runs_bind. eapply runs_mono; [by apply open_run|]. cbv beta.
  assert (Hshort : forall r s1, good s1 -> step s s1 -> (forall s', answered s' QL_TIPC_DEV_CONNECT r 0 -> chans s'.1 = chans s1.1 -> s'.2 = s1.2 -> conn_effect bs s r s') ->
    runs (set_status QL_TIPC_DEV_CONNECT r 0) s1 Q).
  { intros r s1 G1 S1 He. apply (answer_run _ s1 s); [done|done|]. intros u s' G S Ha _. apply HQ; [done|done|]. by apply He. }
  intros r s1 [(e & -> & Hne & Href & G1 & C1 & Hch)|[(-> & Hfull & G1 & C1)|(i & b & c & h1 & -> & Hf & Hbs & -> & Hi1 & Hnew & Hm & He)]].
  - rewrite (proj2 (Z.eqb_neq e NO_ERROR)) by done. apply Hshort; [done|by apply calm_step|]. intros s' Ha Hc Hd'. split; [done|].
    fold len. rewrite E1, E2. left. split; [done|]. split; [exact Href|]. split; [by rewrite Hd', (k_dev _ _ C1)|congruence].
  - apply Hshort; [done|by apply calm_step|]. intros s' Ha Hc Hd'. split; [done|]. fold len. rewrite E1, E2. right; left.
    split; [done|]. split; [done|]. by rewrite Hd', (k_dev _ _ C1).
  - zbool. by apply new_conn_run.
Qed.
End Conn.
End TipcDevQlConn.
