(* ===== verification/TipcDevQlSafe.v ===== *)
(** * The queue-less tipc devices together

    Creating a device, shutting it down and passing it a command keep every
    device sound, whatever the other side asks for. *)

From S2P Require Import Prelude Bitmap Iovec MsgQueue MemKeep Handle Ipc IpcInv IpcKeep IpcSafe IpcMsg HandleList IpcHandle.
From S2P Require Import IpcTouch IpcWait EptTable SmCall Vqueue TipcDev TipcWin TipcDevQl TipcDevQlInv TipcDevQlCmd.
From S2P Require Import TipcDevQlEvent TipcDevQlConn.

Module TipcDevQlSafe.
Import Bitmap Iovec MsgQueue MemKeep Handle Ipc IpcInv IpcKeep IpcSafe IpcMsg HandleList IpcHandle IpcTouch IpcWait EptTable.
Import TipcDevQl TipcDevQlInv TipcDevQlCmd TipcDevQlEvent TipcDevQlConn.

(** ** One command *)

Section Command.
Context (access : Z -> uuid -> Z) (ipc_mem : heap -> bool * allocs * bool) (Hmem : mem_ok ipc_mem) (ev : Z).

Definition cmd_effect (cmd : tipc_cmd_hdr) (bs : list Z) (s : W) (r : Z) (s' : W) : Prop :=
  if opcode cmd =? QL_TIPC_DEV_SEND then send_effect (cmd_handle cmd) bs s r s'
  else if opcode cmd =? QL_TIPC_DEV_RECV then recv_effect (cmd_handle cmd) s r s'
  else if opcode cmd =? QL_TIPC_DEV_GET_EVENT then event_effect (cmd_handle cmd) (payload_len cmd) s r s'
  else if opcode cmd =? QL_TIPC_DEV_CONNECT then conn_effect access ipc_mem bs s r s'
  else if opcode cmd =? QL_TIPC_DEV_DISCONNECT then disc_effect (cmd_handle cmd) s r s'
  else r = ERR_NOT_SUPPORTED /\ same_conns s s' /\ answered s' (opcode cmd) r 0.

(** What the buffer holds: a command of that size with its payload. *)
Definition holds_cmd (s : W) (cmd_sz : Z) (cmd : tipc_cmd_hdr) (bs : list Z) : Prop :=
  exists hdr, kread (ns_va s.2) 16 (kernel (user s.1)) = Some hdr /\ cmd = cmd_hdr_of hdr /\
    payload_len cmd = cmd_sz - sizeof_tipc_cmd_hdr /\ payload s (payload_len cmd) = Some bs /\
    payload_len cmd = Z.of_nat (length bs).

Definition command_effect (cmd_sz : Z) (s : W) (r : Z) (s' : W) : Prop :=
  (exists cmd bs, sizeof_tipc_cmd_hdr <= cmd_sz /\ holds_cmd s cmd_sz cmd bs /\ cmd_effect cmd bs s r s') \/
  (r = SmCall.SM_ERR_INVALID_PARAMETERS /\ s' = s /\ (sizeof_tipc_cmd_hdr <= cmd_sz -> forall cmd bs, ~ holds_cmd s cmd_sz cmd bs)).

(** A request for the events of all channels, when there are only idle ones. *)
Definition null_request (s : W) (cmd_sz : Z) : Prop :=
  exists cmd bs, holds_cmd s cmd_sz cmd bs /\ opcode cmd = QL_TIPC_DEV_GET_EVENT /\ cmd_handle cmd = 0 /\
    sizeof_tipc_wait_req <= payload_len cmd /\ stuck s.

Lemma handle_cmd_run cmd bs s (Q : option Z -> W -> Prop) : good s -> payload s (payload_len cmd) = Some bs ->
  payload_len cmd = Z.of_nat (length bs) ->
  (opcode cmd = QL_TIPC_DEV_GET_EVENT -> cmd_handle cmd = 0 -> sizeof_tipc_wait_req <= payload_len cmd -> ~ stuck s) ->
  (forall r s', good s' -> step s s' -> cmd_effect cmd bs s r s' -> Q (Some r) s') ->
  runs (dev_handle_cmd access ipc_mem ev no_time no_time cmd (ns_va s.2 + sizeof_tipc_cmd_hdr)) s Q.
Proof.
  intros Hg Hb Hl Hst HQ. unfold dev_handle_cmd, cmd_effect in *. rewrite Hl in *.
  destruct (opcode cmd =? QL_TIPC_DEV_SEND).
  { unfold tlift. apply runs_bind, (ql_send_run _ bs s); [done|done|]. intros r s' G C E. apply runs_ret, HQ; [done|by apply calm_step|done]. }
  destruct (opcode cmd =? QL_TIPC_DEV_RECV).
  { unfold tlift. apply runs_bind, (recv_run _ s); [done|]. intros r s' G C E. apply runs_ret, HQ; [done|by apply calm_step|done]. }
  destruct (opcode cmd =? QL_TIPC_DEV_GET_EVENT) eqn:E3.
  { zbool. apply event_run; [done|by auto|done]. }
  destruct (opcode cmd =? QL_TIPC_DEV_CONNECT).
  { unfold tlift. apply runs_bind, (connect_cmd_run _ _ Hmem bs s); [done|done|]. intros r s' G S E. by apply runs_ret, HQ. }
  destruct (opcode cmd =? QL_TIPC_DEV_DISCONNECT).
  { unfold tlift. apply runs_bind, (disconnect_run _ s); [done|]. intros r s' G S E. by apply runs_ret, HQ. }
  unfold tlift. apply runs_bind, set_status_run; [done|]. intros u s' G C Ha _ _. apply runs_ret, HQ; [done|by apply calm_step|done].
Qed.

Lemma command_run cmd_sz s (Q : option Z -> W -> Prop) : good s -> cmd_sz <= ns_sz s.2 -> ~ null_request s cmd_sz ->
  (forall r s', good s' -> step s s' -> command_effect cmd_sz s r s' -> Q (Some r) s') ->
  runs (dev_command access ipc_mem ev no_time no_time cmd_sz) s Q.
Proof.
  intros Hg Hsz Hnull HQ. pose proof (q_sz _ (proj1 Hg)) as Hns. unfold PAGE_SIZE in Hns. unfold dev_command.
  destruct (cmd_sz <? sizeof_tipc_cmd_hdr) eqn:E; zbool.
  { apply runs_ret. apply HQ; [done|apply step_refl|]. right. split; [done|]. split; [done|]. lia. }
  assert (H16 : sizeof_tipc_cmd_hdr = 16) by done.
  destruct (TipcWin.present_read (ns_va s.2) 16 (kernel (user s.1))) as (hdr & Hh & Hhl).
  { eapply TipcWin.present_sub; [apply (proj2 Hg)|lia|lia]. }
  apply runs_bind. unfold get_dev, runs at 1, gets. apply runs_bind. unfold on_mem. apply runs_on_heap. unfold runs at 1, on_user, memcpy_from.
  change (Z.to_nat sizeof_tipc_cmd_hdr) with 16%nat. rewrite Hh, set_user_same. assert (Hs : (s.1, s.2) = s) by (by destruct s). rewrite Hs.
  cbv zeta. destruct (payload_len (cmd_hdr_of hdr) =? cmd_sz - sizeof_tipc_cmd_hdr) eqn:El; zbool; cbn [negb].
  2: { apply runs_ret. apply HQ; [done|apply step_refl|]. right. split; [done|]. split; [done|].
       intros _ cmd bs (hdr' & Hh' & -> & Hpl & _). congruence. }
  destruct (TipcWin.present_read (ns_va s.2 + sizeof_tipc_cmd_hdr) (Z.to_nat (cmd_sz - sizeof_tipc_cmd_hdr)) (kernel (user s.1))) as (bs & Hb & Hbl).
  { eapply TipcWin.present_sub; [apply (proj2 Hg)|lia|lia]. }
  assert (Hc : holds_cmd s cmd_sz (cmd_hdr_of hdr) bs).
  { exists hdr. split; [done|]. split; [done|]. split; [done|]. rewrite El. split; [done|lia]. }
  pose proof Hc as (_ & _ & _ & _ & Hp & Hpl). apply (handle_cmd_run _ bs s); [done|exact Hp|exact Hpl| |].
  - intros Ho Hz Hw Hst. apply Hnull. exists (cmd_hdr_of hdr), bs. done.
  - intros r s' G S He. apply HQ; [done|done|]. left. by exists (cmd_hdr_of hdr), bs.
Qed.

(** The fatal request is fatal. *)
Lemma command_null cmd_sz s : good s -> null_request s cmd_sz ->
  dev_command access ipc_mem ev no_time no_time cmd_sz s = Crash BadAccess.
Proof.
  intros Hg (cmd & bs & (hdr & Hh & -> & Hl & _) & Ho & Hz & Hw & Hs). unfold dev_command.
  assert (H16 : sizeof_tipc_cmd_hdr = 16) by done. assert (H8 : sizeof_tipc_wait_req = 8) by done.
  rewrite (proj2 (Z.ltb_ge _ _)) by lia. unfold bind at 1, get_dev, gets. cbn [snd].
  unfold bind at 1, on_mem, on_heap, on_obj, on_user, memcpy_from. cbn [fst snd].
  change (Z.to_nat sizeof_tipc_cmd_hdr) with 16%nat. rewrite Hh, set_user_same, (proj2 (Z.eqb_eq _ _)) by done. simpl negb. cbv iota.
  unfold dev_handle_cmd. rewrite Ho, Hz. assert (Hs' : (s.1, s.2) = s) by (by destruct s). rewrite Hs'.
  by apply get_event_null.
Qed.

End Command.

Lemma null_request_dec s cmd_sz : null_request s cmd_sz \/ ~ null_request s cmd_sz.
Proof.
  assert (Hst : stuck s \/ ~ stuck s).
  { unfold stuck. destruct (handles (hlist s.2)); [by right; intros [? _]|].
    destruct (first_ready _ _); [by right; intros [_ ?]|by left]. }
  destruct Hst as [Hst|Hst]; [|right; by intros (? & ? & _ & _ & _ & _ & ?)].
  destruct (kread (ns_va s.2) 16 (kernel (user s.1))) as [hdr|] eqn:Hh; [|right; intros (? & ? & (hdr & Hh' & _) & _); by rewrite Hh in Hh'].
  set (cmd := cmd_hdr_of hdr). 
  destruct (payload s (payload_len cmd)) as [bs|] eqn:Hp.
  2: { right. intros (cmd' & bs & (hdr' & Hh' & -> & _ & Hp' & _) & _). rewrite Hh in Hh'. injection Hh' as <-.
       fold cmd in Hp'. by rewrite Hp in Hp'. }
  destruct (decide (payload_len cmd = cmd_sz - sizeof_tipc_cmd_hdr /\ payload_len cmd = Z.of_nat (length bs) /\
    opcode cmd = QL_TIPC_DEV_GET_EVENT /\ cmd_handle cmd = 0 /\ sizeof_tipc_wait_req <= payload_len cmd)) as [(H1 & H2 & H3)|Hn].
  - left. exists cmd, bs. split; [|tauto]. exists hdr. by split_and!.
  - right. intros (cmd' & bs' & (hdr' & Hh' & -> & Hl & Hp' & Hl') & H3). rewrite Hh in Hh'. injection Hh' as <-.
    fold cmd in Hl, Hp', Hl', H3. rewrite Hp in Hp'. injection Hp' as <-. apply Hn. tauto.
Qed.

(** ** All devices *)

Record ql_ok (w : world) : Prop := {
  l_inv : inv quiet (w_heap w);
  l_devs : forall i d, _dev_list w !! i = Some d -> dev_ok (w_heap w, d);
  l_disj : forall i j d e x, i <> j -> _dev_list w !! i = Some d -> _dev_list w !! j = Some e ->
    x ∈ handles (hlist d) -> x ∉ handles (hlist e);
  l_pa : NoDup (ns_pa <$> _dev_list w);
  l_cnt : _dev_cnt w = Z.of_nat (length (_dev_list w)) /\ _dev_cnt w <= QL_TIPC_DEV_MAX_NUM
}.

Lemma dev_ok_user h u d : dev_ok (h, d) -> dev_ok (Ipc.set_user u h, d).
Proof.
  intros [T1 T2 T3 T4 T5 T6]. split; simpl in *; auto. destruct T1 as [D1 D2 D3 D4 D5 D6].
  split; [by apply inv_user|exact D2|exact D3|exact D4|exact D5|exact D6].
Qed.

(** A device that a change leaves alone. *)
Lemma dev_ok_kept h h' d : dev_ok (h, d) -> inv quiet h' ->
  (forall c x, HChan c ∈ handles (hlist d) -> chans h !! c = Some x -> 0 < refcnt (c_handle x) ->
     exists x', chans h' !! c = Some x' /\ same_end x x') -> dev_ok (h', d).
Proof.
  intros Hd Hi He. pose proof Hd as [T1 T2 T3 T4 T5 T6]. split; simpl in *; auto.
  - apply (table_heap ept_chan (Ept None 0) 32 _ h); [exact T1|done|]. intros c x Hin Hx Hr.
    destruct (He c x Hin Hx Hr) as (x' & Hx' & Heq & _). exists x'. rewrite Heq. split_and!; done || lia.
  - intros c x' Hin Hx'. destruct (ql_listed_live (h, d) c Hd Hin) as (_ & _ & x & _ & _ & Hx & _ & Hr). simpl in Hx.
    destruct (He c x Hin Hx) as (x1 & Hx1 & Heq & Hq); [lia|]. assert (x1 = x') by congruence. subst x1.
    destruct (T3 c x Hin Hx) as [Hw Hmq]. rewrite Heq. auto.
Qed.

Lemma ql_step w i d s' : ql_ok w -> _dev_list w !! i = Some d -> dev_ok s' -> step (w_heap w, d) s' -> ql_ok (put_dev i s' w).
Proof.
  intros [L1 L2 L3 L4 [L5 L6]] Hd Hok S. pose proof (t_inv _ _ _ _ _ _ _ _ (q_table _ Hok)) as Hi.
  assert (Hlt : (i < length (_dev_list w))%nat) by by eapply lookup_lt_Some.
  assert (Hout : forall j e x, j <> i -> _dev_list w !! j = Some e -> x ∈ handles (hlist s'.2) -> x ∉ handles (hlist e)).
  { intros j e x Hj He Hx. destruct (table_live ept_chan (Ept None 0) 32 _ eq_refl _ _ _ _ _ (q_table _ Hok) Hx)
      as (_ & _ & c & _ & _ & _ & -> & _). destruct (s_new _ _ S c Hx) as [Hin|Hno].
    - eapply (L3 i j d e); eauto.
    - eapply (table_fresh ept_chan (Ept None 0) 32 _ eq_refl); [exact (q_table _ (L2 j e He))|exact Hno]. }
  split; unfold put_dev; simpl; try done.
  - intros j e He. apply list_lookup_insert_Some in He as [(<- & <- & _)|[Hne He]]; [by destruct s'|].
    eapply dev_ok_kept; [by eapply L2|done|]. intros c x Hin Hx Hr. apply (s_ends _ _ S); [|done|done].
    intros Hin'. by eapply (L3 j i e d).
  - intros j k e f x Hne He Hf Hx. apply list_lookup_insert_Some in He as [(<- & <- & _)|[Hj He]];
      apply list_lookup_insert_Some in Hf as [(<- & <- & _)|[Hk Hf]]; try done.
    + by eapply (Hout k).
    + intros Hx'. by eapply (Hout j e).
    + by eapply (L3 j k).
  - rewrite list_fmap_insert, list_insert_id; [done|]. rewrite list_lookup_fmap, Hd. simpl. f_equal.
    symmetry. apply (s_rest _ _ S).
  - by rewrite length_insert.
Qed.

(** What the buffer shows is memory, all of it. *)
Lemma show_good ns h d : dev_ok (h, d) -> good (show ns (h, d)) /\ step (h, d) (show ns (h, d)).
Proof.
  intros Hd. pose proof (q_sz _ Hd) as Hsz. unfold PAGE_SIZE in Hsz. simpl in Hsz. split; [split|].
  - by apply dev_ok_user.
  - unfold buffer, show. simpl. apply TipcWin.window_present. lia.
  - eapply calm_step. split; [done| |].
    + intros a Ha. simpl. apply lookup_union_is_Some. by right.
    + intros c x Hx _. exists x. split; [done|apply same_end_refl].
Qed.

Lemma lookup_found pa w i d : dev_lookup pa w = Some (i, d) -> _dev_list w !! i = Some d /\ ns_pa d = pa.
Proof. intros H. apply list_find_Some in H as (? & ? & _). done. Qed.

Lemma handle_run access ipc_mem ev ns pa cmd_sz w : ql_ok w -> mem_ok ipc_mem ->
  (forall i d, dev_lookup pa w = Some (i, d) -> cmd_sz <= ns_sz d /\ ~ null_request (show ns (w_heap w, d)) cmd_sz) ->
  runs (ql_tipc_handle_cmd access ipc_mem ev no_time no_time ns pa cmd_sz) w (fun o w' => ql_ok w' /\
    match dev_lookup pa w with
    | None => o = Some SmCall.SM_ERR_INVALID_PARAMETERS /\ w' = w
    | Some (i, d) => exists r s', o = Some r /\ w' = put_dev i s' w /\
        command_effect access ipc_mem cmd_sz (show ns (w_heap w, d)) r s'
    end).
Proof.
  intros Hw Hm Hc. unfold ql_tipc_handle_cmd. apply runs_bind. unfold runs at 1, get.
  destruct (dev_lookup pa w) as [[i d]|] eqn:El; [|by apply runs_ret].
  destruct (lookup_found _ _ _ _ El) as [Hd _]. destruct (Hc i d eq_refl) as [Hsz Hnull].
  destruct (show_good ns (w_heap w) d (l_devs _ Hw i d Hd)) as [G0 S0]. unfold runs, on_dev. rewrite Hd.
  unfold bind, modify. set (s := show ns (w_heap w, d)) in *.
  assert (Hr : runs (dev_command access ipc_mem ev no_time no_time cmd_sz) s (fun o s' => ql_ok (put_dev i s' w) /\
     exists r, o = Some r /\ command_effect access ipc_mem cmd_sz s r s')).
  { apply (command_run access ipc_mem Hm ev cmd_sz s); [done|done|done|]. intros r s' G S He. split; [|by exists r].
    eapply ql_step; [done|exact Hd|apply G|]. 
    destruct S0 as [M0 R0 E0 N0], S as [M R E N]. split.
    - by eapply mem_kept_trans.
    - exact R.
    - exact E.
    - exact N. }
  unfold runs in Hr. destruct (dev_command _ _ _ _ _ _ s) as [o s'|]; [|done]. destruct Hr as [Hok (r & -> & He)].
  split; [done|]. by exists r, s'.
Qed.

(** The command is not longer than the buffer of its device. *)
Definition command_fits (pa cmd_sz : Z) (w : world) : Prop :=
  forall i d, dev_lookup pa w = Some (i, d) -> cmd_sz <= ns_sz d.

Lemma handle_null access ipc_mem ev ns pa cmd_sz w i d : ql_ok w -> dev_lookup pa w = Some (i, d) ->
  null_request (show ns (w_heap w, d)) cmd_sz ->
  ql_tipc_handle_cmd access ipc_mem ev no_time no_time ns pa cmd_sz w = Crash BadAccess.
Proof.
  intros Hw El Hnull. unfold ql_tipc_handle_cmd, bind at 1, get. rewrite El.
  destruct (lookup_found _ _ _ _ El) as [Hd _]. destruct (show_good ns (w_heap w) d (l_devs _ Hw i d Hd)) as [G0 _].
  unfold on_dev. rewrite Hd. unfold bind, modify. by rewrite command_null.
Qed.

(** ** Creating a device *)

Definition create_refused (w : world) (pa sz : Z) : option Z :=
  if bool_decide (is_Some (dev_lookup pa w)) || negb (Z.land pa (PAGE_SIZE - 1) =? 0) || (sz =? 0) ||
     negb (Z.land sz (PAGE_SIZE - 1) =? 0) then Some SmCall.SM_ERR_INVALID_PARAMETERS
  else if QL_TIPC_DEV_MAX_NUM <=? _dev_cnt w then Some SmCall.SM_ERR_NOT_ALLOWED
  else None.

(** The device that is created: it shares the buffer and has no channel. *)
Definition fresh_dev (pa sz fl : Z) (d : ql_tipc_dev) : Prop :=
  ns_pa d = pa /\ ns_sz d = sz /\ ns_mmu_flags d = fl /\ handles (hlist d) = [] /\ forall a, conn_at d a = None.

Lemma aligned_ge sz : 0 < sz < 2 ^ 32 -> Z.land sz (PAGE_SIZE - 1) = 0 -> PAGE_SIZE <= sz.
Proof.
  intros Hs Hl. change (PAGE_SIZE - 1) with (Z.ones 12) in Hl. rewrite Z.land_ones in Hl by lia.
  apply Z.div_exact in Hl; [|done]. unfold PAGE_SIZE. change (2 ^ 12) with 4096 in Hl. nia.
Qed.

Lemma no_conn d a : epts d = replicate 32 (Ept None 0) -> conn_at d a = None.
Proof.
  intros He. unfold conn_at. destruct (_ <? 32); [|done]. rewrite He.
  destruct (replicate 32 (Ept None 0) !! _) as [e|] eqn:E; [|done]. by apply lookup_replicate in E as [-> _].
Qed.

(** ** Shutting a device down *)

(** The slots below [k] have been closed: the table without them. *)
Definition closing (h : heap) (d : ql_tipc_dev) (k : Z) : Prop :=
  exists es bm, table_ok ept_chan (Ept None 0) 32 (ept_ptr (epts_at d)) h es bm (handles (hlist d)) /\
    (forall j, k <= j < 32 -> es !! Z.to_nat j = epts d !! Z.to_nat j /\ bit_at bm j = bit_at (inuse d) j).

(** The channels that are not of the list [l] keep their handles. *)
Definition outside (l : list hptr) (h h' : heap) : Prop :=
  forall c x, HChan c ∉ l -> chans h !! c = Some x -> 0 < refcnt (c_handle x) -> exists x', chans h' !! c = Some x' /\ same_end x x'.

Lemma ql_close_loop_run n : forall k h d (Q : unit -> W -> Prop), bitmap_wf (inuse d) 32 -> closing h d k -> 0 <= k ->
  k + Z.of_nat n = 32 ->
  (forall h' d', inv quiet h' -> outside (handles (hlist d)) h h' -> Q tt (h', d')) ->
  runs (close_loop n k) (h, d) Q.
Proof.
  induction n as [|n IH]; intros k h d Q Hwf (es & bm & Ht & Hsame) Hk Hn HQ; simpl.
  { apply runs_ret. apply HQ; [apply Ht|]. intros c x _ Hx _. exists x. split; [done|apply same_end_refl]. }
  apply runs_bind. unfold get_dev, runs at 1, gets. cbn [snd]. apply runs_bind.
  eapply runs_deref; [apply (bitmap_test_spec _ 32); [done|lia]|].
  destruct (Hsame k ltac:(lia)) as [Hes Hbm]. destruct (table_lookup _ _ _ _ _ _ _ _ k Ht ltac:(lia)) as [e He].
  rewrite He in Hes. symmetry in Hes.
  assert (Hskip : runs (close_loop n (k + 1)) (h, d) Q).
  { apply IH; [done| |lia|lia|done]. exists es, bm. split; [done|]. intros j Hj. apply Hsame. lia. }
  destruct (bit_at (inuse d) k) eqn:Ebit; [|apply runs_bind, runs_ret; exact Hskip].
  apply runs_bind, runs_bind. unfold get_ept. apply runs_bind. unfold get_dev, runs at 1, gets. cbn [snd].
  eapply runs_deref; [exact Hes|]. pose proof (t_ept _ _ _ _ _ _ _ _ Ht _ e He) as Hl. rewrite Z2Nat.id, Hbm in Hl by lia.
  destruct Hl as (c & x & Hc & Hx & _ & Hr). rewrite Hc.
  assert (Hin : HChan c ∈ handles (hlist d)) by (apply (table_listed _ _ _ _ _ _ _ _ _ Ht); eauto).
  apply runs_on_list. pose proof (t_inv _ _ _ _ _ _ _ _ Ht) as Hi.
  refine (drop_listed_run (fun h => h) (fun h _ => h) (fun _ m => m) _ _ _ _ _ _ _ h (hlist d) c x _ Hi Hx Hr Hin _); try done.
  intros h1 Hcl. cbn [fst snd]. destruct (closed_others _ _ _ _ Hcl) as [Hi1 Ho1].
  destruct (table_clear _ _ _ _ _ _ _ _ k Ht ltac:(lia)) as (b & _ & Hb). apply IH; [done| |lia|lia|].
  - exists (<[Z.to_nat k := Ept None 0]> es), b. split.
    + eapply (table_remove ept_chan (Ept None 0) 32 (ept_ptr (epts_at d)) eq_refl h es bm _ k b e c); [exact Ht|lia|exact He|exact Hc|exact Hb|done|done].
    + intros j Hj. destruct Hb as [_ Hb]. rewrite list_lookup_insert_ne, Hb, (proj2 (Z.eqb_neq j k)) by lia. apply Hsame. lia.
  - intros h' d' Hi' Hout. apply HQ; [done|]. intros z y Hz Hy Hrz. destruct Hcl as (_ & [_ Hends] & _).
    destruct (Hends z y) as (y1 & Hy1 & Heq & Hq1); [by intros ->|done|done|].
    destruct (Hout z y1) as (y2 & Hy2 & Heq2 & Hq2); [|done|by rewrite Heq|].
    { simpl. intros Hin'. by apply Hz, (remove_first_subseteq (HChan c)). }
    exists y2. split; [done|]. split; [congruence|auto].
Qed.

Lemma shutdown_dev_run pa w i d : ql_ok w -> dev_lookup pa w = Some (i, d) ->
  runs (dev_shutdown i) w (fun _ w' => ql_ok w' /\ _dev_list w' = delete i (_dev_list w) /\ dev_lookup pa w' = None).
Proof.
  intros [L1 L2 L3 L4 [L5 L6]] Hl. destruct (lookup_found _ _ _ _ Hl) as [Hd Hpa]. pose proof (L2 i d Hd) as Hok.
  assert (Hlt : (i < length (_dev_list w))%nat) by by eapply lookup_lt_Some.
  unfold runs, dev_shutdown. rewrite Hd. pose proof (q_va _ Hok) as Hva. simpl in Hva.
  rewrite (proj2 (Z.eqb_neq (ns_va d) 0)) by lia. cbn [negb]. unfold bind, assert_, ret at 1, modify. cbn [w_heap w_regions _dev_list _dev_cnt].
  set (h0 := (hide (w_heap w, d)).1).
  assert (Hrun : runs (close_loop (length (epts d)) 0) (h0, set_va 0 d) (fun _ s => inv quiet s.1 /\ outside (handles (hlist d)) (w_heap w) s.1)).
  { pose proof (t_len _ _ _ _ _ _ _ _ (q_table _ Hok)) as Hlen. simpl in Hlen. rewrite Hlen. change (Z.to_nat 32) with 32%nat.
    assert (Hok0 : dev_ok (h0, d)) by by apply dev_ok_user.
    apply ql_close_loop_run; [apply (t_wf _ _ _ _ _ _ _ _ (q_table _ Hok))| |done|done|].
    - exists (epts d), (inuse d). split; [exact (q_table _ Hok0)|done].
    - intros h' d' Hi' Ho. by split. }
  unfold runs in Hrun. destruct (close_loop _ _ _) as [u s|]; [|done]. destruct Hrun as [Hi' Ho].
  pose proof (delete_Permutation (ns_pa <$> _dev_list w) i pa) as Hp. rewrite <- list_fmap_delete in Hp.
  rewrite list_lookup_fmap, Hd in Hp. simpl in Hp. rewrite Hpa in Hp. specialize (Hp eq_refl).
  pose proof L4 as Hnd. rewrite Hp in Hnd. apply NoDup_cons in Hnd as [Hno Hnd].
  split; [split; simpl; auto|split; [done|]].
  - intros j e He. rewrite list_lookup_delete in He. eapply dev_ok_kept; [by eapply L2|done|]. intros c x Hin Hx Hr.
    apply Ho; [|done|done]. intros Hin'. eapply (L3 _ i e d); [|exact He|exact Hd|exact Hin|exact Hin']. destruct (decide _); lia.
  - intros j k e f x Hne He Hf. rewrite list_lookup_delete in He, Hf. eapply L3; [|exact He|exact Hf].
    destruct (decide _), (decide _); lia.
  - rewrite length_delete by (rewrite Hd; eauto). rewrite L5. unfold u32, QL_TIPC_DEV_MAX_NUM in *. rewrite uwrap_small by lia. lia.
  - unfold dev_lookup. apply list_find_None. apply Forall_forall. intros e He Hpe. apply Hno. rewrite <- Hpe. by apply list_elem_of_fmap_2.
Qed.
Section Platform.
Context `{Vqueue.Platform}.

Lemma create_run pa sz fl mem w : ql_ok w -> 0 <= sz < 2 ^ 32 -> (forall at_, mem = Some at_ -> 0 < at_) ->
  runs (ql_tipc_create_device pa sz fl mem) w (fun r w' => ql_ok w' /\
    match create_refused w pa sz with
    | Some e => r = e /\ w' = w
    | None =>
        (r = SmCall.SM_ERR_INTERNAL_FAILURE /\ w' = w) \/
        (r = 0 /\ exists d, fresh_dev pa sz fl d /\ _dev_list w' = d :: _dev_list w /\ w_heap w' = w_heap w /\ is_Some mem)
    end).
Proof.
  intros Hw Hsz Hmem. unfold ql_tipc_create_device, dev_create, create_refused. apply runs_bind. unfold runs at 1, get.
  destruct (bool_decide (is_Some (dev_lookup pa w))) eqn:E1; [by apply runs_ret|].
  destruct (negb (Z.land pa (PAGE_SIZE - 1) =? 0)); [by apply runs_ret|].
  destruct (sz =? 0) eqn:E3; [by apply runs_ret|]. destruct (negb (Z.land sz (PAGE_SIZE - 1) =? 0)) eqn:E4; [by apply runs_ret|].
  cbn [orb]. destruct (QL_TIPC_DEV_MAX_NUM <=? _dev_cnt w) eqn:E5; [by apply runs_ret|].
  destruct mem as [at_|]; [|apply runs_ret; split; [done|by left]].
  destruct (Vqueue.vmm_alloc_physical _ _ _ _) as [e|va] eqn:Ea; [apply runs_ret; split; [done|by left]|].
  apply Vqueue.vmm_alloc_fresh in Ea as [Hva _]. zbool. set (d := Dev _ _ _ _ _ _ _ _ _ _). apply runs_bind. unfold runs at 1, modify.
  apply runs_ret. destruct Hw as [L1 L2 L3 L4 [L5 L6]].
  assert (Hnew : dev_ok (w_heap w, d)).
  { split; simpl; try done.
    - by apply (table_new ept_chan (Ept None 0) 32 (ept_ptr at_)).
    - intros c x Hin. by apply not_elem_of_nil in Hin.
    - by apply Hmem.
    - split; [|lia]. apply aligned_ge; [lia|done]. }
  split; [split; simpl; auto|].
  - intros [|i] e He; [by injection He as <-|by eapply L2].
  - intros [|i] [|j] e f x Hne He Hf Hx; simpl in He, Hf; [done| | |].
    + injection He as <-. by apply not_elem_of_nil in Hx.
    + injection Hf as <-. apply not_elem_of_nil.
    + eapply (L3 i j); eauto.
  - apply NoDup_cons. split; [|done]. intros Hin. apply list_elem_of_fmap in Hin as (e & He & Hin). simpl in He.
    apply bool_decide_eq_false in E1. apply E1. unfold dev_lookup.
    destruct (list_find_elem_of (fun d => ns_pa d = pa) (_dev_list w) e) as [y Hy]; [done|done|]. by rewrite Hy.
  - rewrite L5. unfold u32. unfold QL_TIPC_DEV_MAX_NUM in *. rewrite uwrap_small by lia. lia.
  - right. split; [done|]. exists d. split; [|done]. split; [done|]. split; [done|]. split; [done|]. split; [done|].
    intros a. by apply no_conn.
Qed.

Lemma ql_shutdown_run pa w : ql_ok w ->
  runs (ql_tipc_shutdown_device pa) w (fun r w' => ql_ok w' /\
    match dev_lookup pa w with
    | None => r = SmCall.SM_ERR_INVALID_PARAMETERS /\ w' = w
    | Some (i, _) => r = 0 /\ _dev_list w' = delete i (_dev_list w) /\ dev_lookup pa w' = None
    end).
Proof.
  intros Hw. unfold ql_tipc_shutdown_device. apply runs_bind. unfold runs at 1, get.
  destruct (dev_lookup pa w) as [[i d]|] eqn:El; [|by apply runs_ret]. apply runs_bind.
  eapply runs_mono; [by eapply shutdown_dev_run|]. cbv beta. intros [] w' (Hok & Hl & Hn). by apply runs_ret.
Qed.

(** ** What the other side can reach *)

(** The channels of the devices survive what others do to the objects. *)
Definition others_step (w : world) (h' : heap) : Prop :=
  inv quiet h' /\ forall i d c x, _dev_list w !! i = Some d -> HChan c ∈ handles (hlist d) -> chans (w_heap w) !! c = Some x ->
    exists x', chans h' !! c = Some x' /\ same_end x x'.

(** A command as long as the buffer at most, and no request that [stuck]
    makes fatal. *)
Definition command_ok (ns : Z -> Z) (pa cmd_sz : Z) (w : world) : Prop :=
  forall i d, dev_lookup pa w = Some (i, d) -> cmd_sz <= ns_sz d /\ ~ null_request (show ns (w_heap w, d)) cmd_sz.

(** A command that fits either is the fatal request or runs to its end. *)
Lemma handle_total access ipc_mem ev ns pa cmd_sz w : ql_ok w -> mem_ok ipc_mem -> command_fits pa cmd_sz w ->
  (exists i d, dev_lookup pa w = Some (i, d) /\ null_request (show ns (w_heap w, d)) cmd_sz /\
     ql_tipc_handle_cmd access ipc_mem ev no_time no_time ns pa cmd_sz w = Crash BadAccess) \/
  (command_ok ns pa cmd_sz w /\ exists o w', ql_tipc_handle_cmd access ipc_mem ev no_time no_time ns pa cmd_sz w = Done o w' /\ ql_ok w' /\
     match dev_lookup pa w with
     | None => o = Some SmCall.SM_ERR_INVALID_PARAMETERS /\ w' = w
     | Some (i, d) => exists r s', o = Some r /\ w' = put_dev i s' w /\
         command_effect access ipc_mem cmd_sz (show ns (w_heap w, d)) r s'
     end).
Proof.
  intros Hw Hm Hf.
  assert (Hc : (exists i d, dev_lookup pa w = Some (i, d) /\ null_request (show ns (w_heap w, d)) cmd_sz) \/ command_ok ns pa cmd_sz w).
  { destruct (dev_lookup pa w) as [[i d]|] eqn:El; [|right; intros i d H0; congruence].
    destruct (null_request_dec (show ns (w_heap w, d)) cmd_sz) as [Hn|Hn]; [left; eauto|right].
    intros j e H0. rewrite El in H0. injection H0 as <- <-. split; [by eapply Hf|done]. }
  destruct Hc as [(i & d & El & Hn)|Hc].
  - left. exists i, d. split; [done|]. split; [done|]. by eapply handle_null.
  - right. split; [done|]. apply runs_done. by apply handle_run.
Qed.

Inductive ql_reach : world -> Prop :=
| reach_boot h : inv quiet h -> ql_reach (World h ∅ [] 0)
| reach_create pa sz fl mem r w w' : ql_reach w -> 0 <= sz < 2 ^ 32 -> (forall at_, mem = Some at_ -> 0 < at_) ->
    ql_tipc_create_device pa sz fl mem w = Done r w' -> ql_reach w'
| reach_shutdown pa r w w' : ql_reach w -> ql_tipc_shutdown_device pa w = Done r w' -> ql_reach w'
| reach_command access ipc_mem ev ns pa cmd_sz o w w' : ql_reach w -> mem_ok ipc_mem -> command_ok ns pa cmd_sz w ->
    ql_tipc_handle_cmd access ipc_mem ev no_time no_time ns pa cmd_sz w = Done o w' -> ql_reach w'
| reach_others w h' : ql_reach w -> others_step w h' -> ql_reach (World h' (w_regions w) (_dev_list w) (_dev_cnt w)).

Lemma reach_ok w : ql_reach w -> ql_ok w.
Proof.
  induction 1 as [h Hi|pa sz fl mem r w w' _ IH Hsz Hm Hrun|pa r w w' _ IH Hrun|access ipc_mem ev ns pa cmd_sz o w w' _ IH Hm Hc Hrun|w h' _ IH [Hi Hk]].
  - split; simpl; try done. apply NoDup_nil_2.
  - pose proof (create_run pa sz fl mem w IH Hsz Hm) as Hr. unfold runs in Hr. rewrite Hrun in Hr. apply Hr.
  - pose proof (ql_shutdown_run pa w IH) as Hr. unfold runs in Hr. rewrite Hrun in Hr. apply Hr.
  - pose proof (handle_run access ipc_mem ev ns pa cmd_sz w IH Hm Hc) as Hr. unfold runs in Hr. rewrite Hrun in Hr. apply Hr.
  - destruct IH as [L1 L2 L3 L4 L5]. split; simpl; auto. intros i d Hd. eapply dev_ok_kept; [by eapply L2|done|].
    intros c x Hin Hx _. by eapply Hk.
Qed.
End Platform.

(** C14: the devices are sound in every state that the other side can reach
    with calls that create devices, shut them down or pass them commands, with
    the objects changing in between: every table matches its list and the
    channels, no channel is on two devices, no buffer is shared by two, and
    there are two devices at most.  In such a state creating and shutting
    down a device run to their end, and so does every command that is not
    longer than the buffer of its device, with one exception: the request for
    the events of all channels while there are channels and all are idle
    ([null_request]) reads through a null pointer, and the kernel faults.  A
    longer command is not refused and may fault ([command_fits] excludes it);
    memory for what a connection needs may run out ([mem_ok]). *)
Theorem ql_reach_sound `{Vqueue.Platform} w : ql_reach w -> ql_ok w /\
  (forall pa sz fl mem, 0 <= sz < 2 ^ 32 -> (forall at_, mem = Some at_ -> 0 < at_) ->
     exists r w', ql_tipc_create_device pa sz fl mem w = Done r w' /\ ql_reach w') /\
  (forall pa, exists r w', ql_tipc_shutdown_device pa w = Done r w' /\ ql_reach w' /\ dev_lookup pa w' = None) /\
  (forall access ipc_mem ev ns pa cmd_sz, mem_ok ipc_mem -> command_fits pa cmd_sz w ->
     match ql_tipc_handle_cmd access ipc_mem ev no_time no_time ns pa cmd_sz w with
     | Done o w' => is_Some o /\ ql_reach w' /\ command_ok ns pa cmd_sz w
     | Crash why => why = BadAccess /\
         exists i d, dev_lookup pa w = Some (i, d) /\ null_request (show ns (w_heap w, d)) cmd_sz
     end).
Proof.
  intros Hr. pose proof (reach_ok w Hr) as Hw. split; [done|]. split; [|split].
  - intros pa sz fl mem Hsz Hm. destruct (proj1 (runs_done _ _ _) (create_run pa sz fl mem w Hw Hsz Hm)) as (r & w' & Hrun & _).
    exists r, w'. split; [done|]. by eapply reach_create.
  - intros pa. destruct (proj1 (runs_done _ _ _) (ql_shutdown_run pa w Hw)) as (r & w' & Hrun & _ & Hl). exists r, w'.
    split; [done|]. split; [by eapply reach_shutdown|]. destruct (dev_lookup pa w) as [[i d]|] eqn:El; [apply Hl|]. destruct Hl as [_ ->]. done.
  - intros access ipc_mem ev ns pa cmd_sz Hm Hf.
    destruct (handle_total access ipc_mem ev ns pa cmd_sz w Hw Hm Hf) as [(i & d & El & Hn & ->)|(Hc & o & w' & Hrun & _ & Ho)]; [eauto|].
    rewrite Hrun. split; [|split; [by eapply reach_command|done]].
    destruct (dev_lookup pa w) as [[i d]|]; [destruct Ho as (r & _ & -> & _); by eexists|]. destruct Ho as [-> _]. by eexists.
Qed.

(** C15: a command that is not longer than the buffer does what its opcode
    says to the one device whose buffer it names, and is refused without
    effect where no device is there or the buffer does not hold a command of
    that size.  Sending appends the payload, cut to the size of a receive
    buffer, to the queue of the peer, or reports why not; receiving moves the
    oldest message into the buffer, or loses it when it is too long;
    connecting takes the first free slot; disconnecting closes the channel
    and frees its slot; an event request reports one event and consumes it.
    The header of the buffer then holds the status, the length and the opcode
    of the answer, except after a disconnect of an unknown target, which
    writes nothing.  The request for the events of all channels while there
    are channels and all are idle faults instead.  A command longer than the
    buffer is not refused by the code and is left out here. *)
Theorem ql_handle_cmd_effect access ipc_mem ev ns pa cmd_sz w : ql_ok w -> mem_ok ipc_mem -> command_fits pa cmd_sz w ->
  match ql_tipc_handle_cmd access ipc_mem ev no_time no_time ns pa cmd_sz w with
  | Done o w' => ql_ok w' /\
      match dev_lookup pa w with
      | None => o = Some SmCall.SM_ERR_INVALID_PARAMETERS /\ w' = w
      | Some (i, d) => exists r s', o = Some r /\ w' = put_dev i s' w /\
          command_effect access ipc_mem cmd_sz (show ns (w_heap w, d)) r s'
      end
  | Crash why => why = BadAccess /\
      exists i d, dev_lookup pa w = Some (i, d) /\ null_request (show ns (w_heap w, d)) cmd_sz
  end.
Proof.
  intros Hw Hm Hf. destruct (handle_total access ipc_mem ev ns pa cmd_sz w Hw Hm Hf) as [(i & d & El & Hn & ->)|(_ & o & w' & -> & H)]; [eauto|done].
Qed.

(** The refusals of [ql_tipc_create_device] are codes of the monitor already;
    translated once more they all become the internal failure. *)
Lemma create_code_lost w pa sz e : create_refused w pa sz = Some e ->
  SmCall.to_smc_error e = SmCall.SM_ERR_INTERNAL_FAILURE.
Proof.
  unfold create_refused. destruct (_ || _); [by intros [= <-]|]. destruct (_ <=? _); [by intros [= <-]|done].
Qed.
End TipcDevQlSafe.
