(* ===== verification/TipcDevQlDemo.v ===== *)
(** * A queue-less device with one connection, and the theorems on it *)

From S2P Require Import Prelude Bitmap Iovec MsgQueue MemKeep Handle Ipc IpcInv IpcKeep IpcSafe IpcMsg IpcDemo HandleList IpcHandle.
From S2P Require Import IpcTouch IpcWait EptTable SmCall Vqueue TipcDev TipcWin TipcDevDemo TipcDevQl TipcDevQlInv TipcDevQlCmd.
From S2P Require Import TipcDevQlEvent TipcDevQlConn TipcDevQlSafe.

Module TipcDevQlDemo.
Import Bitmap Iovec MsgQueue MemKeep Handle Ipc IpcInv IpcKeep IpcSafe IpcMsg IpcDemo HandleList IpcHandle IpcTouch IpcWait EptTable.
Import TipcDevQl TipcDevQlInv TipcDevQlCmd TipcDevQlEvent TipcDevQlConn TipcDevQlSafe.

Definition at0 : Z := 0x10000.

(** Channel 2 of the demonstration heap is the connection, in slot 0; it has
    no event. *)
Definition quiet2 : chan := set_aux 0 (set_handle (Hnd 2 None at0 5) chan2).
Definition ql_heap : heap := upd 2 quiet2 demo.
Definition slot0 : bitmap := default [] (bitmap_set (bitmap_zero 32) 0).
Definition ql_dev : ql_tipc_dev :=
  Dev (HList [HChan 2] None) 0 4096 0x8000 0x40000 0 ZeroUuid slot0 (<[0%nat := Ept (Some (HChan 2)) 77]> (replicate 32 (Ept None 0))) at0.
Definition ql_world : world := World ql_heap ∅ [ql_dev] 1.

Lemma ql_heap_inv : inv quiet ql_heap.
Proof.
  assert (H : inv quiet (upd 2 (set_handle (Hnd 2 None at0 5) chan2) demo)) by (apply (handle_inv demo 2 chan2); [apply demo_inv|done..]).
  apply (inv_aux quiet _ 2 (set_handle (Hnd 2 None at0 5) chan2) 0) in H; [|apply upd_look]. by rewrite upd_upd in H.
Qed.

Lemma ql_dev_ok : dev_ok (ql_heap, ql_dev).
Proof.
  destruct (bitmap_set_spec (bitmap_zero 32) 32 0) as (b & Hs & Hwf & Hbits); [by apply bitmap_zero_wf|done|].
  assert (Hb : slot0 = b) by (unfold slot0; by rewrite Hs).
  split; simpl; try done.
  - unfold table. apply (table_add ept_chan (Ept None 0) 32 (ept_ptr at0) eq_refl demo (replicate 32 (Ept None 0)) (bitmap_zero 32) [] 0 slot0 _ 2
      quiet2 ql_heap); try done.
    + apply (table_new ept_chan (Ept None 0) 32 (ept_ptr at0)); [done|apply demo_inv|done].
    + rewrite Hb. by split.
    + apply ql_heap_inv.
    + intros d x Hd Hx _. exists x. split; [|done]. unfold ql_heap, upd. simpl. by rewrite lookup_insert_ne.
    + apply not_elem_of_nil.
  - intros c x Hin Hx. apply list_elem_of_singleton in Hin. injection Hin as ->. unfold ql_heap in Hx. rewrite upd_look in Hx. by injection Hx as <-.
Qed.

Lemma ql_world_ok : ql_ok ql_world.
Proof.
  split; simpl.
  - apply ql_heap_inv.
  - intros [|[|i]] d Hd; [|done..]. injection Hd as <-. apply ql_dev_ok.
  - intros [|[|i]] [|[|j]] d e x Hne Hd He; simpl in Hd, He; try done.
  - apply NoDup_singleton.
  - done.
Qed.

Lemma ql_poor_ok : mem_ok (fun _ => (true, Allocs false (false, None) (false, None), true)).
Proof. intros h p y _. by split. Qed.

(** The buffer holds a command: its opcode, the handle, the payload length and
    the payload. *)
Definition cmd_ns (op hnd : Z) (bs : list Z) (a : Z) : Z :=
  let i := a - 0x40000 in
  if i =? 0 then op else if i =? 8 then hnd else if i =? 12 then Z.of_nat (length bs)
  else if 16 <=? i then nth (Z.to_nat (i - 16)) bs 0 else 0.

Definition send_ns := cmd_ns QL_TIPC_DEV_SEND 32 [1; 2; 3].

Lemma send_command_ok : command_ok send_ns 0x8000 19 ql_world.
Proof.
  intros i d H. assert (Hd : dev_lookup 0x8000 ql_world = Some (0%nat, ql_dev)) by done. rewrite Hd in H. injection H as <- <-.
  split; [done|]. intros (cmd & bs & (hdr & Hh & -> & _) & Ho & _).
  assert (Hk : kread 0x40000 16 (kernel (user (show send_ns (ql_heap, ql_dev)).1)) = Some [3; 0; 0; 0; 0; 0; 0; 0; 32; 0; 0; 0; 3; 0; 0; 0]) by (vm_compute; reflexivity).
  change (ns_va (show send_ns (w_heap ql_world, ql_dev)).2) with 0x40000 in Hh. change (w_heap ql_world) with ql_heap in Hh.
  rewrite Hk in Hh. injection Hh as <-. discriminate Ho.
Qed.

Definition no_access (_ : Z) (_ : uuid) : Z := 0.

Definition ql_poor (_ : heap) : bool * allocs * bool := (true, Allocs false (false, None) (false, None), true).

Lemma ql_handle_cmd_effect_witness : exists s', dev_lookup 0x8000 ql_world = Some (0%nat, ql_dev) /\
  ql_tipc_handle_cmd no_access ql_poor 9 no_time no_time send_ns 0x8000 19 ql_world = Done (Some 3) (put_dev 0 s' ql_world) /\
  command_effect no_access ql_poor 19 (show send_ns (ql_heap, ql_dev)) 3 s'.
Proof.
  assert (Hd : dev_lookup 0x8000 ql_world = Some (0%nat, ql_dev)) by reflexivity.
  pose proof (ql_handle_cmd_effect no_access ql_poor 9 send_ns 0x8000 19 ql_world ql_world_ok ql_poor_ok (fun i d E => proj1 (send_command_ok i d E))) as H.
  rewrite Hd in H.
  assert (Hv : match ql_tipc_handle_cmd no_access ql_poor 9 no_time no_time send_ns 0x8000 19 ql_world with
    | Done (Some r) _ => r | _ => 0 end = 3) by (vm_compute; reflexivity).
  destruct (ql_tipc_handle_cmd _ _ _ _ _ _ _ _ _) as [o w'|why]; [|discriminate Hv].
  destruct H as (_ & r & s' & -> & -> & He). subst r. exists s'. split; [exact Hd|]. split; [reflexivity|exact He].
Defined.

(** The message of three bytes is queued at the other end. *)
Example send_queues : match ql_tipc_handle_cmd no_access (fun _ => (true, Allocs false (false, None) (false, None), true)) 9 no_time no_time
    send_ns 0x8000 19 ql_world with
  | Done (Some 3) w => (x ← chans (w_heap w) !! 3; pending <$> msg_queue x) = Some [[1; 2; 3]]
  | _ => False
  end.
Proof. vm_compute. reflexivity. Qed.

(** Nobody compares the size of the command with the size of the buffer: a
    payload of 4081 bytes is read past the end of the page that is mapped. *)
Definition long_ns (a : Z) : Z :=
  let i := a - 0x40000 in if i =? 0 then QL_TIPC_DEV_SEND else if i =? 8 then 32 else if i =? 12 then 0xf1 else if i =? 13 then 0xf else 0.
Definition big_queue : heap :=
  upd 3 (set_mq (Some (MsgQueue [0%nat] [] [] 1 4096 (replicate 4096 0) [MsgItem 0 0 0 0])) chan3) ql_heap.
Example long_command_faults :
  ql_tipc_handle_cmd no_access (fun _ => (true, Allocs false (false, None) (false, None), true)) 9 no_time no_time
    long_ns 0x8000 4097 (World big_queue ∅ [ql_dev] 1) = Crash BadAccess.
Proof. vm_compute. reflexivity. Qed.

Lemma ql_good : good (show send_ns (ql_heap, ql_dev)).
Proof. apply show_good, ql_dev_ok. Qed.

Lemma get_event_null_witness :
  stuck (show send_ns (ql_heap, ql_dev)) /\ dev_get_event 9 no_time no_time 8 0 (show send_ns (ql_heap, ql_dev)) = Crash BadAccess.
Proof.
  assert (Hs : stuck (show send_ns (ql_heap, ql_dev))) by (split; [discriminate|reflexivity]).
  split; [exact Hs|]. apply (get_event_null 9 8 _ ql_good Hs). discriminate.
Defined.

Lemma boot_reach : ql_reach (H := Vqueue.demo_platform) (World demo ∅ [] 0).
Proof. apply reach_boot, demo_inv. Qed.

(** Create a device, shut it down again. *)
Lemma ql_reach_sound_witness : exists r w' r2 w2,
  ql_tipc_create_device (H := Vqueue.demo_platform) 0x8000 4096 0 (Some 0x10000) (World demo ∅ [] 0) = Done r w' /\
  ql_tipc_shutdown_device 0x8000 w' = Done r2 w2 /\ dev_lookup 0x8000 w2 = None /\ ql_ok w2.
Proof.
  destruct (ql_reach_sound (H := Vqueue.demo_platform) (World demo ∅ [] 0) boot_reach) as (_ & Hc & _).
  destruct (Hc 0x8000 4096 0 (Some 0x10000)) as (r & w' & Hr & Hw'); [lia|by intros at_ [= <-]|].
  destruct (ql_reach_sound (H := Vqueue.demo_platform) w' Hw') as (_ & _ & Hs & _).
  destruct (Hs 0x8000) as (r2 & w2 & Hr2 & Hw2 & Hl). exists r, w', r2, w2. split; [exact Hr|]. split; [exact Hr2|]. split; [exact Hl|].
  apply (reach_ok w2 Hw2).
Defined.
End TipcDevQlDemo.
