(* ===== verification/VirtioBus.v ===== *)
(** * The virtio bus

    [lib/trusty/trusty_virtio.c], [trusty_virtio.h]: one bus per guest, the
    devices registered on it, the resource table that describes them to the
    non-secure world, and the states of a bus. *)

From S2P Require Import Prelude SmCall Vqueue TipcDev.

Module VirtioBus.

Definition VIRTIO_FW_RSC_VER : Z := 1.
Definition sizeof_resource_table : Z := 16.

Definition VIRTIO_BUS_STATE_UNINITIALIZED : Z := 0.
Definition VIRTIO_BUS_STATE_IDLE : Z := 1.
Definition VIRTIO_BUS_STATE_ACTIVATING : Z := 2.
Definition VIRTIO_BUS_STATE_ACTIVE : Z := 3.
Definition VIRTIO_BUS_STATE_DEACTIVATING : Z := 4.

(** ** The devices

    What the bus sees of its devices: the fields of [struct vdev] at an
    address, the operations, which may be null pointers, and the regions of the
    kernel address space.  [get_descr] answers the bytes that it stores and
    the size; [probe] may wait and then answers [None]. *)

Record vdev := Vdev { devid : Z; descr_offset : Z }.

Record vdev_ops (S : Type) := VdevOps {
  descr_sz : option (Z -> M S Z);
  get_descr : option (Z -> M S (list Z * Z));
  probe : option (Z -> list Z -> M S (option Z));
  reset : option (Z -> M S Z);
  kick_vqueue : option (Z -> Z -> M S Z)
}.
Arguments VdevOps {S}. Arguments descr_sz {S}. Arguments get_descr {S}. Arguments probe {S}.
Arguments reset {S}. Arguments kick_vqueue {S}.

Class Vdevs (S : Type) := {
  vdev_at : Z -> S -> option vdev;
  set_vdev : Z -> vdev -> S -> S;
  ops_of : Z -> S -> option (vdev_ops S);
  regions_of : S -> Vqueue.kregions;
  set_regions : Vqueue.kregions -> S -> S
}.

(** ** The state of the buses *)

Record trusty_virtio_bus := Bus {
  vdev_cnt : Z;
  next_dev_id : Z;
  descr_size : Z;
  state : Z;
  vdev_list : list Z
}.

Definition set_state (x : Z) (b : trusty_virtio_bus) : trusty_virtio_bus :=
  Bus (vdev_cnt b) (next_dev_id b) (descr_size b) x (vdev_list b).
Definition set_descr_size (x : Z) (b : trusty_virtio_bus) : trusty_virtio_bus :=
  Bus (vdev_cnt b) (next_dev_id b) x (state b) (vdev_list b).

Definition bus_init : trusty_virtio_bus := Bus 0 0 0 VIRTIO_BUS_STATE_UNINITIALIZED [].

Record guests_vbus_context := Ctx {
  num_guests : Z;
  guest0_virtio_bus : trusty_virtio_bus;
  addl_guests_virtio_bus : option (list trusty_virtio_bus)
}.

Definition ctx_init : guests_vbus_context := Ctx 0 bus_init None.

(** The context, the devices, and what the mapped descriptor buffers of the
    non-secure world held when they were unmapped. *)
Record world (S : Type) := World {
  w_ctx : guests_vbus_context;
  w_devs : S;
  w_sent : list (Z * list Z)
}.
Arguments World {S}. Arguments w_ctx {S}. Arguments w_devs {S}. Arguments w_sent {S}.

(** A pointer to a bus is the number of its guest. *)
Definition bus_at (g : Z) (c : guests_vbus_context) : option trusty_virtio_bus :=
  if 0 <? g then l ← addl_guests_virtio_bus c; l !! Z.to_nat (g - 1) else Some (guest0_virtio_bus c).
Definition set_bus (g : Z) (b : trusty_virtio_bus) (c : guests_vbus_context) : guests_vbus_context :=
  if 0 <? g then Ctx (num_guests c) (guest0_virtio_bus c) (<[Z.to_nat (g - 1) := b]> <$> addl_guests_virtio_bus c)
  else Ctx (num_guests c) b (addl_guests_virtio_bus c).

Section Bus.
Context {S : Type} `{Vdevs S} `{Vqueue.Platform}.
Notation W := (world S).

Definition on_ctx (f : guests_vbus_context -> guests_vbus_context) : M W unit :=
  modify (fun w => World (f (w_ctx w)) (w_devs w) (w_sent w)).
Definition on_devs {A} (m : M S A) : M W A := fun w =>
  match m (w_devs w) with Done a s => Done a (World (w_ctx w) s (w_sent w)) | Crash e => Crash e end.
Definition get_bus (g : Z) : M W trusty_virtio_bus := w <- get ;; deref (bus_at g (w_ctx w)).
Definition put_bus (g : Z) (b : trusty_virtio_bus) : M W unit := on_ctx (set_bus g b).
Definition get_vdev (p : Z) : M W vdev := w <- get ;; deref (vdev_at p (w_devs w)).
Definition put_vdev (p : Z) (v : vdev) : M W unit := on_devs (modify (set_vdev p v)).
Definition get_ops (p : Z) : M W (vdev_ops S) := w <- get ;; deref (ops_of p (w_devs w)).

(** ** Mapping a descriptor buffer

    [sz] is converted to [ns_size_t]. *)
Definition map_descr (buf_pa sz buf_mmu_flags guest_id : Z) : M W (Z * Z) :=
  if buf_pa =? 0 then ret (ERR_INVALID_ARGS, 0)
  else if negb (Z.land buf_pa (PAGE_SIZE - 1) =? 0) then ret (ERR_INVALID_ARGS, 0)
  else
    let roundedup_sz := ROUNDUP (u32 sz) PAGE_SIZE in
    let r := Vqueue.trusty_hyp_check_guest_pa_valid buf_pa roundedup_sz guest_id in
    if negb (r =? NO_ERROR) then ret (r, 0)
    else
      s <- gets w_devs ;;
      match Vqueue.vmm_alloc_physical (regions_of s) buf_pa roundedup_sz buf_mmu_flags with
      | inl e => ret (e, 0)
      | inr va =>
          on_devs (modify (fun s => set_regions (<[va := (buf_pa, roundedup_sz, buf_mmu_flags)]> (regions_of s)) s)) ;;;
          ret (NO_ERROR, va)
      end.

Definition unmap_descr (va : Z) : M W unit :=
  on_devs (modify (fun s => set_regions (delete va (regions_of s)) s)).

(** The size of the mapping at [va]. *)
Definition mapped (va : Z) (s : S) : nat :=
  match regions_of s !! va with Some (_, sz, _) => Z.to_nat sz | None => 0%nat end.

(** What is behind a mapping; [ns] is the buffer of the other side. *)
Definition window (ns : Z -> Z) (va : Z) : M W (list Z) :=
  w <- get ;; ret ((fun i => ns (Z.of_nat i)) <$> seq 0 (mapped va (w_devs w))).

Definition store (off : Z) (bs buf : list Z) : M W (list Z) :=
  if off + Z.of_nat (length bs) <=? Z.of_nat (length buf) then ret (list_inserts (Z.to_nat off) bs buf) else bad_access.

(** ** Registration *)

Definition all_ops (o : vdev_ops S) : bool :=
  bool_decide (is_Some (descr_sz o)) && bool_decide (is_Some (get_descr o)) && bool_decide (is_Some (probe o)) &&
  bool_decide (is_Some (reset o)) && bool_decide (is_Some (kick_vqueue o)).

Definition validate_vdev (vd : Z) : M W Z :=
  if vd =? 0 then ret ERR_INVALID_ARGS
  else
    w <- get ;;
    match ops_of vd (w_devs w) with
    | None => ret ERR_INVALID_ARGS
    | Some o => ret (if all_ops o then NO_ERROR else ERR_INVALID_ARGS)
    end.

Definition get_guest_virtio_bus (guest_id : Z) : M W Z :=
  if 0 <? guest_id then
    w <- get ;;
    if num_guests (w_ctx w) <=? guest_id then ret ERR_INVALID_ARGS
    else ret (if addl_guests_virtio_bus (w_ctx w) then NO_ERROR else ERR_NOT_READY)
  else ret NO_ERROR.

Definition virtio_register_device (vd guest_id : Z) : M W Z :=
  on_ctx (fun c => Ctx (u32 (num_guests c + 1)) (guest0_virtio_bus c) (addl_guests_virtio_bus c)) ;;;
  r <- get_guest_virtio_bus guest_id ;;
  if negb (r =? 0) then ret ERR_INVALID_ARGS
  else
    vb <- get_bus guest_id ;;
    if state vb =? VIRTIO_BUS_STATE_UNINITIALIZED then
      r <- validate_vdev vd ;;
      if r =? NO_ERROR then
        v <- get_vdev vd ;;
        put_vdev vd (Vdev (next_dev_id vb) (descr_offset v)) ;;;
        put_bus guest_id (Bus (u32 (vdev_cnt vb + 1)) (u32 (next_dev_id vb + 1)) (descr_size vb) (state vb)
                            (vdev_list vb ++ [vd])) ;;;
        ret r
      else ret r
    else ret ERR_BAD_STATE.

(** The loop of [finalize_vdev_registery]: the total size. *)
Fixpoint layout (l : list Z) (offset : Z) : M W Z :=
  match l with
  | [] => ret offset
  | p :: l =>
      v <- get_vdev p ;;
      put_vdev p (Vdev (devid v) offset) ;;;
      o <- get_ops p ;;
      f <- deref (descr_sz o) ;;
      n <- on_devs (f p) ;;
      layout l (u32 (offset + n))
  end.

Definition finalize_vdev_registery (guest_id : Z) : M W Z :=
  r <- get_guest_virtio_bus guest_id ;;
  if negb (r =? 0) then ret ERR_INVALID_ARGS
  else
    vb <- get_bus guest_id ;;
    if state vb =? VIRTIO_BUS_STATE_UNINITIALIZED then
      offset <- layout (vdev_list vb) (u32 (sizeof_resource_table + 4 * vdev_cnt vb)) ;;
      put_bus guest_id (set_state VIRTIO_BUS_STATE_IDLE (set_descr_size offset vb)) ;;;
      ret NO_ERROR
    else ret NO_ERROR.

(** ** The resource table *)

(** The loop of [virtio_get_description] from device number [idx]: the
    buffer. *)
Fixpoint describe (l : list Z) (idx : Z) (vb : trusty_virtio_bus) (buf : list Z) : M W (list Z) :=
  match l with
  | [] => ret buf
  | p :: l =>
      v <- get_vdev p ;;
      assert_ (descr_offset v <=? descr_size vb) ;;;
      o <- get_ops p ;;
      f <- deref (descr_sz o) ;;
      n <- on_devs (f p) ;;
      assert_ (u64 (descr_offset v + n) <=? descr_size vb) ;;;
      assert_ (idx <? vdev_cnt vb) ;;;
      buf <- store (sizeof_resource_table + 4 * idx) (TipcDev.bytes32 (descr_offset v)) buf ;;
      g <- deref (get_descr o) ;;
      bs <- on_devs (g p) ;;
      buf <- store (descr_offset v) bs.1 buf ;;
      describe l (idx + 1) vb buf
  end.

Definition virtio_get_description (ns : Z -> Z) (buf_pa buf_sz buf_mmu_flags guest_id : Z) : M W Z :=
  r <- get_guest_virtio_bus guest_id ;;
  if negb (r =? 0) then ret ERR_INVALID_ARGS
  else
    r <- finalize_vdev_registery guest_id ;;
    if negb (r =? NO_ERROR) then ret r
    else
      vb <- get_bus guest_id ;;
      if buf_sz <? descr_size vb then ret ERR_NOT_ENOUGH_BUFFER
      else
        m <- map_descr buf_pa (descr_size vb) buf_mmu_flags guest_id ;;
        if negb (m.1 =? NO_ERROR) then ret m.1
        else
          buf <- window ns m.2 ;;
          buf <- store 0 (replicate (Z.to_nat (descr_size vb)) 0) buf ;;
          buf <- store 0 (TipcDev.bytes32 VIRTIO_FW_RSC_VER) buf ;;
          buf <- store 4 (TipcDev.bytes32 (vdev_cnt vb)) buf ;;
          buf <- describe (vdev_list vb) 0 vb buf ;;
          modify (fun w => World (w_ctx w) (w_devs w) (w_sent w ++ [(buf_pa, buf)])) ;;;
          unmap_descr m.2 ;;;
          ret (descr_size vb).

(** ** Starting and stopping *)

(** [atomic_cmpxchg(&vb->state, ...)]: the old state. *)
Definition cmpxchg_state (guest_id old new : Z) : M W Z :=
  vb <- get_bus guest_id ;;
  (if state vb =? old then put_bus guest_id (set_state new vb) else ret tt) ;;;
  ret (state vb).
Definition write_state (guest_id new : Z) : M W unit := vb <- get_bus guest_id ;; put_bus guest_id (set_state new vb).

Fixpoint probe_all (l : list Z) (descr : list Z) : M W (option unit) :=
  match l with
  | [] => tret tt
  | p :: l =>
      v <- get_vdev p ;;
      o <- get_ops p ;;
      f <- deref (probe o) ;;
      _ <~ on_devs (f p (drop (Z.to_nat (descr_offset v)) descr)) ;;
      probe_all l descr
  end.

(** [mem]: whether [malloc] succeeds. *)
Definition virtio_start (ns : Z -> Z) (mem : bool) (ns_descr_pa descr_sz descr_mmu_flags guest_id : Z) : M W (option Z) :=
  r <- get_guest_virtio_bus guest_id ;;
  if negb (r =? 0) then tret ERR_INVALID_ARGS
  else
    oldstate <- cmpxchg_state guest_id VIRTIO_BUS_STATE_IDLE VIRTIO_BUS_STATE_ACTIVATING ;;
    if negb (oldstate =? VIRTIO_BUS_STATE_IDLE) then tret ERR_BAD_STATE
    else
      vb <- get_bus guest_id ;;
      if negb (descr_sz =? descr_size vb) then write_state guest_id oldstate ;;; tret ERR_INVALID_ARGS
      else if negb mem then write_state guest_id oldstate ;;; tret ERR_NO_MEMORY
      else
        m <- map_descr ns_descr_pa (descr_size vb) descr_mmu_flags guest_id ;;
        if negb (m.1 =? NO_ERROR) then write_state guest_id oldstate ;;; tret m.1
        else
          buf <- window ns m.2 ;;
          if Z.of_nat (length buf) <? descr_sz then bad_access
          else
            probe_all (vdev_list vb) (take (Z.to_nat descr_sz) buf) ~;;
            unmap_descr m.2 ;;;
            write_state guest_id VIRTIO_BUS_STATE_ACTIVE ;;;
            tret NO_ERROR.

Fixpoint reset_all (l : list Z) : M W unit :=
  match l with
  | [] => ret tt
  | p :: l =>
      o <- get_ops p ;;
      f <- deref (reset o) ;;
      _ <- on_devs (f p) ;;
      reset_all l
  end.

Definition virtio_stop (descr_pa descr_sz descr_mmu_flags guest_id : Z) : M W Z :=
  r <- get_guest_virtio_bus guest_id ;;
  if negb (r =? 0) then ret ERR_INVALID_ARGS
  else
    oldstate <- cmpxchg_state guest_id VIRTIO_BUS_STATE_ACTIVE VIRTIO_BUS_STATE_DEACTIVATING ;;
    if negb (oldstate =? VIRTIO_BUS_STATE_ACTIVE) then ret ERR_BAD_STATE
    else
      vb <- get_bus guest_id ;;
      reset_all (vdev_list vb) ;;;
      write_state guest_id VIRTIO_BUS_STATE_IDLE ;;;
      ret NO_ERROR.

(** ** Calls for one device *)

(** The first device of the list with this id. *)
Fixpoint find_vdev (l : list Z) (id : Z) : M W (option Z) :=
  match l with
  | [] => ret None
  | p :: l => v <- get_vdev p ;; if devid v =? id then ret (Some p) else find_vdev l id
  end.

Definition virtio_device_reset (id guest_id : Z) : M W Z :=
  r <- get_guest_virtio_bus guest_id ;;
  if negb (r =? 0) then ret ERR_INVALID_ARGS
  else
    vb <- get_bus guest_id ;;
    if negb (state vb =? VIRTIO_BUS_STATE_ACTIVE) then ret ERR_BAD_STATE
    else
      x <- find_vdev (vdev_list vb) id ;;
      match x with
      | None => ret ERR_NOT_FOUND
      | Some p => o <- get_ops p ;; f <- deref (reset o) ;; on_devs (f p)
      end.

Definition virtio_kick_vq (id vqid guest_id : Z) : M W Z :=
  r <- get_guest_virtio_bus guest_id ;;
  if negb (r =? 0) then ret ERR_INVALID_ARGS
  else
    vb <- get_bus guest_id ;;
    if negb (state vb =? VIRTIO_BUS_STATE_ACTIVE) then ret ERR_BAD_STATE
    else
      x <- find_vdev (vdev_list vb) id ;;
      match x with
      | None => ret ERR_NOT_FOUND
      | Some p => o <- get_ops p ;; f <- deref (kick_vqueue o) ;; on_devs (f p vqid)
      end.

(** ** The buses of the additional guests

    [mem]: whether [calloc] succeeds. *)
Definition alloc_guest_virtio_bus (mem : bool) (num : Z) : M W Z :=
  if SmCall.MAX_NUM_SUPPORTED_GUESTS <? num then ret ERR_INVALID_ARGS
  else if negb mem then
    on_ctx (fun c => Ctx (num_guests c) (guest0_virtio_bus c) None) ;;; ret ERR_NO_MEMORY
  else
    on_ctx (fun c => Ctx (num_guests c) (guest0_virtio_bus c) (Some (replicate (Z.to_nat num) bus_init))) ;;;
    ret NO_ERROR.

Definition free_guest_virtio_bus : M W unit :=
  on_ctx (fun c => Ctx (num_guests c) (guest0_virtio_bus c) None).
End Bus.
End VirtioBus.
