(* ===== verification/VirtioBusInv.v ===== *)
(** * The buses: what the devices promise, invariant and single steps *)

From S2P Require Import Prelude SmCall Vqueue TipcDev VirtioBus.

Module VirtioBusInv.
Import VirtioBus.

(** ** What a device promises to its bus *)

Section Promise.
Context {S : Type} `{Vdevs S}.

(** [descr_of p s]: the descriptor that device [p] writes in [s]; [probe_ok]:
    what the devices rely on in a descriptor that the other side filled in. *)
Definition same_vdevs (descr_of : Z -> S -> list Z) (s s' : S) : Prop := forall p,
  vdev_at p s' = vdev_at p s /\ ops_of p s' = ops_of p s /\ length (descr_of p s') = length (descr_of p s).

Record keeps_promise (dev_inv : S -> Prop) (descr_of : Z -> S -> list Z) (probe_ok : list Z -> Prop) (p : Z) (o : vdev_ops S) (s : S) : Prop := {
  p_size : exists f, descr_sz o = Some f /\ f p s = Done (Z.of_nat (length (descr_of p s))) s;
  p_descr : exists f, get_descr o = Some f /\ f p s = Done (descr_of p s, Z.of_nat (length (descr_of p s))) s;
  p_probe : exists f, probe o = Some f /\ forall bs, probe_ok bs ->
    tsafely (f p bs) s (fun _ s' => dev_inv s' /\ same_vdevs descr_of s s');
  p_reset : exists f, reset o = Some f /\ runs (f p) s (fun _ s' => dev_inv s' /\ same_vdevs descr_of s s');
  p_kick : exists f, kick_vqueue o = Some f /\ forall id, runs (f p id) s (fun _ s' => dev_inv s' /\ same_vdevs descr_of s s')
}.
End Promise.

Class VdevsOk (S : Type) `{Vdevs S} := {
  dev_inv : S -> Prop;
  descr_of : Z -> S -> list Z;
  probe_ok : list Z -> Prop;
  vdev_set_same p v v0 s : vdev_at p s = Some v0 -> vdev_at p (set_vdev p v s) = Some v;
  vdev_set_other p q v s : p <> q -> vdev_at q (set_vdev p v s) = vdev_at q s;
  ops_set p q v s : ops_of q (set_vdev p v s) = ops_of q s;
  vdev_regions p r s : vdev_at p (set_regions r s) = vdev_at p s;
  ops_regions p r s : ops_of p (set_regions r s) = ops_of p s;
  regions_set r s : regions_of (set_regions r s) = r;
  regions_vdev p v s : regions_of (set_vdev p v s) = regions_of s;
  descr_set p q v s : length (descr_of q (set_vdev p v s)) = length (descr_of q s);
  descr_regions p r s : descr_of p (set_regions r s) = descr_of p s;
  inv_set p v s : dev_inv s -> dev_inv (set_vdev p v s);
  inv_regions r s : dev_inv s -> dev_inv (set_regions r s);
  promised p o s : dev_inv s -> ops_of p s = Some o -> all_ops o = true -> keeps_promise dev_inv descr_of probe_ok p o s
}.

(** ** The invariant *)

Section Inv.
Context {S : Type} `{VdevsOk S} `{Vqueue.Platform}.
Notation W := (world S).
Notation same := (same_vdevs descr_of).

Lemma same_refl (s : S) : same s s.
Proof. by intros p. Qed.

Lemma same_trans (a b c : S) : same a b -> same b c -> same a c.
Proof. intros Hab Hbc p. destruct (Hab p) as (?&?&?), (Hbc p) as (?&?&?). split_and!; congruence. Qed.

Definition descr_len (p : Z) (s : S) : Z := Z.of_nat (length (descr_of p s)).

(** A registered device. *)
Definition registered (s : S) (p : Z) : Prop := p <> 0 /\ is_Some (vdev_at p s) /\ exists o, ops_of p s = Some o /\ all_ops o = true.

(** The devices of [l] have the ids from [i] on. *)
Fixpoint ids_from (i : Z) (l : list Z) (s : S) : Prop :=
  match l with [] => True | p :: l => (devid <$> vdev_at p s) = Some (u32 i) /\ ids_from (i + 1) l s end.

(** Their descriptors follow one another from [off] to [fin]. *)
Fixpoint laid_out (off : Z) (l : list Z) (s : S) (fin : Z) : Prop :=
  match l with
  | [] => fin = off
  | p :: l => (descr_offset <$> vdev_at p s) = Some off /\ laid_out (u32 (off + descr_len p s)) l s fin
  end.

Definition table_start (n : nat) : Z := u32 (sizeof_resource_table + 4 * u32 (Z.of_nat n)).

Record bus_ok (s : S) (b : trusty_virtio_bus) : Prop := {
  ok_cnt : vdev_cnt b = u32 (Z.of_nat (length (vdev_list b)));
  ok_next : next_dev_id b = u32 (Z.of_nat (length (vdev_list b)));
  ok_state : VIRTIO_BUS_STATE_UNINITIALIZED <= state b <= VIRTIO_BUS_STATE_DEACTIVATING;
  ok_nodup : NoDup (vdev_list b);
  ok_reg : Forall (registered s) (vdev_list b);
  ok_ids : ids_from 0 (vdev_list b) s;
  ok_laid : state b <> VIRTIO_BUS_STATE_UNINITIALIZED -> laid_out (table_start (length (vdev_list b))) (vdev_list b) s (descr_size b)
}.

(** The guest of [g] has a bus, by the checks of [get_guest_virtio_bus]. *)
Definition guest_ok (g : Z) (c : guests_vbus_context) : bool :=
  if 0 <? g then (g <? num_guests c) && bool_decide (is_Some (addl_guests_virtio_bus c)) else true.

(** Every bus is sound, no device is on two buses, and the counter of guests
    does not exceed the buses. *)
Record buses_wf (w : W) : Prop := {
  wf_bus : forall g b, 0 <= g -> bus_at g (w_ctx w) = Some b -> bus_ok (w_devs w) b;
  wf_apart : forall g g' b b' p, 0 <= g -> 0 <= g' -> bus_at g (w_ctx w) = Some b -> bus_at g' (w_ctx w) = Some b' ->
              p ∈ vdev_list b -> p ∈ vdev_list b' -> g = g';
  wf_bound : forall g, 0 <= g -> guest_ok g (w_ctx w) = true -> is_Some (bus_at g (w_ctx w))
}.

(** ... and the devices are in a state in which they keep their promise. *)
Record buses_ok (w : W) : Prop := { w_inv : dev_inv (w_devs w); w_wf : buses_wf w }.

Definition w_bus w (Hw : buses_ok w) := wf_bus w (w_wf w Hw).
Definition w_apart w (Hw : buses_ok w) := wf_apart w (w_wf w Hw).
Definition w_bound w (Hw : buses_ok w) := wf_bound w (w_wf w Hw).

(** ** Buses by their guest *)

Lemma bus_set_same g b c : 0 <= g -> is_Some (bus_at g c) -> bus_at g (set_bus g b c) = Some b.
Proof.
  unfold bus_at, set_bus. intros Hg Hs. destruct (0 <? g) eqn:E; [|done]. simpl.
  destruct (addl_guests_virtio_bus c) as [l|]; simpl in *; [|by destruct Hs].
  apply list_lookup_insert_eq. by apply lookup_lt_is_Some_1.
Qed.

Lemma bus_set_other g g' b c : 0 <= g -> 0 <= g' -> g <> g' -> bus_at g' (set_bus g b c) = bus_at g' c.
Proof.
  unfold bus_at, set_bus. intros Hg Hg' Hne. destruct (0 <? g) eqn:E; zbool; simpl.
  - destruct (0 <? g') eqn:E'; zbool; simpl; [|done]. destruct (addl_guests_virtio_bus c) as [l|]; simpl; [|done].
    apply list_lookup_insert_ne. lia.
  - destruct (0 <? g') eqn:E'; zbool; [done|lia].
Qed.

Lemma guest_set g g' b c : guest_ok g' (set_bus g b c) = guest_ok g' c.
Proof. unfold guest_ok, set_bus. destruct (0 <? g), (0 <? g'); simpl; try done. by destruct (addl_guests_virtio_bus c). Qed.

Lemma guest_run g (w : W) : exists r, get_guest_virtio_bus g w = Done r w /\ (r =? 0) = guest_ok g (w_ctx w).
Proof.
  unfold get_guest_virtio_bus, guest_ok. destruct (0 <? g); [|by exists NO_ERROR]. unfold bind, get, ret.
  destruct (num_guests (w_ctx w) <=? g) eqn:E; zbool.
  - exists ERR_INVALID_ARGS. split; [done|]. by rewrite (proj2 (Z.ltb_ge _ _)).
  - rewrite (proj2 (Z.ltb_lt _ _)) by done. destruct (addl_guests_virtio_bus (w_ctx w)); eexists; done.
Qed.

(** ** Devices that stay *)

(** The bus sees the same at [p]. *)
Definition same_at (p : Z) (s s' : S) : Prop :=
  vdev_at p s' = vdev_at p s /\ ops_of p s' = ops_of p s /\ length (descr_of p s') = length (descr_of p s).

Lemma ids_same s s' l : (forall p, p ∈ l -> devid <$> vdev_at p s' = devid <$> vdev_at p s) ->
  forall i, ids_from i l s -> ids_from i l s'.
Proof.
  induction l as [|p l IH]; intros Hs i; simpl; [done|]. intros [Hp Hl]. rewrite (Hs p) by left. split; [done|].
  apply IH; [|done]. intros q Hq. apply Hs. by right.
Qed.

Lemma laid_same s s' l fin : (forall p, p ∈ l -> same_at p s s') -> forall off, laid_out off l s fin -> laid_out off l s' fin.
Proof.
  induction l as [|p l IH]; intros Hs off; simpl; [done|]. intros [Hp Hl]. unfold descr_len in *.
  destruct (Hs p) as (-> & _ & ->); [left|]. split; [done|]. apply IH; [|done]. intros q Hq. apply Hs. by right.
Qed.

Lemma bus_ok_near s s' b : (forall p, p ∈ vdev_list b -> same_at p s s') -> bus_ok s b -> bus_ok s' b.
Proof.
  intros Hs []. split; [done..| | |].
  - apply Forall_forall. intros p Hp. pose proof (proj1 (Forall_forall _ _) ok_reg0 p Hp) as Hr.
    destruct (Hs p Hp) as (Hv & Ho & _). unfold registered. by rewrite Hv, Ho.
  - apply (ids_same s); [|done]. intros p Hp. by destruct (Hs p Hp) as (-> & _).
  - intros Hst. by apply (laid_same s), ok_laid0.
Qed.

Lemma bus_ok_same s s' b : same s s' -> bus_ok s b -> bus_ok s' b.
Proof. intros Hs. apply bus_ok_near. intros p _. apply Hs. Qed.

(** The context and the devices after a step on the bus of [g], whose list
    stays. *)
Lemma buses_step w c s sent g b b' : buses_ok w -> 0 <= g -> bus_at g (w_ctx w) = Some b ->
  (c = w_ctx w /\ b' = b \/ c = set_bus g b' (w_ctx w)) -> vdev_list b' = vdev_list b ->
  dev_inv s -> bus_ok s b' ->
  (forall g' b0, 0 <= g' -> g' <> g -> bus_at g' (w_ctx w) = Some b0 -> bus_ok s b0) -> buses_ok (World c s sent).
Proof.
  intros Hw Hg Hb Hc Hl Hi Hb' Ho.
  assert (Hat : forall g', 0 <= g' -> bus_at g' c = if decide (g' = g) then Some b' else bus_at g' (w_ctx w)).
  { intros g' Hg'. destruct (decide (g' = g)) as [->|Hne]; destruct Hc as [[-> ->]| ->]; try done.
    - by apply bus_set_same.
    - by apply bus_set_other. }
  assert (Hgo : forall g', guest_ok g' c = guest_ok g' (w_ctx w)) by (intros g'; destruct Hc as [[-> _]| ->]; [done|apply guest_set]).
  assert (Hlist : forall g' b0, 0 <= g' -> bus_at g' c = Some b0 -> exists b1, bus_at g' (w_ctx w) = Some b1 /\ vdev_list b0 = vdev_list b1).
  { intros g' b0 Hg'. rewrite Hat by done. destruct (decide (g' = g)) as [->|]; [|eauto]. intros [= <-]. eauto. }
  split; [done|]. split; simpl.
  - intros g' b0 Hg'. rewrite Hat by done. destruct (decide (g' = g)) as [->|Hne]; [intros [= <-]; done|]. by apply Ho.
  - intros g1 g2 b1 b2 p Hg1 Hg2 Hb1 Hb2 Hp1 Hp2.
    destruct (Hlist _ _ Hg1 Hb1) as (c1 & Hc1 & E1), (Hlist _ _ Hg2 Hb2) as (c2 & Hc2 & E2). rewrite E1 in Hp1. rewrite E2 in Hp2.
    exact (w_apart _ Hw _ _ _ _ _ Hg1 Hg2 Hc1 Hc2 Hp1 Hp2).
  - intros g' Hg'. rewrite Hgo, Hat by done. intros Hk. destruct (decide _); [by eexists|]. by apply (w_bound _ Hw).
Qed.

(** The devices move on, the buses stay or change their state only. *)
Lemma buses_same w s sent : buses_ok w -> dev_inv s -> same (w_devs w) s -> buses_ok (World (w_ctx w) s sent).
Proof.
  intros Hw Hi Hs. split; [done|]. split; simpl; [|apply Hw..].
  intros g b Hg Hb. eapply bus_ok_same; [exact Hs|]. by apply (w_bus _ Hw g).
Qed.

Lemma bus_ok_state s b x : bus_ok s b -> VIRTIO_BUS_STATE_IDLE <= x <= VIRTIO_BUS_STATE_DEACTIVATING ->
  state b <> VIRTIO_BUS_STATE_UNINITIALIZED -> bus_ok s (set_state x b).
Proof. intros [] Hx Hst. split; simpl; try done; [unfold VIRTIO_BUS_STATE_IDLE, VIRTIO_BUS_STATE_UNINITIALIZED in *; lia|auto]. Qed.

Lemma buses_state w g b x s sent : buses_ok w -> 0 <= g -> bus_at g (w_ctx w) = Some b ->
  VIRTIO_BUS_STATE_IDLE <= x <= VIRTIO_BUS_STATE_DEACTIVATING -> state b <> VIRTIO_BUS_STATE_UNINITIALIZED ->
  dev_inv s -> same (w_devs w) s -> buses_ok (World (set_bus g (set_state x b) (w_ctx w)) s sent).
Proof.
  intros Hw Hg Hb Hx Hst Hi Hs. eapply (buses_step w _ s sent g b (set_state x b)); try done; [by right| |].
  - apply bus_ok_state; [|done..]. eapply bus_ok_same; [exact Hs|]. by apply (w_bus _ Hw g).
  - intros g' b0 Hg' _ Hb0. eapply bus_ok_same; [exact Hs|]. by apply (w_bus _ Hw g').
Qed.
End Inv.
End VirtioBusInv.
