(* ===== verification/VirtioDescr.v ===== *)
(** * The resource table

    What [virtio_get_description] leaves in the buffer of the other side. *)

From S2P Require Import Prelude SmCall Vqueue TipcDev TipcWin VirtioBus VirtioBusInv.

Module VirtioDescr.
Import VirtioBus VirtioBusInv.

(** ** The layout of a table *)

Fixpoint offsets (off : Z) (ds : list (list Z)) : list Z :=
  match ds with [] => [] | d :: ds => off :: offsets (off + Z.of_nat (length d)) ds end.

Definition words (xs : list Z) : list Z := concat (TipcDev.bytes32 <$> xs).
Definition header (n : Z) : list Z := TipcDev.bytes32 VIRTIO_FW_RSC_VER ++ TipcDev.bytes32 n ++ replicate 8 0.
Definition table_len (ds : list (list Z)) : Z := 16 + 4 * Z.of_nat (length ds) + Z.of_nat (length (concat ds)).

Definition resource_table (ds : list (list Z)) : list Z :=
  header (Z.of_nat (length ds)) ++ words (offsets (16 + 4 * Z.of_nat (length ds)) ds) ++ concat ds.

(** What the other side reads: version, number, and at each offset a
    descriptor of the length that its kind has. *)
Definition parse_table (lens : list nat) (buf : list Z) : Z * Z * list (list Z) :=
  (TipcDev.field32 buf 0, TipcDev.field32 buf 4,
   imap (fun i n => take n (drop (Z.to_nat (TipcDev.field32 buf (16 + 4 * i))) buf)) lens).

(** ** Reading a table back *)

Lemma le32_bytes32 x rest : 0 <= x < 2 ^ 32 -> Iovec.Iovec.le32 (take 4 (TipcDev.bytes32 x ++ rest)) = x.
Proof. intros Hx. unfold TipcDev.bytes32. simpl. unfold u32. rewrite uwrap_small; dlia. Qed.

Lemma offsets_lookup ds : forall off i, (i < length ds)%nat ->
  offsets off ds !! i = Some (off + Z.of_nat (length (concat (take i ds)))).
Proof.
  induction ds as [|d ds IH]; intros off [|i] Hi; simpl in *; [lia|lia|f_equal; lia|].
  rewrite IH by lia. rewrite length_app. f_equal. lia.
Qed.

Lemma length_offsets ds : forall off, length (offsets off ds) = length ds.
Proof. induction ds as [|d ds IH]; intros off; simpl; auto. Qed.

Lemma words_len xs : length (words xs) = (4 * length xs)%nat.
Proof. induction xs as [|x xs IH]; [done|]. change (words (x :: xs)) with (TipcDev.bytes32 x ++ words xs). rewrite length_app, IH. simpl. lia. Qed.

Lemma words_drop xs : forall i x, xs !! i = Some x -> exists t, drop (4 * i) (words xs) = TipcDev.bytes32 x ++ t.
Proof.
  induction xs as [|y xs IH]; intros [|i] x Hx; simplify_eq/=; [by eexists|].
  change (words (y :: xs)) with (TipcDev.bytes32 y ++ words xs).
  destruct (IH i x Hx) as [t Ht]. exists t. rewrite <- Ht. by replace (i + Datatypes.S (i + Datatypes.S (i + Datatypes.S (i + 0))))%nat with (3 + 4 * i)%nat by lia.
Qed.

Lemma concat_drop (ds : list (list Z)) : forall i d, ds !! i = Some d -> exists t, drop (length (concat (take i ds))) (concat ds) = d ++ t.
Proof.
  induction ds as [|e ds IH]; intros [|i] d Hd; simplify_eq/=; [by eexists|].
  destruct (IH i d Hd) as [t Ht]. exists t. rewrite <- Ht, length_app, <- drop_drop. by rewrite drop_app_length.
Qed.

Lemma concat_take_len (ds : list (list Z)) i : (length (concat (take i ds)) <= length (concat ds))%nat.
Proof. rewrite <- (take_drop i ds) at 2. rewrite concat_app, length_app. lia. Qed.

Lemma parse_resource_table ds rest : table_len ds < 2 ^ 32 ->
  parse_table (length <$> ds) (resource_table ds ++ rest) = (VIRTIO_FW_RSC_VER, Z.of_nat (length ds), ds).
Proof.
  intros Hlen. unfold table_len in Hlen.
  assert (Hnum : TipcDev.field32 (resource_table ds ++ rest) 4 = Z.of_nat (length ds)).
  { unfold TipcDev.field32, resource_table, header. rewrite <- !app_assoc.
    rewrite (drop_app_length' (TipcDev.bytes32 VIRTIO_FW_RSC_VER) _ 4) by done. apply le32_bytes32. lia. }
  unfold parse_table. rewrite Hnum. f_equal.
  - apply list_eq. intros i. rewrite list_lookup_imap, list_lookup_fmap. destruct (ds !! i) as [d|] eqn:Hd; [|done]. simpl. f_equal.
    pose proof (lookup_lt_Some _ _ _ Hd) as Hi. set (n := Z.of_nat (length ds)) in *. set (start := 16 + 4 * n).
    destruct (words_drop (offsets start ds) i _ (offsets_lookup ds start i Hi)) as [t Ht].
    pose proof (concat_take_len ds i) as Hc.
    assert (Hoff : TipcDev.field32 (resource_table ds ++ rest) (16 + 4 * i) = start + Z.of_nat (length (concat (take i ds)))).
    { unfold TipcDev.field32, resource_table. fold n start. rewrite <- !app_assoc, <- drop_drop.
      rewrite (drop_app_length' (header n) _ 16) by done. rewrite drop_app_le by (rewrite words_len, length_offsets; lia).
      rewrite Ht, <- app_assoc. apply le32_bytes32. lia. }
    change (take (length d) (drop (Z.to_nat (TipcDev.field32 (resource_table ds ++ rest) (16 + 4 * i))) (resource_table ds ++ rest)) = d).
    rewrite Hoff. unfold resource_table. fold n start. rewrite <- app_assoc, (app_assoc (header n)), <- app_assoc.
    destruct (concat_drop ds i d Hd) as [t' Ht'].
    replace (Z.to_nat (start + Z.of_nat (length (concat (take i ds)))))
      with (length (header n ++ words (offsets start ds)) + length (concat (take i ds)))%nat
      by (rewrite length_app, words_len, length_offsets; change (length (header n)) with 16%nat; lia).
    rewrite <- drop_drop, !app_assoc, <- (app_assoc _ (concat ds)), drop_app_length.
    rewrite drop_app_le by done. rewrite Ht', <- app_assoc. by rewrite take_app_length.
Qed.

(** ** Stores *)

Lemma inserts_split (bs : list Z) : forall i (l : list Z), (i + length bs <= length l)%nat ->
  list_inserts i bs l = take i l ++ bs ++ drop (i + length bs) l.
Proof.
  induction bs as [|b bs IH]; intros i l Hl; simpl in *.
  - by rewrite Nat.add_0_r, take_drop.
  - rewrite IH by lia. rewrite insert_app_l by (rewrite length_take; lia).
    destruct (lookup_lt_is_Some_2 l i) as [x Hx]; [lia|]. rewrite (take_S_r l i x Hx).
    rewrite insert_app_r_alt, length_take, Nat.min_l, Nat.sub_diag by (rewrite ?length_take; lia). simpl.
    rewrite <- app_assoc. simpl. by rewrite Nat.add_succ_r.
Qed.

Section Store.
Context {S : Type} `{Vdevs S}.

Lemma store_at (a z c bs : list Z) off (w : world S) : off = Z.of_nat (length a) -> length z = length bs ->
  store off bs (a ++ z ++ c) w = Done (a ++ bs ++ c) w.
Proof.
  intros -> Hz. unfold store. rewrite !length_app. rewrite (proj2 (Z.leb_le _ _)) by lia. unfold ret. f_equal.
  rewrite Nat2Z.id, inserts_split by (rewrite !length_app; lia). rewrite take_app_length.
  rewrite <- Hz, <- drop_drop. by rewrite !drop_app_length.
Qed.
End Store.

(** ** The runs *)

Section Runs.
Context {S : Type} `{VdevsOk S} `{Vqueue.Platform}.
Notation W := (world S).

Lemma get_vdev_run p v (w : W) : vdev_at p (w_devs w) = Some v -> get_vdev p w = Done v w.
Proof. intros Hv. unfold get_vdev, bind, get. by rewrite Hv. Qed.

Lemma get_ops_run p o (w : W) : ops_of p (w_devs w) = Some o -> get_ops p w = Done o w.
Proof. intros Ho. unfold get_ops, bind, get. by rewrite Ho. Qed.

Lemma on_devs_same {A} (m : M S A) a (w : W) : m (w_devs w) = Done a (w_devs w) -> on_devs m w = Done a w.
Proof. intros Hm. unfold on_devs. rewrite Hm. by destruct w. Qed.

Lemma deref_done {T A} (a : A) (s : T) : deref (Some a) s = Done a s.
Proof. done. Qed.

Lemma assert_done {T} (b : bool) (s : T) : b = true -> assert_ b s = Done tt s.
Proof. by intros ->. Qed.

(** What a registered device offers. *)
Lemma reg_ops s p : dev_inv s -> registered s p -> exists v o,
  vdev_at p s = Some v /\ ops_of p s = Some o /\ keeps_promise dev_inv descr_of probe_ok p o s.
Proof. intros Hi (_ & [v Hv] & o & Ho & Ha). exists v, o. split_and!; try done. by apply promised. Qed.

Lemma describe_run vb l : forall idx off fin (a c tail : list Z) (w : W),
  dev_inv (w_devs w) -> Forall (registered (w_devs w)) l -> laid_out off l (w_devs w) fin ->
  let ds := (fun p => descr_of p (w_devs w)) <$> l in
  0 <= off -> off + Z.of_nat (length (concat ds)) = descr_size vb -> descr_size vb < 2 ^ 32 ->
  0 <= idx -> idx + Z.of_nat (length l) = vdev_cnt vb ->
  Z.of_nat (length a) = 16 + 4 * idx -> Z.of_nat (length a + 4 * length l + length c) = off ->
  describe l idx vb (a ++ replicate (4 * length l) 0 ++ c ++ replicate (length (concat ds)) 0 ++ tail) w =
    Done (a ++ words (offsets off ds) ++ c ++ concat ds ++ tail) w.
Proof.
  induction l as [|p l IH]; intros idx off fin a c tail w Hi Hr Hlay ds Hoff Hsz Hmax Hidx Hcnt Ha Hc.
  { done. }
  apply Forall_cons in Hr as [Hp Hr]. destruct Hlay as [Hv Hlay].
  destruct (reg_ops _ p Hi Hp) as (v & o & Hat & Ho & Hk). rewrite Hat in Hv. injection Hv as Hv.
  destruct (p_size _ _ _ _ _ _ Hk) as (fs & Hfs & Hsize), (p_descr _ _ _ _ _ _ Hk) as (fd & Hfd & Hdescr).
  unfold ds in *. cbn [fmap list_fmap concat describe length] in *.
  set (d := descr_of p (w_devs w)) in *. set (rest := (fun p => descr_of p (w_devs w)) <$> l) in *.
  rewrite length_app in *. rewrite !Nat2Z.inj_add in *.
  rewrite (bind_done _ _ _ _ _ (get_vdev_run p v w Hat)), Hv.
  rewrite (bind_done _ _ _ tt w) by (apply assert_done, Z.leb_le; lia).
  rewrite (bind_done _ _ _ _ _ (get_ops_run p o w Ho)), Hfs, (bind_done _ _ _ _ _ (deref_done fs w)).
  rewrite (bind_done _ _ _ _ _ (on_devs_same (fs p) _ w Hsize)). fold d.
  rewrite (bind_done _ _ _ tt w).
  2:{ apply assert_done, Z.leb_le. unfold u64. rewrite uwrap_small by lia. lia. }
  rewrite (bind_done _ _ _ tt w) by (apply assert_done, Z.ltb_lt; lia).
  replace (4 * Datatypes.S (length l))%nat with (4 + 4 * length l)%nat by lia.
  rewrite (replicate_add 4), <- app_assoc.
  rewrite (bind_done _ _ _ _ _ (store_at a (replicate 4 0) _ (TipcDev.bytes32 off) (sizeof_resource_table + 4 * idx) w ltac:(unfold sizeof_resource_table; lia) eq_refl)).
  rewrite Hfd, (bind_done _ _ _ _ _ (deref_done fd w)), (bind_done _ _ _ _ _ (on_devs_same (fd p) _ w Hdescr)). cbn [fst]. fold d.
  rewrite (replicate_add (length d)), <- (app_assoc (replicate (length d) 0)).
  set (tail' := replicate (length (concat rest)) 0 ++ tail).
  assert (Hst : store off d (a ++ TipcDev.bytes32 off ++ replicate (4 * length l) 0 ++ c ++ replicate (length d) 0 ++ tail') w =
    Done (a ++ TipcDev.bytes32 off ++ replicate (4 * length l) 0 ++ c ++ d ++ tail') w).
  { pose proof (store_at (a ++ TipcDev.bytes32 off ++ replicate (4 * length l) 0 ++ c) (replicate (length d) 0) tail' d off w) as Hst.
    rewrite <- !app_assoc in Hst. apply Hst; [|apply length_replicate].
    rewrite !length_app, length_replicate. unfold TipcDev.bytes32. simpl length. lia. }
  rewrite (bind_done _ _ _ _ _ Hst). unfold tail'.
  unfold descr_len in Hlay. fold d in Hlay. unfold u32 in Hlay. rewrite uwrap_small in Hlay by lia.
  specialize (IH (idx + 1) (off + Z.of_nat (length d)) fin (a ++ TipcDev.bytes32 off) (c ++ d) tail w Hi Hr Hlay).
  fold rest in IH. rewrite <- !app_assoc in IH. rewrite <- !app_assoc.
  rewrite IH; try lia.
  - unfold words. cbn [offsets fmap list_fmap concat]. by rewrite <- !app_assoc.
  - rewrite length_app. unfold TipcDev.bytes32. simpl length. lia.
  - rewrite !length_app. unfold TipcDev.bytes32. simpl length. lia.
Qed.

(** ** The layout *)

(** Only the offsets of the devices of [l] differ. *)
Record moved (l : list Z) (s s' : S) : Prop := {
  mv_inv : dev_inv s';
  mv_ops : forall p, ops_of p s' = ops_of p s;
  mv_len : forall p, length (descr_of p s') = length (descr_of p s);
  mv_id : forall p, devid <$> vdev_at p s' = devid <$> vdev_at p s;
  mv_other : forall p, p ∉ l -> vdev_at p s' = vdev_at p s;
  mv_regions : regions_of s' = regions_of s
}.

Lemma moved_registered l s s' p : moved l s s' -> registered s p -> registered s' p.
Proof.
  intros Hm (Hp & Hv & Ho). split; [done|]. rewrite (mv_ops _ _ _ Hm). split; [|done].
  rewrite <- (fmap_is_Some devid) in Hv |- *. by rewrite (mv_id _ _ _ Hm).
Qed.

Lemma moved_same_at l s s' p : moved l s s' -> p ∉ l -> same_at p s s'.
Proof. intros Hm Hp. split_and!; [by apply (mv_other _ _ _ Hm)|by apply (mv_ops _ _ _ Hm)|by apply (mv_len _ _ _ Hm)]. Qed.

Lemma moved_set p x v s : dev_inv s -> vdev_at p s = Some v -> moved [p] s (set_vdev p (Vdev (devid v) x) s).
Proof.
  intros Hi Hv. split.
  - by apply inv_set.
  - intros q. apply ops_set.
  - intros q. apply descr_set.
  - intros q. destruct (decide (p = q)) as [<-|]; [by rewrite (vdev_set_same p _ v), Hv|by rewrite vdev_set_other].
  - intros q Hq. apply vdev_set_other. intros ->. by apply Hq, list_elem_of_here.
  - apply regions_vdev.
Qed.

Lemma moved_trans l1 l2 a b c : moved l1 a b -> moved l2 b c -> moved (l1 ++ l2) a c.
Proof.
  intros [] []. split; intros; try congruence. rewrite not_elem_of_app in *. destruct_and!. rewrite mv_other1; auto.
Qed.

Lemma layout_run l : forall off c s sent (Q : Z -> W -> Prop), NoDup l -> dev_inv s -> Forall (registered s) l ->
  (forall fin s', moved l s s' -> laid_out off l s' fin -> Q fin (World c s' sent)) -> runs (layout l off) (World c s sent) Q.
Proof.
  induction l as [|p l IH]; intros off c s sent Q Hnd Hi Hr HQ.
  { apply HQ; [|done]. by split. }
  apply NoDup_cons in Hnd as [Hp Hnd]. apply Forall_cons in Hr as [Hreg Hr].
  destruct (reg_ops s p Hi Hreg) as (v & o & Hv & Ho & _). pose proof (moved_set p off v s Hi Hv) as Hm.
  set (s1 := set_vdev p (Vdev (devid v) off) s) in *.
  destruct (reg_ops s1 p (mv_inv _ _ _ Hm) (moved_registered _ _ _ _ Hm Hreg)) as (v1 & o1 & Hv1 & Ho1 & Hk).
  destruct (p_size _ _ _ _ _ _ Hk) as (f & Hf & Hn). cbn [layout].
  unfold runs. rewrite (bind_done _ _ _ _ _ (get_vdev_run p v (World c s sent) Hv)).
  rewrite (bind_done _ _ _ tt (World c s1 sent)) by done.
  rewrite (bind_done _ _ _ _ _ (get_ops_run p o1 (World c s1 sent) Ho1)), Hf, (bind_done _ _ _ _ _ (deref_done f _)).
  rewrite (bind_done _ _ _ _ _ (on_devs_same (f p) _ (World c s1 sent) Hn)).
  apply (IH (u32 (off + descr_len p s1)) c s1 sent Q Hnd (mv_inv _ _ _ Hm)).
  - eapply Forall_impl; [exact Hr|]. intros q. by apply (moved_registered [p]).
  - intros fin s' Hm' Hl. apply HQ; [by apply (moved_trans [p] l s s1 s')|]. simpl. split.
    + rewrite (mv_other _ _ _ Hm' p Hp). unfold s1. by rewrite (vdev_set_same p _ v s Hv).
    + unfold descr_len. by rewrite (mv_len _ _ _ Hm').
Qed.

(** ** The mapping *)

Definition granted (pa sz fl g : Z) (s : S) : bool :=
  let rsz := ROUNDUP (u32 sz) PAGE_SIZE in
  negb (pa =? 0) && (Z.land pa (PAGE_SIZE - 1) =? 0) && (Vqueue.trusty_hyp_check_guest_pa_valid pa rsz g =? NO_ERROR) &&
  match Vqueue.vmm_alloc_physical (regions_of s) pa rsz fl with inl _ => false | inr _ => true end.

Lemma map_run pa sz fl g (w : W) : exists r va, map_descr pa sz fl g w =
    Done (r, va) (if granted pa sz fl g (w_devs w) then World (w_ctx w)
      (set_regions (<[va := (pa, ROUNDUP (u32 sz) PAGE_SIZE, fl)]> (regions_of (w_devs w))) (w_devs w)) (w_sent w) else w) /\
  (r =? NO_ERROR) = granted pa sz fl g (w_devs w) /\ (r = NO_ERROR -> regions_of (w_devs w) !! va = None).
Proof.
  unfold map_descr, granted. destruct (pa =? 0); [by exists ERR_INVALID_ARGS, 0|].
  destruct (Z.land pa (PAGE_SIZE - 1) =? 0); [|by exists ERR_INVALID_ARGS, 0]. cbv zeta. set (rsz := ROUNDUP _ _).
  destruct (Vqueue.trusty_hyp_check_guest_pa_valid pa rsz g =? NO_ERROR) eqn:E; cbn [negb andb].
  - unfold bind, gets. destruct (Vqueue.vmm_alloc_physical _ pa rsz fl) as [e|va] eqn:Ev.
    + pose proof (Vqueue.vmm_alloc_err _ _ _ _ _ Ev). exists e, 0. split; [done|]. split; [by apply Z.eqb_neq|done].
    + exists NO_ERROR, va. split; [by destruct w|]. split; [done|]. intros _. by eapply Vqueue.vmm_alloc_fresh.
  - eexists _, 0. split; [done|]. split; [exact E|]. intros Hr. by rewrite Hr in E.
Qed.

(** The page-wise window that is mapped for [sz] bytes. *)
Definition window_of (ns : Z -> Z) (sz : Z) : list Z :=
  (fun i => ns (Z.of_nat i)) <$> seq 0 (Z.to_nat (ROUNDUP (u32 sz) PAGE_SIZE)).

Lemma window_run ns va pa sz fl s c sent : regions_of s !! va = Some (pa, ROUNDUP (u32 sz) PAGE_SIZE, fl) ->
  window ns va (World c s sent) = Done (window_of ns sz) (World c s sent).
Proof. intros Hr. unfold window, bind, get, mapped. simpl. by rewrite Hr. Qed.

Lemma window_len ns sz : 0 <= sz < 2 ^ 32 -> sz <= Z.of_nat (length (window_of ns sz)).
Proof.
  intros Hsz. unfold window_of. rewrite length_fmap, length_seq. unfold u32. rewrite uwrap_small by done.
  pose proof (TipcWin.roundup_ge sz Hsz). lia.
Qed.
End Runs.
End VirtioDescr.
