(* ===== verification/VirtioCalls.v ===== *)
(** * The calls of the virtio bus

    The abstract states of a bus, and that every call on a bus is one of the
    steps between them. *)

From S2P Require Import Prelude SmCall Vqueue TipcDev VirtioBus VirtioBusInv VirtioDescr.

Module VirtioCalls.
Import VirtioBus VirtioBusInv VirtioDescr.

Section Calls.
Context {S : Type} `{VdevsOk S} `{Vqueue.Platform}.
Notation W := (world S).

Lemma set_bus_id g b c : 0 <= g -> bus_at g c = Some b -> set_bus g b c = c.
Proof.
  unfold bus_at, set_bus. destruct c as [n b0 [l|]]; destruct (0 <? g); simpl; intros Hg Hb; try done; [|congruence..].
  by rewrite list_insert_id.
Qed.

Lemma set_bus_twice g b b' c : set_bus g b' (set_bus g b c) = set_bus g b' c.
Proof.
  unfold set_bus. destruct c as [n b0 [l|]]; destruct (0 <? g); simpl; try done. by rewrite list_insert_insert_eq.
Qed.

Lemma get_bus_run g b (w : W) : bus_at g (w_ctx w) = Some b -> get_bus g w = Done b w.
Proof. intros Hb. unfold get_bus, bind, get. by rewrite Hb. Qed.

Lemma put_bus_run g b (w : W) : put_bus g b w = Done tt (World (set_bus g b (w_ctx w)) (w_devs w) (w_sent w)).
Proof. done. Qed.

(** The part of the check on the guest that every call starts with. *)
Lemma guest_check {A} g (w : W) (e : A) (k : M W A) (Q : A -> W -> Prop) :
  (guest_ok g (w_ctx w) = true -> runs k w Q) -> (guest_ok g (w_ctx w) = false -> Q e w) ->
  runs (r <- get_guest_virtio_bus g ;; if negb (r =? 0) then ret e else k) w Q.
Proof.
  intros Hk He. destruct (guest_run g w) as (r & Hr & Hz). unfold runs. rewrite (bind_done _ _ _ _ _ Hr), Hz.
  destruct (guest_ok g (w_ctx w)); [by apply Hk|by apply He].
Qed.

(** ** The layout is fixed once *)

Definition final_bus (b : trusty_virtio_bus) (fin : Z) : trusty_virtio_bus :=
  if state b =? VIRTIO_BUS_STATE_UNINITIALIZED then set_state VIRTIO_BUS_STATE_IDLE (set_descr_size fin b) else b.

Lemma final_list b fin : vdev_list (final_bus b fin) = vdev_list b.
Proof. unfold final_bus. by destruct (_ =? _). Qed.

Lemma final_cnt b fin : vdev_cnt (final_bus b fin) = vdev_cnt b.
Proof. unfold final_bus. by destruct (_ =? _). Qed.

Lemma final_state b fin : state (final_bus b fin) <> VIRTIO_BUS_STATE_UNINITIALIZED.
Proof. unfold final_bus. destruct (_ =? _) eqn:E; zbool; done. Qed.

Lemma bus_ok_final s s' b fin : bus_ok s b -> moved (vdev_list b) s s' ->
  laid_out (table_start (length (vdev_list b))) (vdev_list b) s' fin -> bus_ok s' (set_state VIRTIO_BUS_STATE_IDLE (set_descr_size fin b)).
Proof.
  intros [] Hm Hl. split; simpl; try done.
  - eapply Forall_impl; [eassumption|]. intros p. by apply (moved_registered (vdev_list b)).
  - apply (ids_same s); [|done]. intros p _. apply (mv_id _ _ _ Hm).
Qed.

Lemma bus_finalize_run w g b (Q : Z -> W -> Prop) : buses_ok w -> 0 <= g -> guest_ok g (w_ctx w) = true ->
  bus_at g (w_ctx w) = Some b ->
  (forall s' fin, let w' := World (set_bus g (final_bus b fin) (w_ctx w)) s' (w_sent w) in
     buses_ok w' -> moved (vdev_list b) (w_devs w) s' -> Q NO_ERROR w') ->
  runs (finalize_vdev_registery g) w Q.
Proof.
  intros Hw Hg Hk Hb HQ. unfold finalize_vdev_registery. apply guest_check; [|congruence]. intros _.
  pose proof (w_bus _ Hw g b Hg Hb) as Hok. unfold runs. rewrite (bind_done _ _ _ _ _ (get_bus_run g b w Hb)).
  destruct (state b =? VIRTIO_BUS_STATE_UNINITIALIZED) eqn:E.
  - apply runs_bind. destruct w as [c s sent]. simpl in *.
    apply (layout_run (vdev_list b) _ c s sent); [apply Hok|apply Hw|apply Hok|]. intros fin s' Hm Hl.
    pose proof (HQ s' fin) as HQ'. unfold final_bus in HQ'. rewrite E in HQ'. apply HQ'; [|done].
    eapply (buses_step (World c s sent) _ s' sent g b (set_state VIRTIO_BUS_STATE_IDLE (set_descr_size fin b))); try done; [by right|by destruct Hm| |].
    + apply (bus_ok_final s); [done..|]. by rewrite (ok_cnt _ _ Hok) in Hl.
    + intros g' b0 Hg' Hne Hb0. apply (bus_ok_near s); [|by apply (w_bus _ Hw g')]. intros p Hp.
      apply (moved_same_at _ _ _ _ Hm). intros Hp'. apply Hne. exact (w_apart _ Hw g' g b0 b p Hg' Hg Hb0 Hb Hp Hp').
  - pose proof (HQ (w_devs w) 0) as HQ'. unfold final_bus in HQ'. rewrite E, set_bus_id in HQ' by done.
    destruct w as [c s sent]. simpl in *. apply HQ'; [done|]. split; auto. apply Hw.
Qed.

(** The sizes of a table that fits into 32 bits add up. *)
Lemma laid_fin s l : forall off fin, laid_out off l s fin -> 0 <= off ->
  off + Z.of_nat (length (concat ((fun p => descr_of p s) <$> l))) < 2 ^ 32 ->
  fin = off + Z.of_nat (length (concat ((fun p => descr_of p s) <$> l))).
Proof.
  induction l as [|p l IH]; intros off fin Hl Hoff Hmax; [simpl in *; lia|]. destruct Hl as [_ Hl].
  rewrite fmap_cons in *. cbn [concat] in *. rewrite length_app in *. unfold descr_len, u32 in Hl. rewrite uwrap_small in Hl by lia.
  rewrite (IH _ _ Hl); lia.
Qed.

(** ** The description *)

Definition descrs (l : list Z) (s : S) : list (list Z) := (fun p => descr_of p s) <$> l.

Lemma descrs_len l s s' : (forall p, length (descr_of p s') = length (descr_of p s)) ->
  table_len (descrs l s') = table_len (descrs l s).
Proof.
  intros Hl. unfold table_len, descrs. rewrite !length_fmap. f_equal. f_equal.
  induction l as [|p l IH]; [done|]. rewrite !fmap_cons. cbn [concat]. rewrite !length_app, Hl. lia.
Qed.

(** The other side gets the table, and its buffer is unmapped again. *)
Definition described (ns : Z -> Z) (pa : Z) (l : list Z) (w w' : W) : Prop :=
  let ds := descrs l (w_devs w') in
  w_sent w' = w_sent w ++ [(pa, resource_table ds ++ drop (Z.to_nat (table_len ds)) (window_of ns (table_len ds)))].

Lemma table_len_eq ds : Z.of_nat (length (resource_table ds)) = table_len ds.
Proof.
  unfold resource_table, table_len. rewrite !length_app, words_len, length_offsets.
  change (length (header (Z.of_nat (length ds)))) with 16%nat. lia.
Qed.

(** The loop on the prepared buffer. *)
Lemma table_run vb (win : list Z) (w : W) : buses_ok w ->
  Forall (registered (w_devs w)) (vdev_list vb) ->
  laid_out (table_start (length (vdev_list vb))) (vdev_list vb) (w_devs w) (descr_size vb) ->
  vdev_cnt vb = u32 (Z.of_nat (length (vdev_list vb))) ->
  let ds := descrs (vdev_list vb) (w_devs w) in
  table_len ds < 2 ^ 32 -> table_len ds <= Z.of_nat (length win) -> forall (k : list Z -> M W Z) (Q : Z -> W -> Prop),
  descr_size vb = table_len ds ->
  runs (k (resource_table ds ++ drop (Z.to_nat (table_len ds)) win)) w Q ->
  runs (buf <- store 0 (replicate (Z.to_nat (descr_size vb)) 0) win ;;
        buf <- store 0 (TipcDev.bytes32 VIRTIO_FW_RSC_VER) buf ;;
        buf <- store 4 (TipcDev.bytes32 (vdev_cnt vb)) buf ;;
        buf <- describe (vdev_list vb) 0 vb buf ;; k buf) w Q.
Proof.
  intros Hw Hr Hl Hcnt ds Hmax Hwin cont Q Hsz HQ. unfold runs.
  assert (Hn : length ds = length (vdev_list vb)) by apply length_fmap.
  assert (Hpos : 0 <= table_len ds) by (unfold table_len; lia).
  assert (Hcnt' : vdev_cnt vb = Z.of_nat (length ds)).
  { rewrite Hcnt, Hn. unfold u32. apply uwrap_small. unfold table_len in Hmax. lia. }
  assert (Hstart : table_start (length (vdev_list vb)) = 16 + 4 * Z.of_nat (length ds)).
  { unfold table_start, u32, sizeof_resource_table. rewrite <- Hn.
    rewrite (uwrap_small 32 (Z.of_nat _)) by (unfold table_len in Hmax; lia). apply uwrap_small. unfold table_len in Hmax. lia. }
  set (k := Z.to_nat (table_len ds)) in *. set (tl := drop k win).
  pose proof (store_at [] (take k win) tl (replicate k 0) 0 w eq_refl) as Hst.
  rewrite length_take, length_replicate, Nat.min_l in Hst by lia. specialize (Hst eq_refl).
  simpl app in Hst. unfold tl at 1 in Hst. rewrite take_drop in Hst.
  rewrite Hsz. fold k. rewrite (bind_done _ _ _ _ _ Hst). clear Hst.
  replace k with (4 + (4 + (8 + (4 * length (vdev_list vb) + length (concat ds)))))%nat
    by (unfold k, table_len; rewrite Hn; lia).
  rewrite !replicate_add, <- !app_assoc.
  set (c1 := replicate 4 0 ++ replicate 8 0 ++ _).
  pose proof (store_at [] (replicate 4 0) c1 (TipcDev.bytes32 VIRTIO_FW_RSC_VER) 0 w eq_refl eq_refl) as Hst.
  rewrite !app_nil_l in Hst. rewrite (bind_done _ _ _ _ _ Hst). clear Hst. unfold c1. clear c1.
  rewrite (bind_done _ _ _ _ _ (store_at (TipcDev.bytes32 VIRTIO_FW_RSC_VER) (replicate 4 0) _ (TipcDev.bytes32 (vdev_cnt vb)) 4 w eq_refl eq_refl)).
  pose proof (describe_run vb (vdev_list vb) 0 (16 + 4 * Z.of_nat (length ds)) (descr_size vb) (header (vdev_cnt vb)) [] tl w
    (w_inv _ Hw) Hr) as Hd. rewrite <- Hstart in Hd at 1. specialize (Hd Hl). fold (descrs (vdev_list vb) (w_devs w)) in Hd. fold ds in Hd.
  unfold header in Hd. rewrite <- !app_assoc in Hd. rewrite app_nil_l in Hd. cbv zeta in Hd.
  unshelve erewrite (bind_done _ _ _ _ _ (Hd _ _ _ _ _ _ _)); [rewrite ?Hsz; unfold table_len in *; try lia..|].
  3:{ unfold resource_table, header in HQ. rewrite <- !app_assoc in HQ. rewrite Hcnt'. exact HQ. }
  - change (Z.of_nat 16 = 16 + 4 * 0). lia.
  - rewrite <- Hn. simpl length. lia.
Qed.

Lemma moved_refl l s : dev_inv s -> moved l s s.
Proof. by split. Qed.

(** What a request for the description does, the layout being fixed. *)
Definition describes (ns : Z -> Z) (pa sz fl g : Z) (l : list Z) (w : W) (r : Z) (w' : W) : Prop :=
  let size := table_len (descrs l (w_devs w')) in
  if sz <? size then r = ERR_NOT_ENOUGH_BUFFER /\ w_sent w' = w_sent w
  else if granted pa size fl g (w_devs w') then r = size /\ described ns pa l w w'
  else r <> NO_ERROR /\ w_sent w' = w_sent w.

Lemma buses_regions w r sent : buses_ok w -> buses_ok (World (w_ctx w) (set_regions r (w_devs w)) sent).
Proof.
  intros Hw. apply buses_same; [done|by apply inv_regions, Hw|]. intros p.
  rewrite vdev_regions, ops_regions, descr_regions. done.
Qed.

Lemma descrs_regions l r s : descrs l (set_regions r s) = descrs l s.
Proof. unfold descrs. apply list_fmap_ext. intros i p _. apply descr_regions. Qed.

Lemma description_run ns w g b pa sz fl (Q : Z -> W -> Prop) : buses_ok w -> 0 <= g -> guest_ok g (w_ctx w) = true ->
  bus_at g (w_ctx w) = Some b -> table_len (descrs (vdev_list b) (w_devs w)) < 2 ^ 32 ->
  (forall r w' fin, buses_ok w' -> w_ctx w' = set_bus g (final_bus b fin) (w_ctx w) ->
     regions_of (w_devs w') = regions_of (w_devs w) -> table_len (descrs (vdev_list b) (w_devs w')) < 2 ^ 32 ->
     describes ns pa sz fl g (vdev_list b) w r w' -> Q r w') ->
  runs (virtio_get_description ns pa sz fl g) w Q.
Proof.
  intros Hw Hg Hk Hb Hmax HQ. unfold virtio_get_description. apply guest_check; [|congruence]. intros _.
  apply runs_bind. apply (bus_finalize_run w g b); [done..|]. intros s1 fin w1 Hw1 Hm. cbv beta. rewrite Z.eqb_refl. cbn [negb].
  assert (Hb1 : bus_at g (w_ctx w1) = Some (final_bus b fin)) by (simpl; apply bus_set_same; [done|by rewrite Hb]).
  set (vb := final_bus b fin) in *. pose proof (w_bus _ Hw1 g vb Hg Hb1) as Hvb.
  assert (Hlist : vdev_list vb = vdev_list b) by apply final_list.
  set (ds := descrs (vdev_list b) s1).
  assert (Hlen : table_len ds < 2 ^ 32) by (unfold ds; rewrite (descrs_len _ (w_devs w) s1); [done|apply Hm]).
  assert (Hsize : descr_size vb = table_len ds).
  { pose proof (ok_laid _ _ Hvb (final_state b fin)) as Hl. rewrite Hlist in Hl.
    assert (Hst : table_start (length (vdev_list b)) = 16 + 4 * Z.of_nat (length (vdev_list b))).
    { unfold table_start, u32, sizeof_resource_table. unfold table_len, ds, descrs in Hlen. rewrite length_fmap in Hlen.
      rewrite (uwrap_small 32 (Z.of_nat _)) by lia. apply uwrap_small. lia. }
    rewrite Hst in Hl. unfold table_len, ds, descrs in *. rewrite length_fmap in *. apply laid_fin in Hl; [done|lia|done]. }
  assert (Hpos : 0 <= table_len ds) by (unfold table_len; lia).
  unfold runs. rewrite (bind_done _ _ _ _ _ (get_bus_run g vb w1 Hb1)).
  destruct (sz <? descr_size vb) eqn:Esz.
  { apply (HQ _ w1 fin); [done|done|apply Hm|exact Hlen|]. unfold describes. simpl. fold ds. rewrite <- Hsize, Esz. done. }
  destruct (map_run pa (descr_size vb) fl g w1) as (r & va & Hmap & Hr & Hfresh). simpl in Hmap, Hr, Hfresh.
  rewrite (bind_done _ _ _ _ _ Hmap). cbn [fst snd]. rewrite Hr.
  destruct (granted pa (descr_size vb) fl g s1) eqn:Eg; cbn [negb].
  2:{ apply (HQ r w1 fin); [done|done|apply Hm|exact Hlen|]. unfold describes. simpl. fold ds. rewrite <- Hsize, Esz, Eg. by apply Z.eqb_neq in Hr. }
  apply Z.eqb_eq in Hr. specialize (Hfresh Hr). set (rs := <[va:=_]> (regions_of s1)).
  set (w2 := World (w_ctx w1) (set_regions rs s1) (w_sent w1)).
  assert (Hw2 : buses_ok w2) by (by apply (buses_regions w1)).
  assert (Hds2 : descrs (vdev_list b) (w_devs w2) = ds) by apply descrs_regions.
  assert (Hat : regions_of (w_devs w2) !! va = Some (pa, ROUNDUP (u32 (descr_size vb)) PAGE_SIZE, fl)).
  { simpl. rewrite regions_set. apply lookup_insert_eq. }
  rewrite (bind_done _ _ _ _ _ (window_run ns va pa (descr_size vb) fl (w_devs w2) (w_ctx w2) (w_sent w2) Hat)).
  set (win := window_of ns (descr_size vb)).
  pose proof (w_bus _ Hw2 g vb Hg Hb1) as Hvb2.
  pose proof (table_run vb win w2 Hw2 (ok_reg _ _ Hvb2) (ok_laid _ _ Hvb2 (final_state b fin)) (ok_cnt _ _ Hvb2)) as Ht.
  cbv zeta in Ht. rewrite Hlist, Hds2 in Ht.
  rewrite Hlist. apply (Ht Hlen ltac:(unfold win; rewrite <- Hsize; apply window_len; lia)); [done|].
  apply HQ with (fin := fin).
  - by apply (buses_regions w2).
  - done.
  - simpl. rewrite !regions_set. unfold rs. rewrite delete_insert_id by done. apply Hm.
  - simpl. by rewrite !descrs_regions.
  - unfold describes. simpl. rewrite !descrs_regions. fold ds. rewrite <- Hsize, Esz.
    assert (Heq : delete va rs = regions_of s1) by (unfold rs; by rewrite delete_insert_id).
    unfold granted in *. rewrite !regions_set, Heq, Eg. split; [done|]. unfold described. simpl.
    rewrite !descrs_regions. fold ds. by rewrite <- Hsize.
Qed.

(** ** Steps on the devices *)

Lemma reg_state s s' p : same_at p s s' -> registered s p -> registered s' p.
Proof. intros (Hv & Ho & _) (? & ? & ?). unfold registered. by rewrite Hv, Ho. Qed.

(** Devices that stay where they are, with the buses untouched. *)
Definition devs_step (w w' : W) : Prop :=
  w_ctx w' = w_ctx w /\ w_sent w' = w_sent w /\ dev_inv (w_devs w') /\ same_vdevs descr_of (w_devs w) (w_devs w').

Lemma devs_step_refl w : dev_inv (w_devs w) -> devs_step w w.
Proof. intros Hi. split_and!; try done. Qed.

Lemma devs_step_trans a b c : devs_step a b -> devs_step b c -> devs_step a c.
Proof. intros (?&?&?&?) (?&?&?&?). split_and!; try congruence. by eapply same_trans. Qed.

Lemma devs_step_reg w w' l : devs_step w w' -> Forall (registered (w_devs w)) l -> Forall (registered (w_devs w')) l.
Proof. intros (_ & _ & _ & Hs) Hr. eapply Forall_impl; [exact Hr|]. intros p. apply reg_state, Hs. Qed.

Lemma devs_step_ok w w' : buses_ok w -> devs_step w w' -> buses_ok w'.
Proof. intros Hw (Hc & _ & Hi & Hs). destruct w' as [c s sent]. simpl in *. subst c. by apply buses_same. Qed.

Lemma on_devs_step {A} (m : M S A) (w : W) (Q : A -> W -> Prop) :
  runs m (w_devs w) (fun _ s' => dev_inv s' /\ same_vdevs descr_of (w_devs w) s') ->
  (forall a w', devs_step w w' -> Q a w') -> runs (on_devs m) w Q.
Proof.
  unfold runs, on_devs. destruct (m (w_devs w)) as [a s'|e]; [|done]. intros [Hi Hs] HQ. apply HQ. by split_and!.
Qed.

Lemma reset_all_run l : forall (w : W) (Q : unit -> W -> Prop), dev_inv (w_devs w) -> Forall (registered (w_devs w)) l ->
  (forall w', devs_step w w' -> Q tt w') -> runs (reset_all l) w Q.
Proof.
  induction l as [|p l IH]; intros w Q Hi Hr HQ; [apply HQ, devs_step_refl, Hi|].
  apply Forall_cons in Hr as [Hp Hr]. destruct (reg_ops _ p Hi Hp) as (v & o & _ & Ho & Hk).
  destruct (p_reset _ _ _ _ _ _ Hk) as (f & Hf & Hrun). cbn [reset_all]. unfold runs.
  rewrite (bind_done _ _ _ _ _ (get_ops_run p o w Ho)), Hf, (bind_done _ _ _ _ _ (deref_done f w)).
  apply runs_bind. apply on_devs_step; [exact Hrun|]. intros a w1 H1'. apply IH; [apply H1'|by apply (devs_step_reg w)|].
  intros w2 H2'. apply HQ. by eapply devs_step_trans.
Qed.

(** Every device of [l] gets a descriptor that it can rely on. *)
Definition probes_ok (l : list Z) (d : list Z) (s : S) : Prop :=
  forall p v, p ∈ l -> vdev_at p s = Some v -> probe_ok (drop (Z.to_nat (descr_offset v)) d).

Lemma probe_all_safe l d : forall (w : W) (Q : option unit -> W -> Prop), dev_inv (w_devs w) ->
  Forall (registered (w_devs w)) l -> probes_ok l d (w_devs w) -> (forall w', w_ctx w' = w_ctx w -> Q None w') ->
  (forall w', devs_step w w' -> Q (Some tt) w') -> safely (probe_all l d) w Q.
Proof.
  induction l as [|p l IH]; intros w Q Hi Hr Hpo Hnone HQ; [apply HQ, devs_step_refl, Hi|].
  apply Forall_cons in Hr as [Hp Hr]. destruct (reg_ops _ p Hi Hp) as (v & o & Hv & Ho & Hk).
  destruct (p_probe _ _ _ _ _ _ Hk) as (f & Hf & Hrun). specialize (Hrun _ (Hpo p v (list_elem_of_here _ _) Hv)).
  cbn [probe_all]. unfold safely. rewrite (bind_done _ _ _ _ _ (get_vdev_run p v w Hv)).
  rewrite (bind_done _ _ _ _ _ (get_ops_run p o w Ho)), Hf, (bind_done _ _ _ _ _ (deref_done f w)).
  unfold tbind, bind, on_devs. unfold tsafely, safely in Hrun.
  destruct (f p _ (w_devs w)) as [[r|] s1|e] eqn:E; [|by apply Hnone|done].
  destruct Hrun as [Hi1 Hs1]. set (w1 := World (w_ctx w) s1 (w_sent w)).
  assert (Hst : devs_step w w1) by done.
  apply (IH w1 Q); [done|by apply (devs_step_reg w)| |done|].
  { intros q x Hq Hx. destruct (Hs1 q) as (E1 & _). apply (Hpo q x); [by right|by rewrite <- E1]. }
  intros w2 H2'. apply HQ. by eapply devs_step_trans.
Qed.

Lemma find_run id : forall l (w : W), Forall (registered (w_devs w)) l ->
  exists x, find_vdev l id w = Done x w /\ match x with None => True | Some p => p ∈ l end.
Proof.
  induction l as [|p l IH]; intros w Hr; [by exists None|]. apply Forall_cons in Hr as [(Hp & [v Hv] & _) Hr].
  cbn [find_vdev]. rewrite (bind_done _ _ _ _ _ (get_vdev_run p v w Hv)).
  destruct (devid v =? id); [exists (Some p); split; [done|left]|].
  destruct (IH w Hr) as (x & Hx & Hin). exists x. split; [done|]. destruct x; [by right|done].
Qed.
End Calls.
End VirtioCalls.
