(* ===== verification/VirtioStates.v ===== *)
(** * The states of a virtio bus

    What a bus promises to the non-secure world: four states, and for every
    call the states between which it moves and the codes that it answers. *)

From S2P Require Import Prelude SmCall Vqueue TipcDev VirtioBus VirtioBusInv VirtioDescr VirtioCalls.

Module VirtioStates.
Import VirtioBus VirtioBusInv VirtioDescr VirtioCalls.

(** ** The specification *)

Inductive mode := Fresh | Idle | Busy | Active.

#[export] Instance mode_eq_dec : EqDecision mode.
Proof. solve_decision. Defined.

Inductive request := Describe | Start | Stop | Device.

(** The answer [None]: the call waits. *)
Inductive bus_step : mode -> request -> option Z -> mode -> Prop :=
| describe_fresh r : bus_step Fresh Describe (Some r) Idle
| describe_again m r : m <> Fresh -> bus_step m Describe (Some r) m
| start_waits : bus_step Idle Start None Busy
| start_done : bus_step Idle Start (Some NO_ERROR) Active
| start_failed r : r <> NO_ERROR -> bus_step Idle Start (Some r) Idle
| start_refused m : m <> Idle -> bus_step m Start (Some ERR_BAD_STATE) m
| stop_done : bus_step Active Stop (Some NO_ERROR) Idle
| stop_refused m : m <> Active -> bus_step m Stop (Some ERR_BAD_STATE) m
| device_called r : bus_step Active Device (Some r) Active
| device_refused m : m <> Active -> bus_step m Device (Some ERR_BAD_STATE) m.

Definition mode_of (b : trusty_virtio_bus) : mode :=
  if state b =? VIRTIO_BUS_STATE_UNINITIALIZED then Fresh
  else if state b =? VIRTIO_BUS_STATE_IDLE then Idle
  else if state b =? VIRTIO_BUS_STATE_ACTIVE then Active
  else Busy.

(** ** The calls of a guest *)

Inductive bus_call :=
| GetDescription (ns : Z -> Z) (pa sz fl : Z)
| VirtioStart (ns : Z -> Z) (mem : bool) (pa sz fl : Z)
| VirtioStop (pa sz fl : Z)
| DeviceReset (id : Z)
| KickVq (id vqid : Z).

Definition request_of (c : bus_call) : request :=
  match c with GetDescription _ _ _ _ => Describe | VirtioStart _ _ _ _ _ => Start | VirtioStop _ _ _ => Stop | _ => Device end.

Section Refine.
Context {S : Type} `{VdevsOk S} `{Vqueue.Platform}.
Notation W := (world S).

Definition exec (g : Z) (c : bus_call) : M W (option Z) :=
  match c with
  | GetDescription ns pa sz fl => tlift (virtio_get_description ns pa sz fl g)
  | VirtioStart ns mem pa sz fl => virtio_start ns mem pa sz fl g
  | VirtioStop pa sz fl => tlift (virtio_stop pa sz fl g)
  | DeviceReset id => tlift (virtio_device_reset id g)
  | KickVq id vqid => tlift (virtio_kick_vq id vqid g)
  end.

(** What a call of guest [g] does to its bus [b]: a step, the same devices,
    and nothing to the buses of the others. *)
Definition bus_moves (g : Z) (b : trusty_virtio_bus) (c : bus_call) (w : W) (o : option Z) (w' : W) : Prop :=
  exists b', w_ctx w' = set_bus g b' (w_ctx w) /\ vdev_list b' = vdev_list b /\
    bus_step (mode_of b) (request_of c) o (mode_of b').

Lemma moves_same g b c (w : W) o w' : 0 <= g -> bus_at g (w_ctx w) = Some b -> w_ctx w' = w_ctx w ->
  bus_step (mode_of b) (request_of c) o (mode_of b) -> bus_moves g b c w o w'.
Proof. intros Hg Hb Hc Hs. exists b. rewrite Hc, set_bus_id by done. done. Qed.

Lemma mode_test b : mode_of b = if state b =? VIRTIO_BUS_STATE_IDLE then Idle else if state b =? VIRTIO_BUS_STATE_ACTIVE then Active
  else if state b =? VIRTIO_BUS_STATE_UNINITIALIZED then Fresh else Busy.
Proof.
  unfold mode_of, VIRTIO_BUS_STATE_UNINITIALIZED, VIRTIO_BUS_STATE_IDLE, VIRTIO_BUS_STATE_ACTIVE.
  repeat case_match_eq; zbool; try done; lia.
Qed.

Lemma mode_idle b : state b = VIRTIO_BUS_STATE_IDLE -> mode_of b = Idle.
Proof. intros E. by rewrite mode_test, E. Qed.

Lemma mode_not_idle b : state b <> VIRTIO_BUS_STATE_IDLE -> mode_of b <> Idle.
Proof. intros E. rewrite mode_test, (proj2 (Z.eqb_neq _ _)) by done. by repeat case_match_eq. Qed.

Lemma mode_active b : state b = VIRTIO_BUS_STATE_ACTIVE -> mode_of b = Active.
Proof. intros E. by rewrite mode_test, E. Qed.

Lemma mode_not_active b : state b <> VIRTIO_BUS_STATE_ACTIVE -> mode_of b <> Active.
Proof. intros E. rewrite mode_test, (proj2 (Z.eqb_neq (state b) VIRTIO_BUS_STATE_ACTIVE)) by done. by repeat case_match_eq. Qed.

Lemma mode_final b fin : mode_of (final_bus b fin) = if decide (mode_of b = Fresh) then Idle else mode_of b.
Proof.
  unfold final_bus. destruct (state b =? VIRTIO_BUS_STATE_UNINITIALIZED) eqn:E.
  - rewrite decide_True; [done|]. unfold mode_of. by rewrite E.
  - rewrite decide_False; [done|]. unfold mode_of. rewrite E. by repeat case_match_eq.
Qed.

(** ** The calls *)

(** The table fits into the 32-bit sizes of the bus; the devices can rely on
    the descriptors that come back. *)
Definition fits (g : Z) (c : bus_call) (w : W) : Prop :=
  match c with
  | GetDescription _ _ _ _ => forall b, bus_at g (w_ctx w) = Some b -> table_len (descrs (vdev_list b) (w_devs w)) < 2 ^ 32
  | VirtioStart ns _ _ sz _ => forall b, bus_at g (w_ctx w) = Some b ->
      probes_ok (vdev_list b) (take (Z.to_nat sz) (window_of ns sz)) (w_devs w)
  | _ => True
  end.

Definition called (g : Z) (c : bus_call) (w : W) (o : option Z) (w' : W) : Prop :=
  (o <> None -> buses_ok w') /\
  if guest_ok g (w_ctx w) then exists b, bus_at g (w_ctx w) = Some b /\ bus_moves g b c w o w'
  else o = Some ERR_INVALID_ARGS /\ w' = w.

Lemma called_refused g c w : buses_ok w -> guest_ok g (w_ctx w) = false -> called g c w (Some ERR_INVALID_ARGS) w.
Proof. intros Hw Hk. split; [done|]. by rewrite Hk. Qed.

Lemma called_ok g b c w o w' : guest_ok g (w_ctx w) = true -> bus_at g (w_ctx w) = Some b -> (o <> None -> buses_ok w') ->
  bus_moves g b c w o w' -> called g c w o w'.
Proof. intros Hk Hb Hw Hm. split; [done|]. rewrite Hk. eauto. Qed.

Lemma lift_runs {A} (m : M W A) w (Q : option A -> W -> Prop) : runs m w (fun a w' => Q (Some a) w') -> safely (tlift m) w Q.
Proof. unfold runs, safely, tlift, tret, bind, ret. by destruct (m w). Qed.

Lemma describe_called g ns pa sz fl w : buses_ok w -> 0 <= g -> fits g (GetDescription ns pa sz fl) w ->
  safely (exec g (GetDescription ns pa sz fl)) w (called g (GetDescription ns pa sz fl) w).
Proof.
  intros Hw Hg Hf. apply lift_runs. destruct (guest_ok g (w_ctx w)) eqn:Hk.
  - destruct (w_bound _ Hw g Hg Hk) as [b Hb].
    apply (description_run ns w g b); [done..|by apply Hf|]. intros r w' fin Hw' Hc _ _ _.
    apply (called_ok g b); [done..|]. exists (final_bus b fin). split; [done|]. split; [apply final_list|].
    rewrite mode_final. simpl. destruct (decide (mode_of b = Fresh)) as [->|]; by constructor.
  - unfold virtio_get_description. apply guest_check; [congruence|]. intros _. by apply called_refused.
Qed.

Lemma find_called g b c (k : Z -> M W Z) id w : buses_ok w -> 0 <= g -> guest_ok g (w_ctx w) = true ->
  bus_at g (w_ctx w) = Some b -> request_of c = Device ->
  (forall p, registered (w_devs w) p -> runs (k p) w (fun _ w' => devs_step w w')) ->
  runs (vb <- get_bus g ;;
        if negb (state vb =? VIRTIO_BUS_STATE_ACTIVE) then ret ERR_BAD_STATE
        else x <- find_vdev (vdev_list vb) id ;; match x with None => ret ERR_NOT_FOUND | Some p => k p end) w
    (fun r w' => called g c w (Some r) w').
Proof.
  intros Hw Hg Hk Hb Hc Hrun. unfold runs. rewrite (bind_done _ _ _ _ _ (get_bus_run g b w Hb)).
  assert (Hsame : forall r w', devs_step w w' -> state b = VIRTIO_BUS_STATE_ACTIVE -> called g c w (Some r) w').
  { intros r w' Hd Hs. apply (called_ok g b); [done..|intros _; by eapply devs_step_ok|].
    apply moves_same; [done|done|apply Hd|]. rewrite Hc, mode_active by done. constructor. }
  pose proof (w_bus _ Hw g b Hg Hb) as Hok.
  destruct (state b =? VIRTIO_BUS_STATE_ACTIVE) eqn:E; zbool; cbn [negb].
  - destruct (find_run id (vdev_list b) w (ok_reg _ _ Hok)) as (x & Hx & Hin). rewrite (bind_done _ _ _ _ _ Hx).
    destruct x as [p|]; [|apply Hsame; [apply devs_step_refl, Hw|done]].
    eapply runs_mono; [apply Hrun; exact (proj1 (Forall_forall _ _) (ok_reg _ _ Hok) p Hin)|]. auto.
  - apply (called_ok g b); [done..|]. apply moves_same; [done..|]. rewrite Hc. constructor. by apply mode_not_active.
Qed.

Lemma reset_called g id w : buses_ok w -> 0 <= g -> safely (exec g (DeviceReset id)) w (called g (DeviceReset id) w).
Proof.
  intros Hw Hg. apply lift_runs. unfold virtio_device_reset. apply guest_check; intros Hk; [|by apply called_refused].
  destruct (w_bound _ Hw g Hg Hk) as [b Hb]. apply (find_called g b (DeviceReset id)); try done.
  intros p Hp. destruct (reg_ops _ p (w_inv _ Hw) Hp) as (v & o & _ & Ho & Hpr). destruct (p_reset _ _ _ _ _ _ Hpr) as (f & Hf & Hrun).
  unfold runs. rewrite (bind_done _ _ _ _ _ (get_ops_run p o w Ho)), Hf, (bind_done _ _ _ _ _ (deref_done f w)).
  by apply on_devs_step; [exact Hrun|].
Qed.

Lemma kick_called g id vqid w : buses_ok w -> 0 <= g -> safely (exec g (KickVq id vqid)) w (called g (KickVq id vqid) w).
Proof.
  intros Hw Hg. apply lift_runs. unfold virtio_kick_vq. apply guest_check; intros Hk; [|by apply called_refused].
  destruct (w_bound _ Hw g Hg Hk) as [b Hb]. apply (find_called g b (KickVq id vqid)); try done.
  intros p Hp. destruct (reg_ops _ p (w_inv _ Hw) Hp) as (v & o & _ & Ho & Hpr). destruct (p_kick _ _ _ _ _ _ Hpr) as (f & Hf & Hrun).
  unfold runs. rewrite (bind_done _ _ _ _ _ (get_ops_run p o w Ho)), Hf, (bind_done _ _ _ _ _ (deref_done f w)).
  by apply on_devs_step; [exact (Hrun vqid)|].
Qed.

(** ** Changes of the state *)

Definition with_state (g x : Z) (b : trusty_virtio_bus) (w : W) : W :=
  World (set_bus g (set_state x b) (w_ctx w)) (w_devs w) (w_sent w).

Lemma cmpxchg_run g b old new (w : W) : bus_at g (w_ctx w) = Some b ->
  cmpxchg_state g old new w = Done (state b) (if state b =? old then with_state g new b w else w).
Proof.
  intros Hb. unfold cmpxchg_state. rewrite (bind_done _ _ _ _ _ (get_bus_run g b w Hb)). unfold bind.
  by destruct (state b =? old).
Qed.

Lemma write_state_run g b x (w : W) : bus_at g (w_ctx w) = Some b -> write_state g x w = Done tt (with_state g x b w).
Proof. intros Hb. unfold write_state. by rewrite (bind_done _ _ _ _ _ (get_bus_run g b w Hb)). Qed.

Lemma with_state_at g x b w : 0 <= g -> bus_at g (w_ctx w) = Some b -> bus_at g (w_ctx (with_state g x b w)) = Some (set_state x b).
Proof. intros Hg Hb. simpl. apply bus_set_same; [done|by rewrite Hb]. Qed.

Lemma with_state_ok g x b w : buses_ok w -> 0 <= g -> bus_at g (w_ctx w) = Some b ->
  VIRTIO_BUS_STATE_IDLE <= x <= VIRTIO_BUS_STATE_DEACTIVATING -> state b <> VIRTIO_BUS_STATE_UNINITIALIZED -> buses_ok (with_state g x b w).
Proof. intros Hw Hg Hb Hx Hs. apply buses_state; try done. apply Hw. Qed.

(** A bus that went from [b] over the state [x] to the state [y]. *)
Lemma moves_state g b c x y w w' o : w_ctx w' = set_bus g (set_state y (set_state x b)) (set_bus g (set_state x b) (w_ctx w)) ->
  bus_step (mode_of b) (request_of c) o (mode_of (set_state y b)) -> bus_moves g b c w o w'.
Proof. intros Hc Hs. exists (set_state y b). rewrite Hc, set_bus_twice. done. Qed.

Lemma stop_called g pa sz fl w : buses_ok w -> 0 <= g -> safely (exec g (VirtioStop pa sz fl)) w (called g (VirtioStop pa sz fl) w).
Proof.
  intros Hw Hg. apply lift_runs. unfold virtio_stop. apply guest_check; intros Hk; [|by apply called_refused].
  destruct (w_bound _ Hw g Hg Hk) as [b Hb]. unfold runs. rewrite (bind_done _ _ _ _ _ (cmpxchg_run g b _ _ w Hb)).
  destruct (state b =? VIRTIO_BUS_STATE_ACTIVE) eqn:E; zbool; cbn [negb].
  - assert (Hw1 : buses_ok (with_state g VIRTIO_BUS_STATE_DEACTIVATING b w)) by (apply with_state_ok; try done; rewrite E; done).
    pose proof (with_state_at g VIRTIO_BUS_STATE_DEACTIVATING b w Hg Hb) as Hb1.
    rewrite (bind_done _ _ _ _ _ (get_bus_run g _ _ Hb1)). apply runs_bind.
    apply reset_all_run; [apply Hw1|exact (ok_reg _ _ (w_bus _ Hw1 g _ Hg Hb1))|]. intros w2 Hd.
    pose proof (devs_step_ok _ _ Hw1 Hd) as Hw2. pose proof Hd as (Hc2 & _). rewrite <- Hc2 in Hb1.
    unfold runs. rewrite (bind_done _ _ _ _ _ (write_state_run g _ VIRTIO_BUS_STATE_IDLE w2 Hb1)).
    apply (called_ok g b); [done..| |].
    + intros _. apply with_state_ok; done.
    + eapply moves_state; [simpl; rewrite Hc2; reflexivity|]. rewrite mode_active by done. constructor.
  - apply (called_ok g b); [done..|]. apply moves_same; [done..|]. constructor. by apply mode_not_active.
Qed.

Lemma laid_range s l : forall off fin, laid_out off l s fin -> 0 <= off < 2 ^ 32 -> 0 <= fin < 2 ^ 32.
Proof.
  induction l as [|p l IH]; intros off fin Hl Hoff; [by simpl in Hl; subst|]. destruct Hl as [_ Hl].
  apply (IH _ _ Hl). by apply uwrap_range.
Qed.

(** A start that fails leaves the bus as it was. *)
Lemma start_undone g b c x r w w' : buses_ok w -> 0 <= g -> guest_ok g (w_ctx w) = true -> bus_at g (w_ctx w) = Some b ->
  state b = VIRTIO_BUS_STATE_IDLE -> request_of c = Start -> VIRTIO_BUS_STATE_IDLE <= x <= VIRTIO_BUS_STATE_DEACTIVATING -> r <> NO_ERROR ->
  w' = with_state g x b w ->
  safely (write_state g (state b) ;;; tret r) w' (called g c w).
Proof.
  intros Hw Hg Hk Hb Hs Hc Hx Hr ->. pose proof (with_state_at g x b w Hg Hb) as Hb1.
  assert (Hw1 : buses_ok (with_state g x b w)) by (apply with_state_ok; try done; by rewrite Hs).
  unfold safely. rewrite (bind_done _ _ _ _ _ (write_state_run g _ (state b) _ Hb1)).
  assert (Hx1 : state (set_state x b) <> VIRTIO_BUS_STATE_UNINITIALIZED).
  { simpl. unfold VIRTIO_BUS_STATE_IDLE, VIRTIO_BUS_STATE_UNINITIALIZED in *. lia. }
  apply (called_ok g b); [done..| |].
  - intros _. apply with_state_ok; try done. by rewrite Hs.
  - eapply moves_state; [reflexivity|]. rewrite Hc, mode_idle, Hs by done. by constructor.
Qed.

Lemma start_called g ns mem pa sz fl w : buses_ok w -> 0 <= g -> fits g (VirtioStart ns mem pa sz fl) w ->
  safely (exec g (VirtioStart ns mem pa sz fl)) w (called g (VirtioStart ns mem pa sz fl) w).
Proof.
  intros Hw Hg Hfit. set (c := VirtioStart ns mem pa sz fl). change (exec g c) with (virtio_start ns mem pa sz fl g). unfold virtio_start.
  destruct (guest_run g w) as (r & Hr & Hz). unfold safely. rewrite (bind_done _ _ _ _ _ Hr), Hz.
  destruct (guest_ok g (w_ctx w)) eqn:Hk; cbn [negb]; [|by apply called_refused].
  destruct (w_bound _ Hw g Hg Hk) as [b Hb]. rewrite (bind_done _ _ _ _ _ (cmpxchg_run g b _ _ w Hb)).
  destruct (state b =? VIRTIO_BUS_STATE_IDLE) eqn:E; cbn [negb].
  2:{ zbool. apply (called_ok g b); [done..|]. apply moves_same; [done..|]. constructor. by apply mode_not_idle. }
  apply Z.eqb_eq in E. set (w1 := with_state g VIRTIO_BUS_STATE_ACTIVATING b w).
  pose proof (with_state_at g VIRTIO_BUS_STATE_ACTIVATING b w Hg Hb) as Hb1. fold w1 in Hb1.
  assert (Hw1 : buses_ok w1) by (apply with_state_ok; try done; by rewrite E).
  assert (Hundo : forall r, r <> NO_ERROR -> safely (write_state g (state b) ;;; tret r) w1 (called g c w)).
  { intros r0 Hr0. by apply (start_undone g b c VIRTIO_BUS_STATE_ACTIVATING r0 w). }
  rewrite (bind_done _ _ _ _ _ (get_bus_run g _ _ Hb1)). cbn [descr_size set_state vdev_list].
  destruct (sz =? descr_size b) eqn:Esz; cbn [negb]; [|by apply Hundo]. apply Z.eqb_eq in Esz. subst sz.
  destruct mem; cbn [negb]; [|by apply Hundo].
  destruct (map_run pa (descr_size b) fl g w1) as (r1 & va & Hmap & Hr1 & _).
  rewrite (bind_done _ _ _ _ _ Hmap). cbn [fst snd]. rewrite Hr1.
  destruct (granted pa (descr_size b) fl g (w_devs w1)); cbn [negb]; [|apply Hundo; by apply Z.eqb_neq in Hr1].
  set (rs := <[va:=_]> (regions_of (w_devs w1))). set (w2 := World (w_ctx w1) (set_regions rs (w_devs w1)) (w_sent w1)).
  assert (Hw2 : buses_ok w2) by (by apply (buses_regions w1)).
  assert (Hat : regions_of (w_devs w2) !! va = Some (pa, ROUNDUP (u32 (descr_size b)) PAGE_SIZE, fl)).
  { simpl. rewrite regions_set. apply lookup_insert_eq. }
  rewrite (bind_done _ _ _ _ _ (window_run ns va pa (descr_size b) fl (w_devs w2) (w_ctx w2) (w_sent w2) Hat)).
  assert (Hrange : 0 <= descr_size b < 2 ^ 32).
  { eapply laid_range; [apply (ok_laid _ _ (w_bus _ Hw g b Hg Hb)); by rewrite E|]. by apply uwrap_range. }
  rewrite (proj2 (Z.ltb_ge _ _)) by (by apply window_len). unfold tbind. apply safely_bind.
  apply probe_all_safe; [apply Hw2|exact (ok_reg _ _ (w_bus _ Hw2 g _ Hg Hb1))| | |].
  - intros p v Hp Hv. apply (Hfit b Hb p v Hp). simpl in Hv. by rewrite vdev_regions in Hv.
  - intros w3 Hc3. apply (called_ok g b); [done..|]. exists (set_state VIRTIO_BUS_STATE_ACTIVATING b). rewrite Hc3.
    split; [done|]. split; [done|]. rewrite mode_idle by done. constructor.
  - intros w3 Hd. pose proof (devs_step_ok _ _ Hw2 Hd) as Hw3. pose proof Hd as (Hc3 & _).
    unfold safely. rewrite (bind_done _ _ _ _ _ (eq_refl : unmap_descr va w3 = Done tt (World (w_ctx w3) (set_regions (delete va (regions_of (w_devs w3))) (w_devs w3)) (w_sent w3)))).
    set (w4 := World (w_ctx w3) _ _). assert (Hw4 : buses_ok w4) by (by apply (buses_regions w3)).
    assert (Hb4 : bus_at g (w_ctx w4) = Some (set_state VIRTIO_BUS_STATE_ACTIVATING b)) by (simpl; by rewrite Hc3).
    rewrite (bind_done _ _ _ _ _ (write_state_run g _ VIRTIO_BUS_STATE_ACTIVE w4 Hb4)).
    apply (called_ok g b); [done..| |].
    + intros _. by apply with_state_ok.
    + eapply moves_state; [simpl; rewrite Hc3; reflexivity|]. rewrite mode_idle by done. constructor.
Qed.


(** C17: the description that a guest is given, once it fits into its buffer
    and the buffer may be mapped, is a resource table from which the
    descriptors of all devices of its bus are read back, in the order of their
    registration; the rest of the buffer is as it was, and no mapping is left.
    Otherwise nothing is written. *)
Theorem virtio_get_description_table ns w g b pa sz fl : buses_ok w -> 0 <= g -> guest_ok g (w_ctx w) = true ->
  bus_at g (w_ctx w) = Some b -> table_len (descrs (vdev_list b) (w_devs w)) < 2 ^ 32 ->
  runs (virtio_get_description ns pa sz fl g) w (fun r w' =>
    let ds := descrs (vdev_list b) (w_devs w') in
    regions_of (w_devs w') = regions_of (w_devs w) /\
    if sz <? table_len ds then r = ERR_NOT_ENOUGH_BUFFER /\ w_sent w' = w_sent w
    else if granted pa (table_len ds) fl g (w_devs w') then
      exists buf, r = table_len ds /\ w_sent w' = w_sent w ++ [(pa, buf)] /\
        parse_table (length <$> ds) buf = (VIRTIO_FW_RSC_VER, Z.of_nat (length ds), ds) /\
        drop (Z.to_nat r) buf = drop (Z.to_nat r) (window_of ns r)
    else r <> NO_ERROR /\ w_sent w' = w_sent w).
Proof.
  intros Hw Hg Hk Hb Hmax. apply (description_run ns w g b); [done..|]. intros r w' fin Hw' Hc Hr Hlt Hd ds.
  split; [done|]. unfold describes in Hd. fold ds in Hd. destruct (sz <? table_len ds); [done|]. destruct (granted _ _ _ _ _); [|done].
  destruct Hd as [-> Hd]. eexists. split; [done|]. split; [exact Hd|]. fold ds.
  split; [by apply parse_resource_table|].
  rewrite drop_app_ge; [|pose proof (table_len_eq ds); lia].
  pose proof (table_len_eq ds). by replace (Z.to_nat (table_len ds) - length (resource_table ds))%nat with 0%nat by lia.
Qed.
End Refine.
End VirtioStates.
