(* ===== verification/TipcConfig.v ===== *)
(** * The devices of the guests

    [lib/trusty/tipc_config.c] and [create_tipc_device] of [tipc_dev.c]: one
    tipc device for every guest, each on the bus of its guest. *)

From S2P Require Import Prelude SmCall Vqueue TipcDev VirtioBus VirtioBusInv VirtioCalls.

Module TipcConfig.
Import VirtioBus VirtioBusInv VirtioCalls.

(** Allocation of devices: [new_dev g] is [calloc] with the assignments of
    [create_tipc_device] for guest [g], [free_dev] is [free]. *)
Class VdevAlloc (S : Type) `{Vdevs S} := {
  new_dev : Z -> S -> option (Z * S);
  free_dev : Z -> S -> S;
  guest_of : Z -> S -> option Z
}.

Section Config.
Context {S : Type} `{VdevAlloc S}.
Notation W := (world S).

Definition create_tipc_device (guest : Z) : M W Z :=
  w <- get ;;
  match new_dev guest (w_devs w) with
  | None => ret ERR_NO_MEMORY
  | Some (dev, s) =>
      on_devs (put s) ;;;
      r <- virtio_register_device dev guest ;;
      if negb (r =? NO_ERROR) then on_devs (modify (free_dev dev)) ;;; ret r
      else ret NO_ERROR
  end.

(** [n] guests are left from [guest]. *)
Fixpoint create_loop (n : nat) (guest : Z) : M W Z :=
  match n with
  | O => ret NO_ERROR
  | Datatypes.S n =>
      r <- create_tipc_device guest ;;
      if negb (r =? NO_ERROR) then free_guest_virtio_bus ;;; ret r else create_loop n (guest + 1)
  end.

(** [mem]: whether the buses can be allocated. *)
Definition tipc_hyp_init (mem : bool) (num_guests : Z) : M W Z :=
  if num_guests <=? 1 then ret NO_ERROR
  else if SmCall.MAX_NUM_SUPPORTED_GUESTS <? num_guests then ret ERR_INVALID_ARGS
  else
    let num_additional_guests := num_guests - 1 in
    r <- alloc_guest_virtio_bus mem num_additional_guests ;;
    if negb (r =? NO_ERROR) then ret r else create_loop (Z.to_nat num_additional_guests) 1.

Definition tipc_init : M W unit := _ <- create_tipc_device 0 ;; ret tt.
End Config.

(** What the allocation promises: a new device at an unused address, that
    belongs to its guest; nothing else changes. *)
Class VdevAllocOk (S : Type) `{VdevsOk S} `{!VdevAlloc S} := {
  new_fresh g s p s' : new_dev g s = Some (p, s') -> p <> 0 /\ vdev_at p s = None;
  new_at g s p s' : new_dev g s = Some (p, s') -> vdev_at p s' = Some (Vdev 0 0);
  new_ops g s p s' : new_dev g s = Some (p, s') -> exists o, ops_of p s' = Some o /\ all_ops o = true;
  new_guest g s p s' : new_dev g s = Some (p, s') -> guest_of p s' = Some g;
  new_other g s p s' q : new_dev g s = Some (p, s') -> q <> p -> same_at q s s' /\ guest_of q s' = guest_of q s;
  guest_of_set p q v s : guest_of q (set_vdev p v s) = guest_of q s
}.

Section Ok.
Context {S : Type} `{VdevAllocOk S}.
Notation W := (world S).

(** ** Registration *)

(** A counted guest has a bus. *)
Definition room (c : guests_vbus_context) : Prop :=
  num_guests c + 1 < 2 ^ 32 /\ forall l, addl_guests_virtio_bus c = Some l -> num_guests c + 1 <= 1 + Z.of_nat (length l).

(** The bus with one more device. *)
Definition bus_add (p : Z) (b : trusty_virtio_bus) : trusty_virtio_bus :=
  Bus (u32 (vdev_cnt b + 1)) (u32 (next_dev_id b + 1)) (descr_size b) (state b) (vdev_list b ++ [p]).

Definition count_guest (c : guests_vbus_context) : guests_vbus_context :=
  Ctx (u32 (num_guests c + 1)) (guest0_virtio_bus c) (addl_guests_virtio_bus c).

Lemma ids_app i l p s : ids_from i (l ++ [p]) s <-> ids_from i l s /\ (devid <$> vdev_at p s) = Some (u32 (i + Z.of_nat (length l))).
Proof.
  revert i. induction l as [|q l IH]; intros i; simpl; [rewrite Z.add_0_r; naive_solver|].
  rewrite IH. replace (i + 1 + Z.of_nat (length l)) with (i + Z.of_nat (Datatypes.S (length l))) by lia. naive_solver.
Qed.

Lemma bus_ok_add s p b v : bus_ok s b -> state b = VIRTIO_BUS_STATE_UNINITIALIZED -> p ∉ vdev_list b -> registered s p ->
  vdev_at p s = Some v -> bus_ok (set_vdev p (Vdev (next_dev_id b) (descr_offset v)) s) (bus_add p b).
Proof.
  intros Hok Hs Hp (Hp0 & _ & Ho) Hv. set (s' := set_vdev _ _ s).
  assert (Hsame : forall q, q ∈ vdev_list b -> same_at q s s').
  { intros q Hq. assert (p <> q) by (by intros ->). split_and!; [by apply vdev_set_other|apply ops_set|apply descr_set]. }
  pose proof (bus_ok_near s s' b Hsame Hok) as Hok'.
  assert (Hu : forall n, u32 (u32 (Z.of_nat n) + 1) = u32 (Z.of_nat (n + 1)%nat)).
  { intros n. unfold u32. rewrite uwrap_add_l. f_equal. lia. }
  split; simpl.
  - by rewrite (ok_cnt _ _ Hok), length_app, Hu.
  - by rewrite (ok_next _ _ Hok), length_app, Hu.
  - apply Hok.
  - apply NoDup_app. split_and!; [apply Hok| |apply NoDup_singleton]. intros q Hq Hq1. apply list_elem_of_singleton in Hq1. by subst q.
  - apply Forall_app. split; [apply Hok'|]. apply Forall_singleton. split; [done|]. unfold s'.
    rewrite (vdev_set_same p _ v s Hv), ops_set. split; [by eexists|done].
  - apply ids_app. split; [apply Hok'|]. unfold s'. rewrite (vdev_set_same p _ v s Hv). simpl. by rewrite (ok_next _ _ Hok).
  - by rewrite Hs.
Qed.

Lemma guest_count g c : room c -> 0 <= num_guests c -> 0 <= g -> guest_ok g (count_guest c) = true -> is_Some (bus_at g (count_guest c)).
Proof.
  intros [Hm Hr] Hn Hg. unfold guest_ok, bus_at, count_guest. simpl. destruct (0 <? g) eqn:E; [|by eexists].
  unfold u32. rewrite uwrap_small by lia. destruct (addl_guests_virtio_bus c) as [l|]; simpl; [|by rewrite andb_false_r].
  intros Hk. zbool. specialize (Hr l eq_refl). apply lookup_lt_is_Some_2. lia.
Qed.

(** A device that no bus has comes to the end of the list of its guest, and
    gets the next id. *)
Lemma register_run w g b p v (Q : Z -> W -> Prop) : buses_wf w -> 0 <= g -> room (w_ctx w) -> 0 <= num_guests (w_ctx w) ->
  guest_ok g (count_guest (w_ctx w)) = true -> bus_at g (w_ctx w) = Some b -> state b = VIRTIO_BUS_STATE_UNINITIALIZED ->
  registered (w_devs w) p -> vdev_at p (w_devs w) = Some v ->
  (forall g' b', 0 <= g' -> bus_at g' (w_ctx w) = Some b' -> p ∉ vdev_list b') ->
  (let w' := World (set_bus g (bus_add p b) (count_guest (w_ctx w))) (set_vdev p (Vdev (next_dev_id b) (descr_offset v)) (w_devs w)) (w_sent w) in
   buses_wf w' -> Q NO_ERROR w') ->
  runs (virtio_register_device p g) w Q.
Proof.
  intros Hw Hg Hroom Hn Hk Hb Hs Hp Hv Hno HQ. unfold virtio_register_device, runs.
  set (w1 := World (count_guest (w_ctx w)) (w_devs w) (w_sent w)).
  rewrite (bind_done _ _ w tt w1) by done. destruct (guest_run g w1) as (r & Hr & Hz). rewrite (bind_done _ _ _ _ _ Hr), Hz.
  cbn [w_ctx w1]. rewrite Hk. cbn [negb].
  assert (Hb1 : bus_at g (w_ctx w1) = Some b) by done. rewrite (bind_done _ _ _ _ _ (get_bus_run g b w1 Hb1)), Hs, Z.eqb_refl.
  assert (Hval : validate_vdev p w1 = Done NO_ERROR w1).
  { destruct Hp as (Hp0 & _ & o & Ho & Ha). unfold validate_vdev. rewrite (proj2 (Z.eqb_neq _ _)) by done.
    unfold bind, get. simpl. by rewrite Ho, Ha. }
  rewrite (bind_done _ _ _ _ _ Hval), Z.eqb_refl.
  rewrite (bind_done _ _ _ _ _ (VirtioDescr.VirtioDescr.get_vdev_run p v w1 Hv)). unfold runs, bind, put_vdev, on_devs, modify, put_bus, on_ctx, ret. simpl.
  unfold bus_add in HQ. rewrite Hs in HQ. apply HQ. clear HQ Hr Hz Hval.
  set (s' := set_vdev _ _ _). set (b1 := Bus _ _ _ _ _).
  assert (Hok : bus_ok s' b1).
  { pose proof (bus_ok_add (w_devs w) p b v (wf_bus _ Hw g b Hg Hb) Hs (Hno g b Hg Hb) Hp Hv) as Hadd.
    unfold bus_add in Hadd. by rewrite Hs in Hadd. }
  assert (Hat : forall g', 0 <= g' -> bus_at g' (set_bus g b1 (count_guest (w_ctx w))) = if decide (g' = g) then Some b1 else bus_at g' (w_ctx w)).
  { intros g' Hg'. destruct (decide (g' = g)) as [->|]; [apply bus_set_same; [done|by eexists]|].
    rewrite bus_set_other by done. reflexivity. }
  assert (Hin : forall g' b' q, 0 <= g' -> bus_at g' (set_bus g b1 (count_guest (w_ctx w))) = Some b' -> q ∈ vdev_list b' ->
    q = p /\ g' = g \/ exists b0, bus_at g' (w_ctx w) = Some b0 /\ q ∈ vdev_list b0).
  { intros g' b' q Hg'. rewrite Hat by done. destruct (decide (g' = g)) as [->|]; [|by right; eauto]. intros [= <-]. simpl.
    rewrite elem_of_app, list_elem_of_singleton. intros [|]; [right; eauto|by left]. }
  split; simpl.
  - intros g' b' Hg' Hb'. rewrite Hat in Hb' by done. destruct (decide (g' = g)) as [->|Hne]; [by simplify_eq|].
    apply (bus_ok_near (w_devs w)); [|by apply (wf_bus _ Hw g')]. intros q Hq. assert (p <> q) by (intros ->; by apply (Hno g' b' Hg' Hb')).
    split_and!; [by apply vdev_set_other|apply ops_set|apply descr_set].
  - intros g1 g2 b2 b3 q Hg1 Hg2 Hb2 Hb3 Hq2 Hq3.
    destruct (Hin _ _ _ Hg1 Hb2 Hq2) as [[-> ->]|(c1 & Hc1 & Hi1)], (Hin _ _ _ Hg2 Hb3 Hq3) as [[E1 ->]|(c2 & Hc2 & Hi2)]; subst; try done.
    + by destruct (Hno _ _ Hg2 Hc2).
    + by destruct (Hno _ _ Hg1 Hc1).
    + exact (wf_apart _ Hw _ _ _ _ _ Hg1 Hg2 Hc1 Hc2 Hi1 Hi2).
  - intros g' Hg'. rewrite guest_set. intros Hk'. rewrite Hat by done. destruct (decide _); [by eexists|].
    by apply guest_count in Hk'.
Qed.

(** ** New devices *)

Lemma wf_devs (w : W) s : buses_wf w -> (forall q, is_Some (vdev_at q (w_devs w)) -> same_at q (w_devs w) s) ->
  buses_wf (World (w_ctx w) s (w_sent w)).
Proof.
  intros Hw Hs. split; simpl; [|apply Hw..]. intros g b Hg Hb. apply (bus_ok_near (w_devs w)); [|by apply (wf_bus _ Hw g)].
  intros p Hp. apply Hs. pose proof (wf_bus _ Hw g b Hg Hb) as Hok. by destruct (proj1 (Forall_forall _ _) (ok_reg _ _ Hok) p Hp) as (_ & ? & _).
Qed.

(** What stays of the devices that there were. *)
Definition devices_kept (s s' : S) : Prop := forall q, is_Some (vdev_at q s) -> same_at q s s' /\ guest_of q s' = guest_of q s.

Lemma guests_kept_refl s : devices_kept s s.
Proof. by intros q. Qed.

Lemma guests_kept_trans a b c : devices_kept a b -> devices_kept b c -> devices_kept a c.
Proof.
  intros H1' H2' q Hq. destruct (H1' q Hq) as ((Hv & Ho & Hl) & Hg).
  destruct (H2' q) as ((Hv' & Ho' & Hl') & Hg'); [by rewrite Hv|]. split; [split_and!|]; congruence.
Qed.

Lemma guest_create_run w g (Q : Z -> W -> Prop) : buses_wf w -> 0 <= g -> room (w_ctx w) -> 0 <= num_guests (w_ctx w) ->
  guest_ok g (count_guest (w_ctx w)) = true -> bus_at g (w_ctx w) = Some bus_init ->
  (new_dev g (w_devs w) = None -> Q ERR_NO_MEMORY w) ->
  (forall p s', let w' := World (set_bus g (bus_add p bus_init) (count_guest (w_ctx w))) s' (w_sent w) in
     buses_wf w' -> devices_kept (w_devs w) s' -> vdev_at p s' = Some (Vdev 0 0) -> guest_of p s' = Some g -> Q NO_ERROR w') ->
  runs (create_tipc_device g) w Q.
Proof.
  intros Hw Hg Hroom Hn Hk Hb Hnone HQ. unfold create_tipc_device, runs.
  rewrite (bind_done get _ w w w) by done. destruct (new_dev g (w_devs w)) as [[p s1]|] eqn:E; [|by apply Hnone].
  destruct (new_fresh _ _ _ _ E) as [Hp0 Hfresh]. pose proof (new_at _ _ _ _ E) as Hat.
  assert (Hkept : devices_kept (w_devs w) s1).
  { intros q Hq. apply (new_other g _ p); [done|]. intros ->. rewrite Hfresh in Hq. by destruct Hq. }
  set (w1 := World (w_ctx w) s1 (w_sent w)). rewrite (bind_done _ _ w tt w1) by done.
  assert (Hw1 : buses_wf w1) by (apply (wf_devs w); [done|]; intros q Hq; by apply Hkept).
  apply runs_bind. apply (register_run w1 g bus_init p (Vdev 0 0)); try done.
  - split; [done|]. split; [by eexists|]. by eapply new_ops.
  - intros g' b' Hg' Hb' Hin. pose proof (wf_bus _ Hw g' b' Hg' Hb') as Hok.
    destruct (proj1 (Forall_forall _ _) (ok_reg _ _ Hok) p Hin) as (_ & Hs & _). rewrite Hfresh in Hs. by destruct Hs.
  - intros w2 Hw2. apply HQ; [done| |by rewrite (vdev_set_same p _ (Vdev 0 0) s1 Hat)|rewrite guest_of_set; by eapply new_guest].
    eapply guests_kept_trans; [exact Hkept|]. intros q Hq. rewrite guest_of_set. split; [|done].
    destruct (decide (p = q)) as [<-|]; [|split_and!; [by apply vdev_set_other|apply ops_set|apply descr_set]].
    split_and!; [by rewrite (vdev_set_same p _ (Vdev 0 0) s1 Hat), Hat|apply ops_set|apply descr_set].
Qed.

(** ** All guests *)

(** The guest [g] has a bus of its own with one device, which is its. *)
Definition guest_up (w : W) (g : Z) : Prop := exists p, bus_at g (w_ctx w) = Some (Bus 1 1 0 VIRTIO_BUS_STATE_UNINITIALIZED [p]) /\
  vdev_at p (w_devs w) = Some (Vdev 0 0) /\ guest_of p (w_devs w) = Some g.

Lemma guest_up_kept (w : W) c s g sent : guest_up w g -> devices_kept (w_devs w) s -> bus_at g c = bus_at g (w_ctx w) -> guest_up (World c s sent) g.
Proof.
  intros (p & Hb & Hv & Hg) Hs Hc. exists p. simpl. rewrite Hc. split; [done|].
  destruct (Hs p ltac:(by eexists)) as ((-> & _) & ->). done.
Qed.

(** The buses of [n] additional guests exist, those below [g] have a device. *)
Record set_up (n g : Z) (w0 w : W) : Prop := {
  su_wf : buses_wf w;
  su_num : num_guests (w_ctx w) = g;
  su_len : exists l, addl_guests_virtio_bus (w_ctx w) = Some l /\ Z.of_nat (length l) = n;
  su_up : forall g', 1 <= g' < g -> guest_up w g';
  su_rest : forall g', g <= g' <= n -> bus_at g' (w_ctx w) = Some bus_init;
  su_zero : guest0_virtio_bus (w_ctx w) = guest0_virtio_bus (w_ctx w0);
  su_kept : devices_kept (w_devs w0) (w_devs w)
}.

(** No guest but the first has a bus. *)
Definition guests_down (w0 w : W) : Prop := buses_wf w /\ addl_guests_virtio_bus (w_ctx w) = None /\
  guest0_virtio_bus (w_ctx w) = guest0_virtio_bus (w_ctx w0) /\ devices_kept (w_devs w0) (w_devs w).

Lemma down_wf w : buses_wf w -> buses_wf (World (Ctx (num_guests (w_ctx w)) (guest0_virtio_bus (w_ctx w)) None) (w_devs w) (w_sent w)).
Proof.
  intros Hw. assert (Hat : forall g, 0 <= g -> bus_at g (Ctx (num_guests (w_ctx w)) (guest0_virtio_bus (w_ctx w)) None) =
    if decide (g = 0) then bus_at 0 (w_ctx w) else None).
  { intros g Hg. unfold bus_at. simpl. destruct (decide (g = 0)) as [->|]; [done|]. by rewrite (proj2 (Z.ltb_lt _ _)) by lia. }
  split; simpl.
  - intros g b Hg. rewrite Hat by done. destruct (decide _); [|done]. by apply (wf_bus _ Hw 0).
  - intros g g' b b' p Hg Hg'. rewrite !Hat by done. destruct (decide (g = 0)), (decide (g' = 0)); by intros; subst.
  - intros g Hg. unfold guest_ok, bus_at. simpl. destruct (0 <? g); [by rewrite andb_false_r|by eexists].
Qed.

Lemma set_up_step n g w0 w p s' : set_up n g w0 w -> 1 <= g <= n -> n < 16 ->
  let w' := World (set_bus g (bus_add p bus_init) (count_guest (w_ctx w))) s' (w_sent w) in
  buses_wf w' -> devices_kept (w_devs w) s' -> vdev_at p s' = Some (Vdev 0 0) -> guest_of p s' = Some g -> set_up n (g + 1) w0 w'.
Proof.
  intros Hsu Hg Hn w' Hw' Hk Hv Hgu. destruct (su_len _ _ _ _ Hsu) as (l & Hl & Hlen).
  assert (Hat : forall g', 0 <= g' -> bus_at g' (w_ctx w') = if decide (g' = g) then Some (bus_add p bus_init) else bus_at g' (w_ctx w)).
  { intros g' Hg'. simpl. destruct (decide (g' = g)) as [->|].
    - apply bus_set_same; [lia|]. change (is_Some (bus_at g (w_ctx w))). rewrite (su_rest _ _ _ _ Hsu) by lia. by eexists.
    - rewrite bus_set_other by lia. reflexivity. }
  assert (Hc : w_ctx w' = Ctx (g + 1) (guest0_virtio_bus (w_ctx w)) (Some (<[Z.to_nat (g - 1) := bus_add p bus_init]> l))).
  { simpl. unfold set_bus. rewrite (proj2 (Z.ltb_lt _ _)) by lia. simpl. rewrite Hl, (su_num _ _ _ _ Hsu). f_equal.
    unfold u32. apply uwrap_small. lia. }
  split.
  - done.
  - by rewrite Hc.
  - exists (<[Z.to_nat (g - 1) := bus_add p bus_init]> l). split; [by rewrite Hc|]. by rewrite length_insert.
  - intros g' Hg'. destruct (decide (g' = g)) as [->|Hne].
    + exists p. rewrite Hat, decide_True by lia. done.
    + apply (guest_up_kept w); [apply (su_up _ _ _ _ Hsu); lia|done|]. by rewrite Hat, decide_False by lia.
  - intros g' Hg'. rewrite Hat, decide_False by lia. apply (su_rest _ _ _ _ Hsu). lia.
  - rewrite Hc. apply Hsu.
  - eapply guests_kept_trans; [apply Hsu|exact Hk].
Qed.

(** Memory for a device never runs out. *)
Definition plenty : Prop := forall g s, new_dev g s <> None.

Lemma create_loop_run n k : forall g w0 w (Q : Z -> W -> Prop), set_up n g w0 w -> g + Z.of_nat k = n + 1 -> 1 <= g -> n < 16 ->
  (forall w', set_up n (n + 1) w0 w' -> Q NO_ERROR w') -> (forall w', guests_down w0 w' -> ~ plenty -> Q ERR_NO_MEMORY w') ->
  runs (create_loop k g) w Q.
Proof.
  induction k as [|k IH]; intros g w0 w Q Hsu Hk Hg Hn Hup Hdown; cbn [create_loop].
  { apply Hup. by replace (n + 1) with g by lia. }
  destruct (su_len _ _ _ _ Hsu) as (l & Hl & Hlen). pose proof (su_num _ _ _ _ Hsu) as Hnum.
  apply runs_bind. apply guest_create_run; [apply Hsu|lia| |lia| |apply (su_rest _ _ _ _ Hsu); lia| |].
  - split; [lia|]. intros l' Hl'. rewrite Hl in Hl'. injection Hl' as <-. lia.
  - unfold guest_ok, count_guest. simpl. rewrite (proj2 (Z.ltb_lt 0 g)), Hl, Hnum by lia. unfold u32.
    rewrite uwrap_small by lia. by rewrite (proj2 (Z.ltb_lt g (g + 1))) by lia.
  - intros Hnone. change (runs (free_guest_virtio_bus ;;; ret ERR_NO_MEMORY) w Q). unfold runs. simpl.
    apply Hdown; [|intros Hp; by apply (Hp g (w_devs w))]. split; [by apply down_wf, Hsu|]. split; [done|]. split; apply Hsu.
  - intros p s' w' Hw' Hkept Hv Hgu. change (runs (create_loop k (g + 1)) w' Q).
    apply (IH (g + 1) w0 w' Q); try lia; auto. apply (set_up_step n g w0 w p s'); try done; lia.
Qed.

Lemma bus_init_ok s : bus_ok s bus_init.
Proof. split; simpl; try done. constructor. Qed.

Lemma alloc_set_up w k : buses_wf w -> num_guests (w_ctx w) = 1 -> 0 <= k ->
  set_up k 1 w (World (Ctx 1 (guest0_virtio_bus (w_ctx w)) (Some (replicate (Z.to_nat k) bus_init))) (w_devs w) (w_sent w)).
Proof.
  intros Hw Hn Hk. set (c := Ctx _ _ _).
  assert (Hat : forall g b, 0 <= g -> bus_at g c = Some b -> g = 0 /\ bus_at 0 (w_ctx w) = Some b \/ b = bus_init).
  { intros g b Hg. unfold bus_at, c. simpl. destruct (0 <? g) eqn:E; zbool; [|left; split; [lia|done]].
    intros Hb. right. by apply lookup_replicate in Hb as [-> _]. }
  split; simpl; try done.
  - split; simpl.
    + intros g b Hg Hb. destruct (Hat g b Hg Hb) as [[_ Hb0]| ->]; [by apply (wf_bus _ Hw 0)|apply bus_init_ok].
    + intros g g' b b' p Hg Hg' Hb Hb' Hp Hp'. destruct (Hat g b Hg Hb) as [[-> _]| ->]; [|by apply not_elem_of_nil in Hp].
      destruct (Hat g' b' Hg' Hb') as [[-> _]| ->]; [done|by apply not_elem_of_nil in Hp'].
    + intros g Hg. unfold guest_ok, bus_at. simpl. destruct (0 <? g) eqn:E; [|by eexists]. zbool.
      by rewrite (proj2 (Z.ltb_ge g 1)) by lia.
  - eexists. split; [done|]. rewrite length_replicate. lia.
  - lia.
  - intros g Hg. unfold bus_at. simpl. rewrite (proj2 (Z.ltb_lt _ _)) by lia. apply lookup_replicate. split; [done|]. lia.
Qed.

(** With the first guest registered, [n] guests get their buses. *)
Definition guests_up (n : Z) (w0 w : W) : Prop := buses_wf w /\ guest0_virtio_bus (w_ctx w) = guest0_virtio_bus (w_ctx w0) /\
  devices_kept (w_devs w0) (w_devs w) /\ (forall g, 1 <= g < n -> guest_up w g) /\
  (forall g, 0 <= g -> guest_ok g (w_ctx w) = true <-> g = 0 \/ g < n).

Lemma set_up_all n w0 w : set_up (n - 1) n w0 w -> 1 <= n -> guests_up n w0 w.
Proof.
  intros Hsu Hn. split; [apply Hsu|]. split; [apply Hsu|]. split; [apply Hsu|]. split; [apply Hsu|].
  intros g Hg. destruct (su_len _ _ _ _ Hsu) as (l & Hl & _). unfold guest_ok. rewrite Hl, (su_num _ _ _ _ Hsu).
  destruct (0 <? g) eqn:E; zbool; simpl; [|split; [left; lia|done]]. rewrite andb_true_r, Z.ltb_lt. lia.
Qed.

(** Initialising the guests gives every one of them a bus of its own with
    exactly one device, which belongs to it, and leaves the first guest and its
    devices alone; a guest beyond them is refused.  When memory runs out, no
    guest but the first keeps a bus.  More guests than are supported are
    refused before anything happens. *)
Lemma tipc_hyp_init_guests w mem n : buses_wf w -> num_guests (w_ctx w) = 1 ->
  runs (tipc_hyp_init mem n) w (fun r w' =>
    if n <=? 1 then r = NO_ERROR /\ w' = w
    else if 16 <? n then r = ERR_INVALID_ARGS /\ w' = w
    else r = NO_ERROR /\ guests_up n w w' \/ r = ERR_NO_MEMORY /\ guests_down w w' /\ ~ (mem = true /\ plenty)).
Proof.
  intros Hw Hn. unfold tipc_hyp_init, SmCall.MAX_NUM_SUPPORTED_GUESTS. destruct (n <=? 1) eqn:E1; [done|]. destruct (16 <? n) eqn:E2; [done|]. zbool.
  unfold alloc_guest_virtio_bus, SmCall.MAX_NUM_SUPPORTED_GUESTS. rewrite (proj2 (Z.ltb_ge _ _)) by lia. destruct mem.
  - apply runs_bind. unfold runs at 1. simpl. rewrite Hn.
    apply (create_loop_run (n - 1) _ 1 w); [apply alloc_set_up; [done|done|lia]|lia|lia|lia| |].
    + intros w' Hsu. left. split; [done|]. apply set_up_all; [|lia]. by replace (n - 1 + 1) with n in Hsu by lia.
    + intros w' Hd Hp. right. split; [done|]. split; [done|]. naive_solver.
  - apply runs_bind. unfold runs at 1. simpl. right. split; [done|]. split; [|by intros [? _]]. split; [by apply down_wf|]. done.
Qed.
End Ok.
End TipcConfig.
