(* ===== verification/TipcBus.v ===== *)
(** * Tipc devices on the virtio buses

    The world of the tipc devices of all guests, [_tipc_dev_ops] of
    [tipc_dev.c] and [_descr0] of [tipc_config.c]: the devices that the buses
    of this system have. *)

From S2P Require Import Prelude Bitmap Iovec MsgQueue Handle Ipc HandleList IpcHandle Vqueue TipcDev VirtioBus TipcConfig.

Module TipcBus.
Import Bitmap Handle Ipc HandleList IpcHandle.

(** ** The world of the devices *)

(** A device with the offset of its descriptor, its queues and its handle
    list; and what all devices share. *)
Record tipc_slot := Slot {
  s_dev : TipcDev.tipc_dev;
  s_offset : Z;             (* vd.descr_offset *)
  s_vqs : list Vqueue.vqueue;
  s_list : handle_list hptr
}.

Record devs := Devs {
  d_heap : heap;
  d_trace : list Vqueue.access;
  d_regions : Vqueue.kregions;
  d_sent : list (Z * list Z);
  d_waits : nat;
  d_slots : gmap Z tipc_slot
}.

Definition set_slots (m : gmap Z tipc_slot) (s : devs) : devs :=
  Devs (d_heap s) (d_trace s) (d_regions s) (d_sent s) (d_waits s) m.
Definition set_regions (r : Vqueue.kregions) (s : devs) : devs :=
  Devs (d_heap s) (d_trace s) r (d_sent s) (d_waits s) (d_slots s).

(** What a device sees, and the world after it has run. *)
Definition view (x : tipc_slot) (s : devs) : TipcDev.W :=
  (TipcDev.World (d_heap s) (s_dev x) (s_vqs x) (d_trace s) (d_regions s) (d_sent s) (d_waits s), s_list x).
Definition back (p : Z) (x : tipc_slot) (w : TipcDev.W) (s : devs) : devs :=
  Devs (TipcDev.w_heap w.1) (TipcDev.w_trace w.1) (TipcDev.w_regions w.1) (TipcDev.w_sent w.1) (TipcDev.w_waits w.1)
    (<[p := Slot (TipcDev.w_dev w.1) (s_offset x) (TipcDev.w_vqs w.1) w.2]> (d_slots s)).

Definition on_tipc {A} (p : Z) (m : M TipcDev.W A) : M devs A := fun s =>
  match d_slots s !! p with
  | None => Crash BadAccess
  | Some x => match m (view x s) with Done a w => Done a (back p x w s) | Crash e => Crash e end
  end.

Definition set_devid (i : Z) (d : TipcDev.tipc_dev) : TipcDev.tipc_dev :=
  TipcDev.Dev i (TipcDev.vstate d) (TipcDev.guest d) (TipcDev.dev_uuid d) (TipcDev.descr d) (TipcDev.epts d) (TipcDev.inuse d)
    (TipcDev.have_handles d) (TipcDev.rx_thread d) (TipcDev.tx_thread d) (TipcDev.tx_stop d) (TipcDev.rx_stop d).

(** [struct vdev] of a device. *)
Definition vdev_of (x : tipc_slot) : VirtioBus.vdev := VirtioBus.Vdev (TipcDev.devid (s_dev x)) (s_offset x).
Definition with_vdev (v : VirtioBus.vdev) (x : tipc_slot) : tipc_slot :=
  Slot (set_devid (VirtioBus.devid v) (s_dev x)) (VirtioBus.descr_offset v) (s_vqs x) (s_list x).

Section Params.
Context (ns : nat -> Z -> Z) (others : nat -> TipcDev.W -> TipcDev.W) (wait_fuel : nat) `{Vqueue.Platform}.
Context (thr : option Z * option Z) (calloc : gmap Z tipc_slot -> option Z).

(** The threads are joined when a device is reset. *)
Definition _tipc_dev_ops : VirtioBus.vdev_ops devs := VirtioBus.VdevOps
  (Some (fun vd => on_tipc vd (TipcDev.on_dev TipcDev.tipc_descr_size)))
  (Some (fun vd => on_tipc vd (TipcDev.on_dev TipcDev.tipc_get_vdev_descr)))
  (Some (fun vd descr => on_tipc vd (TipcDev.tipc_dev_probe ns others wait_fuel descr vd thr)))
  (Some (fun vd => on_tipc vd (TipcDev.tipc_dev_reset ns others NO_ERROR NO_ERROR)))
  (Some (fun vd vqid => on_tipc vd (TipcDev.on_dev (TipcDev.tipc_vdev_kick_vq ns vqid)))).

#[local] Instance tipc_vdevs : VirtioBus.Vdevs devs := {
  vdev_at p s := vdev_of <$> d_slots s !! p;
  set_vdev p v s := set_slots (alter (with_vdev v) p (d_slots s)) s;
  ops_of p s := (fun _ => _tipc_dev_ops) <$> d_slots s !! p;
  regions_of := d_regions;
  set_regions := set_regions
}.

(** [DECLARE_TIPC_DEVICE_DESCR(_descr0, 0, 32, 32, "dev0")]: the resource
    header, [fw_rsc_vdev], two [fw_rsc_vdev_vring]s and [tipc_dev_config]. *)
Definition vring_bytes (da align num notifyid reserved : Z) : list Z :=
  TipcDev.bytes32 da ++ TipcDev.bytes32 align ++ TipcDev.bytes32 num ++ TipcDev.bytes32 notifyid ++ TipcDev.bytes32 reserved.
Definition TIPC_MAX_DEV_NAME_LEN : Z := 32.
Definition sizeof_tipc_dev_config : Z := 8 + TIPC_MAX_DEV_NAME_LEN.
Definition tipc_vdev_descr (nid txvq_sz rxvq_sz : Z) (nd_name : list Z) : list Z :=
  TipcDev.bytes32 TipcDev.RSC_VDEV ++
  TipcDev.bytes32 TipcDev.VIRTIO_ID_TIPC ++ TipcDev.bytes32 nid ++ TipcDev.bytes32 0 ++ TipcDev.bytes32 0 ++
  TipcDev.bytes32 sizeof_tipc_dev_config ++ [0; TipcDev.TIPC_VQ_NUM; 0; 0] ++
  vring_bytes 0 PAGE_SIZE txvq_sz 1 0 ++ vring_bytes 0 PAGE_SIZE rxvq_sz 2 0 ++
  TipcDev.bytes32 PAGE_SIZE ++ TipcDev.bytes32 PAGE_SIZE ++
  nd_name ++ replicate (Z.to_nat TIPC_MAX_DEV_NAME_LEN - length nd_name) 0.
Definition _descr0 : list Z := tipc_vdev_descr 0 32 32 [100; 101; 118; 48].

Definition vqueue_zero : Vqueue.vqueue := Vqueue.VQ 0 (Vqueue.Vring 0 0 0 0) 0 0 0 false 0 0 0.
Definition slot_new (g : Z) : tipc_slot :=
  Slot (TipcDev.tipc_device_new _descr0 ZeroUuid g) 0 [vqueue_zero; vqueue_zero] handle_list_init.

#[local] Instance tipc_alloc : TipcConfig.VdevAlloc devs := {
  new_dev g s := p ← calloc (d_slots s); Some (p, set_slots (<[p := slot_new g]> (d_slots s)) s);
  free_dev p s := set_slots (delete p (d_slots s)) s;
  guest_of p s := (fun x => TipcDev.guest (s_dev x)) <$> d_slots s !! p
}.
End Params.
End TipcBus.
