(* ===== verification/TipcBusOk.v ===== *)
(** * The tipc devices keep their promise to the bus *)

From S2P Require Import Prelude Bitmap Iovec MsgQueue Handle Ipc IpcInv HandleList IpcHandle Vqueue TipcDev TipcDevInv.
From S2P Require Import TipcConn TipcWin TipcRx TipcReset VirtioBus VirtioBusInv TipcConfig TipcBus.

Module TipcBusOk.
Import Bitmap Handle Ipc IpcInv HandleList IpcHandle TipcDev TipcDevInv TipcConn TipcWin TipcRx TipcReset.

(** ** Operations that leave identity and descriptor of the device alone *)

Definition same_vd (d d' : tipc_dev) : Prop := devid d' = devid d /\ descr d' = descr d.

Section Keeps.
Context {S : Type} (g : S -> tipc_dev).

Definition keeps {A} (m : M S A) : Prop := forall s a s', m s = Done a s' -> same_vd (g s) (g s').

Lemma same_vd_trans a b c : same_vd a b -> same_vd b c -> same_vd a c.
Proof. intros [? ?] [? ?]. split; congruence. Qed.

Lemma keeps_ret {A} (a : A) : keeps (ret a).
Proof. intros s a' s' [= _ <-]. done. Qed.
Lemma keeps_tret {A} (a : A) : keeps (tret a).
Proof. apply keeps_ret. Qed.
Lemma keeps_get : keeps get.
Proof. intros s a' s' [= _ <-]. done. Qed.
Lemma keeps_gets {A} (f : S -> A) : keeps (gets f).
Proof. intros s a' s' [= _ <-]. done. Qed.
Lemma keeps_deref {A} (o : option A) : keeps (deref o).
Proof. destruct o; [apply keeps_ret|done]. Qed.
Lemma keeps_panic {A} : keeps (panic : M S A).
Proof. done. Qed.
Lemma keeps_assert b : keeps (assert_ b).
Proof. destruct b; [apply keeps_ret|done]. Qed.
Lemma keeps_bind {A B} (m : M S A) (f : A -> M S B) : keeps m -> (forall a, keeps (f a)) -> keeps (bind m f).
Proof.
  intros Hm Hf s b s' Hr. unfold bind in Hr. destruct (m s) as [a s1|] eqn:E; [|done].
  eapply same_vd_trans; [by eapply Hm|by eapply Hf].
Qed.
Lemma keeps_tbind {A B} (m : M S (option A)) (f : A -> M S (option B)) : keeps m -> (forall a, keeps (f a)) -> keeps (tbind m f).
Proof. intros Hm Hf. apply keeps_bind; [done|]. intros [a|]; [apply Hf|apply keeps_ret]. Qed.
Lemma keeps_tlift {A} (m : M S A) : keeps m -> keeps (tlift m).
Proof. intros Hm. apply keeps_bind; [done|]. intros a. apply keeps_tret. Qed.
Lemma keeps_modify f : (forall s, same_vd (g s) (g (f s))) -> keeps (modify f).
Proof. intros Hf s [] s' [= <-]. apply Hf. Qed.
End Keeps.

Notation dkeeps := (keeps w_dev).
Notation lkeeps := (keeps (fun s : W => w_dev s.1)).

Lemma keeps_ipc {A} (m : M heap A) : dkeeps (on_ipc m).
Proof. intros w a w' Hr. unfold on_ipc in Hr. destruct (m _); [|done]. by injection Hr as <- <-. Qed.
Lemma keeps_mem {A} (m : M Iovec.mem A) : dkeeps (on_mem m).
Proof. apply keeps_ipc. Qed.
Lemma keeps_vq {A} i (m : M Vqueue.vst A) : dkeeps (on_vq i m).
Proof. intros w a w' Hr. unfold on_vq in Hr. destruct (w_vqs w !! i); [|done]. destruct (m _); [|done]. by injection Hr as <- <-. Qed.
Lemma keeps_upd f : (forall d, same_vd d (f d)) -> dkeeps (upd_dev f).
Proof. intros Hf. apply keeps_modify. intros s. apply Hf. Qed.
Lemma keeps_on_dev {A} (m : M world A) : dkeeps m -> lkeeps (on_dev m).
Proof.
  intros Hm [w l] a [w' l'] Hr. unfold on_dev, on_obj in Hr. simpl in Hr. destruct (m w) as [b w1|] eqn:E; [|done].
  injection Hr as <- <- <-. by eapply Hm.
Qed.

Create HintDb keeps.
#[export] Hint Resolve keeps_ret keeps_tret keeps_get keeps_gets keeps_deref keeps_panic keeps_assert keeps_ipc keeps_mem keeps_vq : keeps.

Ltac keep := intros; repeat first
  [ solve [auto with keeps]
  | lazymatch goal with
    | |- keeps _ (tbind _ _) => apply keeps_tbind; [|intros]
    | |- keeps _ (bind _ _) => apply keeps_bind; [|intros]
    | |- keeps _ (tlift _) => apply keeps_tlift
    | |- keeps _ (TipcDev.on_dev _) => apply keeps_on_dev
    | |- keeps _ (upd_dev _) => apply keeps_upd; by intros
    | |- keeps _ (modify _) => apply keeps_modify; by intros
    end
  | progress cbn beta | case_match ].

Section Ops.
Context (ns : nat -> Z -> Z) (others : nat -> W -> W) (wait_fuel : nat) `{Vqueue.Platform}.

(** The rest of the system leaves them alone, too. *)
Definition others_keep : Prop := forall n s, same_vd (w_dev s.1) (w_dev (others n s).1).
Context (Hothers : others_keep).

Lemma keeps_wait : lkeeps (event_wait others).
Proof. apply keeps_modify. intros s. exact (Hothers (w_waits s.1) (set_waits (S (w_waits s.1)) s.1, s.2)). Qed.
Hint Resolve keeps_wait : keeps.

Lemma keeps_get_ept i : dkeeps (get_ept i).
Proof. unfold get_ept, get_dev. keep. Qed.
Hint Resolve keeps_get_ept : keeps.

Lemma keeps_get_tx n wait : forall buf, lkeeps (get_tx_buf ns others n wait buf).
Proof. induction n as [|n IH]; intros buf; simpl; [keep|]. unfold get_avail, get_dev. keep; apply IH. Qed.
Hint Resolve keeps_get_tx : keeps.

Lemma keeps_map q l fl gst : dkeeps (map_iovs ns q l fl gst).
Proof. unfold map_iovs. keep. Qed.
Lemma keeps_unmap q l : dkeeps (unmap_iovs ns q l).
Proof. unfold unmap_iovs. keep. Qed.
Hint Resolve keeps_map keeps_unmap : keeps.

Lemma keeps_send local rem cb n wait : (forall dst len, dkeeps (cb dst len)) ->
  lkeeps (tipc_send_data ns others wait_fuel local rem cb n wait).
Proof. intros Hcb. unfold tipc_send_data, get_dev. keep. Qed.

Lemma keeps_send_buf local rem data wait : lkeeps (tipc_send_buf ns others wait_fuel local rem data wait).
Proof. apply keeps_send. unfold send_buf_cb. keep. Qed.

Lemma keeps_undo i : dkeeps (undo_vqs i).
Proof. induction i as [|i IH]; simpl; keep. Qed.

Lemma keeps_init bs priv n : forall i, dkeeps (init_vqs n i bs priv).
Proof. pose proof keeps_undo. induction n as [|n IH]; intros i; simpl; unfold get_dev; keep. Qed.

Lemma keeps_probe bs priv thr : lkeeps (tipc_dev_probe ns others wait_fuel bs priv thr).
Proof. pose proof (keeps_init bs priv). unfold tipc_dev_probe, go_online, get_dev. pose proof keeps_send_buf. keep. Qed.

Lemma keeps_free a : dkeeps (free_local_addr a).
Proof. unfold free_local_addr, get_dev. keep. Qed.

Lemma keeps_drop x : lkeeps (drop_chan x).
Proof.
  unfold drop_chan, handle_list_del, get_list, put_list, set_cookie.
  assert (Hobj : forall m : M world unit, dkeeps m -> lkeeps (on_obj m)) by (intros m; apply keeps_on_dev).
  keep; apply Hobj; simpl; keep.
Qed.

Lemma keeps_close n : forall i, lkeeps (close_loop n i).
Proof. pose proof keeps_drop. pose proof keeps_free. induction n as [|n IH]; intros i; simpl; unfold get_dev; keep. Qed.

Lemma keeps_reset jr jt : lkeeps (tipc_dev_reset ns others jr jt).
Proof. pose proof keeps_close. unfold tipc_dev_reset, get_dev. keep. Qed.

Lemma keeps_kick id : dkeeps (tipc_vdev_kick_vq ns id).
Proof. unfold tipc_vdev_kick_vq. keep. Qed.
End Ops.

(** ** The descriptor that comes back from the other side

    [tipc_dev_probe] takes the number of descriptors of a ring and its
    alignment as they are; the ring is inside its mapping when they are a
    16-bit number and a power of two up to the page size. *)
Definition vring_fits (v : vring_descr) : Prop :=
  0 < vr_num v <= 2 ^ 16 /\ exists k, 0 <= k <= 12 /\ vr_align v = 2 ^ k.
Definition descr_fits (bs : list Z) : Prop := forall i, (i < 2)%nat -> vring_fits (descr_vring bs i).

Section Promise.
Context (base : Z) (ns : nat -> Z -> Z) (others : nat -> W -> W) (wait_fuel : nat) `{Vqueue.Platform}.
Context (Hothers : others_good base others) (Hidle : others_idle base others).
(** Mappings are page-aligned, as they were asked for. *)
Context (Haligned : forall rs pa sz fl va, Vqueue.vmm_alloc_physical rs pa sz fl = inr va -> va mod PAGE_SIZE = 0 /\ va < 2 ^ 63).
Notation good := (good base).

Lemma init_vq_safe i id pa v priv cb g w l (Q : Z -> world -> Prop) : good w l -> (i < 2)%nat -> vring_fits v ->
  (forall r w', good w' l -> Q r w') -> safely (on_vq i (Vqueue.vqueue_init id pa (vr_num v) (vr_align v) priv cb 0 g)) w Q.
Proof.
  intros Hg Hi (Hn & k & Hk & Ha) HQ. destruct (good_vq base w l i Hg Hi) as (q & Hq & Hl & Hr).
  eapply safely_on_vq; [exact Hq|]. unfold Vqueue.vqueue_init, Vqueue.map_physical, bind, modify, gets, safely, ret. simpl.
  destruct (negb _); simpl; [by apply HQ, good_set_vst|].
  destruct (Vqueue.vmm_alloc_physical _ _ _ _) as [e|va] eqn:Ev; simpl; [by apply HQ, good_set_vst|].
  apply HQ, good_set_vst; [done|done|]. split; simpl; [done|]. intros _. eexists. rewrite Ha.
  destruct (Haligned _ _ _ _ _ Ev) as [Hm Hmax]. pose proof (proj1 (Vqueue.vmm_alloc_fresh _ _ _ _ _ Ev)) as Hpos.
  apply Vqueue.vring_layout; [done|lia|lia|].
  apply Z.mod_divide; [apply Z.pow_nonzero; lia|]. apply Z.mod_divide in Hm; [|done].
  eapply Z.divide_trans; [|exact Hm]. exists (2 ^ (12 - k)). rewrite <- Z.pow_add_r by lia. by replace (12 - k + k) with 12 by lia.
Qed.

Lemma undo_safe i : forall w l (Q : unit -> world -> Prop), good w l -> (i <= 2)%nat -> (forall w', good w' l -> Q tt w') ->
  safely (undo_vqs i) w Q.
Proof.
  induction i as [|i IH]; intros w l Q Hg Hi HQ; [by apply HQ|]. simpl. apply safely_bind, runs_safely.
  destruct (good_vq base w l i Hg ltac:(lia)) as (q & Hq & _). eapply destroy_run; [exact Hg|lia|exact Hq|].
  intros s _ _ Hg'. apply (IH _ l); [done|lia|done].
Qed.

Lemma init_safe bs priv n : forall i w l (Q : Z -> world -> Prop), good w l -> (i + n <= 2)%nat -> descr_fits bs ->
  (forall r w', good w' l -> Q r w') -> safely (init_vqs n i bs priv) w Q.
Proof.
  induction n as [|n IH]; intros i w l Q Hg Hi Hd HQ; [by apply HQ|]. simpl. apply safely_bind. unfold safely at 1. simpl.
  apply safely_bind. eapply (init_vq_safe i _ _ (descr_vring bs i)); [exact Hg|lia|apply Hd; lia|]. intros r w1 Hg1.
  destruct (negb (r =? 0)).
  - apply safely_bind. apply (undo_safe i w1 l); [done|lia|]. intros w2 Hg2. by apply safely_ret, HQ.
  - apply (IH (Datatypes.S i) w1 l); [done|lia|done|done].
Qed.

Lemma probe_safe bs priv thr w l (Q : Z -> W -> Prop) : good w l -> descr_fits bs -> (forall r s, good s.1 s.2 -> Q r s) ->
  tsafely (tipc_dev_probe ns others wait_fuel bs priv thr) (w, l) Q.
Proof.
  intros Hg Hd HQ. unfold tipc_dev_probe. apply tsafely_bind. unfold safely at 1. simpl.
  destruct (negb (vstate (w_dev w) =? VDEV_STATE_RESET)); [by apply tsafely_tret, HQ|].
  destruct (negb (validate_descr bs =? NO_ERROR)) eqn:Ev; [by apply tsafely_tret, HQ|].
  assert (Hnum : (0 + Z.to_nat (descr_num_of_vrings bs) <= 2)%nat).
  { unfold validate_descr in Ev. destruct (negb (descr_type bs =? _)); [done|]. destruct (negb (descr_id bs =? _)); [done|].
    destruct (descr_num_of_vrings bs =? TIPC_VQ_NUM) eqn:En; [|done]. apply Z.eqb_eq in En. rewrite En. unfold TIPC_VQ_NUM. lia. }
  apply tsafely_bind, safely_on_dev. apply (init_safe bs priv _ 0 w l); [done|exact Hnum|done|]. intros r w1 Hg1.
  destruct (negb (r =? NO_ERROR)); [by apply tsafely_tret, HQ|].
  apply tsafely_bind. unfold safely at 1. simpl. apply tsafely_bind. unfold safely at 1. simpl.
  set (w2 := set_dev _ (set_dev _ w1)).
  assert (Hg2 : good w2 l).
  { apply (good_upd_dev base (set_dev (set_rx thr.1 (rx_stop (w_dev w1)) (w_dev w1)) w1) l (fun d => set_tx thr.2 (tx_stop d) d)); [|done].
    by apply (good_upd_dev base w1 l (fun d => set_rx thr.1 (rx_stop d) d)). }
  apply tsafely_tbind. unfold go_online. eapply send_buf_safe; [exact Hothers|exact Hg2|done|]. intros r1 [w3 l3] Hg3.
  apply tsafely_bind. destruct (r1 =? NO_ERROR); unfold safely at 1; simpl; apply tsafely_tret, HQ; [|done].
  by apply (good_upd_dev base w3 l3 (set_vstate VDEV_STATE_ACTIVE)).
Qed.

Lemma reset_safe w l (Q : Z -> W -> Prop) : good w l -> (forall r s, good s.1 s.2 -> Q r s) ->
  runs (tipc_dev_reset ns others NO_ERROR NO_ERROR) (w, l) Q.
Proof.
  intros Hg HQ. destruct (decide (vstate (w_dev w) = VDEV_STATE_RESET)) as [E|E].
  - unfold tipc_dev_reset. apply runs_bind. unfold runs at 1. simpl. rewrite E. by apply HQ.
  - pose proof (reset_run base ns others Hothers Hidle NO_ERROR NO_ERROR w l Q Hg E) as H1.
    specialize (H1 (fun s Hs => HQ _ s (proj1 Hs))). unfold ends in H1. unfold runs.
    destruct (tipc_dev_reset _ _ _ _ _); [apply H1|by destruct H1].
Qed.

Lemma kick_safe id w l (Q : Z -> world -> Prop) : good w l -> (forall r w', good w' l -> Q r w') ->
  runs (tipc_vdev_kick_vq ns id) w Q.
Proof.
  intros Hg HQ. destruct (good_vq base w l TIPC_VQ_TX Hg) as (tx & Htx & Hwt); [exact tx_lt|].
  destruct (good_vq base w l TIPC_VQ_RX Hg) as (rx & Hrx & Hwr); [exact rx_lt|].
  assert (Hn : forall i q, (i < 2)%nat -> w_vqs w !! i = Some q -> Vqueue.ring_wf q ->
    runs (on_vq i (Vqueue.vqueue_notify (vq_notify_cb ns))) w Q).
  { intros i q Hi Hq Hwf. unfold runs, on_vq. rewrite Hq. unfold Vqueue.vqueue_notify, vq_notify_cb, Vqueue.vqueue_signal_avail, bind, gets, ret. simpl.
    destruct (negb (Vqueue.notify_cb q =? 0)); simpl; [|by apply HQ, good_set_vst].
    destruct (negb _); simpl; by apply HQ, good_set_vst. }
  unfold tipc_vdev_kick_vq. apply runs_bind. unfold runs at 1. simpl. apply runs_bind. eapply runs_deref; [exact Htx|].
  destruct (id =? Vqueue.vq_id tx); [by apply (Hn TIPC_VQ_TX tx tx_lt)|].
  apply runs_bind. eapply runs_deref; [exact Hrx|]. destruct (id =? Vqueue.vq_id rx); [by apply (Hn TIPC_VQ_RX rx rx_lt)|by apply HQ].
Qed.
End Promise.

(** ** The promise *)

Section Bus.
Context (base : Z -> Z) (ns : nat -> Z -> Z) (others : nat -> W -> W) (wait_fuel : nat) `{Vqueue.Platform}.
Context (thr : option Z * option Z) (calloc : gmap Z TipcBus.tipc_slot -> option Z).
Context (Hothers : forall p, others_good (base p) others) (Hidle : forall p, others_idle (base p) others) (Hkeep : others_keep others).
Context (Haligned : forall rs pa sz fl va, Vqueue.vmm_alloc_physical rs pa sz fl = inr va -> va mod PAGE_SIZE = 0 /\ va < 2 ^ 63).
Import TipcBus.
#[local] Instance vdevs : VirtioBus.Vdevs devs := tipc_vdevs ns others wait_fuel thr.
#[local] Instance valloc : TipcConfig.VdevAlloc devs := tipc_alloc ns others wait_fuel thr calloc.

(** At most one device, and it is consistent. *)
Definition one_good (s : devs) : Prop :=
  (forall p q, is_Some (d_slots s !! p) -> is_Some (d_slots s !! q) -> p = q) /\
  (forall p x, d_slots s !! p = Some x -> good (base p) (view x s).1 (view x s).2).

Definition descr_written (p : Z) (s : devs) : list Z :=
  match d_slots s !! p with
  | None => []
  | Some x => list_inserts off_notifyid (bytes32 (TipcDev.devid (s_dev x))) (descr (s_dev x))
  end.

Lemma written_len p s : length (descr_written p s) = length (default [] ((fun x => descr (s_dev x)) <$> d_slots s !! p)).
Proof. unfold descr_written. destruct (d_slots s !! p); [|done]. apply length_inserts. Qed.

Lemma back_good p x w s : d_slots s !! p = Some x -> one_good s -> good (base p) w.1 w.2 -> one_good (back p x w s).
Proof.
  intros Hx [Hone _] Hg.
  assert (Hin : forall q, is_Some (d_slots (back p x w s) !! q) -> is_Some (d_slots s !! q)).
  { intros q. simpl. destruct (decide (p = q)) as [<-|]; [by eexists|]. by rewrite lookup_insert_ne. }
  split.
  - intros q r Hq Hr. apply Hone; by apply Hin.
  - intros q y Hy. assert (q = p) as ->.
    { destruct (decide (q = p)) as [|Hne]; [done|]. simpl in Hy. rewrite lookup_insert_ne in Hy by done. apply Hone; by eexists. }
    simpl in Hy. rewrite lookup_insert_eq in Hy. injection Hy as <-. unfold view, back. simpl. destruct w as [w l]. by destruct w.
Qed.

Lemma back_same p x w s : d_slots s !! p = Some x -> same_vd (s_dev x) (w_dev w.1) ->
  VirtioBusInv.same_vdevs descr_written s (back p x w s).
Proof.
  intros Hx [Hid Hde] q. rewrite !written_len. simpl. destruct (decide (p = q)) as [<-|Hne].
  - rewrite lookup_insert_eq, Hx. simpl. unfold vdev_of. simpl. by rewrite Hid, Hde.
  - rewrite lookup_insert_ne by done. done.
Qed.

Lemma on_tipc_runs {A} p x (m : M W A) s : d_slots s !! p = Some x -> one_good s -> keeps (fun s : W => w_dev s.1) m ->
  runs m (view x s) (fun _ w => good (base p) w.1 w.2) ->
  runs (on_tipc p m) s (fun _ s' => one_good s' /\ VirtioBusInv.same_vdevs descr_written s s').
Proof.
  intros Hx Hs Hk Hm. unfold runs, on_tipc in *. rewrite Hx. destruct (m (view x s)) as [a w|] eqn:E; [|done].
  split; [by apply back_good|]. apply back_same; [done|]. by apply (Hk _ _ _ E).
Qed.

Lemma on_tipc_tsafely {A} p x (m : M W (option A)) s : d_slots s !! p = Some x -> one_good s -> keeps (fun s : W => w_dev s.1) m ->
  tsafely m (view x s) (fun _ w => good (base p) w.1 w.2) ->
  tsafely (on_tipc p m) s (fun _ s' => one_good s' /\ VirtioBusInv.same_vdevs descr_written s s').
Proof.
  intros Hx Hs Hk Hm. unfold tsafely, safely, on_tipc in *. rewrite Hx. destruct (m (view x s)) as [[a|] w|] eqn:E; [|done|done].
  split; [by apply back_good|]. apply back_same; [done|]. by apply (Hk _ _ _ E).
Qed.

Lemma back_view p x s : d_slots s !! p = Some x -> back p x (view x s) s = s.
Proof. intros Hx. unfold back, view. simpl. destruct x, s. simpl in *. f_equal. by apply insert_id. Qed.

#[local] Instance tipc_vdevs_ok : VirtioBusInv.VdevsOk devs.
Proof.
  refine {| VirtioBusInv.dev_inv := one_good; VirtioBusInv.descr_of := descr_written; VirtioBusInv.probe_ok := descr_fits |}.
  - intros p v v0 s Hv. simpl in *. rewrite lookup_alter_eq. destruct (d_slots s !! p); [by destruct v|done].
  - intros p q v s Hne. simpl. by rewrite lookup_alter_ne.
  - intros p q v s. simpl. destruct (decide (p = q)) as [<-|]; [|by rewrite lookup_alter_ne]. rewrite lookup_alter_eq. by destruct (d_slots s !! p).
  - done.
  - done.
  - done.
  - done.
  - intros p q v s. rewrite !written_len. simpl. destruct (decide (p = q)) as [<-|]; [|by rewrite lookup_alter_ne].
    rewrite lookup_alter_eq. by destruct (d_slots s !! p).
  - done.
  - intros p v s [Hone Hg]. split.
    + intros q r Hq Hr. simpl in Hq, Hr. rewrite lookup_alter_is_Some in Hq, Hr. by apply Hone.
    + intros q y Hy. simpl in Hy. destruct (decide (p = q)) as [<-|]; [|rewrite lookup_alter_ne in Hy by done; by apply Hg].
      rewrite lookup_alter_eq in Hy. destruct (d_slots s !! p) as [x|] eqn:Hx; [|done]. injection Hy as <-.
      exact (good_upd_dev (base p) (view x s).1 (view x s).2 (set_devid (VirtioBus.devid v)) (Hg p x Hx) (fun d => conj eq_refl eq_refl)).
  - intros r s [Hone Hg]. split; [done|]. intros p x Hx. specialize (Hg p x Hx). simpl in *. destruct Hg as [Hd Hv]. split; [|done].
    by apply (dev_ok_same (base p) (view x s).1).
  - intros p o s Hs Ho _. simpl in Ho. destruct (d_slots s !! p) as [x|] eqn:Hx; [|done]. injection Ho as <-.
    pose proof (proj2 Hs p x Hx) as Hg. split; (eexists; split; [reflexivity|]).
    + unfold on_tipc. rewrite written_len, Hx. change (Done (Z.of_nat (length (descr (s_dev x)))) (back p x (view x s) s) = Done (Z.of_nat (length (descr (s_dev x)))) s).
      by rewrite back_view.
    + unfold on_tipc. rewrite written_len. unfold descr_written. rewrite Hx. set (bs := list_inserts _ _ _).
      change (Done (bs, Z.of_nat (length (descr (s_dev x)))) (back p x (view x s) s) = Done (bs, Z.of_nat (length (descr (s_dev x)))) s).
      by rewrite back_view.
    + intros bs Hbs. apply (on_tipc_tsafely p x); [done|done|by apply keeps_probe|]. by apply (probe_safe (base p)).
    + apply (on_tipc_runs p x); [done|done|by apply keeps_reset|]. by apply (reset_safe (base p)).
    + intros id. apply (on_tipc_runs p x); [done|done|apply keeps_on_dev, keeps_kick|]. apply runs_on_dev. by apply (kick_safe (base p) ns id _ (view x s).2).
Defined.

(** ... and so does the allocation, for any number of guests. *)
Context (Hcalloc : forall m p, calloc m = Some p -> p <> 0 /\ m !! p = None).
#[local] Instance tipc_alloc_ok : TipcConfig.VdevAllocOk devs.
Proof.
  assert (Hnew : forall g s p s', TipcConfig.new_dev g s = Some (p, s') ->
    calloc (d_slots s) = Some p /\ s' = set_slots (<[p := slot_new g]> (d_slots s)) s).
  { intros g s p s' Hn. simpl in Hn. destruct (calloc (d_slots s)); [|done]. by injection Hn as <- <-. }
  split.
  - intros g s p s' Hn. apply Hnew in Hn as [Hc ->]. destruct (Hcalloc _ _ Hc) as [Hp Hf]. simpl. by rewrite Hf.
  - intros g s p s' Hn. apply Hnew in Hn as [Hc ->]. simpl. by rewrite lookup_insert_eq.
  - intros g s p s' Hn. apply Hnew in Hn as [Hc ->]. simpl. rewrite lookup_insert_eq. eexists. split; reflexivity.
  - intros g s p s' Hn. apply Hnew in Hn as [Hc ->]. simpl. by rewrite lookup_insert_eq.
  - intros g s p s' q Hn Hq. apply Hnew in Hn as [Hc ->]. unfold VirtioBusInv.same_at. simpl. unfold descr_written. simpl.
    by rewrite !lookup_insert_ne by done.
  - intros p q v s. simpl. destruct (decide (p = q)) as [<-|]; [|by rewrite lookup_alter_ne]. rewrite lookup_alter_eq. by destruct (d_slots s !! p).
Defined.
End Bus.
End TipcBusOk.
