(* ===== verification/TipcBusDemo.v ===== *)
(** * The first guest with its device, and the theorems on it *)

From S2P Require Import Prelude Bitmap Ipc IpcInv IpcDemo HandleList IpcHandle Vqueue TipcDev TipcDevInv.
From S2P Require Import TipcWin TipcRx TipcReset TipcDevDemo VirtioBus VirtioBusInv VirtioDescr VirtioCalls VirtioStates TipcConfig TipcBus TipcBusOk.

Module TipcBusDemo.
Import Ipc IpcInv IpcDemo HandleList IpcHandle TipcDev TipcDevInv TipcWin TipcRx TipcReset TipcDevDemo.
Import VirtioBus VirtioBusInv VirtioDescr VirtioCalls VirtioStates TipcConfig TipcBus TipcBusOk.

(** A mapping is granted at the page that belongs to its address, once. *)
Definition page_of (pa : Z) : Z := PAGE_SIZE * (1 + Z.abs pa / PAGE_SIZE).
#[local] Program Instance page_platform : Vqueue.Platform := {|
  Vqueue.trusty_hyp_check_guest_pa_valid pa _ _ := if pa =? 0x9000 then ERR_INVALID_ARGS else NO_ERROR;
  Vqueue.vmm_alloc_physical rs pa _ _ :=
    if 2 ^ 63 <=? page_of pa then inl ERR_NO_MEMORY
    else match rs !! page_of pa with None => inr (page_of pa) | Some _ => inl ERR_NO_MEMORY end
|}.
Next Obligation. intros rs pa sz fl e. simpl. destruct (_ <=? _); [by intros [= <-]|]. by destruct (rs !! _); intros [= <-]. Qed.
Next Obligation.
  intros rs pa sz fl va. simpl. destruct (_ <=? _); [done|]. destruct (rs !! page_of pa) eqn:E; intros [= <-]. split; [|done].
  unfold page_of, PAGE_SIZE. pose proof (Z.div_pos (Z.abs pa) 4096). lia.
Qed.

Lemma page_aligned rs pa sz fl va : Vqueue.vmm_alloc_physical rs pa sz fl = inr va -> va mod PAGE_SIZE = 0 /\ va < 2 ^ 63.
Proof.
  simpl. destruct (_ <=? _) eqn:E; [done|]. zbool. destruct (rs !! page_of pa); intros [= <-]. split; [|done].
  unfold page_of. by rewrite Z.mul_comm, Z.mod_mul.
Qed.

(** Devices are allocated one after another. *)
Definition calloc (m : gmap Z tipc_slot) : option Z :=
  let p := 0x10000 * (1 + Z.of_nat (size m)) in match m !! p with None => Some p | Some _ => None end.

Lemma calloc_ok m p : calloc m = Some p -> p <> 0 /\ m !! p = None.
Proof. unfold calloc. destruct (m !! _) eqn:E; intros [= <-]. split; [lia|done]. Qed.

Definition base_of (p : Z) : Z := p + 0x100.

(** The other side and the rest of the system are quiet. *)
Definition zeros (n : nat) (a : Z) : Z := 0.

Lemma nobody_good b : others_good b nobody.
Proof. by intros n w l. Qed.
Lemma nobody_idle b : others_idle b nobody.
Proof. by intros n w l Hg. Qed.
Lemma nobody_keep : others_keep nobody.
Proof. by intros n s. Qed.

#[local] Instance demo_vdevs : Vdevs devs := vdevs zeros nobody 1 (Some 1, Some 2).
#[local] Instance demo_alloc : VdevAlloc devs := valloc zeros nobody 1 (Some 1, Some 2) calloc.
#[local] Instance demo_ok : VdevsOk devs :=
  tipc_vdevs_ok base_of zeros nobody 1 (Some 1, Some 2) (fun p => nobody_good (base_of p)) (fun p => nobody_idle (base_of p)) nobody_keep page_aligned.
#[local] Instance demo_alloc_ok : VdevAllocOk devs :=
  tipc_alloc_ok base_of zeros nobody 1 (Some 1, Some 2) calloc (fun p => nobody_good (base_of p)) (fun p => nobody_idle (base_of p)) nobody_keep page_aligned calloc_ok.

(** The system before and after [tipc_init]. *)
Definition w_boot : VirtioBus.world devs := VirtioBus.World ctx_init (Devs demo [] ∅ [] 0 ∅) [].
Definition w_init : VirtioBus.world devs := VirtioBus.World (Ctx 1 (Bus 1 1 0 VIRTIO_BUS_STATE_UNINITIALIZED [0x10000]) None)
  (Devs demo [] ∅ [] 0 {[0x10000 := slot_new 0]}) [].

Example tipc_init_boots : tipc_init w_boot = Done tt w_init.
Proof. reflexivity. Qed.

Lemma zero_ring_wf : Vqueue.ring_wf vqueue_zero.
Proof. split; [done|]. by intros []. Qed.

Lemma w_init_ok : buses_ok w_init.
Proof.
  assert (Hat : forall g b, 0 <= g -> bus_at g (w_ctx w_init) = Some b -> g = 0 /\ b = Bus 1 1 0 VIRTIO_BUS_STATE_UNINITIALIZED [0x10000]).
  { intros g b Hg. unfold bus_at. simpl. destruct (0 <? g) eqn:E; [done|]. zbool. intros [= <-]. split; [lia|done]. }
  split; [split|split].
  - intros p q [x Hx] [y Hy]. simpl in *. apply lookup_singleton_Some in Hx as [<- _]. by apply lookup_singleton_Some in Hy as [<- _].
  - intros p x Hx. simpl in Hx. apply lookup_singleton_Some in Hx as [<- <-]. split; [apply new_dev_ok, demo_inv|].
    exists vqueue_zero, vqueue_zero. split_and!; [done|apply zero_ring_wf..].
  - intros g b Hg Hb. apply Hat in Hb as [_ ->]; [|done]. split; simpl; try done.
    + apply NoDup_singleton.
    + apply Forall_singleton. split; [done|]. split; [by eexists|]. eexists. split; reflexivity.
  - intros g g' b b' p Hg Hg' Hb Hb' _ _. apply Hat in Hb as [-> _]; [|done]. by apply Hat in Hb' as [-> _].
  - intros g Hg. unfold guest_ok, bus_at. simpl. destruct (0 <? g); [by rewrite andb_false_r|by eexists].
Qed.

(** The table of the first guest has one descriptor of 108 bytes behind a
    header of 20, at a page of the other side. *)
Lemma virtio_get_description_table_witness : exists w' buf,
  virtio_get_description (fun _ => 7) 0x80000000 4096 0 0 w_init = Done 128 w' /\ w_sent w' = [(0x80000000, buf)] /\
  parse_table [108%nat] buf = (1, 1, [_descr0]).
Proof.
  pose proof (virtio_get_description_table (fun _ => 7) w_init 0 _ 0x80000000 4096 0 w_init_ok ltac:(lia) eq_refl eq_refl ltac:(vm_compute; reflexivity)) as H.
  destruct (proj1 (runs_done _ _ _) H) as (r & w' & Hrun & _ & Hd).
  assert (Hw : match virtio_get_description (fun _ => 7) 0x80000000 4096 0 0 w_init with
               | Done _ w => descrs [0x10000] (w_devs w) = [_descr0] /\ granted 0x80000000 128 0 0 (w_devs w) = true | Crash _ => False end)
    by (vm_compute; split; reflexivity).
  rewrite Hrun in Hw. destruct Hw as [Hds Hgr]. simpl vdev_list in Hd. rewrite Hds in Hd.
  replace (table_len [_descr0]) with 128 in Hd by (vm_compute; reflexivity). rewrite Hgr in Hd.
  destruct Hd as (buf & -> & Hs & Hp & _). exists w', buf. split; [exact Hrun|]. split; [exact Hs|]. exact Hp.
Defined.


Lemma tipc_hyp_init_guests_witness : exists w', tipc_hyp_init true 3 w_init = Done NO_ERROR w' /\ guests_up 3 w_init w'.
Proof.
  pose proof (tipc_hyp_init_guests w_init true 3 (w_wf _ w_init_ok) eq_refl) as H.
  destruct (proj1 (runs_done _ _ _) H) as (r & w' & Hrun & Hcase). exists w'.
  assert (Hr : match tipc_hyp_init true 3 w_init with Done r _ => r | Crash _ => -1 end = NO_ERROR) by (vm_compute; reflexivity).
  rewrite Hrun in Hr. subst r. split; [exact Hrun|]. destruct Hcase as [[_ Hup]|[Hno _]]; [exact Hup|discriminate Hno].
Defined.

(** ** What the code does beside *)

(** A second device of the first guest is counted as a guest: guest 1 then
    passes the check without having a bus, and its calls reach behind the
    array. *)
Example counted_guest : match (tipc_init ;;; alloc_guest_virtio_bus true 0 ;;; virtio_register_device 0x10000 0 ;;; virtio_stop 0 0 0 1) w_boot with
  Crash BadAccess => True | _ => False end.
Proof. vm_compute. exact I. Qed.

(** The alignment of a ring comes from the other side unchecked.  With 0 the
    used ring is at address 0, and returning a buffer writes there. *)
Lemma used_ring_null n p : Vqueue.used (Vqueue.vring_init n p 0) = 0.
Proof. apply Z.land_0_r. Qed.

Example null_used_ring :
  match (Vqueue.vqueue_init 1 0x80000000 4 0 0 1 0 0 ;;; Vqueue.vqueue_add_buf (fun _ _ => 0) (Vqueue.VqBuf 0 (Vqueue.Iovs 0 0 0 [] []) (Vqueue.Iovs 0 0 0 [] [])) 8)
    (Vqueue.Vst vqueue_zero [] ∅) with
  | Done r s => r = NO_ERROR /\ Vqueue.Wr 4 4 0 ∈ Vqueue.trace s
  | Crash _ => False
  end.
Proof. vm_compute. split; [reflexivity|]. do 3 right. left. Qed.

(** While [virtio_start] waits for the other side to offer a buffer, every
    other start and stop of the bus is refused.  The table that comes back has
    the status of a ready driver, and the second ring at another page. *)
Definition ready_table : list Z := VirtioDescr.resource_table [<[24%nat := 7]> (<[50%nat := 0x10]> _descr0)].
Definition ready_start : bus_call := VirtioStart (fun i => nth (Z.to_nat i) ready_table 0) true 0x80000000 128 0.
Definition after_start (c : bus_call) : option (option Z) :=
  match (exec 0 (GetDescription (fun _ => 0) 0x80000000 4096 0) ;;; exec 0 ready_start ;;; exec 0 c) w_init with
  | Done o _ => Some o
  | Crash _ => None
  end.

Example start_waits_refuses :
  match (exec 0 (GetDescription (fun _ => 0) 0x80000000 4096 0) ;;; exec 0 ready_start) w_init with Done None _ => True | _ => False end /\
  after_start ready_start = Some (Some ERR_BAD_STATE) /\ after_start (VirtioStop 0 0 0) = Some (Some ERR_BAD_STATE) /\
  after_start (KickVq 0 1) = Some (Some ERR_BAD_STATE).
Proof. vm_compute. split; [exact I|]. split; [reflexivity|]. split; reflexivity. Qed.
End TipcBusDemo.
