(* ===== verification/NsDram.v ===== *)
(** * The memory of the non-secure world

    [tegra_common/common_platform.c], [hyp_stubs.c]: the ranges of DRAM that
    the boot loader reports once, in a table in its own memory, and the check
    of an address range against them. *)

From S2P Require Import Prelude SmCall Vqueue.

Module NsDram.

(** [tos_ns_mem_map_entry_t], and [platform_ctx] with [platform_state]. *)
Record entry := Entry { base : Z; size : Z }.
Record platform := Plat {
  bootstrap_done : bool;
  ns_dram_range_available : bool;
  ns_dram_map_list : list entry;
  regions : Vqueue.kregions;
  reads : nat                (* loads from the table so far *)
}.

Definition platform_ctx_init : platform := Plat false false [] ∅ 0.

Definition set_available (x : bool) (p : platform) : platform :=
  Plat (bootstrap_done p) x (ns_dram_map_list p) (regions p) (reads p).
Definition set_list (x : list entry) (p : platform) : platform :=
  Plat (bootstrap_done p) (ns_dram_range_available p) x (regions p) (reads p).
Definition set_regions (x : Vqueue.kregions) (p : platform) : platform :=
  Plat (bootstrap_done p) (ns_dram_range_available p) (ns_dram_map_list p) x (reads p).
Definition set_reads (x : nat) (p : platform) : platform :=
  Plat (bootstrap_done p) (ns_dram_range_available p) (ns_dram_map_list p) (regions p) x.

Definition platform_is_bootstrapping : M platform bool := gets (fun p => negb (bootstrap_done p)).
Definition platform_bootstrap_epilog : M platform unit :=
  modify (fun p => Plat true (ns_dram_range_available p) (ns_dram_map_list p) (regions p) (reads p)).

(** [hyp_stubs.c]: without a hypervisor every guest address is fine. *)
Definition trusty_hyp_is_ctx_available : bool := false.
Definition trusty_hyp_check_guest_pa_valid (buf_pa_start buf_size guest : Z) : Z := NO_ERROR.

Definition TOS_NS_MEM_MAP_MAGIC_VALUE : Z := 0xfeedbeef.
Definition TOS_NS_MEM_MAP_CUR_VERSION : Z := 1.
(** The packed [tos_ns_mem_map_t]: magic, version, number, two reserved bytes,
    and the entries. *)
Definition off_magic : Z := 0.
Definition off_ver : Z := 4.
Definition off_num : Z := 8.
Definition off_mappings : Z := 14.
Definition sizeof_entry : Z := 16.

(** ** The check *)

Definition platform_validate_range (bound_base bound_size test_base test_size : Z) : bool :=
  (bound_base <=? test_base) && (test_size <=? bound_size) && (u64 (test_base - bound_base) <=? u64 (bound_size - test_size)).

Fixpoint validate_loop (l : list entry) (ns_addr ns_size : Z) : Z :=
  match l with
  | [] => ERR_NOT_VALID
  | e :: l => if platform_validate_range (base e) (size e) ns_addr ns_size then NO_ERROR else validate_loop l ns_addr ns_size
  end.

(** [hyp]: the answer of [trusty_hyp_is_ctx_available]. *)
Definition platform_validate_ns_phys_range (hyp : bool) (ns_addr ns_size : Z) : M platform Z :=
  if hyp then ret NO_ERROR
  else
    p <- get ;;
    if negb (ns_dram_range_available p) then ret ERR_NOT_CONFIGURED
    else ret (validate_loop (ns_dram_map_list p) ns_addr ns_size).

(** ** Registration *)

Section Register.
(** [ns n a]: the byte that the [n]-th load finds at offset [a] of the mapped
    pages. *)
Context (ns : nat -> Z -> Z) `{Vqueue.Platform}.

Definition le (bs : list Z) : Z := foldr (fun b acc => b + 256 * acc) 0 bs.

(** A load of [n] bytes at offset [off] of the mapping at [va]. *)
Definition load (va off : Z) (n : nat) : M platform Z :=
  p <- get ;;
  match regions p !! va with
  | Some (_, sz, _) =>
      if off + Z.of_nat n <=? sz then
        put (set_reads (Datatypes.S (reads p)) p) ;;;
        ret (le ((fun i => u8 (ns (reads p) (off + Z.of_nat i))) <$> seq 0 n))
      else bad_access
  | None => bad_access
  end.

(** The loop from [map_index]; [mem] says whether the allocations succeed.  The
    number of entries is loaded anew for every turn. *)
Fixpoint register_loop (fuel : nat) (mem : Z -> bool) (va offset map_index : Z) : M platform (option Z) :=
  match fuel with
  | O => ret None
  | Datatypes.S fuel =>
      num <- load va (offset + off_num) 4 ;;
      if map_index <? num then
        if mem map_index then
          b <- load va (offset + off_mappings + sizeof_entry * map_index) 8 ;;
          s <- load va (offset + off_mappings + sizeof_entry * map_index + 8) 8 ;;
          modify (fun p => set_list (ns_dram_map_list p ++ [Entry b s]) p) ;;;
          register_loop fuel mem va offset (u32 (map_index + 1))
        else
          modify (set_list []) ;;; tret ERR_NO_MEMORY
      else
        modify (set_available true) ;;; tret NO_ERROR
  end.

(** From the sanity checks of the mapped table to the label [lbl_free_vmm]. *)
Definition read_table (fuel : nat) (mem : Z -> bool) (va offset : Z) : M platform (option Z) :=
  magic <- load va (offset + off_magic) 4 ;;
  if negb (magic =? TOS_NS_MEM_MAP_MAGIC_VALUE) then tret ERR_INVALID_ARGS
  else
    ver <- load va (offset + off_ver) 4 ;;
    if negb (ver =? TOS_NS_MEM_MAP_CUR_VERSION) then tret ERR_INVALID_ARGS
    else register_loop fuel mem va offset 0.

Definition DRAM_FLAGS : Z :=
  Z.lor (Z.lor (Z.lor SmCall.ARCH_MMU_FLAG_NS SmCall.ARCH_MMU_FLAG_PERM_NO_EXECUTE) SmCall.ARCH_MMU_FLAG_CACHED) SmCall.ARCH_MMU_FLAG_PERM_RO.

Definition platform_register_ns_dram_ranges (fuel : nat) (mem : Z -> bool) (ns_base ns_size : Z) : M platform (option Z) :=
  p <- get ;;
  if ns_dram_range_available p then tret ERR_ALREADY_EXISTS
  else
    let offset := Z.land ns_base (PAGE_SIZE - 1) in
    let aligned_addr := ROUNDDOWN ns_base PAGE_SIZE in
    let aligned_size := ROUNDUP (u64 (ns_size + offset)) PAGE_SIZE in
    match Vqueue.vmm_alloc_physical (regions p) aligned_addr aligned_size DRAM_FLAGS with
    | inl e => tret e
    | inr va =>
        put (set_regions (<[va := (aligned_addr, aligned_size, DRAM_FLAGS)]> (regions p)) p) ;;;
        r <~ read_table fuel mem va offset ;;
        modify (fun p => set_regions (delete va (regions p)) p) ;;;
        tret r
    end.
End Register.

(** ** The check is interval inclusion

    Nothing wraps: the comparisons before the subtractions see to it. *)

Definition included (b n : Z) (e : entry) : Prop := base e <= b /\ b + n <= base e + size e.

Definition u64_range (x : Z) : Prop := 0 <= x < 2 ^ 64.
Definition entry_ok (e : entry) : Prop := u64_range (base e) /\ u64_range (size e).

(** Before the registration nothing is listed; what is listed are pairs of
    64-bit numbers. *)
Definition ns_wf (p : platform) : Prop :=
  (ns_dram_range_available p = false -> ns_dram_map_list p = []) /\ Forall entry_ok (ns_dram_map_list p).

Lemma validate_range_spec e b n : entry_ok e -> u64_range b -> u64_range n ->
  platform_validate_range (base e) (size e) b n = true <-> included b n e.
Proof.
  unfold entry_ok, u64_range, platform_validate_range, included. intros [He1 He2] Hb Hn.
  rewrite !andb_true_iff, !Z.leb_le. split.
  - intros [[H1 H2] H3]. unfold u64 in H3. rewrite !uwrap_small in H3 by lia. lia.
  - intros [H1 H2]. unfold u64. rewrite !uwrap_small by lia. lia.
Qed.

Lemma validate_loop_spec l b n : Forall entry_ok l -> u64_range b -> u64_range n ->
  validate_loop l b n = NO_ERROR /\ Exists (included b n) l \/
  validate_loop l b n = ERR_NOT_VALID /\ ~ Exists (included b n) l.
Proof.
  intros Hl Hb Hn. induction Hl as [|e l He Hl IH]; cbn [validate_loop].
  { right. split; [done|]. by intros ?%Exists_nil. }
  destruct (platform_validate_range _ _ _ _) eqn:Ev.
  - left. split; [done|]. constructor. by apply validate_range_spec.
  - rewrite Exists_cons.
    assert (~ included b n e) by (intros Hi%validate_range_spec; [congruence|done..]).
    tauto.
Qed.

(** C32: Without a hypervisor [platform_validate_ns_phys_range] accepts a range
    exactly when a registered range contains it, as an inclusion of intervals of unbounded
    integers: the 64-bit comparisons of [platform_validate_range] neither miss
    a range that wraps nor refuse one that ends at the top.  Before the registration it
    answers [ERR_NOT_CONFIGURED], otherwise [ERR_NOT_VALID]; the state stays. *)
Theorem validate_ns_phys_range_inclusion p b n :
  ns_wf p -> u64_range b -> u64_range n ->
  exists r, platform_validate_ns_phys_range trusty_hyp_is_ctx_available b n p = Done r p /\
    (r = NO_ERROR <-> ns_dram_range_available p = true /\ Exists (included b n) (ns_dram_map_list p)) /\
    (r <> NO_ERROR -> r = if ns_dram_range_available p then ERR_NOT_VALID else ERR_NOT_CONFIGURED).
Proof.
  intros [_ Hl] Hb Hn. unfold platform_validate_ns_phys_range, trusty_hyp_is_ctx_available, bind, get.
  destruct (ns_dram_range_available p); cbn [negb].
  - eexists. split; [done|].
    destruct (validate_loop_spec (ns_dram_map_list p) b n) as [[-> He]|[-> He]]; try done.
    split; [|done]. split; [done|tauto].
  - exists ERR_NOT_CONFIGURED. split; [done|]. split; [|done]. by split; [|intros []].
Qed.

(** ** Registration is all or nothing *)

(** [m] ends as [Q] says, or loads beyond the end of the mapping, which it
    does only if [ok] does not hold. *)
Definition or_faults {S A} (ok : Prop) (m : M S A) (s : S) (Q : A -> S -> Prop) : Prop :=
  match m s with
  | Done a s' => Q a s'
  | Crash w => w = BadAccess /\ ~ ok
  end.

Lemma or_faults_bind {S A B} ok (m : M S A) (f : A -> M S B) s Q Q' :
  or_faults ok m s Q -> (forall a s', Q a s' -> or_faults ok (f a) s' Q') -> or_faults ok (bind m f) s Q'.
Proof. unfold or_faults, bind. intros Hm Hf. destruct (m s) as [a s'|w]; [by apply Hf|done]. Qed.

Lemma or_faults_tbind {S A B} ok (m : M S (option A)) (f : A -> M S (option B)) s Q Q' :
  or_faults ok m s Q -> (forall r s', Q r s' -> exists a, r = Some a /\ or_faults ok (f a) s' Q') -> or_faults ok (tbind m f) s Q'.
Proof.
  intros Hm Hf. eapply or_faults_bind; [done|]. intros r s' HQ. by destruct (Hf r s' HQ) as (a & -> & Ha).
Qed.

Lemma or_faults_mono {S A} ok (m : M S A) s (Q Q' : A -> S -> Prop) :
  or_faults ok m s Q -> (forall a s', Q a s' -> Q' a s') -> or_faults ok m s Q'.
Proof. unfold or_faults. intros Hm HQ. destruct (m s); auto. Qed.

Lemma le_range bs : Forall (fun b => 0 <= b < 256) bs -> 0 <= le bs < 256 ^ Z.of_nat (length bs).
Proof.
  induction 1 as [|b bs Hb Hbs IH]; [done|]. cbn [le foldr length]. fold (le bs).
  rewrite Nat2Z.inj_succ, Z.pow_succ_r by lia. lia.
Qed.

Lemma le_u8_range (f : nat -> Z) n : 0 <= le ((fun i => u8 (f i)) <$> seq 0 n) < 256 ^ Z.of_nat n.
Proof.
  pose proof (le_range ((fun i => u8 (f i)) <$> seq 0 n)) as Hr.
  rewrite length_fmap, length_seq in Hr. apply Hr, Forall_fmap, Forall_forall.
  intros i _. apply (uwrap_range 8). lia.
Qed.

Section RegisterProofs.
Context (ns : nat -> Z -> Z) `{Vqueue.Platform}.

(** What the [k]-th load finds there, when it loads [n] bytes. *)
Definition found (k : nat) (off : Z) (n : nat) : Z := le ((fun i => u8 (ns k (off + Z.of_nat i))) <$> seq 0 n).

(** The mapping of [sz] bytes holds the head of the table, and as many entries
    as the table names at any moment. *)
Definition table_fits (sz off : Z) : Prop :=
  off + off_num + 4 <= sz /\ forall k, off + off_mappings + sizeof_entry * found k (off + off_num) 4 <= sz.

Lemma load_or_faults (ok : Prop) va off n p pa sz fl : regions p !! va = Some (pa, sz, fl) -> (ok -> off + Z.of_nat n <= sz) ->
  or_faults ok (load ns va off n) p (fun x p' =>
    0 <= x < 256 ^ Z.of_nat n /\ off + Z.of_nat n <= sz /\ (exists k, x = found k off n) /\ exists k, p' = set_reads k p).
Proof.
  intros Hva Hok. unfold or_faults, load, bind, get. rewrite Hva.
  destruct (_ <=? sz) eqn:Ele; [apply Z.leb_le in Ele|apply Z.leb_gt in Ele; split; [done|]; intros Hk; apply Hok in Hk; lia]. cbn -[le].
  split; [apply le_u8_range|]. split; [done|]. split; [by eexists|by eexists].
Qed.

(** How a run that started at [p] may end: the mapping stays for the caller. *)
Definition loop_end (p : platform) (r : option Z) (p' : platform) : Prop :=
  regions p' = regions p /\ bootstrap_done p' = bootstrap_done p /\
  (r = Some NO_ERROR /\ ns_dram_range_available p' = true /\ Forall entry_ok (ns_dram_map_list p') \/
   r = Some ERR_NO_MEMORY /\ ns_dram_range_available p' = ns_dram_range_available p /\ ns_dram_map_list p' = []).

Lemma register_loop_ends mem va off pa sz fl fuel : forall i p,
  0 <= off -> regions p !! va = Some (pa, sz, fl) -> Forall entry_ok (ns_dram_map_list p) ->
  0 <= i -> 16 * i <= sz < 16 * (i + Z.of_nat fuel) ->
  or_faults (table_fits sz off) (register_loop ns fuel mem va off i) p (loop_end p).
Proof.
  induction fuel as [|fuel IH]; intros i p Hoff Hva Hl Hi Hsz; [lia|]. cbn [register_loop].
  eapply or_faults_bind; [eapply load_or_faults; [done|by intros [? _]]|].
  intros num p1 (Hnum & _ & [k0 Hk0] & k1 & ->). destruct (i <? num) eqn:Hlt.
  2: { cbn. unfold loop_end. cbn. split; [done|]. split; [done|]. by left. }
  zbool. destruct (mem i).
  2: { cbn. unfold loop_end. cbn. split; [done|]. split; [done|]. by right. }
  assert (Hfit : table_fits sz off -> off + off_mappings + sizeof_entry * i + 16 <= sz).
  { intros [_ Hf]. specialize (Hf k0). rewrite <- Hk0 in Hf. unfold sizeof_entry in *. lia. }
  eapply or_faults_bind; [eapply load_or_faults; [done|intros ?%Hfit; lia]|]. intros b p2 (Hb & _ & _ & k2 & ->).
  eapply or_faults_bind; [eapply load_or_faults; [done|intros ?%Hfit; lia]|]. intros n p3 (Hn & Hend & _ & k3 & ->).
  unfold off_mappings, sizeof_entry in Hend.
  assert (u32 (i + 1) = i + 1) as -> by (apply uwrap_small; lia).
  match goal with |- or_faults ?ok (bind (modify ?f) ?k) ?s ?Q => change (or_faults ok (k tt) (f s) Q); cbn beta end.
  eapply or_faults_mono; [apply IH; [done|done| |lia..]|].
  - cbn. apply Forall_app. split; [done|]. constructor; [|done].
    change (256 ^ Z.of_nat 8) with (2 ^ 64) in *. done.
  - intros r p' Hend'. exact Hend'.
Qed.
Lemma read_table_ends mem va off pa sz fl fuel p :
  0 <= off -> regions p !! va = Some (pa, sz, fl) -> 0 <= sz < 16 * Z.of_nat fuel -> ns_dram_map_list p = [] ->
  or_faults (table_fits sz off) (read_table ns fuel mem va off) p (fun r p' => exists c, r = Some c /\
    regions p' = regions p /\ bootstrap_done p' = bootstrap_done p /\
    (c = NO_ERROR /\ ns_dram_range_available p' = true /\ Forall entry_ok (ns_dram_map_list p') \/
     c <> NO_ERROR /\ ns_dram_range_available p' = ns_dram_range_available p /\ ns_dram_map_list p' = [])).
Proof.
  intros Hoff Hva Hsz Hl. unfold read_table. assert (Hhd : table_fits sz off -> off + 12 <= sz) by (intros [? _]; unfold off_num in *; lia).
  eapply or_faults_bind; [eapply load_or_faults; [done|intros ?%Hhd; unfold off_magic; lia]|]. intros magic p1 (_ & _ & _ & k1 & ->).
  destruct (negb (magic =? _)); [eexists; split; [done|]; by repeat split; try right|].
  eapply or_faults_bind; [eapply load_or_faults; [done|intros ?%Hhd; unfold off_ver; lia]|]. intros ver p2 (_ & _ & _ & k2 & ->).
  destruct (negb (ver =? _)); [eexists; split; [done|]; by repeat split; try right|].
  eapply or_faults_mono; [eapply (register_loop_ends mem va off pa sz fl fuel 0); [done|done| |lia..]|].
  { cbn. by rewrite Hl. }
  intros r p' (Hr & Hb & [(-> & Hav & Hl')|(-> & Hav & Hl')]); eexists; (split; [done|]); split; [done| |done|]; split; [done| |done|].
  - by left.
  - by right.
Qed.

(** C33: The registration of the ranges happens once or not at all, and it
    comes to an end when the loop may take more turns than entries fit into
    the mapping, whatever the table holds and however the boot loader changes
    it meanwhile.  When it answers, the mapping is gone again; [NO_ERROR]
    means that the ranges were not available before and are now, and every
    error leaves availability and list as they were.  It does not answer
    only by a load beyond the mapping, and then only if the ranges were not
    available yet and the mapping does not hold the head of the table and
    every number of entries that the table names ([table_fits]): nothing
    compares that number with the size that the boot loader gave
    ([demo_overread]), and the kernel faults with the mapping in place. *)
Theorem register_all_or_nothing mem b n fuel p : ns_wf p ->
  let sz := ROUNDUP (u64 (n + Z.land b (PAGE_SIZE - 1))) PAGE_SIZE in
  sz < 16 * Z.of_nat fuel ->
  match platform_register_ns_dram_ranges ns fuel mem b n p with
  | Done r p' => ns_wf p' /\ regions p' = regions p /\ bootstrap_done p' = bootstrap_done p /\
      exists c, r = Some c /\
        if decide (c = NO_ERROR) then ns_dram_range_available p = false /\ ns_dram_range_available p' = true
        else ns_dram_range_available p' = ns_dram_range_available p /\ ns_dram_map_list p' = ns_dram_map_list p
  | Crash why => why = BadAccess /\ ns_dram_range_available p = false /\ ~ table_fits sz (Z.land b (PAGE_SIZE - 1))
  end.
Proof.
  intros [Hnew Hl] sz Hfuel.
  destruct (ns_dram_range_available p) eqn:Hav.
  { unfold platform_register_ns_dram_ranges, bind, get. rewrite Hav. simpl. rewrite Hav. split; [by split; [congruence|]|]. split; [done|]. split; [done|]. by eexists. }
  enough (H1 : or_faults (table_fits sz (Z.land b (PAGE_SIZE - 1))) (platform_register_ns_dram_ranges ns fuel mem b n) p (fun r p' =>
    ns_wf p' /\ regions p' = regions p /\ bootstrap_done p' = bootstrap_done p /\ exists c, r = Some c /\
        if decide (c = NO_ERROR) then false = false /\ ns_dram_range_available p' = true
        else ns_dram_range_available p' = false /\ ns_dram_map_list p' = ns_dram_map_list p)).
  { unfold or_faults in H1. destruct (platform_register_ns_dram_ranges _ _ _ _ _ _); [exact H1|naive_solver]. }
  unfold platform_register_ns_dram_ranges.
  match goal with |- or_faults ?ok (bind get ?k) ?s ?Q => change (or_faults ok (k s) s Q); cbn beta end. rewrite Hav.
  fold sz. destruct (Vqueue.vmm_alloc_physical _ _ _ _) as [e|va] eqn:Hva.
  { apply Vqueue.vmm_alloc_err in Hva. split; [split; auto|]. split; [done|]. split; [done|].
    exists e. split; [done|]. rewrite decide_False by done. by rewrite Hav. }
  apply Vqueue.vmm_alloc_fresh in Hva as [_ Hfree].
  match goal with |- or_faults ?ok (bind (put ?f) ?k) ?s ?Q => change (or_faults ok (k tt) f Q); cbn beta end.
  eapply or_faults_tbind.
  - eapply read_table_ends; [by apply Z.land_nonneg; right| |split; [|done]|by apply Hnew].
    + apply lookup_insert_eq.
    + apply Z.land_nonneg; right; apply (uwrap_range 64); lia.
  - intros r p' (c & -> & Hr & Hb & Hend). exists c. split; [done|]. cbn. rewrite Hr, Hb. cbn.
    rewrite delete_insert_id by done. split; [|split; [done|split; [done|]]].
    + destruct Hend as [(-> & Hav' & Hl')|(Hc & Hav' & Hl')]; split; cbn; rewrite ?Hl'; try done; congruence.
    + exists c. split; [done|].
      destruct Hend as [(-> & Hav' & Hl')|(Hc & Hav' & Hl')]; [done|rewrite decide_False by done; cbn in Hav' |- *; rewrite Hav', Hl', Hnew; done].
Qed.
End RegisterProofs.

(** ** A table that stays as it is *)

Section Stable.
Context (tbl : Z -> Z) `{Vqueue.Platform}.

Definition word (off : Z) (n : nat) : Z := le ((fun i => u8 (tbl (off + Z.of_nat i))) <$> seq 0 n).

Lemma word_u32 a : 0 <= word a 4 < 2 ^ 32.
Proof. apply (le_u8_range (fun j => tbl (a + Z.of_nat j)) 4). Qed.

Definition table_entry (offset i : Z) : entry :=
  Entry (word (offset + off_mappings + sizeof_entry * i) 8) (word (offset + off_mappings + sizeof_entry * i + 8) 8).

(** The table as the packed structure says it: [num] entries after the head. *)
Definition table_entries (offset : Z) : list entry :=
  table_entry offset <$> seqZ 0 (word (offset + off_num) 4).

Lemma load_stable va off n p pa sz fl : regions p !! va = Some (pa, sz, fl) ->
  load (fun _ => tbl) va off n p =
    if off + Z.of_nat n <=? sz then Done (word off n) (set_reads (Datatypes.S (reads p)) p) else Crash BadAccess.
Proof. intros Hva. unfold load, bind, get. rewrite Hva. by destruct (_ <=? sz). Qed.

Lemma register_loop_stable mem va off pa sz fl (Hmem : forall i, mem i = true) (Hnum : off + off_num + 4 <= sz) fuel : forall i p,
  regions p !! va = Some (pa, sz, fl) -> 0 <= i <= word (off + off_num) 4 -> word (off + off_num) 4 < i + Z.of_nat fuel ->
  (i < word (off + off_num) 4 -> off + off_mappings + 16 * word (off + off_num) 4 <= sz) ->
  exists k, register_loop (fun _ => tbl) fuel mem va off i p =
    Done (Some NO_ERROR) (set_available true (set_reads k (set_list
      (ns_dram_map_list p ++ (table_entry off <$> seqZ i (word (off + off_num) 4 - i))) p))).
Proof.
  induction fuel as [|fuel IH]; intros i p Hva Hi Hfuel Hfit; [lia|]. cbn [register_loop].
  unfold bind at 1. rewrite (load_stable _ _ _ _ _ _ _ Hva). rewrite (proj2 (Z.leb_le _ _)) by done.
  destruct (i <? word (off + off_num) 4) eqn:Hlt; zbool.
  2: { replace (word (off + off_num) 4 - i) with 0 by lia. exists (Datatypes.S (reads p)).
       rewrite app_nil_r. by destruct p. }
  rewrite Hmem. unfold bind at 1. rewrite (load_stable va _ 8 (set_reads _ p) pa sz fl) by done.
  specialize (Hfit Hlt).
  rewrite (proj2 (Z.leb_le _ _)) by (unfold sizeof_entry, off_mappings in *; lia). unfold bind at 1.
  rewrite (load_stable va _ 8 (set_reads _ _) pa sz fl) by done.
  rewrite (proj2 (Z.leb_le _ _)) by (unfold sizeof_entry, off_mappings in *; lia).
  assert (u32 (i + 1) = i + 1) as ->.
  { apply uwrap_small. pose proof (word_u32 (off + off_num)). lia. }
  match goal with |- context [bind (modify ?f) ?g ?s] => change (bind (modify f) g s) with (g tt (f s)); cbn beta end.
  match goal with |- context [register_loop _ _ _ _ _ _ ?s] => destruct (IH (i + 1) s) as [k Hk]; [done|lia|lia|by intros _|] end.
  exists k. rewrite Hk. unfold set_available, set_reads, set_list. cbn -[word]. do 2 f_equal.
  rewrite <- app_assoc. f_equal. rewrite (seqZ_cons i) by lia. cbn -[word]. rewrite <- Z.add_1_r.
  by replace (Z.pred (word (off + off_num) 4 - i)) with (word (off + off_num) 4 - (i + 1)) by lia.
Qed.

(** On a table that does not change, with memory for the list, the
    registration makes the ranges available exactly as the packed structure at
    [ns_base] lists them, in order, and unmaps the table, provided the
    mapping holds all of them. *)
Lemma register_reads_table mem b n p va fuel :
  let offset := Z.land b (PAGE_SIZE - 1) in
  let sz := ROUNDUP (u64 (n + offset)) PAGE_SIZE in
  ns_wf p -> ns_dram_range_available p = false -> (forall i, mem i = true) ->
  Vqueue.vmm_alloc_physical (regions p) (ROUNDDOWN b PAGE_SIZE) sz DRAM_FLAGS = inr va ->
  word (offset + off_magic) 4 = TOS_NS_MEM_MAP_MAGIC_VALUE -> word (offset + off_ver) 4 = TOS_NS_MEM_MAP_CUR_VERSION ->
  offset + off_mappings + 16 * word (offset + off_num) 4 <= sz -> word (offset + off_num) 4 < Z.of_nat fuel ->
  exists k, platform_register_ns_dram_ranges (fun _ => tbl) fuel mem b n p =
    Done (Some NO_ERROR) (Plat (bootstrap_done p) true (table_entries offset) (regions p) k).
Proof.
  intros offset sz [Hnew _] Hav Hmem Hva Hmagic Hver Hfit Hfuel.
  pose proof (word_u32 (offset + off_num)) as Hr.
  unfold platform_register_ns_dram_ranges. unfold bind at 1, get. rewrite Hav. fold offset. fold sz. rewrite Hva.
  apply Vqueue.vmm_alloc_fresh in Hva as [_ Hfree].
  match goal with |- context [bind (put ?s') ?k p] => change (bind (put s') k p) with (k tt s'); cbn beta; set (p1 := s') end.
  assert (regions p1 !! va = Some (ROUNDDOWN b PAGE_SIZE, sz, DRAM_FLAGS)) as Hva1 by apply lookup_insert_eq.
  assert (exists k, read_table (fun _ => tbl) fuel mem va offset p1 =
    Done (Some NO_ERROR) (set_available true (set_reads k (set_list (table_entries offset) p1)))) as [k Hk].
  { unfold read_table, off_mappings in *. unfold bind at 1. rewrite (load_stable _ _ _ _ _ _ _ Hva1).
    rewrite (proj2 (Z.leb_le _ _)) by (unfold off_magic; lia). rewrite Hmagic, Z.eqb_refl. cbn [negb].
    unfold bind at 1. rewrite (load_stable va _ 4 (set_reads (Datatypes.S (reads p1)) p1) _ _ _ Hva1).
    rewrite (proj2 (Z.leb_le _ _)) by (unfold off_ver; lia). rewrite Hver, Z.eqb_refl. cbn [negb].
    edestruct (register_loop_stable mem va offset (ROUNDDOWN b PAGE_SIZE) sz DRAM_FLAGS) as [k ->]; [done|unfold off_num; lia|exact Hva1|lia|lia| |].
    { intros _. unfold off_mappings. lia. }
    exists k. unfold table_entries. rewrite Z.sub_0_r. cbn. by rewrite Hnew. }
  exists k. rewrite (tbind_run _ _ _ _ _ Hk). cbn. unfold set_regions. cbn. by rewrite delete_insert_id.
Qed.
End Stable.

(** ** A table of two ranges at an address in the middle of a page *)

#[local] Program Instance dram_platform : Vqueue.Platform := {|
  Vqueue.trusty_hyp_check_guest_pa_valid _ _ _ := NO_ERROR;
  Vqueue.vmm_alloc_physical rs pa _ _ :=
    if bool_decide (rs !! (Z.abs pa + 1) = None) then inr (Z.abs pa + 1) else inl ERR_NO_MEMORY
|}.
Next Obligation. intros rs pa sz fl e. cbn. by case_bool_decide; intros [= <-]. Qed.
Next Obligation. intros rs pa sz fl va. cbn. case_bool_decide; intros [= <-]. by split; [lia|]. Qed.

Definition demo_bytes : list Z :=
  [0xef; 0xbe; 0xed; 0xfe; 1; 0; 0; 0; 2; 0; 0; 0; 0; 0] ++
  [0; 0; 0; 0x80; 0; 0; 0; 0] ++ [0; 0; 0; 0x10; 0; 0; 0; 0] ++
  [0; 0; 0; 0; 1; 0; 0; 0] ++ [0; 0; 0; 0; 2; 0; 0; 0].
Definition demo_table (a : Z) : Z := default 0 (demo_bytes !! Z.to_nat (a - 0x20)).
Definition demo_list : list entry := [Entry 0x80000000 0x10000000; Entry 0x100000000 0x200000000].
Definition demo_ready : platform := Plat false true demo_list ∅ 0.

Lemma demo_ready_wf : ns_wf demo_ready.
Proof. split; [done|]. repeat constructor; cbn; lia. Defined.

Example demo_registered :
  match platform_register_ns_dram_ranges (fun _ => demo_table) 3 (fun _ => true) 0x7020 46 platform_ctx_init with
  | Done r p => r = Some NO_ERROR /\ ns_dram_map_list p = demo_list /\ regions p = ∅
  | Crash _ => False
  end.
Proof. vm_compute. done. Qed.

(** The number of entries comes from the table, not from [ns_size]: a table
    that names more than the mapping holds is read beyond it. *)
Example demo_overread :
  platform_register_ns_dram_ranges (fun _ a => if a =? 0x29 then 1 else demo_table a) 600 (fun _ => true) 0x7020 46 platform_ctx_init
  = Crash BadAccess.
Proof. vm_compute. done. Qed.

Lemma register_reads_table_witness : exists k,
  platform_register_ns_dram_ranges (fun _ => demo_table) 3 (fun _ => true) 0x7020 46 platform_ctx_init =
  Done (Some NO_ERROR) (Plat false true (table_entries demo_table 0x20) ∅ k).
Proof.
  apply (register_reads_table demo_table (fun _ => true) 0x7020 46 platform_ctx_init 0x7001 3);
    [by split; [|constructor]|done|done|vm_compute; reflexivity..| |]; vm_compute; done.
Defined.

(** The table of two ranges, all of it: they are registered, and the mapping
    is gone.  A second registration is refused. *)
Lemma init_wf : ns_wf platform_ctx_init.
Proof. by split. Qed.

Lemma register_all_or_nothing_witness :
  (exists p', platform_register_ns_dram_ranges (fun _ => demo_table) 300 (fun _ => true) 0x7020 46 platform_ctx_init = Done (Some NO_ERROR) p' /\
     regions p' = ∅ /\ ns_dram_range_available p' = true /\ ns_dram_map_list p' = demo_list) /\
  (exists p', platform_register_ns_dram_ranges (fun i _ => Z.of_nat i) 300 (fun _ => true) 0x7020 46 demo_ready = Done (Some ERR_ALREADY_EXISTS) p' /\
     ns_dram_map_list p' = demo_list).
Proof.
  split.
  - pose proof (register_all_or_nothing (fun _ => demo_table) (fun _ => true) 0x7020 46 300 platform_ctx_init init_wf ltac:(vm_compute; done)) as H.
    assert (Hv : match platform_register_ns_dram_ranges (fun _ => demo_table) 300 (fun _ => true) 0x7020 46 platform_ctx_init with
      | Done r p => (r, ns_dram_map_list p) | Crash _ => (None, []) end = (Some NO_ERROR, demo_list)) by (vm_compute; reflexivity).
    destruct (platform_register_ns_dram_ranges _ _ _ _ _ _) as [r p'|why]; [|discriminate Hv]. injection Hv as -> Hl.
    destruct H as (_ & Hr & _ & c & [= <-] & Hc). exists p'. split; [reflexivity|]. split; [exact Hr|]. split; [apply Hc|exact Hl].
  - pose proof (register_all_or_nothing (fun i _ => Z.of_nat i) (fun _ => true) 0x7020 46 300 demo_ready demo_ready_wf ltac:(vm_compute; done)) as H.
    destruct (platform_register_ns_dram_ranges _ _ _ _ _ _) as [r p'|why] eqn:E; [|by destruct H as (_ & ? & _)].
    destruct H as (_ & _ & _ & c & -> & Hc). assert (c = ERR_ALREADY_EXISTS) as -> by (injection E as E _; exact (eq_sym E)). exists p'. split; [reflexivity|]. apply Hc.
Defined.

Lemma validate_ns_phys_range_inclusion_witness :
  exists r, platform_validate_ns_phys_range trusty_hyp_is_ctx_available 0x8ffff000 0x1000 demo_ready = Done r demo_ready /\
    (r = NO_ERROR <-> true = true /\ Exists (included 0x8ffff000 0x1000) demo_list) /\
    (r <> NO_ERROR -> r = ERR_NOT_VALID).
Proof. apply (validate_ns_phys_range_inclusion demo_ready); [apply demo_ready_wf|split; vm_compute; done..]. Defined.
End NsDram.
