(* ===== verification/Uctx.v ===== *)
(** * The handle table of an application, and the IPC system calls

    [lib/trusty/uctx.c], and the system calls of [ipc.c] and [ipc_msg.c] on
    the table of the current application. *)

From S2P Require Import Prelude Bitmap Iovec MsgQueue Handle Ipc HandleList IpcHandle.

Module Uctx.
Import Bitmap Iovec Usercopy MsgQueue Handle Ipc HandleList IpcHandle.

Definition IPC_MAX_HANDLES : Z := 128.
Definition INVALID_HANDLE_ID : Z := 0xFFFFFFFF.
Definition IPC_CONNECT_MASK : Z := Z.lor IPC_CONNECT_WAIT_FOR_PORT IPC_CONNECT_ASYNC.

Record uctx := UCtx {
  inuse : bitmap;
  slots : list (option hptr);      (* handles[] *)
  hlist : handle_list hptr;        (* handle_list *)
  cur_guest : Z
}.

Definition set_slot (i : Z) (x : option hptr) (u : uctx) : uctx :=
  UCtx (inuse u) (<[Z.to_nat i := x]> (slots u)) (hlist u) (cur_guest u).
Definition set_inuse (b : bitmap) (u : uctx) : uctx := UCtx b (slots u) (hlist u) (cur_guest u).
Definition set_hlist (l : handle_list hptr) (u : uctx) : uctx := UCtx (inuse u) (slots u) l (cur_guest u).
Definition set_cur_guest (g : Z) (u : uctx) : uctx := UCtx (inuse u) (slots u) (hlist u) g.

(** The objects and the context of the current application. *)
Notation St := (heap * uctx)%type.

Definition on_heap {A} (m : M heap A) : M St A := fun s =>
  match m s.1 with Done a h => Done a (h, s.2) | Crash w => Crash w end.
Definition on_hlist {A} (m : M (heap * handle_list hptr) A) : M St A := fun s =>
  match m (s.1, hlist s.2) with Done a r => Done a (r.1, set_hlist r.2 s.2) | Crash w => Crash w end.
Definition on_mem {A} (m : M mem A) : M St A := on_heap (on_user m).
Definition get_ctx : M St uctx := gets snd.
Definition upd_ctx (f : uctx -> uctx) : M St unit := modify (fun s => (s.1, f s.2)).

(** ** The table *)

(** What [calloc] and the initialisation leave. *)
Definition uctx_new : uctx :=
  UCtx (bitmap_zero IPC_MAX_HANDLES) (replicate (Z.to_nat IPC_MAX_HANDLES) None) handle_list_init DEFAULT_GUEST_ID.
Definition uctx_create (ok : bool) : Z * option uctx :=
  if negb ok then (ERR_NO_MEMORY, None) else (NO_ERROR, Some uctx_new).

Definition check_handle_id (id : Z) : M St Z :=
  if IPC_MAX_HANDLES <=? id then ret ERR_BAD_HANDLE
  else
    u <- get_ctx ;;
    used <- deref (bitmap_test (inuse u) id) ;;
    if negb used then ret ERR_NOT_FOUND
    else
      x <- deref (slots u !! Z.to_nat id) ;;
      assert_ (bool_decide (is_Some x)) ;;;
      ret NO_ERROR.

(** [_handle_to_id_locked]. *)
Fixpoint handle_to_id_loop (x : hptr) (i : Z) (l : list (option hptr)) : Z :=
  match l with
  | [] => INVALID_HANDLE_ID
  | y :: l => if decide (y = Some x) then i else handle_to_id_loop x (i + 1) l
  end.
Definition handle_to_id (x : hptr) (u : uctx) : Z := handle_to_id_loop x 0 (slots u).

(** [elsewhere]: the handle is in the list of another context.  The result is
    the return code and the id. *)
Definition uctx_handle_install (elsewhere : bool) (x : hptr) : M St (Z * option Z) :=
  u <- get_ctx ;;
  id <- deref (bitmap_ffz (inuse u) IPC_MAX_HANDLES) ;;
  if id <? 0 then ret (ERR_NO_RESOURCES, None)
  else
    y <- deref (slots u !! Z.to_nat id) ;;
    assert_ (bool_decide (y = None)) ;;;
    b <- deref (bitmap_set (inuse u) id) ;;
    upd_ctx (set_inuse b) ;;;
    upd_ctx (set_slot id (Some x)) ;;;
    on_hlist (handle_list_add elsewhere x) ;;;
    ret (NO_ERROR, Some id).

Definition uctx_handle_get (id : Z) : M St (Z * option hptr) :=
  r <- check_handle_id id ;;
  if r =? NO_ERROR then
    u <- get_ctx ;;
    y <- deref (slots u !! Z.to_nat id) ;;
    x <- deref y ;;
    on_heap (incref x) ;;;
    ret (r, Some x)
  else ret (r, None).

Definition uctx_handle_remove (id : Z) : M St (Z * option hptr) :=
  r <- check_handle_id id ;;
  if r =? NO_ERROR then
    u <- get_ctx ;;
    y <- deref (slots u !! Z.to_nat id) ;;
    x <- deref y ;;
    b <- deref (bitmap_clear (inuse u) id) ;;
    upd_ctx (set_inuse b) ;;;
    upd_ctx (set_slot id None) ;;;
    on_hlist (handle_list_del x) ;;;
    ret (r, Some x)
  else ret (r, None).

Fixpoint destroy_loop (n : nat) (i : Z) : M St unit :=
  match n with
  | O => ret tt
  | S n =>
      u <- get_ctx ;;
      y <- deref (slots u !! Z.to_nat i) ;;
      match y with
      | Some x =>
          on_hlist (handle_list_del x) ;;;
          on_heap (handle_close x) ;;;
          upd_ctx (set_slot i None)
      | None => ret tt
      end ;;;
      destroy_loop n (i + 1)
  end.

Definition uctx_destroy : M St unit := destroy_loop (Z.to_nat IPC_MAX_HANDLES) 0.

(** ** System calls *)

(** A 32-bit number in memory. *)
Definition bytes32 (x : Z) : list Z :=
  [x mod 256; x / 2 ^ 8 mod 256; x / 2 ^ 16 mod 256; x / 2 ^ 24 mod 256].

(** [uevent_t]: handle, event, cookie. *)
Definition uevent_bytes (id event cookie : Z) : list Z := bytes32 id ++ bytes32 event ++ bytes32 (u32 cookie).

(** The identity as the application sees it. *)
Section Calls.
Context (uuid_bytes : uuid -> list Z).

Definition set_current_guest (x : hptr) : M St unit :=
  y <- on_heap (get_handle x) ;; upd_ctx (set_cur_guest (guest_id y)).

(** [valid]: the address is in a mapping of the application. *)
Definition sys_get_guest_id (valid : bool) (uaddr : Z) : M St Z :=
  u <- get_ctx ;;
  if valid then
    st <- on_mem (copy_to_user uaddr (bytes32 (cur_guest u))) ;;
    if negb (st =? 0) then ret st else ret NO_ERROR
  else ret ERR_INVALID_ARGS.

(** [ev] is the event on the stack of the caller; [None] is a wait that goes
    on. *)
Definition sys_wait (ev id user_event : Z) (waits : list (Z * (heap -> heap))) : M St (option Z) :=
  r <- uctx_handle_get id ;;
  match r with
  | (_, Some x) =>
      o <- on_heap (handle_wait ev x waits) ;;
      match o with
      | None => ret None
      | Some (r, event) =>
          r <- (if r <? 0 then ret r
                else
                  y <- on_heap (get_handle x) ;;
                  st <- on_mem (copy_to_user user_event (uevent_bytes id event (handle_get_cookie y))) ;;
                  if negb (st =? 0) then ret st else set_current_guest x ;;; ret r) ;;
          on_heap (decref x) ;;;
          ret (Some r)
      end
  | (r, None) => ret (Some r)
  end.

Definition sys_wait_any (ev user_event : Z)
    (waits : list (Z * (heap * handle_list hptr -> heap * handle_list hptr))) : M St (option Z) :=
  o <- on_hlist (handle_list_wait ev waits) ;;
  match o with
  | None => ret None
  | Some (r, found) =>
      if r <? 0 then ret (Some r)
      else
        f <- deref found ;;
        let x := f.1 in
        let event := f.2 in
        u <- get_ctx ;;
        let id := handle_to_id x u in
        y <- on_heap (get_handle x) ;;
        on_heap (decref x) ;;;
        assert_ (id <? IPC_MAX_HANDLES) ;;;
        st <- on_mem (copy_to_user user_event (uevent_bytes id event (handle_get_cookie y))) ;;
        if negb (st =? 0) then ret (Some st) else set_current_guest x ;;; ret (Some r)
  end.

Definition sys_close (id : Z) : M St Z :=
  r <- uctx_handle_remove id ;;
  match r with
  | (_, Some x) => on_heap (handle_close x) ;;; ret NO_ERROR
  | (r, None) => ret r
  end.

Definition sys_set_cookie (id cookie : Z) : M St Z :=
  r <- uctx_handle_get id ;;
  match r with
  | (_, Some x) =>
      on_heap (upd_handle x (handle_set_cookie cookie)) ;;;
      on_heap (decref x) ;;;
      ret NO_ERROR
  | (r, None) => ret r
  end.

(** [strncpy_from_user] into a buffer of [len] bytes; the copy ends on every
    address space. *)
Definition strncpy_from_user (usrc : Z) (len : nat) : M St (Z * list Z) :=
  s <- get ;; deref (arch_strlcpy_from_user usrc len (Iovec.user (Ipc.user s.1))).

Definition sys_port_create (access : Z -> uuid -> Z) (al : nat -> allocs) (ok elsewhere : bool) (app : uuid)
    (path nbufs bufsz flags : Z) : M St Z :=
  r <- strncpy_from_user path (Z.to_nat IPC_PORT_PATH_MAX) ;;
  if r.1 <? 0 then ret r.1
  else if IPC_PORT_PATH_MAX <=? r.1 then ret ERR_INVALID_ARGS
  else
    p <- on_heap (ipc_port_create ok (Some app) r.2 nbufs bufsz flags) ;;
    match p with
    | (_, Some x) =>
        i <- uctx_handle_install elsewhere x ;;
        match i with
        | (_, Some id) =>
            e <- match x with
                 | HPort p => on_heap (ipc_port_publish access al p)
                 | HChan _ => panic
                 end ;;
            if negb (e =? NO_ERROR) then
              _ <- uctx_handle_remove id ;;
              on_heap (handle_decref x) ;;;
              ret e
            else ret id
        | (e, None) => on_heap (handle_decref x) ;;; ret e
        end
    | (e, None) => ret e
    end.

(** [wait] and [wait_on]: the schedules of the wait of a synchronous connect
    and of the one that follows its time-out. *)
Definition sys_connect (access : Z -> uuid -> Z) (a : allocs) (ok strdup elsewhere : bool) (app : uuid)
    (ev path flags : Z) (wait wait_on : list (Z * (heap -> heap))) : M St (option Z) :=
  if has_flag flags (u32 (Z.lnot IPC_CONNECT_MASK)) then ret (Some ERR_INVALID_ARGS)
  else
    r <- strncpy_from_user path (Z.to_nat IPC_PORT_PATH_MAX) ;;
    if r.1 <? 0 then ret (Some r.1)
    else if IPC_PORT_PATH_MAX <=? r.1 then ret (Some ERR_INVALID_ARGS)
    else
      u <- get_ctx ;;
      p <- on_heap (ipc_port_connect_async access ok a strdup (cur_guest u) (Some app) r.2 IPC_PORT_PATH_MAX flags) ;;
      match p with
      | (_, Some x) =>
          o <- (if has_flag flags IPC_CONNECT_ASYNC then ret (Some NO_ERROR)
                else
                  w <- on_heap (handle_wait ev x wait) ;;
                  w <- match w with
                       | Some (r, event) =>
                           if r =? ERR_TIMED_OUT then on_heap (handle_wait ev x wait_on) else ret (Some (r, event))
                       | None => ret None
                       end ;;
                  match w with
                  | None => ret None
                  | Some (r, event) =>
                      if r <? 0 then ret (Some r)
                      else if has_flag event IPC_HANDLE_POLL_HUP && negb (has_flag event IPC_HANDLE_POLL_MSG)
                      then ret (Some ERR_CHANNEL_CLOSED)
                      else if negb (has_flag event IPC_HANDLE_POLL_READY) then ret (Some ERR_NOT_READY)
                      else ret (Some NO_ERROR)
                  end) ;;
          match o with
          | None => ret None
          | Some e =>
              if negb (e =? NO_ERROR) then on_heap (handle_close x) ;;; ret (Some e)
              else
                i <- uctx_handle_install elsewhere x ;;
                match i with
                | (_, Some id) => ret (Some id)
                | (e, None) => on_heap (handle_close x) ;;; ret (Some e)
                end
          end
      | (e, None) => ret (Some e)
      end.

Definition sys_accept (elsewhere : bool) (id user_uuid : Z) : M St Z :=
  r <- uctx_handle_get id ;;
  match r with
  | (_, Some x) =>
      a <- on_heap (ipc_port_accept (Some x)) ;;
      match a with
      | (_, Some (c, peer)) =>
          i <- uctx_handle_install elsewhere c ;;
          match i with
          | (_, Some new_id) =>
              st <- on_mem (copy_to_user user_uuid (uuid_bytes peer)) ;;
              if negb (st =? NO_ERROR) then
                _ <- uctx_handle_remove new_id ;;
                on_heap (handle_close c) ;;;
                on_heap (decref x) ;;;
                ret st
              else on_heap (decref x) ;;; ret new_id
          | (e, None) => on_heap (handle_close c) ;;; on_heap (decref x) ;;; ret e
          end
      | (e, None) => on_heap (decref x) ;;; ret e
      end
  | (r, None) => ret r
  end.

(** [ipc_msg_user_t]: four 32-bit words. *)
Definition fetch_msg (user_msg : Z) : M St (Z * msg_desc) :=
  r <- on_mem (copy_from_user user_msg 16) ;;
  ret (r.1, MsgUser (le32 (take 4 r.2)) (le32 (take 4 (drop 4 r.2))) (le32 (take 4 (drop 8 r.2)))).

Definition sys_send_msg (id user_msg : Z) : M St Z :=
  m <- fetch_msg user_msg ;;
  if negb (m.1 =? NO_ERROR) then ret m.1
  else
    r <- uctx_handle_get id ;;
    match r with
    | (_, Some x) =>
        e <- on_heap (ipc_send_msg (Some x) m.2) ;;
        on_heap (decref x) ;;;
        ret e
    | (r, None) => ret r
    end.

Definition sys_get_msg (id user_msg_info : Z) : M St Z :=
  r <- uctx_handle_get id ;;
  match r with
  | (_, Some x) =>
      e <- match check_channel_locked (Some x) with
           | inl e => ret e
           | inr c =>
               ch <- on_heap (get_chan c) ;;
               mq <- deref (msg_queue ch) ;;
               p <- on_mem (msg_peek_next_filled_locked mq) ;;
               match p with
               | (_, Some info) =>
                   st <- on_mem (copy_to_user user_msg_info (bytes32 (info_len info) ++ bytes32 (info_id info))) ;;
                   (if st =? NO_ERROR then
                      mq <- on_mem (msg_get_filled_locked mq) ;;
                      on_heap (upd_chan c (set_mq (Some mq)))
                    else ret tt) ;;;
                   ret st
               | (e, None) => ret e
               end
           end ;;
      on_heap (decref x) ;;;
      ret e
  | (r, None) => ret r
  end.

Definition sys_put_msg (id msg_id : Z) : M St Z :=
  r <- uctx_handle_get id ;;
  match r with
  | (_, Some x) => e <- on_heap (ipc_put_msg (Some x) msg_id) ;; on_heap (decref x) ;;; ret e
  | (r, None) => ret r
  end.

Definition sys_read_msg (id msg_id offset user_msg : Z) : M St Z :=
  m <- fetch_msg user_msg ;;
  if negb (m.1 =? NO_ERROR) then ret m.1
  else
    r <- uctx_handle_get id ;;
    match r with
    | (_, Some x) => e <- on_heap (ipc_read_msg (Some x) msg_id offset m.2) ;; on_heap (decref x) ;;; ret e
    | (r, None) => ret r
    end.

End Calls.

End Uctx.
