(* ===== verification/UctxInv.v ===== *)
(** * The handle table of an application stays consistent

    The bitmap, the slots and the handle list of a context describe the same
    handles, and installing, looking up and removing a handle are each
    other's counterparts. *)

From S2P Require Import Prelude Bitmap Iovec MsgQueue Handle Ipc IpcInv HandleList IpcHandle Uctx.

Module UctxInv.
Import Bitmap Iovec Usercopy MsgQueue Handle Ipc IpcInv HandleList IpcHandle Uctx.

(** ** The invariant of a table that nobody waits on *)

Record table_ok (u : uctx) : Prop := {
  t_len : length (slots u) = 128%nat;
  t_wf : bitmap_wf (inuse u) 128;
  t_bits : forall i y, slots u !! i = Some y -> bit_at (inuse u) (Z.of_nat i) = bool_decide (is_Some y);
  t_list : handles (hlist u) ≡ₚ omap id (slots u);
  t_nodup : NoDup (handles (hlist u));
  t_idle : wait_event (hlist u) = None
}.

Lemma uctx_new_ok : table_ok uctx_new.
Proof.
  split; try done.
  - by apply bitmap_zero_wf.
  - intros i y [-> _]%lookup_replicate. apply bitmap_zero_bit.
  - constructor.
Qed.

Lemma slot_lookup u i : table_ok u -> 0 <= i < 128 -> exists y, slots u !! Z.to_nat i = Some y.
Proof. intros Ht Hi. apply lookup_lt_is_Some. rewrite (t_len _ Ht). lia. Qed.

Lemma used_bit u i y : table_ok u -> 0 <= i < 128 -> slots u !! Z.to_nat i = Some y ->
  bitmap_test (inuse u) i = Some (bool_decide (is_Some y)).
Proof.
  intros Ht Hi Hy. rewrite (bitmap_test_spec (inuse u) 128) by (apply Ht || done). f_equal.
  rewrite <- (t_bits _ Ht _ _ Hy). f_equal. lia.
Qed.

(** Two bitmaps of one size with the same bits are the same memory. *)
Lemma bitmap_ext a b n : bitmap_wf a n -> bitmap_wf b n ->
  (forall k, 0 <= k -> bit_at a k = bit_at b k) -> a = b.
Proof.
  intros [_ La Ha] [_ Lb Hb] Hk. apply list_eq_same_length with (n := length a); [lia|done|].
  intros i x y Hi Hx Hy. pose proof (Forall_lookup_1 _ _ _ _ Ha Hx) as Rx. pose proof (Forall_lookup_1 _ _ _ _ Hb Hy) as Ry.
  simpl in Rx, Ry. apply Z.bits_inj'. intros m Hm. destruct (Z.lt_ge_cases m 32) as [Hlt|Hge].
  - specialize (Hk (32 * Z.of_nat i + m) ltac:(lia)). unfold bit_at in Hk.
    replace ((32 * Z.of_nat i + m) / 32) with (Z.of_nat i) in Hk by dlia.
    replace ((32 * Z.of_nat i + m) mod 32) with m in Hk by dlia.
    rewrite Nat2Z.id, Hx, Hy in Hk. exact Hk.
  - assert (Hz : forall z, 0 <= z < 2 ^ 32 -> Z.testbit z m = false); [|by rewrite !Hz].
    intros z Hz. rewrite <- (Z.mod_small z (2 ^ 32)) by done. by apply Z.mod_pow2_bits_high.
Qed.

(** ** Slots and the handles they hold *)

Lemma omap_insert (l : list (option hptr)) i y z : l !! i = Some y ->
  omap id (<[i := z]> l) ++ option_list y ≡ₚ omap id l ++ option_list z.
Proof. intros Hy. rewrite !(Permutation_app_comm (omap id _)). by apply (omap_update id). Qed.

Lemma slot_in u i x : table_ok u -> slots u !! i = Some (Some x) -> x ∈ handles (hlist u).
Proof. intros Ht Hx. rewrite (t_list _ Ht). by apply (elem_of_omap_lookup id (slots u) i (Some x)). Qed.

(** A handle is in one slot only. *)
Lemma slot_inj u i j x : table_ok u -> slots u !! i = Some (Some x) -> slots u !! j = Some (Some x) -> i = j.
Proof.
  intros Ht Hi Hj. pose proof (t_nodup _ Ht) as Hnd. rewrite (t_list _ Ht) in Hnd.
  by apply (omap_NoDup_inj id (slots u) i j (Some x) (Some x) x).
Qed.

Lemma handle_to_id_loop_spec x l i k : l !! k = Some (Some x) -> (forall j, l !! j = Some (Some x) -> j = k) ->
  handle_to_id_loop x i l = i + Z.of_nat k.
Proof.
  revert i k. induction l as [|y l IH]; intros i k Hk Hu; [done|]. simpl. case_decide as Hd.
  - subst y. specialize (Hu 0%nat eq_refl). subst k. lia.
  - destruct k as [|k]; [simpl in Hk; congruence|]. rewrite (IH (i + 1) k Hk); [lia|].
    intros j Hj. specialize (Hu (S j) Hj). lia.
Qed.

Lemma handle_to_id_spec u k x : table_ok u -> slots u !! k = Some (Some x) -> handle_to_id x u = Z.of_nat k.
Proof. intros Ht Hk. unfold handle_to_id. rewrite (handle_to_id_loop_spec _ _ _ k Hk); [lia|]. intros j Hj. by eapply slot_inj. Qed.

(** ** Looking up a handle *)

(** The answer for an id, and the handle behind it. *)
Definition slot (u : uctx) (id : Z) : Z + hptr :=
  if IPC_MAX_HANDLES <=? id then inl ERR_BAD_HANDLE
  else match slots u !! Z.to_nat id with Some (Some x) => inr x | _ => inl ERR_NOT_FOUND end.

Lemma slot_inr u id x : slot u id = inr x -> id < 128 /\ slots u !! Z.to_nat id = Some (Some x).
Proof.
  unfold slot, IPC_MAX_HANDLES. destruct (128 <=? id) eqn:E; zbool; [done|].
  destruct (slots u !! Z.to_nat id) as [[y|]|]; try done. intros [= ->]. done.
Qed.

Lemma check_id_run h u id : table_ok u -> 0 <= id ->
  check_handle_id id (h, u) = Done (match slot u id with inl e => e | inr _ => NO_ERROR end) (h, u).
Proof.
  intros Ht Hid. unfold check_handle_id, slot, IPC_MAX_HANDLES. destruct (128 <=? id) eqn:E; zbool; [done|].
  destruct (slot_lookup u id Ht ltac:(lia)) as [y Hy]. unfold bind, get_ctx, gets, deref. simpl.
  rewrite (used_bit u id y Ht) by (lia || done). rewrite Hy. destruct y; reflexivity.
Qed.

Lemma slot_code u id e : slot u id = inl e -> e = ERR_BAD_HANDLE \/ e = ERR_NOT_FOUND.
Proof.
  unfold slot. destruct (_ <=? _); [intros [= <-]; by left|].
  destruct (slots u !! Z.to_nat id) as [[y|]|]; intros [= <-]; by right.
Qed.

(** A bad id has no effect, whatever is asked. *)
Lemma get_bad h u id e : table_ok u -> 0 <= id -> slot u id = inl e -> uctx_handle_get id (h, u) = Done (e, None) (h, u).
Proof.
  intros Ht Hid He. unfold uctx_handle_get, bind at 1. rewrite check_id_run, He by done.
  by destruct (slot_code u id e He) as [-> | ->].
Qed.

Lemma remove_bad h u id e : table_ok u -> 0 <= id -> slot u id = inl e ->
  uctx_handle_remove id (h, u) = Done (e, None) (h, u).
Proof.
  intros Ht Hid He. unfold uctx_handle_remove, bind at 1. rewrite check_id_run, He by done.
  by destruct (slot_code u id e He) as [-> | ->].
Qed.

Lemma get_good h u id x y : table_ok u -> 0 <= id -> slot u id = inr x -> handle_of h x = Some y ->
  uctx_handle_get id (h, u) = Done (NO_ERROR, Some x) (put_handle x (handle_incref y) h, u).
Proof.
  intros Ht Hid Hx Hy. unfold uctx_handle_get, bind at 1. rewrite check_id_run, Hx by done.
  destruct (slot_inr _ _ _ Hx) as [_ Hs]. unfold bind, get_ctx, gets, deref. simpl. rewrite Hs. unfold ret.
  unfold on_heap. cbn [incref ipc_handle_ops fst snd]. by rewrite (upd_handle_run x _ h y Hy).
Qed.

(** ** Removing a handle *)

(** The table without the handle of a slot. *)
Definition removed (i : Z) (x : hptr) (b : bitmap) (u : uctx) : uctx :=
  UCtx b (<[Z.to_nat i := None]> (slots u)) (HList (remove_first x (handles (hlist u))) None) (cur_guest u).

Lemma removed_ok i x b u : table_ok u -> 0 <= i < 128 -> slots u !! Z.to_nat i = Some (Some x) -> bitmap_wf b 128 ->
  (forall k, 0 <= k -> bit_at b k = if k =? i then false else bit_at (inuse u) k) -> table_ok (removed i x b u).
Proof.
  intros Ht Hi Hx Hb Hk. destruct Ht as [T1 T2 T3 T4 T5 T6].
  split; cbn [removed inuse slots hlist handles HandleList.wait_event]; try done.
  - by rewrite length_insert.
  - intros j y Hj. rewrite Hk by lia. destruct (decide (j = Z.to_nat i)) as [->|Hne].
    + rewrite list_lookup_insert_eq in Hj by (by eapply lookup_lt_Some). injection Hj as <-.
      rewrite Z2Nat.id, Z.eqb_refl by lia. done.
    + rewrite list_lookup_insert_ne in Hj by done. rewrite (proj2 (Z.eqb_neq _ _)) by lia. by apply T3.
  - pose proof (omap_insert (slots u) _ _ None Hx) as Hp. simpl in Hp. rewrite app_nil_r in Hp.
    rewrite <- T4, (remove_first_perm x (handles (hlist u))) in Hp.
    + apply (Permutation_cons_inv (a := x)). rewrite <- Hp. by rewrite Permutation_app_comm.
    + rewrite T4. apply list_elem_of_omap. exists (Some x). split; [by eapply list_elem_of_lookup_2|done].
  - by apply remove_first_NoDup.
Qed.

Lemma remove_good h u id x : table_ok u -> 0 <= id -> slot u id = inr x ->
  exists b, bitmap_clear (inuse u) id = Some b /\ table_ok (removed id x b u) /\
    (forall k, 0 <= k -> bit_at b k = if k =? id then false else bit_at (inuse u) k) /\
    uctx_handle_remove id (h, u) =
      match handle_decref x h with
      | Done _ h' => Done (NO_ERROR, Some x) (h', removed id x b u)
      | Crash w => Crash w
      end.
Proof.
  intros Ht Hid Hx. destruct (slot_inr _ _ _ Hx) as [Hlt Hs].
  destruct (bitmap_clear_spec (inuse u) 128 id (t_wf _ Ht) ltac:(lia)) as (b & Hb & Hwf & Hbit).
  exists b. split; [done|]. split; [apply removed_ok; (done || lia)|]. split; [done|].
  unfold uctx_handle_remove, bind at 1. rewrite check_id_run, Hx by done.
  unfold bind, get_ctx, gets, deref. simpl. rewrite Hs. unfold ret. simpl. rewrite Hb. unfold upd_ctx, modify. simpl.
  unfold on_hlist, handle_list_del, bind, get_list, gets. simpl.
  rewrite bool_decide_eq_true_2 by (by eapply slot_in). simpl. unfold put_list, modify. simpl. rewrite (t_idle _ Ht).
  unfold ret. unfold on_obj. simpl. destruct (handle_decref x h); done.
Qed.

(** ** Installing a handle *)

Definition installed (i : Z) (x : hptr) (b : bitmap) (u : uctx) : uctx :=
  UCtx b (<[Z.to_nat i := Some x]> (slots u)) (HList (handles (hlist u) ++ [x]) None) (cur_guest u).

Lemma installed_ok i x b u : table_ok u -> 0 <= i < 128 -> slots u !! Z.to_nat i = Some None -> bitmap_wf b 128 ->
  x ∉ handles (hlist u) ->
  (forall k, 0 <= k -> bit_at b k = if k =? i then true else bit_at (inuse u) k) -> table_ok (installed i x b u).
Proof.
  intros Ht Hi Hx Hb Hn Hk. destruct Ht as [T1 T2 T3 T4 T5 T6].
  split; cbn [installed inuse slots hlist handles HandleList.wait_event]; try done.
  - by rewrite length_insert.
  - intros j y Hj. rewrite Hk by lia. destruct (decide (j = Z.to_nat i)) as [->|Hne].
    + rewrite list_lookup_insert_eq in Hj by (by eapply lookup_lt_Some). injection Hj as <-.
      rewrite Z2Nat.id, Z.eqb_refl by lia. done.
    + rewrite list_lookup_insert_ne in Hj by done. rewrite (proj2 (Z.eqb_neq _ _)) by lia. by apply T3.
  - pose proof (omap_insert (slots u) _ _ (Some x) Hx) as Hp. simpl in Hp. rewrite app_nil_r in Hp.
    by rewrite Hp, T4.
  - apply NoDup_app. split_and!; [done| |apply NoDup_singleton]. intros y Hy Hyx%list_elem_of_singleton. by subst.
Qed.

(** The least id that is free. *)
Definition least_free (u : uctx) (id : Z) : Prop :=
  0 <= id < 128 /\ slots u !! Z.to_nat id = Some None /\
  forall j, 0 <= j < id -> exists x, slots u !! Z.to_nat j = Some (Some x).

Definition table_full (u : uctx) : Prop := forall j, 0 <= j < 128 -> exists x, slots u !! Z.to_nat j = Some (Some x).

Lemma slot_of_bit u i b : table_ok u -> 0 <= i < 128 -> bit_at (inuse u) i = b ->
  if b then exists x, slots u !! Z.to_nat i = Some (Some x) else slots u !! Z.to_nat i = Some None.
Proof.
  intros Ht Hi Hb. destruct (slot_lookup u i Ht Hi) as [y Hy]. pose proof (t_bits _ Ht _ _ Hy) as Hk.
  rewrite Z2Nat.id in Hk by lia. rewrite <- Hb, Hk. case_bool_decide as Hc; [destruct Hc as [x ->]; cbv iota; by exists x|].
  destruct y as [x|]; [by destruct Hc|done].
Qed.

Lemma ffz_table u : table_ok u -> exists r, bitmap_ffz (inuse u) IPC_MAX_HANDLES = Some r /\
  ((r = -1 /\ table_full u) \/ least_free u r).
Proof.
  intros Ht. destruct (bitmap_ffz_first_zero (inuse u) 128 (t_wf _ Ht)) as (r & Hr & [[-> Hall]|(Hb & Hz & Hlow)]).
  - exists (-1). split; [done|]. left. split; [done|]. intros j Hj. by apply (slot_of_bit u j true Ht Hj), Hall.
  - exists r. split; [done|]. right. split_and!; try lia.
    + by apply (slot_of_bit u r false Ht ltac:(lia)).
    + intros j Hj. apply (slot_of_bit u j true Ht ltac:(lia)). by apply Hlow.
Qed.

Lemma install_good h u x y id : table_ok u -> least_free u id -> x ∉ handles (hlist u) -> handle_of h x = Some y ->
  exists b, bitmap_set (inuse u) id = Some b /\ table_ok (installed id x b u) /\
    (forall k, 0 <= k -> bit_at b k = if k =? id then true else bit_at (inuse u) k) /\
    uctx_handle_install false x (h, u) = Done (NO_ERROR, Some id) (put_handle x (handle_incref y) h, installed id x b u).
Proof.
  intros Ht (Hi & Hs & Hlow) Hn Hy.
  destruct (bitmap_set_spec (inuse u) 128 id (t_wf _ Ht) Hi) as (b & Hb & Hwf & Hbit).
  exists b. split; [done|]. split; [by apply installed_ok|]. split; [done|].
  destruct (ffz_table u Ht) as (r & Hr & Hc).
  assert (r = id) as ->.
  { destruct Hc as [[-> Hf]|(Hri & Hrs & Hrl)]; [destruct (Hf id Hi); congruence|].
    destruct (Z.lt_trichotomy r id) as [Hl|[->|Hl]]; [|done|].
    - destruct (Hlow r ltac:(lia)); congruence.
    - destruct (Hrl id ltac:(lia)); congruence. }
  unfold uctx_handle_install, bind, get_ctx, gets, deref. simpl. rewrite Hr. unfold ret.
  rewrite (proj2 (Z.ltb_ge id 0)) by lia. rewrite Hs. simpl. rewrite Hb. unfold upd_ctx, modify. simpl.
  unfold on_hlist, handle_list_add, bind, get_list, gets. simpl.
  rewrite bool_decide_eq_false_2 by done. simpl. unfold on_obj. simpl.
  rewrite (upd_handle_run x _ h y Hy). unfold put_list, modify. simpl. rewrite (t_idle _ Ht). done.
Qed.

Lemma install_full h u x : table_ok u -> table_full u ->
  uctx_handle_install false x (h, u) = Done (ERR_NO_RESOURCES, None) (h, u).
Proof.
  intros Ht Hf. destruct (ffz_table u Ht) as (r & Hr & [[-> _]|(Hi & Hs & _)]).
  - unfold uctx_handle_install, bind, get_ctx, gets, deref. simpl. by rewrite Hr.
  - destruct (Hf r Hi). congruence.
Qed.

Lemma decref_many x y h : handle_of h x = Some y -> 1 < refcnt y ->
  handle_decref x h = Done tt (put_handle x (handle_decref_cnt y).1 h).
Proof.
  intros Hy Hr. assert (Hc : (refcnt y =? 1) = false) by (apply Z.eqb_neq; lia).
  destruct x as [p|c]; simpl in *; unfold port_decref, chan_decref, get_port, get_chan, bind, get, deref; simpl.
  - destruct (ports h !! p) as [z|]; [|done]. injection Hy as <-. simpl. unfold ret. simpl. by rewrite Hc.
  - destruct (chans h !! c) as [z|]; [|done]. injection Hy as <-. simpl. unfold ret. simpl. by rewrite Hc.
Qed.

Lemma decref_incref y : (handle_decref_cnt (handle_incref y)).1 = y.
Proof. destruct y. simpl. unfold handle_incref. simpl. f_equal. lia. Qed.

Lemma put_decref x y h : handle_of h x = Some y -> 0 < refcnt y ->
  handle_decref x (put_handle x (handle_incref y) h) = Done tt h.
Proof.
  intros Hy Hr. rewrite (decref_many x (handle_incref y)).
  - by rewrite decref_incref, put_handle_twice, put_handle_same.
  - rewrite handle_of_put by eauto. by rewrite decide_True.
  - simpl. lia.
Qed.

Lemma remove_first_snoc (x : hptr) l : x ∉ l -> remove_first x (l ++ [x]) = l.
Proof.
  induction l as [|y l IH]; simpl; intros Hx; [by rewrite decide_True|].
  rewrite decide_False by set_solver. rewrite IH by set_solver. done.
Qed.

Lemma slot_insert (u u1 : uctx) id y j : 0 <= id < 128 -> 0 <= j -> length (slots u) = 128%nat ->
  slots u1 = <[Z.to_nat id := y]> (slots u) ->
  slot u1 j = if j =? id then match y with Some x => inr x | None => inl ERR_NOT_FOUND end else slot u j.
Proof.
  intros Hi Hj Hl Hs. unfold slot, IPC_MAX_HANDLES. rewrite Hs. destruct (j =? id) eqn:E; zbool.
  - subst. rewrite (proj2 (Z.leb_gt 128 id)) by lia. rewrite list_lookup_insert_eq by lia. done.
  - rewrite list_lookup_insert_ne by lia. done.
Qed.

(** The table of a context is a partial map from ids to handles.  A
    handle is put at the least free id, or refused without effect when all
    128 ids are taken; the id then finds the handle, with one more reference,
    and no other id changes; removing the id gives the handle back and leaves
    table and objects exactly as before. *)
Lemma handle_table_roundtrip h u x y : table_ok u -> x ∉ handles (hlist u) -> handle_of h x = Some y -> 0 < refcnt y ->
  (table_full u /\ uctx_handle_install false x (h, u) = Done (ERR_NO_RESOURCES, None) (h, u)) \/
  (exists id h1 u1, least_free u id /\
     uctx_handle_install false x (h, u) = Done (NO_ERROR, Some id) (h1, u1) /\ table_ok u1 /\
     handle_of h1 x = Some (handle_incref y) /\
     (forall j, 0 <= j -> slot u1 j = if j =? id then inr x else slot u j) /\
     uctx_handle_get id (h1, u1) = Done (NO_ERROR, Some x) (put_handle x (handle_incref (handle_incref y)) h1, u1) /\
     uctx_handle_remove id (h1, u1) = Done (NO_ERROR, Some x) (h, u)).
Proof.
  intros Ht Hx Hy Hr. destruct (ffz_table u Ht) as (r & _ & [[_ Hf]|Hlf]).
  { left. split; [done|]. by apply install_full. }
  right. destruct (install_good h u x y r Ht Hlf Hx Hy) as (b & Hb & Hok & Hbit & Hrun).
  assert (Hh1 : handle_of (put_handle x (handle_incref y) h) x = Some (handle_incref y)).
  { rewrite handle_of_put by eauto. by rewrite decide_True. }
  pose proof Hlf as (Hi & Hs & _).
  assert (Hsl : forall j, 0 <= j -> slot (installed r x b u) j = if j =? r then inr x else slot u j).
  { intros j Hj. apply (slot_insert u _ r (Some x) j); (done || apply Ht). }
  assert (Hsr : slot (installed r x b u) r = inr x) by (rewrite Hsl, Z.eqb_refl by lia; done).
  exists r, (put_handle x (handle_incref y) h), (installed r x b u). split_and!; try done.
  - by apply get_good; [|lia|..].
  - destruct (remove_good (put_handle x (handle_incref y) h) (installed r x b u) r x Hok ltac:(lia) Hsr)
      as (b' & Hb' & _ & Hbit' & ->).
    rewrite put_decref by done. do 2 f_equal. unfold removed, installed. cbn [inuse slots hlist cur_guest handles].
    rewrite remove_first_snoc by done. rewrite list_insert_insert_eq, list_insert_id by done.
    assert (b' = inuse u) as ->.
    { destruct (bitmap_clear_spec _ _ r (t_wf _ Hok) Hi) as (b2 & Hb2 & Hwf2 & _). rewrite Hb' in Hb2. injection Hb2 as <-.
      apply (bitmap_ext _ _ 128 Hwf2 (t_wf _ Ht)). intros k Hk. rewrite Hbit' by done. cbn [installed inuse].
      rewrite Hbit by done. destruct (k =? r) eqn:E; zbool; [|done]. subst.
      pose proof (t_bits _ Ht _ _ Hs) as Hz. rewrite Z2Nat.id in Hz by lia. by rewrite Hz. }
    pose proof (t_idle _ Ht) as Hw. destruct u as [iu sl [hs we] cg]. cbn in Hw |- *. by rewrite Hw.
Qed.

(** Removing an id that holds a handle frees exactly that id, drops the
    reference of the list and hands the handle to the caller; a number that
    is no id is [ERR_BAD_HANDLE], an id that is free [ERR_NOT_FOUND], both
    without effect. *)
Lemma uctx_handle_remove_spec h u id : table_ok u -> 0 <= id ->
  (forall x, slot u id = inr x -> exists y, handle_of h x = Some y /\ 1 < refcnt y) ->
  match slot u id with
  | inl e => (e = if IPC_MAX_HANDLES <=? id then ERR_BAD_HANDLE else ERR_NOT_FOUND) /\
      uctx_handle_remove id (h, u) = Done (e, None) (h, u)
  | inr x => exists y u1, handle_of h x = Some y /\ table_ok u1 /\
      uctx_handle_remove id (h, u) = Done (NO_ERROR, Some x) (put_handle x (handle_decref_cnt y).1 h, u1) /\
      (forall j, 0 <= j -> slot u1 j = if j =? id then inl ERR_NOT_FOUND else slot u j) /\
      handles (hlist u1) = remove_first x (handles (hlist u))
  end.
Proof.
  intros Ht Hid Hx. destruct (slot u id) as [e|x] eqn:Hs.
  - split; [|by apply remove_bad]. unfold slot in Hs. destruct (_ <=? _); [by simplify_eq|].
    by destruct (slots u !! Z.to_nat id) as [[y|]|]; simplify_eq.
  - destruct (Hx x eq_refl) as (y & Hy & Hr). destruct (remove_good h u id x Ht Hid Hs) as (b & Hb & Hok & _ & ->).
    exists y, (removed id x b u). rewrite (decref_many x y) by done. split_and!; try done.
    intros j Hj. destruct (slot_inr _ _ _ Hs). apply (slot_insert u _ id None j); (done || lia || apply Ht).
Qed.

(** ** What a waiting application is told *)

Lemma copy_out a bs h u : on_mem (copy_to_user a bs) (h, u) =
  Done (arch_copy_to_user a bs (Iovec.user (Ipc.user h))).1
    (set_user (Iovec.set_user (arch_copy_to_user a bs (Iovec.user (Ipc.user h))).2 (Ipc.user h)) h, u).
Proof. reflexivity. Qed.

Lemma handle_of_user x m h : handle_of (set_user m h) x = handle_of h x.
Proof. by destruct x. Qed.

(** When a handle of the application is ready, waiting on any handle
    reports that handle's own id, its pending events and the cookie stored
    with it, consumes the events that polling consumes, makes the handle's
    guest the current guest, keeps the reference count, and moves the handle
    to the end of the list.  When the event cannot be copied out the error of
    the copy is returned and the current guest stays. *)
Lemma sys_wait_any_reports ev ua waits h u a x b y : table_ok u -> idle h (handles (hlist u)) ->
  first_ready h (handles (hlist u)) = Some (a, x, b) -> handle_of h x = Some y -> 0 < refcnt y ->
  exists id h1, slot u id = inr x /\ handle_finalize x (ready_of h x) h = Done tt h1 /\ handle_of h1 x = Some y /\
    let out := arch_copy_to_user ua (uevent_bytes id (ready_of h x) (cookie y)) (Iovec.user (Ipc.user h1)) in
    sys_wait_any ev ua waits (h, u) =
      Done (Some (if out.1 =? 0 then NO_ERROR else out.1))
        (set_user (Iovec.set_user out.2 (Ipc.user h1)) h1,
         (if out.1 =? 0 then set_cur_guest (guest_id y) else fun u => u) (set_hlist (HList (b ++ a ++ [x]) None) u)).
Proof.
  intros Ht Hid Hf Hy Hr. destruct (first_ready_split _ _ _ _ _ Hf) as (Hl & _).
  assert (Hin : x ∈ omap id (slots u)) by (rewrite <- (t_list _ Ht), Hl; set_solver).
  apply list_elem_of_omap in Hin as (z & Hz & Hzx). simpl in Hzx. subst z.
  apply list_elem_of_lookup_1 in Hz as (k & Hk). pose proof (lookup_lt_Some _ _ _ Hk) as Hlt. rewrite (t_len _ Ht) in Hlt.
  destruct (finalize_run x (ready_of h x) h ltac:(eauto)) as (h1 & Hfin & Hh & _). rewrite <- Hh in Hy.
  exists (Z.of_nat k), h1. split; [|split_and!; [done|done|]].
  { unfold slot, IPC_MAX_HANDLES. rewrite (proj2 (Z.leb_gt 128 _)), Nat2Z.id, Hk by lia. done. }
  intros out. unfold sys_wait_any, bind at 1. unfold on_hlist.
  assert (Hw : handle_list_wait ev waits (h, hlist u) =
    Done (Some (NO_ERROR, Some (x, ready_of h x))) (put_handle x (handle_incref y) h1, HList (b ++ a ++ [x]) None)).
  { pose proof (t_idle _ Ht) as Hw. destruct (hlist u) as [hs we] eqn:E. simpl in Hw. subst we.
    rewrite (wait_ready ev waits h hs a x b Hid Hf). cbn [finalize_event incref ipc_handle_ops ready ipc_handle_laws].
    unfold bind. by rewrite Hfin, (upd_handle_run x _ h1 y Hy). }
  cbn [fst snd]. rewrite Hw. cbn [fst snd]. change (NO_ERROR <? 0) with false. cbv iota. cbn [deref].
  unfold bind at 1, ret at 1. cbn [fst snd]. unfold bind at 1, get_ctx, gets. cbn [snd].
  rewrite (handle_to_id_spec (set_hlist _ u) k x) by
    (done || (destruct Ht as [T1 T2 T3 T4 T5 T6]; split; cbn [set_hlist inuse slots hlist handles HandleList.wait_event]; try done;
       [by rewrite <- T4, Hl, (Permutation_app_comm b), <- app_assoc|
        rewrite Hl in T5; revert T5; apply NoDup_Permutation_proper; by rewrite (Permutation_app_comm b), <- app_assoc])).
  unfold bind at 1, get_handle, on_heap at 1, bind at 1, get. cbn [fst snd]. rewrite handle_of_put, decide_True by eauto.
  cbn [deref]. unfold ret at 1. unfold bind at 1, on_heap at 1. cbn [fst snd decref ipc_handle_ops]. rewrite put_decref by done.
  unfold bind at 1. rewrite (proj2 (Z.ltb_lt _ _)) by (unfold IPC_MAX_HANDLES; lia). cbn [assert_]. unfold ret at 1.
  unfold bind at 1. rewrite copy_out. change (handle_get_cookie (handle_incref y)) with (cookie y). fold out.
  destruct (out.1 =? 0); [|done]. cbn [negb]. unfold bind, set_current_guest, get_handle, on_heap, bind, get. cbn [fst snd].
  by rewrite handle_of_user, Hy.
Qed.

(** Asking for the next message of a connection that still waits for its
    port (an asynchronous connect) makes the kernel follow the null pointer
    of its message queue. *)
Lemma sys_get_msg_unconnected h u id ua c x : table_ok u -> 0 <= id -> slot u id = inr (HChan c) ->
  chans h !! c = Some x -> msg_queue x = None -> sys_get_msg id ua (h, u) = Crash BadAccess.
Proof.
  intros Ht Hid Hs Hx Hq. unfold sys_get_msg, bind at 1.
  rewrite (get_good h u id (HChan c) (c_handle x) Ht Hid Hs) by (simpl; by rewrite Hx).
  cbn [check_channel_locked]. unfold bind at 1, bind at 1, on_heap at 1, get_chan, bind at 1, get. cbn [fst snd put_handle].
  rewrite Hx. cbn [chans set_chans]. rewrite lookup_insert_eq. cbn [deref]. unfold ret at 1. unfold bind at 1.
  cbn [set_handle msg_queue]. by rewrite Hq.
Qed.

End UctxInv.
