(* ===== verification/UctxDemo.v ===== *)
(** * An application at work on its handles

    A context of an application that owns port 1, channel 2 and the waiting
    channel 6 of [IpcDemo.demo], and the theorems on waiting and on handle
    tables applied to it. *)

From S2P Require Import Prelude Bitmap Iovec MsgQueue Handle Ipc IpcInv IpcDemo HandleList IpcHandle Uctx UctxInv.

Module UctxDemo.
Import Bitmap Iovec Usercopy MsgQueue Handle Ipc IpcInv IpcDemo HandleList IpcHandle Uctx UctxInv.

Definition demo_installs : M (heap * uctx) unit :=
  _ <- uctx_handle_install false (HChan 6) ;;
  _ <- uctx_handle_install false (HPort 1) ;;
  _ <- uctx_handle_install false (HChan 2) ;;
  ret tt.

Definition ctx : uctx :=
  UCtx [7; 0; 0; 0] ([Some (HChan 6); Some (HPort 1); Some (HChan 2)] ++ replicate 125 None)
    (HList [HChan 6; HPort 1; HChan 2] None) DEFAULT_GUEST_ID.

Definition hd5' : handle := Hnd 2 None 0 5.
Definition demo' : heap := put_handle (HChan 2) hd5' (put_handle (HPort 1) (Hnd 4 None 0 5) (put_handle (HChan 6) hd5' demo)).

Lemma ctx_reached : demo_installs (demo, uctx_new) = Done tt (demo', ctx).
Proof. vm_compute. reflexivity. Qed.

Lemma ctx_ok : table_ok ctx.
Proof.
  pose proof uctx_new_ok as H0.
  assert (Hf : least_free uctx_new 0) by (split_and!; [lia|lia|done|lia]).
  destruct (install_good demo _ (HChan 6) hd5 0 H0 Hf) as (b1 & Hb1 & H1 & _); [by apply not_elem_of_nil|done|].
  vm_compute in Hb1. injection Hb1 as <-.
  assert (Hf1 : least_free (installed 0 (HChan 6) [1; 0; 0; 0] uctx_new) 1).
  { split_and!; [lia|lia|done|]. intros j Hj. replace j with 0 by lia. by eexists. }
  destruct (install_good demo _ (HPort 1) (p_handle port1) 1 H1 Hf1) as (b2 & Hb2 & H2 & _);
    [by apply (bool_decide_unpack _); vm_compute|done|].
  vm_compute in Hb2. injection Hb2 as <-.
  assert (Hf2 : least_free (installed 1 (HPort 1) [3; 0; 0; 0] (installed 0 (HChan 6) [1; 0; 0; 0] uctx_new)) 2).
  { split_and!; [lia|lia|done|]. intros j Hj. assert (j = 0 \/ j = 1) as [-> | ->] by lia; by eexists. }
  destruct (install_good demo _ (HChan 2) hd5 2 H2 Hf2) as (b3 & Hb3 & H3 & _);
    [by apply (bool_decide_unpack _); vm_compute|done|].
  vm_compute in Hb3. injection Hb3 as <-. exact H3.
Qed.

Lemma ctx_idle : idle demo' (handles (hlist ctx)).
Proof.
  split; [by apply (bool_decide_unpack _); vm_compute|]. intros x Hx. cbn in Hx.
  rewrite !elem_of_cons, elem_of_nil in Hx. destruct Hx as [->|[->|[->|[]]]]; (split; [by eexists|done]).
Qed.

Lemma handle_list_wait_spec_witness :
  idle demo' [HChan 6; HPort 1; HChan 2] /\ ready_of demo' (HPort 1) = 1 /\
  exists s', (handle_finalize (HPort 1) 1 ;;; upd_handle (HPort 1) handle_incref) demo' = Done tt s' /\
    handle_list_wait 9 [(ERR_TIMED_OUT, fun x => x)] (demo', HList [HChan 6; HPort 1; HChan 2] None) =
      Done (Some (NO_ERROR, Some (HPort 1, 1))) (s', HList [HChan 2; HChan 6; HPort 1] None).
Proof.
  split; [exact ctx_idle|]. split; [reflexivity|].
  exact (handle_list_wait_spec 9 ERR_TIMED_OUT demo' [HChan 6; HPort 1; HChan 2] ctx_idle eq_refl).
Defined.

Lemma handle_list_wait_fair_witness :
  exists n rs st, (n <= 2)%nat /\ wait_times 9 (S n) (demo', HList [HChan 6; HPort 1; HChan 2] None) = Done rs st /\
    list.last rs = Some (Some (NO_ERROR, Some (HChan 2, 1))).
Proof. exact (handle_list_wait_fair 9 demo' [HChan 6; HPort 1; HChan 2] 2 (HChan 2) ctx_idle eq_refl ltac:(discriminate)). Defined.

Lemma handle_table_roundtrip_witness :
  (table_full ctx /\ uctx_handle_install false (HChan 3) (demo', ctx) = Done (ERR_NO_RESOURCES, None) (demo', ctx)) \/
  (exists id h1 u1, least_free ctx id /\
     uctx_handle_install false (HChan 3) (demo', ctx) = Done (NO_ERROR, Some id) (h1, u1) /\ table_ok u1 /\
     handle_of h1 (HChan 3) = Some (handle_incref hd5) /\
     (forall j, 0 <= j -> slot u1 j = if j =? id then inr (HChan 3) else slot ctx j) /\
     uctx_handle_get id (h1, u1) =
       Done (NO_ERROR, Some (HChan 3)) (put_handle (HChan 3) (handle_incref (handle_incref hd5)) h1, u1) /\
     uctx_handle_remove id (h1, u1) = Done (NO_ERROR, Some (HChan 3)) (demo', ctx)).
Proof.
  apply (handle_table_roundtrip demo' ctx (HChan 3) hd5 ctx_ok); [|reflexivity|simpl; lia].
  by apply (bool_decide_unpack _); vm_compute.
Defined.

Lemma uctx_handle_remove_spec_witness :
  exists y u1, handle_of demo' (HPort 1) = Some y /\ table_ok u1 /\
      uctx_handle_remove 1 (demo', ctx) =
        Done (NO_ERROR, Some (HPort 1)) (put_handle (HPort 1) (handle_decref_cnt y).1 demo', u1) /\
      (forall j, 0 <= j -> slot u1 j = if j =? 1 then inl ERR_NOT_FOUND else slot ctx j) /\
      handles (hlist u1) = [HChan 6; HChan 2].
Proof.
  apply (uctx_handle_remove_spec demo' ctx 1 ctx_ok ltac:(lia)). intros x [= <-].
  exists (Hnd 4 None 0 5). split; [reflexivity|simpl; lia].
Defined.

Lemma sys_wait_any_reports_witness :
  exists id h1, slot ctx id = inr (HPort 1) /\ handle_finalize (HPort 1) 1 demo' = Done tt h1 /\
    handle_of h1 (HPort 1) = Some (Hnd 4 None 0 5) /\
    let out := arch_copy_to_user 0 (uevent_bytes id 1 0) (Iovec.user (Ipc.user h1)) in
    sys_wait_any 9 0 [] (demo', ctx) =
      Done (Some (if out.1 =? 0 then NO_ERROR else out.1))
        (set_user (Iovec.set_user out.2 (Ipc.user h1)) h1,
         (if out.1 =? 0 then set_cur_guest 5 else fun u => u) (set_hlist (HList [HChan 2; HChan 6; HPort 1] None) ctx)).
Proof.
  exact (sys_wait_any_reports 9 0 [] demo' ctx [HChan 6] (HPort 1) [HChan 2] (Hnd 4 None 0 5) ctx_ok ctx_idle
           eq_refl eq_refl ltac:(simpl; lia)).
Defined.

Lemma sys_get_msg_unconnected_witness : sys_get_msg 0 0 (demo', ctx) = Crash BadAccess.
Proof. apply (sys_get_msg_unconnected demo' ctx 0 0 6 (set_handle hd5' chan6) ctx_ok); (lia || reflexivity). Defined.

End UctxDemo.
