(* ===== verification/CString.v ===== *)
(** * The string functions of libc

    [lk/common/lib/libc/string]: [strlen], [strcat], [strcpy], [strncat],
    [memset], over the memory of an application, byte by byte. *)

From S2P Require Import Prelude Iovec.

Module CString.
Import Usercopy.

(** ** Loads and stores

    An address that is not mapped, or a store to a byte that is not writable,
    ends the application. *)

Definition load8 (a : Z) : M umem Z := u <- get ;; v <- deref (u !! a) ;; ret v.1.

Definition store8 (a v : Z) : M umem unit :=
  u <- get ;;
  match u !! a with
  | Some (_, true) => put (<[a := (u8 v, true)]> u)
  | _ => bad_access
  end.

(** ** The functions

    Each turn of a loop visits one more mapped byte, so [scan_fuel] turns are
    never used up. *)
Definition scan_fuel (u : umem) : nat := S (size u).

Fixpoint strlen_loop (fuel : nat) (s i : Z) : M umem Z :=
  match fuel with
  | O => bad_access
  | S fuel => c <- load8 (s + i) ;; if c =? 0 then ret i else strlen_loop fuel s (i + 1)
  end.

Definition strlen (s : Z) : M umem Z := u <- get ;; strlen_loop (scan_fuel u) s 0.

(** [while ( *dest) dest++], the address of the terminator. *)
Fixpoint seek_loop (fuel : nat) (dest : Z) : M umem Z :=
  match fuel with
  | O => bad_access
  | S fuel => c <- load8 dest ;; if c =? 0 then ret dest else seek_loop fuel (dest + 1)
  end.

(** [while (( *dest++ = *src++) != 0)]. *)
Fixpoint copy_loop (fuel : nat) (dest src : Z) : M umem unit :=
  match fuel with
  | O => bad_access
  | S fuel =>
      c <- load8 src ;;
      store8 dest c ;;;
      if c =? 0 then ret tt else copy_loop fuel (dest + 1) (src + 1)
  end.

Definition strcpy (dest src : Z) : M umem Z :=
  u <- get ;; copy_loop (scan_fuel u) dest src ;;; ret dest.

Definition strcat (dest src : Z) : M umem Z :=
  u <- get ;;
  d <- seek_loop (scan_fuel u) dest ;;
  copy_loop (scan_fuel u) d src ;;;
  ret dest.

(** The copy loop of [strncat]; [count] is positive. *)
Fixpoint ncopy_loop (count : nat) (dest src : Z) : M umem unit :=
  match count with
  | O => ret tt
  | S count =>
      c <- load8 src ;;
      store8 dest c ;;;
      if c =? 0 then ret tt
      else match count with
           | O => store8 (dest + 1) 0
           | S _ => ncopy_loop count (dest + 1) (src + 1)
           end
  end.

Definition strncat (dest src : Z) (count : nat) : M umem Z :=
  if (0 <? Z.of_nat count) then
    u <- get ;;
    d <- seek_loop (scan_fuel u) dest ;;
    ncopy_loop count d src ;;;
    ret dest
  else ret dest.

(** The words in the middle are stored byte by byte. *)
Fixpoint memset_loop (s c : Z) (count : nat) : M umem unit :=
  match count with
  | O => ret tt
  | S count => store8 s c ;;; memset_loop (s + 1) c count
  end.

Definition memset (s c : Z) (count : nat) : M umem Z := memset_loop s (Z.land c 0xff) count ;;; ret s.

(** ** Regions of memory *)

Definition writable (u : umem) (a : Z) (n : nat) : Prop :=
  forall i, 0 <= i < Z.of_nat n -> exists v, u !! (a + i) = Some (v, true).

Fixpoint put_bytes (a : Z) (bs : list Z) (u : umem) : umem :=
  match bs with
  | [] => u
  | b :: bs => put_bytes (a + 1) bs (<[a := (b, true)]> u)
  end.

Lemma put_bytes_out a bs u x : x < a \/ a + Z.of_nat (length bs) <= x -> put_bytes a bs u !! x = u !! x.
Proof.
  revert a u. induction bs as [|b bs IH]; simpl; intros a u Hx; [done|].
  rewrite IH by lia. apply lookup_insert_ne. lia.
Qed.

Lemma put_bytes_in a bs u i b : bs !! i = Some b -> put_bytes a bs u !! (a + Z.of_nat i) = Some (b, true).
Proof.
  revert a u i. induction bs as [|c bs IH]; intros a u [|i] Hi; [done|done| |]; simpl in Hi |- *.
  - injection Hi as ->. rewrite put_bytes_out by lia. rewrite Z.add_0_r. apply lookup_insert_eq.
  - replace (a + Z.of_nat (S i)) with (a + 1 + Z.of_nat i) by lia. by apply IH.
Qed.

Lemma put_bytes_app a bs cs u : put_bytes a (bs ++ cs) u = put_bytes (a + Z.of_nat (length bs)) cs (put_bytes a bs u).
Proof.
  revert a u. induction bs as [|b bs IH]; simpl; intros a u; [by rewrite Z.add_0_r|].
  rewrite IH. f_equal. lia.
Qed.

Lemma put_bytes_writable a bs u x n : writable u x n -> writable (put_bytes a bs u) x n.
Proof.
  intros Hw i Hi. destruct (Z.lt_ge_cases (x + i) a) as [Hl|Hl]; [rewrite put_bytes_out by lia; by apply Hw|].
  destruct (Z.lt_ge_cases (x + i) (a + Z.of_nat (length bs))) as [Hr|Hr]; [|rewrite put_bytes_out by lia; by apply Hw].
  destruct (lookup_lt_is_Some_2 bs (Z.to_nat (x + i - a))) as [b Hb]; [lia|].
  exists b. replace (x + i) with (a + Z.of_nat (Z.to_nat (x + i - a))) by lia. by apply put_bytes_in.
Qed.

Lemma writable_sub u a n b m : writable u a n -> a <= b -> b + Z.of_nat m <= a + Z.of_nat n -> writable u b m.
Proof. intros Hw Ha Hb i Hi. replace (b + i) with (a + (b - a + i)) by lia. apply Hw. lia. Qed.

(** Strings are bytes other than NUL. *)
Definition bytes (bs : list Z) : Prop := Forall (fun b => 0 <= b < 256) bs.

Lemma string_nonzero u a s i c : user_string u a s -> s !! i = Some c -> c <> 0.
Proof. intros [Hs _] Hi. by apply (Hs i c). Qed.

Lemma string_cons u a c s : user_string u a (c :: s) ->
  c <> 0 /\ (exists b, u !! a = Some (c, b)) /\ user_string u (a + 1) s.
Proof.
  intros [Hs [b Hn]]. destruct (Hs 0%nat c eq_refl) as [Hc H0]. rewrite Z.add_0_r in H0. split_and!; [done..|].
  split.
  - intros i d Hi. replace (a + 1 + Z.of_nat i) with (a + Z.of_nat (S i)) by lia. by apply Hs.
  - exists b. rewrite <- Hn. f_equal. simpl. lia.
Qed.

Lemma string_nil u a : user_string u a [] -> exists b, u !! a = Some (0, b).
Proof. intros [_ [b Hn]]. rewrite Z.add_0_r in Hn. by exists b. Qed.

Lemma string_frame u u' a s : user_string u a s ->
  (forall x, a <= x <= a + Z.of_nat (length s) -> u' !! x = u !! x) -> user_string u' a s.
Proof.
  intros [Hs [b Hn]] Hf. split.
  - intros i c Hi. pose proof (lookup_lt_Some _ _ _ Hi). rewrite Hf by lia. by apply Hs.
  - exists b. rewrite Hf by lia. done.
Qed.

(** A string written over memory. *)
Lemma string_put u a s : Forall (fun b => b <> 0) s -> user_string (put_bytes a (s ++ [0]) u) a s.
Proof.
  intros Hs. split.
  - intros i c Hi. split; [by eapply (Forall_lookup_1 _ _ _ _ Hs)|]. exists true. apply put_bytes_in.
    by apply lookup_app_l_Some.
  - exists true. apply put_bytes_in. rewrite lookup_app_r by lia. by rewrite Nat.sub_diag.
Qed.

Lemma string_bytes u a s : user_string u a s -> Forall (fun b => b <> 0) s.
Proof. intros Hs. apply Forall_lookup. intros i c Hi. by eapply string_nonzero. Qed.

(** Appending to a string in place. *)
Lemma string_append u a s t : user_string u a s -> Forall (fun b => b <> 0) t ->
  user_string (put_bytes (a + Z.of_nat (length s)) (t ++ [0]) u) a (s ++ t).
Proof.
  intros Hs Ht. pose proof (string_bytes _ _ _ Hs) as Hb. destruct Hs as [Hs _]. split.
  - intros i c Hi. split; [by eapply (Forall_lookup_1 _ _ _ _ (proj2 (Forall_app _ _ _) (conj Hb Ht)))|].
    apply lookup_app_Some in Hi as [Hi|[Hl Hi]].
    + rewrite put_bytes_out by (pose proof (lookup_lt_Some _ _ _ Hi); lia). by apply Hs.
    + exists true. replace (a + Z.of_nat i) with (a + Z.of_nat (length s) + Z.of_nat (i - length s)) by lia.
      apply put_bytes_in. by apply lookup_app_l_Some.
  - exists true. rewrite length_app, Nat2Z.inj_add, Z.add_assoc. apply put_bytes_in.
    rewrite lookup_app_r by lia. by rewrite Nat.sub_diag.
Qed.

(** ** What the functions do *)

Lemma load8_run a u v b : u !! a = Some (v, b) -> load8 a u = Done v u.
Proof. intros Ha. unfold load8, bind, get, deref. by rewrite Ha. Qed.

Lemma store8_run a u v w : u !! a = Some (w, true) -> store8 a v u = Done tt (<[a := (u8 v, true)]> u).
Proof. intros Ha. unfold store8, bind, get. by rewrite Ha. Qed.

Lemma strlen_loop_run s fuel a i u : user_string u (a + i) s -> (length s < fuel)%nat ->
  strlen_loop fuel a i u = Done (i + Z.of_nat (length s)) u.
Proof.
  revert fuel i. induction s as [|c s IH]; intros [|fuel] i Hs Hf; [simpl in Hf; lia| |simpl in Hf; lia|]; cbn [strlen_loop]; unfold bind.
  - destruct (string_nil _ _ Hs) as [b Hb]. rewrite (load8_run _ _ _ _ Hb). simpl. by rewrite Z.add_0_r.
  - destruct (string_cons _ _ _ _ Hs) as (Hc & [b Hb] & Hs'). rewrite (load8_run _ _ _ _ Hb).
    rewrite (proj2 (Z.eqb_neq _ _)) by done. rewrite IH; [f_equal; simpl; lia| |simpl in Hf; lia].
    by rewrite Z.add_assoc.
Qed.

Lemma strlen_run a s u : user_string u a s -> strlen a u = Done (Z.of_nat (length s)) u.
Proof.
  intros Hs. unfold strlen, bind, get. rewrite (strlen_loop_run s); [done|by rewrite Z.add_0_r|].
  pose proof (user_string_size _ _ _ Hs). unfold scan_fuel. lia.
Qed.

Lemma seek_loop_run s fuel a u : user_string u a s -> (length s < fuel)%nat ->
  seek_loop fuel a u = Done (a + Z.of_nat (length s)) u.
Proof.
  revert fuel a. induction s as [|c s IH]; intros [|fuel] a Hs Hf; [simpl in Hf; lia| |simpl in Hf; lia|]; cbn [seek_loop]; unfold bind.
  - destruct (string_nil _ _ Hs) as [b Hb]. rewrite (load8_run _ _ _ _ Hb). simpl. by rewrite Z.add_0_r.
  - destruct (string_cons _ _ _ _ Hs) as (Hc & [b Hb] & Hs'). rewrite (load8_run _ _ _ _ Hb).
    rewrite (proj2 (Z.eqb_neq _ _)) by done. rewrite (IH _ _ Hs'); [f_equal; simpl; lia|simpl in Hf; lia].
Qed.

(** Two ranges of addresses that do not meet. *)
Definition apart (a n b m : Z) : Prop := a + n <= b \/ b + m <= a.

Lemma copy_loop_run s fuel d a u : user_string u a s -> bytes s -> writable u d (S (length s)) ->
  apart d (Z.of_nat (length s) + 1) a (Z.of_nat (length s) + 1) -> (length s < fuel)%nat ->
  copy_loop fuel d a u = Done tt (put_bytes d (s ++ [0]) u).
Proof.
  revert fuel d a u. induction s as [|c s IH]; intros [|fuel] d a u Hs Hb Hw Ha Hf; [simpl in Hf; lia| |simpl in Hf; lia|];
    cbn [copy_loop]; unfold bind; destruct (Hw 0 ltac:(simpl; lia)) as [v Hv]; rewrite Z.add_0_r in Hv.
  - destruct (string_nil _ _ Hs) as [b E]. rewrite (load8_run _ _ _ _ E), (store8_run _ _ _ _ Hv). done.
  - destruct (string_cons _ _ _ _ Hs) as (Hc & [b E] & Hs'). rewrite (load8_run _ _ _ _ E), (store8_run _ _ _ _ Hv).
    rewrite (proj2 (Z.eqb_neq _ _)) by done. apply Forall_cons in Hb as [Hc' Hb]. unfold u8.
    rewrite uwrap_small by exact Hc'. unfold apart in Ha. simpl in Ha, Hf. rewrite IH; [done| | | | |lia].
    + eapply string_frame; [exact Hs'|]. intros x Hx. apply lookup_insert_ne. lia.
    + done.
    + intros i Hi. rewrite lookup_insert_ne by lia. replace (d + 1 + i) with (d + (1 + i)) by lia. apply Hw. simpl. lia.
    + unfold apart. lia.
Qed.

Lemma strcpy_run d a s u : user_string u a s -> bytes s -> writable u d (S (length s)) ->
  apart d (Z.of_nat (length s) + 1) a (Z.of_nat (length s) + 1) ->
  strcpy d a u = Done d (put_bytes d (s ++ [0]) u).
Proof.
  intros Hs Hb Hw Ha. unfold strcpy, bind at 1, get. unfold bind. rewrite (copy_loop_run s); try done.
  pose proof (user_string_size _ _ _ Hs). unfold scan_fuel. lia.
Qed.

Lemma strcat_run d a s t u : user_string u d s -> user_string u a t -> bytes t ->
  writable u (d + Z.of_nat (length s)) (S (length t)) ->
  apart (d + Z.of_nat (length s)) (Z.of_nat (length t) + 1) a (Z.of_nat (length t) + 1) ->
  strcat d a u = Done d (put_bytes (d + Z.of_nat (length s)) (t ++ [0]) u).
Proof.
  intros Hd Hs Hb Hw Ha. pose proof (user_string_size _ _ _ Hs). pose proof (user_string_size _ _ _ Hd).
  unfold strcat, bind, get. rewrite (seek_loop_run s) by (done || (unfold scan_fuel; lia)).
  by rewrite (copy_loop_run t) by (done || (unfold scan_fuel; lia)).
Qed.

(** [strncat] of one character that is not NUL. *)
Lemma strncat_one d a s c b u : user_string u d s -> u !! a = Some (c, b) -> 0 < c < 256 ->
  writable u (d + Z.of_nat (length s)) 2 ->
  strncat d a 1 u = Done d (put_bytes (d + Z.of_nat (length s)) [c; 0] u).
Proof.
  intros Hd Hc Hr Hw. pose proof (user_string_size _ _ _ Hd). unfold strncat.
  change (0 <? Z.of_nat 1) with true. cbv iota. unfold bind, get.
  rewrite (seek_loop_run s) by (done || (unfold scan_fuel; lia)). cbn [ncopy_loop]. unfold bind.
  rewrite (load8_run _ _ _ _ Hc). destruct (Hw 0 ltac:(lia)) as [v Hv]. rewrite Z.add_0_r in Hv.
  rewrite (store8_run _ _ _ _ Hv). rewrite (proj2 (Z.eqb_neq _ _)) by lia.
  destruct (Hw 1 ltac:(lia)) as [v1 Hv1]. rewrite (store8_run _ _ _ v1) by (rewrite lookup_insert_ne by lia; done).
  unfold u8. by rewrite (uwrap_small 8 c) by (change (2 ^ 8) with 256; lia).
Qed.

Lemma memset_loop_run n s c u : 0 <= c < 256 -> writable u s n ->
  memset_loop s c n u = Done tt (put_bytes s (replicate n c) u).
Proof.
  intros Hc. revert s u. induction n as [|n IH]; intros s u Hw; [done|]. cbn [memset_loop]. unfold bind.
  destruct (Hw 0 ltac:(lia)) as [v Hv]. rewrite Z.add_0_r in Hv. rewrite (store8_run _ _ _ _ Hv).
  unfold u8. rewrite uwrap_small by exact Hc. rewrite IH; [done|]. intros i Hi. rewrite lookup_insert_ne by lia.
  replace (s + 1 + i) with (s + (1 + i)) by lia. apply Hw. lia.
Qed.

Lemma memset_run n s c u : 0 <= c < 256 -> writable u s n -> memset s c n u = Done s (put_bytes s (replicate n c) u).
Proof.
  intros Hc Hw. unfold memset, bind. change 0xff with (Z.ones 8). rewrite Z.land_ones, Z.mod_small by (done || lia).
  by rewrite memset_loop_run.
Qed.

End CString.
