(* ===== verification/UartApp.v ===== *)
(** * The UART trusted application

    [app/nvidia-sample/UART]: [camera_communication.c], [trusty_ipc_setup.c]
    and [main.c], over the system calls of [Uctx] and [SecurePort], the
    application's memory and [libc]. *)

From Stdlib Require Import Strings.String Strings.Ascii.
From S2P Require Import Prelude Iovec SecurePort MsgQueue Handle Ipc HandleList IpcHandle Uctx CString.

Module UartApp.
Import Iovec Uart MsgQueue Handle Ipc HandleList IpcHandle Uctx CString.

(** ** The world of the application

    Kernel objects, the application's context, the secure UART, and the
    application's static [ports[0].port_handle].  Its memory is the current
    user memory of the kernel's heap. *)
Record world := World { w_heap : heap; w_ctx : uctx; w_uart : port_st; port_handle : Z }.

Definition app_mem (w : world) : umem := Iovec.user (Ipc.user (w_heap w)).
Definition set_app_mem (u : umem) (w : world) : world :=
  World (Ipc.set_user (Iovec.set_user u (Ipc.user (w_heap w))) (w_heap w)) (w_ctx w) (w_uart w) (port_handle w).
Definition set_sys (s : heap * uctx) (w : world) : world := World s.1 s.2 (w_uart w) (port_handle w).
Definition set_uart (s : port_st) (w : world) : world := World (w_heap w) (w_ctx w) s (port_handle w).
Definition set_port_handle (x : Z) (w : world) : world := World (w_heap w) (w_ctx w) (w_uart w) x.

Definition T (A : Type) : Type := M world (option A).

Definition on_app {A} (m : M umem A) : T A := fun w =>
  match m (app_mem w) with Done a u => Done (Some a) (set_app_mem u w) | Crash e => Crash e end.
Definition on_sys {A} (m : M (heap * uctx) A) : T A := fun w =>
  match m (w_heap w, w_ctx w) with Done a s => Done (Some a) (set_sys s w) | Crash e => Crash e end.
Definition on_sys_opt {A} (m : M (heap * uctx) (option A)) : T A := fun w =>
  match m (w_heap w, w_ctx w) with Done a s => Done a (set_sys s w) | Crash e => Crash e end.
Definition on_uart {A} (m : P (option A)) : T A := fun w =>
  match m (w_uart w) with Done a s => Done a (set_uart s w) | Crash e => Crash e end.

(** ** Memory *)

Definition load32 (a : Z) : M umem Z :=
  b0 <- load8 a ;; b1 <- load8 (a + 1) ;; b2 <- load8 (a + 2) ;; b3 <- load8 (a + 3) ;; ret (le32 [b0; b1; b2; b3]).
Fixpoint store_list (a : Z) (bs : list Z) : M umem unit :=
  match bs with [] => ret tt | b :: bs => store8 a b ;;; store_list (a + 1) bs end.
Definition store32 (a v : Z) : M umem unit := store_list a (bytes32 (u32 v)).

(** A string literal, with its terminator. *)
Definition lit (s : string) : list Z := (fun c => Z.of_N (N_of_ascii c)) <$> list_ascii_of_string s ++ ["000"%char].

(** The bytes that are mapped at an address, at most [n]. *)
Fixpoint user_bytes (n : nat) (a : Z) (u : umem) : list Z :=
  match n with
  | O => []
  | S n => match u !! a with Some (b, _) => b :: user_bytes n (a + 1) u | None => [] end
  end.

(** The addresses of the locals and statics whose address is taken. *)
Record frame := Frame {
  f_event : Z;      (* IPC_event *)
  f_cev : Z;        (* cev *)
  f_uuid : Z;       (* peer_uuid *)
  f_iov : Z;
  f_msg : Z;
  f_info : Z;       (* msg_inf *)
  f_char : Z;       (* temp, part_of_val *)
  f_space : Z;      (* the literal " " *)
  msg_buf : Z
}.

Definition CAMERA_PORT : Z := 3.
Definition DEBUG_PORT : Z := 1.
Definition INVALID_IPC_HANDLE : Z := 0xFFFFFFFF.

(** [sizeof(secure_camera_msg_t)] and the offsets of its fields. *)
Definition camera_msg_size : Z := 4 + 4 + 1018 * 4.
Definition off_command : Z := 0.
Definition off_length : Z := 4.
Definition off_response : Z := 8.

(** [ports[0]]. *)
Definition port_name : string := "uart.secure.service".
Definition num_of_buffers : Z := 1.
Definition ind_buffer_size : Z := 1024 * 4.
Definition port_flags : Z := Z.lor IPC_PORT_ALLOW_NS_CONNECT IPC_PORT_ALLOW_TA_CONNECT.

Definition commands : list string :=
  ["56001100"; "56002600"; "5600360100"; "5600340100"; "5600320C000A"; "5600360103"; "56003105010112";
   "560031050401001911"]%string.
Definition failure_outputs : list string :=
  ["Failed to get version number" ++ String "013" (String "010" "");
   "Failed to get response from camera" ++ String "013" (String "010" "")]%string.
Definition crlf : string := String "013" (String "010" "").
Definition lfs (n : nat) (s : string) : string := Nat.iter n (String "010") s.

Section App.
(** The hardware, the clock, the polls spent on one character, and the heap
    of [libc]: [malloc] returns the address (0 when there is no room) and the
    memory after it. *)
Context (mmio : Z -> nat -> Z) (clock : nat -> Z) (fuel : nat).
Context (malloc : Z -> umem -> Z * umem) (free : Z -> umem -> umem).
Context (uuid_bytes : uuid -> list Z) (access : Z -> uuid -> Z) (fr : frame).

Definition do_malloc (n : Z) : T Z := on_app (fun u => let r := malloc n u in Done r.1 r.2).
Definition do_free (a : Z) : T unit := on_app (modify (free a)).

(** ** The system calls *)

Definition send_to_uart (port ptr size : Z) : T Z := fun w =>
  on_uart (sys_send_to_uart mmio clock fuel port (user_bytes (Z.to_nat size) ptr (app_mem w)) size) w.
Definition send_lit (port : Z) (s : string) (size : Z) : T Z :=
  on_uart (sys_send_to_uart mmio clock fuel port (lit s) size).

(** The kernel stores the byte through the pointer it is given. *)
Definition receive_from_uart (port ptr wait : Z) : T Z :=
  r <~ on_uart (sys_receive_from_uart mmio clock fuel port wait) ;;
  match r with
  | (st, Some b) => on_app (store8 ptr b) ~;; tret st
  | (st, None) => tret st
  end.

Definition close (id : Z) : T Z := on_sys (sys_close id).

(** ** [camera_communication.c] *)

(** The result is [found] and the count left in [*size_of_message]; [n] bounds
    the turns of the loop. *)
Fixpoint receive_loop (n : nat) (dst byte : Z) (found : bool) (size : Z) : T (bool * Z) :=
  match n with
  | O => ret None
  | S n =>
      st <~ receive_from_uart CAMERA_PORT byte 1 ;;
      if st =? 0 then
        on_app (strcat dst byte) ~;;
        receive_loop n dst byte true (size + 1)
      else tret (found, size)
  end.

Definition receive_message_from_camera (n : nat) (received_msg_from_cam : Z) : T (bool * Z) :=
  recieved_byte <~ do_malloc 1 ;;
  r <~ receive_loop n received_msg_from_cam recieved_byte false 0 ;;
  do_free recieved_byte ~;;
  tret r.

Definition send_command_to_camera (n : nat) (received_msg_from_cam command : Z) : T (bool * Z) :=
  send_lit DEBUG_PORT "Sent command: " 1 ~;;
  send_lit DEBUG_PORT (default ""%string (commands !! 0%nat)) 1 ~;;
  send_lit DEBUG_PORT crlf 1 ~;;
  send_lit CAMERA_PORT (default ""%string (commands !! 0%nat)) 0 ~;;
  receive_message_from_camera n received_msg_from_cam.

(** The digits of a byte, least first, appended to [rev]; the result is the
    count.  A byte has at most three. *)
Fixpoint digits_loop (turns : nat) (rev value size : Z) : M umem Z :=
  match turns with
  | O => ret size
  | S turns =>
      if value =? 0 then ret size
      else
        store8 (f_char fr) (value mod 10 + 48) ;;;
        _ <- strncat rev (f_char fr) 1 ;;
        digits_loop turns rev (value / 10) (size + 1)
  end.

(** [for (i = size - 1; i >= 0; i--)] *)
Fixpoint reverse_loop (i : nat) (val rev : Z) : M umem unit :=
  match i with
  | O => ret tt
  | S i => _ <- strncat val (rev + Z.of_nat i) 1 ;; reverse_loop i val rev
  end.

(** One turn of the loop over the message, the value of [global_size] after
    it. *)
Definition format_byte (src to_print rev val : Z) (global_size : Z) : M umem Z :=
  value <- load8 src ;;
  size <- (if value =? 0 then
             store8 (f_char fr) 48 ;;;
             _ <- strncat rev (f_char fr) 1 ;;
             _ <- strncat rev (f_char fr) 1 ;;
             ret 2
           else digits_loop 3 rev value 0) ;;
  reverse_loop (Z.to_nat size) val rev ;;;
  _ <- strcat val (f_space fr) ;;
  _ <- strcat to_print val ;;
  _ <- memset val 0 100 ;;
  _ <- memset rev 0 100 ;;
  ret (global_size + size + 1).

Fixpoint format_loop (n : nat) (src to_print rev val : Z) (global_size : Z) : M umem Z :=
  match n with
  | O => ret global_size
  | S n => g <- format_byte src to_print rev val global_size ;; format_loop n (src + 1) to_print rev val g
  end.

Definition format_recieved_data (received_msg_from_cam size_of_message formatted_message : Z) : T Z :=
  to_print <~ do_malloc (size_of_message * 3) ;;
  rev <~ do_malloc 100 ;;
  val <~ do_malloc 100 ;;
  g <~ on_app (format_loop (Z.to_nat size_of_message) received_msg_from_cam to_print rev val 0) ;;
  send_to_uart DEBUG_PORT to_print 1 ~;;
  on_app (strcpy formatted_message to_print) ~;;
  send_lit DEBUG_PORT (crlf ++ "Done sending" ++ crlf) 1 ~;;
  do_free rev ~;;
  do_free val ~;;
  tret g.

(** ** [trusty_ipc_setup.c] *)

Definition init_secure_port (al : nat -> allocs) (ok elsewhere : bool) (app : uuid) (name : Z) : T Z :=
  rc <~ on_sys (sys_port_create access al ok elsewhere app name num_of_buffers ind_buffer_size port_flags) ;;
  (fun w => Done (Some tt) (set_port_handle (u32 rc) w)) ~;;
  tret rc.

Definition kill_secure_port : T unit :=
  x <~ (fun w => Done (Some (port_handle w)) w) ;;
  if negb (x =? INVALID_IPC_HANDLE) then
    close x ~;; (fun w => Done (Some tt) (set_port_handle INVALID_IPC_HANDLE w))
  else tret tt.

(** [for (i = 0; i < strlen(message); i++) response[i] = message[i]]: the
    length is read again in every turn. *)
Fixpoint copy_response (turns : nat) (message response i : Z) : M umem unit :=
  match turns with
  | O => bad_access
  | S turns =>
      n <- strlen message ;;
      if i <? n then
        b <- load8 (message + i) ;;
        store8 (response + i) b ;;;
        copy_response turns message response (i + 1)
      else ret tt
  end.

(** What [handle_msg] does between reading the request and the reply. *)
Definition camera_exchange (n : nat) (rc : Z) : T unit :=
  received_command <~ on_app (load32 (msg_buf fr + off_command)) ;;
  image_data <~ do_malloc 1024 ;;
  on_app (store32 (f_iov fr + 4) rc) ~;;
  message_from_camera <~ do_malloc 500 ;;
  r <~ receive_message_from_camera n message_from_camera ;;
  (if (r : bool * Z).1 then send_lit DEBUG_PORT ("Received version number" ++ crlf) 1
   else send_lit DEBUG_PORT (default ""%string (failure_outputs !! 0%nat)) 1) ~;;
  on_app (memset message_from_camera 0 500) ~;;
  r <~ send_command_to_camera n message_from_camera received_command ;;
  (if negb (r : bool * Z).1 then send_lit DEBUG_PORT (default ""%string (failure_outputs !! 1%nat)) 1
   else
     send_lit DEBUG_PORT ("Received the cameraaaaa response:" ++ lfs 3 "") 1 ~;;
     send_to_uart DEBUG_PORT message_from_camera 1 ~;;
     on_app (store32 (msg_buf fr + off_length) (r : bool * Z).2) ~;;
     on_app (fun u => copy_response (scan_fuel u) message_from_camera (msg_buf fr + off_response) 0 u) ~;;
     send_lit DEBUG_PORT ("Received the camera response:" ++ crlf) 1 ~;;
     send_to_uart DEBUG_PORT (msg_buf fr + off_response) 1 ~;;
     send_lit DEBUG_PORT (lfs 3 (String "013" "")) 1) ~;;
  send_lit DEBUG_PORT (crlf ++ "Completed" ++ lfs 2 (String "013" "")) 1 ~;;
  do_free image_data ~;;
  do_free message_from_camera.

(** The reply: the message is sent twice and then retired. *)
Definition reply (chan id : Z) : T Z :=
  rc <~ on_sys (sys_send_msg chan (f_msg fr)) ;;
  if rc <? 0 then tret rc
  else
    rc <~ on_sys (sys_send_msg chan (f_msg fr)) ;;
    if rc <? 0 then tret rc
    else
      rc <~ on_sys (sys_put_msg chan id) ;;
      if negb (rc =? NO_ERROR) then tret rc else tret NO_ERROR.

Definition handle_msg (n : nat) (chan : Z) : T Z :=
  on_app (store32 (f_iov fr) (msg_buf fr)) ~;;
  on_app (store32 (f_iov fr + 4) camera_msg_size) ~;;
  on_app (store32 (f_msg fr) num_of_buffers) ~;;
  on_app (store32 (f_msg fr + 4) (f_iov fr)) ~;;
  on_app (store32 (f_msg fr + 8) 0) ~;;
  on_app (store32 (f_msg fr + 12) 0) ~;;
  rc <~ on_sys (sys_get_msg chan (f_info fr)) ;;
  if rc =? ERR_NO_MSG then tret NO_ERROR
  else if negb (rc =? NO_ERROR) then tret rc
  else
    id <~ on_app (load32 (f_info fr + 4)) ;;
    rc <~ on_sys (sys_read_msg chan id 0 (f_msg fr)) ;;
    if rc <? 0 then tret rc
    else
      camera_exchange n rc ~;;
      id <~ on_app (load32 (f_info fr + 4)) ;;
      reply chan id.

(** [ev] is the address of the event. *)
Definition handle_channel_event (n : nat) (ev : Z) : T unit :=
  event <~ on_app (load32 (ev + 4)) ;;
  id <~ on_app (load32 ev) ;;
  if has_flag event IPC_HANDLE_POLL_MSG then
    rc <~ handle_msg n id ;;
    if negb (rc =? NO_ERROR) then close id ~;; tret tt else tret tt
  else if has_flag event IPC_HANDLE_POLL_HUP then close id ~;; tret tt
  else tret tt.

(** The schedule of one wait: see [Uctx.sys_wait]. *)
Abbreviation schedule := (list (Z * (heap -> heap))).

(** The loop over the events of a channel: one schedule per turn. *)
Fixpoint channel_loop (n : nat) (waits : list schedule) (chan : Z) : T unit :=
  match waits with
  | [] => ret None
  | w :: waits =>
      rc <~ on_sys_opt (sys_wait (f_cev fr) chan (f_cev fr) w) ;;
      if rc <? 0 then tret tt
      else
        handle_channel_event n (f_cev fr) ~;;
        event <~ on_app (load32 (f_cev fr + 4)) ;;
        if has_flag event IPC_HANDLE_POLL_HUP then tret tt else channel_loop n waits chan
  end.

Definition handle_port_event (n : nat) (elsewhere : bool) (waits : list schedule) (ev : Z) : T unit :=
  event <~ on_app (load32 (ev + 4)) ;;
  id <~ on_app (load32 ev) ;;
  if has_flag event IPC_HANDLE_POLL_ERROR || has_flag event IPC_HANDLE_POLL_HUP ||
     has_flag event IPC_HANDLE_POLL_MSG || has_flag event IPC_HANDLE_POLL_SEND_UNBLOCKED
  then tret tt
  else if has_flag event IPC_HANDLE_POLL_READY then
    rc <~ on_sys (sys_accept uuid_bytes elsewhere id (f_uuid fr)) ;;
    if rc <? 0 then tret tt else channel_loop n waits rc
  else tret tt.

(** ** [main.c] *)

(** The loop of [main]: each turn with the schedule of its wait and those of
    the channel it serves.  [rc] is not set by [handle_port_event], so the
    test after it never leaves the loop. *)
Fixpoint main_loop (n : nat) (elsewhere : bool) (turns : list (schedule * list schedule)) (port : Z) : T Z :=
  match turns with
  | [] => ret None
  | (w, waits) :: turns =>
      on_app (store32 (f_event fr) INVALID_IPC_HANDLE) ~;;
      on_app (store32 (f_event fr + 4) 0) ~;;
      on_app (store32 (f_event fr + 8) 0) ~;;
      rc <~ on_sys_opt (sys_wait (f_event fr) port (f_event fr) w) ;;
      if rc <? 0 then main_loop n elsewhere turns port
      else
        (if rc =? NO_ERROR then handle_port_event n elsewhere waits (f_event fr) else tret tt) ~;;
        if (rc =? NO_ERROR) && (rc <? 0) then tret (-1) else main_loop n elsewhere turns port
  end.

Definition main (al : nat -> allocs) (ok elsewhere : bool) (app : uuid) (name : Z) (n : nat)
    (turns : list (schedule * list schedule)) : T Z :=
  rc <~ init_secure_port al ok elsewhere app name ;;
  if rc <? 0 then kill_secure_port ~;; tret (-1)
  else main_loop n elsewhere turns (u32 rc).

End App.

End UartApp.
