(* ===== verification/UartAppSpec.v ===== *)
(** * What the UART application does with the camera's bytes

    Receiving a message, the room it takes, and the decimal text of
    [format_recieved_data]. *)

From Stdlib Require Import Strings.String Strings.Ascii.
From S2P Require Import Prelude Iovec SecurePort MsgQueue Handle Ipc HandleList IpcHandle Uctx CString UartApp.

Module UartAppSpec.
Import Iovec Usercopy Uart MsgQueue Handle Ipc HandleList IpcHandle Uctx CString UartApp.

Lemma app_mem_set u w : app_mem (set_app_mem u w) = u.
Proof. done. Qed.

Lemma set_app_mem_twice u u' w : set_app_mem u (set_app_mem u' w) = set_app_mem u w.
Proof. done. Qed.

Lemma on_app_run {A} (m : M umem A) w a u : m (app_mem w) = Done a u -> on_app m w = Done (Some a) (set_app_mem u w).
Proof. intros Hm. unfold on_app. by rewrite Hm. Qed.

Section Receive.
Context (mmio : Z -> nat -> Z) (clock : nat -> Z) (fuel : nat).

(** Successive reads of the port give the bytes, then none (or none within
    the time-out). *)
Inductive uart_gives : port_st -> list Z -> port_st -> Prop :=
| GivesNone s st s' : sys_receive_from_uart mmio clock fuel CAMERA_PORT 1 s = Done (Some (st, None)) s' -> st <> 0 ->
    uart_gives s [] s'
| GivesByte s b s1 bs s' : sys_receive_from_uart mmio clock fuel CAMERA_PORT 1 s = Done (Some (0, Some b)) s1 ->
    uart_gives s1 bs s' -> uart_gives s (b :: bs) s'.

Lemma receive_byte_range s st b s' :
  sys_receive_from_uart mmio clock fuel CAMERA_PORT 1 s = Done (Some (st, Some b)) s' -> 0 <= b < 256.
Proof.
  unfold sys_receive_from_uart, secure_platform_dgetc, bind at 1, get. destruct (_ || _); [done|]. unfold bind.
  set (m := if _ =? TEGRA_COMBUART_ID then _ else _). destruct (m s) as [[c|] s1|e]; try done.
  destruct (c <? 0); [done|]. intros [= _ <- _]. exact (uwrap_range 8 c ltac:(lia)).
Qed.

(** The bytes that a string keeps. *)
Definition chars (bs : list Z) : list Z := List.filter (fun b => negb (b =? 0)) bs.

Lemma chars_nonzero bs : Forall (fun b => b <> 0) (chars bs).
Proof.
  apply Forall_forall. intros b Hb. apply list_elem_of_In, filter_In in Hb as [_ Hb]. zbool. done.
Qed.

(** Memory in which the loop can run: the string at [dst] with room behind
    it, the byte buffer at [a] followed by a NUL, and no overlap. *)
Record receive_ready (u : umem) (dst a : Z) (s : list Z) (room : nat) : Prop := {
  rr_string : user_string u dst s;
  rr_room : writable u (dst + Z.of_nat (length s)) (S room);
  rr_byte : writable u a 1;
  rr_after : exists b, u !! (a + 1) = Some (0, b);
  rr_apart : apart dst (Z.of_nat (length s) + Z.of_nat room + 1) a 2
}.

Lemma receive_loop_run uart bs uart' n dst a s found size w : uart_gives uart bs uart' -> w_uart w = uart ->
  (length bs < n)%nat -> receive_ready (app_mem w) dst a s (length (chars bs)) ->
  exists u, receive_loop mmio clock fuel n dst a found size w =
      Done (Some (found || negb (bool_decide (bs = [])), size + Z.of_nat (length bs))) (set_uart uart' (set_app_mem u w)) /\
    user_string u dst (s ++ chars bs) /\
    (forall x, x <> a -> x < dst + Z.of_nat (length s) \/ dst + Z.of_nat (length (s ++ chars bs)) < x ->
       u !! x = app_mem w !! x).
Proof.
  intros Hg. revert n s found size w. induction Hg as [uart st uart' Hr Hst|uart b uart1 bs uart' Hr Hg IH];
    intros [|n] s found size w Hw Hn Hm; [lia| |simpl in Hn; lia|]; cbn [receive_loop]; rewrite <- Hw in Hr.
  - exists (app_mem w). rewrite (tbind_run _ _ _ st (set_uart uart' w)).
    + rewrite (proj2 (Z.eqb_neq _ _)) by done. cbn [chars List.filter]. rewrite app_nil_r. split_and!.
      * unfold tret, ret. rewrite bool_decide_eq_true_2 by done. simpl. rewrite orb_false_r, Z.add_0_r. by destruct w as [[? ? ? ? ? ? []] ? ? ?].
      * apply Hm.
      * done.
    + unfold receive_from_uart. rewrite (tbind_run _ _ _ (st, None) (set_uart uart' w)); [done|].
      unfold on_uart. by rewrite Hr.
  - pose proof (receive_byte_range _ _ _ _ Hr) as Hb. destruct Hm as [Hs Hroom Hbyte Haft Hap].
    destruct (Hbyte 0 ltac:(lia)) as [v Hv]. rewrite Z.add_0_r in Hv.
    set (u1 := <[a := (b, true)]> (app_mem w)).
    assert (Hcall : receive_from_uart mmio clock fuel CAMERA_PORT a 1 w = Done (Some 0) (set_app_mem u1 (set_uart uart1 w))).
    { unfold receive_from_uart. rewrite (tbind_run _ _ _ (0, Some b) (set_uart uart1 w)) by (unfold on_uart; by rewrite Hr).
      rewrite (tbind_run _ _ _ tt (set_app_mem u1 (set_uart uart1 w))); [done|]. apply on_app_run.
      change (app_mem (set_uart uart1 w)) with (app_mem w). rewrite (store8_run _ _ _ _ Hv). unfold u8.
      by rewrite uwrap_small by exact Hb. }
    rewrite (tbind_run _ _ _ _ _ Hcall). rewrite Z.eqb_refl.
    destruct Haft as [ba Haft]. unfold apart in Hap.
    assert (Hs1 : user_string u1 dst s).
    { eapply string_frame; [exact Hs|]. intros x Hx. apply lookup_insert_ne. lia. }
    set (t := if b =? 0 then [] else [b]).
    assert (Ht : user_string u1 a t).
    { unfold t. destruct (b =? 0) eqn:E; zbool; split; simpl.
      - by intros i c Hi.
      - exists true. rewrite Z.add_0_r. unfold u1. rewrite lookup_insert_eq. by rewrite E.
      - intros [|i] c Hi; [|done]. injection Hi as <-. split; [done|]. exists true. rewrite Z.add_0_r. apply lookup_insert_eq.
      - exists ba. unfold u1. rewrite lookup_insert_ne by lia. done. }
    assert (Hlen : length (chars (b :: bs)) = (length t + length (chars bs))%nat).
    { unfold t. cbn [chars List.filter]. by destruct (b =? 0). }
    assert (Happ : chars (b :: bs) = t ++ chars bs) by (unfold t; cbn [chars List.filter]; by destruct (b =? 0)).
    rewrite Hlen in Hap, Hroom.
    assert (Hw1 : writable u1 (dst + Z.of_nat (length s)) (S (length t + length (chars bs)))).
    { intros i Hi. unfold u1. destruct (decide (a = dst + Z.of_nat (length s) + i)) as [->|Hne].
      - exists b. apply lookup_insert_eq.
      - rewrite lookup_insert_ne by done. apply Hroom. lia. }
    set (u2 := put_bytes (dst + Z.of_nat (length s)) (t ++ [0]) u1).
    assert (Htb : bytes t) by (unfold t, bytes; destruct (b =? 0); [by apply Forall_nil|by apply Forall_singleton]).
    assert (Hcat : strcat dst a u1 = Done dst u2).
    { apply (strcat_run dst a s t u1 Hs1 Ht Htb).
      - eapply writable_sub; [exact Hw1|lia|lia].
      - unfold apart. assert (length t <= 1)%nat by (unfold t; destruct (b =? 0); simpl; lia). lia. }
    rewrite (tbind_run _ _ _ dst (set_app_mem u2 (set_uart uart1 w))) by (apply (on_app_run _ (set_app_mem u1 (set_uart uart1 w)) _ _ Hcat)).
    assert (Hlt : (length t <= 1)%nat) by (unfold t; destruct (b =? 0); simpl; lia).
    destruct (IH n (s ++ t) true (size + 1) (set_app_mem u2 (set_uart uart1 w)) eq_refl ltac:(simpl in Hn; lia))
      as (u & Hrun & Hstr & Hfr).
    { rewrite app_mem_set. split.
      - apply string_append; [done|]. apply (string_bytes u1 a t Ht).
      - apply put_bytes_writable. rewrite length_app. eapply writable_sub; [exact Hw1|lia|lia].
      - apply put_bytes_writable. intros i Hi. replace (a + i) with a by lia. exists b. apply lookup_insert_eq.
      - exists ba. unfold u2. rewrite put_bytes_out by (rewrite length_app; simpl; lia). unfold u1. rewrite lookup_insert_ne by lia. done.
      - unfold apart. rewrite length_app. lia. }
    exists u. rewrite Hrun. rewrite (bool_decide_eq_false_2 (b :: bs = [])) by done. rewrite orb_true_r. split_and!.
    + simpl orb. do 3 f_equal. simpl length. lia.
    + by rewrite Happ, app_assoc.
    + rewrite app_mem_set in Hfr. rewrite Happ. intros x Hxa Hx. rewrite !length_app in *.
      rewrite Hfr by (rewrite ?length_app; lia). unfold u2. rewrite put_bytes_out by (rewrite length_app; simpl; lia).
      unfold u1. by rewrite lookup_insert_ne.
Qed.

(** C28: receiving from the camera takes every byte that the port gives, until
    it gives none; the characters are appended to the string in the buffer,
    NUL bytes are counted but not kept, and no other memory changes.  This
    needs the byte behind the one-byte buffer of [malloc] to be NUL, and room
    in the caller's buffer, which the function does not know. *)
Theorem receive_message_from_camera_spec malloc free n dst w bs uart' a u1 s : uart_gives (w_uart w) bs uart' ->
  (length bs < n)%nat -> malloc 1 (app_mem w) = (a, u1) -> receive_ready u1 dst a s (length (chars bs)) ->
  exists u, receive_message_from_camera mmio clock fuel malloc free n dst w =
      Done (Some (negb (bool_decide (bs = [])), Z.of_nat (length bs))) (set_uart uart' (set_app_mem (free a u) w)) /\
    user_string u dst (s ++ chars bs) /\
    (forall x, x <> a -> x < dst + Z.of_nat (length s) \/ dst + Z.of_nat (length (s ++ chars bs)) < x -> u !! x = u1 !! x).
Proof.
  intros Hg Hn Hm Hr.
  destruct (receive_loop_run (w_uart w) bs uart' n dst a s false 0 (set_app_mem u1 w) Hg eq_refl Hn Hr) as (u & Hrun & Hu & Hf).
  exists u. split_and!; [|done|done]. unfold receive_message_from_camera.
  rewrite (tbind_run _ _ _ a (set_app_mem u1 w)) by (unfold do_malloc, on_app; by rewrite Hm).
  rewrite (tbind_run _ _ _ _ _ Hrun). rewrite (tbind_run _ _ _ tt (set_uart uart' (set_app_mem (free a u) w))) by done. done.
Qed.

(** Nothing bounds the message.  With an empty string in the 500 bytes of
    [handle_msg] and 500 characters or more from the camera, the byte behind
    the buffer is overwritten. *)
Lemma receive_message_overruns malloc free n dst w bs uart' a u1 : uart_gives (w_uart w) bs uart' ->
  (length bs < n)%nat -> malloc 1 (app_mem w) = (a, u1) -> receive_ready u1 dst a [] (length (chars bs)) ->
  (500 <= length (chars bs))%nat ->
  exists u r, receive_message_from_camera mmio clock fuel malloc free n dst w =
      Done (Some r) (set_uart uart' (set_app_mem (free a u) w)) /\
    exists b, u !! (dst + 500) = Some (default 0 (chars bs !! 500%nat), b).
Proof.
  intros Hg Hn Hm Hr Hl.
  destruct (receive_loop_run (w_uart w) bs uart' n dst a [] false 0 (set_app_mem u1 w) Hg eq_refl Hn Hr)
    as (u & Hrun & [Hu [b0 Hu0]] & _). cbn [app] in Hu, Hu0.
  exists u. eexists. split.
  - unfold receive_message_from_camera.
    rewrite (tbind_run _ _ _ a (set_app_mem u1 w)) by (unfold do_malloc, on_app; by rewrite Hm).
    rewrite (tbind_run _ _ _ _ _ Hrun). rewrite (tbind_run _ _ _ tt (set_uart uart' (set_app_mem (free a u) w))) by done. done.
  - destruct (chars bs !! 500%nat) as [c|] eqn:E.
    + destruct (Hu _ _ E) as [_ [b Hb]]. exists b. exact Hb.
    + apply lookup_ge_None in E. exists b0. replace (dst + 500) with (dst + Z.of_nat (length (chars bs))) by lia. exact Hu0.
Qed.

End Receive.

End UartAppSpec.
