(* ===== verification/UartAppDemo.v ===== *)
(** * A camera that answers

    A port on which the camera sends a few bytes, or 500 of them, and the
    theorems on receiving applied to it; [format_recieved_data] on concrete
    bytes. *)

From Stdlib Require Import Strings.String.
From S2P Require Import Prelude Iovec SecurePort MsgQueue Handle Ipc HandleList IpcHandle IpcDemo Uctx UctxDemo.
From S2P Require Import CString UartApp UartAppSpec.

Module UartAppDemo.
Import Iovec Usercopy Uart MsgQueue Handle Ipc HandleList IpcHandle IpcDemo Uctx UctxDemo CString UartApp UartAppSpec.

(** The line status says that data is ready for the first [k] accesses; each
    access takes a second. *)
Definition camera (k : nat) (byte : nat -> Z) (addr : Z) (n : nat) : Z :=
  if addr =? lsr_addr 3 then (if (n <? k)%nat then 0x61 else 0x60) else byte n.
Definition seconds (n : nat) : Z := 1000000 * Z.of_nat n.

(** Reading the port until it gives nothing. *)
Fixpoint drain mmio (n : nat) (s : port_st) : option (list Z * port_st) :=
  match n with
  | O => None
  | S n =>
      match sys_receive_from_uart mmio seconds 4 CAMERA_PORT 1 s with
      | Done (Some (st, None)) s' => if st =? 0 then None else Some ([], s')
      | Done (Some (0, Some b)) s1 => r ← drain mmio n s1; Some (b :: r.1, r.2)
      | _ => None
      end
  end.

Lemma drain_gives mmio n s bs s' : drain mmio n s = Some (bs, s') -> uart_gives mmio seconds 4 s bs s'.
Proof.
  revert s bs. induction n as [|n IH]; intros s bs; [done|]. cbn [drain].
  destruct (sys_receive_from_uart _ _ _ _ _ s) as [[[st [b|]]|] s1|e] eqn:E; try done.
  - destruct st; try done. destruct (drain mmio n s1) as [[bs1 s2]|] eqn:E1; [|done]. simpl. intros [= <- <-].
    eapply GivesByte; [exact E|]. by apply IH.
  - assert (Hst : (if st =? 0 then None else Some ([], s1)) = Some (bs, s') -> uart_gives mmio seconds 4 s bs s').
    { destruct (st =? 0) eqn:Es; zbool; [done|]. intros [= <- <-]. by eapply GivesNone. }
    by destruct st.
Qed.

(** Memory from a list of bytes. *)
Definition block (a : Z) (bs : list Z) : umem := put_bytes a bs ∅.

Definition writable_b (u : umem) (a : Z) (n : nat) : bool :=
  forallb (fun i => match u !! (a + Z.of_nat i) with Some (_, true) => true | _ => false end) (seq 0 n).
Lemma writable_b_ok u a n : writable_b u a n = true -> writable u a n.
Proof.
  intros Hb i Hi. unfold writable_b in Hb. rewrite forallb_forall in Hb.
  specialize (Hb (Z.to_nat i) ltac:(apply in_seq; lia)). rewrite Z2Nat.id in Hb by lia.
  destruct (u !! (a + i)) as [[v []]|]; [by eexists|done|done].
Qed.

(** The application's heap: a buffer of [n] bytes at 1000 that starts as an
    empty string, and the one-byte buffer at 100. *)
Definition app_heap (n : nat) : umem := put_bytes 1000 (replicate n 0) (block 100 [9; 0]).
Definition malloc (size : Z) (u : umem) : Z * umem := (100, u).
Definition free (a : Z) (u : umem) : umem := u.
Definition wld (n : nat) : world := set_app_mem (app_heap n) (World demo' ctx uart_c_open INVALID_IPC_HANDLE).

Lemma ready n m : writable_b (app_heap n) 1000 (S m) = true -> (exists b, app_heap n !! 1000 = Some (0, b)) ->
  app_heap n !! 100 = Some (9, true) -> app_heap n !! 101 = Some (0, true) -> receive_ready (app_heap n) 1000 100 [] m.
Proof.
  intros Hw Hz H0 H1. split; simpl.
  - split; [by intros i c Hi|]. exact Hz.
  - by apply writable_b_ok.
  - intros i Hi. replace (100 + i) with 100 by lia. by eexists.
  - by eexists.
  - unfold apart. lia.
Qed.

Definition three (n : nat) : Z := if (n <? 3)%nat then 65 else if (n <? 6)%nat then 0 else 66.

Lemma receive_message_from_camera_spec_witness :
  exists u uart', receive_message_from_camera (camera 9 three) seconds 4 malloc free 5 1000 (wld 10) =
      Done (Some (true, 3)) (set_uart uart' (set_app_mem (free 100 u) (wld 10))) /\ user_string u 1000 [65; 66].
Proof.
  destruct (drain (camera 9 three) 6 uart_c_open) as [[bs uart']|] eqn:E; [|by vm_compute in E].
  assert (Hbs : bs = [65; 0; 66]) by (vm_compute in E; congruence). apply drain_gives in E. subst bs.
  destruct (receive_message_from_camera_spec (camera 9 three) seconds 4 malloc free 5 1000 (wld 10) [65; 0; 66] uart' 100
    (app_heap 10) [] E ltac:(simpl; lia) eq_refl) as (u & H1 & H2 & _).
  - apply ready; [vm_compute; reflexivity|by exists true|vm_compute; reflexivity|vm_compute; reflexivity].
  - exists u, uart'. split; [exact H1|exact H2].
Defined.

Lemma receive_message_overruns_witness :
  exists u r uart', receive_message_from_camera (camera 1500 (fun _ => 65)) seconds 4 malloc free 600 1000 (wld 501) =
      Done (Some r) (set_uart uart' (set_app_mem (free 100 u) (wld 501))) /\
    exists b, u !! 1500 = Some (0, b).
Proof.
  destruct (drain (camera 1500 (fun _ => 65)) 600 uart_c_open) as [[bs uart']|] eqn:E; [|by vm_compute in E].
  assert (Hbs : bs = replicate 500 65) by (vm_compute in E; vm_compute; congruence). apply drain_gives in E.
  assert (Hc : chars bs = replicate 500 65) by (rewrite Hbs; vm_compute; reflexivity).
  assert (Hl : length (chars bs) = 500%nat) by (rewrite Hc; reflexivity).
  destruct (receive_message_overruns (camera 1500 (fun _ => 65)) seconds 4 malloc free 600 1000 (wld 501) bs uart' 100
    (app_heap 501) E ltac:(rewrite Hbs, length_replicate; lia) eq_refl) as (u & r & H1 & b & H2).
  - rewrite Hl. apply ready; [vm_compute; reflexivity|exists true; vm_compute; reflexivity|vm_compute; reflexivity|vm_compute; reflexivity].
  - rewrite Hl. lia.
  - exists u, r, uart'. split; [exact H1|]. exists b. rewrite Hc in H2. exact H2.
Defined.

(** ** The decimal text *)

Definition fr : frame := Frame 10 20 30 40 50 60 70 80 2000.
(** Memory with the two work buffers, the output, the literal and the message. *)
Definition fmt_mem (msg : list Z) : umem :=
  put_bytes 70 [0] (put_bytes 80 [32; 0] (put_bytes 200 (replicate 100 0) (put_bytes 400 (replicate 100 0)
    (put_bytes 600 (replicate 40 0) (put_bytes 700 msg ∅))))).
Definition formatted (msg : list Z) : option (Z * list Z) :=
  match format_loop fr (List.length msg) 700 600 200 400 0 (fmt_mem msg) with
  | Done g u => Some (g, user_bytes (Z.to_nat g + 1) 600 u)
  | Crash _ => None
  end.

(** Values are written in decimal, zero as two digits, each with a blank. *)
Example format_text : formatted [0; 7; 118; 255] = Some (13, lit "00 7 118 255 ").
Proof. vm_compute. reflexivity. Qed.

(** Three bytes of text per byte of the message are allocated; a value of
    three digits takes four, and the terminator one more. *)
Example format_needs_more : formatted [200; 201] = Some (8, lit "200 201 ") /\ 2 * 3 < 8 + 1.
Proof. split; [vm_compute; reflexivity|lia]. Qed.

End UartAppDemo.
