(* ===== verification/TrustyApp.v ===== *)
(** * Loading the trusted applications

    [lk/trusty/lib/trusty/trusty_app.c]: the ELF images behind the kernel are
    found, their manifests read, their segments mapped and their heaps set
    up.  Kernel memory is a map from addresses to bytes; the images lie in it
    at the address the linker gives. *)

From Stdlib Require Import Strings.String Strings.Ascii.
From S2P Require Import Prelude Iovec Uthread.

Module TrustyApp.
Import Iovec Uthread.

(** ** Constants *)

Definition TRUSTY_APP_CONFIG_KEY_MIN_STACK_SIZE : Z := 1.
Definition TRUSTY_APP_CONFIG_KEY_MIN_HEAP_SIZE : Z := 2.
Definition TRUSTY_APP_CONFIG_KEY_MAP_MEM : Z := 3.
Definition TRUSTY_APP_START_ADDR : Z := 0x8000.
Definition TRUSTY_APP_STACK_TOP : Z := 0x1000000.
Definition PAGE_MASK : Z := PAGE_SIZE - 1.
Definition NV_GUEST_TASK_MAGIC_STR : string := "NVGUESTTASK".
Definition NV_GUEST_TASK_MAGIC_ID_LEN : Z := 11 + 1.
Definition NV_GUEST_TASK_HEAD_SIZE : Z := 0x20.
Definition DEFAULT_STACK_SIZE : Z := 4096.

Definition UUID_SIZE : Z := 16.
Definition PT_LOAD : Z := 1.
Definition PF_X : Z := 1.
Definition PF_W : Z := 2.
Definition PF_R : Z := 4.
Definition SHT_NULL : Z := 0.
Definition SHT_NOBITS : Z := 8.
Definition SELFMAG : nat := 4.
Definition ELFMAG : list Z := [0x7f; 69; 76; 70].
Definition SHDR_SIZE : Z := 40.
Definition PHDR_SIZE : Z := 32.

(** [sizeof(trusty_app_t)]: four words, the properties with their pointer,
    and three pointers. *)
Definition TRUSTY_APP_SIZE : Z := 4 * 8 + (16 + 5 * 4 + 4 + 8) + 3 * 8.
Definition MAX_TRUSTY_APP_COUNT : Z := PAGE_SIZE / TRUSTY_APP_SIZE.

(** [ROUNDUP] to pages with a result of 32 bits. *)
Definition ROUNDUP32 (x : Z) : Z := Z.land (u32 (x + (PAGE_SIZE - 1))) (u32 (Z.lnot (PAGE_SIZE - 1))).

(** ** Applications *)

Record app_props := Props {
  uuid : list Z;
  vmid : Z;
  min_stack_size : Z;
  min_heap_size : Z;
  map_io_mem_cnt : Z;
  config_entry_cnt : Z;
  config_blob : Z          (* 0 when there are no options *)
}.

Record trusty_app (UT : Type) := TApp {
  end_bss : Z;
  start_brk : Z;
  cur_brk : Z;
  end_brk : Z;
  props : app_props;
  app_img : Z;
  app_ut : option UT;
  als : option (list Z)
}.
Arguments TApp {UT}.
Arguments end_bss {UT}.
Arguments start_brk {UT}.
Arguments cur_brk {UT}.
Arguments end_brk {UT}.
Arguments props {UT}.
Arguments app_img {UT}.
Arguments app_ut {UT}.
Arguments als {UT}.

Definition props_zero : app_props := Props (replicate 16 0) 0 0 0 0 0 0.
Definition app_zero {UT} : trusty_app UT := TApp 0 0 0 0 props_zero 0 None None.

Definition set_uuid (x : list Z) (p : app_props) : app_props :=
  Props x (vmid p) (min_stack_size p) (min_heap_size p) (map_io_mem_cnt p) (config_entry_cnt p) (config_blob p).
Definition set_vmid (x : Z) (p : app_props) : app_props :=
  Props (uuid p) x (min_stack_size p) (min_heap_size p) (map_io_mem_cnt p) (config_entry_cnt p) (config_blob p).
Definition set_min_stack (x : Z) (p : app_props) : app_props :=
  Props (uuid p) (vmid p) x (min_heap_size p) (map_io_mem_cnt p) (config_entry_cnt p) (config_blob p).
Definition set_min_heap (x : Z) (p : app_props) : app_props :=
  Props (uuid p) (vmid p) (min_stack_size p) x (map_io_mem_cnt p) (config_entry_cnt p) (config_blob p).
Definition set_io_cnt (x : Z) (p : app_props) : app_props :=
  Props (uuid p) (vmid p) (min_stack_size p) (min_heap_size p) x (config_entry_cnt p) (config_blob p).
Definition set_entries (n blob : Z) (p : app_props) : app_props :=
  Props (uuid p) (vmid p) (min_stack_size p) (min_heap_size p) (map_io_mem_cnt p) n blob.

(** ** Kernel memory *)

Definition rd8 (a : Z) : M kmem Z := m <- get ;; deref (m !! a).
Definition wr8 (a v : Z) : M kmem unit := m <- get ;; _ <- deref (m !! a) ;; put (<[a := v]> m).
Definition rd16 (a : Z) : M kmem Z := b0 <- rd8 a ;; b1 <- rd8 (a + 1) ;; ret (b0 + 2 ^ 8 * b1).
Definition rd32 (a : Z) : M kmem Z :=
  b0 <- rd8 a ;; b1 <- rd8 (a + 1) ;; b2 <- rd8 (a + 2) ;; b3 <- rd8 (a + 3) ;; ret (le32 [b0; b1; b2; b3]).

Fixpoint rd_bytes (n : nat) (a : Z) : M kmem (list Z) :=
  match n with O => ret [] | S n => b <- rd8 a ;; bs <- rd_bytes n (a + 1) ;; ret (b :: bs) end.

Fixpoint memset (n : nat) (a v : Z) : M kmem unit :=
  match n with O => ret tt | S n => wr8 a v ;;; memset n (a + 1) v end.

(** The copies of the loader move memory down, so the bytes are taken in
    ascending order. *)
Fixpoint copy_down (n : nat) (dest src : Z) : M kmem unit :=
  match n with O => ret tt | S n => b <- rd8 src ;; wr8 dest b ;;; copy_down n (dest + 1) (src + 1) end.

(** [strcmp(cs, ct) == 0] for a string [ct] of the kernel (with its NUL). *)
Fixpoint str_is (cs : Z) (ct : list Z) : M kmem bool :=
  match ct with
  | [] => ret true
  | c :: ct =>
      b <- rd8 cs ;;
      if negb (b =? c) then ret false else if b =? 0 then ret true else str_is (cs + 1) ct
  end.
Definition lit (s : string) : list Z := (fun c => Z.of_N (N_of_ascii c)) <$> list_ascii_of_string s ++ ["000"%char].

(** ** [strtoul] with base 0 *)

Definition digit_value (c : Z) : Z :=
  if (65 <=? c) && (c <=? 90) then c - 65 + 10
  else if (97 <=? c) && (c <=? 122) then c - 97 + 10
  else if (48 <=? c) && (c <=? 57) then c - 48
  else -1.

Definition ULONG_MAX : Z := 2 ^ 64 - 1.

(** The value and the address where the digits end. *)
Fixpoint strtoul_loop (fuel : nat) (nptr base acc : Z) : M kmem (Z * Z) :=
  match fuel with
  | O => bad_access
  | S fuel =>
      c <- rd8 nptr ;;
      let v := digit_value c in
      if (v <? 0) || (base <=? v) then ret (acc, nptr)
      else
        let new_ret := u64 (acc * base) in
        let acc := if negb (new_ret / base =? acc) || (u64 (new_ret + v) <? new_ret) || (acc =? ULONG_MAX)
                   then ULONG_MAX else u64 (new_ret + v) in
        strtoul_loop fuel (nptr + 1) base acc
  end.

Definition isspace (c : Z) : bool := (c =? 32) || ((9 <=? c) && (c <=? 13)).

Fixpoint skip_space (fuel : nat) (nptr : Z) : M kmem Z :=
  match fuel with
  | O => bad_access
  | S fuel => c <- rd8 nptr ;; if isspace c then skip_space fuel (nptr + 1) else ret nptr
  end.

Definition strtoul (nptr : Z) : M kmem (Z * Z) :=
  m <- get ;;
  nptr <- skip_space (S (size m)) nptr ;;
  c <- rd8 nptr ;;
  let neg := c =? 45 in
  let nptr := if (c =? 43) || (c =? 45) then nptr + 1 else nptr in
  c0 <- rd8 nptr ;;
  c1 <- (if c0 =? 48 then rd8 (nptr + 1) else ret 0) ;;
  let '(base, nptr) := if (c0 =? 48) && (c1 =? 120) then (16, nptr + 2)
                       else if c0 =? 48 then (8, nptr + 1) else (10, nptr) in
  r <- strtoul_loop (S (size m)) nptr base 0 ;;
  ret (if neg && negb (r.1 =? ULONG_MAX) then u64 (- r.1) else r.1, r.2).

(** ** The manifest *)

(** The loop over the configuration words of [load_app_config_options]. *)
Fixpoint config_loop (fuel : nat) (i cnt blob : Z) (p : app_props) : M kmem app_props :=
  match fuel with
  | O => ret p
  | S fuel =>
      if i <? cnt then
        key <- rd32 (blob + 4 * i) ;;
        if key =? TRUSTY_APP_CONFIG_KEY_MIN_STACK_SIZE then
          assert_ (1 <? cnt - i) ;;;
          v <- rd32 (blob + 4 * (i + 1)) ;;
          let p := set_min_stack (ROUNDUP32 v) p in
          assert_ (0 <? min_stack_size p) ;;;
          config_loop fuel (i + 2) cnt blob p
        else if key =? TRUSTY_APP_CONFIG_KEY_MIN_HEAP_SIZE then
          assert_ (1 <? cnt - i) ;;;
          v <- rd32 (blob + 4 * (i + 1)) ;;
          let p := set_min_heap (ROUNDUP32 v) p in
          assert_ (0 <? min_heap_size p) ;;;
          config_loop fuel (i + 2) cnt blob p
        else if key =? TRUSTY_APP_CONFIG_KEY_MAP_MEM then
          assert_ (3 <? cnt - i) ;;;
          config_loop fuel (i + 4) cnt blob (set_io_cnt (u32 (map_io_mem_cnt p + 1)) p)
        else panic
      else ret p
  end.

(** [sh_offset] and [sh_size] are those of the manifest's section. *)
Definition load_app_config_options (image sh_offset sh_size task_vmid : Z) (p : app_props) : M kmem app_props :=
  assert_ (UUID_SIZE <=? sh_size) ;;;
  let p := set_vmid task_vmid (set_min_stack DEFAULT_STACK_SIZE (set_min_heap (4 * PAGE_SIZE) p)) in
  let manifest_data := image + sh_offset in
  id <- rd_bytes (Z.to_nat UUID_SIZE) manifest_data ;;
  let p := set_uuid id p in
  let manifest_data := manifest_data + UUID_SIZE in
  let cnt := (sh_size - UUID_SIZE) / 4 in
  if cnt =? 0 then ret (set_entries 0 (config_blob p) p)
  else config_loop (Z.to_nat cnt) 0 cnt manifest_data (set_entries cnt manifest_data p).

(** The loop of [trusty_app_setup_mmio]: what is to be mapped, or the error. *)
Fixpoint mmio_loop (fuel : nat) (i cnt blob mmio_id map_size : Z) : M kmem (Z + Z * Z) :=
  match fuel with
  | O => ret (inl ERR_NOT_FOUND)
  | S fuel =>
      if i <? cnt then
        key <- rd32 (blob + 4 * i) ;;
        if key =? TRUSTY_APP_CONFIG_KEY_MAP_MEM then
          id <- rd32 (blob + 4 * (i + 1)) ;;
          offset <- rd32 (blob + 4 * (i + 2)) ;;
          v <- rd32 (blob + 4 * (i + 3)) ;;
          let size := ROUNDUP32 v in
          if negb (id =? mmio_id) then mmio_loop fuel (i + 4) cnt blob mmio_id map_size
          else
            let map_size := ROUNDUP32 map_size in
            if size <? map_size then ret (inl ERR_INVALID_ARGS) else ret (inr (offset, map_size))
        else mmio_loop fuel (i + 2) cnt blob mmio_id map_size
      else ret (inl ERR_NOT_FOUND)
  end.

(** ** Mapping an application *)

Definition PF_TO_UTM_FLAGS (x : Z) : Z :=
  Z.lor (Z.lor (if has_flag x PF_R then UTM_R else 0) (if has_flag x PF_W then UTM_W else 0))
        (if has_flag x PF_X then UTM_X else 0).

(** The fields of a program header and of a section header that are used. *)
Record Elf32_Phdr := Phdr { p_type : Z; p_offset : Z; p_vaddr : Z; p_memsz : Z; p_flags : Z }.
Record Elf32_Shdr := Shdr { sh_name : Z; sh_type : Z; sh_addr : Z; sh_offset : Z; sh_size : Z }.
Record Elf32_Ehdr := Ehdr { e_entry : Z; e_phoff : Z; e_shoff : Z; e_phnum : Z; e_shentsize : Z; e_shnum : Z; e_shstrndx : Z }.

Definition read_phdr (a : Z) : M kmem Elf32_Phdr :=
  ty <- rd32 a ;; off <- rd32 (a + 4) ;; va <- rd32 (a + 8) ;; mem <- rd32 (a + 20) ;; fl <- rd32 (a + 24) ;;
  ret (Phdr ty off va mem fl).
Definition read_shdr (a : Z) : M kmem Elf32_Shdr :=
  name <- rd32 a ;; ty <- rd32 (a + 4) ;; addr <- rd32 (a + 12) ;; off <- rd32 (a + 16) ;; sz <- rd32 (a + 20) ;;
  ret (Shdr name ty addr off sz).
Definition read_ehdr (a : Z) : M kmem Elf32_Ehdr :=
  en <- rd32 (a + 24) ;; ph <- rd32 (a + 28) ;; sh <- rd32 (a + 32) ;; pn <- rd16 (a + 44) ;; se <- rd16 (a + 46) ;;
  sn <- rd16 (a + 48) ;; st <- rd16 (a + 50) ;;
  ret (Ehdr en ph sh pn se sn st).

Section Load.
Context {PT : Type}.
Context (arm64_mmu_map : Z -> Z -> Z -> Z -> PT -> Z * PT) (arm64_mmu_unmap : Z -> Z -> PT -> Z * PT).
Context (new_table : PT) (address_to_page : Z -> bool) (vaddr_to_paddr : Z -> Z).
Abbreviation UT := (uthread PT).
Abbreviation tapp := (trusty_app UT).

Definition set_brk (start cur end_ : Z) (a : tapp) : tapp :=
  TApp (end_bss a) start cur end_ (props a) (app_img a) (app_ut a) (als a).
Definition set_end_bss (x : Z) (a : tapp) : tapp :=
  TApp x (start_brk a) (cur_brk a) (end_brk a) (props a) (app_img a) (app_ut a) (als a).
Definition set_props (x : app_props) (a : tapp) : tapp :=
  TApp (end_bss a) (start_brk a) (cur_brk a) (end_brk a) x (app_img a) (app_ut a) (als a).
Definition set_img (x : Z) (a : tapp) : tapp :=
  TApp (end_bss a) (start_brk a) (cur_brk a) (end_brk a) (props a) x (app_ut a) (als a).
Definition set_ut (x : option UT) (a : tapp) : tapp :=
  TApp (end_bss a) (start_brk a) (cur_brk a) (end_brk a) (props a) (app_img a) x (als a).
Definition set_als (x : option (list Z)) (a : tapp) : tapp :=
  TApp (end_bss a) (start_brk a) (cur_brk a) (end_brk a) (props a) (app_img a) (app_ut a) x.

(** Kernel memory and the address space of the application being loaded. *)
Abbreviation S := (kmem * UT)%type.
Definition on_km {A} (m : M kmem A) : M S A := fun s =>
  match m s.1 with Done a x => Done a (x, s.2) | Crash w => Crash w end.
Definition on_ut {A} (m : M UT A) : M S A := fun s =>
  match m s.2 with Done a x => Done a (s.1, x) | Crash w => Crash w end.

(** Whether the two allocations behind one mapping succeed. *)
Abbreviation heap2 := (bool * bool)%type.

Definition map_contig (hp : heap2) (vaddr paddr size flags : Z) : M S (Z * Z) :=
  on_ut (uthread_map_contig arm64_mmu_map arm64_mmu_unmap new_table hp vaddr paddr size flags UT_MAP_ALIGN_4KB).

(** [heap] is what [memalign] returns.  The result is the status and the
    application. *)
Definition init_brk (heap : option Z) (hp : heap2) (a : tapp) : M S (Z * tapp) :=
  let a := set_brk (start_brk a) (start_brk a) (end_brk a) a in
  if min_heap_size (props a) <=? u64 (end_brk a - start_brk a) then ret (NO_ERROR, a)
  else
    match heap with
    | None => ret (ERR_NO_MEMORY, a)
    | Some heap =>
        on_km (memset (Z.to_nat (min_heap_size (props a))) heap 0) ;;;
        r <- map_contig hp (end_brk a) (vaddr_to_paddr heap) (min_heap_size (props a)) (Z.lor (Z.lor UTM_W UTM_R) UTM_FIXED) ;;
        if negb (r.1 =? NO_ERROR) || negb (r.2 =? end_brk a) then ret (ERR_NO_MEMORY, a)
        else ret (NO_ERROR, set_brk (start_brk a) (cur_brk a) (u64 (end_brk a + min_heap_size (props a))) a)
    end.

(** One program header: the status ([NO_ERROR] to go on) and the application. *)
Definition load_segment (hp : heap2) (img : Z) (ph : Elf32_Phdr) (a : tapp) : M S (Z * tapp) :=
  if negb (p_type ph =? PT_LOAD) then ret (NO_ERROR, a)
  else if (p_vaddr ph <? TRUSTY_APP_START_ADDR) || (end_bss a <=? p_vaddr ph) then ret (NO_ERROR, a)
  else
    assert_ ((Z.land (p_vaddr ph) PAGE_MASK =? 0) && (Z.land (p_offset ph) PAGE_MASK =? 0)) ;;;
    let size := ROUNDUP (p_memsz ph) PAGE_SIZE in
    r <- map_contig hp (p_vaddr ph) (vaddr_to_paddr (img + p_offset ph)) size (Z.lor (PF_TO_UTM_FLAGS (p_flags ph)) UTM_FIXED) ;;
    if negb (r.1 =? NO_ERROR) then ret (r.1, a)
    else
      let stack_bot := u32 (TRUSTY_APP_STACK_TOP - min_stack_size (props a)) in
      if stack_bot <? r.2 + size then ret (ERR_TOO_BIG, a)
      else
        let last_mem := u32 (p_vaddr ph + p_memsz ph) in
        if start_brk a <? last_mem then
          on_km (memset (Z.to_nat (size - p_memsz ph)) (img + p_offset ph + p_memsz ph) 0) ;;;
          ret (NO_ERROR, set_brk last_mem (cur_brk a) (p_vaddr ph + size) a)
        else ret (NO_ERROR, a).

Fixpoint segment_loop (hps : list heap2) (img phoff i : Z) (a : tapp) : M S (Z * tapp) :=
  match hps with
  | [] => ret (NO_ERROR, a)
  | hp :: hps =>
      ph <- on_km (read_phdr (img + phoff + i * PHDR_SIZE)) ;;
      r <- load_segment hp img ph a ;;
      if negb (r.1 =? NO_ERROR) then ret r else segment_loop hps img phoff (i + 1) r.2
  end.

(** [hps] has one entry per program header. *)
Definition alloc_address_map (hps : list heap2) (heap : option Z) (hp : heap2) (a : tapp) : M S (Z * tapp) :=
  eh <- on_km (read_ehdr (app_img a)) ;;
  assert_ (Z.of_nat (List.length hps) =? e_phnum eh) ;;;
  r <- segment_loop hps (app_img a) (e_phoff eh) 0 a ;;
  if negb (r.1 =? NO_ERROR) then ret r else init_brk heap hp r.2.

Definition trusty_app_setup_mmio (hp : heap2) (a : tapp) (mmio_id vaddr map_size : Z) : M S (Z * Z) :=
  r <- on_km (mmio_loop (Datatypes.S (Z.to_nat (config_entry_cnt (props a)))) 0 (config_entry_cnt (props a)) (config_blob (props a))
                mmio_id map_size) ;;
  match r with
  | inl e => ret (e, vaddr)
  | inr (offset, size) => map_contig hp vaddr offset size (Z.lor (Z.lor UTM_W UTM_R) UTM_IO)
  end.

(** ** Finding the images *)

Record loader := Loader {
  l_mem : kmem;
  image_end : Z;
  image_size : Z;
  guest_count : Z;
  debug_disabled : bool;      (* platform_disable_debug_intf was called *)
  apps : list tapp            (* trusty_app_list, the first trusty_app_count of it *)
}.
Definition upd_image (e s : Z) (l : loader) : loader :=
  Loader (l_mem l) e s (guest_count l) (debug_disabled l) (apps l).
Definition on_lm {A} (m : M kmem A) : M loader A := fun l =>
  match m (l_mem l) with
  | Done a x => Done a (Loader x (image_end l) (image_size l) (guest_count l) (debug_disabled l) (apps l))
  | Crash w => Crash w
  end.
Definition add_guest (l : loader) : loader :=
  Loader (l_mem l) (image_end l) (image_size l) (u32 (guest_count l + 1))
    (debug_disabled l || (u32 (guest_count l + 1) =? 1)) (apps l).
Definition add_app (a : tapp) (l : loader) : loader :=
  Loader (l_mem l) (image_end l) (image_size l) (guest_count l) (debug_disabled l) (apps l ++ [a]).

(** The result is the status and [*task_vmid]. *)
Definition update_task_addr_with_vmid (addr task_vmid : Z) : M loader (Z * Z) :=
  b <- on_lm (str_is addr (lit NV_GUEST_TASK_MAGIC_STR)) ;;
  if b then
    modify add_guest ;;;
    r <- on_lm (strtoul (addr + NV_GUEST_TASK_MAGIC_ID_LEN)) ;;
    e <- on_lm (rd8 r.2) ;;
    if negb (e =? 0) then ret (ERR_INVALID_ARGS, u32 r.1)
    else
      l <- get ;;
      modify (upd_image (image_end l - NV_GUEST_TASK_HEAD_SIZE) (u32 (image_size l - NV_GUEST_TASK_HEAD_SIZE))) ;;;
      on_lm (copy_down (Z.to_nat (u32 (image_size l - NV_GUEST_TASK_HEAD_SIZE))) addr (addr + NV_GUEST_TASK_HEAD_SIZE)) ;;;
      ret (NO_ERROR, u32 r.1)
  else ret (NO_ERROR, task_vmid).

(** The start of the next image, moved up to the page boundary. *)
Definition align_next_app (eh : Elf32_Ehdr) (addr : Z) (pad : Elf32_Shdr) (max_extent : Z) : M loader Z :=
  assert_ (Z.land (u32 (max_extent + 3)) (u32 (Z.lnot 3)) =? e_shoff eh) ;;;
  let max_extent := u32 (e_shoff eh + e_shnum eh * e_shentsize eh - 1) in
  l <- get ;;
  assert_ (addr + max_extent + 1 <=? image_end l) ;;;
  let align_start := addr + sh_offset pad + sh_size pad in
  let fsize_start := addr + max_extent + 1 in
  assert_ (align_start <=? fsize_start) ;;;
  let copy_size := u32 (image_end l - fsize_start) in
  (if negb (copy_size =? 0) then
     on_lm (copy_down (Z.to_nat copy_size) align_start fsize_start) ;;;
     modify (upd_image (image_end l - (fsize_start - align_start)) (image_size l))
   else ret tt) ;;;
  l <- get ;;
  modify (upd_image (image_end l) (u32 (image_size l - (max_extent + 1)))) ;;;
  ret align_start.

(** What the loop over the sections finds. *)
Record sections := Sections {
  s_bss : option Elf32_Shdr;
  s_pad : option Elf32_Shdr;
  s_manifest : option Elf32_Shdr;
  s_end_bss : Z;
  s_extent : Z
}.

Fixpoint section_loop (n : nat) (i shdr shstbl : Z) (s : sections) : M kmem sections :=
  match n with
  | O => ret s
  | Datatypes.S n =>
      sh <- read_shdr (shdr + i * SHDR_SIZE) ;;
      if sh_type sh =? SHT_NULL then section_loop n (i + 1) shdr shstbl s
      else
        let name := shstbl + sh_name sh in
        bss <- str_is name (lit ".bss") ;;
        s <- (if bss then
                ret (Sections (Some sh) (s_pad s) (s_manifest s) (u32 (sh_addr sh + sh_size sh)) (s_extent s))
              else
                pad <- str_is name (lit ".bss-pad") ;;
                if pad then ret (Sections (s_bss s) (Some sh) (s_manifest s) (s_end_bss s) (s_extent s))
                else
                  man <- str_is name (lit ".trusty_app.manifest") ;;
                  if man then ret (Sections (s_bss s) (s_pad s) (Some sh) (s_end_bss s) (s_extent s)) else ret s) ;;
        let extent := u32 (sh_offset sh + sh_size sh) in
        let s := if negb (sh_type sh =? SHT_NOBITS) && (s_extent s <? extent)
                 then Sections (s_bss s) (s_pad s) (s_manifest s) (s_end_bss s) extent else s in
        section_loop n (i + 1) shdr shstbl s
  end.

Fixpoint magic (cs : Z) (l : list Z) : M kmem bool :=
  match l with
  | [] => ret true
  | c :: l => b <- rd8 cs ;; if negb (b =? c) then ret false else magic (cs + 1) l
  end.

(** One turn of the loop of [trusty_app_bootloader]: the address of the next
    image and its VMID, or [None] when no ELF header is found. *)
Definition boot_one (addr task_vmid : Z) : M loader (option (Z * Z)) :=
  r <- update_task_addr_with_vmid addr task_vmid ;;
  if negb (r.1 =? NO_ERROR) then panic
  else
    elf <- on_lm (magic addr ELFMAG) ;;
    if negb elf then ret None
    else
      eh <- on_lm (read_ehdr addr) ;;
      let shdr := addr + e_shoff eh in
      strsec <- on_lm (read_shdr (shdr + e_shstrndx eh * SHDR_SIZE)) ;;
      s <- on_lm (section_loop (Z.to_nat (e_shnum eh)) 0 shdr (addr + sh_offset strsec) (Sections None None None 0 0)) ;;
      match s_bss s, s_pad s, s_manifest s with
      | Some bss, Some pad, Some manifest =>
          assert_ (u32 (sh_offset bss + sh_size bss) <=? s_extent s) ;;;
          on_lm (memset (Z.to_nat (sh_size bss)) (addr + sh_offset bss) 0) ;;;
          p <- on_lm (load_app_config_options addr (sh_offset manifest) (sh_size manifest) r.2 props_zero) ;;
          let a := set_img addr (set_props p (set_end_bss (s_end_bss s) app_zero)) in
          next <- align_next_app eh addr pad (s_extent s) ;;
          l <- get ;;
          assert_ (Z.of_nat (List.length (apps l)) + 1 <? MAX_TRUSTY_APP_COUNT) ;;;
          modify (add_app a) ;;;
          ret (Some (next, r.2))
      | _, _, _ => panic
      end.

Fixpoint boot_loop (fuel : nat) (addr task_vmid : Z) : M loader (option unit) :=
  match fuel with
  | O => ret None
  | Datatypes.S fuel =>
      l <- get ;;
      if 0 <? image_size l then
        r <- boot_one addr task_vmid ;;
        match r with
        | None => ret (Some tt)
        | Some (next, v) => boot_loop fuel next v
        end
      else ret (Some tt)
  end.

Definition trusty_app_bootloader (fuel : nat) (image_start : Z) : M loader (option unit) := boot_loop fuel image_start 0.

(** ** The applications that were found *)

Definition trusty_app_find_by_uuid (id : list Z) (vm : Z) (l : list tapp) : option tapp :=
  List.find (fun a => bool_decide (uuid (props a) = id) && (vmid (props a) =? vm)) l.

Fixpoint trusty_app_forall {St} (fn : tapp -> M St unit) (l : list tapp) : M St unit :=
  match l with [] => ret tt | a :: l => fn a ;;; trusty_app_forall fn l end.

(** ** Starting them up

    What the allocators answer while one application is set up: for its
    thread structure, stack and thread, for each segment, for its heap, and
    for its local storage. *)
Record grants := Grants {
  g_uthread : bool * bool * bool;
  g_stack : option Z;
  g_thread : bool;
  g_segments : list heap2;
  g_heap : option Z;
  g_heap_map : heap2;
  g_als : bool
}.

(** A notifier's [startup]: its status and the application after it. *)
Fixpoint notify_startup (ns : list (tapp -> Z * tapp)) (a : tapp) : M S tapp :=
  match ns with
  | [] => ret a
  | n :: ns => let r := n a in if negb (r.1 =? NO_ERROR) then panic else notify_startup ns r.2
  end.

(** One turn of the loop of [trusty_app_init]. *)
Definition init_app (als_cnt : Z) (ns : list (tapp -> Z * tapp)) (g : grants) (a : tapp) : M kmem tapp := fun m =>
  let run : M S tapp :=
    ok <- on_ut (uthread_create arm64_mmu_map arm64_mmu_unmap new_table (g_uthread g) (g_stack g) (g_thread g)
                   TRUSTY_APP_STACK_TOP (min_stack_size (props a))) ;;
    if negb ok then panic
    else
      r <- alloc_address_map (g_segments g) (g_heap g) (g_heap_map g) a ;;
      if negb (r.1 =? NO_ERROR) then panic
      else if negb (g_als g) then panic
      else notify_startup ns (set_als (Some (replicate (Z.to_nat als_cnt) 0)) r.2) in
  match run (m, uthread_zero) with
  | Done a s => Done (set_ut (Some s.2) a) s.1
  | Crash w => Crash w
  end.

Fixpoint init_loop (als_cnt : Z) (ns : list (tapp -> Z * tapp)) (gs : list grants) (l : list tapp) : M kmem (list tapp) :=
  match l, gs with
  | [], _ => ret []
  | a :: l, g :: gs => a <- init_app als_cnt ns g a ;; l <- init_loop als_cnt ns gs l ;; ret (a :: l)
  | _, [] => panic
  end.

Definition trusty_app_init (fuel : nat) (als_cnt : Z) (ns : list (tapp -> Z * tapp)) (gs : list grants) (image_start : Z)
    : M loader (option unit) :=
  l <- get ;;
  assert_ (Z.land image_start PAGE_MASK =? 0) ;;;
  r <- trusty_app_bootloader fuel image_start ;;
  match r with
  | None => ret None
  | Some _ =>
      l <- get ;;
      apps' <- on_lm (init_loop als_cnt ns gs (apps l)) ;;
      modify (fun l => Loader (l_mem l) (image_end l) (image_size l) (guest_count l) (debug_disabled l) apps') ;;;
      ret (Some tt)
  end.

End Load.

(** ** Registration before the applications start *)

Record registry := Registry { apps_started : bool; app_notifiers : list Z; als_slot_cnt : Z }.

Definition finalize_registration : M registry unit :=
  modify (fun r => Registry true (app_notifiers r) (als_slot_cnt r)).
Definition trusty_register_app_notifier (n : Z) : M registry Z :=
  r <- get ;;
  if negb (apps_started r) then put (Registry false (app_notifiers r ++ [n]) (als_slot_cnt r)) ;;; ret NO_ERROR
  else ret ERR_ALREADY_STARTED.
Definition trusty_als_alloc_slot : M registry Z :=
  r <- get ;;
  if negb (apps_started r) then
    put (Registry false (app_notifiers r) (als_slot_cnt r + 1)) ;;; ret (als_slot_cnt r + 1)
  else ret ERR_ALREADY_STARTED.

(** The local storage of an application: the [als_slot_cnt] pointers that
    [trusty_app_init] allocates. *)
Definition trusty_als_get (cnt slot_id : Z) (als : list Z) : M unit Z :=
  let slot := u32 (slot_id - 1) in
  assert_ (slot <? cnt) ;;; deref (als !! Z.to_nat slot).
Definition trusty_als_set (cnt slot_id ptr : Z) (als : list Z) : M unit (list Z) :=
  let slot := u32 (slot_id - 1) in
  assert_ (slot <? cnt) ;;; _ <- deref (als !! Z.to_nat slot) ;; ret (<[Z.to_nat slot := ptr]> als).

End TrustyApp.
