(* ===== verification/TrustyAppSpec.v ===== *)
(** * What the loader takes from a manifest

    The configuration words of an application are a sequence of entries; the
    loader and the mapping of device memory read the same entries. *)

From S2P Require Import Prelude Iovec Uthread TrustyApp.

Module TrustyAppSpec.
Import Iovec Uthread TrustyApp.

(** ** Entries *)

Inductive entry :=
| EStack (v : Z)
| EHeap (v : Z)
| EMap (id offset size : Z).

Definition encode_entry (e : entry) : list Z :=
  match e with
  | EStack v => [TRUSTY_APP_CONFIG_KEY_MIN_STACK_SIZE; v]
  | EHeap v => [TRUSTY_APP_CONFIG_KEY_MIN_HEAP_SIZE; v]
  | EMap id offset size => [TRUSTY_APP_CONFIG_KEY_MAP_MEM; id; offset; size]
  end.
Definition encode (es : list entry) : list Z := concat (map encode_entry es).

(** A size must not round to zero, which a size in the last page of the
    address space does. *)
Definition entry_ok (e : entry) : bool :=
  match e with EStack v | EHeap v => 0 <? ROUNDUP32 v | EMap _ _ _ => true end.

Definition apply_entry (p : app_props) (e : entry) : app_props :=
  match e with
  | EStack v => set_min_stack (ROUNDUP32 v) p
  | EHeap v => set_min_heap (ROUNDUP32 v) p
  | EMap _ _ _ => set_io_cnt (u32 (map_io_mem_cnt p + 1)) p
  end.

Fixpoint decode (ws : list Z) : option (list entry) :=
  match ws with
  | [] => Some []
  | k :: ws =>
      if k =? TRUSTY_APP_CONFIG_KEY_MIN_STACK_SIZE then
        match ws with
        | v :: ws => if entry_ok (EStack v) then es ← decode ws; Some (EStack v :: es) else None
        | _ => None
        end
      else if k =? TRUSTY_APP_CONFIG_KEY_MIN_HEAP_SIZE then
        match ws with
        | v :: ws => if entry_ok (EHeap v) then es ← decode ws; Some (EHeap v :: es) else None
        | _ => None
        end
      else if k =? TRUSTY_APP_CONFIG_KEY_MAP_MEM then
        match ws with
        | id :: off :: sz :: ws => es ← decode ws; Some (EMap id off sz :: es)
        | _ => None
        end
      else None
  end.

Lemma decode_encode es : forallb entry_ok es = true -> decode (encode es) = Some es.
Proof.
  induction es as [|e es IH]; [done|]. intros He. apply andb_true_iff in He as [He Hes].
  change (encode (e :: es)) with (encode_entry e ++ encode es).
  destruct e; cbn [encode_entry app decode]; cbn -[entry_ok decode encode]; rewrite ?He; by rewrite IH.
Qed.

Lemma list_len_ind {A} (P : list A -> Prop) :
  (forall l, (forall l', (length l' < length l)%nat -> P l') -> P l) -> forall l, P l.
Proof. intros H l. apply (induction_ltof1 _ (@length A)). exact H. Qed.

Lemma decode_inv ws es : decode ws = Some es -> ws = encode es /\ forallb entry_ok es = true.
Proof.
  revert es. induction ws as [ws IH] using list_len_ind. intros es Hd.
  destruct ws as [|k ws]; [injection Hd as <-; done|]. cbn [decode] in Hd.
  destruct (k =? _) eqn:E1; zbool; [|destruct (k =? _) eqn:E2; zbool; [|destruct (k =? _) eqn:E3; zbool; [|done]]]; subst k.
  - destruct ws as [|v ws]; [done|]. destruct (entry_ok _) eqn:Eo; [|done].
    destruct (decode ws) as [es'|] eqn:Ed; [|done]. injection Hd as <-.
    destruct (IH ws ltac:(simpl; lia) es' Ed) as [-> Hes]. split; [done|]. cbn [forallb]. by rewrite Eo.
  - destruct ws as [|v ws]; [done|]. destruct (entry_ok _) eqn:Eo; [|done].
    destruct (decode ws) as [es'|] eqn:Ed; [|done]. injection Hd as <-.
    destruct (IH ws ltac:(simpl; lia) es' Ed) as [-> Hes]. split; [done|]. cbn [forallb]. by rewrite Eo.
  - destruct ws as [|id [|off [|sz ws]]]; try done.
    destruct (decode ws) as [es'|] eqn:Ed; [|done]. injection Hd as <-.
    destruct (IH ws ltac:(simpl; lia) es' Ed) as [-> Hes]. done.
Qed.

(** ** The loops over the words *)

Definition words_at (m : kmem) (a : Z) (ws : list Z) : Prop :=
  forall i w, ws !! i = Some w -> rd32 (a + 4 * Z.of_nat i) m = Done w m.

Lemma words_tail m a w ws : words_at m a (w :: ws) -> rd32 a m = Done w m /\ words_at m (a + 4) ws.
Proof.
  intros Hw. split.
  - pose proof (Hw 0%nat w eq_refl) as H. by rewrite Z.add_0_r in H.
  - intros i v Hi. rewrite <- (Hw (S i) v Hi). f_equal. lia.
Qed.

Lemma config_loop_run fuel i cnt blob p m ws : words_at m (blob + 4 * i) ws -> cnt - i = Z.of_nat (length ws) ->
  (length ws <= fuel)%nat ->
  config_loop fuel i cnt blob p m =
    match decode ws with Some es => Done (fold_left apply_entry es p) m | None => Crash Panic end.
Proof.
  revert fuel i p. induction ws as [ws IH] using list_len_ind. intros fuel i p Hw Hc Hf.
  destruct ws as [|k ws].
  { simpl in Hc. destruct fuel; [done|]. cbn [config_loop]. by rewrite (proj2 (Z.ltb_ge i cnt)) by lia. }
  simpl in Hc, Hf. destruct fuel as [|fuel]; [lia|]. cbn [config_loop decode].
  rewrite (proj2 (Z.ltb_lt i cnt)) by lia. destruct (words_tail _ _ _ _ Hw) as [Hk Hw1].
  unfold bind at 1. rewrite Hk. destruct (k =? TRUSTY_APP_CONFIG_KEY_MIN_STACK_SIZE) eqn:E1;
    [|destruct (k =? TRUSTY_APP_CONFIG_KEY_MIN_HEAP_SIZE) eqn:E2;
      [|destruct (k =? TRUSTY_APP_CONFIG_KEY_MAP_MEM) eqn:E3; [|done]]].
  - unfold bind at 1. destruct ws as [|v ws]; [by rewrite (proj2 (Z.ltb_ge 1 _)) by (simpl in Hc; lia)|].
    rewrite (proj2 (Z.ltb_lt 1 _)) by (simpl in Hc; lia). cbn [assert_]. unfold ret at 1. unfold bind at 1.
    destruct (words_tail _ _ _ _ Hw1) as [Hv Hw2]. replace (blob + 4 * (i + 1)) with (blob + 4 * i + 4) by lia.
    rewrite Hv. unfold bind at 1. change (0 <? min_stack_size _) with (entry_ok (EStack v)).
    destruct (entry_ok (EStack v)); [|done]. cbn [assert_]. unfold ret at 1.
    rewrite (IH ws); [by destruct (decode ws)|simpl; lia| |simpl in Hc; lia|simpl in Hf; lia].
    by replace (blob + 4 * (i + 2)) with (blob + 4 * i + 4 + 4) by lia.
  - unfold bind at 1. destruct ws as [|v ws]; [by rewrite (proj2 (Z.ltb_ge 1 _)) by (simpl in Hc; lia)|].
    rewrite (proj2 (Z.ltb_lt 1 _)) by (simpl in Hc; lia). cbn [assert_]. unfold ret at 1. unfold bind at 1.
    destruct (words_tail _ _ _ _ Hw1) as [Hv Hw2]. replace (blob + 4 * (i + 1)) with (blob + 4 * i + 4) by lia.
    rewrite Hv. unfold bind at 1. change (0 <? min_heap_size _) with (entry_ok (EHeap v)).
    destruct (entry_ok (EHeap v)); [|done]. cbn [assert_]. unfold ret at 1.
    rewrite (IH ws); [by destruct (decode ws)|simpl; lia| |simpl in Hc; lia|simpl in Hf; lia].
    by replace (blob + 4 * (i + 2)) with (blob + 4 * i + 4 + 4) by lia.
  - unfold bind at 1. destruct ws as [|id [|off [|sz ws]]];
      try (by rewrite (proj2 (Z.ltb_ge 3 _)) by (simpl in Hc; lia)).
    rewrite (proj2 (Z.ltb_lt 3 _)) by (simpl in Hc; lia). cbn [assert_]. unfold ret at 1.
    destruct (words_tail _ _ _ _ Hw1) as [_ Hw2]. destruct (words_tail _ _ _ _ Hw2) as [_ Hw3].
    destruct (words_tail _ _ _ _ Hw3) as [_ Hw4].
    rewrite (IH ws); [by destruct (decode ws)|simpl; lia| |simpl in Hc; lia|simpl in Hf; lia].
    by replace (blob + 4 * (i + 4)) with (blob + 4 * i + 4 + 4 + 4 + 4) by lia.
Qed.

(** The first request for a region. *)
Definition find_region (id : Z) (es : list entry) : option (Z * Z) :=
  match List.find (fun e => match e with EMap id' _ _ => id' =? id | _ => false end) es with
  | Some (EMap _ off sz) => Some (off, sz)
  | _ => None
  end.

Definition region_answer (id map_size : Z) (es : list entry) : Z + Z * Z :=
  match find_region id es with
  | None => inl ERR_NOT_FOUND
  | Some (off, sz) =>
      if ROUNDUP32 sz <? ROUNDUP32 map_size then inl ERR_INVALID_ARGS else inr (off, ROUNDUP32 map_size)
  end.

Lemma mmio_loop_run es fuel i cnt blob id map_size m : words_at m (blob + 4 * i) (encode es) ->
  cnt - i = Z.of_nat (length (encode es)) -> (length es < fuel)%nat ->
  mmio_loop fuel i cnt blob id map_size m = Done (region_answer id map_size es) m.
Proof.
  revert fuel i. induction es as [|e es IH]; intros [|fuel] i Hw Hc Hf; [simpl in Hf; lia| |simpl in Hf; lia|]; cbn [mmio_loop].
  - simpl in Hc. by rewrite (proj2 (Z.ltb_ge i cnt)) by lia.
  - change (encode (e :: es)) with (encode_entry e ++ encode es) in Hw, Hc. rewrite length_app in Hc. simpl in Hf.
    assert (Hi : (i <? cnt) = true) by (apply Z.ltb_lt; destruct e; simpl in Hc; lia). rewrite Hi.
    destruct e as [v|v|id' off sz]; cbn [encode_entry app] in Hw; simpl in Hc; destruct (words_tail _ _ _ _ Hw) as [Hk Hw1];
      unfold bind at 1; rewrite Hk; destruct (words_tail _ _ _ _ Hw1) as [Hv Hw2].
    + change (_ =? TRUSTY_APP_CONFIG_KEY_MAP_MEM) with false. cbv iota. rewrite (IH fuel (i + 2)); [done| |lia|lia].
      by replace (blob + 4 * (i + 2)) with (blob + 4 * i + 4 + 4) by lia.
    + change (_ =? TRUSTY_APP_CONFIG_KEY_MAP_MEM) with false. cbv iota. rewrite (IH fuel (i + 2)); [done| |lia|lia].
      by replace (blob + 4 * (i + 2)) with (blob + 4 * i + 4 + 4) by lia.
    + change (_ =? TRUSTY_APP_CONFIG_KEY_MAP_MEM) with true. cbv iota.
      destruct (words_tail _ _ _ _ Hw2) as [Ho Hw3]. destruct (words_tail _ _ _ _ Hw3) as [Hs Hw4].
      replace (blob + 4 * (i + 1)) with (blob + 4 * i + 4) by lia.
      replace (blob + 4 * (i + 2)) with (blob + 4 * i + 4 + 4) by lia.
      replace (blob + 4 * (i + 3)) with (blob + 4 * i + 4 + 4 + 4) by lia.
      unfold bind. rewrite Hv, Ho, Hs. unfold region_answer, find_region. cbn [List.find].
      destruct (id' =? id) eqn:E; cbn [negb]; [by destruct (ROUNDUP32 sz <? ROUNDUP32 map_size)|].
      rewrite (IH fuel (i + 4)); [done| |lia|lia].
      by replace (blob + 4 * (i + 4)) with (blob + 4 * i + 4 + 4 + 4 + 4) by lia.
Qed.

Lemma encode_length es : (length es <= length (encode es))%nat.
Proof.
  induction es as [|e es IH]; [done|]. change (encode (e :: es)) with (encode_entry e ++ encode es). rewrite length_app.
  destruct e; simpl; lia.
Qed.

Lemma rd_bytes_run n a m bs : length bs = n -> (forall i b, bs !! i = Some b -> m !! (a + Z.of_nat i) = Some b) ->
  rd_bytes n a m = Done bs m.
Proof.
  revert a bs. induction n as [|n IH]; intros a [|b bs] Hl Hb; try done. cbn [rd_bytes]. unfold bind at 1, rd8, bind at 1, get.
  pose proof (Hb 0%nat b eq_refl) as H0. rewrite Z.add_0_r in H0. rewrite H0. cbn [deref]. unfold ret at 1.
  unfold bind. rewrite (IH (a + 1) bs); [done|by injection Hl|]. intros i c Hi. rewrite <- (Hb (S i) c Hi). f_equal. lia.
Qed.

(** What a manifest gives: the identity, and the entries over the defaults. *)
Definition manifest_props (id : list Z) (task_vmid blob cnt : Z) (es : list entry) (p : app_props) : app_props :=
  let p := set_uuid id (set_vmid task_vmid (set_min_stack DEFAULT_STACK_SIZE (set_min_heap (4 * PAGE_SIZE) p))) in
  fold_left apply_entry es (set_entries cnt (if cnt =? 0 then config_blob p else blob) p).

(** C35: a manifest is taken exactly when its words are a sequence of
    entries, each size of which is not zero after rounding: the properties
    are then the identity and the entries, applied in order over the
    defaults, and every other manifest stops the machine.  Device memory is
    mapped from the same entries: a request finds the first entry with its
    id, is refused when it is larger than the entry's region and is otherwise
    granted at the region's start with its size in pages. *)
Theorem load_app_config_refines image off sh_size task_vmid p m id ws : length id = 16%nat ->
  (forall i b, id !! i = Some b -> m !! (image + off + Z.of_nat i) = Some b) ->
  sh_size = UUID_SIZE + 4 * Z.of_nat (length ws) -> words_at m (image + off + UUID_SIZE) ws ->
  (exists es, ws = encode es /\ forallb entry_ok es = true /\
     load_app_config_options image off sh_size task_vmid p m =
       Done (manifest_props id task_vmid (image + off + UUID_SIZE) (Z.of_nat (length ws)) es p) m /\
     forall mmio_id map_size, mmio_loop (S (length ws)) 0 (Z.of_nat (length ws)) (image + off + UUID_SIZE) mmio_id map_size m
       = Done (region_answer mmio_id map_size es) m) \/
  ((forall es, forallb entry_ok es = true -> ws <> encode es) /\
     load_app_config_options image off sh_size task_vmid p m = Crash Panic).
Proof.
  intros Hid Hm Hs Hw.
  assert (Hcnt : (sh_size - UUID_SIZE) / 4 = Z.of_nat (length ws)).
  { rewrite Hs. replace (UUID_SIZE + 4 * Z.of_nat (length ws) - UUID_SIZE) with (Z.of_nat (length ws) * 4) by lia.
    by apply Z.div_mul. }
  assert (Hload : load_app_config_options image off sh_size task_vmid p m =
    match decode ws with
    | Some es => Done (manifest_props id task_vmid (image + off + UUID_SIZE) (Z.of_nat (length ws)) es p) m
    | None => Crash Panic end).
  { unfold load_app_config_options. rewrite (proj2 (Z.leb_le _ _)) by lia. unfold bind at 1. cbn [assert_]. unfold ret at 1.
    unfold bind at 1. rewrite (rd_bytes_run (Z.to_nat UUID_SIZE) _ m id Hid Hm). rewrite Hcnt. unfold manifest_props.
    destruct (Z.of_nat (length ws) =? 0) eqn:E; zbool.
    - assert (ws = []) as -> by (by destruct ws). done.
    - rewrite Nat2Z.id. apply config_loop_run; [by rewrite Z.mul_0_r, Z.add_0_r|lia|lia]. }
  destruct (decode ws) as [es|] eqn:E.
  - left. apply decode_inv in E as [-> Hok]. exists es. split_and!; try done. intros mmio_id map_size.
    apply mmio_loop_run; [by rewrite Z.mul_0_r, Z.add_0_r|lia|]. pose proof (encode_length es). lia.
  - right. split; [|done]. intros es Hok ->. by rewrite decode_encode in E.
Qed.

(** ** Moving the images that follow *)

(** Bytes [a .. a+n) are mapped. *)
Definition mapped_range (m : kmem) (a : Z) (n : nat) : Prop := forall i, 0 <= i < Z.of_nat n -> is_Some (m !! (a + i)).

Lemma copy_down_run n d s m : d <= s -> mapped_range m d n -> mapped_range m s n ->
  exists m', copy_down n d s m = Done tt m' /\
    (forall i, 0 <= i < Z.of_nat n -> m' !! (d + i) = m !! (s + i)) /\
    (forall x, x < d \/ d + Z.of_nat n <= x -> m' !! x = m !! x).
Proof.
  revert d s m. induction n as [|n IH]; intros d s m Hds Hd Hs.
  { exists m. split_and!; [done| |done]. intros i Hi. lia. }
  cbn [copy_down]. unfold bind at 1, rd8, bind at 1, get.
  destruct (Hs 0 ltac:(lia)) as [b Hb]. destruct (Hd 0 ltac:(lia)) as [v Hv]. rewrite Z.add_0_r in Hb, Hv.
  rewrite Hb. cbn [deref]. unfold ret at 1. unfold bind at 1, wr8, bind at 1, get. rewrite Hv. cbn [deref].
  unfold bind at 1, ret at 1, put. set (m1 := <[d := b]> m).
  assert (Hr : forall a, mapped_range m a (Datatypes.S n) -> mapped_range m1 (a + 1) n).
  { intros a Ha i Hi. unfold m1. destruct (decide (a + 1 + i = d)) as [->|Hne]; [rewrite lookup_insert_eq; by eexists|].
    rewrite lookup_insert_ne by done. replace (a + 1 + i) with (a + (1 + i)) by lia. apply Ha. lia. }
  destruct (IH (d + 1) (s + 1) m1 ltac:(lia) (Hr d Hd) (Hr s Hs)) as (m' & Hrun & Hin & Hout).
  exists m'. split; [done|]. split.
  - intros i Hi. destruct (decide (i = 0)) as [->|Hne].
    + rewrite !Z.add_0_r, Hout by lia. unfold m1. by rewrite lookup_insert_eq.
    + replace (d + i) with (d + 1 + (i - 1)) by lia. rewrite Hin by lia. unfold m1.
      rewrite lookup_insert_ne by lia. f_equal. lia.
  - intros x Hx. rewrite Hout by lia. unfold m1. apply lookup_insert_ne. lia.
Qed.

Section Images.
Context {PT : Type}.
Implicit Types l : loader (PT := PT).

(** The bytes that are still to be looked at lie between an address and the
    end of the images. *)
Definition rest_of l (addr : Z) : list (option Z) :=
  (fun i => l_mem l !! (addr + Z.of_nat i)) <$> seq 0 (Z.to_nat (image_end l - addr)).

(** Moving the next image to the page boundary moves all that follows
    with it: the bytes behind this image are found unchanged from the new
    address to the new end, nothing below the boundary changes, and the count
    of bytes still to be loaded drops by this image's. *)
Lemma align_next_app_moves eh addr pad ext l :
  let fend := addr + u32 (e_shoff eh + e_shnum eh * e_shentsize eh - 1) + 1 in
  let start := addr + sh_offset pad + sh_size pad in
  Z.land (u32 (ext + 3)) (u32 (Z.lnot 3)) = e_shoff eh -> fend <= image_end l -> start <= fend ->
  image_end l - fend < 2 ^ 32 -> mapped_range (l_mem l) start (Z.to_nat (image_end l - start)) ->
  exists l', align_next_app eh addr pad ext l = Done start l' /\
    (fend < image_end l -> rest_of l' start = rest_of l fend) /\
    (forall x, x < start -> l_mem l' !! x = l_mem l !! x) /\
    image_size l' = u32 (image_size l - (fend - addr)) /\ apps l' = apps l /\ guest_count l' = guest_count l.
Proof.
  intros fend start Hext Hend Hstart Hlt Hmap. unfold align_next_app. rewrite Hext, Z.eqb_refl.
  unfold bind at 1. cbn [assert_]. unfold ret at 1. unfold bind at 1, get. fold fend start.
  rewrite (proj2 (Z.leb_le _ _)) by lia. unfold bind at 1. cbn [assert_]. unfold ret at 1. unfold bind at 1.
  rewrite (proj2 (Z.leb_le _ _)) by lia. cbn [assert_]. unfold ret at 1.
  assert (Hu : u32 (image_end l - fend) = image_end l - fend) by (apply uwrap_small; lia). rewrite Hu.
  replace (u32 (e_shoff eh + e_shnum eh * e_shentsize eh - 1) + 1) with (fend - addr) by (unfold fend; lia).
  destruct (image_end l - fend =? 0) eqn:E; zbool; cbn [negb].
  - unfold bind, ret, modify. eexists. split; [reflexivity|].
    cbn [upd_image l_mem image_end image_size apps guest_count]. split_and!; try done. lia.
  - unfold bind at 1, bind at 1, on_lm.
    destruct (copy_down_run (Z.to_nat (image_end l - fend)) start fend (l_mem l) Hstart) as (m' & -> & Hin & Hout).
    { intros i Hi. apply Hmap. lia. }
    { intros i Hi. replace (fend + i) with (start + (fend - start + i)) by lia. apply Hmap. lia. }
    unfold bind, ret, modify, get. eexists. split; [reflexivity|].
    cbn [upd_image l_mem image_end image_size apps guest_count]. split_and!; try done.
    + intros _. unfold rest_of. cbn [upd_image l_mem image_end].
      replace (image_end l - (fend - start) - start) with (image_end l - fend) by lia.
      apply list_fmap_ext. intros i k Hk. apply lookup_seq in Hk as [-> Hk]. apply Hin. lia.
    + intros x Hx. apply Hout. by left.
Qed.

End Images.

(** ** The heap of an application *)

Section Brk.
Context {PT : Type}.
Context (arm64_mmu_map : Z -> Z -> Z -> Z -> PT -> Z * PT) (arm64_mmu_unmap : Z -> Z -> PT -> Z * PT).
Context (new_table : PT) (vaddr_to_paddr : Z -> Z).

Lemma bind_inv {St A B} (m : M St A) (f : A -> M St B) s b s' : bind m f s = Done b s' ->
  exists a s1, m s = Done a s1 /\ f a s1 = Done b s'.
Proof. unfold bind. destruct (m s) as [a s1|w]; [eauto|done]. Qed.

Lemma rd32_range a m v m' : rd32 a m = Done v m' -> 0 <= v < 2 ^ 32.
Proof.
  unfold rd32. intros H. apply bind_inv in H as (b0 & m0 & _ & H). apply bind_inv in H as (b1 & m1 & _ & H).
  apply bind_inv in H as (b2 & m2 & _ & H). apply bind_inv in H as (b3 & m3 & _ & H). injection H as <- _.
  apply (uwrap_range 32). lia.
Qed.

Lemma read_phdr_range a m ph m' : read_phdr a m = Done ph m' -> 0 <= p_vaddr ph < 2 ^ 32 /\ 0 <= p_memsz ph < 2 ^ 32.
Proof.
  unfold read_phdr. intros H. apply bind_inv in H as (b0 & m0 & _ & H). apply bind_inv in H as (b1 & m1 & _ & H).
  apply bind_inv in H as (b2 & m2 & H2 & H). apply bind_inv in H as (b3 & m3 & H3 & H).
  apply bind_inv in H as (b4 & m4 & _ & H). injection H as <- _. simpl. split; by eapply rd32_range.
Qed.

(** A fixed mapping is made where it is asked for, or not at all. *)
Lemma map_contig_fixed hp v pa size fl s r s' :
  map_contig arm64_mmu_map arm64_mmu_unmap new_table hp v pa size (Z.lor fl UTM_FIXED) s = Done r s' -> r.2 = v.
Proof.
  unfold map_contig, on_ut. destruct (uthread_map_contig _ _ _ _ _ _ _ _ _ _) as [r0 u|] eqn:E; [|done]. intros [= <- _].
  unfold uthread_map_contig, uthread_map_locked in E. destruct (negb _); [by injection E as <- _|].
  assert (Hf : has_flag (Z.lor (Z.lor fl UTM_FIXED) UTM_PHYS_CONTIG) UTM_FIXED = true).
  { apply has_flag_lor_l. rewrite Z.lor_comm. by apply has_flag_lor_l. }
  rewrite Hf in E. cbn [negb andb] in E. apply bind_inv in E as (v0 & u1 & Hv & E). injection Hv as <- <-.
  apply bind_inv in E as ([err [mp|]] & u2 & _ & E); [|by injection E as <- _].
  apply bind_inv in E as (err' & u3 & _ & E). by injection E as <- _.
Qed.

Abbreviation tapp := (trusty_app (uthread PT)).

(** The break of an application while its segments are mapped. *)
Definition brk_ok (a : tapp) : Prop := 0 <= start_brk a <= end_brk a /\ end_brk a <= TRUSTY_APP_STACK_TOP.

Lemma ROUNDUP_page_le x : 0 <= x < 2 ^ 32 -> x <= ROUNDUP x PAGE_SIZE.
Proof. intros Hx. change PAGE_SIZE with (2 ^ 12). rewrite ROUNDUP_spec by lia. dlia. Qed.

Lemma load_segment_brk hp img ph (a : tapp) s r s' : 0 < min_stack_size (props a) <= TRUSTY_APP_STACK_TOP -> brk_ok a ->
  0 <= p_vaddr ph < 2 ^ 32 -> 0 <= p_memsz ph < 2 ^ 32 ->
  load_segment arm64_mmu_map arm64_mmu_unmap new_table vaddr_to_paddr hp img ph a s = Done r s' ->
  brk_ok r.2 /\ props r.2 = props a.
Proof.
  intros Hst Hb Hv Hm H. unfold load_segment in H. destruct (negb _); [by injection H as <- _|].
  destruct (_ || _); [by injection H as <- _|]. apply bind_inv in H as ([] & s1 & _ & H).
  apply bind_inv in H as (q & s2 & Hq & H). apply map_contig_fixed in Hq.
  destruct (negb _); [by injection H as <- _|]. destruct (_ <? _) eqn:Estk; zbool; [by injection H as <- _|].
  rewrite Hq in Estk. unfold TRUSTY_APP_STACK_TOP in *. unfold u32 in Estk at 1. rewrite uwrap_small in Estk by lia.
  pose proof (ROUNDUP_page_le _ Hm) as Hr.
  assert (Hlast : u32 (p_vaddr ph + p_memsz ph) = p_vaddr ph + p_memsz ph) by (apply uwrap_small; lia).
  rewrite Hlast in H. destruct (start_brk a <? _) eqn:E; zbool.
  - apply bind_inv in H as ([] & s3 & _ & H). injection H as <- _. split; [|done].
    unfold brk_ok, TRUSTY_APP_STACK_TOP. cbn [set_brk start_brk end_brk snd]. lia.
  - by injection H as <- _.
Qed.

Lemma segment_loop_brk hps img phoff i (a : tapp) s r s' : 0 < min_stack_size (props a) <= TRUSTY_APP_STACK_TOP -> brk_ok a ->
  segment_loop arm64_mmu_map arm64_mmu_unmap new_table vaddr_to_paddr hps img phoff i a s = Done r s' ->
  brk_ok r.2 /\ props r.2 = props a.
Proof.
  revert i a s. induction hps as [|hp hps IH]; intros i a s Hst Hb H; cbn [segment_loop] in H; [by injection H as <- _|].
  apply bind_inv in H as (ph & s1 & Hph & H). apply bind_inv in H as (q & s2 & Hq & H).
  unfold on_km in Hph. destruct (read_phdr _ _) as [ph' m1|] eqn:Er; [|done]. injection Hph as -> _.
  apply read_phdr_range in Er as [Hv Hm]. destruct (load_segment_brk hp img ph a s1 q s2 Hst Hb Hv Hm Hq) as [Hb' Hp'].
  destruct (negb _); [by injection H as <- _|]. rewrite <- Hp' in Hst.
  destruct (IH _ _ _ Hst Hb' H) as [H1 H2]. split; [done|congruence].
Qed.

(** An application whose segments are mapped starts with an empty heap
    directly behind its last segment, and the heap has at least the room that
    its manifest asks for; the properties are those of the manifest. *)
Lemma alloc_address_map_heap hps heap hp (a a' : tapp) s s' :
  0 < min_stack_size (props a) <= TRUSTY_APP_STACK_TOP -> 0 <= min_heap_size (props a) < 2 ^ 32 ->
  start_brk a = 0 -> end_brk a = 0 ->
  alloc_address_map arm64_mmu_map arm64_mmu_unmap new_table vaddr_to_paddr hps heap hp a s = Done (NO_ERROR, a') s' ->
  cur_brk a' = start_brk a' /\ 0 <= start_brk a' <= TRUSTY_APP_STACK_TOP /\
  start_brk a' + min_heap_size (props a) <= end_brk a' /\ props a' = props a.
Proof.
  intros Hst Hh H0 H1 H. unfold alloc_address_map in H. apply bind_inv in H as (eh & s1 & _ & H).
  apply bind_inv in H as ([] & s2 & _ & H). apply bind_inv in H as (q & s3 & Hq & H).
  destruct (segment_loop_brk _ _ _ _ _ _ _ _ Hst ltac:(unfold brk_ok, TRUSTY_APP_STACK_TOP; lia) Hq) as [[Hb Hle] Hp].
  destruct (negb _) eqn:Eq; zbool; [exfalso; injection H as Hqe _; by rewrite Hqe in Eq|].
  unfold init_brk in H. cbn [set_brk start_brk end_brk props cur_brk] in H. rewrite Hp in H.
  unfold TRUSTY_APP_STACK_TOP in *.
  assert (Hu : u64 (end_brk q.2 - start_brk q.2) = end_brk q.2 - start_brk q.2) by (apply uwrap_small; lia).
  rewrite Hu in H. destruct (_ <=? _) eqn:E; zbool.
  - injection H as <- _. cbn [set_brk start_brk end_brk props cur_brk]. split_and!; (done || lia).
  - destruct heap as [hpa|]; [|done]. apply bind_inv in H as ([] & s4 & _ & H).
    apply bind_inv in H as (q2 & s5 & _ & H). destruct (_ || _); [done|]. injection H as <- _.
    cbn [set_brk start_brk end_brk props cur_brk].
    assert (Hu2 : u64 (end_brk q.2 + min_heap_size (props a)) = end_brk q.2 + min_heap_size (props a)) by (apply uwrap_small; lia).
    rewrite Hu2. split_and!; (done || lia).
Qed.

End Brk.

End TrustyAppSpec.
