(* ===== verification/TrustyAppDemo.v ===== *)
(** * Loading a small application

    An image of one application behind a guest header, loaded by the model,
    and the theorems of [TrustyAppSpec] applied to concrete memory. *)

From Stdlib Require Import Strings.String.
From S2P Require Import Prelude Iovec Uthread TrustyApp TrustyAppSpec.

Module TrustyAppDemo.
Import Iovec Uthread TrustyApp TrustyAppSpec.

Fixpoint bytes_at (a : Z) (bs : list Z) (m : kmem) : kmem :=
  match bs with [] => m | b :: bs => bytes_at (a + 1) bs (<[a := b]> m) end.

Lemma bytes_at_out a bs m x : x < a \/ a + Z.of_nat (List.length bs) <= x -> bytes_at a bs m !! x = m !! x.
Proof.
  revert a m. induction bs as [|b bs IH]; simpl; intros a m Hx; [done|].
  rewrite IH by lia. apply lookup_insert_ne. lia.
Qed.

Lemma bytes_at_in a bs m i b : bs !! i = Some b -> bytes_at a bs m !! (a + Z.of_nat i) = Some b.
Proof.
  revert a m i. induction bs as [|c bs IH]; intros a m [|i] Hi; [done|done| |]; simpl in Hi |- *.
  - injection Hi as ->. rewrite bytes_at_out by lia. rewrite Z.add_0_r. apply lookup_insert_eq.
  - replace (a + Z.of_nat (S i)) with (a + 1 + Z.of_nat i) by lia. by apply IH.
Qed.

Lemma bytes_at_app a bs cs m : bytes_at a (bs ++ cs) m = bytes_at (a + Z.of_nat (List.length bs)) cs (bytes_at a bs m).
Proof.
  revert a m. induction bs as [|b bs IH]; simpl; intros a m; [by rewrite Z.add_0_r|]. rewrite IH. f_equal. lia.
Qed.

Definition h16 (x : Z) : list Z := [x mod 256; x / 256].
Definition h32 (x : Z) : list Z := [x mod 256; x / 2 ^ 8 mod 256; x / 2 ^ 16 mod 256; x / 2 ^ 24].
Definition demo_uuid : list Z := h32 0x1c875825 ++ h16 0x26a1 ++ h16 0x40a2 ++ [0xab; 0x2a; 0xc7; 0xb2; 0xc8; 0xe6; 0x92; 0x80].
Definition demo_words : list Z := [2; 16384; 1; 8192; 3; 7; 0x3100000; 0x1000].

(** ** A whole image *)

Definition strtab : list Z := [0] ++ TrustyApp.lit ".bss" ++ TrustyApp.lit ".bss-pad" ++ TrustyApp.lit ".trusty_app.manifest".
Definition shdr_bytes (name type addr off size : Z) : list Z :=
  h32 name ++ h32 type ++ h32 0 ++ h32 addr ++ h32 off ++ h32 size ++ replicate 16 0.
Definition elf_image : list Z :=
  (ELFMAG ++ replicate 12 0) ++ h16 2 ++ h16 40 ++ h32 1 ++ h32 0x8000 ++ h32 0 ++ h32 136 ++ h32 0 ++ h16 52 ++ h16 32 ++
  h16 0 ++ h16 40 ++ h16 5 ++ h16 1 ++
  (demo_uuid ++ flat_map h32 demo_words) ++ strtab ++
  shdr_bytes 0 0 0 0 0 ++ shdr_bytes 0 3 0 100 36 ++ shdr_bytes 15 1 0 52 48 ++ shdr_bytes 1 8 0x9000 136 0 ++
  shdr_bytes 6 1 0 136 0.
Definition guest_header : list Z := TrustyApp.lit NV_GUEST_TASK_MAGIC_STR ++ [50; 0] ++ replicate 18 0.

Definition booted : option (Z * bool * Z * list (trusty_app (uthread unit))) :=
  match trusty_app_bootloader (PT := unit) 3 4096
          (Loader (bytes_at 4096 (guest_header ++ elf_image) ∅) (4096 + 368) 368 0 false []) with
  | Done (Some _) l => Some (guest_count l, debug_disabled l, image_size l, apps l)
  | _ => None
  end.

(** The guest header is stripped and its number kept, the manifest read. *)
Example boot_reads_image : booted =
  Some (1, true, 0, [TApp 0x9000 0 0 0 (Props demo_uuid 2 8192 16384 1 8 (4096 + 68)) 4096 None None]).
Proof. vm_compute. reflexivity. Qed.

(** ** The theorems at concrete inputs *)

Lemma words_at_bytes a ws m : Forall (fun w => 0 <= w < 2 ^ 32) ws -> words_at (bytes_at a (flat_map h32 ws) m) a ws.
Proof.
  revert a m. induction ws as [|w ws IH]; intros a m Hw [|i] v Hv; try done; simpl in Hv.
  - injection Hv as ->. apply Forall_cons in Hw as [Hw _]. rewrite Z.add_0_r. cbn [flat_map].
    assert (Hi : forall j b, h32 v !! j = Some b -> bytes_at a (h32 v ++ flat_map h32 ws) m !! (a + Z.of_nat j) = Some b).
    { intros j b Hj. apply bytes_at_in. by apply lookup_app_l_Some. }
    pose proof (Hi 0%nat _ eq_refl) as H0. rewrite Z.add_0_r in H0. pose proof (Hi 1%nat _ eq_refl) as H1.
    pose proof (Hi 2%nat _ eq_refl) as H2. pose proof (Hi 3%nat _ eq_refl) as H3.
    unfold rd32, rd8, bind, get, deref. rewrite H0. unfold ret. change 1 with (Z.of_nat 1) at 1. rewrite H1.
    change 2 with (Z.of_nat 2) at 1. rewrite H2. change 3 with (Z.of_nat 3) at 1. rewrite H3. f_equal.
    unfold le32, u32. rewrite uwrap_small; [|dlia]. dlia.
  - cbn [flat_map]. apply Forall_cons in Hw as [_ Hw]. rewrite bytes_at_app. change (Z.of_nat (List.length (h32 w))) with 4. replace (a + 4 * Z.of_nat (S i)) with (a + 4 + 4 * Z.of_nat i) by lia.
    exact (IH (a + 4) (bytes_at a (h32 w) m) Hw i v Hv).
Qed.

Definition manifest_mem : kmem := bytes_at 116 (flat_map h32 demo_words) (bytes_at 100 demo_uuid ∅).

Lemma load_app_config_refines_witness :
  (exists es, demo_words = encode es /\ forallb entry_ok es = true /\
     load_app_config_options 60 40 48 2 props_zero manifest_mem =
       Done (manifest_props demo_uuid 2 (60 + 40 + UUID_SIZE) 8 es props_zero) manifest_mem /\
     forall mmio_id map_size, mmio_loop 9 0 8 (60 + 40 + UUID_SIZE) mmio_id map_size manifest_mem
       = Done (region_answer mmio_id map_size es) manifest_mem) \/
  ((forall es, forallb entry_ok es = true -> demo_words <> encode es) /\
     load_app_config_options 60 40 48 2 props_zero manifest_mem = Crash Panic).
Proof.
  apply (load_app_config_refines 60 40 48 2 props_zero manifest_mem demo_uuid demo_words); [done| |done|].
  - intros i b Hi. unfold manifest_mem. rewrite bytes_at_out.
    + replace (60 + 40 + Z.of_nat i) with (100 + Z.of_nat i) by lia. by apply bytes_at_in.
    + left. apply lookup_lt_Some in Hi. change (List.length demo_uuid) with 16%nat in Hi. lia.
  - apply words_at_bytes. unfold demo_words. repeat (apply Forall_cons; split; [lia|]). by apply Forall_nil.
Defined.

Definition two_images : loader (PT := unit) :=
  Loader (bytes_at 100 [1; 2; 3; 4; 5; 6; 7; 8; 9; 10; 11; 12] ∅) 112 12 0 false [].

Lemma align_next_app_moves_witness :
  exists l', align_next_app (Ehdr 0 0 8 0 40 0 0) 100 (Shdr 0 1 0 4 2) 6 two_images = Done 106 l' /\
    rest_of l' 106 = rest_of two_images 108 /\ image_size l' = 4.
Proof.
  destruct (align_next_app_moves (Ehdr 0 0 8 0 40 0 0) 100 (Shdr 0 1 0 4 2) 6 two_images) as (l' & H1 & H2 & _ & H3 & _);
    [reflexivity|vm_compute; congruence|vm_compute; congruence|vm_compute; reflexivity| |].
  - intros i Hi. assert (Hi' : 0 <= i < 6) by exact Hi.
    destruct (lookup_lt_is_Some_2 [1; 2; 3; 4; 5; 6; 7; 8; 9; 10; 11; 12] (Z.to_nat (6 + i))) as [b Hb]; [simpl; lia|].
    exists b. change (l_mem two_images !! (100 + 4 + 2 + i) = Some b). replace (100 + 4 + 2 + i) with (100 + Z.of_nat (Z.to_nat (6 + i))) by lia. by apply bytes_at_in.
  - exists l'. split; [exact H1|]. split; [apply H2; vm_compute; reflexivity|exact H3].
Defined.

(** One segment of [0xFF0] bytes at [0x8000], heap of one page. *)
Definition load_mem : kmem :=
  bytes_at 0x1000 (replicate 24 0 ++ h32 0x8000 ++ h32 52 ++ h32 0 ++ replicate 8 0 ++ h16 1 ++ h16 40 ++ h16 0 ++ h16 0 ++
                   h32 1 ++ h32 0x1000 ++ h32 0x8000 ++ h32 0 ++ h32 0xFF0 ++ h32 0xFF0 ++ h32 6 ++ h32 0)
    (bytes_at 0x2FF0 (replicate 16 9) (bytes_at 0x9000 (replicate (Z.to_nat 4096) 9) ∅)).
Definition load_app : trusty_app (uthread unit) :=
  TApp 0x9000 0 0 0 (Props demo_uuid 0 4096 4096 0 0 0) 0x1000 None None.
Definition mmu_ok (_ _ _ _ : Z) (_ : unit) : Z * unit := (0, tt).
Definition mmu_unmap_ok (_ _ : Z) (_ : unit) : Z * unit := (0, tt).
Definition load_ut : uthread unit := Uthread TRUSTY_APP_STACK_TOP [] MAX_USR_VA None [].
#[local] Notation load_run := (alloc_address_map mmu_ok mmu_unmap_ok tt (fun v => v) [(true, true)] (Some 0x9000) (true, true)
  load_app (load_mem, load_ut)) (only parsing).

Lemma load_ok : exists a' s', load_run = Done (NO_ERROR, a') s'.
Proof.
  assert (Hok : match load_run with Done r _ => r.1 =? NO_ERROR | Crash _ => false end = true) by (vm_compute; reflexivity).
  revert Hok. generalize load_run. intros [[e a'] s'|w] Hok; [|done]. simpl in Hok. zbool. subst e. eauto.
Qed.

Lemma alloc_address_map_heap_witness :
  exists a' s', load_run = Done (NO_ERROR, a') s' /\ cur_brk a' = start_brk a' /\
    0 <= start_brk a' <= TRUSTY_APP_STACK_TOP /\ start_brk a' + 4096 <= end_brk a' /\ props a' = props load_app.
Proof.
  destruct load_ok as (a' & s' & E). exists a', s'. split; [exact E|].
  assert (H1 : 0 < min_stack_size (props load_app) <= TRUSTY_APP_STACK_TOP) by (split; vm_compute; congruence).
  assert (H2 : 0 <= min_heap_size (props load_app) < 2 ^ 32) by (split; vm_compute; congruence).
  assert (H3 : start_brk load_app = 0) by reflexivity. assert (H4 : end_brk load_app = 0) by reflexivity.
  exact (alloc_address_map_heap mmu_ok mmu_unmap_ok tt (fun v => v) [(true, true)] (Some 0x9000) (true, true) load_app a'
    (load_mem, load_ut) s' H1 H2 H3 H4 E).
Defined.

End TrustyAppDemo.
