(* ===== verification/Boot.v ===== *)
(** * Boot parameters and the platform's start

    [tegra_common/boot.c], [t18x/platform.c]: what the boot loader left in its
    page of parameters, the encrypted keys (EKS) that one application may map
    once while the system boots, the numbering of the processors and the
    memory arena. *)

From S2P Require Import Prelude Iovec Sm TrustyApp NsDram.

Module Boot.
Import Iovec.

Definition MAXIMUM_ENCRYPTED_KEYS_SIZE : Z := 32 * PAGE_SIZE.
Definition DEVICE_UID_SIZE_WORDS : Z := 4.
(** [boot_params_t]: version, uart_id, four words, seven double words and the
    64 bytes of [struct rollback]; and [key_params], whose keys follow the size. *)
Definition off_version : Z := 0.
Definition off_uart_id : Z := 4.
Definition off_chip_uid : Z := 8.
Definition off_rb_data : Z := 80.
Definition sizeof_rollback : Z := 64.
Definition sizeof_boot_params : Z := 144.
Definition off_encrypted_key_sz : Z := 0.
Definition off_encrypted_keys : Z := 4.

Record eks_info_t := Eks { paddr : Z; blob_length : Z }.

(** [platform_state] with the globals of [boot.c]. *)
Record bootst := BootSt {
  plat : NsDram.platform;
  eks_info : eks_info_t;
  device_uid : list Z;
  debug_uart_id : Z;
  rb_data : list Z
}.
Definition eks_none : eks_info_t := Eks 0 0.
Definition set_eks (e : eks_info_t) (b : bootst) : bootst :=
  BootSt (plat b) e (device_uid b) (debug_uart_id b) (rb_data b).
Definition set_args (uid : list Z) (uart : Z) (rb : list Z) (b : bootst) : bootst :=
  BootSt (plat b) (eks_info b) uid uart rb.
Definition set_plat (p : NsDram.platform) (b : bootst) : bootst :=
  BootSt p (eks_info b) (device_uid b) (debug_uart_id b) (rb_data b).
Definition on_plat {A} (m : M NsDram.platform A) : M bootst A := fun b =>
  match m (plat b) with Done a p => Done a (set_plat p b) | Crash w => Crash w end.

(** The result is the status and what is left in [*info]; [info] says whether
    the pointer is there. *)
Definition get_and_clear_eks_info (info : bool) : M bootst (Z * option eks_info_t) :=
  b <- on_plat NsDram.platform_is_bootstrapping ;;
  if negb b then ret (ERR_NOT_ALLOWED, None)
  else if negb info then ret (ERR_INVALID_ARGS, None)
  else
    e <- gets eks_info ;;
    modify (set_eks eks_none) ;;;
    ret (NO_ERROR, Some e).

(** ** The start of the platform *)

Record pst := Pst { smst : Sm.sm_st; km : kmem; bt : bootst; debug_port : option Z }.
Definition set_smst (x : Sm.sm_st) (s : pst) : pst := Pst x (km s) (bt s) (debug_port s).
Definition set_bt (x : bootst) (s : pst) : pst := Pst (smst s) (km s) x (debug_port s).
Definition on_sm {A} (m : M Sm.sm_st A) : M pst A := fun s =>
  match m (smst s) with Done a x => Done a (set_smst x s) | Crash w => Crash w end.
Definition on_mem {A} (m : M kmem A) : M pst A := fun s =>
  match m (km s) with Done a x => Done a (Pst (smst s) x (bt s) (debug_port s)) | Crash w => Crash w end.
Definition on_bt {A} (m : M bootst A) : M pst A := fun s =>
  match m (bt s) with Done a x => Done a (set_bt x s) | Crash w => Crash w end.

Definition parse_bootargs (boot_params_ptr : Z) : M pst unit :=
  u0 <- on_mem (TrustyApp.rd32 (boot_params_ptr + off_chip_uid)) ;;
  u1 <- on_mem (TrustyApp.rd32 (boot_params_ptr + off_chip_uid + 4)) ;;
  u2 <- on_mem (TrustyApp.rd32 (boot_params_ptr + off_chip_uid + 8)) ;;
  u3 <- on_mem (TrustyApp.rd32 (boot_params_ptr + off_chip_uid + 12)) ;;
  uart <- on_mem (TrustyApp.rd32 (boot_params_ptr + off_uart_id)) ;;
  rb <- on_mem (TrustyApp.rd_bytes (Z.to_nat sizeof_rollback) (boot_params_ptr + off_rb_data)) ;;
  on_bt (modify (set_args [u0; u1; u2; u3] uart rb)).

(** The weak default of the hook. *)
Definition partner_process_boot_params (boot_params : Z) : M pst Z := ret NO_ERROR.

Section Start.
Context (kvaddr_to_paddr : Z -> Z) (partner : Z -> M pst Z).

(** [total_length] is [lk_boot_args[2]]. *)
Definition process_boot_params (total_length : Z) : M pst Z :=
  r <- on_sm Sm.sm_get_boot_args ;;
  match r with
  | (e, None) => ret e
  | (_, Some boot_params) =>
      if boot_params =? 0 then on_sm Sm.sm_put_boot_args ;;; ret ERR_NOT_CONFIGURED
      else if total_length <? sizeof_boot_params then on_sm Sm.sm_put_boot_args ;;; ret ERR_BAD_LEN
      else
        let keys_params := boot_params + sizeof_boot_params in
        parse_bootargs boot_params ;;;
        keys_length <- on_mem (TrustyApp.rd32 (keys_params + off_encrypted_key_sz)) ;;
        if MAXIMUM_ENCRYPTED_KEYS_SIZE <? keys_length then
          on_bt (modify (set_eks eks_none)) ;;;
          on_sm Sm.sm_put_boot_args ;;; ret ERR_BAD_LEN
        else
          on_bt (modify (set_eks (Eks (kvaddr_to_paddr keys_params) keys_length))) ;;;
          r <- partner boot_params ;;
          if negb (r =? NO_ERROR) then ret r
          else on_sm Sm.sm_put_boot_args ;;; ret r
  end.

Definition platform_init (total_length : Z) : M pst unit :=
  err <- process_boot_params total_length ;;
  if negb (err =? NO_ERROR) then panic
  else modify (fun s => Pst (smst s) (km s) (bt s) (Some (debug_uart_id (bt s)))).
End Start.

(** ** Processors *)

Definition A57_0 : Z := 4.
Definition boot_cpu_none : Z := 0xFF.
Definition a57_boot_map : list Z := [1; 2; 0xff; 0xff; 0; 3; 4; 5].
Definition denver_boot_map : list Z := [0; 1; 0xff; 0xff; 2; 3; 4; 5].

(** The state is [boot_cpu], the argument the register [MPIDR_EL1]. *)
Definition plat_arch_curr_cpu_num (mpidr : Z) : M Z Z :=
  let cpu_num := u32 (Z.land mpidr 0xff) in
  let cluster_num := u32 (Z.land (Z.shiftr mpidr 8) 0xff) in
  let curr_cpu_num := u32 (cpu_num + Z.shiftl cluster_num 2) in
  b <- get ;;
  (if b =? boot_cpu_none then put curr_cpu_num else ret tt) ;;;
  b <- get ;;
  if b =? A57_0 then deref (a57_boot_map !! Z.to_nat curr_cpu_num)
  else deref (denver_boot_map !! Z.to_nat curr_cpu_num).

(** ** The memory arena *)

Record mmu_mapping := MmuMapping { phys : Z; m_size : Z; dynamic : bool; m_name : string }.
Record arena := Arena { a_name : string; a_base : Z; a_size : Z }.
(** [ram_arena], [_mem_size] and [_mem_phys_base], and what [pmm_add_arena] was given. *)
Record ram := Ram { ram_arena : arena; mem_size : Z; mem_phys_base : Z; arenas : list arena }.

Fixpoint mapping_loop (l : list mmu_mapping) (r : ram) : ram :=
  match l with
  | [] => r
  | m :: l =>
      if negb (dynamic m) then mapping_loop l r
      else if String.eqb (m_name m) (a_name (ram_arena r)) then
        Ram (Arena (a_name (ram_arena r)) (phys m) (m_size m)) (m_size m) (phys m) (arenas r)
      else mapping_loop l r
  end.

Definition platform_init_mmu_mappings (mmu_initial_mappings : list mmu_mapping) (mpidr : Z) : M (Z * ram) unit := fun s =>
  match plat_arch_curr_cpu_num mpidr s.1 with
  | Crash w => Crash w
  | Done cpu b =>
      if cpu =? 0 then
        let r := mapping_loop mmu_initial_mappings s.2 in
        Done tt (b, Ram (ram_arena r) (mem_size r) (mem_phys_base r) (arenas r ++ [ram_arena r]))
      else Done tt (b, s.2)
  end.

(** ** The keys are handed out once *)

Inductive eks_op := GetEks (info : bool) | BootDone.

(** The answers of a sequence of requests and of the end of the boot. *)
Fixpoint eks_run (l : list eks_op) : M bootst (list (Z * option eks_info_t)) :=
  match l with
  | [] => ret []
  | GetEks info :: l => r <- get_and_clear_eks_info info ;; rs <- eks_run l ;; ret (r :: rs)
  | BootDone :: l => on_plat NsDram.platform_bootstrap_epilog ;;; eks_run l
  end.

(** An answer that carries keys. *)
Definition has_keys (r : Z * option eks_info_t) : bool :=
  match r.2 with Some e => negb (paddr e =? 0) | None => false end.

Definition keys_left (b : bootst) : nat :=
  if negb (NsDram.bootstrap_done (plat b)) && negb (paddr (eks_info b) =? 0) then 1 else 0.

(** C34: Whoever asks and in whatever order, the keys of the boot loader are given
    away at most once, and never once the boot is over. *)
Theorem eks_handed_out_once l b :
  runs (eks_run l) b (fun rs b' =>
    (length (filter has_keys rs) + keys_left b' <= keys_left b)%nat /\
    (NsDram.bootstrap_done (plat b) = true -> Forall (fun r => r = (ERR_NOT_ALLOWED, None)) rs)).
Proof.
  revert b. induction l as [|[info|] l IH]; intros b; cbn [eks_run].
  - apply runs_ret. split; [cbn; lia|]. by constructor.
  - apply runs_bind.
    assert (runs (get_and_clear_eks_info info) b (fun r b' =>
      (length (filter has_keys [r]) + keys_left b' <= keys_left b)%nat /\ NsDram.bootstrap_done (plat b') = NsDram.bootstrap_done (plat b) /\
      (NsDram.bootstrap_done (plat b) = true -> r = (ERR_NOT_ALLOWED, None)))) as Hg.
    { unfold runs, get_and_clear_eks_info, on_plat, NsDram.platform_is_bootstrapping, gets, bind, modify, ret.
      destruct (NsDram.bootstrap_done (plat b)) eqn:Ed; cbn; [|destruct info; cbn]; unfold keys_left; cbn; rewrite ?Ed.
      - split_and!; try done; cbn; lia.
      - split_and!; try done. cbn. destruct (negb (paddr (eks_info b) =? 0)); case_decide; cbn; try done; lia.
      - by split_and!. }
    eapply runs_mono; [exact Hg|]. intros r b1 (Hk & Hd & Hr). apply runs_bind. eapply runs_mono; [apply IH|].
    intros rs b2 [Hn Hall]. apply runs_ret. split.
    + change (r :: rs) with ([r] ++ rs). rewrite filter_app, length_app. lia.
    + intros Hb. constructor; [by apply Hr|]. apply Hall. congruence.
  - apply runs_bind. unfold runs at 1. cbn. eapply runs_mono; [apply IH|]. intros rs b' [Hn Hall]. split.
    + unfold keys_left in Hn at 2. cbn in Hn. lia.
    + intros _. by apply Hall.
Qed.

(** ** The processors *)

(** Six cores: the two Denver cores are 0 and 1, the four A57 cores 4 to 7;
    [MPIDR_EL1] has the cluster in its second byte. *)
Definition t186_cores : list Z := [0; 1; 0x100; 0x101; 0x102; 0x103].

(** On the six cores of the chip the processor numbers are 0 to 5, each once,
    when the boot core is the first Denver or the first A57 core; the boot core is
    then number 0, and it is the one that adds the memory arena. *)
Lemma cpu_numbers_distinct boot : boot = 0 \/ boot = 0x100 ->
  match plat_arch_curr_cpu_num boot boot_cpu_none with
  | Done n b => n = 0 /\
      (forall c, c ∈ t186_cores -> exists m, plat_arch_curr_cpu_num c b = Done m b) /\
      Permutation (omap (fun c => match plat_arch_curr_cpu_num c b with Done m _ => Some m | Crash _ => None end) t186_cores)
        [0; 1; 2; 3; 4; 5]
  | Crash _ => False
  end.
Proof.
  assert (forall (P : Z -> Prop), P 0 -> P 1 -> P 0x100 -> P 0x101 -> P 0x102 -> P 0x103 -> forall c, c ∈ t186_cores -> P c) as Hc.
  { intros P ?????? c Hc. unfold t186_cores in Hc. set_unfold in Hc. by destruct_or! Hc; subst c. }
  intros [-> | ->]; (split; [done|]; split; [apply Hc; by eexists|]).
  - reflexivity.
  - symmetry. apply (Permutation_middle [1; 2] [3; 4; 5] 0).
Qed.
End Boot.
