(* ===== verification/Syscall.v ===== *)
(** * The general system calls of an application

    [lib/trusty/syscall.c], [tegra_common/syscall.c], [tegra_common/ioctl.c]:
    the table of file descriptors, standard output, the program break, time,
    memory mappings, memory for DMA, and the ioctl by which an application
    maps the encrypted keys.  Each call is a state transformer over the calling
    application; an answer [None] is a call that does not come back. *)

From S2P Require Import Prelude Iovec Uthread TrustyApp NsDram Boot.

Module Syscall.
Import Iovec Uthread TrustyApp.

Definition MAX_SYS_FD_HADLERS : nat := 10.
Definition MMAP_FLAG_IO_HANDLE : Z := Z.shiftl 1 0.
Definition DMA_FLAG_TO_DEVICE : Z := Z.shiftl 1 0.
Definition DMA_FLAG_FROM_DEVICE : Z := Z.shiftl 1 1.
Definition DMA_FLAG_MULTI_PMEM : Z := Z.shiftl 1 2.
Definition DMA_FLAG_ALLOW_PARTIAL : Z := Z.shiftl 1 3.
Definition IOCTL_PUBLIC_MASK : Z := 0x20000000.
Definition IOCTL_NR (num mask : Z) : Z := Z.lor (Z.land mask (u32 (Z.lnot 0x1FFFFFFF))) (Z.land num 0x1FFFFFFF).
Definition IOCTL_MAP_EKS_TO_USER : Z := IOCTL_NR 1 IOCTL_PUBLIC_MASK.
Definition ALWAYS : Z := 0.
Definition INFO : Z := 1.

(** The little-endian bytes of a word in memory. *)
Fixpoint le_bytes (n : nat) (x : Z) : list Z :=
  match n with O => [] | S n => u8 x :: le_bytes n (x / 256) end.

(** [struct dma_pmem] with its unnamed last word. *)
Record dma_pmem := Pmem { paddr : Z; size : Z; pad : Z }.
Definition sizeof_dma_pmem : Z := 16.
Definition encode_dma_pmem (p : dma_pmem) : list Z :=
  le_bytes 8 (paddr p) ++ le_bytes 4 (size p) ++ le_bytes 4 (pad p).

(** Maintenance of the data cache over a range of user addresses. *)
Inductive cache_op :=
| arch_clean_cache_range (start len : Z)
| arch_clean_invalidate_cache_range (start len : Z).

Section State.
Context {PT : Type}.

(** The calling application: its address space (the current uthread, which is
    [trusty_app->ut]), its properties, the memory its mappings give it, and
    the platform's boot state; then what the calls did to the outside. *)
Record kst := Kst {
  ut : uthread PT;
  app : trusty_app (uthread PT);
  m : mem;
  boot : Boot.bootst;
  console : list Z;          (* characters handed to _dwrite *)
  cache : list cache_op;
  slept : list Z;            (* arguments of thread_sleep *)
  exited : bool
}.

Definition set_ut (x : uthread PT) (s : kst) : kst := Kst x (app s) (m s) (boot s) (console s) (cache s) (slept s) (exited s).
Definition set_app (x : trusty_app (uthread PT)) (s : kst) : kst := Kst (ut s) x (m s) (boot s) (console s) (cache s) (slept s) (exited s).
Definition set_m (x : mem) (s : kst) : kst := Kst (ut s) (app s) x (boot s) (console s) (cache s) (slept s) (exited s).
Definition set_boot (x : Boot.bootst) (s : kst) : kst := Kst (ut s) (app s) (m s) x (console s) (cache s) (slept s) (exited s).
Definition add_console (x : list Z) (s : kst) : kst := Kst (ut s) (app s) (m s) (boot s) (console s ++ x) (cache s) (slept s) (exited s).
Definition add_cache (x : cache_op) (s : kst) : kst := Kst (ut s) (app s) (m s) (boot s) (console s) (cache s ++ [x]) (slept s) (exited s).
Definition add_slept (x : Z) (s : kst) : kst := Kst (ut s) (app s) (m s) (boot s) (console s) (cache s) (slept s ++ [x]) (exited s).
Definition set_exited (s : kst) : kst := Kst (ut s) (app s) (m s) (boot s) (console s) (cache s) (slept s) true.

Definition on_ut {A} (p : M (uthread PT) A) : M kst A := fun s =>
  match p (ut s) with Done a x => Done a (set_ut x s) | Crash w => Crash w end.
Definition on_m {A} (p : M mem A) : M kst A := fun s =>
  match p (m s) with Done a x => Done a (set_m x s) | Crash w => Crash w end.
Definition on_boot {A} (p : M Boot.bootst A) : M kst A := fun s =>
  match p (boot s) with Done a x => Done a (set_boot x s) | Crash w => Crash w end.
(** Kernel memory with the address space, as the loader works on them. *)
Definition on_load {A} (p : M (kmem * uthread PT) A) : M kst A := fun s =>
  match p (kernel (m s), ut s) with
  | Done a (k, x) => Done a (set_ut x (set_m (set_kernel k (m s)) s))
  | Crash w => Crash w
  end.

(** [struct sys_fd_ops]; [None] is a null pointer. *)
Record sys_fd_ops := SysFdOps {
  read : option (Z -> Z -> Z -> M kst Z);
  write : option (Z -> Z -> Z -> M kst Z);
  ioctl : option (Z -> Z -> Z -> M kst Z)
}.

Record sst := Sst { sys_fds : list (option sys_fd_ops); k : kst }.
Definition on_k {A} (p : M kst A) : M sst A := fun s =>
  match p (k s) with Done a x => Done a (Sst (sys_fds s) x) | Crash w => Crash w end.

Definition valid_address (addr size : Z) : M kst bool := on_ut (uthread_is_valid_range addr size).

(** ** Standard output *)

(** [_dwrite] reads the characters through the user's own mapping. *)
Fixpoint user_bytes (a : Z) (n : nat) (u : umem) : option (list Z) :=
  match n with
  | O => Some []
  | S n => b ← u !! a; bs ← user_bytes (a + 1) n u; Some (b.1 :: bs)
  end.

(** [debuglevel] is [LK_DEBUGLEVEL]. *)
Definition dwrite (debuglevel level ptr len : Z) : M kst unit :=
  if level <=? debuglevel then
    s <- get ;;
    bs <- deref (user_bytes ptr (Z.to_nat len) (user (m s))) ;;
    modify (add_console bs)
  else ret tt.

Definition sys_std_write (debuglevel fd user_ptr size : Z) : M kst Z :=
  b <- valid_address user_ptr size ;;
  if negb b then ret ERR_INVALID_ARGS
  else dwrite debuglevel (if fd =? 2 then ALWAYS else INFO) user_ptr size ;;; ret (s32 size).

(** ** The keys *)

Section Keys.
Context (arm64_mmu_map : Z -> Z -> Z -> Z -> PT -> Z * PT) (arm64_mmu_unmap : Z -> Z -> PT -> Z * PT) (pt_empty : PT).
(** [dram a]: the byte at the physical address [a] when the kernel looks. *)
Context (dram : Z -> Z).

Record ioctl_map_eks_params := EksParams { eks_addr_ptr : Z; eks_size_ptr : Z; map_addr_ptr : Z; map_size_ptr : Z }.
Definition sizeof_ioctl_map_eks_params : Z := 16.
Definition decode_eks_params (bs : list Z) : ioctl_map_eks_params :=
  EksParams (le32 (take 4 bs)) (le32 (take 4 (drop 4 bs))) (le32 (take 4 (drop 8 bs))) (le32 (take 4 (drop 12 bs))).

(** [heap]: whether the two allocations of the mapping succeed.  The results
    of the last copies are not looked at. *)
Definition ioctl_map_eks_to_user (heap : bool * bool) (p : ioctl_map_eks_params) : M kst Z :=
  b <- valid_address (eks_addr_ptr p) 4 ;;
  if negb b then ret ERR_INVALID_ARGS else
  b <- valid_address (eks_size_ptr p) 4 ;;
  if negb b then ret ERR_INVALID_ARGS else
  b <- valid_address (map_addr_ptr p) 4 ;;
  if negb b then ret ERR_INVALID_ARGS else
  b <- valid_address (map_size_ptr p) 4 ;;
  if negb b then ret ERR_INVALID_ARGS else
  r <- on_boot (Boot.get_and_clear_eks_info true) ;;
  let info := default Boot.eks_none r.2 in
  if negb (r.1 =? NO_ERROR) then ret r.1
  else if Boot.paddr info =? 0 then ret ERR_NOT_ALLOWED
  else
    let paddr := ROUNDDOWN (Boot.paddr info) PAGE_SIZE in
    let offset := u64 (Boot.paddr info - paddr) in
    let size := ROUNDUP (u64 (Boot.blob_length info + offset)) PAGE_SIZE in
    r <- on_ut (uthread_map_contig arm64_mmu_map arm64_mmu_unmap pt_empty heap 0 paddr size
                  (Z.lor UTM_R UTM_NS_MEM) UT_MAP_ALIGN_4KB) ;;
    if negb (r.1 =? NO_ERROR) then ret r.1
    else
      let vaddr := r.2 in
      let keys_params := u64 (vaddr + offset) in
      let key_string_addr := u64 (keys_params + Boot.off_encrypted_keys) in
      let key_size := NsDram.le ((fun i => u8 (dram (u64 (paddr + offset) + Z.of_nat i))) <$> seq 0 4) in
      _ <- on_m (Usercopy.copy_to_user (eks_addr_ptr p) (le_bytes 4 key_string_addr)) ;;
      _ <- on_m (Usercopy.copy_to_user (eks_size_ptr p) (le_bytes 4 key_size)) ;;
      _ <- on_m (Usercopy.copy_to_user (map_addr_ptr p) (le_bytes 4 vaddr)) ;;
      _ <- on_m (Usercopy.copy_to_user (map_size_ptr p) (le_bytes 4 size)) ;;
      ret NO_ERROR.

(** The weak default. *)
Definition sys_std_platform_ioctl_partner (fd cmd user_ptr : Z) : M kst Z := ret ERR_NOT_SUPPORTED.

Definition sys_std_platform_ioctl (partner : Z -> Z -> Z -> M kst Z) (heap : bool * bool) (fd cmd user_ptr : Z) : M kst Z :=
  assert_ (fd =? 3) ;;;
  if cmd =? IOCTL_MAP_EKS_TO_USER then
    b <- valid_address user_ptr sizeof_ioctl_map_eks_params ;;
    if negb b then ret ERR_INVALID_ARGS
    else
      b <- on_boot (Boot.on_plat NsDram.platform_is_bootstrapping) ;;
      if negb b then ret ERR_NOT_ALLOWED
      else
        r <- on_m (Usercopy.copy_from_user user_ptr sizeof_ioctl_map_eks_params) ;;
        ioctl_map_eks_to_user heap (decode_eks_params r.2)
  else partner fd cmd user_ptr.

Definition sys_std_fd_op (debuglevel : Z) (partner : Z -> Z -> Z -> M kst Z) (heap : bool * bool) : sys_fd_ops :=
  SysFdOps None (Some (sys_std_write debuglevel)) (Some (sys_std_platform_ioctl partner heap)).

(** The table as it is compiled in. *)
Definition sys_fds_init (op : sys_fd_ops) : list (option sys_fd_ops) :=
  [None; Some op; Some op; Some op] ++ replicate (MAX_SYS_FD_HADLERS - 4) None.

(** ** File descriptors *)

Definition install_sys_fd_handler (fd : Z) (ops : sys_fd_ops) : M sst Z :=
  s <- get ;;
  match sys_fds s !! Z.to_nat fd with
  | None => ret ERR_INVALID_ARGS
  | Some None => put (Sst (<[Z.to_nat fd := Some ops]> (sys_fds s)) (k s)) ;;; ret NO_ERROR
  | Some (Some _) => ret ERR_ALREADY_EXISTS
  end.

Definition get_sys_fd_handler (fd : Z) : M sst (option sys_fd_ops) :=
  gets (fun s => if Z.of_nat (List.length (sys_fds s)) <=? fd then None else mjoin (sys_fds s !! Z.to_nat fd)).

Definition sys_write (fd user_ptr size : Z) : M sst Z :=
  ops <- get_sys_fd_handler fd ;;
  match o ← ops; write o with Some f => on_k (f fd user_ptr size) | None => ret ERR_NOT_SUPPORTED end.
Definition sys_read (fd user_ptr size : Z) : M sst Z :=
  ops <- get_sys_fd_handler fd ;;
  match o ← ops; read o with Some f => on_k (f fd user_ptr size) | None => ret ERR_NOT_SUPPORTED end.
Definition sys_ioctl (fd req user_ptr : Z) : M sst Z :=
  ops <- get_sys_fd_handler fd ;;
  match o ← ops; ioctl o with Some f => on_k (f fd req user_ptr) | None => ret ERR_NOT_SUPPORTED end.

(** ** Program break, time and exit *)

Definition sys_brk (brk : Z) : M kst Z :=
  s <- get ;;
  let a := app s in
  (if (start_brk a <=? brk) && (brk <=? end_brk a) then put (set_app (set_brk (start_brk a) brk (end_brk a) a) s) else ret tt) ;;;
  gets (fun s => cur_brk (app s)).

(** [uthread_exit] does not return. *)
Definition sys_exit_group : M kst (option Z) :=
  on_ut uthread_free_maps ;;; modify set_exited ;;; ret None.

Definition DIV_ROUND_UP (n d : Z) : Z := u64 (u64 (n + d) - 1) / d.

Definition sys_nanosleep (clock_id flags sleep_time_l sleep_time_h : Z) : M kst Z :=
  let sleep_time := u64 (sleep_time_l + u64 (Z.shiftl sleep_time_h 32)) in
  modify (add_slept (u32 (DIV_ROUND_UP sleep_time (1000 * 1000)))) ;;; ret NO_ERROR.

(** [now] is what [current_time_hires] answers. *)
Definition sys_gettime (now clock_id flags time : Z) : M kst Z :=
  on_m (Usercopy.copy_to_user time (le_bytes 8 (u64 (now * 1000)))).

(** ** Mappings *)

Context (address_to_page : Z -> bool).

(** [pages]: the frames the page allocator finds; [alloc], [heap]: whether the allocations succeed.
    Mapping and unmapping change the list of mappings; the user memory of the
    state ([m]), which the copies of other calls use, is neither extended by
    the one nor cut by the other. *)
Definition sys_mmap (alloc : bool) (heap : bool * bool) (pages : list Z) (uaddr size flags handle : Z) : M kst Z :=
  if has_flag flags MMAP_FLAG_DEVICE_MEM then
    r <- on_ut (uthread_pmm_alloc_and_map arm64_mmu_map arm64_mmu_unmap pt_empty (alloc, heap.1, heap.2) pages size flags 1) ;;
    if negb (r.1 =? 0) then ret r.1 else ret r.2
  else if negb (flags =? MMAP_FLAG_IO_HANDLE) || negb (uaddr =? 0) then ret ERR_INVALID_ARGS
  else
    s <- get ;;
    r <- on_load (trusty_app_setup_mmio arm64_mmu_map arm64_mmu_unmap pt_empty heap (app s) handle 0 size) ;;
    if negb (r.1 =? NO_ERROR) then ret r.1 else ret r.2.

Definition sys_munmap (uaddr size : Z) : M kst Z :=
  on_ut (uthread_unmap_locked arm64_mmu_unmap address_to_page uaddr size).

(** ** Memory for DMA *)

(** One turn of the loop: the status, and the piece when it was stored. *)
Definition dma_piece (uaddr sz mapped_size junk pmem : Z) : M kst (Z * dma_pmem) :=
  r <- on_ut (uthread_virt_to_phys (uaddr + mapped_size)) ;;
  match r with
  | (_, None) => ret (r.1, Pmem 0 0 junk)
  | (_, Some pa) =>
      let n := Z.min (u32 (sz - mapped_size)) (PAGE_SIZE - Z.land pa (PAGE_SIZE - 1)) in
      let kpmem := Pmem pa n junk in
      e <- on_m (Usercopy.copy_to_user pmem (encode_dma_pmem kpmem)) ;;
      ret (e, kpmem)
  end.

(** The loop: the error, or the mapped size and the number of entries.  A
    turn maps a byte at least, so [sz] turns are enough. *)
Fixpoint dma_loop (fuel : nat) (uaddr sz flags mapped_size entries junk pmem : Z) : M kst (option (Z + Z * Z)) :=
  match fuel with
  | O => ret None
  | S fuel =>
      r <- dma_piece uaddr sz mapped_size junk pmem ;;
      if negb (r.1 =? NO_ERROR) then tret (inl r.1)
      else
        let mapped_size := u32 (mapped_size + size r.2) in
        let entries := u32 (entries + 1) in
        if (mapped_size <? sz) && has_flag flags DMA_FLAG_MULTI_PMEM
        then dma_loop fuel uaddr sz flags mapped_size entries junk (u32 (pmem + sizeof_dma_pmem))
        else tret (inr (mapped_size, entries))
  end.

(** [junk]: what the stack held where [kpmem.pad] is. *)
Definition sys_prepare_dma (junk uaddr sz flags pmem : Z) : M kst (option Z) :=
  b <- (if sz =? 0 then ret false else valid_address uaddr sz) ;;
  if negb b then tret ERR_INVALID_ARGS
  else
    r <~ dma_loop (Z.to_nat sz) uaddr sz flags 0 0 junk pmem ;;
    match r with
    | inl e => tret e
    | inr (mapped_size, entries) =>
        (if has_flag flags DMA_FLAG_FROM_DEVICE then modify (add_cache (arch_clean_invalidate_cache_range uaddr mapped_size))
         else modify (add_cache (arch_clean_cache_range uaddr mapped_size))) ;;;
        if negb (has_flag flags DMA_FLAG_ALLOW_PARTIAL) && negb (mapped_size =? sz) then tret ERR_BAD_LEN
        else tret entries
    end.

Definition sys_finish_dma (uaddr size flags : Z) : M kst Z :=
  b <- valid_address uaddr size ;;
  if negb b then ret ERR_INVALID_ARGS
  else
    (if has_flag flags DMA_FLAG_FROM_DEVICE then modify (add_cache (arch_clean_invalidate_cache_range uaddr size)) else ret tt) ;;;
    ret NO_ERROR.

(** ** The numbers of the calls

    The first eleven entries of [syscall_table.h]. *)
Inductive sys_call :=
| SysWrite (fd msg size : Z) | SysBrk (brk : Z) | SysExitGroup | SysRead (fd msg size : Z)
| SysIoctl (fd req buf : Z) | SysNanosleep (clock_id flags l h : Z) | SysGettime (now clock_id flags time : Z)
| SysMmap (alloc : bool) (heap : bool * bool) (pages : list Z) (uaddr size flags handle : Z)
| SysMunmap (uaddr size : Z) | SysPrepareDma (junk uaddr size flags pmem : Z)
| SysFinishDma (uaddr size flags : Z).

#[export] Instance sys_call_eq_dec : EqDecision sys_call.
Proof. solve_decision. Defined.

Definition do_syscall (c : sys_call) : M sst (option Z) :=
  match c with
  | SysWrite fd msg size => tlift (sys_write fd msg size)
  | SysBrk brk => on_k (tlift (sys_brk brk))
  | SysExitGroup => on_k sys_exit_group
  | SysRead fd msg size => tlift (sys_read fd msg size)
  | SysIoctl fd req buf => tlift (sys_ioctl fd req buf)
  | SysNanosleep c f l h => on_k (tlift (sys_nanosleep c f l h))
  | SysGettime now c f time => on_k (tlift (sys_gettime now c f time))
  | SysMmap alloc heap pages uaddr size flags handle => on_k (tlift (sys_mmap alloc heap pages uaddr size flags handle))
  | SysMunmap uaddr size => on_k (tlift (sys_munmap uaddr size))
  | SysPrepareDma junk uaddr size flags pmem => on_k (sys_prepare_dma junk uaddr size flags pmem)
  | SysFinishDma uaddr size flags => on_k (tlift (sys_finish_dma uaddr size flags))
  end.
End Keys.
End State.
End Syscall.
