(* ===== verification/SyscallDma.v ===== *)
(** * The pieces of memory handed to a device

    [sys_prepare_dma] splits a range of user addresses into physically
    contiguous pieces.  Here they are compared with the translation of the
    range byte by byte. *)

From S2P Require Import Prelude Iovec Uthread TrustyApp NsDram Boot Syscall.

Module SyscallDma.
Import Iovec Uthread Syscall.

(** ** Words in memory *)

Lemma le_le_bytes n : forall x, 0 <= x < 256 ^ Z.of_nat n -> NsDram.le (le_bytes n x) = x.
Proof.
  induction n as [|n IH]; intros x Hx; [change (256 ^ Z.of_nat 0) with 1 in Hx; cbn; lia|].
  rewrite Nat2Z.inj_succ, Z.pow_succ_r in Hx by lia. cbn [le_bytes]. change (u8 x + 256 * NsDram.le (le_bytes n (x / 256)) = x).
  rewrite IH by dlia. unfold u8, uwrap. change (2 ^ 8) with 256. dlia.
Qed.

(** ** The translation of one byte *)

(** The frames of a mapping: enough of them, page-aligned, inside the physical
    address space; the mapping itself is made of whole pages. *)
Record frames_ok (mp : uthread_map) : Prop := {
  f_pfns : pfns_ok mp;
  f_vaddr : mp_vaddr mp mod PAGE_SIZE = 0;
  f_size : mp_size mp mod PAGE_SIZE = 0;
  f_aligned : Forall (fun p => p mod PAGE_SIZE = 0 /\ 0 <= p /\ p + mp_size mp <= 2 ^ 64) (mp_pfn_list mp)
}.

Definition frame (mp : uthread_map) (i : Z) : Z := default 0 (mp_pfn_list mp !! Z.to_nat i).

Definition byte_pa (mp : uthread_map) (v : Z) : Z :=
  if has_flag (mp_flags mp) UTM_PHYS_CONTIG then frame mp 0 + (v - mp_vaddr mp)
  else frame mp ((v - mp_vaddr mp) / PAGE_SIZE) + v mod PAGE_SIZE.

Definition inside (mp : uthread_map) (v : Z) : Prop := mp_vaddr mp <= v < mp_vaddr mp + mp_size mp.

Lemma frame_lookup mp v : frames_ok mp -> inside mp v ->
  let i := if has_flag (mp_flags mp) UTM_PHYS_CONTIG then 0 else (v - mp_vaddr mp) / PAGE_SIZE in
  mp_pfn_list mp !! Z.to_nat i = Some (frame mp i) /\ frame mp i mod PAGE_SIZE = 0 /\
  0 <= frame mp i /\ frame mp i + mp_size mp <= 2 ^ 64.
Proof.
  intros Hf Hv i. destruct Hf as [Hp H1 H2 Ha]. unfold inside in Hv.
  assert (exists p, mp_pfn_list mp !! Z.to_nat i = Some p) as [p Hi].
  { apply lookup_lt_is_Some. unfold pfns_ok in Hp. subst i. unfold PAGE_SIZE in *.
    destruct (has_flag _ _); [lia|]. dlia. }
  unfold frame. rewrite Hi. cbn. split; [done|].
  rewrite Forall_forall in Ha. apply Ha. by eapply list_elem_of_lookup_2.
Qed.

Lemma page_land v : Z.land v (PAGE_SIZE - 1) = v mod PAGE_SIZE.
Proof. apply (land_pow2_mask v 12). lia. Qed.

Lemma byte_pa_offset mp v : frames_ok mp -> inside mp v -> byte_pa mp v mod PAGE_SIZE = v mod PAGE_SIZE.
Proof.
  intros Hf Hv. pose proof (frame_lookup mp v Hf Hv) as Hl. cbn zeta in Hl. destruct Hf as [_ H1 _ _].
  unfold byte_pa. destruct (has_flag _ _); destruct Hl as (_ & Ha & _); unfold PAGE_SIZE in *; dlia.
Qed.

(** Bytes of one page stay together. *)
Lemma byte_pa_add mp v j : frames_ok mp -> inside mp v -> 0 <= j -> v mod PAGE_SIZE + j < PAGE_SIZE ->
  byte_pa mp (v + j) = byte_pa mp v + j.
Proof.
  intros Hf Hv Hj Hp. unfold byte_pa. destruct (has_flag _ _); [lia|].
  destruct Hf as [_ H1 _ _]. unfold PAGE_SIZE in *.
  replace ((v + j - mp_vaddr mp) / 4096) with ((v - mp_vaddr mp) / 4096) by dlia.
  replace ((v + j) mod 4096) with (v mod 4096 + j) by dlia. lia.
Qed.

Section Dma.
Context {PT : Type}.
Implicit Types (u : uthread PT) (s : @kst PT).

Lemma find_inside u i mp v : uwf u -> map_list u !! i = Some mp -> inside mp v -> uthread_map_find v 0 u = Some (i, mp).
Proof.
  intros Hu Hi Hv. unfold inside in Hv. pose proof (maps_wf_ok _ _ _ (uwf_maps _ Hu) Hi) as (? & ? & ?).
  apply uthread_map_find_spec; [apply Hu|lia|lia|]. split; [done|]. lia.
Qed.

Lemma virt_to_phys_run u i mp v : uwf u -> map_list u !! i = Some mp -> frames_ok mp -> inside mp v ->
  uthread_virt_to_phys v u = Done (NO_ERROR, Some (byte_pa mp v)) u.
Proof.
  intros Hu Hi Hf Hv. unfold uthread_virt_to_phys, bind at 1, get. rewrite (find_inside u i mp v) by done.
  pose proof (frame_lookup mp v Hf Hv) as Hl. cbn zeta in Hl. unfold byte_pa, inside in *.
  pose proof (maps_wf_ok _ _ _ (uwf_maps _ Hu) Hi) as (Hm1 & Hm2 & Hm3).
  assert (mp_vaddr mp + mp_size mp <= 2 ^ 25) as Htop.
  { pose proof (uwf_top _ Hu) as Ht. rewrite Forall_forall in Ht. apply Ht. by eapply list_elem_of_lookup_2. }
  destruct (has_flag _ _); destruct Hl as (Hl & Ha & Hb & Hc).
  - unfold deref. change (Z.to_nat 0) with 0%nat in Hl.
    destruct (mp_pfn_list mp) as [|p l]; [done|]. cbn in Hl. injection Hl as Hl. cbn. rewrite Hl.
    unfold bind, ret. unfold u64. rewrite uwrap_small by lia. done.
  - destruct Hf as [_ H1 H2 _].
    assert (u32 ((v - mp_vaddr mp) / PAGE_SIZE) = (v - mp_vaddr mp) / PAGE_SIZE) as ->.
    { apply uwrap_small. unfold PAGE_SIZE. dlia. }
    rewrite Hl. cbn. unfold bind, ret. rewrite page_land.
    assert (u32 (v mod PAGE_SIZE) = v mod PAGE_SIZE) as -> by (apply uwrap_small; unfold PAGE_SIZE; dlia).
    unfold u64. rewrite uwrap_small; [done|]. unfold PAGE_SIZE in *. dlia.
Qed.

(** ** Pieces *)

(** The addresses a piece stands for, in order. *)
Definition piece_bytes (p : dma_pmem) : list Z := seqZ (paddr p) (size p).

(** A piece of the translation of [n] bytes at [v]: it ends with its page. *)
Definition in_page (p : dma_pmem) : Prop := 0 < size p /\ paddr p mod PAGE_SIZE + size p <= PAGE_SIZE.

(** The pieces stored one after the other, as far as the application lets. *)
Fixpoint write_pieces (pmem : Z) (ps : list dma_pmem) (u : umem) : option umem :=
  match ps with
  | [] => Some u
  | p :: ps =>
      match Usercopy.arch_copy_to_user pmem (encode_dma_pmem p) u with
      | (0, u) => write_pieces (u32 (pmem + sizeof_dma_pmem)) ps u
      | _ => None
      end
  end.

(** Pages that [n > 0] bytes at [v] touch: the size the caller must give the array. *)
Definition pages_touched (v n : Z) : Z := (v + n - 1) / PAGE_SIZE - v / PAGE_SIZE + 1.

Lemma seqZ_split a n k : 0 <= k <= n -> seqZ a n = seqZ a k ++ seqZ (a + k) (n - k).
Proof. intros Hk. replace n with (k + (n - k)) at 1 by lia. apply seqZ_app; lia. Qed.

Lemma byte_pa_run mp v n : frames_ok mp -> 0 <= n -> v mod PAGE_SIZE + n <= PAGE_SIZE -> inside mp v ->
  byte_pa mp <$> seqZ v n = seqZ (byte_pa mp v) n.
Proof.
  intros Hf Hn Hp Hv. apply list_eq_same_length with (n := Z.to_nat n); rewrite ?length_fmap, ?length_seqZ; [done..|].
  intros i x y Hi. rewrite list_lookup_fmap, !lookup_seqZ_lt by lia. cbn. intros [= <-] [= <-].
  apply byte_pa_add; try done; lia.
Qed.

Definition piece_of (mp : uthread_map) (v rest junk : Z) : dma_pmem :=
  Pmem (byte_pa mp v) (Z.min rest (PAGE_SIZE - v mod PAGE_SIZE)) junk.

Lemma piece_of_spec mp v rest junk : frames_ok mp -> inside mp v -> 0 < rest ->
  let p := piece_of mp v rest junk in
  in_page p /\ 0 < size p <= rest /\ size p <= PAGE_SIZE /\
  piece_bytes p = byte_pa mp <$> seqZ v (size p) /\
  (size p < rest -> (v + size p) mod PAGE_SIZE = 0).
Proof.
  intros Hf Hv Hr p. pose proof (byte_pa_offset mp v Hf Hv) as Ho.
  assert (0 < size p /\ size p <= rest /\ v mod PAGE_SIZE + size p <= PAGE_SIZE /\
    (size p < rest -> (v + size p) mod PAGE_SIZE = 0)) as (H1 & H2 & H3 & H4).
  { subst p. unfold piece_of. cbn. unfold PAGE_SIZE in *. split_and!; dlia. }
  split; [|split_and!; try done].
  - split; [done|]. change (paddr p) with (byte_pa mp v). rewrite Ho. done.
  - unfold PAGE_SIZE in *. dlia.
  - unfold piece_bytes. change (paddr p) with (byte_pa mp v). rewrite byte_pa_run; try done. lia.
Qed.

Lemma pages_touched_step v n k : 0 < k < n -> (v + k) mod PAGE_SIZE = 0 -> v mod PAGE_SIZE + k <= PAGE_SIZE ->
  pages_touched v n = 1 + pages_touched (v + k) (n - k).
Proof. unfold pages_touched, PAGE_SIZE. intros ???. dlia. Qed.

Lemma pages_touched_one v n : 0 < n -> v mod PAGE_SIZE + n <= PAGE_SIZE -> pages_touched v n = 1.
Proof. unfold pages_touched, PAGE_SIZE. intros ??. dlia. Qed.

(** ** The loop *)

Definition write_user (x : umem) (s : kst) : kst (PT:=PT) := set_m (set_user x (m s)) s.

Lemma dma_piece_run s i mp uaddr sz mapped junk pmem : uwf (ut s) -> map_list (ut s) !! i = Some mp -> frames_ok mp ->
  inside mp (uaddr + mapped) -> 0 <= mapped < sz -> sz < 2 ^ 32 ->
  let p := piece_of mp (uaddr + mapped) (sz - mapped) junk in
  let r := Usercopy.arch_copy_to_user pmem (encode_dma_pmem p) (user (m s)) in
  dma_piece uaddr sz mapped junk pmem s = Done (r.1, p) (write_user r.2 s).
Proof.
  intros Hu Hi Hf Hv Hm Hsz p r. unfold dma_piece, bind at 1, on_ut.
  rewrite (virt_to_phys_run (ut s) i mp) by done. rewrite page_land, byte_pa_offset by done.
  assert (u32 (sz - mapped) = sz - mapped) as -> by (apply uwrap_small; lia).
  fold (piece_of mp (uaddr + mapped) (sz - mapped) junk). unfold bind, on_m, Usercopy.copy_to_user. by destruct s.
Qed.

Lemma arch_copy_to_user_err a bs : forall (x : umem), let r := Usercopy.arch_copy_to_user a bs x in r.1 = NO_ERROR \/ r.1 = ERR_FAULT.
Proof.
  revert a. induction bs as [|b bs IH]; intros a x; cbn; [by left|].
  destruct (x !! a) as [[? []]|]; [apply IH|by right..].
Qed.

(** What the loop leaves when it has been at [mapped] in state [s]. *)
Definition loop_post (mp : uthread_map) (uaddr sz flags mapped entries pmem : Z) s (r : option (Z + Z * Z)) s' : Prop :=
  exists x, s' = write_user x s /\
  (r = Some (inl ERR_FAULT) \/
   exists ps n, r = Some (inr (n, entries + Z.of_nat (length ps))) /\ mapped < n <= sz /\
     write_pieces pmem ps (user (m s)) = Some x /\ Forall in_page ps /\
     mjoin (piece_bytes <$> ps) = byte_pa mp <$> seqZ (uaddr + mapped) (n - mapped) /\
     Z.of_nat (length ps) = pages_touched (uaddr + mapped) (n - mapped) /\
     if has_flag flags DMA_FLAG_MULTI_PMEM then n = sz else length ps = 1%nat).

Lemma dma_loop_run mp i uaddr sz flags junk fuel : forall s mapped entries pmem,
  uwf (ut s) -> map_list (ut s) !! i = Some mp -> frames_ok mp ->
  mp_vaddr mp <= uaddr -> uaddr + sz <= mp_vaddr mp + mp_size mp -> sz < 2 ^ 32 ->
  0 <= mapped < sz -> sz - mapped <= Z.of_nat fuel -> 0 <= entries -> entries + (sz - mapped) < 2 ^ 32 ->
  runs (dma_loop fuel uaddr sz flags mapped entries junk pmem) s (loop_post mp uaddr sz flags mapped entries pmem s).
Proof.
  induction fuel as [|fuel IH]; intros s mapped entries pmem Hu Hi Hf Hlo Hhi Hsz Hm Hfuel He Hent; [lia|].
  assert (inside mp (uaddr + mapped)) as Hv by (unfold inside; lia).
  cbn [dma_loop]. apply runs_bind. unfold runs at 1. rewrite (dma_piece_run s i mp) by done. cbn zeta.
  set (p := piece_of mp (uaddr + mapped) (sz - mapped) junk).
  destruct (piece_of_spec mp (uaddr + mapped) (sz - mapped) junk Hf Hv) as (Hpg & Hps & Hpp & Hbytes & Hend); [lia|].
  fold p in Hpg, Hps, Hpp, Hbytes, Hend.
  pose proof (arch_copy_to_user_err pmem (encode_dma_pmem p) (user (m s))) as Herr. cbn zeta in Herr.
  destruct (Usercopy.arch_copy_to_user pmem (encode_dma_pmem p) (user (m s))) as [e x] eqn:Ec. cbn [fst snd] in *.
  destruct Herr as [-> | ->].
  2: { apply runs_ret. exists x. split; [done|by left]. }
  cbn [negb NO_ERROR Z.eqb].
  assert (u32 (mapped + size p) = mapped + size p) as -> by (apply uwrap_small; lia).
  assert (u32 (entries + 1) = entries + 1) as -> by (apply uwrap_small; lia).
  assert (v_off : (uaddr + mapped) mod PAGE_SIZE + size p <= PAGE_SIZE).
  { subst p. unfold piece_of. cbn. unfold PAGE_SIZE. dlia. }
  destruct ((mapped + size p <? sz) && has_flag flags DMA_FLAG_MULTI_PMEM) eqn:Eb.
  - apply andb_true_iff in Eb as [Eb Efl]. apply Z.ltb_lt in Eb.
    specialize (IH (write_user x s) (mapped + size p) (entries + 1) (u32 (pmem + sizeof_dma_pmem))).
    eapply runs_mono; [apply IH; try done; lia|]. clear IH.
    intros r s' (y & -> & Hr). exists y. split; [by destruct s|].
    destruct Hr as [->|(ps & n & -> & Hn & Hw & Hpgs & Hb & Hcount & Hflag)]; [by left|]. right.
    exists (p :: ps), n. rewrite Efl in *. split_and!; [|lia..| |by constructor| | |done].
    + cbn [length]. do 3 f_equal. lia.
    + cbn [write_pieces]. rewrite Ec. done.
    + change (mjoin (piece_bytes <$> p :: ps)) with (piece_bytes p ++ mjoin (piece_bytes <$> ps)). rewrite (seqZ_split _ (n - mapped) (size p)) by lia.
      rewrite fmap_app, <- Hbytes. f_equal. rewrite Hb. do 2 f_equal; lia.
    + cbn [length]. rewrite (pages_touched_step _ (n - mapped) (size p)); [|lia|apply Hend; lia|done].
      rewrite Nat2Z.inj_succ, Hcount. replace (uaddr + mapped + size p) with (uaddr + (mapped + size p)) by lia.
      replace (n - mapped - size p) with (n - (mapped + size p)) by lia. lia.
  - apply runs_ret. exists x. split; [done|]. right. exists [p], (mapped + size p).
    replace (mapped + size p - mapped) with (size p) by lia. split_and!; [done|lia..| | | | |].
    + cbn [write_pieces]. by rewrite Ec.
    + by constructor.
    + cbn. by rewrite app_nil_r.
    + by rewrite pages_touched_one by lia.
    + apply andb_false_iff in Eb as [Eb|Eb]; [apply Z.ltb_ge in Eb|by rewrite Eb].
      destruct (has_flag _ _); [lia|done].
Qed.

(** C31: [sys_prepare_dma] always comes back.  For a range outside every mapping, or
    an empty one, it only says so.  Otherwise, unless the application's array is not
    writable, it stores pieces, each within a physical page, that laid
    end to end are the byte-by-byte translation of the first [n] bytes of the
    range, as many as those bytes touch pages (the array size that [mm.h]
    asks for); with DMA_FLAG_MULTI_PMEM [n] is the whole range, without it there is one piece; these [n] bytes
    are cleaned from the cache, and the answer is the number of pieces, or
    ERR_BAD_LEN for a part that was not allowed. *)
Theorem prepare_dma_pieces junk uaddr sz flags pmem s :
  uwf (ut s) -> Forall frames_ok (map_list (ut s)) -> 0 <= uaddr < 2 ^ 32 -> 0 <= sz < 2 ^ 32 ->
  runs (sys_prepare_dma junk uaddr sz flags pmem) s (fun r s' =>
    match (if sz =? 0 then None else uthread_map_find uaddr sz (ut s)) with
    | None => r = Some ERR_INVALID_ARGS /\ s' = s
    | Some (_, mp) => exists x,
        r = Some ERR_FAULT /\ s' = write_user x s \/
        exists ps n, 0 < n <= sz /\ write_pieces pmem ps (user (m s)) = Some x /\ Forall in_page ps /\
          mjoin (piece_bytes <$> ps) = byte_pa mp <$> seqZ uaddr n /\
          Z.of_nat (length ps) = pages_touched uaddr n /\
          (if has_flag flags DMA_FLAG_MULTI_PMEM then n = sz else length ps = 1%nat) /\
          s' = add_cache (if has_flag flags DMA_FLAG_FROM_DEVICE then arch_clean_invalidate_cache_range uaddr n
                          else arch_clean_cache_range uaddr n) (write_user x s) /\
          r = Some (if has_flag flags DMA_FLAG_ALLOW_PARTIAL || (n =? sz) then Z.of_nat (length ps) else ERR_BAD_LEN)
    end).
Proof.
  intros Hu Hfr Ha Hs. unfold sys_prepare_dma. apply runs_bind. destruct (sz =? 0) eqn:Ez; zbool.
  { apply runs_ret. cbn. by apply runs_ret. }
  unfold runs at 1, valid_address, on_ut, uthread_is_valid_range, gets.
  replace (set_ut (ut s) s) with s by (by destruct s).
  destruct (uthread_map_find uaddr sz (ut s)) as [[i mp]|] eqn:Ef; cbn [negb]; [|by apply runs_ret].
  apply uthread_map_find_spec in Ef as (Hi & _ & Hlo & Hhi); [|apply Hu|lia..].
  assert (frames_ok mp) as Hf by (rewrite Forall_forall in Hfr; apply Hfr; by eapply list_elem_of_lookup_2).
  pose proof (dma_loop_run mp i uaddr sz flags junk (Z.to_nat sz) s 0 0 pmem Hu Hi Hf) as Hl.
  do 7 (specialize (Hl ltac:(lia))).
  unfold tbind. apply runs_bind. eapply runs_mono; [exact Hl|].
  intros r s' (x & -> & [->|(ps & n & -> & Hn & Hw & Hpg & Hb & Hc & Hfl)]); cbn beta iota.
  { apply runs_ret. exists x. by left. }
  rewrite Z.add_0_r, Z.sub_0_r in Hb, Hc. rewrite Z.add_0_l.
  apply runs_bind. destruct (has_flag flags DMA_FLAG_FROM_DEVICE) eqn:Ed;
  (apply runs_done; eexists _, _; split; [reflexivity|]; cbn beta;
   rewrite <- negb_orb; destruct (has_flag flags DMA_FLAG_ALLOW_PARTIAL || (n =? sz)) eqn:Eor; apply runs_ret;
   exists x; right; exists ps, n; rewrite Eor; split_and!; first [done|lia]).
Qed.
End Dma.

(** ** Two frames that are not neighbours *)

Definition demo_map : uthread_map := UthreadMap 0x8000 0x2000 (Z.lor UTM_W UTM_R) 4096 [0x80005000; 0x80003000].
Definition demo_space : uthread unit := Uthread 0x1000000 [demo_map] MAX_USR_VA (Some tt) [].
Definition demo_user : umem := list_to_map ((fun a => (a, (0xaa, true))) <$> seqZ 0x9f00 32).
Definition demo_boot : Boot.bootst := Boot.BootSt NsDram.platform_ctx_init (Boot.Eks 0x80001090 100) [] 0 [].
Definition demo_kst : kst := Kst demo_space TrustyApp.app_zero (Mem ∅ demo_user) demo_boot [] [] [] false.

Lemma demo_space_uwf : uwf demo_space.
Proof.
  split; cbn.
  - split; [|repeat constructor]. constructor; [|done]. by vm_compute.
  - constructor; [|done]. by vm_compute.
  - by vm_compute.
  - done.
  - by vm_compute.
  - constructor; [|done]. by vm_compute.
Qed.

Lemma demo_frames : Forall frames_ok (map_list demo_space).
Proof. constructor; [|done]. split; [by vm_compute|done|done|]. repeat constructor; vm_compute; congruence. Qed.

(** Sixteen bytes before the page boundary and sixteen behind it; the last
    word of a piece is what the stack held. *)
Example demo_pieces :
  match sys_prepare_dma 7 0x8ff0 0x20 DMA_FLAG_MULTI_PMEM 0x9f00 demo_kst with
  | Done r s => r = Some 2 /\ user_bytes 0x9f00 32 (user (m s)) =
      Some (encode_dma_pmem (Pmem 0x80005ff0 16 7) ++ encode_dma_pmem (Pmem 0x80003000 16 7))
  | Crash _ => False
  end.
Proof. vm_compute. done. Qed.

Lemma prepare_dma_pieces_witness :
  runs (sys_prepare_dma 7 0x8ff0 0x20 DMA_FLAG_MULTI_PMEM 0x9f00) demo_kst (fun r s' =>
    match uthread_map_find 0x8ff0 0x20 demo_space with
    | None => r = Some ERR_INVALID_ARGS /\ s' = demo_kst
    | Some (_, mp) => exists x,
        r = Some ERR_FAULT /\ s' = write_user x demo_kst \/
        exists ps n, 0 < n <= 0x20 /\ write_pieces 0x9f00 ps demo_user = Some x /\ Forall in_page ps /\
          mjoin (piece_bytes <$> ps) = byte_pa mp <$> seqZ 0x8ff0 n /\
          Z.of_nat (length ps) = pages_touched 0x8ff0 n /\ n = 0x20 /\
          s' = add_cache (arch_clean_cache_range 0x8ff0 n) (write_user x demo_kst) /\
          r = Some (if (n =? 0x20) then Z.of_nat (length ps) else ERR_BAD_LEN)
    end).
Proof. apply (prepare_dma_pieces 7 0x8ff0 0x20 DMA_FLAG_MULTI_PMEM 0x9f00 demo_kst); [apply demo_space_uwf|apply demo_frames|lia|lia]. Defined.
End SyscallDma.
