(* ===== verification/SyscallSpec.v ===== *)
(** * The general system calls keep their promises

    The invariant of a calling application (its address space, its program
    break, the keys waiting for it) and of the table of file descriptors; every
    call keeps it.  And what happens when a mapped device is unmapped again. *)

From S2P Require Import Prelude Iovec Uthread TrustyApp NsDram Boot Syscall SyscallDma.

Module SyscallSpec.
Import Iovec Uthread TrustyApp Syscall SyscallDma.
#[local] Set Default Proof Using "Type".

(** ** Address spaces of running applications *)

Definition whole_pages (mp : uthread_map) : Prop :=
  mp_vaddr mp mod PAGE_SIZE = 0 /\ mp_size mp mod PAGE_SIZE = 0 /\ pfns_ok mp.

(** The room below the stack: larger than any blob of keys. *)
Definition MIN_STACK_TOP : Z := 2 ^ 18.

Record space_ok {PT} (u : uthread PT) : Prop := {
  s_wf : uwf u;
  s_pages : Forall whole_pages (map_list u);
  s_stack : start_stack u mod PAGE_SIZE = 0 /\ MIN_STACK_TOP <= start_stack u;
  s_table : is_Some (page_table u);
  s_ns : Forall (fun mp => is_ns mp -> start_stack u <= mp_vaddr mp) (map_list u)
}.

(** What may be mapped: secure frames of the application's own or a device,
    or the keys. *)
Lemma page_land_0 n : n mod PAGE_SIZE = 0 -> Z.land n (PAGE_SIZE - 1) = 0.
Proof. by rewrite page_land. Qed.

Lemma page_sized n : 0 <= n -> n mod PAGE_SIZE = 0 -> (n <= 0 \/ PAGE_SIZE <= n).
Proof. unfold PAGE_SIZE. intros. dlia. Qed.

Lemma find_sec_loop_aligned size align l : (align = 1 \/ align = UT_MAP_ALIGN_4KB) ->
  Forall (fun mp => mp_end mp mod PAGE_SIZE = 0 /\ 0 <= mp_end mp < 2 ^ 31) l ->
  forall start e, start mod PAGE_SIZE = 0 -> (find_sec_loop size align l start e).1 mod PAGE_SIZE = 0.
Proof.
  intros Hal. induction 1 as [|mp l [Hm Hr] Hl IH]; intros start e Hs; cbn [find_sec_loop]; [done|].
  destruct (e <=? mp_vaddr mp); [done|]. apply IH.
  assert (ROUNDUP_u (mp_end mp) align mod PAGE_SIZE = 0) as Hu.
  { destruct Hal as [->| ->].
    - change 1 with (2 ^ 0). rewrite ROUNDUP_u_spec by lia. change (2 ^ 0) with 1. unfold PAGE_SIZE in *. dlia.
    - change UT_MAP_ALIGN_4KB with (2 ^ 12). rewrite ROUNDUP_u_spec by lia. unfold PAGE_SIZE. dlia. }
  by destruct (Z.max_spec start (ROUNDUP_u (mp_end mp) align)) as [[_ ->]|[_ ->]].
Qed.

Lemma find_sec_aligned {PT} (u : uthread PT) size align v : space_ok u -> (align = 1 \/ align = UT_MAP_ALIGN_4KB) ->
  uthread_find_va_space_sec size align u = Done v u -> v mod PAGE_SIZE = 0.
Proof.
  intros [Hu Hp [Hst Hst'] _ _] Hal. unfold uthread_find_va_space_sec, bind, get. cbn beta iota zeta.
  assert (ROUNDUP_u (start_stack u) align mod PAGE_SIZE = 0) as Hr.
  { pose proof (uwf_stack _ Hu) as Hb. change MAX_USR_VA with (2 ^ 25) in Hb. destruct Hal as [->| ->].
    - change 1 with (2 ^ 0). rewrite ROUNDUP_u_spec by lia. change (2 ^ 0) with 1. unfold PAGE_SIZE in *. dlia.
    - change UT_MAP_ALIGN_4KB with (2 ^ 12). rewrite ROUNDUP_u_spec by lia. unfold PAGE_SIZE. dlia. }
  assert (Forall (fun mp => mp_end mp mod PAGE_SIZE = 0 /\ 0 <= mp_end mp < 2 ^ 31) (map_list u)) as Hf.
  { apply Forall_forall. intros mp Hin. pose proof (uwf_top _ Hu) as Ht. pose proof (proj1 (uwf_maps _ Hu)) as Hm.
    rewrite Forall_forall in Hp, Ht, Hm. specialize (Hp mp Hin). specialize (Ht mp Hin). specialize (Hm mp Hin). cbn in Ht.
    destruct Hp as (H1 & H2 & _). pose proof Hm as (H3 & H4 & _). rewrite (mp_end_ok mp Hm). change MAX_USR_VA with (2 ^ 25) in Ht.
    unfold PAGE_SIZE in *. split; [dlia|lia]. }
  pose proof (find_sec_loop_aligned size align (map_list u) Hal Hf (ROUNDUP_u (start_stack u) align) (u64 (ROUNDUP_u (start_stack u) align + size)) Hr) as Hl.
  destruct (find_sec_loop _ _ _ _ _) as [start e]. cbn in Hl. destruct (_ || _); intros [= <-]; [done|done].
Qed.

Section Space.
Context {PT : Type}.
Context (arm64_mmu_map : Z -> Z -> Z -> Z -> PT -> Z * PT) (arm64_mmu_unmap : Z -> Z -> PT -> Z * PT) (pt_empty : PT).
Implicit Types u : uthread PT.

(** Any mapping that the system calls make, secure or not. *)
Lemma map_keeps_ok u heap v0 pfns size flags align : space_ok u ->
  0 <= size < 2 ^ 64 -> size mod PAGE_SIZE = 0 -> has_flag flags UTM_FIXED = false -> is_Some (map_pte_attr flags) ->
  (has_flag flags UTM_PHYS_CONTIG = false -> size / PAGE_SIZE <= Z.of_nat (length pfns)) -> (0 < size -> (0 < length pfns)%nat) ->
  (if has_flag flags UTM_NS_MEM then align = UT_MAP_ALIGN_4KB /\ size <= MIN_STACK_TOP
   else align = 1 \/ align = UT_MAP_ALIGN_4KB) ->
  exists err v u', uthread_map_locked arm64_mmu_map arm64_mmu_unmap pt_empty heap v0 (Some pfns) size flags align u = Done (err, v) u' /\
    space_ok u' /\
    (err = NO_ERROR -> exists i mp, map_list u' !! i = Some mp /\ mp_vaddr mp = v /\ mp_size mp = size /\ mp_flags mp = flags /\ v <> 0 /\
       mp_pfn_list mp = take (Z.to_nat (if has_flag flags UTM_PHYS_CONTIG then 1 else u32 (size / PAGE_SIZE))) pfns).
Proof.
  intros Hok Hs Hpg Hfix Hattr Hn Hn0 Hkind. pose proof (s_wf _ Hok) as Hu. pose proof (s_stack _ Hok) as [Hst Hst'].
  pose proof (uwf_bottom _ Hu) as Hbot. pose proof (uwf_stack _ Hu) as Hstk.
  assert (exists v, uthread_find_va_space size flags align u = Done v u /\ v mod PAGE_SIZE = 0 /\
    (v <> 0 -> start_stack u <= v /\ v + size <= MAX_USR_VA /\
     if has_flag flags UTM_NS_MEM then
       v < ns_va_bottom u ->
       Forall (fun mp => is_ns mp \/ mp_vaddr mp + mp_size mp <= ROUNDDOWN v UT_MAP_ALIGN_1MB) (map_list u)
     else v + size <= ns_va_bottom u)) as (v & Hfind & Hv4 & Hv).
  { unfold uthread_find_va_space. destruct (has_flag flags UTM_NS_MEM).
    - destruct Hkind as [-> Hk]. destruct (find_va_space_ns_spec u size UT_MAP_ALIGN_4KB Hu) as (v & Hf & Hv); [by left| | |].
      + change MAX_USR_VA with (2 ^ 25). unfold MIN_STACK_TOP in Hk. lia.
      + eapply Forall_impl; [exact (s_ns _ Hok)|]. intros mp Hns Hi. specialize (Hns Hi). lia.
      + exists v. split; [done|]. destruct (decide (v = 0)) as [->|Hne]; [done|].
        destruct (Hv Hne) as (? & ? & ? & ? & ?). split; [done|]. intros _. by split_and!.
    - assert (align_ok align) as Hal by (destruct Hkind as [->| ->]; [by right; right|by left]).
      destruct (find_va_space_sec_spec u size align Hu Hal Hs) as (v & Hf & Hv).
      exists v. split; [done|]. split; [by eapply find_sec_aligned|]. intros Hne. destruct (Hv Hne) as (? & ? & _ & _).
      split_and!; try done; lia. }
  destruct (uthread_map_run arm64_mmu_map arm64_mmu_unmap pt_empty heap v0 pfns size flags align u v)
    as (err & u' & Hrun & Hu' & Hss & Hpt & Hres); try done; [lia|by apply page_land_0|].
  exists err, v, u'. split; [done|]. destruct Hres as [[Hml He]|(Hpf & Hv0 & Hs0 & Hperm & _)].
  { split; [|done]. destruct Hok. split; rewrite ?Hml, ?Hss; auto. }
  destruct (Hv Hv0) as (Hvs & _ & _). split.
  - destruct Hok as [_ Hp _ Ht Hns]. split; rewrite ?Hss, ?Hperm; auto.
    constructor; [|done]. by split_and!.
  - intros _. set (mp := UthreadMap _ _ _ _ _) in Hperm.
    assert (mp ∈ map_list u') as [i Hi]%list_elem_of_lookup by (rewrite Hperm; left).
    exists i, mp. by split_and!.
Qed.

Lemma unmap_keeps_ok u atp v n : space_ok u ->
  match uthread_unmap_locked arm64_mmu_unmap atp v n u with
  | Done _ u' => space_ok u'
  | Crash w => w = BadAccess
  end.
Proof.
  intros Hok. pose proof (uthread_unmap_run arm64_mmu_unmap atp v n u (s_wf _ Hok) (s_table _ Hok)) as H.
  destruct (uthread_unmap_locked _ _ _ _ _) as [err u'|]; [|done]. destruct H as (Hu & Hss & Hpt & _ & Hml).
  destruct Hok as [_ Hp Hst _ Hns]. destruct Hml as [Hml|[i Hml]]; split; rewrite ?Hml, ?Hss; try done;
    apply Forall_forall; intros mp Hin%elem_of_delete; rewrite Forall_forall in Hp, Hns; auto.
Qed.
End Space.

(** ** The calling application and the table of descriptors *)

Definition brk_ok {UT} (a : trusty_app UT) : Prop := start_brk a <= cur_brk a <= end_brk a.

Definition eks_ok (e : Boot.eks_info_t) : Prop :=
  0 <= Boot.paddr e < 2 ^ 64 /\ 0 <= Boot.blob_length e <= Boot.MAXIMUM_ENCRYPTED_KEYS_SIZE.

Lemma eks_none_ok : eks_ok Boot.eks_none.
Proof. unfold eks_ok, Boot.MAXIMUM_ENCRYPTED_KEYS_SIZE, PAGE_SIZE. cbn. lia. Qed.

Lemma eks_range e : eks_ok e ->
  let pa := ROUNDDOWN (Boot.paddr e) PAGE_SIZE in
  let sz := ROUNDUP (u64 (Boot.blob_length e + u64 (Boot.paddr e - pa))) PAGE_SIZE in
  sz mod PAGE_SIZE = 0 /\ 0 <= sz <= MIN_STACK_TOP.
Proof.
  intros [Hp Hl] pa sz. unfold Boot.MAXIMUM_ENCRYPTED_KEYS_SIZE, MIN_STACK_TOP in *. change PAGE_SIZE with (2 ^ 12) in *.
  assert (0 <= Boot.paddr e - pa < 2 ^ 12) as Ho by (subst pa; rewrite ROUNDDOWN_spec by lia; dlia).
  subst sz. unfold u64. rewrite !uwrap_small by (rewrite ?uwrap_small; lia). rewrite ROUNDUP_spec by lia. dlia.
Qed.

Lemma ROUNDUP_page w a : 12 < w -> Z.land (uwrap w a) (uwrap w (Z.lnot (PAGE_SIZE - 1))) mod PAGE_SIZE = 0 /\
  0 <= Z.land (uwrap w a) (uwrap w (Z.lnot (PAGE_SIZE - 1))) < 2 ^ w.
Proof.
  intros Hw. pose proof (uwrap_range w a). change PAGE_SIZE with (2 ^ 12). rewrite land_clear_low by lia.
  change (2 ^ 12) with 4096. dlia.
Qed.

Lemma ROUNDUP32_page n : ROUNDUP32 n mod PAGE_SIZE = 0 /\ 0 <= ROUNDUP32 n < 2 ^ 32.
Proof. unfold ROUNDUP32, u32. by apply (ROUNDUP_page 32). Qed.

Lemma rd32_faults a (x : kmem) : match rd32 a x with Done _ x' => x' = x | Crash w => w = BadAccess end.
Proof.
  unfold rd32, rd8, bind, get, deref.
  destruct (x !! a); [|done]. cbn. destruct (x !! (a + 1)); [|done]. cbn. destruct (x !! (a + 2)); [|done]. cbn.
  by destruct (x !! (a + 3)).
Qed.

Lemma mmio_loop_faults fuel : forall i cnt blob id n (x : kmem),
  match mmio_loop fuel i cnt blob id n x with
  | Done (inl e) _ => e <> NO_ERROR
  | Done (inr (_, sz)) _ => sz = ROUNDUP32 n
  | Crash w => w = BadAccess
  end.
Proof.
  induction fuel as [|fuel IH]; intros i cnt blob id n x; [done|]. cbn [mmio_loop]. destruct (i <? cnt); [|done].
  unfold bind. pose proof (rd32_faults (blob + 4 * i) x) as H0.
  destruct (rd32 (blob + 4 * i) x) as [key x0|]; [|done]. subst x0.
  destruct (key =? _); [|apply IH]. pose proof (rd32_faults (blob + 4 * (i + 1)) x) as H1.
  destruct (rd32 (blob + 4 * (i + 1)) x) as [id' x1|]; [|done]. subst x1.
  pose proof (rd32_faults (blob + 4 * (i + 2)) x) as H2. destruct (rd32 (blob + 4 * (i + 2)) x) as [off x2|]; [|done]. subst x2.
  pose proof (rd32_faults (blob + 4 * (i + 3)) x) as H3. destruct (rd32 (blob + 4 * (i + 3)) x) as [v x3|]; [|done]. subst x3.
  destruct (negb _); [apply IH|]. by destruct (_ <? _).
Qed.

Lemma virt_to_phys_total {PT} (u : uthread PT) v : space_ok u ->
  exists r, uthread_virt_to_phys v u = Done r u /\ (r.2 = None -> r.1 <> NO_ERROR).
Proof.
  intros [Hu Hp _ _ _]. unfold uthread_virt_to_phys, bind, get.
  destruct (uthread_map_find v 0 u) as [[i mp]|] eqn:Ef; [|by eexists].
  unfold uthread_map_find in Ef. destruct (_ <? _); [done|]. apply map_find_loop_Some in Ef as (_ & Hi & Hv & _).
  pose proof (proj1 (uwf_maps _ Hu)) as Hm. pose proof (uwf_top _ Hu) as Ht. rewrite Forall_forall in Hp, Hm, Ht.
  apply list_elem_of_lookup_2 in Hi. specialize (Hp mp Hi) as (Hp1 & Hp2 & Hpf). specialize (Hm mp Hi). specialize (Ht mp Hi).
  rewrite (mp_end_ok mp Hm) in Hv. destruct Hm as (? & ? & ?). cbn in Ht. change MAX_USR_VA with (2 ^ 25) in Ht. unfold pfns_ok in Hpf.
  destruct (has_flag _ _).
  - destruct (mp_pfn_list mp) as [|p l]; [cbn in Hpf; lia|]. by eexists.
  - destruct (lookup_lt_is_Some_2 (mp_pfn_list mp) (Z.to_nat (u32 ((v - mp_vaddr mp) / PAGE_SIZE)))) as [p Hl].
    { unfold u32. rewrite uwrap_small; unfold PAGE_SIZE in Hp1, Hp2, Hpf |- *; dlia. }
    rewrite Hl. by eexists.
Qed.

Section Calls.
Context {PT : Type}.
Context (arm64_mmu_map : Z -> Z -> Z -> Z -> PT -> Z * PT) (arm64_mmu_unmap : Z -> Z -> PT -> Z * PT) (pt_empty : PT).
Context (address_to_page : Z -> bool) (dram : Z -> Z).
Implicit Types s : @kst PT.

Record kst_ok s : Prop := {
  k_space : space_ok (ut s);
  k_brk : brk_ok (app s);
  k_eks : eks_ok (Boot.eks_info (boot s))
}.

(** [p] finishes in a good state and its answer satisfies [Q], or crashes as [C] allows. *)
Definition keeps {A} (C : crash -> Prop) (p : M (@kst PT) A) : Prop :=
  forall s, kst_ok s -> match p s with Done _ s' => kst_ok s' | Crash w => C w end.

Definition never (w : crash) : Prop := False.
Definition any (w : crash) : Prop := True.

Lemma call_keeps_ret {A} C (a : A) : keeps C (ret a).
Proof. by intros s Hs. Qed.
Lemma call_keeps_bind {A B} C (p : M kst A) (f : A -> M kst B) : keeps C p -> (forall a, keeps C (f a)) -> keeps C (bind p f).
Proof. intros Hp Hf s Hs. unfold bind. specialize (Hp s Hs). destruct (p s) as [a s'|]; [by apply Hf|done]. Qed.
Lemma keeps_if {A} C (b : bool) (p q : M kst A) : keeps C p -> keeps C q -> keeps C (if b then p else q).
Proof. by destruct b. Qed.
Lemma keeps_weaken {A} (C C' : crash -> Prop) (p : M kst A) : (forall w, C w -> C' w) -> keeps C p -> keeps C' p.
Proof. intros HC Hp s Hs. specialize (Hp s Hs). destruct (p s); [done|by apply HC]. Qed.
Lemma call_keeps_get C : keeps C get.
Proof. by intros s Hs. Qed.
Lemma call_keeps_gets {A} C (f : @kst PT -> A) : keeps C (gets f).
Proof. by intros s Hs. Qed.
Lemma call_keeps_modify C (f : @kst PT -> kst) : (forall s, kst_ok s -> kst_ok (f s)) -> keeps C (modify f).
Proof. intros Hf s Hs. by apply Hf. Qed.
Lemma call_keeps_panic {A} (C : crash -> Prop) : C Panic -> keeps C (@panic kst A).
Proof. by intros HC s Hs. Qed.
Lemma call_keeps_assert (C : crash -> Prop) b : C Panic -> keeps C (assert_ b).
Proof. intros HC s Hs. by destruct b. Qed.
Lemma call_keeps_deref {A} (C : crash -> Prop) (o : option A) : C BadAccess -> keeps C (deref o).
Proof. intros HC s Hs. by destruct o. Qed.
Lemma keeps_on_m {A} C (p : M mem A) : (forall x, exists a x', p x = Done a x') -> keeps C (on_m p).
Proof. intros Hp s [? ? ?]. unfold on_m. destruct (Hp (m s)) as (a & x' & ->). by split. Qed.

(** A call that only reads the address space. *)
Lemma keeps_valid_address C a n : keeps C (valid_address a n).
Proof. intros s Hs. unfold valid_address, on_ut, uthread_is_valid_range, gets. by replace (set_ut (ut s) s) with s by (by destruct s). Qed.

Lemma keeps_virt_to_phys C v : (forall s, kst_ok s -> exists r, uthread_virt_to_phys v (ut s) = Done r (ut s)) ->
  keeps C (on_ut (uthread_virt_to_phys v)).
Proof.
  intros Hv s Hs. unfold on_ut. destruct (Hv s Hs) as [r ->]. by replace (set_ut (ut s) s) with s by (by destruct s).
Qed.

Lemma copy_to_user_total a bs (x : mem) : exists r x', Usercopy.copy_to_user a bs x = Done r x'.
Proof. by do 2 eexists. Qed.

Create HintDb keeps.
Hint Resolve call_keeps_ret call_keeps_get call_keeps_gets keeps_valid_address : keeps.

(** ** Each call *)

Lemma sys_std_write_keeps lvl fd p n : keeps any (sys_std_write lvl fd p n).
Proof.
  unfold sys_std_write. apply call_keeps_bind; [auto with keeps|]. intros b. apply keeps_if; [auto with keeps|].
  apply call_keeps_bind; [|auto with keeps]. unfold dwrite. apply keeps_if; [|auto with keeps].
  apply call_keeps_bind; [auto with keeps|]. intros s. apply call_keeps_bind; [by apply call_keeps_deref|]. intros bs.
  apply call_keeps_modify. intros s' []. by split.
Qed.

Lemma sys_brk_keeps brk : keeps never (sys_brk brk).
Proof.
  intros s Hs. pose proof (k_brk _ Hs) as Hb. unfold sys_brk, bind, get. cbn beta iota zeta.
  destruct (_ && _) eqn:E; [|exact Hs]. zbool. destruct Hs. split; cbn; try done.
Qed.

Lemma sys_nanosleep_keeps c f l h : keeps never (sys_nanosleep c f l h).
Proof. intros s []. by split. Qed.

Lemma sys_gettime_keeps now c f t : keeps never (sys_gettime now c f t).
Proof. apply keeps_on_m. intros x. apply copy_to_user_total. Qed.

Lemma sys_finish_dma_keeps a n fl : keeps never (sys_finish_dma a n fl).
Proof.
  apply call_keeps_bind; [auto with keeps|]. intros b. apply keeps_if; [auto with keeps|].
  apply call_keeps_bind; [|auto with keeps]. apply keeps_if; [|auto with keeps]. apply call_keeps_modify. intros s' []. by split.
Qed.

Lemma sys_munmap_keeps a n : keeps (fun w => w = BadAccess) (sys_munmap arm64_mmu_unmap address_to_page a n).
Proof.
  intros s [Hsp Hb He]. unfold sys_munmap, on_ut.
  pose proof (unmap_keeps_ok arm64_mmu_unmap (ut s) address_to_page a n Hsp) as Hk.
  destruct (uthread_unmap_locked _ _ _ _ _); [by split|done].
Qed.

(** ** Mappings *)

Lemma add_freed_ok l : forall u : uthread PT, space_ok u -> space_ok (foldl (fun u p => add_freed p u) u l).
Proof. induction l as [|p l IH]; intros u Hu; [done|]. cbn. apply IH. by destruct Hu as [[] ? ? ? ?]; split; [split|..]. Qed.

Lemma pmm_alloc_keeps heap pages n flags s : kst_ok s ->
  runs (on_ut (uthread_pmm_alloc_and_map arm64_mmu_map arm64_mmu_unmap pt_empty heap pages n flags 1)) s (fun _ s' => kst_ok s').
Proof.
  clear address_to_page dram.
  intros [Hsp Hb He]. unfold runs, on_ut, uthread_pmm_alloc_and_map.
  destruct (ROUNDUP_page 64 (n + (PAGE_SIZE - 1))) as [Hm Hr]; [lia|]. fold (u64 (n + (PAGE_SIZE - 1))) (u64 (Z.lnot (PAGE_SIZE - 1))) in Hm, Hr.
  fold (ROUNDUP n PAGE_SIZE) in Hm, Hr. set (sz := u32 (ROUNDUP n PAGE_SIZE)).
  assert (sz mod PAGE_SIZE = 0 /\ 0 <= sz < 2 ^ 32) as [Hsm Hsr].
  { unfold sz, u32, uwrap, PAGE_SIZE in Hm, Hr |- *. dlia. }
  destruct (negb _) eqn:Ec; [split; cbn; try done; by apply add_freed_ok|]. apply negb_false_iff, Z.eqb_eq in Ec.
  rewrite Z.shiftr_div_pow2 in Ec by lia. change (2 ^ 12) with PAGE_SIZE in Ec.
  destruct (negb heap.1.1); [split; cbn; try done; by apply add_freed_ok|].
  set (fl := if has_flag flags MMAP_FLAG_DEVICE_MEM then _ else _).
  assert (has_flag fl UTM_FIXED = false /\ is_Some (map_pte_attr fl) /\ has_flag fl UTM_NS_MEM = false) as (Hf1 & Hf2 & Hf3).
  { unfold fl. destruct (has_flag _ _); (split; [done|]; split; [by eexists|done]). }
  destruct (map_keeps_ok arm64_mmu_map arm64_mmu_unmap pt_empty (ut s) (heap.1.2, heap.2) 0 pages sz fl 1 Hsp) as (err & v & u' & Hrun & Hok & _);
    [lia|done|done|done|lia| |rewrite Hf3; by left|].
  { intros Hp. apply Nat2Z.inj_lt. rewrite Ec. unfold PAGE_SIZE in Hsm |- *. dlia. }
  unfold bind. rewrite Hrun. cbn. destruct (negb (err =? NO_ERROR)); split; cbn; try done. by apply add_freed_ok.
Qed.

Lemma setup_mmio_keeps heap id n : forall s, kst_ok s ->
  match on_load (trusty_app_setup_mmio arm64_mmu_map arm64_mmu_unmap pt_empty heap (app s) id 0 n) s with
  | Done r s' => kst_ok s' /\ (r.1 = NO_ERROR -> exists i mp, map_list (ut s') !! i = Some mp /\ mp_vaddr mp = r.2 /\
      mp_size mp = ROUNDUP32 n /\ r.2 <> 0 /\ has_flag (mp_flags mp) UTM_W = true /\ exists pa, mp_pfn_list mp = [pa])
  | Crash w => w = BadAccess
  end.
Proof.
  intros s [Hsp Hb He]. unfold on_load, trusty_app_setup_mmio, bind, on_km. cbn [fst snd].
  match goal with |- context [mmio_loop ?f ?i ?c ?b ?d ?z ?x] => pose proof (mmio_loop_faults f i c b d z x) as Hl;
    destruct (mmio_loop f i c b d z x) as [r x'|w] end; [|done].
  destruct r as [e|[off sz]]; cbn; [by split; [split|]|]. subst sz. set (sz := ROUNDUP32 n). destruct (ROUNDUP32_page n) as [Hm Hr]. fold sz in Hm, Hr.
  unfold map_contig, TrustyApp.on_ut, uthread_map_contig. cbn [fst snd].
  set (fl := Z.lor _ UTM_PHYS_CONTIG).
  destruct (map_keeps_ok arm64_mmu_map arm64_mmu_unmap pt_empty (ut s) heap 0 [off] sz fl UT_MAP_ALIGN_4KB)
    as (err & v & u' & -> & Hok & Hmp); [exact Hsp|lia|done|done|by eexists|done|by intros _; cbn; lia|by right|].
  cbn. split; [by split|]. intros Herr. destruct (Hmp Herr) as (i & mp & Hi & Hv & Hsz & Hfl & Hv0 & Hp).
  exists i, mp. rewrite Hfl. split_and!; try done. by exists off.
Qed.

Lemma sys_mmap_keeps alloc heap pages a n fl h :
  keeps (fun w => w = BadAccess) (sys_mmap arm64_mmu_map arm64_mmu_unmap pt_empty alloc heap pages a n fl h).
Proof.
  intros s Hs. unfold sys_mmap. destruct (has_flag fl MMAP_FLAG_DEVICE_MEM).
  - pose proof (pmm_alloc_keeps (alloc, heap.1, heap.2) pages n fl s Hs) as Hk. unfold runs in Hk. unfold bind.
    destruct (on_ut _ s) as [r s'|]; [|done]. by destruct (negb _).
  - destruct (_ || _); [done|]. unfold bind, get. pose proof (setup_mmio_keeps heap h n s Hs) as Hk.
    destruct (on_load _ s) as [r s'|]; [|done]. destruct Hk as [Hk _]. by destruct (negb _).
Qed.

(** ** Memory for DMA: every call comes back *)

Lemma dma_piece_total a sz mapped junk pmem s : kst_ok s -> 0 <= mapped < sz -> sz < 2 ^ 32 ->
  runs (dma_piece a sz mapped junk pmem) s (fun r s' => kst_ok s' /\ (r.1 = NO_ERROR -> 0 < size r.2 <= sz - mapped)).
Proof.
  clear arm64_mmu_map arm64_mmu_unmap pt_empty address_to_page dram.
  intros Hs Hm Hsz. unfold dma_piece. apply runs_bind. unfold runs at 1, on_ut.
  destruct (virt_to_phys_total (ut s) (a + mapped) (k_space _ Hs)) as ([e [pa|]] & -> & He).
  - apply runs_bind. apply runs_done. do 2 eexists. split; [reflexivity|]. apply runs_ret. destruct Hs. split; [by split|].
    intros _. cbn [snd size]. rewrite page_land. unfold u32, uwrap. rewrite Z.mod_small by lia. unfold PAGE_SIZE. dlia.
  - apply runs_ret. destruct Hs. split; [by split|]. intros H. by destruct (He eq_refl).
Qed.

Lemma dma_loop_total a sz fl junk fuel : forall mapped entries pmem s, kst_ok s -> 0 <= mapped < sz -> sz < 2 ^ 32 ->
  sz - mapped <= Z.of_nat fuel ->
  runs (dma_loop fuel a sz fl mapped entries junk pmem) s (fun r s' => kst_ok s' /\ is_Some r).
Proof.
  induction fuel as [|fuel IH]; intros mapped entries pmem s Hs Hm Hsz Hf; [lia|]. cbn [dma_loop].
  apply runs_bind. eapply runs_mono; [by apply dma_piece_total|]. intros r s' [Hs' Hr].
  destruct (r.1 =? NO_ERROR) eqn:Er; cbn [negb]; [|apply runs_ret; by eauto]. zbool. specialize (Hr Er).
  assert (u32 (mapped + size r.2) = mapped + size r.2) as -> by (apply uwrap_small; lia).
  destruct (_ && _) eqn:Eb; [|apply runs_ret; by eauto]. zbool. apply IH; try done; lia.
Qed.

Lemma sys_prepare_dma_total junk a sz fl pmem s : kst_ok s -> 0 <= sz < 2 ^ 32 ->
  runs (sys_prepare_dma junk a sz fl pmem) s (fun r s' => kst_ok s' /\ is_Some r).
Proof.
  intros Hs Hsz. unfold sys_prepare_dma. apply runs_bind. destruct (sz =? 0) eqn:Ez.
  { apply runs_ret. apply runs_ret. by eauto. }
  zbool. pose proof (keeps_valid_address never a sz s Hs) as Hv. unfold runs at 1.
  destruct (valid_address a sz s) as [b s1|]; [|done]. destruct b; cbn [negb]; [|apply runs_ret; by eauto].
  unfold tbind. apply runs_bind. eapply runs_mono; [apply dma_loop_total; [done|lia..]|].
  intros r s2 [Hs2 [x ->]]. destruct x as [e|[n c]]; [apply runs_ret; by eauto|]. apply runs_bind.
  destruct (has_flag fl _); (apply runs_done; do 2 eexists; split; [reflexivity|]);
    (assert (forall op, kst_ok (add_cache op s2)) as Hc by (intros op; destruct Hs2; by split));
    destruct (_ && _); apply runs_ret; by eauto.
Qed.

(** ** The keys *)

Lemma get_eks_run s : kst_ok s -> exists r s', on_boot (Boot.get_and_clear_eks_info true) s = Done r s' /\ kst_ok s' /\
  eks_ok (default Boot.eks_none r.2).
Proof.
  intros [Hsp Hb He]. unfold on_boot, Boot.get_and_clear_eks_info, Boot.on_plat, NsDram.platform_is_bootstrapping, gets, bind, modify, ret.
  destruct (NsDram.bootstrap_done _); cbn; do 2 eexists; (split; [reflexivity|]); (split; [|try done; apply eks_none_ok]).
  - by split.
  - split; cbn; try done.
Qed.

Lemma ioctl_map_eks_keeps heap p : keeps never (ioctl_map_eks_to_user arm64_mmu_map arm64_mmu_unmap pt_empty dram heap p).
Proof.
  unfold ioctl_map_eks_to_user. do 4 (apply call_keeps_bind; [auto with keeps|intros []; cbn [negb]; [|auto with keeps]]).
  intros s Hs. unfold bind at 1. destruct (get_eks_run s Hs) as (r & s1 & -> & Hs1 & He).
  set (e := default Boot.eks_none r.2) in *. destruct (negb _); [done|]. destruct (Boot.paddr e =? 0); [done|].
  destruct (eks_range e He) as [Hm Hr]. cbn zeta in Hm, Hr. set (sz := ROUNDUP _ _) in *.
  set (pa := ROUNDDOWN _ _). unfold bind at 1, on_ut, uthread_map_contig. set (fl := Z.lor _ UTM_PHYS_CONTIG).
  destruct (map_keeps_ok arm64_mmu_map arm64_mmu_unmap pt_empty (ut s1) heap 0 [pa] sz fl UT_MAP_ALIGN_4KB)
    as (err & v & u' & -> & Hok & _); [apply Hs1|unfold MIN_STACK_TOP in Hr; lia|done|done|by eexists|done|by intros _; cbn; lia|split; [done|apply Hr]|].
  cbn beta iota. assert (kst_ok (set_ut u' s1)) as Hs2 by (destruct Hs1; by split).
  destruct (negb _); [done|]. revert Hs2. generalize (set_ut u' s1). cbn [snd].
  match goal with |- context [bind ?q ?f _] => change (keeps never (bind q f)) end.
  do 4 (apply call_keeps_bind; [apply keeps_on_m; intros x; apply copy_to_user_total|intros _]). apply call_keeps_ret.
Qed.

Lemma sys_std_platform_ioctl_keeps partner heap fd cmd p : (forall fd cmd p, keeps any (partner fd cmd p)) ->
  keeps any (sys_std_platform_ioctl arm64_mmu_map arm64_mmu_unmap pt_empty dram partner heap fd cmd p).
Proof.
  intros Hpart. unfold sys_std_platform_ioctl. apply call_keeps_bind; [by apply call_keeps_assert|]. intros _. apply keeps_if; [|apply Hpart].
  apply call_keeps_bind; [auto with keeps|]. intros b. apply keeps_if; [auto with keeps|].
  apply call_keeps_bind. { intros s []. unfold on_boot, Boot.on_plat, NsDram.platform_is_bootstrapping, gets. by split. }
  intros b'. apply keeps_if; [auto with keeps|]. apply call_keeps_bind; [apply keeps_on_m; by do 2 eexists|].
  intros r. eapply keeps_weaken; [|apply ioctl_map_eks_keeps]. done.
Qed.

(** ** The table of descriptors *)

Definition ops_ok (o : @sys_fd_ops PT) : Prop :=
  (forall f, read o = Some f -> forall a b c, keeps any (f a b c)) /\
  (forall f, write o = Some f -> forall a b c, keeps any (f a b c)) /\
  (forall f, ioctl o = Some f -> forall a b c, keeps any (f a b c)).

Definition fds_ok (l : list (option (@sys_fd_ops PT))) : Prop :=
  length l = MAX_SYS_FD_HADLERS /\ forall i o, l !! i = Some (Some o) -> ops_ok o.

Record sst_ok (s : @sst PT) : Prop := { ss_fds : fds_ok (sys_fds s); ss_k : kst_ok (k s) }.

Lemma sys_std_fd_op_ok lvl partner heap : (forall fd cmd p, keeps any (partner fd cmd p)) ->
  ops_ok (sys_std_fd_op arm64_mmu_map arm64_mmu_unmap pt_empty dram lvl partner heap).
Proof.
  intros Hp. split_and!; intros f [= <-] a b c; [apply sys_std_write_keeps|by apply sys_std_platform_ioctl_keeps].
Qed.

Lemma sys_fds_init_ok o : ops_ok o -> fds_ok (sys_fds_init o).
Proof.
  intros Ho. split; [done|]. intros i o'. unfold sys_fds_init.
  do 4 (destruct i as [|i]; [cbn; intros [= <-]; done|]). cbn. do 6 (destruct i as [|i]; [done|]). done.
Qed.

Lemma get_handler_ok fd (s : @sst PT) : fds_ok (sys_fds s) -> exists r, get_sys_fd_handler fd s = Done r s /\ forall o, r = Some o -> ops_ok o.
Proof.
  intros [_ Hf]. unfold get_sys_fd_handler, gets. eexists. split; [reflexivity|]. intros o. destruct (_ <=? _); [done|].
  destruct (sys_fds s !! Z.to_nat fd) as [[o'|]|] eqn:E; cbn; [|done..]. intros [= <-]. by eapply Hf.
Qed.

Lemma on_k_keeps {A} C (p : M kst A) (s : @sst PT) : sst_ok s -> keeps C p ->
  match on_k p s with Done _ s' => sst_ok s' /\ sys_fds s' = sys_fds s | Crash w => C w end.
Proof. intros [Hf Hk] Hp. unfold on_k. specialize (Hp (k s) Hk). destruct (p (k s)); [|done]. split; [by split|done]. Qed.

(** One of the operations behind a descriptor. *)
Lemma fd_call_keeps fd a b c (sel : @sys_fd_ops PT -> option (Z -> Z -> Z -> M kst Z)) (s : @sst PT) : sst_ok s ->
  (forall o f, ops_ok o -> sel o = Some f -> forall a b c, keeps any (f a b c)) ->
  match (ops <- get_sys_fd_handler fd ;;
         match o ← ops; sel o with Some f => on_k (f a b c) | None => ret ERR_NOT_SUPPORTED end) s with
  | Done _ s' => sst_ok s' /\ sys_fds s' = sys_fds s
  | Crash _ => True
  end.
Proof.
  intros Hs Hsel. unfold bind at 1. destruct (get_handler_ok fd s (ss_fds _ Hs)) as (r & -> & Hr).
  destruct r as [o|]; cbn; [|done]. destruct (sel o) as [f|] eqn:Ef; [|done].
  pose proof (on_k_keeps any (f a b c) s Hs (Hsel o f (Hr o eq_refl) Ef a b c)) as Hk. by destruct (on_k _ s).
Qed.

(** A new handler only takes a free place. *)
Lemma install_keeps fd o (s : @sst PT) : sst_ok s -> ops_ok o ->
  runs (install_sys_fd_handler fd o) s (fun r (s' : @sst PT) => sst_ok s' /\ k s' = k s /\
    forall i o', sys_fds s !! i = Some (Some o') -> sys_fds s' !! i = Some (Some o')).
Proof.
  intros [[Hlen Hf] Hk] Ho. unfold install_sys_fd_handler. apply runs_bind. unfold runs at 1, get.
  destruct (sys_fds s !! Z.to_nat fd) as [[o'|]|] eqn:E; [|
    |apply runs_ret; split; [by split; [split|]|done]].
  { apply runs_ret. split; [by split; [split|]|done]. }
  apply runs_done. do 2 eexists. split; [reflexivity|]. cbn [sys_fds k]. split_and!; [split; [|done]; split| |].
  - cbn [sys_fds]. by rewrite length_insert.
  - cbn [sys_fds]. intros i o'. destruct (decide (i = Z.to_nat fd)) as [->|Hne].
    + apply lookup_lt_Some in E. rewrite list_lookup_insert_eq by done. by intros [= <-].
    + rewrite list_lookup_insert_ne by done. apply Hf.
  - done.
  - intros i o' Hi. rewrite list_lookup_insert_ne; [done|]. intros <-. congruence.
Qed.

(** ** The calls together *)

Definition call_ok (c : sys_call) : Prop :=
  match c with SysPrepareDma _ _ n _ _ => 0 <= n < 2 ^ 32 | _ => True end.

(** Where a call may stop the machine: in a handler behind a descriptor, at
    the configuration of the application, at the page list of a mapping. *)
Definition may_crash (c : sys_call) (w : crash) : Prop :=
  match c with
  | SysWrite _ _ _ | SysRead _ _ _ | SysIoctl _ _ _ => True
  | SysMmap _ _ _ _ _ _ _ | SysMunmap _ _ => w = BadAccess
  | _ => False
  end.

Lemma tlift_keeps {A} C (p : M kst A) (s : @sst PT) : sst_ok s -> keeps C p ->
  match on_k (tlift p) s with Done r s' => sst_ok s' /\ sys_fds s' = sys_fds s /\ is_Some r | Crash w => C w end.
Proof.
  intros [Hf Hk] Hp. unfold on_k, tlift, bind. specialize (Hp (k s) Hk). destruct (p (k s)); [|done]. by split_and!; [split| |eexists].
Qed.

Lemma tlift_fd {A} (p : M (@sst PT) A) (s : @sst PT) : match p s with Done _ s' => sst_ok s' /\ sys_fds s' = sys_fds s | Crash _ => True end ->
  match tlift p s with Done r s' => sst_ok s' /\ sys_fds s' = sys_fds s /\ is_Some r | Crash _ => True end.
Proof. unfold tlift, bind. destruct (p s); [|done]. intros []. by split_and!; [| |eexists]. Qed.

Lemma sys_exit_group_keeps : keeps never (sys_exit_group (PT:=PT)).
Proof.
  intros s [[Hu Hp Hst Ht Hns] Hb He]. cbn. split; cbn; try done. split; cbn; try done.
  destruct Hu. split; cbn; try done. split; constructor.
Qed.
End Calls.

Section Together.
Context {PT : Type}.
Context (arm64_mmu_map : Z -> Z -> Z -> Z -> PT -> Z * PT) (arm64_mmu_unmap : Z -> Z -> PT -> Z * PT) (pt_empty : PT).
Context (address_to_page : Z -> bool).

(** C30: Whatever the application asks, a system call that finishes leaves a well-formed
    state: disjoint whole-page mappings with all their frames, the secure ones
    below the non-secure ones and everything above the stack, the program break between its
    bounds, keys of a size that can be mapped, ten descriptors whose handlers
    keep all this, and the same table.  Every call but [exit_group] comes
    back.  Only handlers, [mmap] and [munmap] can stop the machine. *)
Theorem syscalls_keep_type c (s : @sst PT) : sst_ok s -> call_ok c ->
  match do_syscall arm64_mmu_map arm64_mmu_unmap pt_empty address_to_page c s with
  | Done r s' => sst_ok s' /\ sys_fds s' = sys_fds s /\ (r = None <-> c = SysExitGroup)
  | Crash w => may_crash c w
  end.
Proof.
  intros Hs Hc.
  assert (match do_syscall arm64_mmu_map arm64_mmu_unmap pt_empty address_to_page c s with
          | Done r s' => sst_ok s' /\ sys_fds s' = sys_fds s /\ (if decide (c = SysExitGroup) then r = None else is_Some r)
          | Crash w => may_crash c w end) as H.
  { destruct c; cbn [do_syscall may_crash call_ok] in *; rewrite ?decide_False, ?decide_True by done.
    - apply tlift_fd, fd_call_keeps; [done|]. intros o f Ho. apply Ho.
    - apply (tlift_keeps never); [done|apply sys_brk_keeps].
    - pose proof (on_k_keeps never sys_exit_group s Hs sys_exit_group_keeps) as Hk. destruct s. exact (conj (proj1 Hk) (conj (proj2 Hk) eq_refl)).
    - apply tlift_fd, fd_call_keeps; [done|]. intros o f Ho. apply Ho.
    - apply tlift_fd, fd_call_keeps; [done|]. intros o f Ho. apply Ho.
    - apply (tlift_keeps never); [done|apply sys_nanosleep_keeps].
    - apply (tlift_keeps never); [done|apply sys_gettime_keeps].
    - apply (tlift_keeps (fun w => w = BadAccess)); [done|by apply sys_mmap_keeps].
    - apply (tlift_keeps (fun w => w = BadAccess)); [done|by apply sys_munmap_keeps].
    - destruct Hs as [Hf Hk]. pose proof (sys_prepare_dma_total junk uaddr size0 flags pmem (k s) Hk Hc) as Hr.
      unfold runs in Hr. unfold on_k. destruct (sys_prepare_dma _ _ _ _ _ _); [|done]. destruct Hr as [Hk' Hr]. by split_and!; [split| |].
    - apply (tlift_keeps never); [done|apply sys_finish_dma_keeps]. }
  destruct (do_syscall _ _ _ _ _ _) as [r s'|]; [|done]. destruct H as (H1 & H2 & H3). split_and!; try done.
  destruct (decide (c = SysExitGroup)) as [->|Hne]; [done|]. destruct H3 as [x ->]. by split.
Qed.

(** An application that maps a device of more than a page and unmaps it again stops
    the machine: the mapping is contiguous, with one frame in its list, and
    writable, which [uthread_unmap] takes for the flag of anonymous
    memory, so that it walks over the list. *)
Lemma mmap_munmap_device_faults alloc heap pages size handle (s : @kst PT) v s1 :
  kst_ok s -> PAGE_SIZE < size <= MAX_USR_VA -> (forall v n pt, (arm64_mmu_unmap v n pt).1 = NO_ERROR) ->
  on_load (trusty_app_setup_mmio arm64_mmu_map arm64_mmu_unmap pt_empty heap (app s) handle 0 size) s = Done (NO_ERROR, v) s1 ->
  sys_mmap arm64_mmu_map arm64_mmu_unmap pt_empty alloc heap pages 0 size MMAP_FLAG_IO_HANDLE handle s = Done v s1 /\
  sys_munmap arm64_mmu_unmap address_to_page v size s1 = Crash BadAccess.
Proof.
  intros Hs Hsz Hun Hrun. pose proof (setup_mmio_keeps arm64_mmu_map arm64_mmu_unmap pt_empty heap handle size s Hs) as Hk.
  rewrite Hrun in Hk. destruct Hk as [Hs1 Hmp]. destruct (Hmp eq_refl) as (i & mp & Hi & Hv & Hsize & Hv0 & Hw & pa & Hpa).
  cbn [snd] in *. split.
  { unfold sys_mmap, bind, get. change (has_flag MMAP_FLAG_IO_HANDLE MMAP_FLAG_DEVICE_MEM) with false.
    rewrite !Z.eqb_refl. cbn [negb orb]. by rewrite Hrun. }
  pose proof (s_wf _ (k_space _ Hs1)) as Hu. pose proof (maps_wf_ok _ _ _ (uwf_maps _ Hu) Hi) as (Hm1 & Hm2 & Hm3).
  assert (size <= mp_size mp /\ 2 * PAGE_SIZE <= mp_size mp) as [Hge H2].
  { rewrite Hsize. unfold ROUNDUP32, u32. change MAX_USR_VA with (2 ^ 25) in Hsz. rewrite uwrap_small by (unfold PAGE_SIZE in *; lia).
    change PAGE_SIZE with (2 ^ 12) in *. rewrite land_clear_low by lia. dlia. }
  destruct (s_table _ (k_space _ Hs1)) as [pt Hpt].
  unfold sys_munmap, on_ut. rewrite (uthread_unmap_contig_faults arm64_mmu_unmap address_to_page v size (ut s1) i mp pt pa); try done.
  apply uthread_map_find_spec; [apply Hu|lia|change MAX_USR_VA with (2 ^ 25) in Hsz; unfold PAGE_SIZE in Hsz; lia|]. unfold PAGE_SIZE in *. split; [done|]. lia.
Qed.
End Together.

(** ** An application with a device of two pages in its configuration *)

Definition demo_mmu_map (v p n a : Z) (pt : unit) : Z * unit := (NO_ERROR, tt).
Definition demo_mmu_unmap (v n : Z) (pt : unit) : Z * unit := (NO_ERROR, tt).
Definition demo_blob : kmem :=
  list_to_map (zip (seqZ 0x5000 16) (mjoin (le_bytes 4 <$> [TRUSTY_APP_CONFIG_KEY_MAP_MEM; 7; 0xc280000; 0x2000]))).
Definition demo_app : trusty_app (uthread unit) :=
  TApp 0x10000 0x9000 0x9000 0xa000 (Props (replicate 16 0) 0 0 0 1 4 0x5000) 0 None None.
Definition demo_caller : kst := Kst demo_space demo_app (Mem demo_blob demo_user) demo_boot [] [] [] false.
Definition demo_partner (fd cmd p : Z) : M (@kst unit) Z := sys_std_platform_ioctl_partner fd cmd p.
Definition demo_op : @sys_fd_ops unit :=
  sys_std_fd_op demo_mmu_map demo_mmu_unmap tt (fun _ => 0) 1 demo_partner (true, true).
Definition demo_sst : sst := Sst (sys_fds_init demo_op) demo_caller.

Lemma demo_caller_ok : kst_ok demo_caller.
Proof.
  split; [|by vm_compute|by vm_compute]. split; [apply demo_space_uwf| |by vm_compute|by eexists|].
  - constructor; [|done]. split_and!; [done|done|]. vm_compute. repeat constructor.
  - constructor; [|done]. by vm_compute.
Qed.

Lemma demo_sst_ok : sst_ok demo_sst.
Proof.
  split; [|apply demo_caller_ok]. apply sys_fds_init_ok. apply sys_std_fd_op_ok. intros fd cmd p s Hs. exact Hs.
Qed.

(** The break moves inside its bounds and nowhere else. *)
Example demo_brk : (match sys_brk 0x9800 demo_caller with Done r s => Some (r, sys_brk 0x20000 s) | _ => None end) =
  Some (0x9800, Done 0x9800 (set_app (set_brk 0x9000 0x9800 0xa000 demo_app) demo_caller)).
Proof. reflexivity. Qed.

(** An ioctl on standard output stops a kernel that checks its assertions. *)
Example demo_ioctl_stdout : do_syscall demo_mmu_map demo_mmu_unmap tt (fun _ => true) (SysIoctl 1 0 0) demo_sst = Crash Panic.
Proof. reflexivity. Qed.

(** A sleep of 2^32 milliseconds is none. *)
Example demo_nanosleep : (match sys_nanosleep 0 0 (u32 (4294967296 * 1000000)) (4294967296 * 1000000 / 2 ^ 32) demo_caller with
                          | Done _ s => slept s | _ => [] end) = [0].
Proof. reflexivity. Qed.

(** The keys come once: with their address, their size and where they are mapped. *)
Example demo_eks :
  match ioctl_map_eks_to_user demo_mmu_map demo_mmu_unmap tt (fun _ => 0) (true, true) (EksParams 0x9f00 0x9f04 0x9f08 0x9f0c) demo_caller with
  | Done r s => r = NO_ERROR /\ user_bytes 0x9f00 16 (user (m s)) =
        Some (mjoin (le_bytes 4 <$> [0x1fff094; 0; 0x1fff000; 0x1000])) /\
      match ioctl_map_eks_to_user demo_mmu_map demo_mmu_unmap tt (fun _ => 0) (true, true) (EksParams 0x9f00 0x9f04 0x9f08 0x9f0c) s with
      | Done r _ => r = ERR_NOT_ALLOWED | Crash _ => False end
  | Crash _ => False
  end.
Proof. vm_compute. done. Qed.

Lemma syscalls_keep_type_witness :
  match do_syscall demo_mmu_map demo_mmu_unmap tt (fun _ => true) (SysPrepareDma 7 0x8ff0 0x20 DMA_FLAG_MULTI_PMEM 0x9f00) demo_sst with
  | Done r s' => sst_ok s' /\ sys_fds s' = sys_fds demo_sst /\
      (r = None <-> SysPrepareDma 7 0x8ff0 0x20 DMA_FLAG_MULTI_PMEM 0x9f00 = SysExitGroup)
  | Crash w => may_crash (SysPrepareDma 7 0x8ff0 0x20 DMA_FLAG_MULTI_PMEM 0x9f00) w
  end.
Proof.
  apply (syscalls_keep_type demo_mmu_map demo_mmu_unmap tt (fun _ => true) (SysPrepareDma 7 0x8ff0 0x20 DMA_FLAG_MULTI_PMEM 0x9f00) demo_sst);
    [apply demo_sst_ok|cbn; lia].
Defined.

Definition demo_mapped : kst :=
  match on_load (trusty_app_setup_mmio demo_mmu_map demo_mmu_unmap tt (true, true) demo_app 7 0 0x2000) demo_caller with
  | Done _ s => s | Crash _ => demo_caller end.

Lemma mmap_munmap_device_faults_witness :
  sys_mmap demo_mmu_map demo_mmu_unmap tt true (true, true) [] 0 0x2000 MMAP_FLAG_IO_HANDLE 7 demo_caller = Done 0x1000000 demo_mapped /\
  sys_munmap demo_mmu_unmap (fun _ => true) 0x1000000 0x2000 demo_mapped = Crash BadAccess.
Proof.
  apply (mmap_munmap_device_faults demo_mmu_map demo_mmu_unmap tt (fun _ => true) true (true, true) [] 0x2000 7 demo_caller);
    [apply demo_caller_ok|vm_compute; split; congruence|done|vm_compute; reflexivity].
Defined.
End SyscallSpec.
