(* ===== verification/Spd.v ===== *)
(** * The switch between the worlds

    [services/spd/trusty/trusty.c] of the firmware, with
    [trusty_helpers.S], [context_mgmt.c] and the entry and exit of
    [runtime_exceptions.S] and [context.S] that it relies on.  Every processor
    runs the normal or the secure world; an SMC or an interrupt enters EL3,
    which may change the world.  The change is a switch between two stacks: the C
    code that asked for it is suspended and the code that was suspended before goes on. *)

From S2P Require Import Prelude.

Module Spd.

Inductive world := SECURE | NON_SECURE.
#[export] Instance world_eq_dec : EqDecision world.
Proof. solve_decision. Defined.
Definition security_state (w : world) : Z := match w with SECURE => 0 | NON_SECURE => 1 end.
Definition no_state : Z := u32 (Z.lnot 0).

(** ** Numbers of the calls ([smcall.h]) *)

Definition SMC_NR (entity fn fastcall smc64 : Z) : Z :=
  Z.lor (Z.lor (Z.shiftl (Z.land fastcall 1) 31) (Z.shiftl (Z.land smc64 1) 30))
        (Z.lor (Z.shiftl (Z.land entity 0x3F) 24) (Z.land fn 0xFFFF)).
Definition SMC_ENTITY_TRUSTED_OS : Z := 50.
Definition SMC_ENTITY_SECURE_MONITOR : Z := 60.
Definition SMC_YC_NS_RETURN : Z := SMC_NR SMC_ENTITY_SECURE_MONITOR 0 0 0.
Definition SMC_FC_FIQ_EXIT : Z := SMC_NR SMC_ENTITY_SECURE_MONITOR 1 1 0.
Definition SMC_FC_FIQ_ENTER : Z := SMC_NR SMC_ENTITY_SECURE_MONITOR 4 1 0.
Definition SMC_FC64_SET_FIQ_HANDLER : Z := SMC_NR SMC_ENTITY_SECURE_MONITOR 5 1 1.
Definition SMC_FC64_GET_FIQ_REGS : Z := SMC_NR SMC_ENTITY_SECURE_MONITOR 6 1 1.
Definition SMC_FC_CPU_SUSPEND : Z := SMC_NR SMC_ENTITY_SECURE_MONITOR 7 1 0.
Definition SMC_FC_CPU_RESUME : Z := SMC_NR SMC_ENTITY_SECURE_MONITOR 8 1 0.
Definition SMC_YC_SET_ROT_PARAMS : Z := SMC_NR SMC_ENTITY_TRUSTED_OS 65535 0 0.
Definition SM_ERR_INVALID_PARAMETERS : Z := u64 (-2).
Definition SMC_UNK : Z := u64 (-1).
Definition HYP_ENABLE_FLAG : Z := 0x286001.
Definition PLATFORM_CORE_COUNT : nat := 8.

(** ** Registers *)

(** [R]: the EL1 system registers apart from the stack pointer. *)
Section Spd.
Context {R : Type}.

Record el1 := El1 { sp_el1 : Z; el1_rest : R }.
(** x0 to x30 and SP_EL0. *)
Record gp_regs := Gp { x : list Z; sp_el0 : Z }.
Record cpu_context := Ctx { gpregs : gp_regs; elr : Z; spsr : Z; sysregs : el1 }.

Definition SMC_GET_GP (c : cpu_context) (i : nat) : Z := default 0 (x (gpregs c) !! i).
Definition SMC_SET_GP (i : nat) (v : Z) (c : cpu_context) : cpu_context :=
  Ctx (Gp (<[i := v]> (x (gpregs c))) (sp_el0 (gpregs c))) (elr c) (spsr c) (sysregs c).
Definition set_sysregs (e : el1) (c : cpu_context) : cpu_context := Ctx (gpregs c) (elr c) (spsr c) e.
Definition set_gpregs (g : gp_regs) (c : cpu_context) : cpu_context := Ctx g (elr c) (spsr c) (sysregs c).
Definition set_elr_spsr (pc psr : Z) (c : cpu_context) : cpu_context := Ctx (gpregs c) pc psr (sysregs c).
Definition set_sp_el1 (v : Z) (c : cpu_context) : cpu_context := set_sysregs (El1 v (el1_rest (sysregs c))) c.
(** [SMC_RET8], and with fewer values its shorter kin. *)
Fixpoint smc_ret (i : nat) (vs : list Z) (c : cpu_context) : cpu_context :=
  match vs with [] => c | v :: vs => smc_ret (S i) vs (SMC_SET_GP i v c) end.

(** ** Suspended code

    What a handler does after [trusty_context_switch] came back, and what waits
    on the other stack. *)
Inductive after := AfterSmc | AfterNsReturn | AfterFiq | AfterFiqExit | AfterPower.
Inductive suspended :=
| NewStack                              (* trusty_init_context_stack: on to el3_exit *)
| InInit                                (* in trusty_init *)
| InSwitch (w : world) (k : after).     (* in trusty_context_switch(w, ...) *)
#[export] Instance after_eq_dec : EqDecision after.
Proof. solve_decision. Defined.

(** Where EL3 code ends: in the next world, or back in the firmware that called a hook. *)
Inductive leave := El3Exit | ToFirmware.

(** [trusty_cpu_ctx] of a processor, with the contexts that [cm_get_context]
    answers, SP_EL3 and the registers that the running world left. *)
Record fiq_ctx := Fiq {
  fiq_handler_active : Z; fiq_handler_pc : Z; fiq_handler_cpsr : Z; fiq_handler_sp : Z;
  fiq_pc : Z; fiq_cpsr : Z; fiq_sp_el1 : Z; fiq_gpregs : gp_regs
}.
Record cpu_st := Cpu {
  ns : cpu_context;
  sec : option cpu_context;
  live : el1;
  hcr_el2 : Z;
  next_eret : world;
  saved_sp : option suspended;
  saved_security_state : Z;
  fiq : fiq_ctx
}.

Definition set_ns (v : cpu_context) (c : cpu_st) := Cpu v (sec c) (live c) (hcr_el2 c) (next_eret c) (saved_sp c) (saved_security_state c) (fiq c).
Definition set_sec (v : cpu_context) (c : cpu_st) := Cpu (ns c) (Some v) (live c) (hcr_el2 c) (next_eret c) (saved_sp c) (saved_security_state c) (fiq c).
Definition set_live (v : el1) (c : cpu_st) := Cpu (ns c) (sec c) v (hcr_el2 c) (next_eret c) (saved_sp c) (saved_security_state c) (fiq c).
Definition set_next (v : world) (c : cpu_st) := Cpu (ns c) (sec c) (live c) (hcr_el2 c) v (saved_sp c) (saved_security_state c) (fiq c).
Definition set_saved_sp (v : suspended) (c : cpu_st) := Cpu (ns c) (sec c) (live c) (hcr_el2 c) (next_eret c) (Some v) (saved_security_state c) (fiq c).
Definition set_saved_state (v : Z) (c : cpu_st) := Cpu (ns c) (sec c) (live c) (hcr_el2 c) (next_eret c) (saved_sp c) v (fiq c).
Definition set_fiq (v : fiq_ctx) (c : cpu_st) := Cpu (ns c) (sec c) (live c) (hcr_el2 c) (next_eret c) (saved_sp c) (saved_security_state c) v.

Definition P (A : Type) : Type := M cpu_st A.

(** ** Contexts ([context_mgmt.c]) *)

Definition cm_get_context (w : world) (c : cpu_st) : option cpu_context :=
  match w with SECURE => sec c | NON_SECURE => Some (ns c) end.
Definition set_context (w : world) (v : cpu_context) (c : cpu_st) : cpu_st :=
  match w with SECURE => set_sec v c | NON_SECURE => set_ns v c end.
Definition with_context {A} (w : world) (f : cpu_context -> P A) : P A :=
  c <- get ;; match cm_get_context w c with None => panic | Some v => f v end.
Definition upd_context (w : world) (f : cpu_context -> cpu_context) : P unit :=
  with_context w (fun v => modify (set_context w (f v))).

Definition cm_el1_sysregs_context_save (w : world) : P unit :=
  c <- get ;; upd_context w (set_sysregs (live c)).
Definition cm_el1_sysregs_context_restore (w : world) : P unit :=
  with_context w (fun v => modify (set_live (sysregs v))).
Definition cm_set_next_eret_context (w : world) : P unit :=
  with_context w (fun _ => modify (set_next w)).
Definition cm_set_elr_spsr_el3 (w : world) (entrypoint psr : Z) : P unit := upd_context w (set_elr_spsr entrypoint psr).

(** ** The switch *)

Definition upd_fiq (f : fiq_ctx -> fiq_ctx) : P unit := modify (fun c => set_fiq (f (fiq c)) c).

(** The rest of a handler with the registers that the other world sent. *)
Definition continue (k : after) (ret_args : list Z) : P leave :=
  let r0 := default 0 (ret_args !! 0%nat) in
  match k with
  | AfterSmc => upd_context NON_SECURE (SMC_SET_GP 0 r0) ;;; ret El3Exit
  | AfterNsReturn => upd_context SECURE (smc_ret 0 ret_args) ;;; ret El3Exit
  | AfterFiq =>
      if negb (r0 =? 0) then ret El3Exit
      else
        c <- get ;;
        let f := fiq c in
        if negb (fiq_handler_active f =? 0) then ret El3Exit
        else
          let h := ns c in
          put (set_fiq (Fiq 1 (fiq_handler_pc f) (fiq_handler_cpsr f) (fiq_handler_sp f) (elr h) (spsr h) (sp_el1 (sysregs h)) (gpregs h)) c) ;;;
          upd_context NON_SECURE (set_sp_el1 (fiq_handler_sp f)) ;;;
          cm_set_elr_spsr_el3 NON_SECURE (fiq_handler_pc f) (u32 (fiq_handler_cpsr f)) ;;;
          ret El3Exit
  | AfterFiqExit =>
      c <- get ;;
      let f := fiq c in
      upd_context NON_SECURE (set_gpregs (fiq_gpregs f)) ;;;
      upd_fiq (fun f => Fiq 0 (fiq_handler_pc f) (fiq_handler_cpsr f) (fiq_handler_sp f) (fiq_pc f) (fiq_cpsr f) (fiq_sp_el1 f) (fiq_gpregs f)) ;;;
      upd_context NON_SECURE (set_sp_el1 (fiq_sp_el1 f)) ;;;
      cm_set_elr_spsr_el3 NON_SECURE (fiq_pc f) (u32 (fiq_cpsr f)) ;;;
      ret El3Exit
  | AfterPower => ret ToFirmware
  end.

(** The code that was suspended goes on, with [args]. *)
Definition resume (s : suspended) (args : list Z) : P leave :=
  match s with
  | NewStack => ret El3Exit
  | InInit =>
      cm_el1_sysregs_context_restore NON_SECURE ;;;
      cm_set_next_eret_context NON_SECURE ;;;
      ret ToFirmware
  | InSwitch w k =>
      c <- get ;;
      assert_ (saved_security_state c =? (if security_state w =? 0 then 1 else 0)) ;;;
      cm_el1_sysregs_context_restore w ;;;
      cm_set_next_eret_context w ;;;
      continue k args
  end.

Definition trusty_context_switch_helper (self : suspended) (smc_params : list Z) : P leave :=
  c <- get ;;
  match saved_sp c with
  | None => bad_access
  | Some other => put (set_saved_sp self c) ;;; resume other smc_params
  end.

Definition is_hypervisor_mode (c : cpu_st) : bool := has_flag (hcr_el2 c) HYP_ENABLE_FLAG.

Definition trusty_context_switch (w : world) (r0 r1 r2 r3 : Z) (k : after) : P leave :=
  c <- get ;;
  assert_ (negb (saved_security_state c =? security_state w)) ;;;
  let r7 := if is_hypervisor_mode c then SMC_GET_GP (ns c) 7 else 0 in
  cm_el1_sysregs_context_save w ;;;
  modify (set_saved_state (security_state w)) ;;;
  trusty_context_switch_helper (InSwitch w k) [r0; r1; r2; r3; 0; 0; 0; r7].

(** ** The handlers *)

Definition trusty_fiq_handler (caller : world) : P leave :=
  assert_ (negb (bool_decide (caller = SECURE))) ;;;
  trusty_context_switch NON_SECURE SMC_FC_FIQ_ENTER 0 0 0 AfterFiq.

Definition trusty_get_fiq_regs : P leave :=
  c <- get ;;
  let f := fiq c in
  upd_context NON_SECURE (smc_ret 0 [fiq_pc f; fiq_cpsr f; sp_el0 (fiq_gpregs f); fiq_sp_el1 f]) ;;;
  ret El3Exit.

Definition trusty_fiq_exit : P leave :=
  c <- get ;;
  if fiq_handler_active (fiq c) =? 0 then
    upd_context NON_SECURE (SMC_SET_GP 0 SM_ERR_INVALID_PARAMETERS) ;;; ret El3Exit
  else trusty_context_switch NON_SECURE SMC_FC_FIQ_EXIT 0 0 0 AfterFiqExit.

(** The entry point of the image: its program counter, what
    [cm_init_my_context] makes of it, and whether it is a 32-bit one (the code
    reads that from the context before it is initialised). *)
Record ep_info_t := EpInfo { ep_pc : Z; ep_ctx : cpu_context }.

Definition trusty_init (ep_info : option ep_info_t) (cpu : nat) (rw_32 : bool) : P leave :=
  match ep_info with
  | None => panic
  | Some ep =>
      cm_el1_sysregs_context_save NON_SECURE ;;;
      modify (set_sec (ep_ctx ep)) ;;;
      (if negb (bool_decide (cpu = 0%nat)) && rw_32
       then upd_context SECURE (fun v => set_elr_spsr (u64 (ep_pc ep + 32)) (spsr v) v) else ret tt) ;;;
      cm_el1_sysregs_context_restore SECURE ;;;
      cm_set_next_eret_context SECURE ;;;
      modify (set_saved_state no_state) ;;;
      modify (set_saved_sp NewStack) ;;;
      trusty_context_switch_helper InInit [0; 0; 0; 0; 0; 0; 0; 0]
  end.

Definition trusty_cpu_suspend (max_off_lvl : Z) : P leave := trusty_context_switch NON_SECURE SMC_FC_CPU_SUSPEND max_off_lvl 0 0 AfterPower.
Definition trusty_cpu_resume (max_off_lvl : Z) : P leave := trusty_context_switch NON_SECURE SMC_FC_CPU_RESUME max_off_lvl 0 0 AfterPower.
Definition trusty_cpu_on_finish_handler (ep_info : option ep_info_t) (cpu : nat) (rw_32 : bool) (unused : Z) : P leave :=
  c <- get ;;
  match saved_sp c with None => trusty_init ep_info cpu rw_32 | Some _ => trusty_cpu_resume unused end.

(** ** All processors *)

Definition on_cpu {A} (me : nat) (p : P A) : M (list cpu_st) A := fun (l : list cpu_st) =>
  match l !! me with
  | None => Crash BadAccess
  | Some c => match p c with Done a c => Done a (<[me := c]> l) | Crash w => Crash w end
  end.

(** An error of [trusty_set_fiq_handler] is the value of the C function, which
    nobody looks at. *)
Definition trusty_set_fiq_handler (me : nat) (cpu handler stack : Z) : M (list cpu_st) leave :=
  if Z.of_nat PLATFORM_CORE_COUNT <=? cpu then ret El3Exit
  else
    psr <- on_cpu me (gets (fun c => spsr (ns c))) ;;
    on_cpu (Z.to_nat cpu) (upd_fiq (fun f => Fiq (fiq_handler_active f) handler psr stack (fiq_pc f) (fiq_cpsr f) (fiq_sp_el1 f) (fiq_gpregs f))) ;;;
    on_cpu me (upd_context NON_SECURE (SMC_SET_GP 0 0)) ;;;
    ret El3Exit.

(** [image]: whether there is a Trusted OS. *)
Definition trusty_smc_handler (image : bool) (me : nat) (caller : world) (smc_fid x1 x2 x3 : Z) : M (list cpu_st) leave :=
  let answer v := on_cpu me (upd_context caller (SMC_SET_GP 0 v)) ;;; ret El3Exit in
  if negb image && (smc_fid =? SMC_YC_SET_ROT_PARAMS) then answer 0
  else if negb image then answer SMC_UNK
  else
    match caller with
    | SECURE =>
        if smc_fid =? SMC_YC_NS_RETURN then on_cpu me (trusty_context_switch SECURE x1 0 0 0 AfterNsReturn)
        else answer SMC_UNK
    | NON_SECURE =>
        if smc_fid =? SMC_FC64_SET_FIQ_HANDLER then trusty_set_fiq_handler me x1 x2 x3
        else if smc_fid =? SMC_FC64_GET_FIQ_REGS then on_cpu me trusty_get_fiq_regs
        else if smc_fid =? SMC_FC_FIQ_EXIT then on_cpu me trusty_fiq_exit
        else on_cpu me (trusty_context_switch NON_SECURE smc_fid x1 x2 x3 AfterSmc)
    end.

(** ** What happens to a processor

    [enter]: the vectors store the registers of the interrupted world in its context. *)
Definition enter (w : world) (g : gp_regs) (pc psr : Z) (e : el1) : P unit :=
  modify (set_live e) ;;; upd_context w (fun v => Ctx g pc psr (sysregs v)).

(** PSCI calls a hook: the context of the normal world is as PSCI left it. *)
Definition psci (n : cpu_context) (e : el1) : P unit := modify (fun c => set_ns n (set_live e c)).

Inductive event :=
| Smc (w : world) (g : gp_regs) (pc psr : Z) (e : el1)
| FiqIn (g : gp_regs) (pc psr : Z) (e : el1)
| CpuOff (lvl : Z) (n : cpu_context) (e : el1)
| CpuSuspend (lvl : Z) (n : cpu_context) (e : el1)
| CpuSuspendFinish (lvl : Z) (n : cpu_context) (e : el1)
| CpuOnFinish (rw_32 : bool) (n : cpu_context) (e : el1)
| BootInit (rw_32 : bool).

Definition reg (g : gp_regs) (i : nat) : Z := default 0 (x g !! i).

Definition step (ep_info : option ep_info_t) (me : nat) (ev : event) : M (list cpu_st) leave :=
  match ev with
  | Smc w g pc psr e =>
      on_cpu me (enter w g pc psr e) ;;;
      trusty_smc_handler (bool_decide (is_Some ep_info)) me w (u32 (reg g 0)) (reg g 1) (reg g 2) (reg g 3)
  | FiqIn g pc psr e =>
      on_cpu me (enter NON_SECURE g pc psr e) ;;; on_cpu me (trusty_fiq_handler NON_SECURE)
  | CpuOff lvl n e | CpuSuspend lvl n e => on_cpu me (psci n e ;;; trusty_cpu_suspend lvl)
  | CpuSuspendFinish lvl n e => on_cpu me (psci n e ;;; trusty_cpu_resume lvl)
  | CpuOnFinish rw_32 n e => on_cpu me (psci n e ;;; trusty_cpu_on_finish_handler ep_info me rw_32 0)
  | BootInit rw_32 => on_cpu me (trusty_init ep_info me rw_32)
  end.
End Spd.
End Spd.
