(* ===== verification/SpdSpec.v ===== *)
(** * The worlds take turns and keep their registers

    The switch of [Spd] as an abstract machine: on every processor one world
    runs and the other one waits for its answer. *)

From S2P Require Import Prelude Spd.

Module SpdSpec.
Import Spd.

Section Spec.
Context {R : Type}.
Implicit Types (c : @cpu_st R) (v : @cpu_context R).

(** ** The invariant of a processor

    Before the first switch the normal world runs and nothing is suspended.
    Afterwards what is suspended belongs to the world that does not run, and
    the recorded security state is its. *)
Definition cpu_ok c : Prop :=
  match saved_sp c with
  | None => next_eret c = NON_SECURE
  | Some NewStack => False
  | Some InInit => next_eret c = SECURE /\ saved_security_state c = no_state /\ is_Some (sec c)
  | Some (InSwitch SECURE k) => k = AfterNsReturn /\ next_eret c = NON_SECURE /\ saved_security_state c = 0 /\ is_Some (sec c)
  | Some (InSwitch NON_SECURE k) => k <> AfterNsReturn /\ next_eret c = SECURE /\ saved_security_state c = 1 /\ is_Some (sec c)
  end.

Definition vmid c : Z := if is_hypervisor_mode c then SMC_GET_GP (ns c) 7 else 0.

(** Into the secure world: its SMC returns with the request. *)
Lemma switch_to_secure c sv r0 r1 r2 r3 k :
  saved_sp c = Some (InSwitch SECURE AfterNsReturn) -> saved_security_state c = 0 -> sec c = Some sv ->
  trusty_context_switch NON_SECURE r0 r1 r2 r3 k c =
    Done El3Exit (Cpu (set_sysregs (live c) (ns c)) (Some (smc_ret 0 [r0; r1; r2; r3; 0; 0; 0; vmid c] sv)) (sysregs sv) (hcr_el2 c)
                    SECURE (Some (InSwitch NON_SECURE k)) 1 (fiq c)).
Proof.
  destruct c as [n s e h w sp st f]. cbn. intros -> -> ->. reflexivity.
Qed.

(** What the switch leaves when the suspended code of the normal world goes on. *)
Definition back_in_normal c sv : cpu_st :=
  Cpu (ns c) (Some (set_sysregs (live c) sv)) (sysregs (ns c)) (hcr_el2 c) NON_SECURE (Some (InSwitch SECURE AfterNsReturn)) 0 (fiq c).

Lemma switch_to_normal c sv r0 k : 
  saved_sp c = Some (InSwitch NON_SECURE k) -> saved_security_state c = 1 -> sec c = Some sv ->
  trusty_context_switch SECURE r0 0 0 0 AfterNsReturn c = continue k [r0; 0; 0; 0; 0; 0; 0; vmid c] (back_in_normal c sv).
Proof. destruct c as [n s e h w sp st f]. cbn. intros -> -> ->. reflexivity. Qed.

Lemma switch_after_init c sv r0 : 
  saved_sp c = Some InInit -> saved_security_state c = no_state -> sec c = Some sv ->
  trusty_context_switch SECURE r0 0 0 0 AfterNsReturn c = Done ToFirmware (back_in_normal c sv).
Proof. destruct c as [n s e h w sp st f]. cbn. intros -> -> ->. reflexivity. Qed.

(** A handler that goes on changes the context of the normal world and what is
    kept for fast interrupts, and nothing of the switch. *)
Lemma continue_runs k args c : k <> AfterNsReturn ->
  exists lv n f, continue k args c = Done lv (Cpu n (sec c) (live c) (hcr_el2 c) (next_eret c) (saved_sp c) (saved_security_state c) f).
Proof.
  intros Hk. destruct c as [n s e h w sp st f]. destruct k; cbn; [by do 3 eexists|done| |by do 3 eexists..].
  unfold bind, ret, get, put. destruct (negb _); [by do 3 eexists|]. cbn. destruct (negb _); by do 3 eexists.
Qed.

Lemma trusty_init_runs ep cpu rw c :
  exists v, trusty_init (Some ep) cpu rw c =
    Done El3Exit (Cpu (set_sysregs (live c) (ns c)) (Some v) (sysregs v) (hcr_el2 c) SECURE (Some InInit) no_state (fiq c)) /\
    gpregs v = gpregs (ep_ctx ep) /\ sysregs v = sysregs (ep_ctx ep).
Proof. destruct c as [n s e h w sp st f]. cbn. destruct (_ && _); by eexists. Qed.

(** A switch on request of the normal world or of the secure one. *)
Lemma switch_ok w c r0 r1 r2 r3 k : cpu_ok c -> is_Some (saved_sp c) -> next_eret c = w ->
  (if w is SECURE then k = AfterNsReturn /\ r1 = 0 /\ r2 = 0 /\ r3 = 0 else k <> AfterNsReturn) ->
  runs (trusty_context_switch w r0 r1 r2 r3 k) c (fun _ c' => cpu_ok c' /\ is_Some (saved_sp c')).
Proof.
  unfold cpu_ok. intros Hc [s Hs] Hw Hk. rewrite Hs in Hc. unfold runs. destruct s as [| |[] k'].
  - done.
  - destruct Hc as (Hn & Hst & [sv Hsv]). rewrite Hn in Hw. subst w. destruct Hk as (-> & -> & -> & ->).
    rewrite (switch_after_init c sv) by done. cbn. by split; [|eexists].
  - destruct Hc as (-> & Hn & Hst & [sv Hsv]). rewrite Hn in Hw. subst w.
    rewrite (switch_to_secure c sv) by done. cbn. by split; [|eexists].
  - destruct Hc as (Hk' & Hn & Hst & [sv Hsv]). rewrite Hn in Hw. subst w. destruct Hk as (-> & -> & -> & ->).
    rewrite (switch_to_normal c sv r0 k') by done.
    destruct (continue_runs k' [r0; 0; 0; 0; 0; 0; 0; vmid c] (back_in_normal c sv) Hk') as (lv & n & f & ->). cbn. by split; [|eexists].
Qed.

(** ** All processors *)

Definition sound (l : list (@cpu_st R)) : Prop := length l = PLATFORM_CORE_COUNT /\ Forall cpu_ok l.

Lemma runs_on_cpu {A} me (p : @P R A) l c Q : l !! me = Some c ->
  runs p c (fun a c' => Q a (<[me := c']> l)) -> runs (on_cpu me p) l Q.
Proof. intros Hl Hp. unfold runs, on_cpu in *. rewrite Hl. by destruct (p c). Qed.

Lemma sound_insert l me c : sound l -> cpu_ok c -> sound (<[me := c]> l).
Proof. intros [Hlen Hl] Hc. split; [by rewrite length_insert|by apply Forall_insert]. Qed.

Lemma sound_lookup l me c : sound l -> l !! me = Some c -> cpu_ok c.
Proof. intros [_ Hl]. rewrite Forall_lookup in Hl. apply Hl. Qed.

(** The world whose event this is. *)
Definition running (ev : @event R) : world := match ev with Smc w _ _ _ _ => w | _ => NON_SECURE end.

(** What can happen on a processor: an event of the world that runs there, or
    the first initialisation.  The normal world makes requests only
    after that. *)
Definition enabled (l : list (@cpu_st R)) (me : nat) (ev : @event R) : Prop :=
  exists c, l !! me = Some c /\ next_eret c = running ev /\
    match ev with
    | BootInit _ => saved_sp c = None
    | CpuOnFinish _ _ _ => True
    | _ => is_Some (saved_sp c)
    end.

(** [c'] differs from [c] in registers only. *)
Definition same_switch c c' : Prop :=
  next_eret c' = next_eret c /\ saved_sp c' = saved_sp c /\ saved_security_state c' = saved_security_state c /\
  (is_Some (sec c) -> is_Some (sec c')).

Lemma same_switch_ok c c' : same_switch c c' -> cpu_ok c -> cpu_ok c'.
Proof.
  intros (H1 & H2 & H3 & H4). unfold cpu_ok. rewrite H2. destruct (saved_sp c) as [[| |[] k]|]; rewrite ?H1, ?H3; intros Hc; destruct_and?; split_and?; auto.
Qed.

Lemma sec_present c : cpu_ok c -> next_eret c = SECURE -> is_Some (sec c).
Proof. unfold cpu_ok. destruct (saved_sp c) as [[| |[] k]|]; intros Hc Hn; destruct_and?; try done; congruence. Qed.

Lemma upd_context_runs w (f : cpu_context -> cpu_context) c : cpu_ok c -> next_eret c = w ->
  runs (upd_context w f) c (fun _ c' => same_switch c c' /\ fiq c' = fiq c).
Proof.
  intros Hc Hw. unfold runs, upd_context, with_context, bind, get, modify.
  destruct w; cbn.
  - destruct (sec_present c Hc Hw) as [v ->]. cbn. by split; [split_and!; [..|eexists]|].
  - by split; [split_and!|].
Qed.

Lemma enter_runs w g pc psr e c : cpu_ok c -> next_eret c = w ->
  runs (enter w g pc psr e) c (fun _ c' => same_switch c c' /\ fiq c' = fiq c).
Proof.
  intros Hc Hw. unfold enter. apply runs_bind. unfold runs at 1, modify.
  assert (cpu_ok (set_live e c)) as Hc' by (eapply same_switch_ok; [|exact Hc]; by split_and!).
  eapply runs_mono; [apply (upd_context_runs w _ (set_live e c) Hc' Hw)|]. intros _ c' [Hs Hf]. by split.
Qed.

(** An answer without a switch. *)
Lemma answer_runs l me c w (f : cpu_context -> cpu_context) : sound l -> l !! me = Some c -> next_eret c = w ->
  runs (on_cpu me (upd_context w f) ;;; ret El3Exit) l (fun _ l' => sound l').
Proof.
  intros Hl Hme Hw. apply runs_bind. eapply runs_on_cpu; [done|].
  eapply runs_mono; [apply upd_context_runs; [by eapply sound_lookup|done]|].
  intros _ c' [Hs _]. apply runs_ret, sound_insert; [done|]. eapply same_switch_ok; [done|]. by eapply sound_lookup.
Qed.

Lemma switch_runs l me c w r0 r1 r2 r3 k : sound l -> l !! me = Some c -> next_eret c = w -> is_Some (saved_sp c) ->
  (if w is SECURE then k = AfterNsReturn /\ r1 = 0 /\ r2 = 0 /\ r3 = 0 else k <> AfterNsReturn) ->
  runs (on_cpu me (trusty_context_switch w r0 r1 r2 r3 k)) l (fun _ l' => sound l').
Proof.
  intros Hl Hme Hw Hs Hk. eapply runs_on_cpu; [done|].
  eapply runs_mono; [apply switch_ok; [by eapply sound_lookup|done..]|]. intros _ c' [Hc' _]. by apply sound_insert.
Qed.

Lemma set_fiq_handler_runs l me c cpu h st : sound l -> l !! me = Some c -> next_eret c = NON_SECURE ->
  runs (trusty_set_fiq_handler me cpu h st) l (fun _ l' => sound l').
Proof.
  intros Hl Hme Hw. unfold trusty_set_fiq_handler. destruct (_ <=? cpu) eqn:Ec; [by apply runs_ret|]. apply Z.leb_gt in Ec.
  apply runs_bind. eapply runs_on_cpu; [done|]. unfold runs at 1, gets. rewrite list_insert_id by done.
  destruct (lookup_lt_is_Some_2 l (Z.to_nat cpu)) as [d Hd]. { destruct Hl as [-> _]. unfold PLATFORM_CORE_COUNT in *. lia. }
  apply runs_bind. eapply runs_on_cpu; [done|]. unfold runs at 1, upd_fiq, modify.
  set (d' := set_fiq _ d). assert (same_switch d d') as Hdd by by split_and!.
  assert (sound (<[Z.to_nat cpu := d']> l)) as Hl'.
  { apply sound_insert; [done|]. eapply same_switch_ok; [exact Hdd|]. by eapply sound_lookup. }
  destruct (decide (me = Z.to_nat cpu)) as [->|Hne].
  - assert (d = c) as -> by congruence. eapply answer_runs; [done| |].
    + apply list_lookup_insert_eq. by eapply lookup_lt_Some.
    + by destruct Hdd as (-> & _).
  - eapply answer_runs; [done| |exact Hw]. by rewrite list_lookup_insert_ne.
Qed.

Lemma smc_handler_runs l me c w fid x1 x2 x3 : sound l -> l !! me = Some c -> next_eret c = w -> is_Some (saved_sp c) ->
  runs (trusty_smc_handler true me w fid x1 x2 x3) l (fun _ l' => sound l').
Proof.
  intros Hl Hme Hw Hs. unfold trusty_smc_handler. cbn [negb andb]. destruct w.
  - destruct (fid =? _); [|by eapply answer_runs]. by eapply switch_runs.
  - destruct (fid =? SMC_FC64_SET_FIQ_HANDLER); [by eapply set_fiq_handler_runs|].
    destruct (fid =? SMC_FC64_GET_FIQ_REGS).
    { eapply runs_on_cpu; [done|]. unfold trusty_get_fiq_regs. apply runs_bind. unfold runs at 1, get. apply runs_bind.
      eapply runs_mono; [apply upd_context_runs; [by eapply sound_lookup|done]|]. intros _ c' [Hc' _].
      apply runs_ret, sound_insert; [done|]. eapply same_switch_ok; [done|]. by eapply sound_lookup. }
    destruct (fid =? SMC_FC_FIQ_EXIT); [|by eapply switch_runs].
    unfold trusty_fiq_exit. eapply runs_on_cpu; [done|]. apply runs_bind. unfold runs at 1, get.
    destruct (_ =? 0).
    + apply runs_bind. eapply runs_mono; [apply upd_context_runs; [by eapply sound_lookup|done]|]. intros _ c' [Hc' _].
      apply runs_ret, sound_insert; [done|]. eapply same_switch_ok; [done|]. by eapply sound_lookup.
    + eapply runs_mono; [apply switch_ok; [by eapply sound_lookup|done..]|]. intros _ c' [Hc' _]. by apply sound_insert.
Qed.

Lemma step_runs ep l me ev : sound l -> enabled l me ev -> runs (step (Some ep) me ev) l (fun _ l' => sound l').
Proof.
  intros Hl (c & Hme & Hw & Hev). pose proof (sound_lookup _ _ _ Hl Hme) as Hc.
  assert (Hlive : forall n e, cpu_ok (set_ns n (set_live e c))) by (intros n e; eapply same_switch_ok; [|exact Hc]; by split_and!).
  assert (Hpow : forall n e lvl fid, is_Some (saved_sp c) -> next_eret c = NON_SECURE ->
    runs (on_cpu me (psci n e ;;; trusty_context_switch NON_SECURE fid lvl 0 0 AfterPower)) l (fun _ l' => sound l')).
  { intros n e lvl fid Hs Hn. eapply runs_on_cpu; [done|]. apply runs_bind. unfold runs at 1, psci, modify.
    eapply runs_mono; [by apply (switch_ok NON_SECURE (set_ns n (set_live e c)))|]. intros _ c' [Hc' _]. by apply sound_insert. }
  assert (Hinit : forall c rw, runs (trusty_init (Some ep) me rw) c (fun _ c' => cpu_ok c')).
  { intros c0 rw. unfold runs. destruct (trusty_init_runs ep me rw c0) as (v & -> & _). unfold cpu_ok. cbn. split_and!; [done|done|by eexists]. }
  destruct ev as [w g pc psr e|g pc psr e|lvl n e|lvl n e|lvl n e|rw n e|rw]; cbn [step running] in *.
  - apply runs_bind. eapply runs_on_cpu; [done|]. eapply runs_mono; [by apply enter_runs|]. intros _ c' [Hs _].
    rewrite bool_decide_true by by eexists. eapply (smc_handler_runs _ me c').
    + apply sound_insert; [done|]. by eapply same_switch_ok.
    + apply list_lookup_insert_eq. by eapply lookup_lt_Some.
    + destruct Hs as (-> & _). done.
    + destruct Hs as (_ & -> & _). done.
  - apply runs_bind. eapply runs_on_cpu; [done|]. eapply runs_mono; [by apply enter_runs|]. intros _ c' [Hs _].
    unfold trusty_fiq_handler. eapply runs_on_cpu; [apply list_lookup_insert_eq; by eapply lookup_lt_Some|].
    apply runs_bind. apply runs_assert; [done|]. destruct Hs as (Hn & Hsp & Hrest).
    eapply runs_mono; [apply (switch_ok NON_SECURE c')|].
    + eapply same_switch_ok; [|exact Hc]. unfold same_switch; tauto.
    + by rewrite Hsp.
    + by rewrite Hn.
    + done.
    + intros _ c2 [Hc2 _]. rewrite list_insert_insert_eq. by apply sound_insert.
  - by apply Hpow.
  - by apply Hpow.
  - by apply Hpow.
  - eapply runs_on_cpu; [done|]. apply runs_bind. unfold runs at 1, psci, modify, trusty_cpu_on_finish_handler.
    apply runs_bind. unfold runs at 1, get. cbn [saved_sp set_ns set_live].
    destruct (saved_sp c) as [s|] eqn:Esp.
    + eapply runs_mono; [apply (switch_ok NON_SECURE (set_ns n (set_live e c))); [done|by eexists|done|done]|].
      intros _ c' [Hc' _]. by apply sound_insert.
    + eapply runs_mono; [apply Hinit|]. intros lv c' Hc'. by apply sound_insert.
  - eapply runs_on_cpu; [done|]. eapply runs_mono; [apply Hinit|]. intros lv c' Hc'. by apply sound_insert.
Qed.

(** What can become of the processors after the reset. *)
Inductive reach (ep : @ep_info_t R) : list (@cpu_st R) -> Prop :=
| reach_reset l : length l = PLATFORM_CORE_COUNT -> Forall (fun c => saved_sp c = None /\ next_eret c = NON_SECURE) l -> reach ep l
| reach_step l me ev r l' : reach ep l -> enabled l me ev -> step (Some ep) me ev l = Done r l' -> reach ep l'.

Lemma spd_reach_ok ep l : reach ep l -> sound l.
Proof.
  induction 1 as [l Hlen Hl|l me ev r l' _ IH Hen Hst].
  - split; [done|]. eapply Forall_impl; [exact Hl|]. intros c [Hs Hn]. unfold cpu_ok. by rewrite Hs.
  - pose proof (step_runs ep l me ev IH Hen) as Hr. unfold runs in Hr. by rewrite Hst in Hr.
Qed.

(** C18: In every state that requests, interrupts and power events of the processors can
    reach, each processor has one world that runs and, once it was
    initialised, exactly the other world's handler suspended; so whatever
    happens next, no assertion of the dispatcher fails, no switch jumps to an
    empty stack, and no context that was not set up is used. *)
Theorem spd_reach_sound ep l me ev : reach ep l -> enabled l me ev ->
  sound l /\
  runs (step (Some ep) me ev) l (fun _ l' => sound l').
Proof. intros Hr Hen. pose proof (spd_reach_ok ep l Hr) as Hl. split; [done|]. by apply step_runs. Qed.

(** ** The registers of a world across a call *)

(** Requests of the secure world other than the return, answered at once. *)
Definition unknown_call (g : gp_regs) : Prop := u32 (reg g 0) <> SMC_YC_NS_RETURN.

(** A fixed state of the processor while the secure world works for [k]. *)
Record in_secure (n : cpu_context) (k : after) (f : fiq_ctx) (h : Z) c : Prop := {
  i_ns : ns c = n; i_fiq : fiq c = f; i_hcr : hcr_el2 c = h; i_next : next_eret c = SECURE;
  i_sp : saved_sp c = Some (InSwitch NON_SECURE k); i_state : saved_security_state c = 1; i_sec : is_Some (sec c)
}.

(** [gs]: the secure world's requests, each with the registers it makes them in. *)
Fixpoint secure_work (ep : option (@ep_info_t R)) (me : nat) (gs : list (gp_regs * Z * Z * @el1 R)) : M (list (@cpu_st R)) unit :=
  match gs with
  | [] => ret tt
  | (g, pc, psr, e) :: gs => _ <- step ep me (Smc SECURE g pc psr e) ;; secure_work ep me gs
  end.

Lemma secure_work_runs ep me n k f h gs : Forall (fun g => unknown_call g.1.1.1) gs -> forall l c,
  l !! me = Some c -> in_secure n k f h c ->
  runs (secure_work (Some ep) me gs) l (fun _ l' => exists c', l' = <[me := c']> l /\ in_secure n k f h c').
Proof.
  induction 1 as [|[[[g pc] psr] e] gs Hg Hgs IH]; intros l c Hme Hin; cbn [secure_work].
  { apply runs_ret. exists c. by rewrite list_insert_id. }
  destruct Hin as [H1 H2 H3 H4 H5 H6 [sv H7]]. destruct c as [n0 s0 e0 h0 w0 sp0 st0 f0]. cbn in *. subst.
  apply runs_bind. cbn [step]. apply runs_bind. eapply runs_on_cpu; [exact Hme|]. unfold runs at 1. cbn.
  unfold trusty_smc_handler. cbn [negb andb].
  rewrite (proj2 (Z.eqb_neq _ _)) by exact Hg.
  apply runs_bind. eapply runs_on_cpu; [apply list_lookup_insert_eq; by eapply lookup_lt_Some|]. unfold runs at 1. cbn. apply runs_ret.
  rewrite list_insert_insert_eq. eapply runs_mono; [eapply IH; [apply list_lookup_insert_eq; by eapply lookup_lt_Some|]|].
  - by split; [..|eexists].
  - intros _ l' (c' & -> & Hc'). exists c'. by rewrite list_insert_insert_eq.
Qed.

Lemma in_normal c : cpu_ok c -> next_eret c = NON_SECURE -> is_Some (saved_sp c) ->
  saved_sp c = Some (InSwitch SECURE AfterNsReturn) /\ saved_security_state c = 0 /\ is_Some (sec c).
Proof. unfold cpu_ok. intros Hc Hn [s Hs]. rewrite Hs in *. destruct s as [| |[] k]; [done|destruct_and?; congruence| |destruct_and?; congruence].
  by destruct Hc as (-> & _ & -> & ?).
Qed.

(** The processor in the secure world with a request of the normal world. *)
Definition secure_at c (n sv : cpu_context) (args : list Z) (k : after) : @cpu_st R :=
  Cpu n (Some (smc_ret 0 args sv)) (sysregs sv) (hcr_el2 c) SECURE (Some (InSwitch NON_SECURE k)) 1 (fiq c).

Lemma enter_run l me c g pc psr e : l !! me = Some c ->
  on_cpu me (enter NON_SECURE g pc psr e) l = Done tt (<[me := set_ns (Ctx g pc psr (sysregs (ns c))) (set_live e c)]> l).
Proof. intros Hme. unfold on_cpu. rewrite Hme. reflexivity. Qed.

(** A normal-world event [m] that switches with request [r0] to [r3]. *)
Lemma enter_and_switch l me c sv g pc psr e r0 r1 r2 r3 k :
  l !! me = Some c -> next_eret c = NON_SECURE -> saved_sp c = Some (InSwitch SECURE AfterNsReturn) -> saved_security_state c = 0 ->
  sec c = Some sv ->
  (on_cpu me (enter NON_SECURE g pc psr e) ;;; on_cpu me (trusty_context_switch NON_SECURE r0 r1 r2 r3 k)) l =
  Done El3Exit (<[me := secure_at c (Ctx g pc psr e) sv [r0; r1; r2; r3; 0; 0; 0; if is_hypervisor_mode c then reg g 7 else 0] k]> l).
Proof.
  intros Hme Hn Hsp Hst Hsec. rewrite (bind_done _ _ _ _ _ (enter_run l me c g pc psr e Hme)). unfold on_cpu.
  rewrite list_lookup_insert_eq by (by eapply lookup_lt_Some). rewrite (switch_to_secure _ sv) by done.
  by rewrite list_insert_insert_eq.
Qed.

Lemma secure_at_in c n sv args k : in_secure n k (fiq c) (hcr_el2 c) (secure_at c n sv args k).
Proof. by split; [..|eexists]. Qed.

(** The return of the secure world. *)
Lemma ns_return_run ep l me c n k f h g pc psr e : l !! me = Some c -> in_secure n k f h c -> u32 (reg g 0) = SMC_YC_NS_RETURN ->
  step (Some ep) me (Smc SECURE g pc psr e) l =
    on_cpu me (continue k [reg g 1; 0; 0; 0; 0; 0; 0; if has_flag h HYP_ENABLE_FLAG then SMC_GET_GP n 7 else 0])
      (<[me := Cpu n (Some (Ctx g pc psr e)) (sysregs n) h NON_SECURE (Some (InSwitch SECURE AfterNsReturn)) 0 f]> l).
Proof.
  intros Hme [H1 H2 H3 H4 H5 H6 [sv H7]] Hret. destruct c as [n0 s0 e0 h0 w0 sp0 st0 f0]. cbn in *. subst.
  unfold bind at 1, on_cpu at 1. rewrite Hme. cbn. unfold trusty_smc_handler. cbn [negb andb]. rewrite Hret. cbn -[continue trusty_context_switch].
  rewrite Z.eqb_refl. cbn -[continue trusty_context_switch].
  unfold on_cpu. rewrite !list_lookup_insert_eq by (by eapply lookup_lt_Some).
  rewrite (switch_to_normal _ (Ctx g pc psr (sysregs sv)) (reg g 1) k) by done.
  unfold back_in_normal, vmid, is_hypervisor_mode. cbn -[continue].
  destruct (continue _ _ _); [by rewrite !list_insert_insert_eq|done].
Qed.

(** The secure world at work for [k], until it returns. *)
Definition excursion ep me gs '(g, pc, psr, e) : M (list (@cpu_st R)) leave :=
  _ <- secure_work (Some ep) me gs ;; step (Some ep) me (Smc SECURE g pc psr e).

Lemma excursion_run ep l me c n k f h gs g pc psr e : l !! me = Some c -> in_secure n k f h c ->
  Forall (fun w => unknown_call w.1.1.1) gs -> u32 (reg g 0) = SMC_YC_NS_RETURN ->
  excursion ep me gs (g, pc, psr, e) l =
    on_cpu me (continue k [reg g 1; 0; 0; 0; 0; 0; 0; if has_flag h HYP_ENABLE_FLAG then SMC_GET_GP n 7 else 0])
      (<[me := Cpu n (Some (Ctx g pc psr e)) (sysregs n) h NON_SECURE (Some (InSwitch SECURE AfterNsReturn)) 0 f]> l).
Proof.
  intros Hme Hin Hgs Hret. pose proof (secure_work_runs ep me n k f h gs Hgs l c Hme Hin) as Hw.
  unfold excursion, bind. unfold runs in Hw. destruct (secure_work _ _ _ l) as [[] l1|]; [|done]. destruct Hw as (c' & -> & Hc').
  rewrite (ns_return_run ep _ me c' n k f h g pc psr e) by (try done; apply list_lookup_insert_eq; by eapply lookup_lt_Some).
  by rewrite list_insert_insert_eq.
Qed.

(** The ids that the dispatcher answers itself. *)
Definition own_call (fid : Z) : bool :=
  (fid =? SMC_FC64_SET_FIQ_HANDLER) || (fid =? SMC_FC64_GET_FIQ_REGS) || (fid =? SMC_FC_FIQ_EXIT).

(** C19: A call of the normal world.  The secure world finds the number, the three
    arguments and the VMID in x0 to x3 and x7, and its own system registers as
    it left them; whatever it does with them, and whatever it asks the
    dispatcher in between, when it returns the normal world goes on
    behind its call with every register as it was, system registers included,
    but the answer in x0; the secure world's are kept for the next call. *)
Theorem smc_round_trip ep me l c sv g pc psr e :
  sound l -> l !! me = Some c -> next_eret c = NON_SECURE -> is_Some (saved_sp c) -> sec c = Some sv ->
  own_call (u32 (reg g 0)) = false ->
  exists c1, step (Some ep) me (Smc NON_SECURE g pc psr e) l = Done El3Exit (<[me := c1]> l) /\
    next_eret c1 = SECURE /\ live c1 = sysregs sv /\
    sec c1 = Some (smc_ret 0 [u32 (reg g 0); reg g 1; reg g 2; reg g 3; 0; 0; 0; if is_hypervisor_mode c then reg g 7 else 0] sv) /\
    forall gs g2 pc2 psr2 e2, Forall (fun w => unknown_call w.1.1.1) gs -> u32 (reg g2 0) = SMC_YC_NS_RETURN ->
      excursion ep me gs (g2, pc2, psr2, e2) (<[me := c1]> l) =
        Done El3Exit (<[me := Cpu (SMC_SET_GP 0 (reg g2 1) (Ctx g pc psr e)) (Some (Ctx g2 pc2 psr2 e2)) e (hcr_el2 c) NON_SECURE
                      (Some (InSwitch SECURE AfterNsReturn)) 0 (fiq c)]> l).
Proof.
  intros Hl Hme Hn Hs Hsec Hown. destruct (in_normal c (sound_lookup _ _ _ Hl Hme) Hn Hs) as (Hsp & Hst & _).
  apply orb_false_iff in Hown as [[H1 H2]%orb_false_iff H3]. eexists. split.
  { cbn [step]. unfold trusty_smc_handler. cbn [bool_decide]. rewrite bool_decide_true by by eexists. cbn [negb andb].
    rewrite H1, H2, H3. by apply (enter_and_switch l me c sv). }
  assert (me < length l)%nat as Hlt by by eapply lookup_lt_Some.
  split_and!; try done. intros gs g2 pc2 psr2 e2 Hgs Hret.
  erewrite excursion_run by (try apply secure_at_in; try done; by apply list_lookup_insert_eq).
  rewrite list_insert_insert_eq. unfold on_cpu. rewrite list_lookup_insert_eq by done. cbn. by rewrite list_insert_insert_eq.
Qed.
(** ** A fast interrupt and the end of its handler *)

(** The normal world in its handler: [sv] is what the secure world left. *)
Definition in_handler c (v sv : cpu_context) : @cpu_st R :=
  let f := fiq c in
  Cpu (Ctx (gpregs v) (fiq_handler_pc f) (u32 (fiq_handler_cpsr f)) (El1 (fiq_handler_sp f) (el1_rest (sysregs v)))) (Some sv)
      (sysregs v) (hcr_el2 c) NON_SECURE (Some (InSwitch SECURE AfterNsReturn)) 0
      (Fiq 1 (fiq_handler_pc f) (fiq_handler_cpsr f) (fiq_handler_sp f) (elr v) (spsr v) (sp_el1 (sysregs v)) (gpregs v)).

Lemma continue_fiq k args c : k = AfterFiq -> args !! 0%nat = Some 0 -> fiq_handler_active (fiq c) = 0 ->
  next_eret c = NON_SECURE -> saved_sp c = Some (InSwitch SECURE AfterNsReturn) -> saved_security_state c = 0 ->
  live c = sysregs (ns c) -> forall sv, sec c = Some sv ->
  continue k args c = Done El3Exit (in_handler c (ns c) sv).
Proof.
  destruct c as [n s e h w sp st [act hpc hcpsr hsp fpc fpsr fsp fgp]]. cbn. intros -> Hr -> -> -> -> -> sv ->.
  cbn. rewrite Hr. reflexivity.
Qed.

Lemma fiq_entry ep me l c sv g pc psr e : l !! me = Some c -> next_eret c = NON_SECURE ->
  saved_sp c = Some (InSwitch SECURE AfterNsReturn) -> saved_security_state c = 0 -> sec c = Some sv ->
  step (Some ep) me (FiqIn g pc psr e) l =
    Done El3Exit (<[me := secure_at c (Ctx g pc psr e) sv [SMC_FC_FIQ_ENTER; 0; 0; 0; 0; 0; 0; if is_hypervisor_mode c then reg g 7 else 0] AfterFiq]> l).
Proof. intros. by apply (enter_and_switch l me c sv). Qed.

Lemma fiq_exit_entry ep me l c sv g pc psr e : l !! me = Some c -> next_eret c = NON_SECURE ->
  saved_sp c = Some (InSwitch SECURE AfterNsReturn) -> saved_security_state c = 0 -> sec c = Some sv ->
  fiq_handler_active (fiq c) <> 0 -> u32 (reg g 0) = SMC_FC_FIQ_EXIT ->
  step (Some ep) me (Smc NON_SECURE g pc psr e) l =
    Done El3Exit (<[me := secure_at c (Ctx g pc psr e) sv [SMC_FC_FIQ_EXIT; 0; 0; 0; 0; 0; 0; if is_hypervisor_mode c then reg g 7 else 0] AfterFiqExit]> l).
Proof.
  intros Hme Hn Hsp Hst Hsec Ha Hg. rewrite <- (enter_and_switch l me c sv) by done.
  cbn [step]. rewrite Hg. change (trusty_smc_handler _ _ _ _ _ _ _) with (on_cpu me (@trusty_fiq_exit R)).
  rewrite !(bind_done _ _ _ _ _ (enter_run l me c g pc psr e Hme)). unfold on_cpu.
  rewrite list_lookup_insert_eq by (by eapply lookup_lt_Some).
  unfold trusty_fiq_exit, bind at 1, get. cbn [fiq set_ns set_live]. by rewrite (proj2 (Z.eqb_neq _ _) Ha).
Qed.

(** C20: A fast interrupt of the normal world and the end of its handler.  When the
    secure world leaves the interrupt to the normal world's handler (it
    returns zero and no handler runs yet), the normal world goes on at the handler
    with the registers of the interrupted code, its own system registers, and what the
    interruption needs is kept; when the handler asks for its end, whatever the
    secure world answers, the normal world goes on at the interrupted
    instruction, state and general registers as they were, no handler runs
    any more, and the next interrupt is handled the same way.  The system registers are the
    handler's, the stack pointer too: only the stored copies got the stack
    of the handler and, at the end, that of the interrupted code. *)
Theorem fiq_round_trip ep me l c sv g pc psr e gs g2 pc2 psr2 e2 :
  sound l -> l !! me = Some c -> next_eret c = NON_SECURE -> saved_sp c = Some (InSwitch SECURE AfterNsReturn) -> sec c = Some sv ->
  fiq_handler_active (fiq c) = 0 -> Forall (fun w => unknown_call w.1.1.1) gs ->
  u32 (reg g2 0) = SMC_YC_NS_RETURN -> reg g2 1 = 0 ->
  let h := in_handler c (Ctx g pc psr e) (Ctx g2 pc2 psr2 e2) in
  (_ <- step (Some ep) me (FiqIn g pc psr e) ;; excursion ep me gs (g2, pc2, psr2, e2)) l = Done El3Exit (<[me := h]> l) /\
  elr (ns h) = fiq_handler_pc (fiq c) /\ gpregs (ns h) = g /\ live h = e /\ forall gh pch psrh eh gs' g3 pc3 psr3 e3,
    u32 (reg gh 0) = SMC_FC_FIQ_EXIT -> Forall (fun w => unknown_call w.1.1.1) gs' -> u32 (reg g3 0) = SMC_YC_NS_RETURN ->
    (_ <- step (Some ep) me (Smc NON_SECURE gh pch psrh eh) ;; excursion ep me gs' (g3, pc3, psr3, e3)) (<[me := h]> l) =
      Done El3Exit (<[me := Cpu (Ctx g pc (u32 psr) (El1 (sp_el1 e) (el1_rest eh))) (Some (Ctx g3 pc3 psr3 e3)) eh (hcr_el2 c) NON_SECURE
                       (Some (InSwitch SECURE AfterNsReturn)) 0
                       (Fiq 0 (fiq_handler_pc (fiq c)) (fiq_handler_cpsr (fiq c)) (fiq_handler_sp (fiq c)) pc psr (sp_el1 e) g)]> l).
Proof.
  intros Hl Hme Hn Hsp Hsec Ha Hgs Hret Hr h. destruct (in_normal c (sound_lookup _ _ _ Hl Hme) Hn ltac:(by rewrite Hsp)) as (_ & Hst & _).
  assert (me < length l)%nat as Hlt by by eapply lookup_lt_Some.
  split_and!; [|done..|].
  - erewrite bind_done by (by apply (fiq_entry ep me l c sv)).
    erewrite excursion_run by (try apply secure_at_in; try done; by apply list_lookup_insert_eq).
    rewrite list_insert_insert_eq. unfold on_cpu. rewrite list_lookup_insert_eq by done.
    erewrite (continue_fiq AfterFiq) by (done || (cbn; by rewrite Hr)). by rewrite list_insert_insert_eq.
  - intros gh pch psrh eh gs' g3 pc3 psr3 e3 Hg Hgs' Hret'.
    erewrite bind_done by (by apply (fiq_exit_entry ep me (<[me := h]> l) h (Ctx g2 pc2 psr2 e2)); [apply list_lookup_insert_eq|..]).
    rewrite list_insert_insert_eq.
    erewrite excursion_run by (try apply secure_at_in; try done; by apply list_lookup_insert_eq).
    rewrite list_insert_insert_eq. unfold on_cpu. rewrite list_lookup_insert_eq by done. cbn. by rewrite list_insert_insert_eq.
Qed.
End Spec.

(** ** Concrete processors *)

Definition gp0 : gp_regs := Gp (replicate 31 0) 0.
Definition gp_with (r0 r1 : Z) : gp_regs := Gp (r0 :: r1 :: replicate 29 0) 0.
Definition e0 (sp : Z) : @el1 unit := El1 sp ().
Definition cpu_reset : @cpu_st unit := Cpu (Ctx gp0 0 0 (e0 0)) None (e0 0x1000) 0 NON_SECURE None 0 (Fiq 0 0 0 0 0 0 0 gp0).
Definition image : ep_info_t := EpInfo 0x30000000 (Ctx (gp_with 0x400000 0) 0x30000000 0x3c5 (e0 0)).
Definition boot_cpus : list (@cpu_st unit) := replicate PLATFORM_CORE_COUNT cpu_reset.

Lemma spd_boot_reach : reach image boot_cpus.
Proof. apply reach_reset; [done|]. by apply Forall_replicate. Qed.

(** The first processor after the secure world was initialised. *)
Definition booted : list (@cpu_st unit) := Eval vm_compute in
  match (_ <- step (Some image) 0 (BootInit false) ;; step (Some image) 0 (Smc SECURE (gp_with SMC_YC_NS_RETURN 0) 0x30000100 0x3c5 (e0 0x30001000))) boot_cpus with
  | Done _ l => l
  | Crash _ => []
  end.
Definition booted_cpu : @cpu_st unit := Eval vm_compute in default cpu_reset (booted !! 0%nat).
Definition booted_sec : @cpu_context unit := Eval vm_compute in default (ns cpu_reset) (sec booted_cpu).

Lemma booted_reach : reach image booted.
Proof.
  eapply (reach_step _ _ 0 (Smc SECURE (gp_with SMC_YC_NS_RETURN 0) 0x30000100 0x3c5 (e0 0x30001000))).
  - eapply (reach_step _ boot_cpus 0 (BootInit false)); [apply spd_boot_reach| |vm_compute; reflexivity].
    by exists cpu_reset.
  - eexists. split_and!; [reflexivity|done|by eexists].
  - vm_compute. reflexivity.
Qed.

Lemma spd_reach_sound_witness : exists l, reach image l /\ enabled l 0 (Smc NON_SECURE (gp_with 1 2) 3 4 (e0 5)) /\
  runs (step (Some image) 0 (Smc NON_SECURE (gp_with 1 2) 3 4 (e0 5))) l (fun _ l' => sound l').
Proof.
  assert (enabled booted 0 (Smc NON_SECURE (gp_with 1 2) 3 4 (e0 5))) as Hen by (exists booted_cpu; split; [vm_compute; reflexivity|]; split; [vm_compute; reflexivity|]; vm_compute; eexists; reflexivity).
  exists booted. split; [exact booted_reach|]. split; [exact Hen|].
  exact (proj2 (spd_reach_sound image booted 0 _ booted_reach Hen)).
Defined.

Lemma smc_round_trip_witness : exists c1, next_eret c1 = SECURE /\
  excursion image 0 [(gp_with 7 0, 1, 2, e0 3)] (gp_with SMC_YC_NS_RETURN 42, 4, 5, e0 6) (<[0%nat := c1]> booted) =
    Done El3Exit (<[0%nat := Cpu (Ctx (gp_with 42 2) 3 4 (e0 5)) (Some (Ctx (gp_with SMC_YC_NS_RETURN 42) 4 5 (e0 6))) (e0 5) 0 NON_SECURE
                      (Some (InSwitch SECURE AfterNsReturn)) 0 (fiq booted_cpu)]> booted).
Proof.
  destruct (smc_round_trip image 0 booted booted_cpu booted_sec (gp_with 1 2) 3 4 (e0 5))
    as (c1 & _ & Hn & _ & _ & Hret); [exact (spd_reach_ok _ _ booted_reach)|vm_compute; reflexivity|vm_compute; reflexivity|vm_compute; eexists; reflexivity|vm_compute; reflexivity|vm_compute; reflexivity|].
  exists c1. split; [exact Hn|]. rewrite Hret; [reflexivity| |reflexivity]. by repeat constructor.
Defined.

(** A handler is set, a fast interrupt comes, and the handler ends. *)
Definition with_handler : list (@cpu_st unit) := Eval vm_compute in
  match step (Some image) 0 (Smc NON_SECURE (Gp (SMC_FC64_SET_FIQ_HANDLER :: 0 :: 0x80081000 :: 0x80100000 :: replicate 27 0) 0) 0x80080000 0x3c9 (e0 0x80200000)) booted with
  | Done _ l => l
  | Crash _ => []
  end.
Definition handler_cpu : @cpu_st unit := Eval vm_compute in default cpu_reset (with_handler !! 0%nat).

Lemma with_handler_sound : sound with_handler.
Proof. split; [reflexivity|]. vm_compute. repeat constructor. by eexists. Qed.

Lemma fiq_round_trip_witness :
  let h := in_handler handler_cpu (Ctx (gp_with 1 2) 3 4 (e0 5)) (Ctx (gp_with SMC_YC_NS_RETURN 0) 4 5 (e0 6)) in
  (_ <- step (Some image) 0 (FiqIn (gp_with 1 2) 3 4 (e0 5)) ;; excursion image 0 [] (gp_with SMC_YC_NS_RETURN 0, 4, 5, e0 6)) with_handler
    = Done El3Exit (<[0%nat := h]> with_handler) /\
  elr (ns h) = 0x80081000 /\
  exists c,
  (_ <- step (Some image) 0 (Smc NON_SECURE (gp_with SMC_FC_FIQ_EXIT 0) 0x80081100 0x3c9 (e0 0x80100000)) ;;
     excursion image 0 [] (gp_with SMC_YC_NS_RETURN 1, 4, 5, e0 6)) (<[0%nat := h]> with_handler)
    = Done El3Exit (<[0%nat := c]> with_handler) /\
  elr (ns c) = 3 /\ gpregs (ns c) = gp_with 1 2 /\ sp_el1 (live c) = 0x80100000.
Proof.
  intros h.
  destruct (fiq_round_trip image 0 with_handler handler_cpu booted_sec (gp_with 1 2) 3 4 (e0 5) [] (gp_with SMC_YC_NS_RETURN 0) 4 5 (e0 6)
      with_handler_sound eq_refl eq_refl eq_refl eq_refl eq_refl (List.Forall_nil _) ltac:(vm_compute; reflexivity) eq_refl) as (Hin & Hpc & _ & _ & Hout).
  split; [exact Hin|]. split; [exact Hpc|].
  eexists. split; [apply Hout; [vm_compute; reflexivity|exact (List.Forall_nil _)|vm_compute; reflexivity]|]. split; [reflexivity|]. split; reflexivity.
Defined.
End SpdSpec.
