(* ===== verification/Mce.v ===== *)
(** * The power and cache controller of the processor complex

    [plat/nvidia/tegra/soc/t186/drivers/mce] of the firmware: [ari.c], the
    requests that the Cortex-A57 processors make through registers, [nvg.c],
    those that the Denver processors make through a system register, and
    [mce.c], which picks one of the two and serves the commands of the normal
    world.  What the registers answer is a parameter; every access is logged. *)

From S2P Require Import Prelude Spd.

Module Mce.
Import Spd.

(** ** Numbers ([t18x_ari.h], [mce_private.h], [mce.h], [tegra_def.h]) *)

Definition EINVAL : Z := 22.

Definition ARI_REQUEST : Z := 0x0.
Definition ARI_REQUEST_EVENT_MASK : Z := 0x4.
Definition ARI_STATUS : Z := 0x8.
Definition ARI_REQUEST_DATA_LO : Z := 0xC.
Definition ARI_REQUEST_DATA_HI : Z := 0x10.
Definition ARI_RESPONSE_DATA_LO : Z := 0x14.
Definition ARI_RESPONSE_DATA_HI : Z := 0x18.
Definition ARI_REQ_PENDING : Z := 1.
Definition ARI_REQ_ONGOING : Z := 3.
Definition ARI_REQUEST_VALID_BIT : Z := Z.shiftl 1 8.
Definition ARI_EVT_MASK_STANDBYWFI_BIT : Z := Z.shiftl 1 7.
Definition ARI_MAX_RETRY_COUNT : Z := 2000000.

Definition TEGRA_ARI_VERSION_MAJOR : Z := 3.
Definition TEGRA_ARI_VERSION_MINOR : Z := 1.
Definition TEGRA_ARI_MISC : Z := 0.
Definition TEGRA_ARI_ONLINE_CORE : Z := 4.
Definition TEGRA_ARI_IS_CCX_ALLOWED : Z := 42.
Definition TEGRA_ARI_CC3_CTRL : Z := 43.
Definition TEGRA_ARI_ENTER_CSTATE : Z := 80.
Definition TEGRA_ARI_UPDATE_CSTATE_INFO : Z := 81.
Definition TEGRA_ARI_IS_SC7_ALLOWED : Z := 82.
Definition TEGRA_ARI_PERFMON : Z := 84.
Definition TEGRA_ARI_UPDATE_CCPLEX_GSC : Z := 85.
Definition TEGRA_ARI_ROC_FLUSH_CACHE_ONLY : Z := 88.
Definition TEGRA_ARI_ROC_FLUSH_CACHE_TRBITS : Z := 89.
Definition TEGRA_ARI_MISC_CCPLEX : Z := 90.
Definition TEGRA_ARI_MCA : Z := 91.
Definition TEGRA_ARI_UPDATE_CROSSOVER : Z := 92.
Definition TEGRA_ARI_CSTATE_STATS : Z := 93.
Definition TEGRA_ARI_WRITE_CSTATE_STATS : Z := 94.
Definition TEGRA_ARI_COPY_MISCREG_AA64_RST : Z := 95.
Definition TEGRA_ARI_ROC_CLEAN_CACHE_ONLY : Z := 96.
Definition TEGRA_ARI_MISC_ECHO : Z := 0.
Definition TEGRA_ARI_MISC_VERSION : Z := 1.
Definition TEGRA_ARI_MISC_FEATURE_LEAF_0 : Z := 2.
Definition TEGRA_ARI_MISC_CCPLEX_SHUTDOWN_POWER_OFF : Z := 0.
Definition TEGRA_ARI_MISC_CCPLEX_SHUTDOWN_REBOOT : Z := 1.
Definition TEGRA_ARI_MISC_CCPLEX_CORESIGHT_CG_CTRL : Z := 2.
Definition TEGRA_ARI_MISC_CCPLEX_EDBGREQ : Z := 3.
Definition TEGRA_ARI_CORE_C0 : Z := 0.
Definition TEGRA_ARI_CORE_C1 : Z := 1.
Definition TEGRA_ARI_CORE_C6 : Z := 6.
Definition TEGRA_ARI_CORE_C7 : Z := 7.
Definition TEGRA_ARI_CROSSOVER_C1_C6 : Z := 0.
Definition TEGRA_ARI_CROSSOVER_CCP3_SC1 : Z := 8.
Definition TEGRA_ARI_GSC_TZRAM : Z := 11.
Definition TEGRA_ARI_GSC_TZ_DRAM_IDX : Z := 34.
Definition TEGRA_ARI_GSC_VPR_IDX : Z := 35.
Definition TEGRA_NVG_CHANNEL_WAKE_TIME : Z := 3.
Definition TEGRA_NVG_CHANNEL_CSTATE_INFO : Z := 4.
Definition TEGRA_NVG_CHANNEL_CROSSOVER_C1_C6 : Z := 5.
Definition TEGRA_NVG_CHANNEL_CSTATE_STATS_CLEAR : Z := 13.
Definition TEGRA_NVG_CHANNEL_IS_SC7_ALLOWED : Z := 43.
Definition TEGRA_NVG_CHANNEL_ONLINE_CORE : Z := 44.
Definition TEGRA_NVG_CHANNEL_CC3_CTRL : Z := 45.
Definition TEGRA_NVG_CHANNEL_CROSSOVER_CCP3_SC1 : Z := 46.

Definition CLUSTER_CSTATE_MASK : Z := 0x7.
Definition CLUSTER_CSTATE_UPDATE_BIT : Z := Z.shiftl 1 7.
Definition CCPLEX_CSTATE_MASK : Z := 0x3.
Definition CCPLEX_CSTATE_SHIFT : Z := 8.
Definition CCPLEX_CSTATE_UPDATE_BIT : Z := Z.shiftl 1 15.
Definition SYSTEM_CSTATE_MASK : Z := 0xF.
Definition SYSTEM_CSTATE_SHIFT : Z := 16.
Definition SYSTEM_CSTATE_FORCE_UPDATE_SHIFT : Z := 22.
Definition SYSTEM_CSTATE_UPDATE_BIT : Z := Z.shiftl 1 23.
Definition CSTATE_WAKE_MASK_UPDATE_BIT : Z := Z.shiftl 1 31.
Definition CSTATE_WAKE_MASK_SHIFT : Z := 32.
Definition CSTATE_WAKE_MASK_CLEAR : Z := 0xFFFFFFFF.
Definition MCE_AUTO_CC3_FREQ_MASK : Z := 0x1FF.
Definition MCE_AUTO_CC3_FREQ_SHIFT : Z := 0.
Definition MCE_AUTO_CC3_VTG_MASK : Z := 0x7F.
Definition MCE_AUTO_CC3_VTG_SHIFT : Z := 16.
Definition MCE_AUTO_CC3_ENABLE_BIT : Z := Z.shiftl 1 31.
Definition MCE_SC7_ALLOWED_MASK : Z := 0x7.
Definition MCE_SC7_WAKE_TIME_SHIFT : Z := 32.
Definition MCE_CSTATE_STATS_TYPE_SHIFT : Z := 32.
Definition MCA_ARG_ERROR_MASK : Z := 0xFF.
Definition MCA_ARG_FINISH_SHIFT : Z := 24.
Definition MCA_ARG_FINISH_MASK : Z := 0xFF.
Definition UNCORE_PERFMON_CMD_READ : Z := 0.
Definition UNCORE_PERFMON_CMD_WRITE : Z := 1.
Definition UNCORE_PERFMON_CMD_MASK : Z := 0xFF.
Definition UNCORE_PERFMON_RESP_STATUS_MASK : Z := 0xFF.
Definition ACTLR_EL1_PMSTATE_MASK : Z := 0xF.
Definition MCE_CORE_ID_MAX : Z := 8.
Definition MCE_CORE_ID_MASK : Z := 0x7.
Definition TEGRA_MMCRAB_BASE : Z := 0x0E000000.
Definition MIDR_IMPL_SHIFT : Z := 0x18.
Definition MIDR_IMPL_MASK : Z := 0xFF.
Definition MPIDR_CPU_MASK : Z := 0xFF.
Definition MPIDR_AFFINITY_BITS : Z := 8.
Definition MPIDR_CLUSTER_MASK : Z := Z.shiftl 0xFF MPIDR_AFFINITY_BITS.
Definition DENVER_IMPL : Z := 0x4E.

Definition MCE_CMD_ENTER_CSTATE : Z := 0.
Definition MCE_CMD_UPDATE_CSTATE_INFO : Z := 1.
Definition MCE_CMD_UPDATE_CROSSOVER_TIME : Z := 2.
Definition MCE_CMD_READ_CSTATE_STATS : Z := 3.
Definition MCE_CMD_WRITE_CSTATE_STATS : Z := 4.
Definition MCE_CMD_IS_SC7_ALLOWED : Z := 5.
Definition MCE_CMD_ONLINE_CORE : Z := 6.
Definition MCE_CMD_CC3_CTRL : Z := 7.
Definition MCE_CMD_ECHO_DATA : Z := 8.
Definition MCE_CMD_READ_VERSIONS : Z := 9.
Definition MCE_CMD_ENUM_FEATURES : Z := 10.
Definition MCE_CMD_ROC_FLUSH_CACHE_TRBITS : Z := 11.
Definition MCE_CMD_ENUM_READ_MCA : Z := 12.
Definition MCE_CMD_ENUM_WRITE_MCA : Z := 13.
Definition MCE_CMD_ROC_FLUSH_CACHE : Z := 14.
Definition MCE_CMD_ROC_CLEAN_CACHE : Z := 15.
Definition MCE_CMD_UNCORE_PERFMON_REQ : Z := 17.
Definition MCE_CMD_MISC_CCPLEX : Z := 18.
Definition MCE_CMD_IS_CCX_ALLOWED : Z := 0xFE.
Definition MCE_CMD_MASK : Z := 0xFF.

(** ** Registers

    The accesses that change something, newest first, and the number of reads so far. *)
Inductive access :=
| MmioWrite (addr val : Z)
| Delay (usec : Z)
| NvgRequest (channel : Z)
| NvgData (channel data : Z)
| WriteActlr (val : Z)
| Zeroed (base size : Z)             (* memory cleared by the firmware *)
| Mapped (base size : Z)
| Unmapped (base size : Z)
| IrqAcknowledge
| IrqEnd (irq : Z).
#[export] Instance access_eq_dec : EqDecision access.
Proof. solve_decision. Defined.

Record hw := Hw { nreads : nat; log : list access }.
Definition H (A : Type) : Type := M hw A.

(** The processor complex: what the [n]-th read gives, by address ([dev]), of
    the answer register of NVG and of ACTLR_EL1; the identification
    registers of the processor the code runs on; and whether the build checks assertions. *)
Class machine := Machine {
  dev : nat -> Z -> Z;
  nvg_answer : nat -> Z;
  actlr : nat -> Z;
  mpidr : Z;
  midr : Z;
  assertions : bool
}.

Definition emit (a : access) : H unit := modify (fun h => Hw (nreads h) (a :: log h)).
Definition observe (f : nat -> Z) : H Z := fun h => Done (f (nreads h)) (Hw (S (nreads h)) (log h)).
Definition mmio_write_32 (addr val : Z) : H unit := emit (MmioWrite addr (u32 val)).

Section Mce.
Context `{mch : machine}.

Definition mmio_read_32 (addr : Z) : H Z := observe (fun n => u32 (dev n addr)).
Definition check (b : bool) : H unit := if assertions then assert_ b else ret tt.

Definition read_cpu : Z := Z.land mpidr MPIDR_CPU_MASK.
Definition read_impl : Z := Z.land (Z.shiftr midr MIDR_IMPL_SHIFT) MIDR_IMPL_MASK.

(** ** Requests through registers ([ari.c]) *)

Definition ari_read_32 (ari_base reg : Z) : H Z := mmio_read_32 (ari_base + reg).
Definition ari_write_32 (ari_base val reg : Z) : H unit := mmio_write_32 (ari_base + reg) val.
Definition ari_get_request_low (ari_base : Z) : H Z := ari_read_32 ari_base ARI_REQUEST_DATA_LO.
Definition ari_get_request_high (ari_base : Z) : H Z := ari_read_32 ari_base ARI_REQUEST_DATA_HI.
Definition ari_get_response_low (ari_base : Z) : H Z := ari_read_32 ari_base ARI_RESPONSE_DATA_LO.
Definition ari_get_response_high (ari_base : Z) : H Z := ari_read_32 ari_base ARI_RESPONSE_DATA_HI.
Definition ari_clobber_response (ari_base : Z) : H unit :=
  ari_write_32 ari_base 0 ARI_RESPONSE_DATA_LO ;;; ari_write_32 ari_base 0 ARI_RESPONSE_DATA_HI.

(** The loop over [retries]; the answer is what is left of them. *)
Fixpoint poll_status (ari_base : Z) (retries : nat) : H nat :=
  match retries with
  | O => ret O
  | S r =>
      status <- ari_read_32 ari_base ARI_STATUS ;;
      if Z.land status (Z.lor ARI_REQ_ONGOING ARI_REQ_PENDING) =? 0 then ret retries
      else emit (Delay 1) ;;; poll_status ari_base r
  end.

Definition ari_request_wait (ari_base evt_mask req lo hi : Z) : H Z :=
  ari_write_32 ari_base lo ARI_REQUEST_DATA_LO ;;;
  ari_write_32 ari_base hi ARI_REQUEST_DATA_HI ;;;
  ari_write_32 ari_base evt_mask ARI_REQUEST_EVENT_MASK ;;;
  ari_write_32 ari_base (Z.lor req ARI_REQUEST_VALID_BIT) ARI_REQUEST ;;;
  if negb (evt_mask =? 0) then ret 0
  else if (req =? TEGRA_ARI_MISC_CCPLEX) &&
          ((lo =? TEGRA_ARI_MISC_CCPLEX_SHUTDOWN_POWER_OFF) || (lo =? TEGRA_ARI_MISC_CCPLEX_SHUTDOWN_REBOOT)) then ret 0
  else
    retries <- poll_status ari_base (Z.to_nat ARI_MAX_RETRY_COUNT) ;;
    (if bool_decide (retries = O) then check false else ret tt) ;;;
    ret 0.

Definition known_cstate (state : Z) : bool :=
  (state =? TEGRA_ARI_CORE_C0) || (state =? TEGRA_ARI_CORE_C1) || (state =? TEGRA_ARI_CORE_C6) || (state =? TEGRA_ARI_CORE_C7).

Definition ari_enter_cstate (ari_base state wake_time : Z) : H Z :=
  if negb (known_cstate state) then ret EINVAL
  else ari_clobber_response ari_base ;;; ari_request_wait ari_base ARI_EVT_MASK_STANDBYWFI_BIT TEGRA_ARI_ENTER_CSTATE state wake_time.

(** The word that both kinds of processors build; NVG computes it at 64 bits
    as ARI does. *)
Definition cstate_info (cluster ccplex system sys_state_force update_wake_mask : Z) : Z :=
  Z.lor (Z.lor (Z.lor
    (if negb (cluster =? 0) then Z.lor (Z.land cluster CLUSTER_CSTATE_MASK) CLUSTER_CSTATE_UPDATE_BIT else 0)
    (if negb (ccplex =? 0) then Z.lor (Z.shiftl (Z.land ccplex CCPLEX_CSTATE_MASK) CCPLEX_CSTATE_SHIFT) CCPLEX_CSTATE_UPDATE_BIT else 0))
    (if negb (system =? 0)
     then Z.lor (Z.shiftl (Z.land system SYSTEM_CSTATE_MASK) SYSTEM_CSTATE_SHIFT)
                (Z.lor (Z.shiftl sys_state_force SYSTEM_CSTATE_FORCE_UPDATE_SHIFT) SYSTEM_CSTATE_UPDATE_BIT) else 0))
    (if negb (update_wake_mask =? 0) then CSTATE_WAKE_MASK_UPDATE_BIT else 0).

Definition ari_update_cstate_info (ari_base cluster ccplex system sys_state_force wake_mask update_wake_mask : Z) : H Z :=
  ari_clobber_response ari_base ;;;
  ari_request_wait ari_base 0 TEGRA_ARI_UPDATE_CSTATE_INFO
    (u32 (cstate_info cluster ccplex system sys_state_force update_wake_mask)) wake_mask.

Definition ari_update_crossover_time (ari_base type time : Z) : H Z :=
  if (type =? TEGRA_ARI_CROSSOVER_C1_C6) || (TEGRA_ARI_CROSSOVER_CCP3_SC1 <? type) then ret EINVAL
  else ari_clobber_response ari_base ;;; ari_request_wait ari_base 0 TEGRA_ARI_UPDATE_CROSSOVER type time.

Definition ari_read_cstate_stats (ari_base state : Z) : H Z :=
  if state =? 0 then ret EINVAL
  else
    ari_clobber_response ari_base ;;;
    r <- ari_request_wait ari_base 0 TEGRA_ARI_CSTATE_STATS state 0 ;;
    if negb (r =? 0) then ret EINVAL else ari_get_response_low ari_base.

Definition ari_write_cstate_stats (ari_base state stats : Z) : H Z :=
  ari_clobber_response ari_base ;;; ari_request_wait ari_base 0 TEGRA_ARI_WRITE_CSTATE_STATS state stats.

Definition ari_enumeration_misc (ari_base cmd data : Z) : H Z :=
  ari_clobber_response ari_base ;;;
  r <- ari_request_wait ari_base 0 TEGRA_ARI_MISC cmd (if negb (cmd =? TEGRA_ARI_MISC_ECHO) then 0 else data) ;;
  if negb (r =? 0) then ret (u64 r)
  else
    lo <- ari_get_response_low ari_base ;;
    hi <- ari_get_response_high ari_base ;;
    ret (Z.lor lo (Z.shiftl hi 32)).

Definition ari_is_ccx_allowed (ari_base state wake_time : Z) : H Z :=
  ari_clobber_response ari_base ;;;
  r <- ari_request_wait ari_base 0 TEGRA_ARI_IS_CCX_ALLOWED (Z.land state 0x7) wake_time ;;
  if negb (r =? 0) then ret 0 else lo <- ari_get_response_low ari_base ;; ret (Z.land lo 0x1).

Definition ari_is_sc7_allowed (ari_base state wake_time : Z) : H Z :=
  if negb (known_cstate state) then ret EINVAL
  else
    ari_clobber_response ari_base ;;;
    r <- ari_request_wait ari_base 0 TEGRA_ARI_IS_SC7_ALLOWED state wake_time ;;
    if negb (r =? 0) then ret 0
    else lo <- ari_get_response_low ari_base ;; ret (if negb (lo =? 0) then 1 else 0).

Definition ari_online_core (ari_base core : Z) : H Z :=
  let cluster := Z.shiftr (Z.land mpidr MPIDR_CLUSTER_MASK) MPIDR_AFFINITY_BITS in
  let cpu := Z.lor read_cpu (Z.shiftl cluster 2) in
  if (MCE_CORE_ID_MAX <=? core) || (cpu =? core) then ret EINVAL
  else if (read_impl =? DENVER_IMPL) && ((core =? 2) || (core =? 3)) then ret EINVAL
  else ari_clobber_response ari_base ;;; ari_request_wait ari_base 0 TEGRA_ARI_ONLINE_CORE core 0.

Definition cc3_word (freq volt enable : Z) : Z :=
  Z.lor (Z.lor (Z.shiftl (Z.land freq MCE_AUTO_CC3_FREQ_MASK) MCE_AUTO_CC3_FREQ_SHIFT)
               (Z.shiftl (Z.land volt MCE_AUTO_CC3_VTG_MASK) MCE_AUTO_CC3_VTG_SHIFT))
        (if negb (enable =? 0) then MCE_AUTO_CC3_ENABLE_BIT else 0).

Definition ari_cc3_ctrl (ari_base freq volt enable : Z) : H Z :=
  ari_clobber_response ari_base ;;; ari_request_wait ari_base 0 TEGRA_ARI_CC3_CTRL (cc3_word freq volt enable) 0.

Definition ari_reset_vector_update (ari_base : Z) : H Z :=
  ari_clobber_response ari_base ;;;
  _ <- ari_request_wait ari_base 0 TEGRA_ARI_COPY_MISCREG_AA64_RST 0 0 ;; ret 0.
Definition ari_roc_flush_cache_trbits (ari_base : Z) : H Z :=
  ari_clobber_response ari_base ;;; ari_request_wait ari_base 0 TEGRA_ARI_ROC_FLUSH_CACHE_TRBITS 0 0.
Definition ari_roc_flush_cache (ari_base : Z) : H Z :=
  ari_clobber_response ari_base ;;; ari_request_wait ari_base 0 TEGRA_ARI_ROC_FLUSH_CACHE_ONLY 0 0.
Definition ari_roc_clean_cache (ari_base : Z) : H Z :=
  ari_clobber_response ari_base ;;; ari_request_wait ari_base 0 TEGRA_ARI_ROC_CLEAN_CACHE_ONLY 0 0.

(** [data] is never a null pointer; the answer is the result and what it points to then. *)
Definition ari_read_write_mca (ari_base cmd data : Z) : H (Z * Z) :=
  ari_write_32 ari_base (u32 cmd) ARI_RESPONSE_DATA_LO ;;;
  ari_write_32 ari_base (u32 (Z.shiftr cmd 32)) ARI_RESPONSE_DATA_HI ;;;
  r <- ari_request_wait ari_base 0 TEGRA_ARI_MCA (u32 data) (u32 (Z.shiftr data 32)) ;;
  if negb (r =? 0) then ret (0, data)
  else
    resp_lo <- ari_get_response_low ari_base ;;
    resp_hi <- ari_get_response_high ari_base ;;
    if Z.land (Z.shiftr resp_hi MCA_ARG_FINISH_SHIFT) MCA_ARG_FINISH_MASK =? 0
    then ret (Z.land resp_lo MCA_ARG_ERROR_MASK, data)
    else
      lo <- ari_get_request_low ari_base ;;
      hi <- ari_get_request_high ari_base ;;
      ret (0, Z.lor (Z.shiftl hi 32) lo).

Definition ari_update_ccplex_gsc (ari_base gsc_idx : Z) : H Z :=
  if TEGRA_ARI_GSC_VPR_IDX <? gsc_idx then ret EINVAL
  else
    ari_clobber_response ari_base ;;;
    _ <- ari_request_wait ari_base 0 TEGRA_ARI_UPDATE_CCPLEX_GSC gsc_idx 0 ;; ret 0.

Definition ari_enter_ccplex_state (ari_base state_idx : Z) : H unit :=
  ari_clobber_response ari_base ;;;
  _ <- ari_request_wait ari_base 0 TEGRA_ARI_MISC_CCPLEX state_idx 0 ;; ret tt.

Definition ari_read_write_uncore_perfmon (ari_base req data : Z) : H (Z * Z) :=
  let req_cmd := u8 (Z.land req UNCORE_PERFMON_CMD_MASK) in
  ari_clobber_response ari_base ;;;
  let val := if req_cmd =? UNCORE_PERFMON_CMD_WRITE then u32 data else 0 in
  r <- ari_request_wait ari_base 0 TEGRA_ARI_PERFMON val (u32 req) ;;
  if negb (r =? 0) then ret (r, data)
  else
    hi <- ari_get_response_high ari_base ;;
    let req_status := Z.land (u8 hi) UNCORE_PERFMON_RESP_STATUS_MASK in
    if (req_status =? 0) && (req_cmd =? UNCORE_PERFMON_CMD_READ)
    then lo <- ari_get_response_low ari_base ;; ret (req_status, lo)
    else ret (req_status, data).

Definition ari_misc_ccplex (ari_base index value : Z) : H unit :=
  if (TEGRA_ARI_MISC_CCPLEX_EDBGREQ <? index) || ((index =? TEGRA_ARI_MISC_CCPLEX_CORESIGHT_CG_CTRL) && (1 <? value)) then ret tt
  else
    ari_clobber_response ari_base ;;;
    _ <- ari_request_wait ari_base 0 TEGRA_ARI_MISC_CCPLEX index value ;; ret tt.

(** ** Requests through system registers ([nvg.c]) *)

Definition nvg_set_request_data (req data : Z) : H unit := emit (NvgData req data).
Definition nvg_set_request (req : Z) : H unit := emit (NvgRequest req).
Definition nvg_get_result : H Z := observe (fun n => u64 (nvg_answer n)).

Definition nvg_enter_cstate (ari_base state wake_time : Z) : H Z :=
  if negb (known_cstate state) then ret EINVAL
  else
    nvg_set_request_data TEGRA_NVG_CHANNEL_WAKE_TIME wake_time ;;;
    v <- observe actlr ;;
    emit (WriteActlr (Z.lor (Z.land v (u64 (Z.lnot ACTLR_EL1_PMSTATE_MASK))) state)) ;;; ret 0.

Definition nvg_update_cstate_info (ari_base cluster ccplex system sys_state_force wake_mask update_wake_mask : Z) : H Z :=
  let val := cstate_info cluster ccplex system sys_state_force update_wake_mask in
  nvg_set_request_data TEGRA_NVG_CHANNEL_CSTATE_INFO
    (Z.lor (Z.land val CSTATE_WAKE_MASK_CLEAR) (Z.shiftl wake_mask CSTATE_WAKE_MASK_SHIFT)) ;;; ret 0.

Definition nvg_update_crossover_time (ari_base type time : Z) : H Z :=
  if TEGRA_ARI_CROSSOVER_CCP3_SC1 <? type then ret EINVAL
  else nvg_set_request_data (TEGRA_NVG_CHANNEL_CROSSOVER_C1_C6 + type) time ;;; ret 0.

Definition nvg_read_cstate_stats (ari_base state : Z) : H Z :=
  if state =? 0 then ret EINVAL
  else nvg_set_request (TEGRA_NVG_CHANNEL_CSTATE_STATS_CLEAR + state) ;;; nvg_get_result.

Definition nvg_write_cstate_stats (ari_base state stats : Z) : H Z :=
  nvg_set_request_data (TEGRA_NVG_CHANNEL_CSTATE_STATS_CLEAR + state)
    (Z.lor (Z.shiftl stats MCE_CSTATE_STATS_TYPE_SHIFT) state) ;;; ret 0.

Definition nvg_is_ccx_allowed (ari_base state wake_time : Z) : H Z := ret 0.

Definition nvg_is_sc7_allowed (ari_base state wake_time : Z) : H Z :=
  if negb (known_cstate state) then ret EINVAL
  else
    nvg_set_request_data TEGRA_NVG_CHANNEL_IS_SC7_ALLOWED
      (Z.lor (Z.shiftl wake_time MCE_SC7_WAKE_TIME_SHIFT) (Z.land state MCE_SC7_ALLOWED_MASK)) ;;;
    v <- nvg_get_result ;; ret (if negb (v =? 0) then 1 else 0).

Definition nvg_online_core (ari_base core : Z) : H Z :=
  if (MCE_CORE_ID_MAX <=? core) || (read_cpu =? core) then ret EINVAL
  else if (read_impl =? DENVER_IMPL) && ((core =? 2) || (core =? 3)) then ret EINVAL
  else nvg_set_request_data TEGRA_NVG_CHANNEL_ONLINE_CORE (Z.land core MCE_CORE_ID_MASK) ;;; ret 0.

Definition nvg_cc3_ctrl (ari_base freq volt enable : Z) : H Z :=
  nvg_set_request_data TEGRA_NVG_CHANNEL_CC3_CTRL (cc3_word freq volt enable) ;;; ret 0.

(** ** The commands ([mce.c]) *)

Record arch_mce_ops := MceOps {
  enter_cstate : Z -> Z -> Z -> H Z;
  update_cstate_info : Z -> Z -> Z -> Z -> Z -> Z -> Z -> H Z;
  update_crossover_time : Z -> Z -> Z -> H Z;
  read_cstate_stats : Z -> Z -> H Z;
  write_cstate_stats : Z -> Z -> Z -> H Z;
  is_ccx_allowed : Z -> Z -> Z -> H Z;
  is_sc7_allowed : Z -> Z -> Z -> H Z;
  online_core : Z -> Z -> H Z;
  cc3_ctrl : Z -> Z -> Z -> Z -> H Z
}.
(** The operations that both tables share are called by their names. *)
Definition ari_mce_ops : arch_mce_ops :=
  MceOps ari_enter_cstate ari_update_cstate_info ari_update_crossover_time ari_read_cstate_stats ari_write_cstate_stats
         ari_is_ccx_allowed ari_is_sc7_allowed ari_online_core ari_cc3_ctrl.
Definition nvg_mce_ops : arch_mce_ops :=
  MceOps nvg_enter_cstate nvg_update_cstate_info nvg_update_crossover_time nvg_read_cstate_stats nvg_write_cstate_stats
         nvg_is_ccx_allowed nvg_is_sc7_allowed nvg_online_core nvg_cc3_ctrl.

Definition mce_cfg_table : list (Z * arch_mce_ops) :=
  [(TEGRA_MMCRAB_BASE + 0x0, ari_mce_ops); (TEGRA_MMCRAB_BASE + 0x10000, ari_mce_ops);
   (TEGRA_MMCRAB_BASE + 0x20000, ari_mce_ops); (TEGRA_MMCRAB_BASE + 0x30000, ari_mce_ops);
   (TEGRA_MMCRAB_BASE + 0x40000, nvg_mce_ops); (TEGRA_MMCRAB_BASE + 0x50000, nvg_mce_ops)].

Definition curr_cpu_index : nat := Z.to_nat (if read_impl =? DENVER_IMPL then Z.lor read_cpu 0x4 else read_cpu).
Definition mce_get_curr_cpu_ari_base : H Z := c <- deref (mce_cfg_table !! curr_cpu_index) ;; ret c.1.
Definition mce_get_curr_cpu_ops : H arch_mce_ops := c <- deref (mce_cfg_table !! curr_cpu_index) ;; ret c.2.

(** The registers of the normal world that called are a list, [x] of [Spd]. *)
Definition set_x (i : nat) (v : Z) (g : list Z) : list Z := <[i := v]> g.
Definition get_x (i : nat) (g : list Z) : Z := default 0 (g !! i).

(** The answer: the result and the registers. *)
Definition mce_command_handler (cmd arg0 arg1 arg2 : Z) (g : list Z) : H (Z * list Z) :=
  ops <- mce_get_curr_cpu_ops ;;
  base <- mce_get_curr_cpu_ari_base ;;
  if cmd =? MCE_CMD_ENTER_CSTATE then r <- enter_cstate ops base (u32 arg0) (u32 arg1) ;; ret (r, g)
  else if cmd =? MCE_CMD_UPDATE_CSTATE_INFO then
    r <- update_cstate_info ops base (u32 arg0) (u32 arg1) (u32 arg2) (u8 (get_x 4 g)) (u32 (get_x 5 g)) (u8 (get_x 6 g)) ;;
    ret (r, set_x 6 0 (set_x 5 0 (set_x 4 0 g)))
  else if cmd =? MCE_CMD_UPDATE_CROSSOVER_TIME then r <- update_crossover_time ops base (u32 arg0) (u32 arg1) ;; ret (r, g)
  else if cmd =? MCE_CMD_READ_CSTATE_STATS then
    v <- read_cstate_stats ops base (u32 arg0) ;; ret (0, set_x 2 v (set_x 1 v g))
  else if cmd =? MCE_CMD_WRITE_CSTATE_STATS then r <- write_cstate_stats ops base (u32 arg0) (u32 arg1) ;; ret (r, g)
  else if cmd =? MCE_CMD_IS_CCX_ALLOWED then
    r <- is_ccx_allowed ops base (u32 arg0) (u32 arg1) ;; ret (r, set_x 1 (u64 r) g)
  else if cmd =? MCE_CMD_IS_SC7_ALLOWED then
    r <- is_sc7_allowed ops base (u32 arg0) (u32 arg1) ;; ret (r, set_x 3 (u64 r) (set_x 1 (u64 r) g))
  else if cmd =? MCE_CMD_ONLINE_CORE then r <- online_core ops base (u32 arg0) ;; ret (r, g)
  else if cmd =? MCE_CMD_CC3_CTRL then r <- cc3_ctrl ops base (u32 arg0) (u32 arg1) (u8 arg2) ;; ret (r, g)
  else if cmd =? MCE_CMD_ECHO_DATA then
    v <- ari_enumeration_misc base TEGRA_ARI_MISC_ECHO (u32 arg0) ;;
    let m := if v =? arg0 then 1 else 0 in ret (0, set_x 2 m (set_x 1 m g))
  else if cmd =? MCE_CMD_READ_VERSIONS then
    v <- ari_enumeration_misc base TEGRA_ARI_MISC_VERSION (u32 arg0) ;; ret (0, set_x 2 (Z.shiftr v 32) (set_x 1 v g))
  else if cmd =? MCE_CMD_ENUM_FEATURES then
    v <- ari_enumeration_misc base TEGRA_ARI_MISC_FEATURE_LEAF_0 (u32 arg0) ;; ret (0, set_x 1 v g)
  else if cmd =? MCE_CMD_ROC_FLUSH_CACHE_TRBITS then r <- ari_roc_flush_cache_trbits base ;; ret (r, g)
  else if cmd =? MCE_CMD_ROC_FLUSH_CACHE then r <- ari_roc_flush_cache base ;; ret (r, g)
  else if cmd =? MCE_CMD_ROC_CLEAN_CACHE then r <- ari_roc_clean_cache base ;; ret (r, g)
  else if cmd =? MCE_CMD_ENUM_READ_MCA then
    v <- ari_read_write_mca base arg0 arg1 ;; ret (0, set_x 3 v.1 (set_x 2 v.2 (set_x 1 v.1 g)))
  else if cmd =? MCE_CMD_ENUM_WRITE_MCA then
    v <- ari_read_write_mca base arg0 arg1 ;; ret (0, set_x 3 v.1 (set_x 1 v.1 g))
  else if cmd =? MCE_CMD_UNCORE_PERFMON_REQ then
    v <- ari_read_write_uncore_perfmon base arg0 arg1 ;; ret (v.1, set_x 1 v.2 g)
  else if cmd =? MCE_CMD_MISC_CCPLEX then ari_misc_ccplex base (u32 arg0) (u32 arg1) ;;; ret (0, g)
  else ret (EINVAL, g).

Definition mce_update_reset_vector : H Z :=
  base <- mce_get_curr_cpu_ari_base ;; _ <- ari_reset_vector_update base ;; ret 0.
Definition mce_update_ccplex_gsc (gsc_idx : Z) : H Z :=
  base <- mce_get_curr_cpu_ari_base ;; _ <- ari_update_ccplex_gsc base gsc_idx ;; ret 0.
Definition mce_update_gsc_videomem : H Z := mce_update_ccplex_gsc TEGRA_ARI_GSC_VPR_IDX.
Definition mce_update_gsc_tzdram : H Z := mce_update_ccplex_gsc TEGRA_ARI_GSC_TZ_DRAM_IDX.
Definition mce_update_gsc_tzram : H Z := mce_update_ccplex_gsc TEGRA_ARI_GSC_TZRAM.

(** The code waits for ever behind the request: the answer is [None]. *)
Definition mce_enter_ccplex_state (state_idx : Z) : M hw (option unit) :=
  if negb (state_idx =? TEGRA_ARI_MISC_CCPLEX_SHUTDOWN_POWER_OFF) && negb (state_idx =? TEGRA_ARI_MISC_CCPLEX_SHUTDOWN_REBOOT)
  then panic
  else base <- mce_get_curr_cpu_ari_base ;; ari_enter_ccplex_state base state_idx ;;; ret None.

Record mce_cstate_info := CstateInfo {
  ci_cluster : Z; ci_ccplex : Z; ci_system : Z; ci_system_state_force : Z; ci_wake_mask : Z; ci_update_wake_mask : Z
}.
Definition mce_update_cstate_info (cstate : mce_cstate_info) : H unit :=
  ops <- mce_get_curr_cpu_ops ;;
  base <- mce_get_curr_cpu_ari_base ;;
  _ <- update_cstate_info ops base (ci_cluster cstate) (ci_ccplex cstate) (ci_system cstate) (ci_system_state_force cstate)
         (ci_wake_mask cstate) (ci_update_wake_mask cstate) ;;
  ret tt.

Definition mce_verify_firmware_version (simulation : bool) : H unit :=
  if simulation then ret tt
  else
    base <- mce_get_curr_cpu_ari_base ;;
    version <- ari_enumeration_misc base TEGRA_ARI_MISC_VERSION 0 ;;
    let major := u32 version in
    let minor := u32 (Z.shiftr version 32) in
    if negb (major =? TEGRA_ARI_VERSION_MAJOR) then panic
    else if minor <? TEGRA_ARI_VERSION_MINOR then panic
    else ret tt.
End Mce.
End Mce.
