(* ===== verification/MceSpec.v ===== *)
(** * Requests to the processor complex end, and mean the same on both kinds of processors

    Every command of the normal world ends within a bounded time and touches
    its own registers only; the two ways to describe the power states carry
    the same information. *)

From S2P Require Import Prelude Spd Mce.

Module MceSpec.
Import Spd Mce.

(** The longest wait, in microseconds. *)
Definition one_wait : nat := Z.to_nat ARI_MAX_RETRY_COUNT.
#[global] Opaque one_wait.

Section Spec.
Context `{mch : machine}.

(** ** Ending *)

Definition delays (l : list access) : nat := length (filter (fun a => a = Delay 1) l).

(** An access that has to do with the processor complex only: no memory, and no
    register below its own. *)
Definition away (a : access) : Prop :=
  match a with
  | MmioWrite addr _ => TEGRA_MMCRAB_BASE <= addr
  | Zeroed _ _ | Mapped _ _ | Unmapped _ _ => False
  | _ => True
  end.

(** [m] finishes having waited at most [n] times a microsecond and touched the
    processor complex only, or a checked build stops on its assertion. *)
Definition ends {A} (n : nat) (m : H A) : Prop := forall h,
  match m h with
  | Done _ h' => exists l, log h' = l ++ log h /\ (delays l <= n)%nat /\ Forall away l
  | Crash w => w = Panic /\ assertions = true
  end.

Lemma ends_ret {A} n (a : A) : ends n (ret a).
Proof. intros h. exists []. split; [done|split; [cbn; lia|done]]. Qed.
Lemma ends_bind {A B} n k (m : H A) (f : A -> H B) : ends n m -> (forall a, ends k (f a)) -> ends (n + k) (bind m f).
Proof.
  intros Hm Hf h. specialize (Hm h). unfold bind. destruct (m h) as [a h1|]; [|done]. destruct Hm as (l1 & H1 & L1 & A1).
  specialize (Hf a h1). destruct (f a h1) as [b h2|]; [|done]. destruct Hf as (l2 & H2 & L2 & A2).
  exists (l2 ++ l1). split; [by rewrite H2, H1, app_assoc|]. split; [|by apply Forall_app]. unfold delays in *. rewrite filter_app, length_app. lia.
Qed.
Lemma ends_mono {A} n k (m : H A) : ends n m -> (n <= k)%nat -> ends k m.
Proof. intros Hm Hk h. specialize (Hm h). destruct (m h); [|done]. destruct Hm as (l & H1 & H2 & H3). exists l. split_and!; [done|lia|done]. Qed.
Lemma ends_first {A B} n (m : H A) (f : A -> H B) : ends 0 m -> (forall a, ends n (f a)) -> ends n (bind m f).
Proof. apply (ends_bind 0 n). Qed.
Lemma ends_last {A B} n (m : H A) (f : A -> H B) : ends n m -> (forall a, ends 0 (f a)) -> ends n (bind m f).
Proof. intros Hm Hf. eapply ends_mono; [by eapply (ends_bind n 0)|lia]. Qed.
Lemma ends_quiet {A} n (m : H A) : ends 0 m -> ends n m.
Proof. intros Hm. eapply ends_mono; [done|lia]. Qed.
Lemma ends_emit n a : (a = Delay 1 -> 1 <= n)%nat -> away a -> ends n (emit a).
Proof.
  intros Ha Haw h. exists [a]. split; [done|]. split; [|by constructor]. unfold delays. rewrite filter_cons. destruct (decide (a = Delay 1)); cbn; [by apply Ha|lia].
Qed.
Lemma ends_write n addr v : TEGRA_MMCRAB_BASE <= addr -> ends n (mmio_write_32 addr v).
Proof. intros Ha. by apply ends_emit. Qed.
Lemma ends_observe n f : ends n (observe f).
Proof. intros h. exists []. split; [done|split; [cbn; lia|done]]. Qed.

Lemma ends_poll base r : ends r (poll_status base r).
Proof.
  induction r as [|r IH]; cbn [poll_status]; [apply ends_ret|].
  apply ends_first; [apply ends_observe|]. intros v. destruct (_ =? 0); [apply ends_ret|].
  apply (ends_bind 1 r); [by apply ends_emit|done].
Qed.

(** The registers of a processor are among those of the complex. *)
Definition aperture (base : Z) : Prop := TEGRA_MMCRAB_BASE <= base.

Lemma ends_ari_write n base v reg : aperture base -> 0 <= reg -> ends n (ari_write_32 base v reg).
Proof. unfold aperture. intros Hb Hr. apply ends_write. lia. Qed.

Lemma ends_wait base evt req lo hi : aperture base -> ends one_wait (ari_request_wait base evt req lo hi).
Proof.
  intros Hb. unfold ari_request_wait. repeat (apply ends_first; [by apply ends_ari_write|intros _]).
  destruct (negb _); [apply ends_ret|]. destruct (_ && _); [apply ends_ret|].
  apply ends_last; [apply ends_poll|]. intros k. apply ends_first; [|intros; apply ends_ret].
  destruct (bool_decide _); [|apply ends_ret]. unfold check. destruct assertions eqn:Ea; [|apply ends_ret]. by intros h.
Qed.

Lemma ends_clobber n base : aperture base -> ends n (ari_clobber_response base).
Proof. intros Hb. apply ends_first; [by apply ends_ari_write|]. intros _. by apply ends_ari_write. Qed.
End Spec.

#[local] Opaque ari_request_wait ari_clobber_response ari_write_32 mmio_write_32 observe emit bind ret.
Create HintDb ends.
#[export] Hint Resolve ends_ret ends_observe ends_wait ends_clobber : ends.

(** A routine that waits at most once. *)
Ltac solve_ends :=
  repeat first
    [ solve [auto with ends]
    | by apply ends_emit
    | by apply ends_ari_write
    | match goal with |- ends _ (if ?b then _ else _) => destruct b end
    | apply ends_first; [solve [solve_ends]|intros ?]
    | apply ends_last; [|solve [intros ?; solve_ends]] ].

Section Spec2.
Context `{mch : machine}.

(** ** Commands *)

(** The operations of a table, each with at most one wait. *)
Record ops_end (o : arch_mce_ops) : Prop := {
  oe_1 b x y : aperture b -> ends one_wait (enter_cstate o b x y);
  oe_2 b c p s f w u : aperture b -> ends one_wait (update_cstate_info o b c p s f w u);
  oe_3 b x y : aperture b -> ends one_wait (update_crossover_time o b x y);
  oe_4 b x : aperture b -> ends one_wait (read_cstate_stats o b x);
  oe_5 b x y : aperture b -> ends one_wait (write_cstate_stats o b x y);
  oe_6 b x y : aperture b -> ends one_wait (is_ccx_allowed o b x y);
  oe_7 b x y : aperture b -> ends one_wait (is_sc7_allowed o b x y);
  oe_8 b x : aperture b -> ends one_wait (online_core o b x);
  oe_9 b x y z : aperture b -> ends one_wait (cc3_ctrl o b x y z)
}.

Lemma ari_ops_end : ops_end ari_mce_ops.
Proof.
  split; intros; cbn [ari_mce_ops enter_cstate update_cstate_info update_crossover_time read_cstate_stats write_cstate_stats is_ccx_allowed is_sc7_allowed online_core cc3_ctrl];
    unfold ari_enter_cstate, ari_update_cstate_info, ari_update_crossover_time, ari_read_cstate_stats, ari_write_cstate_stats, ari_is_ccx_allowed,
      ari_is_sc7_allowed, ari_online_core, ari_cc3_ctrl, ari_get_response_low, ari_read_32, mmio_read_32; cbv zeta; solve_ends.
Qed.

Lemma nvg_ops_end : ops_end nvg_mce_ops.
Proof.
  split; intros; apply ends_quiet; cbn [nvg_mce_ops enter_cstate update_cstate_info update_crossover_time read_cstate_stats write_cstate_stats is_ccx_allowed is_sc7_allowed online_core cc3_ctrl];
    unfold nvg_enter_cstate, nvg_update_cstate_info, nvg_update_crossover_time, nvg_read_cstate_stats, nvg_write_cstate_stats, nvg_is_ccx_allowed,
      nvg_is_sc7_allowed, nvg_online_core, nvg_cc3_ctrl, nvg_set_request_data, nvg_set_request, nvg_get_result; cbv zeta; solve_ends.
Qed.

Lemma ari_misc_end b c d : aperture b -> ends one_wait (ari_enumeration_misc b c d).
Proof. intros Hb. unfold ari_enumeration_misc, ari_get_response_low, ari_get_response_high, ari_read_32, mmio_read_32. solve_ends. Qed.
Lemma ari_mca_end b c d : aperture b -> ends one_wait (ari_read_write_mca b c d).
Proof.
  intros Hb. unfold ari_read_write_mca, ari_get_response_low, ari_get_response_high, ari_get_request_low, ari_get_request_high, ari_read_32, mmio_read_32.
  cbv zeta. solve_ends.
Qed.
Lemma ari_perfmon_end b c d : aperture b -> ends one_wait (ari_read_write_uncore_perfmon b c d).
Proof.
  intros Hb. unfold ari_read_write_uncore_perfmon, ari_get_response_low, ari_get_response_high, ari_read_32, mmio_read_32. cbv zeta. solve_ends.
Qed.
Lemma ari_misc_ccplex_end b i v : aperture b -> ends one_wait (ari_misc_ccplex b i v).
Proof. intros Hb. unfold ari_misc_ccplex. solve_ends. Qed.
Lemma ari_roc_end b : aperture b -> ends one_wait (ari_roc_flush_cache_trbits b) /\ ends one_wait (ari_roc_flush_cache b) /\ ends one_wait (ari_roc_clean_cache b).
Proof. intros Hb. unfold ari_roc_flush_cache_trbits, ari_roc_flush_cache, ari_roc_clean_cache. split_and!; solve_ends. Qed.

Lemma ari_gsc_end b i : aperture b -> ends one_wait (ari_update_ccplex_gsc b i).
Proof. intros Hb. unfold ari_update_ccplex_gsc. solve_ends. Qed.

(** On the six processors that the table knows. *)
Definition known_cpu : Prop := (curr_cpu_index < 6)%nat.

Lemma cfg_table_lookup : known_cpu -> exists base o, mce_cfg_table !! curr_cpu_index = Some (base, o) /\ ops_end o /\ aperture base.
Proof.
  unfold known_cpu. intros H. destruct (lookup_lt_is_Some_2 mce_cfg_table curr_cpu_index) as [[base o] Ho]; [done|].
  exists base, o. split; [done|]. apply list_elem_of_lookup_2 in Ho. unfold mce_cfg_table in Ho. rewrite !elem_of_cons, elem_of_nil in Ho.
  destruct_or? Ho; try done; simplify_eq; (split; [first [exact ari_ops_end | exact nvg_ops_end]|unfold aperture, TEGRA_MMCRAB_BASE; lia]).
Qed.

Lemma cfg_table_get h base o : mce_cfg_table !! curr_cpu_index = Some (base, o) ->
  mce_get_curr_cpu_ops h = Done o h /\ mce_get_curr_cpu_ari_base h = Done base h.
Proof. intros Ho. unfold mce_get_curr_cpu_ops, mce_get_curr_cpu_ari_base. by rewrite Ho. Qed.

Lemma mce_gsc_end i : known_cpu -> ends one_wait (mce_update_ccplex_gsc i).
Proof.
  intros Hk. destruct (cfg_table_lookup Hk) as (base & o & Ho & _ & Hb). intros h. destruct (cfg_table_get h base o Ho) as [_ G]. unfold mce_update_ccplex_gsc.
  rewrite (bind_done _ _ _ _ _ G). clear G. revert h. change (ends one_wait (_ <- ari_update_ccplex_gsc base i ;; ret 0)).
  apply ends_last; [by apply ari_gsc_end|]. intros. apply ends_ret.
Qed.

(** Registers of the caller that a command leaves alone: all but x1 to x6. *)
Definition frame (g g' : list Z) : Prop := length g' = length g /\ forall i, (i = 0 \/ 6 < i)%nat -> g' !! i = g !! i.

Lemma frame_refl g : frame g g.
Proof. done. Qed.
Lemma frame_set g g' i v : (1 <= i <= 6)%nat -> frame g g' -> frame g (set_x i v g').
Proof.
  intros Hi [Hl Hf]. split; [by unfold set_x; rewrite length_insert|]. intros j Hj. unfold set_x. rewrite list_lookup_insert_ne by lia. by apply Hf.
Qed.

(** [m] ends with at most one wait, and answers registers that differ in x1 to x6 only. *)
Definition serves (g : list Z) (m : H (Z * list Z)) : Prop := forall h,
  match m h with
  | Done a h' => frame g a.2 /\ exists l, log h' = l ++ log h /\ (delays l <= one_wait)%nat /\ Forall away l
  | Crash w => w = Panic /\ assertions = true
  end.

Lemma serves_bind {A} g (m : H A) (f : A -> Z * list Z) : ends one_wait m -> (forall a, frame g (f a).2) -> serves g (bind m (fun a => ret (f a))).
Proof. intros Hm Hf h. specialize (Hm h). Transparent bind ret. unfold bind, ret. destruct (m h); [|done]. by split. Qed.

Lemma serves_ret g r : serves g (ret (r, g)).
Proof. intros h. unfold ret. split; [apply frame_refl|]. exists []. split; [done|split; [cbn; lia|done]]. Qed.

Lemma mce_command_serves cmd arg0 arg1 arg2 g : known_cpu -> serves g (mce_command_handler cmd arg0 arg1 arg2 g).
Proof.
  intros Hk. destruct (cfg_table_lookup Hk) as (base & o & Ho & He & Hb).
  intros h0. destruct (cfg_table_get h0 base o Ho) as [G1 G2]. unfold mce_command_handler.
    rewrite (bind_done _ _ _ _ _ G1), (bind_done _ _ _ _ _ G2). clear G1 G2. revert h0. pose proof (ari_roc_end base Hb) as (R1 & R2 & R3).
    repeat match goal with |- context [if ?b then _ else _] => destruct b end;
      first [apply serves_ret
            |apply serves_bind; [first [by apply He | by apply ari_misc_end | by apply ari_mca_end | by apply ari_perfmon_end | by apply ari_misc_ccplex_end | done]
                                |intros a; cbn [snd]; repeat (apply frame_set; [lia|]); apply frame_refl]].
Qed.

(** C23: On the processors that the table knows, every command of the normal
    world, with any arguments and whatever the hardware answers, ends after
    waiting at most two million microseconds; only x1 to x6 of the caller change; nothing but the
    assertion on a request that was not answered in time, in a build that checks it, stops
    the machine; and a command that does not exist has no effect. *)
Theorem mce_command_handler_ends cmd arg0 arg1 arg2 g h : known_cpu ->
  match mce_command_handler cmd arg0 arg1 arg2 g h with
  | Done (r, g') h' =>
      frame g g' /\ exists l, log h' = l ++ log h /\ Z.of_nat (delays l) <= 2000000 /\
      (~ (0 <= cmd <= 15 \/ cmd = 17 \/ cmd = 18 \/ cmd = 254) -> r = EINVAL /\ g' = g /\ l = [])
  | Crash w => w = Panic /\ assertions = true
  end.
Proof.
  intros Hk. destruct (cfg_table_lookup Hk) as (base & o & Ho & He & Hb).
  pose proof (mce_command_serves cmd arg0 arg1 arg2 g Hk) as Hs.
  specialize (Hs h). destruct (mce_command_handler _ _ _ _ _ h) as [[r g'] h'|] eqn:Ecmd; [|done].
  destruct Hs as [Hf (l & Hl & Hd & _)]. split; [done|]. exists l. split_and!; [done| |].
  - Transparent one_wait. unfold one_wait, ARI_MAX_RETRY_COUNT in Hd. lia.
  - intros Hun. destruct (cfg_table_get h base o Ho) as [G1 G2]. unfold mce_command_handler in Ecmd.
    rewrite (bind_done _ _ _ _ _ G1), (bind_done _ _ _ _ _ G2) in Ecmd.
    rewrite !(proj2 (Z.eqb_neq cmd _)) in Ecmd by (vm_compute; intros ->; apply Hun; lia).
    unfold ret in Ecmd. simplify_eq. split_and!; [done..|]. by apply (app_inv_tail (log h')).
Qed.

(** ** The power states *)

(** Reading a word of [cstate_info] back: the states of the cluster, of the
    complex and of the system (with its flag), and whether the wake mask is meant. *)
Definition decode_info (w : Z) : option Z * option Z * option (Z * bool) * bool :=
  (if Z.testbit w 7 then Some (Z.land w (Z.ones 3)) else None,
   if Z.testbit w 15 then Some (Z.land (Z.shiftr w 8) (Z.ones 2)) else None,
   if Z.testbit w 23 then Some (Z.land (Z.shiftr w 16) (Z.ones 4), Z.testbit w 22) else None,
   Z.testbit w 31).

Definition present {A} (z : Z) (a : A) : option A := if z =? 0 then None else Some a.

Lemma testbit_pow2 k n : 0 <= k -> Z.testbit (Z.shiftl 1 k) n = (n =? k).
Proof. intros Hk. rewrite Z.shiftl_1_l, Z.pow2_bits_eqb by done. by rewrite Z.eqb_sym. Qed.

Lemma testbit_masked z k n : 0 <= k -> 0 <= n -> Z.testbit (Z.land z (Z.ones k)) n = Z.testbit z n && (n <? k).
Proof. intros Hk Hn. by rewrite Z.land_spec, Z.testbit_ones_nonneg. Qed.

Lemma cstate_bit cluster ccplex system force uwm n : 0 <= n ->
  Z.testbit (cstate_info cluster ccplex system force uwm) n =
    negb (cluster =? 0) && (Z.testbit cluster n && (n <? 3) || (n =? 7)) ||
    negb (ccplex =? 0) && ((8 <=? n) && Z.testbit ccplex (n - 8) && (n - 8 <? 2) || (n =? 15)) ||
    negb (system =? 0) && ((16 <=? n) && Z.testbit system (n - 16) && (n - 16 <? 4) || (22 <=? n) && Z.testbit force (n - 22) || (n =? 23)) ||
    negb (uwm =? 0) && (n =? 31).
Proof.
  intros Hn. unfold cstate_info. rewrite !Z.lor_spec. f_equal; [f_equal; [f_equal|]|].
  - destruct (cluster =? 0); cbn [negb andb]; [by rewrite Z.testbit_0_l|]. rewrite Z.lor_spec. unfold CLUSTER_CSTATE_UPDATE_BIT.
    rewrite testbit_pow2 by lia. by rewrite (testbit_masked _ 3).
  - destruct (ccplex =? 0); cbn [negb andb]; [by rewrite Z.testbit_0_l|]. rewrite Z.lor_spec. unfold CCPLEX_CSTATE_UPDATE_BIT, CCPLEX_CSTATE_SHIFT.
    rewrite testbit_pow2 by lia. f_equal. rewrite Z.shiftl_spec by done. destruct (Z.leb_spec 8 n); [|by rewrite Z.testbit_neg_r by lia].
    by rewrite (testbit_masked _ 2) by lia.
  - destruct (system =? 0); cbn [negb andb]; [by rewrite Z.testbit_0_l|]. rewrite !Z.lor_spec.
    unfold SYSTEM_CSTATE_UPDATE_BIT, SYSTEM_CSTATE_SHIFT, SYSTEM_CSTATE_FORCE_UPDATE_SHIFT.
    rewrite testbit_pow2, orb_assoc by lia. f_equal. rewrite !Z.shiftl_spec by done. f_equal.
    + destruct (Z.leb_spec 16 n); [|by rewrite Z.testbit_neg_r by lia]. by rewrite (testbit_masked _ 4) by lia.
    + destruct (Z.leb_spec 22 n); [done|]. by rewrite Z.testbit_neg_r by lia.
  - destruct (uwm =? 0); cbn [negb andb]; [by rewrite Z.testbit_0_l|]. by apply testbit_pow2.
Qed.

(** A field of the word, read bit by bit. *)
Lemma field_eq w z at_ k : 0 <= k -> 0 <= at_ -> (forall n, 0 <= n < k -> Z.testbit w (n + at_) = Z.testbit z n) ->
  Z.land (Z.shiftr w at_) (Z.ones k) = Z.land z (Z.ones k).
Proof.
  intros Hk Ha Hb. apply Z.bits_inj'. intros n Hn. rewrite !testbit_masked, Z.shiftr_spec by done.
  destruct (Z.ltb_spec n k); [|by rewrite !andb_false_r]. by rewrite Hb.
Qed.

Ltac decide_comparisons :=
  repeat match goal with
  | |- context [?a <? ?b] => first [rewrite (proj2 (Z.ltb_lt a b)) by lia | rewrite (proj2 (Z.ltb_ge a b)) by lia]
  | |- context [?a <=? ?b] => first [rewrite (proj2 (Z.leb_le a b)) by lia | rewrite (proj2 (Z.leb_gt a b)) by lia]
  | |- context [?a =? ?b] => first [rewrite (proj2 (Z.eqb_eq a b)) by lia | rewrite (proj2 (Z.eqb_neq a b)) by lia]
  end;
  cbn [andb orb negb]; rewrite ?andb_false_r, ?orb_false_r, ?andb_true_r, ?orb_true_r; cbn [andb orb negb].

Lemma cstate_decode cluster ccplex system force uwm : 0 <= force < 256 ->
  decode_info (cstate_info cluster ccplex system force uwm) =
    (present cluster (Z.land cluster (Z.ones 3)), present ccplex (Z.land ccplex (Z.ones 2)),
     present system (Z.land system (Z.ones 4), Z.odd force), negb (uwm =? 0)).
Proof.
  intros Hf. assert (Hhi : Z.testbit force (31 - 22) = false) by (apply (Z.bounded_iff_bits_nonneg 8); lia).
  unfold decode_info, present. rewrite !(cstate_bit _ _ _ _ _ 7), !(cstate_bit _ _ _ _ _ 15), !(cstate_bit _ _ _ _ _ 23), !(cstate_bit _ _ _ _ _ 31), !(cstate_bit _ _ _ _ _ 22) by done.
  rewrite Hhi. rewrite <- (Z.shiftr_0_r (cstate_info cluster ccplex system force uwm)) at 1.
  destruct (cluster =? 0) eqn:E1, (ccplex =? 0) eqn:E2, (system =? 0) eqn:E3, (uwm =? 0) eqn:E4;
    cbn [andb orb negb]; decide_comparisons; rewrite ?Z.bit0_odd;
    repeat match goal with |- (_, _) = (_, _) => f_equal end; try done; try f_equal; try (f_equal; done);
    first [apply field_eq | (f_equal; apply field_eq)]; try done;
    intros n Hn; rewrite cstate_bit, ?E1, ?E2, ?E3, ?E4, ?Z.add_0_r, ?Z.add_simpl_r by lia; cbn [andb orb negb]; decide_comparisons; done.
Qed.

Lemma cstate_info_range cluster ccplex system force uwm : 0 <= force < 256 -> 0 <= cstate_info cluster ccplex system force uwm < 2 ^ 32.
Proof.
  intros Hf. assert (H0 : 0 <= cstate_info cluster ccplex system force uwm).
  { unfold cstate_info, CLUSTER_CSTATE_MASK, CCPLEX_CSTATE_MASK, SYSTEM_CSTATE_MASK. rewrite !Z.lor_nonneg.
    split_and!; repeat case_match; rewrite ?Z.lor_nonneg, ?Z.shiftl_nonneg, ?Z.land_nonneg; try done; split_and?; try done; try (right; done); lia. }
  split; [done|]. apply (Z.bounded_iff_bits_nonneg 32); [done..|]. intros n Hn. rewrite cstate_bit by lia.
  assert (Z.testbit force (n - 22) = false) as -> by (apply (Z.bounded_iff_bits_nonneg 8); lia).
  decide_comparisons. done.
Qed.

Transparent ari_request_wait ari_clobber_response ari_write_32 mmio_write_32 observe emit bind ret.

Lemma poll_log b r : forall h, exists k n, poll_status b r h = Done k (Hw n (replicate (r - k) (Delay 1) ++ log h)) /\ (k <= r)%nat.
Proof.
  induction r as [|r IH]; intros h; cbn [poll_status]; [exists O, (nreads h); by destruct h|].
  unfold bind at 1, ari_read_32, mmio_read_32, observe. cbv beta iota. destruct (_ =? 0).
  - exists (S r), (S (nreads h)). rewrite Nat.sub_diag. by destruct h.
  - unfold bind at 1, emit, modify. cbn [nreads log]. destruct (IH (Hw (S (nreads h)) (Delay 1 :: log h))) as (k & n & Hk & Hle). rewrite Hk. cbn [log].
    exists k, n. split; [|lia]. rewrite Nat.sub_succ_l by done. cbn [replicate]. by rewrite replicate_cons_app, <- app_assoc.
Qed.

(** The request as the hardware sees it. *)
Definition request (b evt req lo hi : Z) : list access :=
  [MmioWrite (b + ARI_REQUEST) (u32 (Z.lor req ARI_REQUEST_VALID_BIT)); MmioWrite (b + ARI_REQUEST_EVENT_MASK) (u32 evt);
   MmioWrite (b + ARI_REQUEST_DATA_HI) (u32 hi); MmioWrite (b + ARI_REQUEST_DATA_LO) (u32 lo)].

Lemma request_log b evt req lo hi h :
  match ari_request_wait b evt req lo hi h with
  | Done r h' => r = 0 /\ exists k, log h' = replicate k (Delay 1) ++ request b evt req lo hi ++ log h
  | Crash w => w = Panic /\ assertions = true
  end.
Proof.
  unfold ari_request_wait. cbn -[poll_status ARI_MAX_RETRY_COUNT Z.to_nat Z.eqb]. destruct (negb _); [by split; [|exists O]|]. destruct (_ && _); [by split; [|exists O]|].
  unfold bind at 1. match goal with |- context [poll_status b ?r ?h0] => destruct (poll_log b r h0) as (k & n & Hk & _); rewrite Hk; set (j := (r - k)%nat) end. clearbody j.
  destruct (bool_decide _); unfold check; [destruct assertions|]; cbn; try (by split); split; try done; by exists j.
Qed.

(** C24: An A57 processor and a Denver processor that are asked for the same power
    states tell the hardware the same word, the one in two registers and
    the other in the low half of one, with the same wake mask beside it; and from the word the states
    that were asked for are read back, and which of them were not to change. *)
Theorem cstate_info_agree b cluster ccplex system force wm uwm h : 0 <= force < 256 -> 0 <= wm < 2 ^ 32 ->
  let w := cstate_info cluster ccplex system force uwm in
  (exists data, nvg_update_cstate_info b cluster ccplex system force wm uwm h = Done 0 (Hw (nreads h) (NvgData TEGRA_NVG_CHANNEL_CSTATE_INFO data :: log h)) /\
     data mod 2 ^ 32 = w /\ Z.shiftr data 32 = wm) /\
  match ari_update_cstate_info b cluster ccplex system force wm uwm h with
  | Done r h' => r = 0 /\ exists k clobber, log h' = replicate k (Delay 1) ++ request b 0 TEGRA_ARI_UPDATE_CSTATE_INFO w wm ++ clobber ++ log h
  | Crash w => w = Panic /\ assertions = true
  end /\
  decode_info w = (present cluster (Z.land cluster (Z.ones 3)), present ccplex (Z.land ccplex (Z.ones 2)),
                   present system (Z.land system (Z.ones 4), Z.odd force), negb (uwm =? 0)).
Proof.
  intros Hf Hwm w. pose proof (cstate_info_range cluster ccplex system force uwm Hf) as Hwr. fold w in Hwr. split_and!.
  - eexists. split; [reflexivity|]. fold w. unfold CSTATE_WAKE_MASK_CLEAR, CSTATE_WAKE_MASK_SHIFT. change 0xFFFFFFFF with (Z.ones 32).
    assert (Z.land w (Z.ones 32) = w) as -> by (rewrite Z.land_ones by lia; by apply Z.mod_small). split.
    + rewrite <- Z.land_ones, Z.land_lor_distr_l, !Z.land_ones by lia. rewrite (Z.mod_small w) by lia.
      rewrite Z.shiftl_mul_pow2, Z.mod_mul by lia. by rewrite Z.lor_0_r.
    + rewrite Z.shiftr_lor, Z.shiftr_shiftl_l by lia. rewrite (Z.shiftr_div_pow2 w), Z.div_small by lia. cbn. by rewrite Z.shiftl_0_r.
  - unfold ari_update_cstate_info. fold w. unfold bind at 1. cbn [ari_clobber_response].
    match goal with |- match ?m with _ => _ end => change m with (ari_request_wait b 0 TEGRA_ARI_UPDATE_CSTATE_INFO (u32 w) wm
      (Hw (nreads h) ([MmioWrite (b + ARI_RESPONSE_DATA_HI) 0; MmioWrite (b + ARI_RESPONSE_DATA_LO) 0] ++ log h))) end.
    match goal with |- context [ari_request_wait ?a1 ?a2 ?a3 ?a4 ?a5 ?a6] => pose proof (request_log a1 a2 a3 a4 a5 a6) as Hr; destruct (ari_request_wait a1 a2 a3 a4 a5 a6) end; [|done].
    destruct Hr as [-> [k Hk]]. split; [done|]. exists k, [MmioWrite (b + ARI_RESPONSE_DATA_HI) 0; MmioWrite (b + ARI_RESPONSE_DATA_LO) 0].
    rewrite Hk. assert (u32 w = w) as -> by (by apply Z.mod_small). done.
  - by apply cstate_decode.
Qed.
End Spec2.

(** ** Concrete processors *)

(** The first A57 core and the first Denver core, with hardware that answers at once. *)
Definition a57 : machine := Machine (fun _ _ => 0) (fun _ => 1) (fun _ => 0x10) 0x80000000 0x411FD073 false.
Definition denver : machine := Machine (fun _ _ => 0) (fun _ => 1) (fun _ => 0x10) 0x80000100 0x4E0F0030 false.
Definition idle : hw := Hw 0 [].

Lemma mce_command_handler_ends_witness : @known_cpu a57 /\
  match @mce_command_handler a57 MCE_CMD_ONLINE_CORE 3 0 0 (replicate 31 0) idle with
  | Done (r, g') h' => frame (replicate 31 0) g'
  | Crash w => False
  end.
Proof.
  assert (@known_cpu a57) as Hk by (vm_compute; lia). split; [exact Hk|].
  pose proof (@mce_command_handler_ends a57 MCE_CMD_ONLINE_CORE 3 0 0 (replicate 31 0) idle Hk) as He.
  destruct (@mce_command_handler a57 MCE_CMD_ONLINE_CORE 3 0 0 (replicate 31 0) idle) as [[r g'] h'|]; [exact (proj1 He)|].
  destruct He as [_ Ha]. discriminate Ha.
Defined.

Lemma cstate_info_agree_witness : exists data,
  @nvg_update_cstate_info 0 6 1 7 1 0xFF 1 idle = Done 0 (Hw 0 [NvgData 4 data]) /\
  data mod 2 ^ 32 = cstate_info 6 1 7 1 1 /\ decode_info (cstate_info 6 1 7 1 1) = (Some 6, Some 1, Some (7, true), true).
Proof.
  destruct (@cstate_info_agree a57 0 6 1 7 1 0xFF 1 idle) as ((data & H1 & H2 & _) & _ & H3); [lia|lia|].
  exists data. split; [exact H1|]. split; [exact H2|]. rewrite H3. vm_compute. reflexivity.
Defined.

(** The A57 request is in the log in full; the response registers are cleared first. *)
Example online_core_log :
  option_map log (match @mce_command_handler a57 MCE_CMD_ONLINE_CORE 3 0 0 (replicate 31 0) idle with Done _ h => Some h | Crash _ => None end) =
  Some (request TEGRA_MMCRAB_BASE 0 TEGRA_ARI_ONLINE_CORE 3 0 ++ [MmioWrite (TEGRA_MMCRAB_BASE + 0x18) 0; MmioWrite (TEGRA_MMCRAB_BASE + 0x14) 0]).
Proof. vm_compute. reflexivity. Qed.

(** The threshold with the largest type goes to the channel that clears the
    statistics, not to its own. *)
Example crossover_clears_stats :
  @nvg_update_crossover_time 0 TEGRA_ARI_CROSSOVER_CCP3_SC1 5 idle = Done 0 (Hw 0 [NvgData TEGRA_NVG_CHANNEL_CSTATE_STATS_CLEAR 5]).
Proof. reflexivity. Qed.

(** No bound on the kind of statistics: the normal world reaches the channel
    that brings a core online through the command that writes statistics. *)
Example stats_online_core :
  @mce_command_handler denver MCE_CMD_WRITE_CSTATE_STATS 31 0 0 (replicate 31 0) idle =
    Done (0, replicate 31 0) (Hw 0 [NvgData TEGRA_NVG_CHANNEL_ONLINE_CORE 31]).
Proof. reflexivity. Qed.

(** The command for clock gating and debug requests also takes the indices that switch the machine off. *)
Example command_powers_off :
  exists n l, @mce_command_handler a57 MCE_CMD_MISC_CCPLEX TEGRA_ARI_MISC_CCPLEX_SHUTDOWN_POWER_OFF 0 0 (replicate 31 0) idle =
    Done (0, replicate 31 0) (Hw n (request TEGRA_MMCRAB_BASE 0 TEGRA_ARI_MISC_CCPLEX TEGRA_ARI_MISC_CCPLEX_SHUTDOWN_POWER_OFF 0 ++ l)).
Proof. vm_compute. do 2 eexists. reflexivity. Qed.
End MceSpec.
