(* ===== verification/Carveout.v ===== *)
(** * The protected video memory and the carveouts of the firmware

    [plat/nvidia/tegra/common/drivers/memctrl/memctrl_v2.c] and
    [bl31_check_ns_address] of [tegra_bl31_setup.c], with
    [plat_memctrl_tzdram_setup] of [soc/t186/plat_memctrl.c]: registers of the
    memory controller keep ranges of DRAM from the processors.  The range for protected
    video may be moved by the normal world, and what leaves it is cleared first. *)

From S2P Require Import Prelude Spd Mce.

Module Carveout.
Import Mce.

(** ** Numbers ([tegra_def.h], [platform_t186.mk], [platform_def.h], [errno.h]) *)

Definition EFAULT : Z := 14.
Definition ENOTSUP : Z := 45.
Definition TZDRAM_BASE : Z := 0x30000000.
Definition TZDRAM_SIZE : Z := 0x00400000.
Definition TEGRA_DRAM_BASE : Z := 0x80000000.
Definition TEGRA_DRAM_END : Z := 0x27FFFFFFF.
Definition TEGRA_MC_BASE : Z := 0x02C10000.
Definition TEGRA_SCRATCH_BASE : Z := 0x0C390000.
Definition MC_GSC_CONFIG_REGS_SIZE : Z := 0x40.
Definition MC_GSC_LOCK_CFG_SETTINGS_BIT : Z := Z.shiftl 1 1.
Definition MC_GSC_ENABLE_TZ_LOCK_BIT : Z := Z.shiftl 1 0.
Definition MC_GSC_SIZE_RANGE_4KB_SHIFT : Z := 27.
Definition MC_GSC_BASE_HI_MASK : Z := 3.
Definition MC_GSC_ENABLE_CPU_SECURE_BIT : Z := Z.shiftl 1 31.
Definition MC_SECURITY_CFG0_0 : Z := 0x70.
Definition MC_SECURITY_CFG1_0 : Z := 0x74.
Definition MC_SECURITY_CFG3_0 : Z := 0x9BC.
Definition MC_SECURITY_BOM_MASK : Z := Z.shiftl 0xFFF 20.
Definition MC_SECURITY_SIZE_MB_MASK : Z := 0x1FFF.
Definition MC_SECURITY_BOM_HI_MASK : Z := 0x3.
Definition MC_VIDEO_PROTECT_BASE_HI : Z := 0x978.
Definition MC_VIDEO_PROTECT_BASE_LO : Z := 0x648.
Definition MC_VIDEO_PROTECT_SIZE_MB : Z := 0x64C.
Definition MC_VIDEO_PROTECT_CLEAR_CFG : Z := 0x25A0.
Definition MC_VIDEO_PROTECT_CLEAR_BASE_LO : Z := 0x25A4.
Definition MC_VIDEO_PROTECT_CLEAR_BASE_HI : Z := 0x25A8.
Definition MC_VIDEO_PROTECT_CLEAR_SIZE : Z := 0x25AC.
Definition MC_VIDEO_PROTECT_CLEAR_ACCESS_CFG0 : Z := 0x25B0.
Definition MC_TZRAM_CARVEOUT_CFG : Z := 0x2190.
Definition MC_TZRAM_BASE_LO : Z := 0x2194.
Definition MC_TZRAM_BASE_HI : Z := 0x2198.
Definition MC_TZRAM_SIZE : Z := 0x219C.
Definition MC_TZRAM_CLIENT_ACCESS0_CFG0 : Z := 0x21A0.
Definition MC_TZRAM_CLIENT_ACCESS1_CFG0 : Z := 0x21A4.
Definition TZRAM_ALLOW_MPCORER : Z := Z.shiftl 1 7.
Definition TZRAM_ALLOW_MPCOREW : Z := Z.shiftl 1 25.
Definition SCRATCH_TZDRAM_ADDR_LO : Z := 0x808.
Definition SCRATCH_TZDRAM_ADDR_HI : Z := 0x80C.
Definition SECURE_SCRATCH_RSV68_LO : Z := 0x870.
Definition SECURE_SCRATCH_RSV0_HI : Z := 0x654.

(** ** State: the hardware and the live values of the video memory range *)

Record mc := Mc { mc_hw : hw; video_mem_base : Z; video_mem_size_mb : Z }.
Definition V (A : Type) : Type := M mc A.
Definition in_hw {A} (m : H A) : V A := fun s =>
  match m (mc_hw s) with Done a h => Done a (Mc h (video_mem_base s) (video_mem_size_mb s)) | Crash w => Crash w end.

(** What [mmap_add_dynamic_region] answers, from what happened before; where
    the firmware lies; whether the chip is a T186. *)
Class platform := Platform {
  mmap_add : list access -> Z -> Z -> Z;
  bl31_phys_base : Z;
  chipid_is_t186 : bool
}.

Definition tegra_mc_write_32 (off val : Z) : H unit := mmio_write_32 (TEGRA_MC_BASE + off) val.

Section Carveout.
Context `{mch : machine} `{plt : platform}.

Definition tegra_mc_read_32 (off : Z) : H Z := mmio_read_32 (TEGRA_MC_BASE + off).

Definition bl31_check_ns_address (base size_in_bytes : Z) : Z :=
  let end_ := u64 (base + size_in_bytes - 1) in
  let tzdram_end := TZDRAM_BASE + TZDRAM_SIZE in
  let r := if (base <? TEGRA_DRAM_BASE) || (TEGRA_DRAM_END <=? base) || (TEGRA_DRAM_END <? end_) then - EFAULT else 0 in
  if (base <? end_) && ((tzdram_end <? base) || (end_ <? bl31_phys_base)) then r else - ENOTSUP.

(** The loops that clear configuration registers: [fuel] is the number of words
    of a set of them, which no loop exceeds. *)
Definition gsc_words : nat := Z.to_nat (MC_GSC_CONFIG_REGS_SIZE / 4).
Fixpoint clear_registers (fuel : nat) (index end_ : Z) : H unit :=
  match fuel with
  | O => ret tt
  | S fuel => if index <? end_ then tegra_mc_write_32 index 0 ;;; clear_registers fuel (index + 4) end_ else ret tt
  end.

(** The register for the size of a carveout: blocks of 128 KB and of 4 KB. *)
Definition gsc_size (size_in_bytes : Z) : Z :=
  let total_128kb_blocks := Z.shiftr size_in_bytes 17 in
  let residual_4kb_blocks := Z.shiftr (Z.land size_in_bytes 0x1FFFF) 12 in
  u32 (Z.lor (Z.shiftl residual_4kb_blocks MC_GSC_SIZE_RANGE_4KB_SHIFT) total_128kb_blocks).

Definition tegra_lock_videomem_nonoverlap (phys_base size_in_bytes : Z) : H unit :=
  clear_registers gsc_words MC_VIDEO_PROTECT_CLEAR_ACCESS_CFG0 (MC_VIDEO_PROTECT_CLEAR_ACCESS_CFG0 + MC_GSC_CONFIG_REGS_SIZE) ;;;
  check (Z.land phys_base 0xFFF =? 0) ;;;
  tegra_mc_write_32 MC_VIDEO_PROTECT_CLEAR_BASE_LO (u32 phys_base) ;;;
  tegra_mc_write_32 MC_VIDEO_PROTECT_CLEAR_BASE_HI (Z.land (u32 (Z.shiftr phys_base 32)) MC_GSC_BASE_HI_MASK) ;;;
  tegra_mc_write_32 MC_VIDEO_PROTECT_CLEAR_SIZE (gsc_size size_in_bytes) ;;;
  tegra_mc_write_32 MC_VIDEO_PROTECT_CLEAR_CFG MC_GSC_ENABLE_TZ_LOCK_BIT.

Definition tegra_unlock_videomem_nonoverlap : H unit :=
  tegra_mc_write_32 MC_VIDEO_PROTECT_CLEAR_BASE_LO 0 ;;;
  tegra_mc_write_32 MC_VIDEO_PROTECT_CLEAR_BASE_HI 0 ;;;
  tegra_mc_write_32 MC_VIDEO_PROTECT_CLEAR_SIZE 0.

(** Memory that was not mapped cannot be cleared. *)
Definition tegra_clear_videomem (non_overlap_area_start non_overlap_area_size : Z) : H unit :=
  h <- get ;;
  let r := mmap_add (log h) non_overlap_area_start non_overlap_area_size in
  check (r =? 0) ;;;
  if negb (r =? 0) then bad_access
  else
    emit (Mapped non_overlap_area_start non_overlap_area_size) ;;;
    emit (Zeroed non_overlap_area_start non_overlap_area_size) ;;;
    emit (Unmapped non_overlap_area_start non_overlap_area_size).

Definition tegra_clear_videomem_nonoverlap (phys_base size_in_bytes : Z) : V unit :=
  s <- get ;;
  let base := video_mem_base s in
  let vmem_end_old := u64 (base + u64 (Z.shiftl (video_mem_size_mb s) 20)) in
  let vmem_end_new := u64 (phys_base + size_in_bytes) in
  if (vmem_end_old <? phys_base) || (vmem_end_new <? base) then
    in_hw (tegra_clear_videomem base (u32 (Z.shiftl (u32 (video_mem_size_mb s)) 20)))
  else
    (if base <? phys_base then in_hw (tegra_clear_videomem base (u32 (phys_base - base))) else ret tt) ;;;
    (if vmem_end_new <? vmem_end_old then in_hw (tegra_clear_videomem vmem_end_new (u32 (vmem_end_old - vmem_end_new))) else ret tt).

Definition tegra_memctrl_videomem_setup (phys_base size_in_bytes : Z) : V unit :=
  s <- get ;;
  (if negb (video_mem_base s =? 0) then
     in_hw (tegra_lock_videomem_nonoverlap (video_mem_base s) (u64 (Z.shiftl (video_mem_size_mb s) 20))) ;;;
     tegra_clear_videomem_nonoverlap phys_base size_in_bytes
   else ret tt) ;;;
  in_hw (tegra_mc_write_32 MC_VIDEO_PROTECT_BASE_LO (u32 phys_base)) ;;;
  in_hw (tegra_mc_write_32 MC_VIDEO_PROTECT_BASE_HI (u32 (Z.shiftr phys_base 32))) ;;;
  in_hw (tegra_mc_write_32 MC_VIDEO_PROTECT_SIZE_MB (Z.shiftr size_in_bytes 20)) ;;;
  modify (fun s => Mc (mc_hw s) phys_base (Z.shiftr size_in_bytes 20)) ;;;
  _ <- in_hw mce_update_gsc_videomem ;;
  in_hw tegra_unlock_videomem_nonoverlap.

(** The end of [tegra_memctrl_restore_settings]. *)
Definition restore_videomem : V unit :=
  s <- get ;;
  if negb (video_mem_base s =? 0) then
    in_hw (tegra_mc_write_32 MC_VIDEO_PROTECT_BASE_LO (u32 (video_mem_base s))) ;;;
    in_hw (tegra_mc_write_32 MC_VIDEO_PROTECT_BASE_HI (u32 (Z.shiftr (video_mem_base s) 32))) ;;;
    in_hw (tegra_mc_write_32 MC_VIDEO_PROTECT_SIZE_MB (u32 (video_mem_size_mb s))) ;;;
    _ <- in_hw mce_update_gsc_videomem ;; ret tt
  else ret tt.

Definition tegra_memctrl_tzram_setup (phys_base size_in_bytes : Z) : H unit :=
  clear_registers gsc_words MC_TZRAM_CLIENT_ACCESS0_CFG0 (MC_TZRAM_CARVEOUT_CFG + MC_GSC_CONFIG_REGS_SIZE) ;;;
  (if negb chipid_is_t186 then
     v <- tegra_mc_read_32 MC_TZRAM_CLIENT_ACCESS1_CFG0 ;;
     tegra_mc_write_32 MC_TZRAM_CLIENT_ACCESS1_CFG0 (Z.lor v (Z.lor TZRAM_ALLOW_MPCORER TZRAM_ALLOW_MPCOREW))
   else ret tt) ;;;
  check (Z.land phys_base 0xFFF =? 0) ;;;
  tegra_mc_write_32 MC_TZRAM_BASE_LO (u32 phys_base) ;;;
  tegra_mc_write_32 MC_TZRAM_BASE_HI (Z.land (u32 (Z.shiftr phys_base 32)) MC_GSC_BASE_HI_MASK) ;;;
  tegra_mc_write_32 MC_TZRAM_SIZE (gsc_size size_in_bytes) ;;;
  v <- tegra_mc_read_32 MC_TZRAM_CARVEOUT_CFG ;;
  let v := Z.lor (Z.land v (u32 (Z.lnot MC_GSC_ENABLE_TZ_LOCK_BIT))) MC_GSC_LOCK_CFG_SETTINGS_BIT in
  tegra_mc_write_32 MC_TZRAM_CARVEOUT_CFG (if negb chipid_is_t186 then Z.lor v MC_GSC_ENABLE_CPU_SECURE_BIT else v) ;;;
  _ <- mce_update_gsc_tzram ;; ret tt.

(** [tzdram_base]: from the boot loader; [rw_end]: where the firmware ends;
    [reset_handler_size]: of the code that starts a processor. *)
Definition plat_memctrl_tzdram_setup (tzdram_base rw_end reset_handler_size phys_base size_in_bytes : Z) : H unit :=
  let src_len_in_bytes := u64 (rw_end - bl31_phys_base) in
  let src_base_tzdram := u64 (tzdram_base + reset_handler_size) in
  tegra_mc_write_32 MC_SECURITY_CFG0_0 (u32 phys_base) ;;;
  tegra_mc_write_32 MC_SECURITY_CFG3_0 (u32 (Z.shiftr phys_base 32)) ;;;
  tegra_mc_write_32 MC_SECURITY_CFG1_0 (Z.shiftr size_in_bytes 20) ;;;
  cfg1 <- tegra_mc_read_32 MC_SECURITY_CFG1_0 ;;
  cfg0 <- tegra_mc_read_32 MC_SECURITY_CFG0_0 ;;
  mmio_write_32 (TEGRA_SCRATCH_BASE + SCRATCH_TZDRAM_ADDR_LO)
    (Z.lor (Z.land cfg1 MC_SECURITY_SIZE_MB_MASK) (Z.land cfg0 MC_SECURITY_BOM_MASK)) ;;;
  cfg3 <- tegra_mc_read_32 MC_SECURITY_CFG3_0 ;;
  mmio_write_32 (TEGRA_SCRATCH_BASE + SCRATCH_TZDRAM_ADDR_HI) (Z.land cfg3 MC_SECURITY_BOM_HI_MASK) ;;;
  mmio_write_32 (TEGRA_SCRATCH_BASE + SECURE_SCRATCH_RSV68_LO) (u32 src_base_tzdram) ;;;
  mmio_write_32 (TEGRA_SCRATCH_BASE + SECURE_SCRATCH_RSV0_HI) (u32 src_len_in_bytes) ;;;
  _ <- mce_update_gsc_tzdram ;; ret tt.
End Carveout.
End Carveout.
