(* ===== verification/CarveoutSpec.v ===== *)
(** * What was protected is cleared before it is given up

    The registers of the memory controller as the accesses leave them, what
    they protect, and the proof that a move of the video memory clears
    exactly what it gives up, while every part of it that still holds protected data stays protected. *)

From S2P Require Import Prelude Spd Mce MceSpec Carveout.

Module CarveoutSpec.
Import Mce MceSpec Carveout.

(** ** Histories

    The accesses of the firmware and the stores of the protected engine, newest first. *)
Inductive ev := Fw (a : access) | Secret (addr : Z).
Definition hist (l : list access) (h : list ev) : list ev := map Fw l ++ h.

(** What a register of the memory controller holds; nothing was programmed at the reset. *)
Fixpoint reg (off : Z) (h : list ev) : Z :=
  match h with
  | [] => 0
  | Fw (MmioWrite a v) :: h => if a =? TEGRA_MC_BASE + off then v else reg off h
  | _ :: h => reg off h
  end.

(** The protected video memory, and the carveout that is locked while it moves. *)
Definition in_range (base size a : Z) : bool := (base <=? a) && (a <? base + size).
Definition in_vpr (h : list ev) (a : Z) : bool :=
  in_range (reg MC_VIDEO_PROTECT_BASE_LO h + reg MC_VIDEO_PROTECT_BASE_HI h * 2 ^ 32) (reg MC_VIDEO_PROTECT_SIZE_MB h * 2 ^ 20) a.
Definition in_clear (h : list ev) (a : Z) : bool :=
  in_range (reg MC_VIDEO_PROTECT_CLEAR_BASE_LO h + Z.land (reg MC_VIDEO_PROTECT_CLEAR_BASE_HI h) MC_GSC_BASE_HI_MASK * 2 ^ 32)
    (Z.land (reg MC_VIDEO_PROTECT_CLEAR_SIZE h) (Z.ones MC_GSC_SIZE_RANGE_4KB_SHIFT) * 2 ^ 17 +
     Z.shiftr (reg MC_VIDEO_PROTECT_CLEAR_SIZE h) MC_GSC_SIZE_RANGE_4KB_SHIFT * 2 ^ 12) a.
Definition protected (h : list ev) (a : Z) : bool := in_vpr h a || in_clear h a.

(** The engine stored at [a], and nothing was cleared there since. *)
Fixpoint tainted (h : list ev) (a : Z) : bool :=
  match h with
  | [] => false
  | Secret b :: h => (a =? b) || tainted h a
  | Fw (Zeroed b size) :: h => tainted h a && negb (in_range b size a)
  | _ :: h => tainted h a
  end.

(** At every moment of the history, protected data lies in protected memory. *)
Fixpoint safe (h : list ev) : Prop :=
  match h with
  | [] => True
  | e :: h' => safe h' /\ forall a, tainted h a = true -> protected h a = true
  end.

Definition cleared (l : list access) (a : Z) : bool :=
  existsb (fun e => match e with Zeroed b size => in_range b size a | _ => false end) l.

(** Lists without clearings. *)
Lemma cleared_nothing l : Forall (fun e => match e with Zeroed _ _ => False | _ => True end) l -> forall a, cleared l a = false.
Proof. intros Hl a. induction Hl as [|e l He _ IH]; [done|]. unfold cleared in *. cbn [existsb]. rewrite IH. by destruct e. Qed.

Lemma hist_app l1 l2 h : hist (l1 ++ l2) h = hist l1 (hist l2 h).
Proof. unfold hist. by rewrite map_app, app_assoc. Qed.

Lemma tainted_hist l h a : tainted (hist l h) a = tainted h a && negb (cleared l a).
Proof.
  induction l as [|e l IH]; cbn [hist map app tainted]; [by rewrite andb_true_r|]. fold (hist l h).
  unfold cleared in *. cbn [existsb]. destruct e; rewrite IH; try done. rewrite negb_orb, (andb_comm (negb _)), andb_assoc. done.
Qed.

Lemma safe_hist_app (V : Z -> Prop) l h : safe h -> (forall a, tainted h a = true -> V a) ->
  (forall l1 l2, l = l2 ++ l1 -> forall a, V a -> protected (hist l1 h) a = true) -> safe (hist l h).
Proof.
  intros Hs Hv. induction l as [|e l IH]; intros Hp; [done|]. cbn [hist map app safe]. fold (hist l h). split.
  - apply IH. intros l1 l2 ->. by apply (Hp l1 (e :: l2)).
  - intros a Ha. apply (Hp (e :: l) []); [done|]. apply Hv. change (Fw e :: hist l h) with (hist (e :: l) h) in Ha.
    rewrite tainted_hist in Ha. by apply andb_prop in Ha as [? _].
Qed.

Definition keeps (off : Z) (a : access) : Prop := match a with MmioWrite addr _ => addr <> TEGRA_MC_BASE + off | _ => True end.

Lemma reg_keeps off l h : Forall (keeps off) l -> reg off (hist l h) = reg off h.
Proof.
  induction 1 as [|e l He _ IH]; [done|]. cbn [hist map app reg]. fold (hist l h). destruct e; try done.
  cbn in He. by rewrite (proj2 (Z.eqb_neq _ _) He).
Qed.

Definition keeps_vpr (a : access) : Prop :=
  keeps MC_VIDEO_PROTECT_BASE_LO a /\ keeps MC_VIDEO_PROTECT_BASE_HI a /\ keeps MC_VIDEO_PROTECT_SIZE_MB a.
Definition keeps_clear (a : access) : Prop :=
  keeps MC_VIDEO_PROTECT_CLEAR_BASE_LO a /\ keeps MC_VIDEO_PROTECT_CLEAR_BASE_HI a /\ keeps MC_VIDEO_PROTECT_CLEAR_SIZE a.

Lemma vpr_keeps l h : Forall keeps_vpr l ->
  reg MC_VIDEO_PROTECT_BASE_LO (hist l h) = reg MC_VIDEO_PROTECT_BASE_LO h /\
  reg MC_VIDEO_PROTECT_BASE_HI (hist l h) = reg MC_VIDEO_PROTECT_BASE_HI h /\
  reg MC_VIDEO_PROTECT_SIZE_MB (hist l h) = reg MC_VIDEO_PROTECT_SIZE_MB h.
Proof. intros Hl. split_and!; apply reg_keeps; (eapply Forall_impl; [exact Hl|]); intros a Ha; apply Ha. Qed.
Lemma clear_keeps l h : Forall keeps_clear l ->
  reg MC_VIDEO_PROTECT_CLEAR_BASE_LO (hist l h) = reg MC_VIDEO_PROTECT_CLEAR_BASE_LO h /\
  reg MC_VIDEO_PROTECT_CLEAR_BASE_HI (hist l h) = reg MC_VIDEO_PROTECT_CLEAR_BASE_HI h /\
  reg MC_VIDEO_PROTECT_CLEAR_SIZE (hist l h) = reg MC_VIDEO_PROTECT_CLEAR_SIZE h.
Proof. intros Hl. split_and!; apply reg_keeps; (eapply Forall_impl; [exact Hl|]); intros a Ha; apply Ha. Qed.

Lemma in_vpr_keeps l h a : Forall keeps_vpr l -> in_vpr (hist l h) a = in_vpr h a.
Proof. intros Hl. unfold in_vpr. by destruct (vpr_keeps l h Hl) as (-> & -> & ->). Qed.
Lemma in_clear_keeps l h a : Forall keeps_clear l -> in_clear (hist l h) a = in_clear h a.
Proof. intros Hl. unfold in_clear. by destruct (clear_keeps l h Hl) as (-> & -> & ->). Qed.

(** While the one range covers what must not be seen, the other may change. *)
Lemma safe_under_vpr l h : safe h -> (forall a, tainted h a = true -> in_vpr h a = true) -> Forall keeps_vpr l -> safe (hist l h).
Proof.
  intros Hs Ht Hl. apply (safe_hist_app (fun a => in_vpr h a = true)); [done..|]. intros l1 l2 -> a Ha.
  apply Forall_app in Hl as [_ Hl]. unfold protected. by rewrite in_vpr_keeps, Ha.
Qed.
Lemma safe_under_clear l h : safe h -> (forall a, tainted h a = true -> in_clear h a = true) -> Forall keeps_clear l -> safe (hist l h).
Proof.
  intros Hs Ht Hl. apply (safe_hist_app (fun a => in_clear h a = true)); [done..|]. intros l1 l2 -> a Ha.
  apply Forall_app in Hl as [_ Hl]. unfold protected. by rewrite in_clear_keeps, Ha, orb_true_r.
Qed.
Lemma safe_without_taint l h : safe h -> (forall a, tainted h a = false) -> safe (hist l h).
Proof. intros Hs Ht. apply (safe_hist_app (fun _ => False)); [done| |done]. intros a Ha. by rewrite Ht in Ha. Qed.

(** Accesses to the processor complex change neither range. *)
Lemma away_keeps off a : 0 <= off < 0x10000 -> away a -> keeps off a.
Proof. intros Ho. destruct a; cbn; try done. unfold TEGRA_MMCRAB_BASE, TEGRA_MC_BASE. lia. Qed.
Lemma away_keeps_all l : Forall away l -> Forall keeps_vpr l /\ Forall keeps_clear l /\ (forall a, cleared l a = false).
Proof.
  intros Hl. split_and!; [eapply Forall_impl; [exact Hl|]; intros e He; split_and!; by apply away_keeps..|].
  apply cleared_nothing. eapply Forall_impl; [exact Hl|]. by intros [].
Qed.

Section Setup.
Context `{mch : machine} `{plt : platform}.

(** ** The pieces of a move *)

(** A range that the calls accept for video memory. *)
Definition valid_region (base size : Z) : Prop :=
  TEGRA_DRAM_BASE <= base /\ base + size - 1 <= TEGRA_DRAM_END /\ 0 < size < 2 ^ 32 /\ (2 ^ 20 | base) /\ (2 ^ 20 | size).

(** Why a move can stop the machine: a mapping that could not be made, or an
    assertion of a build that checks them. *)
Definition stopped : Prop := (exists l base size, mmap_add l base size <> 0) \/ assertions = true.

(** An access that is no store to a register of either range. *)
Definition keeps_both (a : access) : Prop := keeps_vpr a /\ keeps_clear a.

Lemma keeps_both_split l : Forall keeps_both l -> Forall keeps_vpr l /\ Forall keeps_clear l.
Proof. intros Hl. split; (eapply Forall_impl; [exact Hl|]); intros a Ha; apply Ha. Qed.

Lemma clear_registers_log fuel : forall i e h, exists l,
  clear_registers fuel i e h = Done tt (Hw (nreads h) (l ++ log h)) /\
  Forall (fun a => exists k, i <= k < e /\ a = MmioWrite (TEGRA_MC_BASE + k) 0) l.
Proof.
  induction fuel as [|fuel IH]; intros i e h; cbn [clear_registers]; [exists []; split; [by destruct h|done]|].
  destruct (Z.ltb_spec i e); [|exists []; split; [by destruct h|done]].
  unfold bind, tegra_mc_write_32, mmio_write_32, emit, modify. destruct (IH (i + 4) e (Hw (nreads h) (MmioWrite (TEGRA_MC_BASE + i) (u32 0) :: log h))) as (l & -> & Hl).
  exists (l ++ [MmioWrite (TEGRA_MC_BASE + i) 0]). split; [by rewrite <- app_assoc|]. apply Forall_app. split.
  - eapply Forall_impl; [exact Hl|]. intros a (k & Hk & ->). exists k. split; [lia|done].
  - constructor; [|done]. exists i. split; [lia|done].
Qed.

(** The stores that lock the range that moves. *)
Definition lock_stores (base size : Z) : list access :=
  [MmioWrite (TEGRA_MC_BASE + MC_VIDEO_PROTECT_CLEAR_CFG) (u32 MC_GSC_ENABLE_TZ_LOCK_BIT);
   MmioWrite (TEGRA_MC_BASE + MC_VIDEO_PROTECT_CLEAR_SIZE) (u32 (gsc_size size));
   MmioWrite (TEGRA_MC_BASE + MC_VIDEO_PROTECT_CLEAR_BASE_HI) (u32 (Z.land (u32 (Z.shiftr base 32)) MC_GSC_BASE_HI_MASK));
   MmioWrite (TEGRA_MC_BASE + MC_VIDEO_PROTECT_CLEAR_BASE_LO) (u32 (u32 base))].

Lemma lock_run base size h : Z.land base 0xFFF = 0 -> exists l,
  tegra_lock_videomem_nonoverlap base size h = Done tt (Hw (nreads h) (lock_stores base size ++ l ++ log h)) /\ Forall keeps_both l /\
  forall a, cleared l a = false.
Proof.
  intros Hb. destruct (clear_registers_log gsc_words MC_VIDEO_PROTECT_CLEAR_ACCESS_CFG0 (MC_VIDEO_PROTECT_CLEAR_ACCESS_CFG0 + MC_GSC_CONFIG_REGS_SIZE) h) as (l & Hrun & Hl).
  exists l. split_and!.
  - unfold tegra_lock_videomem_nonoverlap. rewrite (bind_done _ _ _ _ _ Hrun). rewrite Hb. cbn [Z.eqb].
    unfold bind at 1, check. by destruct assertions.
  - eapply Forall_impl; [exact Hl|]. intros a (k & Hk & ->).
    unfold keeps_both, keeps_vpr, keeps_clear, keeps, MC_VIDEO_PROTECT_CLEAR_ACCESS_CFG0, MC_GSC_CONFIG_REGS_SIZE, MC_VIDEO_PROTECT_BASE_LO,
      MC_VIDEO_PROTECT_BASE_HI, MC_VIDEO_PROTECT_SIZE_MB, MC_VIDEO_PROTECT_CLEAR_BASE_LO, MC_VIDEO_PROTECT_CLEAR_BASE_HI, MC_VIDEO_PROTECT_CLEAR_SIZE in *.
    lia.
  - apply cleared_nothing. eapply Forall_impl; [exact Hl|]. by intros a (k & _ & ->).
Qed.

Lemma clear_run base size h :
  match tegra_clear_videomem base size h with
  | Done _ h' => h' = Hw (nreads h) ([Unmapped base size; Zeroed base size; Mapped base size] ++ log h)
  | Crash _ => stopped
  end.
Proof.
  unfold tegra_clear_videomem, bind at 1, get. unfold bind at 1, check.
  destruct (Z.eqb_spec (mmap_add (log h) base size) 0) as [E|E]; cbn [negb]; [destruct assertions; by destruct h|].
  destruct assertions eqn:Ea; cbn; [by right|]. left. by do 3 eexists.
Qed.

(** What a run of cleaning does to the history: no register changes, and [f] says what is cleared. *)
Definition clears (m : V unit) (f : Z -> bool) (s : mc) : Prop :=
  match m s with
  | Done _ s' => video_mem_base s' = video_mem_base s /\ video_mem_size_mb s' = video_mem_size_mb s /\
      exists l, log (mc_hw s') = l ++ log (mc_hw s) /\ Forall keeps_both l /\ forall a, cleared l a = f a
  | Crash _ => stopped
  end.

Lemma clears_range base size s : clears (in_hw (tegra_clear_videomem base size)) (in_range base size) s.
Proof.
  unfold clears, in_hw. pose proof (clear_run base size (mc_hw s)) as Hc. destruct (tegra_clear_videomem base size (mc_hw s)) as [[] h'|]; [|done]. subst.
  split; [done|]. split; [done|]. exists [Unmapped base size; Zeroed base size; Mapped base size]. split; [done|]. split; [by repeat constructor|].
  intros a. unfold cleared. cbn. by rewrite orb_false_r.
Qed.
Lemma clears_none s : clears (ret tt) (fun _ => false) s.
Proof. split; [done|]. split; [done|]. by exists []. Qed.
Lemma clears_seq m1 m2 f1 f2 s : clears m1 f1 s -> (forall s', clears m2 f2 s') -> clears (m1 ;;; m2) (fun a => f2 a || f1 a) s.
Proof.
  intros H1 H2. unfold clears, bind in *. destruct (m1 s) as [[] s1|]; [|done]. specialize (H2 s1). destruct (m2 s1) as [[] s2|]; [|done].
  destruct H1 as (B1 & S1 & l1 & L1 & K1 & C1), H2 as (B2 & S2 & l2 & L2 & K2 & C2). split_and!; [congruence..|].
  exists (l2 ++ l1). split_and!; [by rewrite L2, L1, app_assoc|by apply Forall_app|].
  intros a. unfold cleared in *. rewrite existsb_app. by rewrite C1, C2.
Qed.
Lemma clears_ext m f g s : clears m f s -> (forall a, f a = g a) -> clears m g s.
Proof.
  intros Hc Hfg. unfold clears in *. destruct (m s) as [[] s'|]; [|done]. destruct Hc as (? & ? & l & ? & ? & Hl). split_and!; [done..|].
  exists l. split_and!; [done..|]. intros a. by rewrite Hl.
Qed.

Lemma in_range_spec base size a : in_range base size a = true <-> base <= a < base + size.
Proof. unfold in_range. rewrite andb_true_iff, Z.leb_le, Z.ltb_lt. done. Qed.

(** The cleaning covers exactly the part of the old range outside the new one. *)
Lemma nonoverlap_clears_at b0 m0 base size s : valid_region base size -> valid_region b0 (m0 * 2 ^ 20) ->
  clears
    (if (u64 (b0 + u64 (Z.shiftl m0 20)) <? base) || (u64 (base + size) <? b0)
     then in_hw (tegra_clear_videomem b0 (u32 (Z.shiftl (u32 m0) 20)))
     else (if b0 <? base then in_hw (tegra_clear_videomem b0 (u32 (base - b0))) else ret tt) ;;;
          (if u64 (base + size) <? u64 (b0 + u64 (Z.shiftl m0 20))
           then in_hw (tegra_clear_videomem (u64 (base + size)) (u32 (u64 (b0 + u64 (Z.shiftl m0 20)) - u64 (base + size)))) else ret tt))
    (fun a => in_range b0 (m0 * 2 ^ 20) a && negb (in_range base size a)) s.
Proof.
  intros (V1 & V2 & V3 & _ & _) (U1 & U2 & U3 & _ & _). unfold TEGRA_DRAM_BASE, TEGRA_DRAM_END in *.
  rewrite (Z.shiftl_mul_pow2 m0) by done. assert (0 < m0 < 2 ^ 12) by lia.
  assert (u32 m0 = m0) as -> by (apply Z.mod_small; lia). rewrite (Z.shiftl_mul_pow2 m0) by done.
  assert (u64 (m0 * 2 ^ 20) = m0 * 2 ^ 20) as -> by (apply Z.mod_small; lia).
  assert (u32 (m0 * 2 ^ 20) = m0 * 2 ^ 20) as -> by (apply Z.mod_small; lia).
  assert (u64 (b0 + m0 * 2 ^ 20) = b0 + m0 * 2 ^ 20) as -> by (apply Z.mod_small; lia).
  assert (u64 (base + size) = base + size) as -> by (apply Z.mod_small; lia).
  set (z := m0 * 2 ^ 20) in *. clearbody z.
  destruct (orb _ _) eqn:E1.
  { eapply clears_ext; [apply clears_range|]. intros a. destruct (in_range b0 z a) eqn:E; [|done].
    cbn. symmetry. apply negb_true_iff, not_true_is_false. rewrite in_range_spec in *. apply orb_prop in E1 as [E1|E1]; apply Z.ltb_lt in E1; lia. }
  apply orb_false_iff in E1 as [E1 E2]. apply Z.ltb_ge in E1, E2.
  eapply clears_ext.
  - apply (clears_seq _ _ (if b0 <? base then in_range b0 (base - b0) else fun _ => false) (if base + size <? b0 + z then in_range (base + size) (b0 + z - (base + size)) else fun _ => false)).
    + destruct (Z.ltb_spec b0 base); [|apply clears_none]. assert (u32 (base - b0) = base - b0) as -> by (apply Z.mod_small; lia). apply clears_range.
    + intros s'. destruct (Z.ltb_spec (base + size) (b0 + z)); [|apply clears_none].
      assert (u32 (b0 + z - (base + size)) = b0 + z - (base + size)) as -> by (apply Z.mod_small; lia). apply clears_range.
  - intros a. apply eq_true_iff_eq. rewrite orb_true_iff, andb_true_iff, negb_true_iff, <- not_true_iff_false, !in_range_spec.
    destruct (Z.ltb_spec b0 base), (Z.ltb_spec (base + size) (b0 + z)); rewrite ?in_range_spec; intuition (try lia; try discriminate).
Qed.

Lemma nonoverlap_clears base size s : valid_region base size -> valid_region (video_mem_base s) (video_mem_size_mb s * 2 ^ 20) ->
  clears (tegra_clear_videomem_nonoverlap base size)
    (fun a => in_range (video_mem_base s) (video_mem_size_mb s * 2 ^ 20) a && negb (in_range base size a)) s.
Proof. intros Hn Ho. exact (nonoverlap_clears_at (video_mem_base s) (video_mem_size_mb s) base size s Hn Ho). Qed.

(** ** A whole move *)

Definition vm_ok (s : mc) : Prop :=
  (video_mem_base s = 0 /\ video_mem_size_mb s = 0) \/ valid_region (video_mem_base s) (video_mem_size_mb s * 2 ^ 20).

(** The live values are those of the registers, and no range is locked. *)
Record vm_inv (s : mc) (h : list ev) : Prop := {
  vi_safe : safe h;
  vi_ok : vm_ok s;
  vi_base : reg MC_VIDEO_PROTECT_BASE_LO h + reg MC_VIDEO_PROTECT_BASE_HI h * 2 ^ 32 = video_mem_base s;
  vi_mb : reg MC_VIDEO_PROTECT_SIZE_MB h = video_mem_size_mb s;
  vi_lo : reg MC_VIDEO_PROTECT_CLEAR_BASE_LO h = 0;
  vi_hi : reg MC_VIDEO_PROTECT_CLEAR_BASE_HI h = 0;
  vi_size : reg MC_VIDEO_PROTECT_CLEAR_SIZE h = 0
}.

Definition old_range (s : mc) (a : Z) : bool := in_range (video_mem_base s) (video_mem_size_mb s * 2 ^ 20) a.

Lemma in_range_empty base a : in_range base 0 a = false.
Proof. apply not_true_is_false. rewrite in_range_spec. lia. Qed.

Lemma vm_inv_vpr s h a : vm_inv s h -> in_vpr h a = old_range s a.
Proof. intros Hi. unfold in_vpr, old_range. by rewrite (vi_base _ _ Hi), (vi_mb _ _ Hi). Qed.
Lemma vm_inv_clear s h a : vm_inv s h -> in_clear h a = false.
Proof. intros Hi. unfold in_clear. rewrite (vi_lo _ _ Hi), (vi_hi _ _ Hi), (vi_size _ _ Hi). apply in_range_empty. Qed.

Lemma safe_protected h a : safe h -> tainted h a = true -> protected h a = true.
Proof. destruct h as [|e h]; [done|]. intros [_ Hs]. apply Hs. Qed.

Lemma vm_inv_tainted s h a : vm_inv s h -> tainted h a = true -> old_range s a = true.
Proof.
  intros Hi Ht. pose proof (safe_protected h a (vi_safe _ _ Hi) Ht) as Hp. unfold protected in Hp.
  by rewrite (vm_inv_vpr s), (vm_inv_clear s), orb_false_r in Hp.
Qed.

(** An address in two registers. *)
Lemma addr_split a : 0 <= a < 2 ^ 64 -> u32 (u32 a) + u32 (u32 (Z.shiftr a 32)) * 2 ^ 32 = a.
Proof.
  intros Ha. rewrite Z.shiftr_div_pow2 by done. unfold u32, uwrap. rewrite !Z.mod_mod by done.
  rewrite (Z.mod_small (a / 2 ^ 32)) by (split; [apply Z.div_pos; lia|apply Z.div_lt_upper_bound; lia]).
  pose proof (Z.div_mod a (2 ^ 32)). lia.
Qed.

Lemma gsc_size_mb m : 0 <= m < 2 ^ 12 ->
  let v := u32 (gsc_size (m * 2 ^ 20)) in
  Z.land v (Z.ones MC_GSC_SIZE_RANGE_4KB_SHIFT) * 2 ^ 17 + Z.shiftr v MC_GSC_SIZE_RANGE_4KB_SHIFT * 2 ^ 12 = m * 2 ^ 20.
Proof.
  intros Hm. assert (gsc_size (m * 2 ^ 20) = m * 2 ^ 3) as ->.
  { unfold gsc_size. change 0x1FFFF with (Z.ones 17). rewrite Z.land_ones by done.
    replace (m * 2 ^ 20) with (m * 2 ^ 3 * 2 ^ 17) by lia. rewrite Z.mod_mul by done. rewrite Z.shiftr_0_l, Z.shiftl_0_l, Z.lor_0_l.
    rewrite Z.shiftr_div_pow2, Z.div_mul by done. apply Z.mod_small. lia. }
  cbv zeta. unfold u32, uwrap, MC_GSC_SIZE_RANGE_4KB_SHIFT. rewrite (Z.mod_small (m * 2 ^ 3)) by lia.
  rewrite Z.land_ones, Z.shiftr_div_pow2 by done. rewrite Z.mod_small, Z.div_small by lia. lia.
Qed.

(** The locked range is the one that moves. *)
Lemma lock_covers base m l h a : 0 <= base < 2 ^ 34 -> 0 <= m < 2 ^ 12 -> Forall keeps_clear l ->
  in_clear (hist l (hist (lock_stores base (m * 2 ^ 20)) h)) a = in_range base (m * 2 ^ 20) a.
Proof.
  intros Hb Hm Hl. rewrite in_clear_keeps by done. unfold in_clear. cbn [lock_stores hist map app reg]. cbn [TEGRA_MC_BASE].
  change (?x + ?y =? ?x + ?z) with (y =? z).
  rewrite !(proj2 (Z.eqb_neq _ _)) by (vm_compute; discriminate). rewrite !Z.eqb_refl. f_equal; [|by apply gsc_size_mb].
  rewrite Z.shiftr_div_pow2 by done. assert (0 <= base / 2 ^ 32 < 4) by (split; [apply Z.div_pos; lia|apply Z.div_lt_upper_bound; lia]).
  change MC_GSC_BASE_HI_MASK with (Z.ones 2). rewrite !Z.land_ones by done. unfold u32, uwrap.
  rewrite (Z.mod_small (base / 2 ^ 32) (2 ^ 32)), !(Z.mod_small (base / 2 ^ 32)) by lia. rewrite Z.mod_mod by done.
  pose proof (Z.div_mod base (2 ^ 32)). lia.
Qed.

(** [m] extends the log by stores and clearings after which [Q] holds of the new state and of what was added. *)
Definition extends {A} (m : V A) (s : mc) (Q : mc -> list access -> Prop) : Prop :=
  match m s with
  | Done _ s' => exists l, log (mc_hw s') = l ++ log (mc_hw s) /\ Q s' l
  | Crash _ => stopped
  end.

Lemma extends_bind {A B} (m : V A) (f : A -> V B) s Q Q' : extends m s Q ->
  (forall a s' l, Q s' l -> extends (f a) s' (fun s'' l' => Q' s'' (l' ++ l))) -> extends (bind m f) s Q'.
Proof.
  unfold extends, bind. intros Hm Hf. destruct (m s) as [a s'|]; [|done]. destruct Hm as (l & Hl & HQ).
  specialize (Hf a s' l HQ). destruct (f a s') as [b s''|]; [|done]. destruct Hf as (l' & Hl' & HQ'). exists (l' ++ l).
  split; [by rewrite Hl', Hl, app_assoc|done].
Qed.
Lemma extends_mono {A} (m : V A) s Q Q' : extends m s Q -> (forall s' l, Q s' l -> Q' s' l) -> extends m s Q'.
Proof. unfold extends. intros Hm HQ. destruct (m s); [|done]. destruct Hm as (l & ? & ?). exists l. auto. Qed.

Definition same_statics (s s' : mc) : Prop := video_mem_base s' = video_mem_base s /\ video_mem_size_mb s' = video_mem_size_mb s.

(** What the cleaning leaves: protected data only where the new range will be, under the lock. *)
Definition released (s : mc) (base size : Z) (h : list ev) (s' : mc) (l : list access) : Prop :=
  same_statics s s' /\ safe (hist l h) /\ Forall keeps_vpr l /\
  (forall a, cleared l a = old_range s a && negb (in_range base size a)) /\
  forall a, tainted (hist l h) a = true -> in_clear (hist l h) a = true.

Lemma release_runs s h base size : vm_inv s h -> valid_region base size ->
  extends (if negb (video_mem_base s =? 0) then
             in_hw (tegra_lock_videomem_nonoverlap (video_mem_base s) (u64 (Z.shiftl (video_mem_size_mb s) 20))) ;;;
             tegra_clear_videomem_nonoverlap base size
           else ret tt) s (released s base size h).
Proof.
  intros Hi Hv. destruct (vi_ok _ _ Hi) as [[E1 E2]|Hold].
  { rewrite E1. exists []. split; [done|]. split_and!; [done|apply (vi_safe _ _ Hi)|done| |].
    - intros a. unfold old_range. by rewrite E2, in_range_empty.
    - intros a Ha. apply (vm_inv_tainted s h a Hi) in Ha. unfold old_range in Ha. by rewrite E2, in_range_empty in Ha. }
  pose proof Hold as (U1 & U2 & U3 & U4 & _). unfold TEGRA_DRAM_BASE, TEGRA_DRAM_END in U1, U2.
  rewrite (proj2 (Z.eqb_neq _ _)) by lia. cbn [negb]. rewrite Z.shiftl_mul_pow2 by done.
  assert (0 < video_mem_size_mb s < 2 ^ 12) as Hm by lia.
  assert (u64 (video_mem_size_mb s * 2 ^ 20) = video_mem_size_mb s * 2 ^ 20) as -> by (apply Z.mod_small; lia).
  destruct (lock_run (video_mem_base s) (video_mem_size_mb s * 2 ^ 20) (mc_hw s)) as (lk & Hlk & Kk & Ck).
  { change 0xFFF with (Z.ones 12). rewrite Z.land_ones by done. destruct U4 as [q ->]. replace (q * 2 ^ 20) with (q * 2 ^ 8 * 2 ^ 12) by lia. by apply Z.mod_mul. }
  unfold extends, bind, in_hw at 1. rewrite Hlk.
  set (s1 := Mc _ (video_mem_base s) (video_mem_size_mb s)).
  pose proof (nonoverlap_clears base size s1 Hv Hold) as Hc. unfold clears in Hc.
  destruct (tegra_clear_videomem_nonoverlap base size s1) as [[] s2|]; [|done]. destruct Hc as (B2 & S2 & l & Hl & Kl & Cl).
  apply keeps_both_split in Kk as [Kk1 Kk2], Kl as [Kl1 Kl2].
  exists (l ++ lock_stores (video_mem_base s) (video_mem_size_mb s * 2 ^ 20) ++ lk). split; [by rewrite Hl, <- !app_assoc|].
  assert (Kst : Forall keeps_vpr (lock_stores (video_mem_base s) (video_mem_size_mb s * 2 ^ 20))) by (repeat constructor; by vm_compute).
  assert (Kall : Forall keeps_vpr (l ++ lock_stores (video_mem_base s) (video_mem_size_mb s * 2 ^ 20) ++ lk)) by (by repeat apply Forall_app_2).
  split_and!; [by split| |done| |].
  - apply safe_under_vpr; [apply (vi_safe _ _ Hi)| |done]. intros a Ha. rewrite (vm_inv_vpr s) by done. by apply (vm_inv_tainted s h).
  - intros a. unfold cleared in *. rewrite !existsb_app, Cl, Ck. by rewrite !orb_false_r.
  - intros a Ha. rewrite hist_app, hist_app, lock_covers by (done || lia). rewrite tainted_hist in Ha. apply andb_prop in Ha as [Ha _].
    by apply (vm_inv_tainted s h).
Qed.

(** The registers of the video memory are programmed, under the lock of the old range. *)
Definition program_stores (base size : Z) : list access :=
  [MmioWrite (TEGRA_MC_BASE + MC_VIDEO_PROTECT_SIZE_MB) (u32 (Z.shiftr size 20));
   MmioWrite (TEGRA_MC_BASE + MC_VIDEO_PROTECT_BASE_HI) (u32 (u32 (Z.shiftr base 32)));
   MmioWrite (TEGRA_MC_BASE + MC_VIDEO_PROTECT_BASE_LO) (u32 (u32 base))].
Definition unlock_stores : list access :=
  [MmioWrite (TEGRA_MC_BASE + MC_VIDEO_PROTECT_CLEAR_SIZE) 0; MmioWrite (TEGRA_MC_BASE + MC_VIDEO_PROTECT_CLEAR_BASE_HI) 0;
   MmioWrite (TEGRA_MC_BASE + MC_VIDEO_PROTECT_CLEAR_BASE_LO) 0].

Lemma program_run s base size : known_cpu ->
  extends (in_hw (tegra_mc_write_32 MC_VIDEO_PROTECT_BASE_LO (u32 base)) ;;;
           in_hw (tegra_mc_write_32 MC_VIDEO_PROTECT_BASE_HI (u32 (Z.shiftr base 32))) ;;;
           in_hw (tegra_mc_write_32 MC_VIDEO_PROTECT_SIZE_MB (Z.shiftr size 20)) ;;;
           modify (fun s => Mc (mc_hw s) base (Z.shiftr size 20)) ;;;
           _ <- in_hw mce_update_gsc_videomem ;;
           in_hw tegra_unlock_videomem_nonoverlap) s
    (fun s' l => video_mem_base s' = base /\ video_mem_size_mb s' = Z.shiftr size 20 /\
       exists g, Forall away g /\ l = unlock_stores ++ g ++ program_stores base size).
Proof.
  intros Hk. set (h1 := Hw (nreads (mc_hw s)) (program_stores base size ++ log (mc_hw s))).
  unfold extends. unfold bind at 1 2 3 4, in_hw at 1 2 3, tegra_mc_write_32, mmio_write_32, emit, modify. cbn [mc_hw video_mem_base video_mem_size_mb nreads log].
  change (Hw (nreads (mc_hw s)) _) with h1. unfold bind at 1, in_hw at 1. cbn [mc_hw video_mem_base video_mem_size_mb].
  pose proof (mce_gsc_end TEGRA_ARI_GSC_VPR_IDX Hk h1) as Hg. fold (mce_update_gsc_videomem) in Hg.
  destruct (mce_update_gsc_videomem h1) as [r h2|]; [|right; apply Hg]. destruct Hg as (g & Hg & _ & Ag).
  exists (unlock_stores ++ g ++ program_stores base size). split; [cbn; by rewrite Hg, <- app_assoc|]. split_and!; [done..|]. by exists g.
Qed.

Lemma program_inv s h h1 base size s' g : vm_inv s h -> valid_region base size ->
  safe h1 -> (forall a, tainted h1 a = true -> in_clear h1 a = true /\ in_range base size a = true) ->
  Forall away g -> video_mem_base s' = base -> video_mem_size_mb s' = Z.shiftr size 20 ->
  vm_inv s' (hist (unlock_stores ++ g ++ program_stores base size) h1).
Proof.
  intros Hi (V1 & V2 & V3 & V4 & [q Hq]) Hs Ht Hg Hb Hm. unfold TEGRA_DRAM_BASE, TEGRA_DRAM_END in *.
  destruct (away_keeps_all g Hg) as (G1 & G2 & G3). rewrite !hist_app.
  set (h2 := hist (program_stores base size) h1).
  assert (Hmb : Z.shiftr size 20 = q) by (rewrite Hq, Z.shiftr_div_pow2 by done; by apply Z.div_mul).
  assert (R1 : reg MC_VIDEO_PROTECT_BASE_LO h2 + reg MC_VIDEO_PROTECT_BASE_HI h2 * 2 ^ 32 = base) by (etransitivity; [|apply (addr_split base); lia]; reflexivity).
  assert (R2 : reg MC_VIDEO_PROTECT_SIZE_MB h2 = q) by (unfold h2; cbn; rewrite Hmb; apply Z.mod_small; lia).
  assert (Kp : Forall keeps_clear (program_stores base size)) by (repeat constructor; by vm_compute).
  assert (Ku : Forall keeps_vpr unlock_stores) by (repeat constructor; by vm_compute).
  assert (Ht1 : forall l a, tainted (hist l h1) a = true -> in_clear h1 a = true /\ in_range base size a = true).
  { intros l a Ha. rewrite tainted_hist in Ha. apply andb_prop in Ha as [Ha _]. by apply Ht. }
  assert (S2 : safe h2) by (apply safe_under_clear; [done| |done]; intros a Ha; by apply Ht).
  assert (S3 : safe (hist g h2)).
  { apply safe_under_clear; [done| |done]. intros a Ha. unfold h2. rewrite in_clear_keeps by done. by apply (Ht1 (program_stores base size)). }
  destruct (vpr_keeps g h2 G1) as (E1 & E2 & E3). destruct (vpr_keeps unlock_stores (hist g h2) Ku) as (F1 & F2 & F3).
  split; try reflexivity.
  - apply safe_under_vpr; [done| |done]. intros a Ha. rewrite in_vpr_keeps by done. unfold in_vpr. rewrite R1, R2. rewrite <- Hq.
    rewrite tainted_hist in Ha. apply andb_prop in Ha as [Ha _]. by apply (Ht1 (program_stores base size)).
  - right. rewrite Hb, Hm, Hmb, <- Hq. unfold valid_region, TEGRA_DRAM_BASE, TEGRA_DRAM_END. split_and!; try done; try lia. by exists q.
  - by rewrite F1, F2, E1, E2, R1.
  - by rewrite F3, E3, R2, Hm, Hmb.
Qed.

(** A move keeps everything in order, and clears exactly what it gives up. *)
Lemma setup_runs s h base size : vm_inv s h -> valid_region base size -> known_cpu ->
  extends (tegra_memctrl_videomem_setup base size) s (fun s' l =>
    vm_inv s' (hist l h) /\ video_mem_base s' = base /\ video_mem_size_mb s' * 2 ^ 20 = size /\
    forall a, cleared l a = old_range s a && negb (in_range base size a)).
Proof.
  intros Hi Hv Hk. unfold tegra_memctrl_videomem_setup. unfold extends, bind at 1, get.
  match goal with |- match ?m s with _ => _ end => change (extends m s (fun s' l =>
    vm_inv s' (hist l h) /\ video_mem_base s' = base /\ video_mem_size_mb s' * 2 ^ 20 = size /\
    forall a, cleared l a = old_range s a && negb (in_range base size a))) end.
  eapply extends_bind; [by apply (release_runs s h)|]. intros _ s1 l1 ((B1 & M1) & S1 & K1 & C1 & T1).
  eapply extends_mono; [by apply program_run|]. intros s2 l (B2 & M2 & g & Hg & ->). rewrite hist_app.
  destruct (away_keeps_all g Hg) as (_ & _ & G3).
  assert (Hsz : Z.shiftr size 20 * 2 ^ 20 = size).
  { destruct Hv as (_ & _ & _ & _ & [q ->]). rewrite Z.shiftr_div_pow2, Z.div_mul by done. done. }
  split_and!.
  - apply (program_inv s h); try done. intros a Ha. split; [by apply T1|]. rewrite tainted_hist in Ha. apply andb_prop in Ha as [Ha Hc].
    apply (vm_inv_tainted s h a Hi) in Ha. rewrite C1, Ha in Hc. cbn in Hc. by rewrite negb_involutive in Hc.
  - done.
  - by rewrite M2.
  - intros a. unfold cleared in *. rewrite !existsb_app, G3, C1. done.
Qed.
End Setup.
End CarveoutSpec.
