(* ===== verification/Sip.v ===== *)
(** * The calls of the chip vendor, and watchdog interrupts

    [plat/nvidia/tegra/common/tegra_sip_calls.c] and
    [soc/t186/plat_sip_calls.c]: moving the protected video memory, commands
    for the processor complex, clock counters; and [tegra_fiq_glue.c], which
    passes interrupts of the secure world to a handler of the normal world. *)

From S2P Require Import Prelude Spd Mce Carveout.

Module Sip.
Import Spd Mce Carveout.

(** ** Numbers *)

Definition TEGRA_SIP_NEW_VIDEOMEM_REGION : Z := 0x82000003.
Definition TEGRA_SIP_FIQ_NS_ENTRYPOINT : Z := 0x82000005.
Definition TEGRA_SIP_FIQ_NS_GET_CONTEXT : Z := 0x82000006.
Definition TEGRA_SIP_GET_ACTMON_CLK_COUNTERS : Z := 0xC2FFFE02.
(** [TEGRA_SIP_MCE_CMD_ENTER_CSTATE] and the other commands that are passed on. *)
Definition sip_mce_calls : list Z :=
  [0xC2FFFF00; 0xC2FFFF01; 0xC2FFFF02; 0xC2FFFF03; 0xC2FFFF04; 0xC2FFFF05; 0xC2FFFF07; 0xC2FFFF08; 0xC2FFFF09; 0xC2FFFF0A;
   0xC2FFFF0B; 0xC2FFFF0C; 0xC2FFFF0D; 0xC2FFFF0E; 0xC2FFFF0F; 0xC2FFFF10; 0xC2FFFF11; 0xC2FFFF12].
Definition FUNCID_CC_SHIFT : Z := 30.
Definition FUNCID_CC_MASK : Z := 0x1.
Definition SMC_32 : Z := 0.
Definition SMC_64 : Z := 1.
Definition TEGRA_CAR_RESET_BASE : Z := 0x05000000.
Definition TEGRA_GPU_RESET_REG_OFFSET : Z := 0x30.
Definition TEGRA_GPU_RESET_GPU_SET_OFFSET : Z := 0x34.
Definition GPU_RESET_BIT : Z := Z.shiftl 1 0.
Definition GPU_SET_BIT : Z := Z.shiftl 1 0.
Definition TEGRA_ARM_ACTMON_CTR_BASE : Z := 0x0E060000.
Definition TEGRA_DENVER_ACTMON_CTR_BASE : Z := 0x0E070000.
Definition REF_CLK_OFFSET : Z := 4.
Definition PLATFORM_MAX_CPUS_PER_CLUSTER : Z := 4.

Section Sip.
Context {R : Type} `{mch : machine} `{plt : platform}.

(** ** State

    The contexts of the processor the code runs on, the memory controller, the
    handler of the normal world and, for every processor, where it was interrupted. *)
Record sip := Sip_ {
  s_cpu : @cpu_st R;
  s_mc : mc;
  ns_fiq_handler_addr : Z;
  fiq_handler_registered : bool;
  fiq_state : list (Z * Z)
}.
Definition W (A : Type) : Type := M sip A.
Definition in_cpu {A} (p : @P R A) : W A := fun s =>
  match p (s_cpu s) with
  | Done a c => Done a (Sip_ c (s_mc s) (ns_fiq_handler_addr s) (fiq_handler_registered s) (fiq_state s))
  | Crash w => Crash w
  end.
Definition in_mc {A} (p : V A) : W A := fun s =>
  match p (s_mc s) with
  | Done a m => Done a (Sip_ (s_cpu s) m (ns_fiq_handler_addr s) (fiq_handler_registered s) (fiq_state s))
  | Crash w => Crash w
  end.
Definition hardware {A} (m : H A) : W A := in_mc (in_hw m).
Definition set_x0 (caller : world) (v : Z) : W unit := in_cpu (upd_context caller (SMC_SET_GP 0 v)).

(** ** The calls of this chip ([plat_sip_calls.c]) *)

(** A command reads and writes the registers of the normal world. *)
Definition mce_command (cmd x1 x2 x3 : Z) : W Z :=
  g <- in_cpu (gets (fun c => gpregs (ns c))) ;;
  r <- hardware (mce_command_handler cmd x1 x2 x3 (x g)) ;;
  in_cpu (upd_context NON_SECURE (set_gpregs (Gp r.2 (sp_el0 g)))) ;;;
  ret r.1.

Definition plat_sip_handler (smc_fid x1 x2 x3 : Z) (caller : world) : W Z :=
  let smc32 := Z.land (Z.shiftr smc_fid FUNCID_CC_SHIFT) FUNCID_CC_MASK =? SMC_32 in
  let local x := if smc32 then u32 x else x in
  let local_smc_fid := Z.lor smc_fid (Z.shiftl SMC_64 FUNCID_CC_SHIFT) in
  if bool_decide (local_smc_fid ∈ sip_mce_calls) then
    mce_ret <- mce_command (Z.land local_smc_fid MCE_CMD_MASK) (local x1) (local x2) (local x3) ;;
    set_x0 caller (u64 mce_ret) ;;;
    ret 0
  else if local_smc_fid =? TEGRA_SIP_GET_ACTMON_CLK_COUNTERS then
    let cpu := Z.land (u32 x1) MPIDR_CPU_MASK in
    let impl := Z.land (Z.shiftr (u32 x2) MIDR_IMPL_SHIFT) MIDR_IMPL_MASK in
    if PLATFORM_MAX_CPUS_PER_CLUSTER <? cpu then ret (- EINVAL)
    else
      let base := if impl =? DENVER_IMPL then TEGRA_DENVER_ACTMON_CTR_BASE else TEGRA_ARM_ACTMON_CTR_BASE in
      core_clk_ctr <- hardware (mmio_read_32 (base + 8 * cpu)) ;;
      ref_clk_ctr <- hardware (mmio_read_32 (base + 8 * cpu + REF_CLK_OFFSET)) ;;
      in_cpu (upd_context caller (SMC_SET_GP 1 core_clk_ctr)) ;;;
      in_cpu (upd_context caller (SMC_SET_GP 2 ref_clk_ctr)) ;;;
      ret 0
  else ret (- ENOTSUP).

(** ** Interrupts for the normal world ([tegra_fiq_glue.c]) *)

Definition cm_set_elr_el3 (w : world) (entrypoint : Z) : @P R unit := upd_context w (fun v => set_elr_spsr entrypoint (spsr v) v).

(** [cpu]: the processor; [irq]: what the interrupt controller reports. *)
Definition tegra_fiq_interrupt_handler (cpu : nat) (irq : Z) : W unit :=
  s <- get ;;
  (if negb (ns_fiq_handler_addr s =? 0) then
     in_cpu (cm_el1_sysregs_context_save NON_SECURE) ;;;
     v <- in_cpu (gets (@ns R)) ;;
     _ <- deref (fiq_state s !! cpu) ;;
     modify (fun s => Sip_ (s_cpu s) (s_mc s) (ns_fiq_handler_addr s) (fiq_handler_registered s) (<[cpu := (elr v, spsr v)]> (fiq_state s))) ;;;
     in_cpu (cm_set_elr_el3 NON_SECURE (ns_fiq_handler_addr s))
   else ret tt) ;;;
  if irq <? 1022 then hardware (emit IrqAcknowledge) ;;; hardware (emit (IrqEnd irq)) else ret tt.

(** [rc]: the answer of [register_interrupt_type_handler]. *)
Definition tegra_fiq_handler_setup (rc : Z) : W unit :=
  s <- get ;;
  if fiq_handler_registered s then ret tt
  else
    (if negb (rc =? 0) then panic else ret tt) ;;;
    modify (fun s => Sip_ (s_cpu s) (s_mc s) (ns_fiq_handler_addr s) true (fiq_state s)).

Definition tegra_fiq_set_ns_entrypoint (entrypoint : Z) : W unit :=
  modify (fun s => Sip_ (s_cpu s) (s_mc s) entrypoint (fiq_handler_registered s) (fiq_state s)).

Definition tegra_fiq_get_intr_context (cpu : nat) : W Z :=
  s <- get ;;
  f <- deref (fiq_state s !! cpu) ;;
  in_cpu (upd_context NON_SECURE (fun v =>
    smc_ret 0 [f.1; f.2; sp_el0 (gpregs v); sp_el1 (sysregs v)] v)) ;;;
  ret 0.

(** ** The calls of every Tegra chip ([tegra_sip_calls.c]) *)

Definition gpu_in_reset : W bool :=
  regval <- hardware (mmio_read_32 (TEGRA_CAR_RESET_BASE + TEGRA_GPU_RESET_REG_OFFSET)) ;;
  ret (negb (Z.land regval GPU_RESET_BIT =? 0)).

Definition new_videomem_region (caller : world) (x1 local_x2_32 : Z) : W unit :=
  let err := bl31_check_ns_address x1 local_x2_32 in
  if negb (err =? 0) then set_x0 caller (u64 err)
  else if negb (Z.land x1 0xFFFFF =? 0) || negb (Z.land local_x2_32 0xFFFFF =? 0) then set_x0 caller (u64 (- ENOTSUP))
  else
    in_reset <- gpu_in_reset ;;
    if negb in_reset then set_x0 caller (u64 (- ENOTSUP))
    else
      in_mc (tegra_memctrl_videomem_setup x1 local_x2_32) ;;;
      still <- gpu_in_reset ;;
      (if negb still then hardware (mmio_write_32 (TEGRA_CAR_RESET_BASE + TEGRA_GPU_RESET_GPU_SET_OFFSET) GPU_SET_BIT) else ret tt) ;;;
      set_x0 caller 0.

Definition tegra_sip_handler (cpu : nat) (caller : world) (smc_fid x1 x2 x3 : Z) : W unit :=
  let local_x2_32 := u32 x2 in
  err <- plat_sip_handler smc_fid x1 x2 x3 caller ;;
  if err =? 0 then set_x0 caller (u64 err)
  else if smc_fid =? TEGRA_SIP_NEW_VIDEOMEM_REGION then new_videomem_region caller x1 local_x2_32
  else if smc_fid =? TEGRA_SIP_FIQ_NS_ENTRYPOINT then
    if x1 =? 0 then set_x0 caller 0xFFFFFFFF
    else tegra_fiq_set_ns_entrypoint x1 ;;; set_x0 caller 0
  else if smc_fid =? TEGRA_SIP_FIQ_NS_GET_CONTEXT then _ <- tegra_fiq_get_intr_context cpu ;; ret tt
  else set_x0 caller SMC_UNK.
End Sip.
End Sip.
