(* ===== verification/SipSpec.v ===== *)
(** * The vendor's calls keep protected data protected

    Whatever the worlds ask for, on whichever processor, protected video data stays in
    protected memory at every moment, and the calls do what they say.  The code takes no lock:
    the theorems are about calls one after the other, and an example shows what two at once do. *)

From S2P Require Import Prelude Spd SpdSpec Mce MceSpec Carveout CarveoutSpec Sip.

Module SipSpec.
Import Spd SpdSpec Mce MceSpec Carveout CarveoutSpec Sip.

Lemma vm_inv_keeps s s' h l : vm_inv s h -> same_statics s s' -> Forall keeps_both l -> vm_inv s' (hist l h).
Proof.
  intros Hi [Hb Hm] Hl. apply keeps_both_split in Hl as [Hv Hc].
  destruct (vpr_keeps l h Hv) as (V1 & V2 & V3), (clear_keeps l h Hc) as (C1 & C2 & C3). split.
  - apply safe_under_vpr; [apply (vi_safe _ _ Hi)| |done]. intros a Ha. rewrite (vm_inv_vpr s) by done. by apply (vm_inv_tainted s h).
  - unfold vm_ok. rewrite Hb, Hm. apply (vi_ok _ _ Hi).
  - by rewrite V1, V2, Hb, (vi_base _ _ Hi).
  - by rewrite V3, Hm, (vi_mb _ _ Hi).
  - by rewrite C1, (vi_lo _ _ Hi).
  - by rewrite C2, (vi_hi _ _ Hi).
  - by rewrite C3, (vi_size _ _ Hi).
Qed.

Lemma away_keeps_both l : Forall away l -> Forall keeps_both l.
Proof. intros Hl. destruct (away_keeps_all l Hl) as (H1 & H2 & _). apply Forall_and. by split. Qed.

(** ** The check of a range *)

Section Spec.
Context {R : Type} `{mch : machine} `{plt : platform}.

Lemma check_ns_address_spec base size : 0 <= base < 2 ^ 64 -> 0 <= size < 2 ^ 32 ->
  bl31_check_ns_address base size = 0 <-> TEGRA_DRAM_BASE <= base /\ base + size - 1 <= TEGRA_DRAM_END /\ 1 < size.
Proof.
  intros Hb Hs. unfold bl31_check_ns_address, TEGRA_DRAM_BASE, TEGRA_DRAM_END, TZDRAM_BASE, TZDRAM_SIZE, EFAULT, ENOTSUP.
  destruct (Z.ltb_spec base 0x80000000); cbn [orb]; [split; [repeat case_match; lia|lia]|].
  destruct (Z.leb_spec 0x27FFFFFFF base); cbn [orb]; [split; [repeat case_match; lia|lia]|].
  assert (u64 (base + size - 1) = base + size - 1) as -> by (apply Z.mod_small; lia).
  destruct (Z.ltb_spec 0x27FFFFFFF (base + size - 1)), (Z.ltb_spec base (base + size - 1)), (Z.ltb_spec (0x30000000 + 0x400000) base); cbn [orb andb]; lia.
Qed.

Lemma aligned_mb z : Z.land z 0xFFFFF = 0 <-> (2 ^ 20 | z).
Proof. change 0xFFFFF with (Z.ones 20). rewrite Z.land_ones by done. by apply Z.mod_divide. Qed.

(** The conditions of the call are those of a valid range. *)
Lemma accepted_valid base size : 0 <= base < 2 ^ 64 -> 0 <= size < 2 ^ 32 ->
  bl31_check_ns_address base size = 0 /\ Z.land base 0xFFFFF = 0 /\ Z.land size 0xFFFFF = 0 <-> valid_region base size.
Proof.
  intros Hb Hs. rewrite check_ns_address_spec by done. rewrite !aligned_mb. unfold valid_region.
  split; [|intros (H1 & H2 & H3 & H4 & [q H5]); split_and!; try done; [lia|by exists q]]. intros ((H1 & H2 & H3) & H4 & H5). split_and!; try done; lia.
Qed.

(** ** Calls *)

Definition present (caller : world) (s : @sip R) : Prop := is_Some (cm_get_context caller (s_cpu s)).

(** [m] keeps the memory controller in order; what it adds to the log satisfies [Q]. *)
Definition orderly {A} (caller : world) (m : W A) (s : @sip R) (h : list ev) (Q : A -> sip -> list access -> Prop) : Prop :=
  match m s with
  | Done a s' => exists l, log (mc_hw (s_mc s')) = l ++ log (mc_hw (s_mc s)) /\
      vm_inv (s_mc s') (hist l h) /\ present caller s' /\ length (fiq_state s') = length (fiq_state s) /\ Q a s' l
  | Crash _ => stopped
  end.

Lemma orderly_bind {A B} caller (m : W A) (f : A -> W B) s h Q Q' : orderly caller m s h Q ->
  (forall a s' l, vm_inv (s_mc s') (hist l h) -> present caller s' -> length (fiq_state s') = length (fiq_state s) -> Q a s' l ->
    orderly caller (f a) s' (hist l h) (fun b s'' l' => Q' b s'' (l' ++ l))) ->
  orderly caller (bind m f) s h Q'.
Proof.
  unfold orderly, bind. intros Hm Hf. destruct (m s) as [a s'|]; [|done]. destruct Hm as (l & Hl & Hi & Hp & Hn & HQ).
  specialize (Hf a s' l Hi Hp Hn HQ). destruct (f a s') as [b s''|]; [|done]. destruct Hf as (l' & Hl' & Hi' & Hp' & Hn' & HQ').
  exists (l' ++ l). rewrite hist_app. split_and!; try done; [by rewrite Hl', Hl, app_assoc|congruence].
Qed.
Lemma orderly_mono {A} caller (m : W A) s h Q Q' : orderly caller m s h Q -> (forall a s' l, Q a s' l -> Q' a s' l) -> orderly caller m s h Q'.
Proof. unfold orderly. intros Hm HQ. destruct (m s); [|done]. destruct Hm as (l & ? & ? & ? & ? & ?). exists l. auto 6. Qed.
Lemma orderly_ret {A} caller (a : A) s h Q : vm_inv (s_mc s) h -> present caller s -> Q a s [] -> orderly caller (ret a) s h Q.
Proof. intros Hi Hp HQ. by exists []. Qed.

Lemma orderly_cpu {A} caller (p : @P R A) s h Q : vm_inv (s_mc s) h ->
  runs p (s_cpu s) (fun a c => is_Some (cm_get_context caller c) /\
    Q a (Sip_ c (s_mc s) (ns_fiq_handler_addr s) (fiq_handler_registered s) (fiq_state s)) []) ->
  orderly caller (in_cpu p) s h Q.
Proof. intros Hi Hp. unfold orderly, in_cpu, runs in *. destruct (p (s_cpu s)) as [a c|]; [|done]. exists []. by destruct Hp. Qed.

Lemma upd_context_present caller w (f : cpu_context -> cpu_context) (c : @cpu_st R) : is_Some (cm_get_context caller c) -> is_Some (cm_get_context w c) ->
  runs (upd_context w f) c (fun _ c' => is_Some (cm_get_context caller c')).
Proof. intros Hc [v Hv]. unfold runs, upd_context, with_context, bind, get. rewrite Hv. destruct w, caller; cbn; by eauto. Qed.

Lemma orderly_upd caller w (f : cpu_context -> cpu_context) s h : vm_inv (s_mc s) h -> present caller s -> present w s ->
  orderly caller (in_cpu (upd_context w f)) s h (fun _ s' l => l = [] /\ s_mc s' = s_mc s).
Proof.
  intros Hi Hp Hw. apply orderly_cpu; [done|]. eapply runs_mono; [by apply (upd_context_present caller)|]. cbv beta. intros u c Hc. by split.
Qed.
(** The caller goes on with [v] in x0. *)
Definition answered (caller : world) (v : Z) (s s' : @sip R) : Prop :=
  exists c, cm_get_context caller (s_cpu s) = Some c /\ s_cpu s' = set_context caller (SMC_SET_GP 0 v c) (s_cpu s).

Lemma orderly_x0 caller v s h : vm_inv (s_mc s) h -> present caller s ->
  orderly caller (set_x0 caller v) s h (fun _ s' l => l = [] /\ s_mc s' = s_mc s /\ answered caller v s s').
Proof.
  intros Hi [c Hc]. unfold orderly, set_x0, in_cpu, upd_context, with_context, bind, get, modify. rewrite Hc. exists [].
  split; [done|]. split; [done|]. split; [by destruct caller; eexists|]. split; [done|]. split; [done|]. split; [done|]. by exists c.
Qed.
Lemma present_ns s : present NON_SECURE s.
Proof. by eexists. Qed.

Lemma orderly_hardware {A} caller n (m : H A) s h : vm_inv (s_mc s) h -> present caller s -> ends n m ->
  orderly caller (hardware m) s h (fun _ s' l => same_statics (s_mc s) (s_mc s') /\ Forall away l /\ s_cpu s' = s_cpu s).
Proof.
  intros Hi Hp Hm. specialize (Hm (mc_hw (s_mc s))). unfold orderly, hardware, in_mc, in_hw. destruct (m (mc_hw (s_mc s))) as [a h'|]; [|right; apply Hm].
  destruct Hm as (l & Hl & _ & Ha). exists l. split; [done|]. split; [apply (vm_inv_keeps (s_mc s)); [done|by split|by apply away_keeps_both]|]. by split_and!.
Qed.

(** What the GPU says next about being in reset. *)
Definition gpu_reset (s : @sip R) : bool :=
  negb (Z.land (u32 (dev (nreads (mc_hw (s_mc s))) (TEGRA_CAR_RESET_BASE + TEGRA_GPU_RESET_REG_OFFSET))) GPU_RESET_BIT =? 0).

Lemma orderly_gpu caller s h : vm_inv (s_mc s) h -> present caller s ->
  orderly caller gpu_in_reset s h (fun b s' l => b = gpu_reset s /\ l = [] /\ same_statics (s_mc s) (s_mc s') /\ s_cpu s' = s_cpu s).
Proof.
  intros Hi Hp. unfold orderly. cbn. exists []. split; [done|]. split; [apply (vm_inv_keeps (s_mc s)); done|]. by split_and!.
Qed.

Lemma orderly_gpu_set caller s h : vm_inv (s_mc s) h -> present caller s ->
  orderly caller (hardware (mmio_write_32 (TEGRA_CAR_RESET_BASE + TEGRA_GPU_RESET_GPU_SET_OFFSET) GPU_SET_BIT)) s h
    (fun _ s' l => (forall a, cleared l a = false) /\ same_statics (s_mc s) (s_mc s') /\ s_cpu s' = s_cpu s).
Proof.
  intros Hi Hp. exists [MmioWrite (TEGRA_CAR_RESET_BASE + TEGRA_GPU_RESET_GPU_SET_OFFSET) (u32 GPU_SET_BIT)].
  split; [done|]. split; [|by split_and!]. apply (vm_inv_keeps (s_mc s)); [done|by split|]. repeat constructor; by vm_compute.
Qed.

Lemma orderly_setup caller base size s h : vm_inv (s_mc s) h -> present caller s -> valid_region base size -> known_cpu ->
  orderly caller (in_mc (tegra_memctrl_videomem_setup base size)) s h (fun _ s' l =>
    s_cpu s' = s_cpu s /\ video_mem_base (s_mc s') = base /\ video_mem_size_mb (s_mc s') * 2 ^ 20 = size /\
    forall a, cleared l a = old_range (s_mc s) a && negb (in_range base size a)).
Proof.
  intros Hi Hp Hv Hk. pose proof (setup_runs (s_mc s) h base size Hi Hv Hk) as Hr. unfold orderly, in_mc, extends in *.
  destruct (tegra_memctrl_videomem_setup base size (s_mc s)) as [[] m|]; [|done]. destruct Hr as (l & Hl & Hi' & Hb & Hm & Hc).
  exists l. by split_and!.
Qed.

(** What a request for a new range does. *)
Definition moved (caller : world) (base size : Z) (s s' : @sip R) (l : list access) : Prop :=
  (valid_region base size /\ gpu_reset s = true /\ answered caller 0 s s' /\
   video_mem_base (s_mc s') = base /\ video_mem_size_mb (s_mc s') * 2 ^ 20 = size /\
   forall a, cleared l a = old_range (s_mc s) a && negb (in_range base size a)) \/
  (~ (valid_region base size /\ gpu_reset s = true) /\ l = [] /\ same_statics (s_mc s) (s_mc s') /\
   exists code, answered caller code s s' /\ (code = u64 (- EFAULT) \/ code = u64 (- ENOTSUP))).

Lemma answered_after caller v s s1 s' : s_cpu s1 = s_cpu s -> answered caller v s1 s' -> answered caller v s s'.
Proof. unfold answered. by intros ->. Qed.

Lemma new_videomem_runs caller base size s h : known_cpu -> vm_inv (s_mc s) h -> present caller s -> 0 <= base < 2 ^ 64 -> 0 <= size < 2 ^ 32 ->
  orderly caller (new_videomem_region caller base size) s h (fun _ s' l => moved caller base size s s' l).
Proof.
  intros Hk Hi Hp Hb Hs. unfold new_videomem_region. cbv zeta. pose proof (accepted_valid base size Hb Hs) as Hacc.
  assert (Hrefuse : forall code, ~ (valid_region base size /\ gpu_reset s = true) -> (code = u64 (- EFAULT) \/ code = u64 (- ENOTSUP)) ->
    orderly caller (set_x0 caller code) s h (fun _ s' l => moved caller base size s s' l)).
  { intros code Hn Hc. eapply orderly_mono; [by apply orderly_x0|]. intros _ s' l (-> & Hm & Ha). right. split_and!; [done|done|by rewrite Hm|].
    by exists code. }
  destruct (Z.eqb_spec (bl31_check_ns_address base size) 0) as [E|E]; cbn [negb].
  2:{ apply Hrefuse; [intros [Hv%Hacc _]; tauto|]. unfold bl31_check_ns_address in *. repeat case_match; auto; lia. }
  destruct (Z.eqb_spec (Z.land base 0xFFFFF) 0) as [E1|E1], (Z.eqb_spec (Z.land size 0xFFFFF) 0) as [E2|E2]; cbn [negb orb]; try (apply Hrefuse; [intros [Hv%Hacc _]; tauto|auto]; fail).
  assert (Hv : valid_region base size) by (by apply Hacc).
  eapply orderly_bind; [by apply orderly_gpu|]. cbv beta. intros b s1 l1 Hi1 Hp1 Hn1 (-> & -> & [S1 S2] & Hc1).
  destruct (gpu_reset s) eqn:Eg; cbn [negb].
  - eapply orderly_bind; [by apply orderly_setup|]. cbv beta. intros [] s2 l2 Hi2 Hp2 Hn2 (Hc2 & Hb2 & Hm2 & Hcl).
    eapply orderly_bind; [by apply orderly_gpu|]. cbv beta. intros b s3 l3 Hi3 Hp3 Hn3 (_ & -> & [S3 S4] & Hc3).
    eapply (orderly_bind _ _ _ _ _ (fun _ s4 l => (forall a, cleared l a = false) /\ same_statics (s_mc s3) (s_mc s4) /\ s_cpu s4 = s_cpu s3)).
    { destruct (negb b); [by apply orderly_gpu_set|]. apply orderly_ret; [done..|]. by split_and!. }
    cbv beta. intros [] s4 l4 Hi4 Hp4 Hn4 (Hcl4 & [S5 S6] & Hc4). eapply orderly_mono; [by apply orderly_x0|].
    intros _ s5 l5 (-> & Hm5 & Ha5). left. split_and!; [done|done| |by rewrite Hm5, S5, S3|by rewrite Hm5, S6, S4|].
    + eapply answered_after; [|exact Ha5]. congruence.
    + intros a. cbn [app]. unfold cleared in *. rewrite !existsb_app, Hcl4, Hcl. cbn [existsb orb]. rewrite ?orb_false_r. unfold old_range. by rewrite S1, S2.
  - eapply orderly_mono; [by apply orderly_x0|]. intros _ s' l (-> & Hm & Ha). right. split_and!; [intros [_ ?]; congruence|done|by split; rewrite Hm|].
    exists (u64 (- ENOTSUP)). split; [by eapply answered_after|by right].
Qed.

(** ** Every other call leaves the memory controller alone *)

Definition any {A} (a : A) (s : @sip R) (l : list access) : Prop := True.

Lemma orderly_any {A} caller (m : W A) s h Q : orderly caller m s h Q -> orderly caller m s h any.
Proof. intros Hm. by eapply orderly_mono. Qed.

Lemma orderly_then {A B} caller (m : W A) (f : A -> W B) s h : orderly caller m s h any ->
  (forall a s' h', vm_inv (s_mc s') h' -> present caller s' -> length (fiq_state s') = length (fiq_state s) -> orderly caller (f a) s' h' any) ->
  orderly caller (bind m f) s h any.
Proof. intros Hm Hf. eapply orderly_bind; [exact Hm|]. intros a s' l Hi Hp Hn _. by apply Hf. Qed.

Lemma orderly_gets {A} caller (f : @cpu_st R -> A) s h : vm_inv (s_mc s) h -> present caller s -> orderly caller (in_cpu (gets f)) s h any.
Proof. intros Hi Hp. apply orderly_cpu; [done|]. by split. Qed.

Lemma orderly_set caller w (f : cpu_context -> cpu_context) s h : vm_inv (s_mc s) h -> present caller s -> w = caller \/ w = NON_SECURE ->
  orderly caller (in_cpu (upd_context w f)) s h any.
Proof. intros Hi Hp [-> | ->]; eapply orderly_any; apply orderly_upd; try done. apply present_ns. Qed.

Lemma orderly_hw {A} caller n (m : H A) s h : vm_inv (s_mc s) h -> present caller s -> ends n m -> orderly caller (hardware m) s h any.
Proof. intros Hi Hp Hm. eapply orderly_any. by eapply orderly_hardware. Qed.

Lemma orderly_mce caller cmd x1 x2 x3 s h : known_cpu -> vm_inv (s_mc s) h -> present caller s ->
  orderly caller (mce_command cmd x1 x2 x3) s h any.
Proof.
  intros Hk Hi Hp. unfold mce_command. apply orderly_then; [by apply orderly_gets|]. intros g s1 h1 Hi1 Hp1 _.
  apply orderly_then.
  { apply (orderly_hw caller one_wait); [done..|]. intros h0. pose proof (mce_command_serves cmd x1 x2 x3 (x g) Hk h0) as Hs.
    destruct (mce_command_handler _ _ _ _ _ h0); [apply Hs|done]. }
  intros r s2 h2 Hi2 Hp2 _. apply orderly_then; [apply orderly_set; auto|]. intros _ s3 h3 Hi3 Hp3 _. by apply orderly_ret.
Qed.

Lemma orderly_plat caller fid x1 x2 x3 s h : known_cpu -> vm_inv (s_mc s) h -> present caller s ->
  orderly caller (plat_sip_handler fid x1 x2 x3 caller) s h any.
Proof.
  intros Hk Hi Hp. unfold plat_sip_handler. cbv zeta. destruct (bool_decide _).
  { apply orderly_then; [by apply orderly_mce|]. intros r s1 h1 Hi1 Hp1 _.
    apply orderly_then; [eapply orderly_any; by apply orderly_x0|]. intros _ s2 h2 Hi2 Hp2 _. by apply orderly_ret. }
  destruct (_ =? _); [|by apply orderly_ret]. destruct (_ <? _); [by apply orderly_ret|].
  apply orderly_then; [apply (orderly_hw caller 0); [done..|apply ends_observe]|]. intros ? s1 h1 Hi1 Hp1 _.
  apply orderly_then; [apply (orderly_hw caller 0); [done..|apply ends_observe]|]. intros ? s2 h2 Hi2 Hp2 _.
  apply orderly_then; [apply orderly_set; auto|]. intros ? s3 h3 Hi3 Hp3 _.
  apply orderly_then; [apply orderly_set; auto|]. intros ? s4 h4 Hi4 Hp4 _.
  by apply orderly_ret.
Qed.

(** The memory controller is where it was; only the rest of the state is new. *)
Lemma orderly_modify caller s h c a r f : vm_inv (s_mc s) h -> is_Some (cm_get_context caller c) -> length f = length (fiq_state s) ->
  orderly caller (modify (fun _ => Sip_ c (s_mc s) a r f)) s h any.
Proof. intros Hi Hp Hf. exists []. by split_and!. Qed.

Lemma orderly_context caller cpu s h : vm_inv (s_mc s) h -> present caller s -> (cpu < length (fiq_state s))%nat ->
  orderly caller (tegra_fiq_get_intr_context cpu) s h any.
Proof.
  intros Hi Hp Hc. unfold tegra_fiq_get_intr_context. unfold orderly, bind at 1, get. apply lookup_lt_is_Some_2 in Hc as [f Hf]. rewrite Hf.
  cbn [deref]. unfold bind at 1, ret at 1. fold (orderly caller
    (in_cpu (upd_context NON_SECURE (fun v => smc_ret 0 [f.1; f.2; sp_el0 (gpregs v); sp_el1 (sysregs v)] v)) ;;; ret 0) s h any).
  apply orderly_then; [apply orderly_set; auto|]. intros _ s1 h1 Hi1 Hp1 _. by apply orderly_ret.
Qed.

Lemma handler_runs cpu caller fid x1 x2 x3 s h : known_cpu -> vm_inv (s_mc s) h -> present caller s -> (cpu < length (fiq_state s))%nat ->
  0 <= x1 < 2 ^ 64 -> orderly caller (tegra_sip_handler cpu caller fid x1 x2 x3) s h any.
Proof.
  intros Hk Hi Hp Hc Hx. unfold tegra_sip_handler. cbv zeta. apply orderly_then; [by apply orderly_plat|].
  intros err s1 h1 Hi1 Hp1 Hn1. destruct (err =? 0); [eapply orderly_any; by apply orderly_x0|].
  destruct (_ =? TEGRA_SIP_NEW_VIDEOMEM_REGION).
  { eapply orderly_any. apply new_videomem_runs; try done. apply Z.mod_pos_bound. done. }
  destruct (_ =? TEGRA_SIP_FIQ_NS_ENTRYPOINT).
  { destruct (x1 =? 0); [eapply orderly_any; by apply orderly_x0|]. apply orderly_then; [by apply orderly_modify|].
    intros _ s2 h2 Hi2 Hp2 _. eapply orderly_any. by apply orderly_x0. }
  destruct (_ =? TEGRA_SIP_FIQ_NS_GET_CONTEXT); [|eapply orderly_any; by apply orderly_x0].
  apply orderly_then; [apply orderly_context; [done..|lia]|]. intros _ s2 h2 Hi2 Hp2 _. by apply orderly_ret.
Qed.

(** Where the normal world goes on after an interrupt, and what is kept of it. *)
Definition interrupted (cpu : nat) (s : @sip R) : sip :=
  let c := s_cpu s in
  Sip_ (set_ns (set_elr_spsr (ns_fiq_handler_addr s) (spsr (ns c)) (set_sysregs (live c) (ns c))) c) (s_mc s)
    (ns_fiq_handler_addr s) (fiq_handler_registered s) (<[cpu := (elr (ns c), spsr (ns c))]> (fiq_state s)).
Definition irq_end (irq : Z) : @W R unit := if irq <? 1022 then hardware (emit IrqAcknowledge) ;;; hardware (emit (IrqEnd irq)) else ret tt.

Lemma interrupt_eq cpu irq s : (cpu < length (fiq_state s))%nat ->
  @tegra_fiq_interrupt_handler R cpu irq s = irq_end irq (if ns_fiq_handler_addr s =? 0 then s else interrupted cpu s).
Proof.
  intros [f Hf]%lookup_lt_is_Some_2. unfold tegra_fiq_interrupt_handler. unfold bind at 1, get. destruct (ns_fiq_handler_addr s =? 0); [done|].
  cbn [negb]. unfold in_cpu, bind, get, modify, gets, ret, cm_el1_sysregs_context_save, cm_set_elr_el3, upd_context, with_context, get, bind, modify.
  cbn. rewrite Hf. done.
Qed.

Lemma irq_end_runs irq s h : vm_inv (s_mc s) h -> orderly NON_SECURE (irq_end irq) s h any.
Proof.
  intros Hi. assert (Hp := present_ns s). unfold irq_end. destruct (irq <? 1022); [|by apply orderly_ret].
  apply orderly_then; [apply (orderly_hw _ 0); [done..|by apply ends_emit]|]. intros _ s1 h1 Hi1 Hp1 _. apply (orderly_hw _ 0); [done..|by apply ends_emit].
Qed.

Lemma interrupt_runs cpu irq s h : vm_inv (s_mc s) h -> (cpu < length (fiq_state s))%nat ->
  orderly NON_SECURE (tegra_fiq_interrupt_handler cpu irq) s h any.
Proof.
  intros Hi Hc. unfold orderly. rewrite interrupt_eq by done. destruct (_ =? 0); [by apply irq_end_runs|].
  pose proof (irq_end_runs irq (interrupted cpu s) h Hi) as He. unfold orderly in He.
  assert (Hn : length (fiq_state (interrupted cpu s)) = length (fiq_state s)) by apply length_insert. rewrite Hn in He. exact He.
Qed.

(** Coming back from a sleep programs the live range again. *)
Lemma restore_programs s h : known_cpu -> video_mem_base s <> 0 -> vm_ok s ->
  extends restore_videomem s (fun s' l => same_statics s s' /\
    (forall a, in_vpr (hist l h) a = old_range s a) /\ forall a, cleared l a = false).
Proof.
  intros Hk Hb [[? _]|Hv]; [done|]. destruct Hv as (V1 & V2 & V3 & _). unfold TEGRA_DRAM_BASE, TEGRA_DRAM_END in *.
  assert (Hm : 0 <= video_mem_size_mb s < 2 ^ 32) by lia.
  unfold restore_videomem. unfold extends, bind at 1, get. rewrite (proj2 (Z.eqb_neq _ _)) by done. cbn [negb].
  set (st := [MmioWrite (TEGRA_MC_BASE + MC_VIDEO_PROTECT_SIZE_MB) (u32 (u32 (video_mem_size_mb s)));
              MmioWrite (TEGRA_MC_BASE + MC_VIDEO_PROTECT_BASE_HI) (u32 (u32 (Z.shiftr (video_mem_base s) 32)));
              MmioWrite (TEGRA_MC_BASE + MC_VIDEO_PROTECT_BASE_LO) (u32 (u32 (video_mem_base s)))]).
  set (h1 := Hw (nreads (mc_hw s)) (st ++ log (mc_hw s))).
  unfold bind at 1 2 3, in_hw at 1 2 3, tegra_mc_write_32, mmio_write_32, emit, modify. cbn [mc_hw video_mem_base video_mem_size_mb nreads log].
  change (Hw (nreads (mc_hw s)) _) with h1. unfold bind at 1, in_hw at 1. cbn [mc_hw video_mem_base video_mem_size_mb].
  pose proof (mce_gsc_end TEGRA_ARI_GSC_VPR_IDX Hk h1) as Hg. fold mce_update_gsc_videomem in Hg.
  destruct (mce_update_gsc_videomem h1) as [r h2|]; [|right; apply Hg]. destruct Hg as (g & Hg & _ & Ag).
  destruct (away_keeps_all g Ag) as (G1 & _ & G3).
  exists (g ++ st). cbn. split; [by rewrite Hg, <- app_assoc|]. split; [done|]. split.
  - intros a. rewrite hist_app, in_vpr_keeps by done. unfold in_vpr, old_range. f_equal.
    + etransitivity; [|apply (addr_split (video_mem_base s)); lia]. reflexivity.
    + change (reg MC_VIDEO_PROTECT_SIZE_MB (hist st h)) with (u32 (u32 (video_mem_size_mb s))). unfold u32, uwrap. rewrite !(Z.mod_small (video_mem_size_mb s)) by done. done.
  - intros a. unfold cleared in *. by rewrite existsb_app, G3.
Qed.

(** The result of a command for the processor complex does not come back: x0
    is written again, with the 0 that says the call was known. *)
Lemma mce_result_lost cpu caller fid x1 x2 x3 (s : @sip R) h : known_cpu -> vm_inv (s_mc s) h -> present caller s ->
  Z.lor fid (Z.shiftl SMC_64 FUNCID_CC_SHIFT) ∈ sip_mce_calls ->
  orderly caller (tegra_sip_handler cpu caller fid x1 x2 x3) s h (fun _ s' _ => exists c, cm_get_context caller (s_cpu s') = Some (SMC_SET_GP 0 0 c)).
Proof.
  intros Hk Hi Hp Hf. unfold tegra_sip_handler. cbv zeta.
  eapply (orderly_bind _ _ _ _ _ (fun err _ _ => err = 0)).
  - unfold plat_sip_handler. cbv zeta. rewrite bool_decide_true by done. eapply orderly_bind; [by apply orderly_mce|]. intros r s1 l1 Hi1 Hp1 _ _.
    eapply orderly_bind; [by apply orderly_x0|]. intros _ s2 l2 Hi2 Hp2 _ _. by apply orderly_ret.
  - intros err s1 l1 Hi1 Hp1 _ ->. eapply orderly_mono; [by apply orderly_x0|]. intros _ s2 l2 (_ & _ & c & Hc & E). exists c. rewrite E. by destruct caller.
Qed.

(** C22: A request to move the protected video memory is granted exactly
    when the new range lies in DRAM below its end, is not empty, consists of whole megabytes
    and the GPU is in reset. Then the range is the new one, x0 is 0, and
    exactly those bytes were cleared that were protected before and are not any more. Otherwise nothing is written,
    the range stays, and x0 holds an error. *)
Theorem new_videomem_spec cpu caller x1 x2 x3 s h : known_cpu -> vm_inv (s_mc s) h -> present caller s -> 0 <= x1 < 2 ^ 64 ->
  orderly caller (tegra_sip_handler cpu caller TEGRA_SIP_NEW_VIDEOMEM_REGION x1 x2 x3) s h (fun _ s' l => moved caller x1 (u32 x2) s s' l).
Proof. intros Hk Hi Hp Hx. by apply new_videomem_runs, Z.mod_pos_bound. Qed.

(** After an interrupt of the secure world the normal world goes on
    at its handler, with the system registers kept; and when the handler asks, on whatever the
    processor holds by then, it is told where the interrupted code was, its PSTATE and its stack pointers. *)
Lemma interrupted_code_told cpu irq caller x1 x2 x3 (s : @sip R) : (cpu < length (fiq_state s))%nat -> ns_fiq_handler_addr s <> 0 ->
  exists s1 : @sip R, tegra_fiq_interrupt_handler cpu irq s = Done tt s1 /\
    elr (ns (s_cpu s1)) = ns_fiq_handler_addr s /\ sysregs (ns (s_cpu s1)) = live (s_cpu s) /\ gpregs (ns (s_cpu s1)) = gpregs (ns (s_cpu s)) /\
    forall c m, tegra_sip_handler cpu caller TEGRA_SIP_FIQ_NS_GET_CONTEXT x1 x2 x3 (Sip_ (R := R) c m (ns_fiq_handler_addr s1) (fiq_handler_registered s1) (fiq_state s1)) =
      Done tt (Sip_ (set_ns (smc_ret 0 [elr (ns (s_cpu s)); spsr (ns (s_cpu s)); sp_el0 (gpregs (ns c)); sp_el1 (sysregs (ns c))] (ns c)) c)
                 m (ns_fiq_handler_addr s1) (fiq_handler_registered s1) (fiq_state s1)).
Proof.
  intros Hc Hn. rewrite interrupt_eq by done. rewrite (proj2 (Z.eqb_neq _ _)) by done.
  assert (He : exists s1, irq_end irq (interrupted cpu s) = Done tt s1 /\ s_cpu s1 = s_cpu (interrupted cpu s) /\ fiq_state s1 = fiq_state (interrupted cpu s)).
  { unfold irq_end. destruct (irq <? 1022); eexists; by split_and!. }
  destruct He as (s1 & Hrun & Ec & Ef). exists s1. split; [done|]. rewrite Ec. split_and!; [done..|]. intros c m.
  assert (Hl : fiq_state s1 !! cpu = Some (elr (ns (s_cpu s)), spsr (ns (s_cpu s)))) by (rewrite Ef; by apply list_lookup_insert_eq).
  change (tegra_sip_handler cpu caller TEGRA_SIP_FIQ_NS_GET_CONTEXT x1 x2 x3) with (_ <- @tegra_fiq_get_intr_context R cpu ;; ret tt).
  unfold tegra_fiq_get_intr_context, bind, get. cbn [fiq_state]. rewrite Hl. done.
Qed.
End Spec.

(** ** Every history *)

Section Reach.
Context {R : Type}.

(** The engine stores protected data inside its memory; every call and
    every interrupt runs to its end, on any processor, over whatever the hardware answers. *)
Inductive reach : mc -> list ev -> Prop :=
| reach_start : reach (Mc (Hw 0 []) 0 0) []
| reach_secret m h a : reach m h -> in_vpr h a = true -> reach m (Secret a :: h)
| reach_call mch plt cpu caller fid x1 x2 x3 (s s' : @sip R) l h :
    reach (s_mc s) h -> @known_cpu mch -> present caller s -> (cpu < length (fiq_state s))%nat -> 0 <= x1 < 2 ^ 64 ->
    @tegra_sip_handler R mch plt cpu caller fid x1 x2 x3 s = Done tt s' -> log (mc_hw (s_mc s')) = l ++ log (mc_hw (s_mc s)) ->
    reach (s_mc s') (hist l h)
| reach_interrupt cpu irq (s s' : @sip R) l h :
    reach (s_mc s) h -> (cpu < length (fiq_state s))%nat ->
    tegra_fiq_interrupt_handler cpu irq s = Done tt s' -> log (mc_hw (s_mc s')) = l ++ log (mc_hw (s_mc s)) ->
    reach (s_mc s') (hist l h).

Lemma vm_inv_start : vm_inv (Mc (Hw 0 []) 0 0) [].
Proof. split; try done. by left. Qed.

Lemma vm_inv_secret m h a : vm_inv m h -> in_vpr h a = true -> vm_inv m (Secret a :: h).
Proof.
  intros Hi Ha. destruct Hi. split; try done. split; [done|]. intros b [->%Z.eqb_eq|Hb]%orb_prop.
  - unfold protected. by change (in_vpr (Secret a :: h) a) with (in_vpr h a); rewrite Ha.
  - by apply (safe_protected h b).
Qed.

(** What a run adds to the log is what [orderly] speaks of. *)
Lemma orderly_done {A} {mch : machine} {plt : platform} caller (p : W A) (s s' : @sip R) a h l Q :
  orderly caller p s h Q -> p s = Done a s' -> log (mc_hw (s_mc s')) = l ++ log (mc_hw (s_mc s)) -> vm_inv (s_mc s') (hist l h) /\ Q a s' l.
Proof.
  unfold orderly. intros Hm E El. rewrite E in Hm. destruct Hm as (l' & Hl' & Hi & _ & _ & HQ). rewrite El in Hl'. by apply app_inv_tail in Hl' as ->.
Qed.

Lemma sip_reach_inv m h : reach m h -> vm_inv m h.
Proof.
  induction 1 as [| |mch plt cpu caller fid x1 x2 x3 s s' l h _ IH Hk Hp Hc Hx Hrun Hl|cpu irq s s' l h _ IH Hc Hrun Hl].
  - apply vm_inv_start.
  - by apply vm_inv_secret.
  - exact (proj1 (orderly_done caller _ s s' tt h l any (@handler_runs R mch plt cpu caller fid x1 x2 x3 s h Hk IH Hp Hc Hx) Hrun Hl)).
  - set (plt := Platform (fun _ _ _ => 0) TZDRAM_BASE true).
    exact (proj1 (@orderly_done _ a57 plt NON_SECURE _ s s' tt h l any (@interrupt_runs R a57 plt cpu irq s h IH Hc) Hrun Hl)).
Qed.

(** C21: At every moment of every history of vendor calls and interrupts, one after the other,
    on any processor, from either world and with any arguments, the bytes where the protected engine stored and which were not
    cleared since lie in protected memory: also between the accesses of a
    move, when one register is already new and another still old. And from every such moment a call
    ends, unless memory could not be mapped or an assertion is checked, with its accesses safe as well. *)
Theorem videomem_never_exposed m h : reach m h ->
  safe h /\
  forall mch plt cpu caller fid x1 x2 x3 (s : @sip R), s_mc s = m -> @known_cpu mch -> present caller s -> (cpu < length (fiq_state s))%nat -> 0 <= x1 < 2 ^ 64 ->
    match @tegra_sip_handler R mch plt cpu caller fid x1 x2 x3 s with
    | Done _ s' => exists l, log (mc_hw (s_mc s')) = l ++ log (mc_hw m) /\ safe (hist l h)
    | Crash _ => @stopped mch plt
    end.
Proof.
  intros Hr. pose proof (sip_reach_inv m h Hr) as Hi. split; [apply (vi_safe _ _ Hi)|]. intros mch plt cpu caller fid x1 x2 x3 s <- Hk Hp Hc Hx.
  pose proof (@handler_runs R mch plt cpu caller fid x1 x2 x3 s h Hk Hi Hp Hc Hx) as Ho. unfold orderly in Ho.
  destruct (tegra_sip_handler _ _ _ _ _ _ _); [|done]. destruct Ho as (l & Hl & Hi' & _). exists l. split; [done|apply (vi_safe _ _ Hi')].
Qed.
End Reach.


(** ** A concrete machine *)

(** The first A57 core, with the GPU held in reset; memory that is not mapped can be. *)
Definition gpu_held : machine := Machine (fun _ a => if a =? TEGRA_CAR_RESET_BASE + TEGRA_GPU_RESET_REG_OFFSET then 1 else 0) (fun _ => 1) (fun _ => 0x10) 0x80000000 0x411FD073 false.
Definition t186 : platform := Platform (fun _ _ _ => 0) TZDRAM_BASE true.
Definition final {S A} (d : S) (o : outcome S A) : S := match o with Done _ s => s | Crash _ => d end.
Definition ask (base size : Z) (s : @sip unit) : outcome sip unit :=
  @tegra_sip_handler unit gpu_held t186 0 NON_SECURE TEGRA_SIP_NEW_VIDEOMEM_REGION base size 0 s.

(** 64 MB at 0x90000000 are protected, then the second half of them. *)
Definition before : @sip unit := Sip_ booted_cpu (Mc (Hw 0 []) 0 0) 0x80081000 true [(0, 0); (0, 0)].
Definition at_first : @sip unit := Eval vm_compute in final before (ask 0x90000000 0x4000000 before).
Definition at_last : @sip unit := Eval vm_compute in final before (ask 0x92000000 0x2000000 at_first).
Definition added : list access := Eval vm_compute in
  take (length (log (mc_hw (s_mc at_last))) - length (log (mc_hw (s_mc at_first)))) (log (mc_hw (s_mc at_last))).
Definition stored : list ev := Secret 0x93000000 :: Secret 0x91000000 :: hist (log (mc_hw (s_mc at_first))) [].

Lemma first_reach : @reach unit (s_mc at_first) (hist (log (mc_hw (s_mc at_first))) []).
Proof.
  apply (reach_call gpu_held t186 0 NON_SECURE TEGRA_SIP_NEW_VIDEOMEM_REGION 0x90000000 0x4000000 0 before at_first).
  - apply reach_start.
  - vm_compute. lia.
  - by eexists.
  - vm_compute. lia.
  - lia.
  - vm_compute. reflexivity.
  - vm_compute. reflexivity.
Qed.
Lemma stored_reach : @reach unit (s_mc at_first) stored.
Proof. repeat apply reach_secret; [apply first_reach|by vm_compute..]. Qed.
Lemma last_reach : @reach unit (s_mc at_last) (hist added stored).
Proof.
  apply (reach_call gpu_held t186 0 NON_SECURE TEGRA_SIP_NEW_VIDEOMEM_REGION 0x92000000 0x2000000 0 at_first at_last).
  - apply stored_reach.
  - vm_compute. lia.
  - by eexists.
  - vm_compute. lia.
  - lia.
  - vm_compute. reflexivity.
  - vm_compute. reflexivity.
Qed.

Lemma videomem_never_exposed_witness :
  safe (hist added stored) /\ tainted (hist added stored) 0x93000000 = true /\ tainted (hist added stored) 0x91000000 = false /\
  in_vpr (hist added stored) 0x91000000 = false.
Proof.
  split; [exact (proj1 (videomem_never_exposed (R := unit) (s_mc at_last) (hist added stored) last_reach))|].
  split; [vm_compute; reflexivity|]. split; vm_compute; reflexivity.
Defined.

Lemma new_videomem_spec_witness :
  @orderly unit gpu_held t186 unit NON_SECURE (@tegra_sip_handler unit gpu_held t186 0 NON_SECURE TEGRA_SIP_NEW_VIDEOMEM_REGION 0x92000000 0x2000000 0) at_first stored
    (fun _ s' l => @moved unit gpu_held NON_SECURE 0x92000000 0x2000000 at_first s' l).
Proof.
  refine (@new_videomem_spec unit gpu_held t186 0 NON_SECURE 0x92000000 0x2000000 0 at_first stored _ _ _ _).
  - vm_compute. lia.
  - exact (sip_reach_inv (R := unit) _ _ stored_reach).
  - by eexists.
  - lia.
Defined.

Lemma interrupted_code_told_witness : exists s1, tegra_fiq_interrupt_handler 1 40 at_first = Done tt s1 /\ elr (ns (s_cpu s1)) = 0x80081000.
Proof.
  destruct (@interrupted_code_told unit gpu_held t186 1 40 NON_SECURE 0 0 0 at_first) as (s1 & H1 & H2 & _); [vm_compute; lia|vm_compute; discriminate|].
  exists s1. split; [exact H1|exact H2].
Defined.

(** Two processors at once, with nothing to exclude one of them: the second
    asks for the second half, and before it stores the new size the
    first asks again for the whole range. The live values are still the old ones, which both
    read; each clears what it should; and in the end the first half is protected and the data lies in the second. *)
Definition again : list access := Eval vm_compute in
  let l := log (mc_hw (s_mc (final before (ask 0x90000000 0x4000000 at_first)))) in take (length l - length (log (mc_hw (s_mc at_first)))) l.
Definition size_store : access := MmioWrite (TEGRA_MC_BASE + MC_VIDEO_PROTECT_SIZE_MB) 32.
Definition from_size : nat := Eval vm_compute in match list_find (fun a => a = size_store) added with Some (i, _) => Datatypes.S i | None => 0 end.
Example concurrent_moves_expose :
  let h := hist (take from_size added ++ again ++ drop from_size added) stored in
  last (take from_size added) = Some size_store /\ tainted h 0x93000000 = true /\ protected h 0x93000000 = false.
Proof. vm_compute. auto. Qed.
End SipSpec.
