(* ===== verification/SlotMeta.v ===== *)
(** * The boot slots of the boot loader

    [common/lib/a_b_boot/tegrabl_a_b_boot_control.c] with its header, and its
    users [fastboot_a_b.c], [kernel_boot.c], [fixed_boot.c] and
    [tegrabl_partition_loader.c] of cboot: which of two copies of the system
    boots, counted in a small table, the slot meta data (SMD), that lies twice on
    the disk, and in two scratch registers that survive a warm reset. *)

From S2P Require Import Prelude.

Module SlotMeta.

(** ** Numbers ([tegrabl_a_b_boot_control.h], [tegrabl_error.h]) *)

Definition BOOT_CHAIN_MAGIC : Z := 0x43424E00.
Definition BOOT_CHAIN_SUFFIX_A : string := "_a"%string.
Definition BOOT_CHAIN_SUFFIX_B : string := "_b"%string.
Definition BOOT_CHAIN_VERSION_ONE : Z := 1.
Definition BOOT_CHAIN_VERSION_ROOTFS_AB : Z := 4.
Definition BOOT_CHAIN_VERSION_UNIFY_RF_BL_AB : Z := 5.
Definition BOOT_CHAIN_VERSION : Z := BOOT_CHAIN_VERSION_UNIFY_RF_BL_AB.
Definition BOOT_CHAIN_VERSION_MASK : Z := 0xFF.
Definition BOOT_CHAIN_VERSION_GET (version : Z) : Z := Z.land version BOOT_CHAIN_VERSION_MASK.
Definition BOOTCTRL_REDUNDANCY_ENABLE : Z := Z.shiftl 0x01 8.
Definition BOOTCTRL_REDUNDANCY_USER : Z := Z.shiftl 0x01 9.
Definition BOOTCTRL_ROOTFS_AB : Z := Z.shiftl 0x01 10.
Definition BOOTCTRL_UNIFY_RF_BL_AB : Z := Z.shiftl 0x01 13.
Definition BOOTCTRL_SUPPORT_REDUNDANCY (version : Z) : Z := Z.land version BOOTCTRL_REDUNDANCY_ENABLE.
Definition BOOTCTRL_SUPPORT_REDUNDANCY_USER (version : Z) : Z := Z.land version BOOTCTRL_REDUNDANCY_USER.
Definition BOOTCTRL_SUPPORT_ROOTFS_AB (version : Z) : Z := Z.land version BOOTCTRL_ROOTFS_AB.
Definition BOOTCTRL_SUPPORT_UNIFIED_AB (version : Z) : Z := Z.land version BOOTCTRL_UNIFY_RF_BL_AB.
Definition BOOTCTRL_FEATURE_UNIFIED_AB (version : Z) : bool := BOOT_CHAIN_VERSION_UNIFY_RF_BL_AB <=? BOOT_CHAIN_VERSION_GET version.
Definition BOOTCTRL_IS_UNIFIED_AB_ENABLED (version : Z) : bool :=
  negb (BOOTCTRL_SUPPORT_UNIFIED_AB version =? 0) && negb (BOOTCTRL_SUPPORT_ROOTFS_AB version =? 0) && BOOTCTRL_FEATURE_UNIFIED_AB version.
Definition SLOT_RETRY_COUNT_DEFAULT : Z := 7.
Definition SLOT_PRIORITY_DEFAULT : Z := 15.
Definition BOOT_SLOT_A : Z := 0.
Definition BOOT_SLOT_B : Z := 1.
Definition MAX_SLOTS : Z := 2.
Definition ROOTFS_A : Z := 0.
Definition ROOTFS_B : Z := 1.
Definition ROOTFS_INVALID : Z := 3.
Definition ROOTFS_RETRY_COUNT_DEFAULT : Z := 3.
Definition ROOTFS_AB_ROTATE_COUNT : Z := 4.
Definition ROOTFS_STATUS_NORMAL : Z := 0.
Definition ROOTFS_STATUS_BOOT_FAILED : Z := 3.
Definition ROOTFS_STATUS_END : Z := ROOTFS_STATUS_BOOT_FAILED.
Definition ROOTFS_RETRY_COUNT_SHIFT : Z := 0.
Definition ROOTFS_RETRY_COUNT_MASK : Z := Z.shiftl 3 ROOTFS_RETRY_COUNT_SHIFT.
Definition ROOTFS_CURRENT_SHIFT : Z := 2.
Definition ROOTFS_CURRENT_MASK : Z := Z.shiftl 3 ROOTFS_CURRENT_SHIFT.
Definition ROOTFS_MAX_RETRY_COUNT_SHIFT : Z := 0.
Definition ROOTFS_MAX_RETRY_COUNT_MASK : Z := Z.shiftl 3 ROOTFS_MAX_RETRY_COUNT_SHIFT.
Definition GET_ROOTFS_ACTIVE (rf_sel : Z) : Z := Z.shiftr (Z.land rf_sel ROOTFS_CURRENT_MASK) ROOTFS_CURRENT_SHIFT.
Definition SET_ROOTFS_ACTIVE (slot rf_sel : Z) : Z := Z.lor (Z.land rf_sel (Z.lnot ROOTFS_CURRENT_MASK)) (Z.shiftl slot ROOTFS_CURRENT_SHIFT).
Definition GET_ROOTFS_RETRY_COUNT (rf_sel : Z) : Z := Z.shiftr (Z.land rf_sel ROOTFS_RETRY_COUNT_MASK) ROOTFS_RETRY_COUNT_SHIFT.
Definition SET_ROOTFS_RETRY_COUNT (cnt rf_sel : Z) : Z := Z.lor (Z.land rf_sel (Z.lnot ROOTFS_RETRY_COUNT_MASK)) (Z.shiftl cnt ROOTFS_RETRY_COUNT_SHIFT).
Definition GET_MAX_ROOTFS_RETRY_COUNT (rf_misc : Z) : Z := Z.shiftr (Z.land rf_misc ROOTFS_MAX_RETRY_COUNT_MASK) ROOTFS_MAX_RETRY_COUNT_SHIFT.

(** The scratch register of the boot chain. *)
Definition BOOT_CHAIN_REG_MAGIC_MASK : Z := 0x0000FFFF.
Definition BOOT_CHAIN_REG_MAGIC : Z := 0xCAFE.
Definition BOOT_CHAIN_REG_MAGIC_SET (reg : Z) : Z := Z.lor (Z.land reg (Z.lnot BOOT_CHAIN_REG_MAGIC_MASK)) BOOT_CHAIN_REG_MAGIC.
Definition BOOT_CHAIN_REG_MAGIC_GET (reg : Z) : Z := Z.land reg BOOT_CHAIN_REG_MAGIC_MASK.
Definition BOOT_CHAIN_REG_SLOT_NUM_MASK : Z := Z.shiftl 0x07 16.
Definition BOOT_CHAIN_REG_SLOT_NUM_SET (slot reg : Z) : Z := Z.lor (Z.land reg (Z.lnot BOOT_CHAIN_REG_SLOT_NUM_MASK)) (Z.shiftl (Z.land slot 0x07) 16).
Definition BOOT_CHAIN_REG_SLOT_NUM_GET (reg : Z) : Z := Z.land (Z.shiftr reg 16) 0x07.
Definition BOOT_CHAIN_REG_MAX_SLOTS_MASK : Z := Z.shiftl 0x07 19.
Definition BOOT_CHAIN_REG_MAX_SLOTS_SET (max_slots reg : Z) : Z := Z.lor (Z.land reg (Z.lnot BOOT_CHAIN_REG_MAX_SLOTS_MASK)) (Z.shiftl (Z.land max_slots 0x07) 19).
Definition BOOT_CHAIN_REG_MAX_SLOTS_GET (reg : Z) : Z := Z.land (Z.shiftr reg 19) 0x07.
Definition BOOT_CHAIN_REG_B_RETRY_COUNT_MASK : Z := Z.shiftl 0x0F 22.
Definition BOOT_CHAIN_REG_B_RETRY_COUNT_SET (count reg : Z) : Z := Z.lor (Z.land reg (Z.lnot BOOT_CHAIN_REG_B_RETRY_COUNT_MASK)) (Z.shiftl (Z.land count 0x0F) 22).
Definition BOOT_CHAIN_REG_B_RETRY_COUNT_GET (reg : Z) : Z := Z.land (Z.shiftr reg 22) 0x0F.
Definition BOOT_CHAIN_REG_A_RETRY_COUNT_MASK : Z := Z.shiftl 0x0F 26.
Definition BOOT_CHAIN_REG_A_RETRY_COUNT_SET (count reg : Z) : Z := Z.lor (Z.land reg (Z.lnot BOOT_CHAIN_REG_A_RETRY_COUNT_MASK)) (Z.shiftl (Z.land count 0x0F) 26).
Definition BOOT_CHAIN_REG_A_RETRY_COUNT_GET (reg : Z) : Z := Z.land (Z.shiftr reg 26) 0x0F.
Definition BOOT_CHAIN_REG_UPDATE_FLAG_MASK : Z := Z.shiftl 0x03 30.
Definition BOOT_CHAIN_REG_UPDATE_FLAG_SET (flag reg : Z) : Z := Z.lor (Z.land reg (Z.lnot BOOT_CHAIN_REG_UPDATE_FLAG_MASK)) (Z.shiftl (Z.land flag 0x03) 30).
Definition BOOT_CHAIN_REG_UPDATE_FLAG_GET (reg : Z) : Z := Z.land (Z.shiftr reg 30) 0x03.
Definition BC_FLAG_REDUNDANCY_BOOT : Z := 0x01.
Definition BC_FLAG_OTA_ON : Z := 0x03.

(** The scratch register of the root file systems. *)
Definition ROOTFS_AB_REG_MAGIC_MASK : Z := 0x0000FFFF.
Definition ROOTFS_AB_REG_MAGIC : Z := 0xFACE.
Definition ROOTFS_AB_REG_MAGIC_SET (reg : Z) : Z := Z.lor (Z.land reg (Z.lnot ROOTFS_AB_REG_MAGIC_MASK)) ROOTFS_AB_REG_MAGIC.
Definition ROOTFS_AB_REG_MAGIC_GET (reg : Z) : Z := Z.land reg ROOTFS_AB_REG_MAGIC_MASK.
Definition ROOTFS_AB_REG_ROTATE_SHIFT : Z := 16.
Definition ROOTFS_AB_REG_ROTATE_MASK : Z := Z.shiftl 0x0F ROOTFS_AB_REG_ROTATE_SHIFT.
Definition ROOTFS_AB_REG_ROTATE_COUNT_SET (count reg : Z) : Z := Z.lor (Z.land reg (Z.lnot ROOTFS_AB_REG_ROTATE_MASK)) (Z.shiftl (Z.land count 0x0F) ROOTFS_AB_REG_ROTATE_SHIFT).
Definition ROOTFS_AB_REG_ROTATE_COUNT_GET (reg : Z) : Z := Z.shiftr (Z.land reg ROOTFS_AB_REG_ROTATE_MASK) ROOTFS_AB_REG_ROTATE_SHIFT.
Definition ROOTFS_AB_REG_RETRY_SHIFT : Z := 20.
Definition ROOTFS_AB_REG_RETRY_MASK : Z := Z.shiftl 0x03 ROOTFS_AB_REG_RETRY_SHIFT.
Definition ROOTFS_AB_REG_RETRY_COUNT_SET (count reg : Z) : Z := Z.lor (Z.land reg (Z.lnot ROOTFS_AB_REG_RETRY_MASK)) (Z.shiftl (Z.land count 0x03) ROOTFS_AB_REG_RETRY_SHIFT).
Definition ROOTFS_AB_REG_RETRY_COUNT_GET (reg : Z) : Z := Z.shiftr (Z.land reg ROOTFS_AB_REG_RETRY_MASK) ROOTFS_AB_REG_RETRY_SHIFT.

Definition TEGRABL_ERR_INVALID : Z := 0x02.
Definition TEGRABL_ERR_NO_MEMORY : Z := 0x03.
Definition TEGRABL_ERR_NOT_FOUND : Z := 0x0d.
Definition TEGRABL_ERR_VERIFY_FAILED : Z := 0x18.
Definition TEGRABL_ERR_AB_BOOTCTRL : Z := 0x54.
Definition tegrabl_error_value (module aux_info reason : Z) : Z :=
  Z.lor (Z.lor (Z.lor (Z.shiftl (Z.land module 0xFF) 24) (Z.shiftl (Z.land module 0xFF) 16)) (Z.shiftl (Z.land aux_info 0xFF) 8)) (Z.land reason 0xFF).
Definition TEGRABL_ERROR (reason aux_info : Z) : Z := tegrabl_error_value TEGRABL_ERR_AB_BOOTCTRL aux_info reason.
Definition TEGRABL_ERROR_REASON (error : Z) : Z := Z.land error 0xFF.
Definition TEGRABL_ERR_FASTBOOT : Z := 0x18.
Definition tegrabl_err_set_highest_module (error module : Z) : Z :=
  Z.lor (Z.land error (Z.lnot (Z.shiftl 0xFF 24))) (Z.shiftl (Z.land module 0xFF) 24).
Definition TEGRABL_SET_HIGHEST_MODULE (error : Z) : Z := tegrabl_err_set_highest_module error TEGRABL_ERR_AB_BOOTCTRL.

(** ** Checksums ([tegrabl_utils.c]) *)

Definition tegrabl_crc32_tab : list Z :=
  [
   0x00000000; 0x77073096; 0xee0e612c; 0x990951ba; 0x076dc419; 0x706af48f; 0xe963a535; 0x9e6495a3;
   0x0edb8832; 0x79dcb8a4; 0xe0d5e91e; 0x97d2d988; 0x09b64c2b; 0x7eb17cbd; 0xe7b82d07; 0x90bf1d91;
   0x1db71064; 0x6ab020f2; 0xf3b97148; 0x84be41de; 0x1adad47d; 0x6ddde4eb; 0xf4d4b551; 0x83d385c7;
   0x136c9856; 0x646ba8c0; 0xfd62f97a; 0x8a65c9ec; 0x14015c4f; 0x63066cd9; 0xfa0f3d63; 0x8d080df5;
   0x3b6e20c8; 0x4c69105e; 0xd56041e4; 0xa2677172; 0x3c03e4d1; 0x4b04d447; 0xd20d85fd; 0xa50ab56b;
   0x35b5a8fa; 0x42b2986c; 0xdbbbc9d6; 0xacbcf940; 0x32d86ce3; 0x45df5c75; 0xdcd60dcf; 0xabd13d59;
   0x26d930ac; 0x51de003a; 0xc8d75180; 0xbfd06116; 0x21b4f4b5; 0x56b3c423; 0xcfba9599; 0xb8bda50f;
   0x2802b89e; 0x5f058808; 0xc60cd9b2; 0xb10be924; 0x2f6f7c87; 0x58684c11; 0xc1611dab; 0xb6662d3d;
   0x76dc4190; 0x01db7106; 0x98d220bc; 0xefd5102a; 0x71b18589; 0x06b6b51f; 0x9fbfe4a5; 0xe8b8d433;
   0x7807c9a2; 0x0f00f934; 0x9609a88e; 0xe10e9818; 0x7f6a0dbb; 0x086d3d2d; 0x91646c97; 0xe6635c01;
   0x6b6b51f4; 0x1c6c6162; 0x856530d8; 0xf262004e; 0x6c0695ed; 0x1b01a57b; 0x8208f4c1; 0xf50fc457;
   0x65b0d9c6; 0x12b7e950; 0x8bbeb8ea; 0xfcb9887c; 0x62dd1ddf; 0x15da2d49; 0x8cd37cf3; 0xfbd44c65;
   0x4db26158; 0x3ab551ce; 0xa3bc0074; 0xd4bb30e2; 0x4adfa541; 0x3dd895d7; 0xa4d1c46d; 0xd3d6f4fb;
   0x4369e96a; 0x346ed9fc; 0xad678846; 0xda60b8d0; 0x44042d73; 0x33031de5; 0xaa0a4c5f; 0xdd0d7cc9;
   0x5005713c; 0x270241aa; 0xbe0b1010; 0xc90c2086; 0x5768b525; 0x206f85b3; 0xb966d409; 0xce61e49f;
   0x5edef90e; 0x29d9c998; 0xb0d09822; 0xc7d7a8b4; 0x59b33d17; 0x2eb40d81; 0xb7bd5c3b; 0xc0ba6cad;
   0xedb88320; 0x9abfb3b6; 0x03b6e20c; 0x74b1d29a; 0xead54739; 0x9dd277af; 0x04db2615; 0x73dc1683;
   0xe3630b12; 0x94643b84; 0x0d6d6a3e; 0x7a6a5aa8; 0xe40ecf0b; 0x9309ff9d; 0x0a00ae27; 0x7d079eb1;
   0xf00f9344; 0x8708a3d2; 0x1e01f268; 0x6906c2fe; 0xf762575d; 0x806567cb; 0x196c3671; 0x6e6b06e7;
   0xfed41b76; 0x89d32be0; 0x10da7a5a; 0x67dd4acc; 0xf9b9df6f; 0x8ebeeff9; 0x17b7be43; 0x60b08ed5;
   0xd6d6a3e8; 0xa1d1937e; 0x38d8c2c4; 0x4fdff252; 0xd1bb67f1; 0xa6bc5767; 0x3fb506dd; 0x48b2364b;
   0xd80d2bda; 0xaf0a1b4c; 0x36034af6; 0x41047a60; 0xdf60efc3; 0xa867df55; 0x316e8eef; 0x4669be79;
   0xcb61b38c; 0xbc66831a; 0x256fd2a0; 0x5268e236; 0xcc0c7795; 0xbb0b4703; 0x220216b9; 0x5505262f;
   0xc5ba3bbe; 0xb2bd0b28; 0x2bb45a92; 0x5cb36a04; 0xc2d7ffa7; 0xb5d0cf31; 0x2cd99e8b; 0x5bdeae1d;
   0x9b64c2b0; 0xec63f226; 0x756aa39c; 0x026d930a; 0x9c0906a9; 0xeb0e363f; 0x72076785; 0x05005713;
   0x95bf4a82; 0xe2b87a14; 0x7bb12bae; 0x0cb61b38; 0x92d28e9b; 0xe5d5be0d; 0x7cdcefb7; 0x0bdbdf21;
   0x86d3d2d4; 0xf1d4e242; 0x68ddb3f8; 0x1fda836e; 0x81be16cd; 0xf6b9265b; 0x6fb077e1; 0x18b74777;
   0x88085ae6; 0xff0f6a70; 0x66063bca; 0x11010b5c; 0x8f659eff; 0xf862ae69; 0x616bffd3; 0x166ccf45;
   0xa00ae278; 0xd70dd2ee; 0x4e048354; 0x3903b3c2; 0xa7672661; 0xd06016f7; 0x4969474d; 0x3e6e77db;
   0xaed16a4a; 0xd9d65adc; 0x40df0b66; 0x37d83bf0; 0xa9bcae53; 0xdebb9ec5; 0x47b2cf7f; 0x30b5ffe9;
   0xbdbdf21c; 0xcabac28a; 0x53b39330; 0x24b4a3a6; 0xbad03605; 0xcdd70693; 0x54de5729; 0x23d967bf;
   0xb3667a2e; 0xc4614ab8; 0x5d681b02; 0x2a6f2b94; 0xb40bbe37; 0xc30c8ea1; 0x5a05df1b; 0x2d02ef8d
  ].
Definition tegrabl_utils_crc32 (val : Z) (buffer : list Z) : Z :=
  Z.lxor (foldl (fun final_crc b => Z.lxor (nth (Z.to_nat (Z.land (Z.lxor final_crc b) 0xFF)) tegrabl_crc32_tab 0) (Z.shiftr final_crc 8))
            (Z.lxor val 0xFFFFFFFF) buffer) 0xFFFFFFFF.

(** ** The table ([struct slot_meta_data_v2]), as its bytes

    Packed: 22 bytes of [slot_meta_data], then 169 of [slot_meta_data_ext]. *)

Definition smd_len : nat := 22.
Definition smd_ext_len : nat := 169.
Definition smd_v2_len : nat := 191.
Definition crc32_field : nat := 4.
Definition field (off n : nat) (b : list Z) : Z := foldr (fun x acc => x + 256 * acc) 0 (take n (drop off b)).
Definition splice (off : nat) (bs b : list Z) : list Z := take off b ++ bs ++ drop (off + length bs) b.
Definition u32_bytes (v : Z) : list Z := [u8 v; u8 (Z.shiftr v 8); u8 (Z.shiftr v 16); u8 (Z.shiftr v 24)].
Definition set_u8 (off : nat) (v : Z) (b : list Z) : list Z := <[off := u8 v]> b.

Definition magic (b : list Z) : Z := field 0 4 b.
Definition version (b : list Z) : Z := field 4 2 b.
Definition num_slots (b : list Z) : Z := field 6 2 b.
Definition crc32 (b : list Z) : Z := field 18 4 b.
Definition ext_crc32 (b : list Z) : Z := field 22 4 b.
(** The fields of [slot_info[slot]]. *)
Definition priority : nat := 0.
Definition suffix : nat := 1.
Definition retry_count : nat := 3.
Definition boot_successful : nat := 4.
Definition slot_info (slot : Z) (f : nat) : nat := 8 + 5 * Z.to_nat slot + f.
Definition ROOTFS_SELECT : nat := 38.
Definition ROOTFS_STATUS (rfs_id : Z) : nat := 39 + Z.to_nat rfs_id.
Definition rootfs_misc_info : nat := 43.
Definition max_bl_retry_count : nat := 46.

(** ** State

    The scratch registers, the statics of the file and the two copies on the
    disk; [ops] counts the answers of the disk and of the allocator. *)

Definition SMD_COPY_PRIMARY : Z := 0.
Definition SMD_COPY_SECONDARY : Z := 1.
Definition SMD_INVALID : Z := 2.

Record cboot := Cboot {
  boot_slot_reg : Z;
  rootfs_slot_reg : Z;
  smd_loadaddress : option (list Z);
  smd_backup : option (list Z);
  current_smd : Z;
  part_smd : list Z;
  part_smd_b : list Z;
  ops : nat
}.
Definition B (A : Type) : Type := M cboot A.

Definition set_boot_reg (v : Z) (s : cboot) := Cboot v (rootfs_slot_reg s) (smd_loadaddress s) (smd_backup s) (current_smd s) (part_smd s) (part_smd_b s) (ops s).
Definition set_rootfs_reg (v : Z) (s : cboot) := Cboot (boot_slot_reg s) v (smd_loadaddress s) (smd_backup s) (current_smd s) (part_smd s) (part_smd_b s) (ops s).
Definition set_smd (v : option (list Z)) (s : cboot) := Cboot (boot_slot_reg s) (rootfs_slot_reg s) v (smd_backup s) (current_smd s) (part_smd s) (part_smd_b s) (ops s).
Definition set_backup (v : option (list Z)) (s : cboot) := Cboot (boot_slot_reg s) (rootfs_slot_reg s) (smd_loadaddress s) v (current_smd s) (part_smd s) (part_smd_b s) (ops s).
Definition set_current (v : Z) (s : cboot) := Cboot (boot_slot_reg s) (rootfs_slot_reg s) (smd_loadaddress s) (smd_backup s) v (part_smd s) (part_smd_b s) (ops s).
Definition set_ops (v : nat) (s : cboot) := Cboot (boot_slot_reg s) (rootfs_slot_reg s) (smd_loadaddress s) (smd_backup s) (current_smd s) (part_smd s) (part_smd_b s) v.
Definition part (c : Z) (s : cboot) : list Z := if c =? SMD_COPY_PRIMARY then part_smd s else part_smd_b s.
Definition set_part (c : Z) (v : list Z) (s : cboot) : cboot :=
  if c =? SMD_COPY_PRIMARY
  then Cboot (boot_slot_reg s) (rootfs_slot_reg s) (smd_loadaddress s) (smd_backup s) (current_smd s) v (part_smd_b s) (ops s)
  else Cboot (boot_slot_reg s) (rootfs_slot_reg s) (smd_loadaddress s) (smd_backup s) (current_smd s) (part_smd s) v (ops s).

(** ** The disk and the allocator

    The drivers are not modelled: every operation answers as it likes, and a
    write that does not finish, because it fails or because the power goes, leaves any bytes behind. *)
Inductive write_result := WriteOk | WriteError (error : Z) (rest : list Z) | PowerLost (rest : list Z).
Class storage := Storage {
  storage_qspi : bool;                             (* the storage must be erased before it is written *)
  part_error : nat -> Z;                           (* of opening, seeking and reading; 0: no error *)
  write_out : nat -> list Z -> list Z -> write_result;
  malloc_ok : nat -> bool
}.
(** Whatever lies there, a table has as many bytes. *)
Definition sector (l : list Z) : list Z := take smd_v2_len (map u8 l ++ replicate smd_v2_len 0).
Definition erased : list Z := replicate smd_v2_len 0xFF.

Section SlotMeta.
Context `{sto : storage}.

Definition next_op : B nat := fun s => Done (ops s) (set_ops (S (ops s)) s).
Definition tegrabl_malloc : B bool := n <- next_op ;; ret (malloc_ok n).
Definition part_op : B Z := n <- next_op ;; ret (u32 (part_error n)).
Definition part_read (c : Z) : B Z :=
  e <- part_op ;;
  (if e =? 0 then modify (fun s => set_smd (Some (part c s)) s) else ret tt) ;;; ret e.
(** [None]: the power is lost. *)
Definition part_write (c : Z) (data : list Z) : B (option Z) :=
  n <- next_op ;;
  s <- get ;;
  match write_out n (part c s) data with
  | WriteOk => modify (set_part c data) ;;; tret 0
  | WriteError e rest => modify (set_part c (sector rest)) ;;; tret (if u32 e =? 0 then 1 else u32 e)
  | PowerLost rest => modify (set_part c (sector rest)) ;;; ret None
  end.

(** ** Reading and writing the table

    The code passes the address of the table along; it is always the one
    that [tegrabl_a_b_get_smd] keeps, so that it is the state here. *)

Definition loaded : B (list Z) := s <- get ;; match smd_loadaddress s with Some b => ret b | None => panic end.
Definition upd_smd (f : list Z -> list Z) : B unit := b <- loaded ;; modify (set_smd (Some (f b))).
Definition tegrabl_a_b_get_version : B Z := b <- loaded ;; ret (version b).
Definition tegrabl_a_b_get_max_num_slots : B Z := b <- loaded ;; ret (num_slots b).

(** The getters and setters of a field of a slot. *)
Definition get_slot_field (f : nat) (slot : Z) : B (Z + Z) :=
  s <- get ;;
  match smd_loadaddress s with
  | None => ret (inl (TEGRABL_ERROR TEGRABL_ERR_INVALID 0))
  | Some b =>
      if MAX_SLOTS <=? slot then ret (inl (TEGRABL_ERROR TEGRABL_ERR_INVALID 0))
      else v <- deref (b !! slot_info slot f) ;; ret (inr v)
  end.
Definition set_slot_field (f : nat) (slot v : Z) : B Z :=
  s <- get ;;
  match smd_loadaddress s with
  | None => ret (TEGRABL_ERROR TEGRABL_ERR_INVALID 0)
  | Some b =>
      if MAX_SLOTS <=? slot then ret (TEGRABL_ERROR TEGRABL_ERR_INVALID 0)
      else upd_smd (set_u8 (slot_info slot f) v) ;;; ret 0
  end.
Definition tegrabl_a_b_get_successful : Z -> B (Z + Z) := get_slot_field boot_successful.
Definition tegrabl_a_b_get_retry_count : Z -> B (Z + Z) := get_slot_field retry_count.
Definition tegrabl_a_b_get_priority : Z -> B (Z + Z) := get_slot_field priority.
Definition tegrabl_a_b_set_successful : Z -> Z -> B Z := set_slot_field boot_successful.
Definition tegrabl_a_b_set_retry_count : Z -> Z -> B Z := set_slot_field retry_count.
Definition tegrabl_a_b_set_priority : Z -> Z -> B Z := set_slot_field priority.

Definition tegrabl_a_b_get_slot_num : B (Z + Z) :=
  s <- get ;; match smd_loadaddress s with None => ret (inl (TEGRABL_ERROR TEGRABL_ERR_INVALID 0)) | Some b => ret (inr (u8 (num_slots b))) end.

Definition tegrabl_a_b_is_unbootable (slot : Z) : B (Z + bool) :=
  s <- get ;;
  if bool_decide (smd_loadaddress s = None) || (MAX_SLOTS <=? slot) then ret (inl (TEGRABL_ERROR TEGRABL_ERR_INVALID 0))
  else
    p <- tegrabl_a_b_get_priority slot ;;
    match p with
    | inl e => ret (inl (TEGRABL_SET_HIGHEST_MODULE e))
    | inr p =>
        r <- tegrabl_a_b_get_retry_count slot ;;
        match r with
        | inl e => ret (inl (TEGRABL_SET_HIGHEST_MODULE e))
        | inr r => ret (inr ((p =? 0) || (r =? 0)))
        end
    end.

Definition suffix_bytes (s : string) : list Z := map (fun c => Z.of_nat (Ascii.nat_of_ascii c)) (String.list_ascii_of_string s).
Definition tegrabl_a_b_init : B unit :=
  let slot i p r ok sfx b :=
    splice (slot_info i suffix) (suffix_bytes sfx) (set_u8 (slot_info i boot_successful) ok (set_u8 (slot_info i retry_count) r (set_u8 (slot_info i priority) p b))) in
  upd_smd (slot 0 15 7 1 BOOT_CHAIN_SUFFIX_A) ;;;
  upd_smd (slot 1 0 0 0 BOOT_CHAIN_SUFFIX_B) ;;;
  upd_smd (splice 0 (u32_bytes BOOT_CHAIN_MAGIC)) ;;;
  upd_smd (splice 4 [u8 BOOT_CHAIN_VERSION; 0]) ;;;
  upd_smd (splice 6 [1; 0]).

(** ** The scratch registers ([a_b_helper.c]) *)

Definition tegrabl_get_boot_slot_reg : B Z := gets boot_slot_reg.
Definition tegrabl_set_boot_slot_reg (v : Z) : B unit := modify (set_boot_reg (u32 v)).
Definition tegrabl_get_rootfs_slot_reg : B Z := gets rootfs_slot_reg.
Definition tegrabl_set_rootfs_slot_reg (v : Z) : B unit := modify (set_rootfs_reg (u32 v)).

(** ** The active slot *)

Definition tegrabl_a_b_is_valid_reg (reg : Z) : bool :=
  (BOOT_CHAIN_REG_MAGIC_GET reg =? BOOT_CHAIN_REG_MAGIC) && (1 <? BOOT_CHAIN_REG_MAX_SLOTS_GET reg).
Definition boot_chain_get_bootslot_from_reg : B (Z * Z) :=
  reg <- tegrabl_get_boot_slot_reg ;;
  if negb (tegrabl_a_b_is_valid_reg reg) then ret (TEGRABL_ERROR TEGRABL_ERR_NOT_FOUND 0, BOOT_SLOT_A)
  else ret (0, BOOT_CHAIN_REG_SLOT_NUM_GET reg).

(** [n]: the slots that are left; a slot behind the end of the table is read
    there, or behind the memory of the table. *)
Fixpoint bootslot_loop (b : list Z) (n : nat) (i max_priority slot : Z) : B (Z * Z) :=
  match n with
  | O => ret (max_priority, slot)
  | S n =>
      r <- deref (b !! slot_info i retry_count) ;;
      p <- deref (b !! slot_info i priority) ;;
      if negb (r =? 0) && negb (p =? 0) && (max_priority <? p) then bootslot_loop b n (i + 1) p i
      else bootslot_loop b n (i + 1) max_priority slot
  end.
Definition boot_chain_get_bootslot_from_smd : B (Z + Z) :=
  b <- loaded ;;
  if negb (magic b =? BOOT_CHAIN_MAGIC) then ret (inl (TEGRABL_ERROR TEGRABL_ERR_INVALID 0))
  else
    r <- bootslot_loop b (Z.to_nat (num_slots b)) 0 0 0 ;;
    if r.1 =? 0 then ret (inl (TEGRABL_ERROR TEGRABL_ERR_INVALID 1)) else ret (inr r.2).

(** ** Retry counts *)

Definition tegrabl_a_b_set_retry_count_reg (slot retry_count : Z) : B unit :=
  reg <- tegrabl_get_boot_slot_reg ;;
  tegrabl_set_boot_slot_reg
    (if slot =? BOOT_SLOT_A then BOOT_CHAIN_REG_A_RETRY_COUNT_SET retry_count reg
     else if slot =? BOOT_SLOT_B then BOOT_CHAIN_REG_B_RETRY_COUNT_SET retry_count reg else reg).
Definition tegrabl_a_b_get_retry_count_reg (slot reg : Z) : B Z :=
  if slot =? BOOT_SLOT_A then ret (BOOT_CHAIN_REG_A_RETRY_COUNT_GET reg)
  else if slot =? BOOT_SLOT_B then ret (BOOT_CHAIN_REG_B_RETRY_COUNT_GET reg) else panic.

Inductive copy_direct := FROM_SMD_TO_REG | FROM_REG_TO_SMD.
(** The answer is the new value of the register. *)
Definition tegrabl_a_b_copy_retry_count (reg : Z) (direct : copy_direct) : B Z :=
  match direct with
  | FROM_REG_TO_SMD =>
      upd_smd (set_u8 (slot_info BOOT_SLOT_A retry_count) (BOOT_CHAIN_REG_A_RETRY_COUNT_GET reg)) ;;;
      upd_smd (set_u8 (slot_info BOOT_SLOT_B retry_count) (BOOT_CHAIN_REG_B_RETRY_COUNT_GET reg)) ;;; ret reg
  | FROM_SMD_TO_REG =>
      b <- loaded ;;
      a <- deref (b !! slot_info BOOT_SLOT_A retry_count) ;;
      c <- deref (b !! slot_info BOOT_SLOT_B retry_count) ;;
      ret (BOOT_CHAIN_REG_B_RETRY_COUNT_SET c (BOOT_CHAIN_REG_A_RETRY_COUNT_SET a reg))
  end.

Definition tegrabl_a_b_save_boot_slot_reg (slot : Z) : B unit :=
  b <- loaded ;;
  reg <- tegrabl_get_boot_slot_reg ;;
  reg <- tegrabl_a_b_copy_retry_count (BOOT_CHAIN_REG_MAX_SLOTS_SET (num_slots b) (BOOT_CHAIN_REG_SLOT_NUM_SET slot reg)) FROM_SMD_TO_REG ;;
  ok <- deref (b !! slot_info slot boot_successful) ;;
  tegrabl_set_boot_slot_reg
    (if ok =? 0 then BOOT_CHAIN_REG_UPDATE_FLAG_SET BC_FLAG_OTA_ON reg
     else if negb (BOOTCTRL_SUPPORT_REDUNDANCY (version b) =? 0) then BOOT_CHAIN_REG_UPDATE_FLAG_SET BC_FLAG_REDUNDANCY_BOOT reg
     else reg).

Definition tegrabl_a_b_init_boot_slot_reg : B Z :=
  reg <- tegrabl_get_boot_slot_reg ;;
  if BOOT_CHAIN_REG_MAGIC_GET reg =? BOOT_CHAIN_REG_MAGIC then ret 0
  else
    tegrabl_set_boot_slot_reg (BOOT_CHAIN_REG_MAGIC_SET 0) ;;;
    r <- boot_chain_get_bootslot_from_smd ;;
    match r with inl e => ret e | inr slot => tegrabl_a_b_save_boot_slot_reg slot ;;; ret 0 end.

Definition tegrabl_a_b_check_and_update_retry_count (slot : Z) : B Z :=
  b <- loaded ;;
  ok <- deref (b !! slot_info slot boot_successful) ;;
  (if negb (BOOTCTRL_SUPPORT_REDUNDANCY (version b) =? 0) || (ok =? 0) then
     r <- deref (b !! slot_info slot retry_count) ;;
     assert_ (negb (r =? 0)) ;;;
     upd_smd (set_u8 (slot_info slot retry_count) (r - 1))
   else ret tt) ;;;
  ret 0.

Definition tegrabl_get_max_retry_count : B Z :=
  b <- loaded ;;
  let m := if BOOT_CHAIN_VERSION_GET (version b) <? BOOT_CHAIN_VERSION_ROOTFS_AB then SLOT_RETRY_COUNT_DEFAULT else field max_bl_retry_count 1 b in
  ret (if (m =? 0) || (SLOT_RETRY_COUNT_DEFAULT <? m) then SLOT_RETRY_COUNT_DEFAULT else m).
Definition get_max_rotate_count : B Z :=
  m <- tegrabl_get_max_retry_count ;; ret (if m * 2 <? ROOTFS_AB_ROTATE_COUNT then m * 2 else ROOTFS_AB_ROTATE_COUNT).

Definition decrease_priority (i : Z) : B unit :=
  b <- loaded ;;
  p <- deref (b !! slot_info i priority) ;;
  if 1 <? p then upd_smd (set_u8 (slot_info i priority) (p - 1)) else ret tt.
Definition tegrabl_a_b_set_active_slot (slot_id : Z) : B Z :=
  s <- get ;;
  if bool_decide (smd_loadaddress s = None) || (MAX_SLOTS <=? slot_id) then ret (TEGRABL_ERROR TEGRABL_ERR_INVALID 0)
  else
    decrease_priority 0 ;;; decrease_priority 1 ;;;
    error <- tegrabl_a_b_set_priority slot_id SLOT_PRIORITY_DEFAULT ;;
    if negb (error =? 0) then ret (TEGRABL_SET_HIGHEST_MODULE error)
    else
      m <- tegrabl_get_max_retry_count ;;
      error <- tegrabl_a_b_set_retry_count slot_id m ;;
      if negb (error =? 0) then ret (TEGRABL_SET_HIGHEST_MODULE error)
      else
        error <- tegrabl_a_b_set_successful slot_id 0 ;;
        if negb (error =? 0) then ret (TEGRABL_SET_HIGHEST_MODULE error) else ret 0.

(** ** Root file systems *)

Definition other (id : Z) : Z := if id =? 0 then 1 else 0.   (* [!id] *)

Definition tegrabl_get_rootfs_max_retry_count : B Z :=
  b <- loaded ;;
  let m := if BOOT_CHAIN_VERSION_GET (version b) <? BOOT_CHAIN_VERSION_UNIFY_RF_BL_AB then ROOTFS_RETRY_COUNT_DEFAULT
           else GET_MAX_ROOTFS_RETRY_COUNT (field rootfs_misc_info 1 b) in
  ret (if (ROOTFS_RETRY_COUNT_DEFAULT <? m) || (m =? 0) then ROOTFS_RETRY_COUNT_DEFAULT else m).

Definition tegrabl_a_b_set_active_rootfs (rootfs_id : Z) : B Z :=
  if negb (rootfs_id =? ROOTFS_A) && negb (rootfs_id =? ROOTFS_B) && negb (rootfs_id =? ROOTFS_INVALID)
  then ret (TEGRABL_ERROR TEGRABL_ERR_INVALID 0)
  else
    upd_smd (fun b => set_u8 ROOTFS_SELECT (SET_ROOTFS_ACTIVE rootfs_id (field ROOTFS_SELECT 1 b)) b) ;;;
    m <- tegrabl_get_rootfs_max_retry_count ;;
    upd_smd (fun b => set_u8 ROOTFS_SELECT (SET_ROOTFS_RETRY_COUNT m (field ROOTFS_SELECT 1 b)) b) ;;; ret 0.
Definition tegrabl_a_b_get_rootfs_retry_count : B Z := b <- loaded ;; ret (GET_ROOTFS_RETRY_COUNT (field ROOTFS_SELECT 1 b)).
Definition tegrabl_a_b_set_rootfs_retry_count (rootfs_retry_count : Z) : B Z :=
  m <- tegrabl_get_rootfs_max_retry_count ;;
  if m <? rootfs_retry_count then ret (TEGRABL_ERROR TEGRABL_ERR_INVALID 0)
  else upd_smd (fun b => set_u8 ROOTFS_SELECT (SET_ROOTFS_RETRY_COUNT rootfs_retry_count (field ROOTFS_SELECT 1 b)) b) ;;; ret 0.
Definition tegrabl_a_b_get_rootfs_status (slot_id : Z) : B (Z + Z) :=
  if MAX_SLOTS <=? slot_id then ret (inl (TEGRABL_ERROR TEGRABL_ERR_INVALID 0))
  else b <- loaded ;; ret (inr (field (ROOTFS_STATUS slot_id) 1 b)).
Definition tegrabl_a_b_set_rootfs_status (slot_id rootfs_status : Z) : B Z :=
  if (MAX_SLOTS <=? slot_id) || (ROOTFS_STATUS_END <? rootfs_status) then ret (TEGRABL_ERROR TEGRABL_ERR_INVALID 0)
  else upd_smd (set_u8 (ROOTFS_STATUS slot_id) rootfs_status) ;;; ret 0.

Definition tegrabl_a_b_init_rootfs_slot_reg : B unit :=
  version <- tegrabl_a_b_get_version ;;
  if (BOOTCTRL_SUPPORT_REDUNDANCY_USER version =? 0) && (BOOTCTRL_SUPPORT_ROOTFS_AB version =? 0) then ret tt
  else
    rf_reg <- tegrabl_get_rootfs_slot_reg ;;
    if ROOTFS_AB_REG_MAGIC_GET rf_reg =? ROOTFS_AB_REG_MAGIC then ret tt
    else
      let rf_reg := ROOTFS_AB_REG_MAGIC_SET 0 in
      if negb (BOOTCTRL_SUPPORT_ROOTFS_AB version =? 0) && (BOOTCTRL_SUPPORT_UNIFIED_AB version =? 0) then
        retry_count <- tegrabl_a_b_get_rootfs_retry_count ;;
        tegrabl_set_rootfs_slot_reg (ROOTFS_AB_REG_RETRY_COUNT_SET retry_count rf_reg)
      else tegrabl_set_rootfs_slot_reg rf_reg.

(** The retry counts are bytes: one less than 0 is 255. *)
Definition tegrabl_a_b_select_active_rootfs : B unit :=
  version <- tegrabl_a_b_get_version ;;
  if (BOOTCTRL_SUPPORT_ROOTFS_AB version =? 0) || BOOTCTRL_IS_UNIFIED_AB_ENABLED version then ret tt
  else
    b <- loaded ;;
    let rfs_id := GET_ROOTFS_ACTIVE (field ROOTFS_SELECT 1 b) in
    rf_reg <- tegrabl_get_rootfs_slot_reg ;;
    let decrease retry_count := tegrabl_set_rootfs_slot_reg (ROOTFS_AB_REG_RETRY_COUNT_SET (retry_count - 1) rf_reg) in
    if ROOTFS_AB_REG_RETRY_COUNT_GET rf_reg =? 0 then
      _ <- tegrabl_a_b_set_rootfs_status rfs_id ROOTFS_STATUS_BOOT_FAILED ;;
      rfs_status <- tegrabl_a_b_get_rootfs_status (other rfs_id) ;;
      if bool_decide (rfs_status = inr ROOTFS_STATUS_NORMAL) then
        _ <- tegrabl_a_b_set_active_rootfs (other rfs_id) ;;
        retry_count <- tegrabl_a_b_get_rootfs_retry_count ;;
        decrease retry_count
      else _ <- tegrabl_a_b_set_active_rootfs ROOTFS_INVALID ;; ret tt
    else decrease (ROOTFS_AB_REG_RETRY_COUNT_GET rf_reg).

(** ** Loading the table *)

Definition load_smd_bin_copy (bin_copy : Z) : B Z :=
  modify (set_current SMD_INVALID) ;;;
  error <- part_op ;;                                                (* open *)
  if negb (error =? 0) then ret (TEGRABL_SET_HIGHEST_MODULE error)
  else
    error <- part_op ;;                                              (* seek *)
    if negb (error =? 0) then ret (TEGRABL_SET_HIGHEST_MODULE error)
    else
      error <- part_read bin_copy ;;
      if negb (error =? 0) then ret (TEGRABL_SET_HIGHEST_MODULE error)
      else
        b <- loaded ;;
        let failed := TEGRABL_ERROR TEGRABL_ERR_VERIFY_FAILED 0 in
        let wrong :=
          if BOOT_CHAIN_VERSION_GET (version b) =? BOOT_CHAIN_VERSION_ONE then negb (magic b =? BOOT_CHAIN_MAGIC)
          else negb (tegrabl_utils_crc32 0 (take (smd_len - crc32_field) b) =? crc32 b) in
        if wrong then ret failed
        else if (BOOT_CHAIN_VERSION_ROOTFS_AB <=? BOOT_CHAIN_VERSION_GET (version b)) &&
                negb (tegrabl_utils_crc32 0 (take (smd_ext_len - crc32_field) (drop (smd_len + crc32_field) b)) =? ext_crc32 b) then ret failed
        else modify (set_current bin_copy) ;;; ret 0.

Definition tegrabl_a_b_get_smd : B Z :=
  s <- get ;;
  if bool_decide (is_Some (smd_loadaddress s)) then ret 0
  else
    ok <- tegrabl_malloc ;;
    if negb ok then ret (TEGRABL_ERROR TEGRABL_ERR_NO_MEMORY 0)
    else
      modify (set_smd (Some (replicate smd_v2_len 0))) ;;;
      ok <- tegrabl_malloc ;;
      if negb ok then modify (set_smd None) ;;; modify (set_backup None) ;;; ret (TEGRABL_ERROR TEGRABL_ERR_NO_MEMORY 0)
      else
        modify (set_backup (Some (replicate smd_v2_len 0))) ;;;
        error <- load_smd_bin_copy SMD_COPY_PRIMARY ;;
        error <- (if error =? 0 then ret 0 else load_smd_bin_copy SMD_COPY_SECONDARY) ;;
        if error =? 0 then
          b <- loaded ;;
          modify (set_backup (Some b)) ;;;
          tegrabl_a_b_init_rootfs_slot_reg ;;;
          tegrabl_a_b_select_active_rootfs ;;;
          ret 0
        else modify (set_smd None) ;;; modify (set_backup None) ;;; ret error.

(** ** Writing the table back *)

Definition flush_smd_bin_copy (bin_copy : Z) : B (option Z) :=
  error <- part_op ;;                                                (* open *)
  if negb (error =? 0) then tret (TEGRABL_SET_HIGHEST_MODULE error)
  else
    error <~ (if storage_qspi then part_write bin_copy erased else tret 0) ;;
    if negb (error =? 0) then tret (TEGRABL_SET_HIGHEST_MODULE error)
    else
      error <- part_op ;;                                            (* seek *)
      if negb (error =? 0) then tret (TEGRABL_SET_HIGHEST_MODULE error)
      else
        b <- loaded ;;
        error <~ part_write bin_copy b ;;
        tret (if negb (error =? 0) then TEGRABL_SET_HIGHEST_MODULE error else 0).

(** The checksums as they are written. *)
Definition seal_smd (b : list Z) : list Z := splice 18 (u32_bytes (tegrabl_utils_crc32 0 (take (smd_len - crc32_field) b))) b.
Definition seal_ext (b : list Z) : list Z :=
  if BOOT_CHAIN_VERSION_ROOTFS_AB <=? BOOT_CHAIN_VERSION_GET (version b)
  then splice 22 (u32_bytes (tegrabl_utils_crc32 0 (take (smd_ext_len - crc32_field) (drop (smd_len + crc32_field) b)))) b else b.

(** The copy that was not loaded goes first. *)
Definition tegrabl_a_b_flush_smd : B (option Z) :=
  s <- get ;;
  match smd_loadaddress s with
  | None => tret (TEGRABL_ERROR TEGRABL_ERR_INVALID 0)
  | Some _ =>
      upd_smd seal_smd ;;;
      upd_smd seal_ext ;;;
      let current := current_smd s =? SMD_COPY_PRIMARY in
      error <~ flush_smd_bin_copy (if current then SMD_COPY_SECONDARY else SMD_COPY_PRIMARY) ;;
      if negb (error =? 0) then tret error
      else flush_smd_bin_copy (if current then SMD_COPY_PRIMARY else SMD_COPY_SECONDARY)
  end.

(** ** At the end of the boot loader *)

Definition check_non_user_redundancy_status (reg : Z) : B Z :=
  retry_count <- tegrabl_get_max_retry_count ;;
  tegrabl_a_b_set_retry_count_reg (BOOT_CHAIN_REG_SLOT_NUM_GET reg) retry_count ;;; ret 0.
Definition check_rootfs_ab_status (reg : Z) : B Z :=
  retry_count <- tegrabl_get_max_retry_count ;;
  tegrabl_a_b_set_retry_count_reg (BOOT_CHAIN_REG_SLOT_NUM_GET reg) retry_count ;;; ret 0.

Definition check_user_redundancy_status (bl_reg : Z) : B Z :=
  let current_slot := BOOT_CHAIN_REG_SLOT_NUM_GET bl_reg in
  retry_count <- tegrabl_get_max_retry_count ;;
  tegrabl_a_b_set_retry_count_reg current_slot retry_count ;;;
  bl_reg <- tegrabl_get_boot_slot_reg ;;
  p1 <- tegrabl_a_b_get_priority current_slot ;;
  match p1 with
  | inl error => ret error
  | inr slot1_priority =>
      p2 <- tegrabl_a_b_get_priority (other current_slot) ;;
      match p2 with
      | inl error => ret error
      | inr slot2_priority =>
          rf_reg <- tegrabl_get_rootfs_slot_reg ;;
          assert_ (ROOTFS_AB_REG_MAGIC_GET rf_reg =? ROOTFS_AB_REG_MAGIC) ;;;
          let rotate_count := u8 (ROOTFS_AB_REG_ROTATE_COUNT_GET rf_reg + 1) in
          max_rotate_count <- get_max_rotate_count ;;
          (if (rotate_count =? max_rotate_count / 2) || (rotate_count =? max_rotate_count) then
             r <- tegrabl_a_b_get_retry_count_reg (other current_slot) bl_reg ;;
             if negb (r =? 0) && negb (slot1_priority =? 0) && negb (slot2_priority =? 0) then
               assert_ (slot2_priority <=? slot1_priority) ;;;
               _ <- tegrabl_a_b_set_priority current_slot 14 ;;
               _ <- tegrabl_a_b_set_priority (other current_slot) 15 ;; ret tt
             else ret tt
           else ret tt) ;;;
          tegrabl_set_rootfs_slot_reg (ROOTFS_AB_REG_ROTATE_COUNT_SET rotate_count rf_reg) ;;;
          ret 0
      end
  end.

Definition check_redundancy_status (reg : Z) : B Z :=
  version <- tegrabl_a_b_get_version ;;
  if (BOOTCTRL_SUPPORT_REDUNDANCY_USER version =? 0) && (BOOTCTRL_SUPPORT_ROOTFS_AB version =? 0) then check_non_user_redundancy_status reg
  else if negb (BOOTCTRL_SUPPORT_REDUNDANCY_USER version =? 0) || BOOTCTRL_IS_UNIFIED_AB_ENABLED version then check_user_redundancy_status reg
  else if negb (BOOTCTRL_SUPPORT_ROOTFS_AB version =? 0) then check_rootfs_ab_status reg
  else ret (TEGRABL_ERROR TEGRABL_ERR_INVALID 0).

(** The value of [reg] and of [error] at the label [done]. *)
Definition update_smd_body (reg : Z) : B (option (Z * Z)) :=
  let bc_flag := BOOT_CHAIN_REG_UPDATE_FLAG_GET reg in
  error <- tegrabl_a_b_get_smd ;;
  if negb (error =? 0) then tret (reg, TEGRABL_SET_HIGHEST_MODULE error)
  else
    version <- tegrabl_a_b_get_version ;;
    if (BOOT_CHAIN_REG_MAGIC_GET reg =? BOOT_CHAIN_REG_MAGIC) && ((bc_flag =? BC_FLAG_OTA_ON) || (bc_flag =? BC_FLAG_REDUNDANCY_BOOT)) then
      error <- (if (bc_flag =? BC_FLAG_REDUNDANCY_BOOT) && negb (BOOTCTRL_SUPPORT_REDUNDANCY version =? 0)
                then check_redundancy_status reg else ret 0) ;;
      if negb (error =? 0) then tret (reg, error)
      else
        reg <- tegrabl_get_boot_slot_reg ;;
        reg <- tegrabl_a_b_copy_retry_count reg FROM_REG_TO_SMD ;;
        s <- get ;;
        if bool_decide (smd_loadaddress s = smd_backup s) then tret (reg, 0)
        else
          error <~ tegrabl_a_b_flush_smd ;;
          tret (reg, if negb (error =? 0) then TEGRABL_SET_HIGHEST_MODULE error else 0)
    else tret (reg, 0).
Definition tegrabl_a_b_update_smd : B (option Z) :=
  reg <- tegrabl_get_boot_slot_reg ;;
  r <~ update_smd_body reg ;;
  (if BOOT_CHAIN_REG_MAGIC_GET r.1 =? BOOT_CHAIN_REG_MAGIC then tegrabl_set_boot_slot_reg 0 else ret tt) ;;;
  tret (if negb (r.2 =? 0) then TEGRABL_SET_HIGHEST_MODULE r.2 else 0).

(** ** Which copy of the kernel boots *)

Definition tegrabl_a_b_get_current_rootfs_id : B (Z + Z) :=
  error <- tegrabl_a_b_get_smd ;;
  if negb (error =? 0) then ret (inl (TEGRABL_SET_HIGHEST_MODULE error))
  else
    b <- loaded ;;
    if BOOTCTRL_SUPPORT_ROOTFS_AB (version b) =? 0 then ret (inl (TEGRABL_ERROR TEGRABL_ERR_INVALID 0))
    else if BOOTCTRL_IS_UNIFIED_AB_ENABLED (version b) then
      r <- boot_chain_get_bootslot_from_smd ;;
      ret (match r with inl e => inl e | inr bl_slot => inr (u8 bl_slot) end)
    else ret (inr (GET_ROOTFS_ACTIVE (field ROOTFS_SELECT 1 b))).

Definition tegrabl_a_b_rootfs_is_all_unbootable : B bool :=
  error <- tegrabl_a_b_get_smd ;;
  if negb (error =? 0) then ret false
  else
    version <- tegrabl_a_b_get_version ;;
    if BOOTCTRL_IS_UNIFIED_AB_ENABLED version || negb (BOOTCTRL_SUPPORT_REDUNDANCY_USER version =? 0) then
      rf_reg <- tegrabl_get_rootfs_slot_reg ;;
      assert_ (ROOTFS_AB_REG_MAGIC_GET rf_reg =? ROOTFS_AB_REG_MAGIC) ;;;
      max_rotate_count <- get_max_rotate_count ;;
      if max_rotate_count <=? ROOTFS_AB_REG_ROTATE_COUNT_GET rf_reg
      then tegrabl_set_rootfs_slot_reg (ROOTFS_AB_REG_ROTATE_COUNT_SET 0 rf_reg) ;;; ret true
      else ret false
    else
      r <- tegrabl_a_b_get_current_rootfs_id ;;
      ret (bool_decide (r = inr ROOTFS_INVALID)).

(** [a_b]: the binary is one of the kernel's, which exist twice. [None]: an error. *)
Definition bin_copy_of_slot (slot : Z) : B (option Z) :=
  if slot =? BOOT_SLOT_A then ret (Some slot)
  else
    error <- tegrabl_a_b_get_smd ;;
    s <- get ;;
    if negb (error =? 0) || bool_decide (smd_loadaddress s = None) then ret None
    else
      version <- tegrabl_a_b_get_version ;;
      if negb (BOOTCTRL_SUPPORT_REDUNDANCY version =? 0) && (BOOTCTRL_SUPPORT_REDUNDANCY_USER version =? 0) && (BOOTCTRL_SUPPORT_ROOTFS_AB version =? 0)
      then ret (Some BOOT_SLOT_A) else ret (Some slot).
Definition a_b_get_bin_copy (a_b : bool) : B (option Z) :=
  if negb a_b then ret (Some BOOT_SLOT_A)
  else
    r <- boot_chain_get_bootslot_from_reg ;;
    if negb (r.1 =? 0) && negb (TEGRABL_ERROR_REASON r.1 =? TEGRABL_ERR_NOT_FOUND) then ret None
    else
      id <- tegrabl_a_b_get_current_rootfs_id ;;
      match id with
      | inr rootfs_id => if (rootfs_id =? ROOTFS_A) || (rootfs_id =? ROOTFS_B) then bin_copy_of_slot rootfs_id else ret None
      | inl _ => bin_copy_of_slot r.2
      end.

(** What the boot loader does about slots on its way to the kernel
    ([fixed_boot.c], [kernel_boot.c]): a kernel is chosen, and then the table
    is brought up to date; without a copy to load the machine is reset before that.
    [bootctrl]: recovery was asked for. *)
Inductive booted := Recovery | Kernel (copy : Z) | Reset.
Definition load_and_boot_kernel (bootctrl : bool) : B (option booted) :=
  unbootable <- tegrabl_a_b_rootfs_is_all_unbootable ;;
  if bootctrl || unbootable then _ <~ tegrabl_a_b_update_smd ;; tret Recovery
  else
    copy <- a_b_get_bin_copy true ;;
    match copy with
    | None => tret Reset
    | Some c => _ <~ tegrabl_a_b_update_smd ;; tret (Kernel c)
    end.

(** ** Names *)

Definition tegrabl_a_b_get_bootslot_suffix (full_suffix : bool) : B (Z + string) :=
  r <- boot_chain_get_bootslot_from_reg ;;
  if negb (r.1 =? 0) && negb (TEGRABL_ERROR_REASON r.1 =? TEGRABL_ERR_NOT_FOUND) then ret (inl (TEGRABL_ERROR TEGRABL_ERR_INVALID 0))
  else if negb full_suffix && (r.2 =? BOOT_SLOT_A) then ret (inr EmptyString)
  else ret (inr (if r.2 =? BOOT_SLOT_A then BOOT_CHAIN_SUFFIX_A else BOOT_CHAIN_SUFFIX_B)).
Definition tegrabl_a_b_set_bootslot_suffix (slot : Z) (partition : string) (full_suffix : bool) : string :=
  if negb full_suffix && (slot =? BOOT_SLOT_A) then partition
  else String.append partition (if slot =? BOOT_SLOT_A then BOOT_CHAIN_SUFFIX_A else BOOT_CHAIN_SUFFIX_B).
Definition tegrabl_a_b_get_slot_via_suffix (suffix : string) : Z + Z :=
  if String.eqb suffix EmptyString || String.eqb suffix BOOT_CHAIN_SUFFIX_A then inr BOOT_SLOT_A
  else if String.eqb suffix BOOT_CHAIN_SUFFIX_B then inr BOOT_SLOT_B
  else inl (TEGRABL_ERROR TEGRABL_ERR_INVALID 0).
Definition tegrabl_a_b_get_rootfs_suffix (full_suffix : bool) : B (Z + string) :=
  r <- tegrabl_a_b_get_current_rootfs_id ;;
  let rootfs_id := match r with inl _ => ROOTFS_A | inr id => id end in
  ret (if negb full_suffix && (rootfs_id =? ROOTFS_A) then inr EmptyString
       else if rootfs_id =? ROOTFS_A then inr BOOT_CHAIN_SUFFIX_A
       else if rootfs_id =? ROOTFS_B then inr BOOT_CHAIN_SUFFIX_B
       else inl (TEGRABL_ERROR TEGRABL_ERR_INVALID 0)).

(** [tegrabl_a_b_partition_naming.c]: the names of partitions with a slot. *)
Definition tegrabl_a_b_match_part_name (part_name full_part_name : string) : bool :=
  let len := String.length part_name in
  String.prefix part_name full_part_name &&
  ((len =? String.length full_part_name)%nat ||
   String.eqb (String.substring len (String.length full_part_name - len) full_part_name) BOOT_CHAIN_SUFFIX_A).
Definition tegrabl_a_b_match_part_name_with_suffix (part_name full_part_name : string) : bool :=
  let len := String.length part_name in
  let suffix := String.substring len (String.length full_part_name - len) full_part_name in
  String.prefix part_name full_part_name &&
  ((String.length full_part_name =? len)%nat || String.eqb BOOT_CHAIN_SUFFIX_A suffix || String.eqb BOOT_CHAIN_SUFFIX_B suffix).
(** A name shorter than a suffix is read before its first character. *)
Definition tegrabl_a_b_get_part_suffix (part : string) : option string :=
  let len := String.length part in
  if (len <? 2)%nat then None
  else Some (if String.eqb (String.substring (len - 2) 2 part) BOOT_CHAIN_SUFFIX_B then BOOT_CHAIN_SUFFIX_B else BOOT_CHAIN_SUFFIX_A).

(** ** Commands of the host ([fastboot_a_b.c]) *)

Definition always_ab_partition_list : list string := ["mb1"%string].
Definition fastboot_a_b_is_always_ab_partition (part : string) : bool := existsb (String.eqb part) always_ab_partition_list.

Definition FASTBOOT_HIGHEST_MODULE (error : Z) : Z := tegrabl_err_set_highest_module error TEGRABL_ERR_FASTBOOT.
Definition fastboot_a_b_get_current_slot : B (Z + string) :=
  r <- tegrabl_a_b_get_bootslot_suffix true ;; ret (match r with inl e => inl (FASTBOOT_HIGHEST_MODULE e) | inr s => inr s end).
(** The suffix and its NUL take three bytes of a buffer of two; the byte behind
    it is not part of the state. *)
Definition fastboot_a_b_get_current_slot_id : B (Z + Z) :=
  r <- fastboot_a_b_get_current_slot ;; ret (match r with inl e => inl e | inr s => tegrabl_a_b_get_slot_via_suffix s end).
Definition fastboot_a_b_get_slot_suffix (slot : Z) (slot_suffix : string) : string := tegrabl_a_b_set_bootslot_suffix slot slot_suffix true.
(** The answer and, unless there was an error, the number. *)
Definition fastboot_a_b_get_slot_num : B (Z * option Z) :=
  error <- tegrabl_a_b_get_smd ;;
  if negb (error =? 0) then ret (0, None)
  else r <- tegrabl_a_b_get_slot_num ;; ret (0, match r with inl _ => None | inr num => Some num end).
Definition fastboot_a_b_with_slot {A} (slot : string) (f : Z -> B (Z + A)) : B (Z + A) :=
  match tegrabl_a_b_get_slot_via_suffix slot with
  | inl error => ret (inl (FASTBOOT_HIGHEST_MODULE error))
  | inr slot_id =>
      error <- tegrabl_a_b_get_smd ;;
      if negb (error =? 0) then ret (inl (FASTBOOT_HIGHEST_MODULE error))
      else r <- f slot_id ;; ret (match r with inl e => inl (FASTBOOT_HIGHEST_MODULE e) | inr a => inr a end)
  end.
Definition fastboot_a_b_is_slot_successful (slot : string) : B (Z + bool) :=
  fastboot_a_b_with_slot slot (fun id => r <- tegrabl_a_b_get_successful id ;; ret (match r with inl e => inl e | inr v => inr (negb (v =? 0)) end)).
Definition fastboot_a_b_is_slot_unbootable (slot : string) : B (Z + bool) := fastboot_a_b_with_slot slot tegrabl_a_b_is_unbootable.
Definition fastboot_a_b_get_slot_retry_count (slot : string) : B (Z + Z) := fastboot_a_b_with_slot slot tegrabl_a_b_get_retry_count.

Definition fastboot_a_b_set_slot_retry_count (slot_id retry_count : Z) : B (option Z) :=
  error <- tegrabl_a_b_get_smd ;;
  if negb (error =? 0) then tret (FASTBOOT_HIGHEST_MODULE error)
  else
    error <- tegrabl_a_b_set_retry_count slot_id retry_count ;;
    if negb (error =? 0) then tret (FASTBOOT_HIGHEST_MODULE error)
    else
      error <~ tegrabl_a_b_flush_smd ;;
      tret (if negb (error =? 0) then FASTBOOT_HIGHEST_MODULE error else 0).
Definition fastboot_a_b_slot_set_active (slot : string) : B (option Z) :=
  match tegrabl_a_b_get_slot_via_suffix slot with
  | inl error => tret (FASTBOOT_HIGHEST_MODULE error)
  | inr slot_id =>
      error <- tegrabl_a_b_get_smd ;;
      if negb (error =? 0) then tret (FASTBOOT_HIGHEST_MODULE error)
      else
        error <- tegrabl_a_b_set_active_slot slot_id ;;
        if negb (error =? 0) then tret (FASTBOOT_HIGHEST_MODULE error)
        else
          error <~ tegrabl_a_b_flush_smd ;;
          if negb (error =? 0) then tret (FASTBOOT_HIGHEST_MODULE error)
          else tegrabl_a_b_save_boot_slot_reg slot_id ;;; tret 0
  end.
End SlotMeta.
End SlotMeta.
