(* ===== verification/SlotMetaSpec.v ===== *)
(** * A boot slot is never lost, and a kernel that never comes up ends in recovery

    The table of [SlotMeta] on the disk: what a loss of power at any moment of a
    write leaves, which slot the next boot takes, and what a row of boots that fail does. *)

From S2P Require Import Prelude SlotMeta.

Module SlotMetaSpec.
Import SlotMeta.

(** ** What counts as a table on the disk *)

Definition crc_ok (b : list Z) : bool := tegrabl_utils_crc32 0 (take (smd_len - crc32_field) b) =? crc32 b.
Definition ext_crc_ok (b : list Z) : bool := tegrabl_utils_crc32 0 (take (smd_ext_len - crc32_field) (drop (smd_len + crc32_field) b)) =? ext_crc32 b.
Definition verifies (b : list Z) : bool :=
  (if BOOT_CHAIN_VERSION_GET (version b) =? BOOT_CHAIN_VERSION_ONE then magic b =? BOOT_CHAIN_MAGIC else crc_ok b) &&
  ((BOOT_CHAIN_VERSION_GET (version b) <? BOOT_CHAIN_VERSION_ROOTFS_AB) || ext_crc_ok b).

(** The table that the next boot finds. *)
Definition boots_with (s : cboot) : option (list Z) :=
  if verifies (part_smd s) then Some (part_smd s) else if verifies (part_smd_b s) then Some (part_smd_b s) else None.

(** ** Bytes *)

Lemma window_ext off n (b b' : list Z) : (forall i, (off <= i < off + n)%nat -> b !! i = b' !! i) -> take n (drop off b) = take n (drop off b').
Proof.
  intros H. apply list_eq. intros i. destruct (decide (i < n)%nat) as [Hi|Hi].
  - rewrite !lookup_take_lt, !lookup_drop by lia. apply H. lia.
  - rewrite !lookup_take_ge by lia. done.
Qed.
Lemma field_ext off n b b' : (forall i, (off <= i < off + n)%nat -> b !! i = b' !! i) -> field off n b = field off n b'.
Proof. intros H. unfold field. by rewrite (window_ext off n b b'). Qed.

Lemma splice_out off bs b i : (off + length bs <= length b)%nat -> ~ (off <= i < off + length bs)%nat -> splice off bs b !! i = b !! i.
Proof.
  intros Hl Hi. unfold splice. destruct (decide (i < off)%nat).
  - rewrite lookup_app_l, lookup_take_lt by (rewrite ?length_take; lia). done.
  - rewrite !lookup_app_r by (rewrite ?length_take; lia). rewrite lookup_drop, length_take. f_equal. lia.
Qed.
Lemma splice_in off bs b : (off + length bs <= length b)%nat -> take (length bs) (drop off (splice off bs b)) = bs.
Proof.
  intros Hl. unfold splice. rewrite drop_app_ge, length_take by (rewrite length_take; lia). replace (off - off `min` length b)%nat with 0%nat by lia.
  by rewrite drop_0, take_app_length.
Qed.
Lemma length_splice off bs b : (off + length bs <= length b)%nat -> length (splice off bs b) = length b.
Proof. intros Hl. unfold splice. rewrite !length_app, length_take, length_drop. lia. Qed.

Lemma field_u32 off v b : 0 <= v < 2 ^ 32 -> (off + 4 <= length b)%nat -> field off 4 (splice off (u32_bytes v) b) = v.
Proof.
  intros Hv Hl. unfold field. change 4%nat with (length (u32_bytes v)) at 1. rewrite splice_in by done. cbn [u32_bytes foldr].
  unfold u8, uwrap. rewrite !Z.shiftr_div_pow2 by done. dlia.
Qed.

Lemma lxor_range a b n : 0 <= n -> 0 <= a < 2 ^ n -> 0 <= b < 2 ^ n -> 0 <= Z.lxor a b < 2 ^ n.
Proof.
  intros Hn Ha Hb. rewrite <- (Z.mod_small a (2 ^ n)), <- (Z.mod_small b (2 ^ n)) by done. rewrite <- !Z.land_ones by done.
  assert (Z.lxor (Z.land a (Z.ones n)) (Z.land b (Z.ones n)) = Z.land (Z.lxor a b) (Z.ones n)) as ->.
  { apply Z.bits_inj'. intros k Hk. rewrite !Z.lxor_spec, !Z.land_spec, Z.lxor_spec. by destruct (Z.testbit a k), (Z.testbit b k), (Z.testbit _ k). }
  rewrite Z.land_ones by done. by apply Z.mod_pos_bound, Z.pow_pos_nonneg.
Qed.

Lemma crc_range l : 0 <= tegrabl_utils_crc32 0 l < 2 ^ 32.
Proof.
  unfold tegrabl_utils_crc32. apply lxor_range; [done| |done]. change (Z.lxor 0 0xFFFFFFFF) with 0xFFFFFFFF.
  assert (Ht : forall n, 0 <= nth n tegrabl_crc32_tab 0 < 2 ^ 32).
  { intros n. destruct (nth_in_or_default n tegrabl_crc32_tab 0) as [Hin| ->]; [|lia].
    assert (Hall : forallb (fun x => (0 <=? x) && (x <? 2 ^ 32)) tegrabl_crc32_tab = true) by (vm_compute; reflexivity).
    rewrite forallb_forall in Hall. specialize (Hall _ Hin). lia. }
  assert (H : forall acc, 0 <= acc < 2 ^ 32 ->
    0 <= foldl (fun final_crc b => Z.lxor (nth (Z.to_nat (Z.land (Z.lxor final_crc b) 0xFF)) tegrabl_crc32_tab 0) (Z.shiftr final_crc 8)) acc l < 2 ^ 32).
  { induction l as [|x l IH]; intros acc Ha; [done|]. cbn [foldl]. apply IH, lxor_range; [done|apply Ht|].
    rewrite Z.shiftr_div_pow2 by done. dlia. }
  by apply H.
Qed.

(** ** Checksums *)

Definition sealed (b : list Z) : list Z := seal_ext (seal_smd b).

Lemma length_seal_smd b : length b = smd_v2_len -> length (seal_smd b) = smd_v2_len.
Proof. intros Hb. unfold seal_smd. rewrite length_splice; [done|]. rewrite Hb. by vm_compute; lia. Qed.
Lemma length_sealed b : length b = smd_v2_len -> length (sealed b) = smd_v2_len.
Proof.
  intros Hb. unfold sealed, seal_ext. apply length_seal_smd in Hb. destruct (_ <=? _); [|done]. rewrite length_splice; [done|]. rewrite Hb. by vm_compute; lia.
Qed.

Lemma seal_smd_out b i : length b = smd_v2_len -> ~ (18 <= i < 22)%nat -> seal_smd b !! i = b !! i.
Proof. intros Hb Hi. apply splice_out; [rewrite Hb; by vm_compute; lia|done]. Qed.
Lemma seal_ext_out b i : length b = smd_v2_len -> ~ (22 <= i < 26)%nat -> seal_ext b !! i = b !! i.
Proof. intros Hb Hi. unfold seal_ext. destruct (_ <=? _); [|done]. apply splice_out; [rewrite Hb; by vm_compute; lia|done]. Qed.
Lemma sealed_out b i : length b = smd_v2_len -> ~ (18 <= i < 26)%nat -> sealed b !! i = b !! i.
Proof. intros Hb Hi. unfold sealed. rewrite seal_ext_out by (lia || by apply length_seal_smd). apply seal_smd_out; [done|lia]. Qed.
Lemma sealed_field off n b : length b = smd_v2_len -> (off + n <= 18 \/ 26 <= off)%nat -> field off n (sealed b) = field off n b.
Proof. intros Hb Ho. apply field_ext. intros i Hi. apply sealed_out; [done|lia]. Qed.

Lemma sealed_verifies b : length b = smd_v2_len -> (BOOT_CHAIN_VERSION_GET (version b) = BOOT_CHAIN_VERSION_ONE -> magic b = BOOT_CHAIN_MAGIC) ->
  verifies (sealed b) = true.
Proof.
  intros Hb Hm. pose proof (length_seal_smd b Hb) as Hb1.
  assert (Hv : version (sealed b) = version b) by (apply sealed_field; [done|lia]).
  assert (Hv1 : version (seal_smd b) = version b) by (apply field_ext; intros i Hi; apply seal_smd_out; [done|lia]).
  unfold verifies. rewrite Hv. apply andb_true_intro. split.
  - destruct (Z.eqb_spec (BOOT_CHAIN_VERSION_GET (version b)) BOOT_CHAIN_VERSION_ONE) as [E|_].
    + apply Z.eqb_eq. rewrite <- (Hm E). apply sealed_field; [done|lia].
    + apply Z.eqb_eq. change (take (smd_len - crc32_field) (sealed b)) with (take 18 (drop 0 (sealed b))).
      rewrite (window_ext 0 18 (sealed b) b) by (intros i Hi; apply sealed_out; [done|lia]).
      symmetry. unfold crc32, sealed. rewrite (field_ext 18 4 (seal_ext (seal_smd b)) (seal_smd b)) by (intros i Hi; apply seal_ext_out; [done|lia]).
      apply field_u32; [apply crc_range|rewrite Hb; vm_compute; lia].
  - unfold sealed, seal_ext. rewrite Hv1. rewrite Z.ltb_antisym. destruct (BOOT_CHAIN_VERSION_ROOTFS_AB <=? BOOT_CHAIN_VERSION_GET (version b)); [cbn [negb orb]|done].
    apply Z.eqb_eq. change (smd_ext_len - crc32_field)%nat with 165%nat. change (smd_len + crc32_field)%nat with 26%nat. symmetry.
    rewrite (window_ext 26 165 (splice _ _ _) (seal_smd b)) by (intros i Hi; apply splice_out; [rewrite Hb1; vm_compute; lia|cbn; lia]).
    apply field_u32; [apply crc_range|rewrite Hb1; vm_compute; lia].
Qed.

(** ** Writing one copy *)

Section Flush.
Context `{sto : storage}.

(** What a write that did not finish left. *)
Definition torn (t : list Z) : Prop :=
  exists n old new rest, t = sector rest /\ (write_out n old new = PowerLost rest \/ exists e, write_out n old new = WriteError e rest).
(** What one copy holds at any moment while [b] is written to it. *)
Definition in_write (old b t : list Z) : Prop := t = old \/ t = erased \/ t = b \/ torn t.

Lemma erased_refused : verifies erased = false.
Proof. vm_compute. reflexivity. Qed.

(** The rest of the state stays. *)
Definition only_part (k : Z) (s s' : cboot) : Prop :=
  boot_slot_reg s' = boot_slot_reg s /\ rootfs_slot_reg s' = rootfs_slot_reg s /\ smd_loadaddress s' = smd_loadaddress s /\ smd_backup s' = smd_backup s /\
  current_smd s' = current_smd s /\ forall c, (c =? SMD_COPY_PRIMARY) <> (k =? SMD_COPY_PRIMARY) -> part c s' = part c s.

Lemma only_part_refl k s n : only_part k s (set_ops n s).
Proof. by split_and!. Qed.
Lemma only_part_trans k s1 s2 s3 : only_part k s1 s2 -> only_part k s2 s3 -> only_part k s1 s3.
Proof. intros (A1 & A2 & A3 & A4 & A5 & A6) (B1 & B2 & B3 & B4 & B5 & B6). split_and!; try congruence. intros c Hc. by rewrite B6, A6. Qed.
Lemma only_part_set k v s n : only_part k s (set_part k v (set_ops n s)).
Proof. unfold only_part, set_part, part. destruct (k =? SMD_COPY_PRIMARY); split_and!; try done; intros c Hc; by destruct (c =? SMD_COPY_PRIMARY). Qed.
Lemma part_set_part k v s : part k (set_part k v s) = v.
Proof. unfold part, set_part. by destruct (k =? SMD_COPY_PRIMARY). Qed.

Lemma highest_nonzero e : TEGRABL_SET_HIGHEST_MODULE e <> 0.
Proof.
  intros H. apply (f_equal (fun z => Z.testbit z 26)) in H. unfold TEGRABL_SET_HIGHEST_MODULE, tegrabl_err_set_highest_module in H.
  rewrite Z.lor_spec, orb_false_iff in H. destruct H as [_ H]. vm_compute in H. done.
Qed.

(** [m] writes to copy [k]; the answer 0 means that [b] is there. *)
Definition writes (k : Z) (b : list Z) (m : B (option Z)) (s : cboot) : Prop :=
  match m s with
  | Done o s' => only_part k s s' /\ in_write (part k s) b (part k s') /\ (o = Some 0 -> part k s' = b)
  | Crash _ => False
  end.

Lemma tbind_none {S A C} (m : M S (option A)) (f : A -> M S (option C)) s s' : m s = Done None s' -> tbind m f s = Done None s'.
Proof. intros Hm. unfold tbind, bind. by rewrite Hm. Qed.

Lemma part_write_runs k new s : exists o s', part_write k new s = Done o s' /\ only_part k s s' /\
  (o = Some 0 -> part k s' = new) /\ (part k s' = new \/ torn (part k s')).
Proof.
  unfold part_write, bind at 1, next_op. unfold bind at 1, get.
  destruct (write_out (ops s) (part k (set_ops (S (ops s)) s)) new) as [|e rest|rest] eqn:E.
  - eexists _, _. split; [reflexivity|]. split; [apply only_part_set|]. rewrite part_set_part. auto.
  - eexists _, _. split; [reflexivity|]. split; [apply only_part_set|]. rewrite part_set_part. split.
    + intros [= H]. destruct (Z.eqb_spec (u32 e) 0); done.
    + right. exists (ops s), (part k (set_ops (S (ops s)) s)), new, rest. eauto.
  - eexists _, _. split; [reflexivity|]. split; [apply only_part_set|]. rewrite part_set_part. split; [done|].
    right. exists (ops s), (part k (set_ops (S (ops s)) s)), new, rest. eauto.
Qed.

Lemma flush_copy_writes k b s : smd_loadaddress s = Some b -> writes k b (flush_smd_bin_copy k) s.
Proof.
  intros Hb. unfold writes, flush_smd_bin_copy. unfold bind at 1.
  assert (Hop : forall s0, part_op s0 = Done (u32 (part_error (ops s0))) (set_ops (S (ops s0)) s0)) by done. rewrite Hop.
  set (s1 := set_ops (S (ops s)) s). assert (O1 : only_part k s s1) by apply only_part_refl.
  destruct (u32 (part_error (ops s)) =? 0); cbn [negb].
  2:{ split; [done|]. split; [by left|]. intros [= H]. by apply highest_nonzero in H. }
  assert (Her : exists o s2, (if storage_qspi then part_write k erased else tret 0) s1 = Done o s2 /\ only_part k s1 s2 /\
    in_write (part k s) b (part k s2)).
  { destruct storage_qspi.
    - destruct (part_write_runs k erased s1) as (o & s2 & E & O & _ & C). exists o, s2. split; [done|]. split; [done|].
      destruct C as [C|C]; [right; by left|by right; right; right].
    - exists (Some 0), s1. split; [done|]. split; [by split_and!|by left]. }
  destruct Her as ([e|] & s2 & E & O2 & C2); [rewrite (tbind_run _ _ _ _ _ E)|rewrite (tbind_none _ _ _ _ E)].
  2:{ split; [by eapply only_part_trans|]. split; [done|done]. }
  assert (O12 : only_part k s s2) by (by eapply only_part_trans).
  destruct (e =? 0); cbn [negb].
  2:{ split; [done|]. split; [done|]. intros [= H]. by apply highest_nonzero in H. }
  unfold bind at 1. rewrite Hop. set (s3 := set_ops (S (ops s2)) s2).
  assert (O3 : only_part k s s3) by (eapply only_part_trans; [exact O12|apply only_part_refl]).
  destruct (u32 (part_error (ops s2)) =? 0); cbn [negb].
  2:{ split; [done|]. split; [done|]. intros [= H]. by apply highest_nonzero in H. }
  assert (L3 : smd_loadaddress s3 = Some b) by (destruct O3 as (_ & _ & L & _); by rewrite L).
  unfold bind at 1, loaded, bind at 1, get. rewrite L3. cbn [ret].
  destruct (part_write_runs k b s3) as (o & s4 & E4 & O4 & Z4 & C4). unfold tbind, bind. rewrite E4.
  assert (O : only_part k s s4) by (by eapply only_part_trans).
  assert (C : in_write (part k s) b (part k s4)) by (destruct C4; [by right; right; left|by right; right; right]).
  destruct o as [e4|]; [|by split_and!]. cbn. split; [done|]. split; [done|]. intros [= H].
  destruct (Z.eqb_spec e4 0) as [->|]; [by apply Z4|]. by apply highest_nonzero in H.
Qed.

Lemma boots_with_primary s : verifies (part_smd s) = true -> boots_with s = Some (part_smd s).
Proof. intros H. unfold boots_with. by rewrite H. Qed.

(** The primary copy is in the middle of a write, the secondary one verifies. *)
Lemma boots_in_write s s0 old b : in_write (part_smd s0) b (part_smd s) -> part_smd_b s = old -> verifies old = true ->
  exists t, boots_with s = Some t /\ ((t = part_smd s0 /\ verifies (part_smd s0) = true) \/ t = old \/ t = b \/ torn t).
Proof.
  intros Hw Hs Hv. unfold boots_with. destruct (verifies (part_smd s)) eqn:E.
  - exists (part_smd s). split; [done|]. destruct Hw as [Hw|[Hw|[Hw|Hw]]]; [left; split; [done|congruence]|by rewrite Hw, erased_refused in E|auto..].
  - rewrite Hs, Hv. eauto.
Qed.

Lemma upd_smd_run f s b : smd_loadaddress s = Some b -> upd_smd f s = Done tt (set_smd (Some (f b)) s).
Proof. intros Hb. unfold upd_smd, loaded, bind, get, modify. by rewrite Hb. Qed.

Lemma flush_runs s b : smd_loadaddress s = Some b -> length b = smd_v2_len ->
  (BOOT_CHAIN_VERSION_GET (version b) = BOOT_CHAIN_VERSION_ONE -> magic b = BOOT_CHAIN_MAGIC) ->
  current_smd s = SMD_COPY_PRIMARY \/ current_smd s = SMD_COPY_SECONDARY -> verifies (part (current_smd s) s) = true ->
  exists o s', tegrabl_a_b_flush_smd s = Done o s' /\
    (exists t, boots_with s' = Some t /\ (boots_with s = Some t \/ t = part (current_smd s) s \/ t = sealed b \/ torn t)) /\
    (o = Some 0 -> part_smd s' = sealed b /\ part_smd_b s' = sealed b /\ smd_loadaddress s' = Some (sealed b) /\ current_smd s' = current_smd s).
Proof.
  intros Hb Hl Hm Hc Hv. pose proof (sealed_verifies b Hl Hm) as Hn. set (s1 := set_smd (Some (sealed b)) s).
  remember (if current_smd s =? SMD_COPY_PRIMARY then SMD_COPY_SECONDARY else SMD_COPY_PRIMARY) as k eqn:Ek.
  assert (Hrun : tegrabl_a_b_flush_smd s = (error <~ flush_smd_bin_copy k ;;
    if negb (error =? 0) then tret error else flush_smd_bin_copy (if current_smd s =? SMD_COPY_PRIMARY then SMD_COPY_PRIMARY else SMD_COPY_SECONDARY)) s1).
  { subst k. unfold tegrabl_a_b_flush_smd, bind at 1, get. rewrite Hb. rewrite (bind_done _ _ _ _ _ (upd_smd_run seal_smd s b Hb)).
    rewrite (bind_done _ _ _ _ _ (upd_smd_run seal_ext (set_smd (Some (seal_smd b)) s) (seal_smd b) eq_refl)). done. }
  rewrite Hrun. clear Hrun. pose proof (flush_copy_writes k (sealed b) s1 eq_refl) as Hw. unfold writes in Hw.
  destruct (flush_smd_bin_copy k s1) as [o s2|] eqn:E1; [|done]. destruct Hw as (O1 & C1 & Z1).
  pose proof O1 as (_ & _ & L1 & _ & _ & P1).
  (* after the first copy *)
  assert (T1 : exists t, boots_with s2 = Some t /\ (boots_with s = Some t \/ t = part (current_smd s) s \/ t = sealed b \/ torn t)).
  { clear -Hc Ek P1 C1 Hv Hn. destruct Hc as [Hc|Hc]; rewrite Hc in *; cbn in Ek; subst k.
    - pose proof (P1 SMD_COPY_PRIMARY ltac:(done)) as E. change (part_smd s2 = part_smd s) in E. change (verifies (part_smd s) = true) in Hv.
      exists (part_smd s). split; [unfold boots_with; by rewrite E, Hv|auto].
    - pose proof (P1 SMD_COPY_SECONDARY ltac:(done)) as E. change (part_smd_b s2 = part_smd_b s) in E.
      destruct (boots_in_write s2 s (part_smd_b s) (sealed b) C1 E Hv) as (t & Ht & [[-> Hp]|H]); [|by eauto].
      exists (part_smd s). split; [done|]. left. by apply boots_with_primary. }
  destruct o as [e|]; [rewrite (tbind_run _ _ _ _ _ E1)|rewrite (tbind_none _ _ _ _ E1); exists None, s2; by split_and!].
  destruct (Z.eqb_spec e 0) as [->|He]; cbn [negb].
  2:{ exists (Some e), s2. split; [done|]. split; [done|]. by intros [= ?]. }
  specialize (Z1 eq_refl). remember (if current_smd s =? SMD_COPY_PRIMARY then SMD_COPY_PRIMARY else SMD_COPY_SECONDARY) as k2 eqn:Ek2.
  pose proof (flush_copy_writes k2 (sealed b) s2 L1) as Hw. unfold writes in Hw.
  destruct (flush_smd_bin_copy k2 s2) as [o s3|]; [|done]. destruct Hw as (O2 & C2 & Z2). pose proof O2 as (_ & _ & L2 & _ & C2' & P2). pose proof O1 as (_ & _ & _ & _ & C1' & _).
  exists o, s3. split; [done|]. destruct Hc as [Hc|Hc]; rewrite Hc in *; cbn in Ek, Ek2; subst k k2.
  - pose proof (P2 SMD_COPY_SECONDARY ltac:(done)) as E. change (part_smd_b s3 = part_smd_b s2) in E. change (part_smd_b s2 = sealed b) in Z1.
    rewrite Z1 in E. pose proof (P1 SMD_COPY_PRIMARY ltac:(done)) as E'. change (part_smd s2 = part_smd s) in E'. split.
    + change (in_write (part_smd s2) (sealed b) (part_smd s3)) in C2. rewrite E' in C2.
      destruct (boots_in_write s3 s (sealed b) (sealed b) C2 E Hn) as (t & Ht & [[-> Hp]|[->|[->|H]]]);
        [|by exists (sealed b); auto|by exists (sealed b); auto|by exists t; auto].
      exists (part_smd s). split; [done|]. left. by apply boots_with_primary.
    + intros Ho. split; [by apply Z2|]. split; [done|]. split; [by rewrite L2, L1|by rewrite C2', C1'].
  - pose proof (P2 SMD_COPY_PRIMARY ltac:(done)) as E. change (part_smd s3 = part_smd s2) in E. change (part_smd s2 = sealed b) in Z1. rewrite Z1 in E. split.
    + exists (sealed b). split; [unfold boots_with; by rewrite E, Hn|auto].
    + intros Ho. split; [done|]. split; [by apply Z2|]. split; [by rewrite L2, L1|by rewrite C2', C1'].
Qed.

Lemma part_op_run s : part_op s = Done (u32 (part_error (ops s))) (set_ops (S (ops s)) s).
Proof. done. Qed.
Lemma part_read_run k s : exists e s1, part_read k s = Done e s1 /\ current_smd s1 = current_smd s /\ part_smd s1 = part_smd s /\ part_smd_b s1 = part_smd_b s /\
  (e = 0 -> smd_loadaddress s1 = Some (part k s)).
Proof.
  unfold part_read. rewrite (bind_done _ _ _ _ _ (part_op_run s)). destruct (Z.eqb_spec (u32 (part_error (ops s))) 0) as [E|E].
  - eexists _, _. split; [reflexivity|]. by rewrite E.
  - eexists _, _. split; [reflexivity|]. by split_and!.
Qed.

(** What was loaded is a copy that verifies, and [current_smd] says which. *)
Lemma load_copy_verifies k s s' : load_smd_bin_copy k s = Done 0 s' ->
  current_smd s' = k /\ smd_loadaddress s' = Some (part k s') /\ verifies (part k s') = true /\ part_smd s' = part_smd s /\ part_smd_b s' = part_smd_b s.
Proof.
  unfold load_smd_bin_copy. unfold bind at 1, modify. rewrite (bind_done _ _ _ _ _ (part_op_run _)).
  destruct (_ =? 0); cbn [negb]; [|intros [= H _]; by apply highest_nonzero in H].
  rewrite (bind_done _ _ _ _ _ (part_op_run _)).
  destruct (_ =? 0); cbn [negb]; [|intros [= H _]; by apply highest_nonzero in H].
  match goal with |- bind (part_read k) _ ?s2 = _ -> _ => set (s1 := s2); destruct (part_read_run k s1) as (e & s2' & E & C & P & P' & L) end.
  rewrite (bind_done _ _ _ _ _ E). destruct (Z.eqb_spec e 0) as [He|]; cbn [negb]; [|intros [= H _]; by apply highest_nonzero in H].
  specialize (L He). assert (Hk : part k s1 = part k s2') by (unfold part; by rewrite P, P'). rewrite Hk in L.
  unfold bind at 1, loaded, bind at 1, get. rewrite L. cbn [ret]. set (b := part k s2') in *.
  destruct (if BOOT_CHAIN_VERSION_GET (version b) =? BOOT_CHAIN_VERSION_ONE then _ else _) eqn:E1; [by intros [= ?]|].
  destruct ((BOOT_CHAIN_VERSION_ROOTFS_AB <=? BOOT_CHAIN_VERSION_GET (version b)) && _) eqn:E2; [by intros [= ?]|].
  intros [= <-]. split_and!; [done|exact L| |exact P|exact P'].
  change (verifies b = true). unfold verifies, crc_ok, ext_crc_ok. apply andb_true_intro. split.
  - destruct (_ =? BOOT_CHAIN_VERSION_ONE); by apply negb_false_iff.
  - rewrite Z.ltb_antisym. by destruct (_ <=? _); [apply negb_false_iff|].
Qed.

(** Loading writes nothing. *)
Lemma load_copy_run k s : exists e s', load_smd_bin_copy k s = Done e s' /\ part_smd s' = part_smd s /\ part_smd_b s' = part_smd_b s.
Proof.
  unfold load_smd_bin_copy. unfold bind at 1, modify. rewrite (bind_done _ _ _ _ _ (part_op_run _)).
  destruct (_ =? 0); cbn [negb]; [|by eexists _, _].
  rewrite (bind_done _ _ _ _ _ (part_op_run _)).
  destruct (_ =? 0); cbn [negb]; [|by eexists _, _].
  match goal with |- context [bind (part_read k) _ ?s2] => set (s1 := s2); destruct (part_read_run k s1) as (e & s2' & E & _ & P & P' & L) end.
  rewrite (bind_done _ _ _ _ _ E). destruct (Z.eqb_spec e 0) as [He|]; cbn [negb]; [|by eexists _, _].
  unfold bind at 1, loaded, bind at 1, get. rewrite (L He). cbn [ret].
  destruct (if _ =? BOOT_CHAIN_VERSION_ONE then _ else _); [by eexists _, _|]. destruct (_ && _); by eexists _, _.
Qed.

(** ** A table that may be written *)

Definition usable (b : list Z) : Prop :=
  length b = smd_v2_len /\ (BOOT_CHAIN_VERSION_GET (version b) = BOOT_CHAIN_VERSION_ONE -> magic b = BOOT_CHAIN_MAGIC).

Lemma usable_ext b b' : length b' = length b -> (forall i, (i < 6)%nat -> b' !! i = b !! i) -> usable b -> usable b'.
Proof.
  intros Hl Hi [Hb Hm]. unfold usable. assert (version b' = version b /\ magic b' = magic b) as [-> ->].
  { split; apply field_ext; intros i H; apply Hi; lia. }
  split; [congruence|done].
Qed.
Lemma usable_sealed b : usable b -> usable (sealed b).
Proof. intros H. eapply usable_ext; [|intros i Hi|exact H]; destruct H as [Hb _]; [by rewrite length_sealed|apply sealed_out; [done|lia]]. Qed.
Lemma usable_set_u8 off v b : (6 <= off)%nat -> usable b -> usable (set_u8 off v b).
Proof. intros Ho. apply usable_ext; [apply length_insert|]. intros i Hi. apply list_lookup_insert_ne. lia. Qed.
Lemma usable_verified b : length b = smd_v2_len -> verifies b = true -> usable b.
Proof.
  intros Hb Hv. split; [done|]. intros E. unfold verifies in Hv. rewrite (proj2 (Z.eqb_eq _ _) E) in Hv.
  by apply andb_true_iff in Hv as [?%Z.eqb_eq _].
Qed.

(** [m] ends, keeps the loaded table usable and does not touch the disk. *)
Definition tidy {A} (m : B A) : Prop := forall s b, smd_loadaddress s = Some b -> usable b ->
  exists a s' b', m s = Done a s' /\ smd_loadaddress s' = Some b' /\ usable b' /\ part_smd s' = part_smd s /\ part_smd_b s' = part_smd_b s /\
    current_smd s' = current_smd s.

Lemma tidy_ret {A} (a : A) : tidy (ret a).
Proof. intros s b Hb Hu. by exists a, s, b. Qed.
Lemma tidy_bind {A C} (m : B A) (f : A -> B C) : tidy m -> (forall a, tidy (f a)) -> tidy (bind m f).
Proof.
  intros Hm Hf s b Hb Hu. destruct (Hm s b Hb Hu) as (a & s1 & b1 & E1 & L1 & U1 & P1 & Q1 & C1).
  destruct (Hf a s1 b1 L1 U1) as (c & s2 & b2 & E2 & L2 & U2 & P2 & Q2 & C2).
  exists c, s2, b2. rewrite (bind_done _ _ _ _ _ E1). split_and!; congruence || done.
Qed.
Lemma tidy_loaded : tidy loaded.
Proof. intros s b Hb Hu. exists b, s, b. unfold loaded, bind, get. by rewrite Hb. Qed.
Lemma tidy_upd f : (forall b, usable b -> usable (f b)) -> tidy (upd_smd f).
Proof. intros Hf s b Hb Hu. exists tt, (set_smd (Some (f b)) s), (f b). split; [by apply upd_smd_run|]. split; [done|]. split; [by apply Hf|done]. Qed.
Lemma tidy_get_reg : tidy tegrabl_get_rootfs_slot_reg.
Proof. intros s b Hb Hu. by eexists _, s, b. Qed.
Lemma tidy_set_reg v : tidy (tegrabl_set_rootfs_slot_reg v).
Proof. intros s b Hb Hu. by eexists tt, _, b. Qed.

Ltac tidy := repeat first [apply tidy_ret|apply tidy_loaded|apply tidy_get_reg|apply tidy_set_reg|
  apply tidy_upd; intros ? ?; apply usable_set_u8; [unfold ROOTFS_STATUS, ROOTFS_SELECT; lia|done]|apply tidy_bind; [|intros ?]|case_match].

Lemma tidy_select : tidy (tegrabl_a_b_init_rootfs_slot_reg ;;; tegrabl_a_b_select_active_rootfs ;;; ret 0).
Proof.
  unfold tegrabl_a_b_init_rootfs_slot_reg, tegrabl_a_b_select_active_rootfs, tegrabl_a_b_set_active_rootfs, tegrabl_a_b_set_rootfs_status,
    tegrabl_a_b_get_rootfs_status, tegrabl_a_b_get_rootfs_retry_count, tegrabl_get_rootfs_max_retry_count, tegrabl_a_b_get_version.
  cbv zeta. tidy.
Qed.

(** The table is there: it is the copy that [current_smd] names, which verifies. *)
Definition ready (s : cboot) (b : list Z) : Prop :=
  smd_loadaddress s = Some b /\ usable b /\ (current_smd s = SMD_COPY_PRIMARY \/ current_smd s = SMD_COPY_SECONDARY) /\
  verifies (part (current_smd s) s) = true.

Definition whole_sectors (s : cboot) : Prop := length (part_smd s) = smd_v2_len /\ length (part_smd_b s) = smd_v2_len.

Lemma load_ready k s0 s : (k = SMD_COPY_PRIMARY \/ k = SMD_COPY_SECONDARY) -> whole_sectors s0 -> load_smd_bin_copy k s0 = Done 0 s ->
  exists s' b, (b <- loaded ;; modify (set_backup (Some b)) ;;; tegrabl_a_b_init_rootfs_slot_reg ;;; tegrabl_a_b_select_active_rootfs ;;; ret 0) s = Done 0 s' /\
    ready s' b /\ part_smd s' = part_smd s0 /\ part_smd_b s' = part_smd_b s0.
Proof.
  intros Hk [W1 W2] H. apply load_copy_verifies in H as (Hc & Hl & Hv & P1 & P2).
  assert (Hu : usable (part k s)).
  { apply usable_verified; [|done]. unfold part. rewrite P1, P2. by destruct (_ =? _). }
  set (s1 := set_backup (Some (part k s)) s).
  destruct (tidy_select s1 (part k s) Hl Hu) as (a & s' & b & E & L & U & Q1 & Q2 & C).
  assert (a = 0) as ->.
  { unfold bind in E. destruct (tegrabl_a_b_init_rootfs_slot_reg s1) as [? s2|]; [|done].
    destruct (tegrabl_a_b_select_active_rootfs s2) as [? s3|]; [|done]. by injection E. }
  exists s', b. split.
  { unfold bind at 1, loaded, bind at 1, get. rewrite Hl. exact E. }
  split; [|by rewrite Q1, Q2]. split; [done|]. split; [done|]. change (current_smd s1) with (current_smd s) in C.
  change (part_smd s1) with (part_smd s) in Q1. change (part_smd_b s1) with (part_smd_b s) in Q2. rewrite C, Hc. split; [done|].
  unfold part. rewrite Q1, Q2. exact Hv.
Qed.

(** [tegrabl_a_b_get_smd] writes nothing, and 0 means that the table is there. *)
Lemma get_smd_run s : smd_loadaddress s = None -> whole_sectors s ->
  exists e s', tegrabl_a_b_get_smd s = Done e s' /\ part_smd s' = part_smd s /\ part_smd_b s' = part_smd_b s /\
    (e = 0 -> exists b, ready s' b).
Proof.
  intros Hs Hw. unfold tegrabl_a_b_get_smd, bind at 1, get. rewrite bool_decide_eq_false_2 by (rewrite Hs; by intros [? ?]).
  unfold bind at 1, tegrabl_malloc at 1, bind at 1, next_op, ret at 1. destruct (malloc_ok (ops s)); cbn [negb].
  2: { eexists _, _. split; [reflexivity|]. by split_and!. }
  unfold bind at 1, modify at 1. unfold bind at 1, tegrabl_malloc at 1, bind at 1, next_op, ret at 1.
  match goal with |- context [malloc_ok ?n] => destruct (malloc_ok n) end; cbn [negb].
  2: { eexists _, _. split; [reflexivity|]. by split_and!. }
  unfold bind at 1, modify at 1.
  match goal with |- context [bind (load_smd_bin_copy _) _ ?x] => set (s1 := x) end.
  assert (Hw1 : whole_sectors s1) by done. change (part_smd s) with (part_smd s1). change (part_smd_b s) with (part_smd_b s1). clearbody s1.
  destruct (load_copy_run SMD_COPY_PRIMARY s1) as (e & s2 & E & P & P'). rewrite (bind_done _ _ _ _ _ E).
  destruct (Z.eqb_spec e 0) as [->|He].
  - unfold bind at 1, ret at 1. cbn [Z.eqb]. destruct (load_ready SMD_COPY_PRIMARY s1 s2) as (s3 & b & E3 & R & Q); [by left|done|done|].
    exists 0, s3. rewrite E3. split; [done|]. split; [apply Q|]. split; [apply Q|]. eauto.
  - destruct (load_copy_run SMD_COPY_SECONDARY s2) as (e' & s3 & E3 & P3 & P3'). rewrite (bind_done _ _ _ _ _ E3).
    destruct (Z.eqb_spec e' 0) as [->|He'].
    + destruct (load_ready SMD_COPY_SECONDARY s2 s3) as (s4 & b & E4 & R & Q1 & Q2); [by right| |done|].
      { unfold whole_sectors. by rewrite P, P'. }
      exists 0, s4. rewrite E4. split; [done|]. split; [congruence|]. split; [congruence|]. eauto.
    + eexists _, _. split; [reflexivity|]. split; [simpl; congruence|]. split; [simpl; congruence|]. done.
Qed.

(** ** Changing the table *)

(** The table is changed and written back, again and again, up to the first
    write that does not succeed.  *)
Fixpoint write_backs (changes : list (list Z -> list Z)) : B (option Z) :=
  match changes with
  | [] => tret 0
  | f :: changes => upd_smd f ;;; error <~ tegrabl_a_b_flush_smd ;; if negb (error =? 0) then tret error else write_backs changes
  end.
(** The same on a table that is not loaded yet. *)
Definition session (changes : list (list Z -> list Z)) : B (option Z) :=
  error <- tegrabl_a_b_get_smd ;; if negb (error =? 0) then tret error else write_backs changes.

(** The tables that are written. *)
Fixpoint written (b : list Z) (changes : list (list Z -> list Z)) : list (list Z) :=
  match changes with [] => [] | f :: changes => let b := sealed (f b) in b :: written b changes end.

Lemma ready_boots s b : ready s b -> exists t, boots_with s = Some t /\ (boots_with s = Some t \/ t = part (current_smd s) s).
Proof.
  intros (_ & _ & Hc & Hv). unfold boots_with. destruct (verifies (part_smd s)) eqn:E; [eauto|].
  destruct Hc as [Hc|Hc]; rewrite Hc in *; unfold part in *; simpl in Hv; [congruence|]. rewrite Hv. eauto.
Qed.

Lemma write_backs_run changes : forall s b, ready s b -> Forall (fun f => forall b, usable b -> usable (f b)) changes ->
  exists o s', write_backs changes s = Done o s' /\
    (exists t, boots_with s' = Some t /\ (boots_with s = Some t \/ t = part (current_smd s) s \/ t ∈ written b changes \/ torn t)) /\
    (o = Some 0 -> forall t, last (written b changes) = Some t -> part_smd s' = t /\ part_smd_b s' = t).
Proof.
  induction changes as [|f changes IH]; intros s b Hr Hf; cbn [write_backs written].
  { exists (Some 0), s. split; [done|]. split; [|done]. destruct (ready_boots s b Hr) as (t & Ht & _). eauto. }
  apply Forall_cons in Hf as [Hf Hfs]. destruct Hr as (Hl & Hu & Hc & Hv). apply Hf in Hu.
  rewrite (bind_done _ _ _ _ _ (upd_smd_run f s b Hl)). set (s1 := set_smd (Some (f b)) s).
  destruct (flush_runs s1 (f b) eq_refl (proj1 Hu) (proj2 Hu) Hc Hv) as (o & s2 & E & (t & Ht & Ho) & Hz).
  change (boots_with s1) with (boots_with s) in Ho. change (part (current_smd s1) s1) with (part (current_smd s) s) in Ho.
  assert (Hgo : boots_with s = Some t \/ t = part (current_smd s) s \/ t ∈ sealed (f b) :: written (sealed (f b)) changes \/ torn t).
  { rewrite elem_of_cons. tauto. }
  destruct o as [e|]; [rewrite (tbind_run _ _ _ _ _ E)|rewrite (tbind_none _ _ _ _ E); exists None, s2; split_and!; eauto; done].
  destruct (Z.eqb_spec e 0) as [->|He]; cbn [negb]; [|exists (Some e), s2; split_and!; eauto; by intros [= ?]].
  destruct (Hz eq_refl) as (Z1 & Z2 & Z3 & Z4). pose proof (sealed_verifies (f b) (proj1 Hu) (proj2 Hu)) as Hsv.
  assert (Hpart : forall k, part k s2 = sealed (f b)) by (intros k; unfold part; rewrite Z1, Z2; by destruct (_ =? _)).
  assert (Hboot : boots_with s2 = Some (sealed (f b))) by (rewrite <- Z1; apply boots_with_primary; by rewrite Z1).
  destruct (IH s2 (sealed (f b))) as (o & s3 & E3 & (t' & Ht' & Ho') & Hl3); [|done|].
  { split; [done|]. split; [by apply usable_sealed|]. rewrite Z4, Hpart. by split. }
  rewrite E3. exists o, s3. split; [done|]. split.
  - exists t'. split; [done|]. right. right. rewrite elem_of_cons. rewrite Hpart, Hboot in Ho'. destruct Ho' as [[= ->]|[->|[?|?]]]; auto.
  - intros Hz0 t0 Hlast. rewrite last_cons in Hlast. destruct (last (written (sealed (f b)) changes)) as [t1|] eqn:El.
    + injection Hlast as <-. by apply Hl3.
    + injection Hlast as <-. destruct changes as [|g changes]; [|cbn [written] in El; cbv zeta in El; by rewrite last_cons in El; destruct (last _)].
      cbn in E3. injection E3 as _ <-. done.
Qed.

(** C25: the power may be lost, and the disk may fail, at any access while
    the boot table is loaded, changed and written back, any number of times
    up to the first write that does not succeed: the next boot finds a table
    that verifies.  It is the one that it would have found before, the second
    copy on the disk (when the first could not be read), one of those that
    were written, or what an unfinished write left, if that has the right
    checksums all the same.  When success is reported both copies are the
    last table.  When no table can be loaded nothing is written.  A change
    has to keep the size of the table, and the magic number of the oldest
    version.  After a write that failed the boot loader must not write again
    without loading again: the host's commands do ([second_flush_exposes]). *)
Theorem smd_survives_power_loss s changes : smd_loadaddress s = None -> whole_sectors s ->
  Forall (fun f => forall b, usable b -> usable (f b)) changes ->
  exists o s', session changes s = Done o s' /\
    match tegrabl_a_b_get_smd s with
    | Done e s0 =>
        if e =? 0 then exists b, smd_loadaddress s0 = Some b /\
          (exists t, boots_with s' = Some t /\ (boots_with s = Some t \/ t = part_smd_b s \/ t ∈ written b changes \/ torn t)) /\
          (o = Some 0 -> forall t, last (written b changes) = Some t -> part_smd s' = t /\ part_smd_b s' = t)
        else o = Some e /\ part_smd s' = part_smd s /\ part_smd_b s' = part_smd_b s
    | Crash _ => False
    end.
Proof.
  intros Hs Hw Hf. destruct (get_smd_run s Hs Hw) as (e & s0 & E & P1 & P2 & H0). unfold session. rewrite (bind_done _ _ _ _ _ E), E.
  destruct (Z.eqb_spec e 0) as [->|He]; cbn [negb]; [|by exists (Some e), s0].
  destruct (H0 eq_refl) as (b & Hr). destruct (write_backs_run changes s0 b Hr Hf) as (o & s' & E' & (t & Ht & Ho) & Hl).
  exists o, s'. split; [done|]. exists b. split; [apply Hr|]. split; [|done]. exists t. split; [done|].
  assert (Hb : boots_with s0 = boots_with s) by (unfold boots_with; by rewrite P1, P2). rewrite Hb in Ho.
  destruct Ho as [Ho|[Ho|Ho]]; [by left| |by right; right].
  destruct Hr as (_ & _ & [Hc|Hc] & Hv); rewrite Hc in *; unfold part in *; simpl in Ho, Hv.
  - left. rewrite <- Hb, Ho. by apply boots_with_primary.
  - right. left. congruence.
Qed.

(** ** Fields of the registers *)

Definition field_get (sh w reg : Z) : Z := Z.land (Z.shiftr reg sh) (Z.ones w).
Definition field_set (sh w v reg : Z) : Z := u32 (Z.lor (Z.land reg (Z.lnot (Z.shiftl (Z.ones w) sh))) (Z.shiftl (Z.land v (Z.ones w)) sh)).

Lemma field_set_bit sh w v reg n : 0 <= sh -> 0 <= w -> 0 <= n ->
  Z.testbit (field_set sh w v reg) n = (n <? 32) && (if (sh <=? n) && (n <? sh + w) then Z.testbit v (n - sh) else Z.testbit reg n).
Proof.
  intros Hs Hw Hn. unfold field_set, u32. rewrite uwrap_testbit by lia. f_equal. rewrite Z.lor_spec, Z.land_spec, Z.lnot_spec, !Z.shiftl_spec by lia.
  destruct (Z.leb_spec sh n) as [H1|H1]; cbn [andb].
  - rewrite Z.land_spec, Z.testbit_ones by lia. destruct (Z.ltb_spec n (sh + w)).
    + replace (n - sh <? w) with true by lia. replace (0 <=? n - sh) with true by lia. by destruct (Z.testbit reg n), (Z.testbit v _).
    + replace (n - sh <? w) with false by lia. by destruct (Z.testbit reg n), (0 <=? n - sh), (Z.testbit v _).
  - rewrite !(Z.testbit_neg_r _ (n - sh)) by lia. by destruct (Z.testbit reg n).
Qed.
Lemma field_get_bit sh w reg n : 0 <= sh -> 0 <= w -> 0 <= n -> Z.testbit (field_get sh w reg) n = Z.testbit reg (n + sh) && (n <? w).
Proof. intros Hs Hw Hn. unfold field_get. rewrite Z.land_spec, Z.shiftr_spec, Z.testbit_ones by lia. by replace (0 <=? n) with true by lia. Qed.

Lemma field_get_set sh w v reg : 0 <= sh -> 0 <= w -> sh + w <= 32 -> field_get sh w (field_set sh w v reg) = Z.land v (Z.ones w).
Proof.
  intros Hs Hw Hl. apply Z.bits_inj'. intros n Hn. rewrite field_get_bit, field_set_bit, Z.land_spec, Z.testbit_ones by lia.
  replace (0 <=? n) with true by lia. destruct (Z.ltb_spec n w); [|by rewrite !andb_false_r].
  replace (n + sh <? 32) with true by lia. replace (sh <=? n + sh) with true by lia. replace (n + sh <? sh + w) with true by lia. cbn. by replace (n + sh - sh) with n by lia.
Qed.
Lemma field_get_set_other sh w sh' w' v reg : 0 <= sh -> 0 <= w -> 0 <= sh' -> 0 <= w' -> sh' + w' <= 32 -> sh + w <= sh' \/ sh' + w' <= sh ->
  field_get sh' w' (field_set sh w v reg) = field_get sh' w' reg.
Proof.
  intros ? ? ? ? ? Hd. apply Z.bits_inj'. intros n Hn. rewrite !field_get_bit, field_set_bit by lia.
  destruct (Z.ltb_spec n w'); [|by rewrite !andb_false_r]. replace (n + sh' <? 32) with true by lia.
  by replace ((sh <=? n + sh') && (n + sh' <? sh + w)) with false by lia.
Qed.

(** ** Which slot is next *)

(** The bytes of a table. *)
Record table (b : list Z) : Prop := {
  table_len : length b = smd_v2_len;
  table_magic : magic b = BOOT_CHAIN_MAGIC;
  table_slots : num_slots b = MAX_SLOTS;
  table_bytes : Forall (fun x => 0 <= x < 256) b
}.
Definition byte_at (b : list Z) (off : nat) : Z := default 0 (b !! off).

Lemma byte_lookup b off : length b = smd_v2_len -> (off < smd_v2_len)%nat -> b !! off = Some (byte_at b off).
Proof. intros Hl Ho. unfold byte_at. destruct (lookup_lt_is_Some_2 b off) as [x Hx]; [lia|]. by rewrite Hx. Qed.
Lemma byte_set_eq b off v : length b = smd_v2_len -> (off < smd_v2_len)%nat -> byte_at (set_u8 off v b) off = u8 v.
Proof. intros Hl Ho. unfold byte_at, set_u8. by rewrite list_lookup_insert_eq by lia. Qed.
Lemma byte_set_ne b off off' v : off <> off' -> byte_at (set_u8 off v b) off' = byte_at b off'.
Proof. intros Ho. unfold byte_at, set_u8. by rewrite list_lookup_insert_ne. Qed.
Lemma length_set_u8 b off v : length (set_u8 off v b) = length b.
Proof. apply length_insert. Qed.
Lemma field_set_u8 off n f v b : (f < off \/ off + n <= f)%nat -> field off n (set_u8 f v b) = field off n b.
Proof. intros Ho. apply field_ext. intros i Hi. apply list_lookup_insert_ne. lia. Qed.
Lemma table_set_u8 b f v : (8 <= f)%nat -> table b -> table (set_u8 f v b).
Proof.
  intros Hf [H1 H2 H3 H4]. unfold magic, num_slots in *. constructor; [by rewrite length_set_u8|unfold magic; by rewrite field_set_u8 by lia|unfold num_slots; by rewrite field_set_u8 by lia|].
  apply Forall_insert; [done|]. by apply Z.mod_pos_bound.
Qed.
Lemma byte_range b off : table b -> 0 <= byte_at b off < 256.
Proof. intros [_ _ _ H]. unfold byte_at. destruct (b !! off) as [x|] eqn:E; [|done]. by eapply Forall_lookup_1 in H. Qed.
Lemma field1 off b : field off 1 b = byte_at b off.
Proof.
  unfold field, byte_at. rewrite <- (Nat.add_0_r off) at 2. rewrite <- lookup_drop.
  destruct (drop off b); cbn -[Z.add Z.mul]; [done|].
  rewrite take_0. cbn -[Z.add Z.mul]. lia.
Qed.

(** A slot can boot. *)
Definition bootable (b : list Z) (i : Z) : bool := negb (byte_at b (slot_info i retry_count) =? 0) && negb (byte_at b (slot_info i priority) =? 0).
Definition prio (b : list Z) (i : Z) : Z := byte_at b (slot_info i priority).

(** The slot of the higher priority; slot A, when they have the same. *)
Definition next_slot (b : list Z) : option Z :=
  if bootable b 0 then Some (if bootable b 1 && (prio b 0 <? prio b 1) then 1 else 0)
  else if bootable b 1 then Some 1 else None.

Lemma next_slot_taken s b : smd_loadaddress s = Some b -> table b ->
  boot_chain_get_bootslot_from_smd s = Done (match next_slot b with Some i => inr i | None => inl (TEGRABL_ERROR TEGRABL_ERR_INVALID 1) end) s.
Proof.
  intros Hs Ht. pose proof Ht as [Hl Hm Hn _]. unfold boot_chain_get_bootslot_from_smd, loaded, bind, get. rewrite Hs. cbn [ret].
  rewrite Hm, Hn. change (Z.to_nat MAX_SLOTS) with 2%nat. cbn [bootslot_loop negb]. rewrite Z.eqb_refl. cbn [negb].
  change (0 + 1) with 1. rewrite !byte_lookup by (first [done|vm_compute; lia]). unfold bind, deref, ret.
  unfold next_slot, bootable, prio. pose proof (byte_range b (slot_info 0 priority) Ht). pose proof (byte_range b (slot_info 1 priority) Ht).
  set (r0 := byte_at b (slot_info 0 retry_count)). set (r1 := byte_at b (slot_info 1 retry_count)).
  set (p0 := byte_at b (slot_info 0 priority)) in *. set (p1 := byte_at b (slot_info 1 priority)) in *. clearbody p0 p1 r0 r1.
  destruct (Z.eqb_spec r0 0), (Z.eqb_spec p0 0), (Z.eqb_spec r1 0), (Z.eqb_spec p1 0), (Z.ltb_spec 0 p0), (Z.ltb_spec 0 p1), (Z.ltb_spec p0 p1); subst; cbn;
    repeat match goal with |- context [?x =? 0] => destruct (Z.eqb_spec x 0); [lia|] end; first [done|lia|idtac].
Qed.

(** *** The loaded table *)

(** The number of boots that a slot gets. *)
Definition max_retry (b : list Z) : Z :=
  let m := if BOOT_CHAIN_VERSION_GET (version b) <? BOOT_CHAIN_VERSION_ROOTFS_AB then SLOT_RETRY_COUNT_DEFAULT else byte_at b max_bl_retry_count in
  if (m =? 0) || (SLOT_RETRY_COUNT_DEFAULT <? m) then SLOT_RETRY_COUNT_DEFAULT else m.
Lemma max_retry_run s b : smd_loadaddress s = Some b -> tegrabl_get_max_retry_count s = Done (max_retry b) s.
Proof. intros Hs. unfold tegrabl_get_max_retry_count, loaded, bind, get. rewrite Hs. cbn [ret]. by rewrite field1. Qed.
Lemma max_retry_range b : table b -> 1 <= max_retry b <= 7.
Proof.
  intros Ht. unfold max_retry. pose proof (byte_range b max_bl_retry_count Ht). change SLOT_RETRY_COUNT_DEFAULT with 7.
  destruct (_ <? BOOT_CHAIN_VERSION_ROOTFS_AB); [done|]. destruct (Z.eqb_spec (byte_at b max_bl_retry_count) 0), (Z.ltb_spec 7 (byte_at b max_bl_retry_count)); cbn; lia.
Qed.

Definition lowered (i : Z) (b : list Z) : list Z := if 1 <? prio b i then set_u8 (slot_info i priority) (prio b i - 1) b else b.
Lemma lowered_run s b i : smd_loadaddress s = Some b -> length b = smd_v2_len -> i = 0 \/ i = 1 -> decrease_priority i s = Done tt (set_smd (Some (lowered i b)) s).
Proof.
  intros Hs Hl Hi. unfold decrease_priority, bind at 1, loaded, bind at 1, get. rewrite Hs. cbn [ret].
  rewrite byte_lookup by (first [done|destruct Hi as [->| ->]; vm_compute; lia]). unfold deref, bind at 1, ret. unfold lowered. fold (prio b i).
  destruct (1 <? prio b i); [by apply upd_smd_run|]. destruct s; cbn in *; by subst.
Qed.

Lemma set_field_run s b f i v : smd_loadaddress s = Some b -> i = 0 \/ i = 1 -> set_slot_field f i v s = Done 0 (set_smd (Some (set_u8 (slot_info i f) v b)) s).
Proof.
  intros Hs Hi. unfold set_slot_field, bind at 1, get. rewrite Hs. replace (MAX_SLOTS <=? i) with false by (destruct Hi as [->| ->]; done).
  by rewrite (bind_done _ _ _ _ _ (upd_smd_run _ _ _ Hs)).
Qed.
Lemma get_field_run s b f i : smd_loadaddress s = Some b -> length b = smd_v2_len -> i = 0 \/ i = 1 -> (f < 5)%nat -> get_slot_field f i s = Done (inr (byte_at b (slot_info i f))) s.
Proof.
  intros Hs Hl Hi Hf. unfold get_slot_field, bind at 1, get. rewrite Hs. replace (MAX_SLOTS <=? i) with false by (destruct Hi as [->| ->]; done).
  rewrite byte_lookup; [done|done|]. destruct Hi as [->| ->]; change smd_v2_len with 191%nat; unfold slot_info; lia.
Qed.

Lemma smd_set b s : smd_loadaddress (set_smd (Some b) s) = Some b.
Proof. done. Qed.
Lemma set_smd_twice b b' s : set_smd (Some b') (set_smd (Some b) s) = set_smd (Some b') s.
Proof. done. Qed.

(** What [tegrabl_a_b_set_active_slot] makes of the table. *)
Definition activated (i : Z) (b : list Z) : list Z :=
  set_u8 (slot_info i boot_successful) 0 (set_u8 (slot_info i retry_count) (max_retry b) (set_u8 (slot_info i priority) SLOT_PRIORITY_DEFAULT (lowered 1 (lowered 0 b)))).

Lemma lowered_out i b off : off <> slot_info i priority -> byte_at (lowered i b) off = byte_at b off.
Proof. intros Ho. unfold lowered. destruct (1 <? prio b i); [|done]. by apply byte_set_ne. Qed.
Lemma lowered_table i b : table b -> table (lowered i b).
Proof. intros Ht. unfold lowered. destruct (1 <? prio b i); [|done]. apply table_set_u8; [unfold slot_info; lia|done]. Qed.
Lemma lowered_version i b : version (lowered i b) = version b.
Proof. unfold lowered. destruct (1 <? prio b i); [|done]. apply field_set_u8. unfold slot_info. lia. Qed.
Lemma lowered_prio i b : table b -> i = 0 \/ i = 1 -> prio (lowered i b) i = if 1 <? prio b i then prio b i - 1 else prio b i.
Proof.
  intros Ht Hi. pose proof (byte_range b (slot_info i priority) Ht) as Hr. unfold lowered, prio at 1. fold (prio b i) in Hr. destruct (Z.ltb_spec 1 (prio b i)); [|done].
  rewrite byte_set_eq; [unfold u8, uwrap; apply Z.mod_small; lia|apply Ht|destruct Hi as [->| ->]; vm_compute; lia].
Qed.

Lemma max_retry_ext b b' : version b' = version b -> byte_at b' max_bl_retry_count = byte_at b max_bl_retry_count -> max_retry b' = max_retry b.
Proof. unfold max_retry. by intros -> ->. Qed.

Lemma set_active_run s b i : smd_loadaddress s = Some b -> table b -> i = 0 \/ i = 1 -> tegrabl_a_b_set_active_slot i s = Done 0 (set_smd (Some (activated i b)) s).
Proof.
  intros Hs Ht Hi. unfold tegrabl_a_b_set_active_slot, bind at 1, get. rewrite Hs. replace (MAX_SLOTS <=? i) with false by (destruct Hi as [->| ->]; done).
  rewrite bool_decide_eq_false_2 by done. cbn [orb].
  rewrite (bind_done _ _ _ _ _ (lowered_run s b 0 Hs (table_len _ Ht) (or_introl eq_refl))).
  rewrite (bind_done _ _ _ _ _ (lowered_run _ (lowered 0 b) 1 (smd_set _ _) (table_len _ (lowered_table 0 b Ht)) (or_intror eq_refl))).
  rewrite set_smd_twice. unfold tegrabl_a_b_set_priority. rewrite (bind_done _ _ _ _ _ (set_field_run _ _ priority i SLOT_PRIORITY_DEFAULT (smd_set _ _) Hi)). cbn [Z.eqb negb].
  rewrite set_smd_twice. rewrite (bind_done _ _ _ _ _ (max_retry_run _ _ (smd_set _ _))). unfold tegrabl_a_b_set_retry_count.
  rewrite (bind_done _ _ _ _ _ (set_field_run _ _ retry_count i _ (smd_set _ _) Hi)). cbn [Z.eqb negb]. unfold tegrabl_a_b_set_successful.
  rewrite (bind_done _ _ _ _ _ (set_field_run _ _ boot_successful i _ (smd_set _ _) Hi)). cbn [Z.eqb negb]. rewrite !set_smd_twice. unfold ret, activated.
  do 2 f_equal. rewrite (max_retry_ext b); [done| |].
  - unfold version. rewrite field_set_u8 by (unfold slot_info; lia). fold (version (lowered 1 (lowered 0 b))). by rewrite !lowered_version.
  - rewrite byte_set_ne by (destruct Hi as [->| ->]; done). by rewrite !lowered_out.
Qed.

(** C27: The slot that the host makes active is the one the next boot
    takes, whatever slot was active before and whatever its count of retries
    was: it has the highest priority, and all its retries again. *)
Theorem active_slot_boots_next s b i : smd_loadaddress s = Some b -> table b -> prio b 0 <= 15 -> prio b 1 <= 15 -> i = 0 \/ i = 1 ->
  exists s' b', tegrabl_a_b_set_active_slot i s = Done 0 s' /\ boot_chain_get_bootslot_from_smd s' = Done (inr i) s' /\
    smd_loadaddress s' = Some b' /\ tegrabl_a_b_get_retry_count i s' = Done (inr (max_retry b)) s' /\ tegrabl_a_b_is_unbootable i s' = Done (inr false) s' /\
    byte_at b' (slot_info (other i) retry_count) = byte_at b (slot_info (other i) retry_count).
Proof.
  intros Hs Ht H0 H1 Hi. exists (set_smd (Some (activated i b)) s), (activated i b). split; [by apply set_active_run|].
  pose proof (lowered_table 1 _ (lowered_table 0 _ Ht)) as Htl.
  assert (Hta : table (activated i b)) by (unfold activated; repeat (apply table_set_u8; [unfold slot_info; lia|]); done).
  assert (Hr : byte_at (activated i b) (slot_info i retry_count) = max_retry b).
  { unfold activated. rewrite byte_set_ne by (destruct Hi as [->| ->]; done). pose proof (max_retry_range b Ht).
    rewrite byte_set_eq; [unfold u8, uwrap; apply Z.mod_small; lia|rewrite length_set_u8; apply Htl|destruct Hi as [->| ->]; vm_compute; lia]. }
  assert (Hp : prio (activated i b) i = 15).
  { unfold prio, activated. rewrite !byte_set_ne by (destruct Hi as [->| ->]; done). rewrite byte_set_eq; [done|apply Htl|destruct Hi as [->| ->]; vm_compute; lia]. }
  assert (Ho : prio (activated i b) (other i) < 15).
  { unfold prio, activated. rewrite !byte_set_ne by (destruct Hi as [->| ->]; done). destruct Hi as [->| ->]; unfold other; cbn [Z.eqb].
    - fold (prio (lowered 1 (lowered 0 b)) 1). rewrite lowered_prio by (first [by apply lowered_table|auto]).
      assert (prio (lowered 0 b) 1 = prio b 1) as -> by (by apply lowered_out). destruct (Z.ltb_spec 1 (prio b 1)); lia.
    - rewrite lowered_out by done. fold (prio (lowered 0 b) 0). rewrite lowered_prio by auto. destruct (Z.ltb_spec 1 (prio b 0)); lia. }
  pose proof (max_retry_range b Ht) as Hm.
  assert (Hb : bootable (activated i b) i = true).
  { unfold bootable. fold (prio (activated i b) i). rewrite Hr, Hp. destruct (Z.eqb_spec (max_retry b) 0); [lia|done]. }
  split; [|split; [done|split; [|split]]].
  - rewrite (next_slot_taken _ (activated i b)) by done. unfold next_slot.
    destruct Hi as [->| ->]; rewrite Hb, Hp; unfold other in Ho; cbn [Z.eqb] in Ho.
    + replace (15 <? prio (activated 0 b) 1) with false by lia. by rewrite andb_false_r.
    + replace (prio (activated 1 b) 0 <? 15) with true by lia. by destruct (bootable _ 0).
  - unfold tegrabl_a_b_get_retry_count. rewrite (get_field_run _ (activated i b)) by (first [done|apply Hta|vm_compute; lia]). by rewrite Hr.
  - unfold tegrabl_a_b_is_unbootable, bind at 1, get. rewrite bool_decide_eq_false_2 by done. replace (MAX_SLOTS <=? i) with false by (destruct Hi as [->| ->]; done). cbn [orb].
    unfold tegrabl_a_b_get_priority, tegrabl_a_b_get_retry_count.
    rewrite (bind_done _ _ _ _ _ (get_field_run _ (activated i b) priority i (smd_set _ _) (table_len _ Hta) Hi ltac:(vm_compute; lia))).
    rewrite (bind_done _ _ _ _ _ (get_field_run _ (activated i b) retry_count i (smd_set _ _) (table_len _ Hta) Hi ltac:(vm_compute; lia))).
    fold (prio (activated i b) i). rewrite Hr, Hp. cbn. by replace (max_retry b =? 0) with false by lia.
  - unfold activated. rewrite !byte_set_ne by (destruct Hi as [->| ->]; done). by rewrite !lowered_out by (destruct Hi as [->| ->]; done).
Qed.

(** ** A row of boots that fail *)

Definition retry_field (slot : Z) : Z := if slot =? 0 then 26 else 22.
Definition retries_in (slot reg : Z) : Z := field_get (retry_field slot) 4 reg.
Definition rotations (rf_reg : Z) : Z := ROOTFS_AB_REG_ROTATE_COUNT_GET rf_reg.

Lemma rotations_field reg : rotations reg = field_get 16 4 reg.
Proof.
  unfold rotations, ROOTFS_AB_REG_ROTATE_COUNT_GET, field_get. rewrite Z.shiftr_land. done.
Qed.
Lemma retries_range slot reg : 0 <= retries_in slot reg < 16.
Proof. unfold retries_in, field_get. rewrite Z.land_ones by done. by apply Z.mod_pos_bound. Qed.
Lemma land_ones_small v w : 0 <= w -> 0 <= v < 2 ^ w -> Z.land v (Z.ones w) = v.
Proof. intros Hw Hv. rewrite Z.land_ones by done. by apply Z.mod_small. Qed.

Lemma set_retry_run s slot m : slot = 0 \/ slot = 1 -> tegrabl_a_b_set_retry_count_reg slot m s = Done tt (set_boot_reg (field_set (retry_field slot) 4 m (boot_slot_reg s)) s).
Proof. by intros [->| ->]. Qed.
Lemma get_retry_run s slot reg : slot = 0 \/ slot = 1 -> tegrabl_a_b_get_retry_count_reg slot reg s = Done (retries_in slot reg) s.
Proof. by intros [->| ->]. Qed.

Definition max_rotate (b : list Z) : Z := if max_retry b * 2 <? ROOTFS_AB_ROTATE_COUNT then max_retry b * 2 else ROOTFS_AB_ROTATE_COUNT.
Lemma max_rotate_run s b : smd_loadaddress s = Some b -> get_max_rotate_count s = Done (max_rotate b) s.
Proof. intros Hs. unfold get_max_rotate_count. by rewrite (bind_done _ _ _ _ _ (max_retry_run s b Hs)). Qed.
Lemma max_rotate_range b : table b -> 2 <= max_rotate b <= 4.
Proof. intros Ht. pose proof (max_retry_range b Ht). unfold max_rotate. change ROOTFS_AB_ROTATE_COUNT with 4. destruct (Z.ltb_spec (max_retry b * 2) 4); lia. Qed.

(** It is the other slot's turn after half of the boots, and after all of
    them; provided that it can boot. *)
Definition turn (c reg rf_reg : Z) (b : list Z) : bool :=
  ((rotations rf_reg + 1 =? max_rotate b / 2) || (rotations rf_reg + 1 =? max_rotate b)) && negb (retries_in (other c) reg =? 0) && negb (prio b (other c) =? 0).
Definition rotated (c reg rf_reg : Z) (b : list Z) : list Z :=
  if turn c reg rf_reg b then set_u8 (slot_info (other c) priority) 15 (set_u8 (slot_info c priority) 14 b) else b.

Lemma rotated_table c reg rf b : table b -> table (rotated c reg rf b).
Proof. intros Ht. unfold rotated. destruct (turn _ _ _ _); [|done]. repeat (apply table_set_u8; [unfold slot_info; lia|]). done. Qed.

(** The slot of the register is the one that the table gives. *)
Definition running (c : Z) (b : list Z) : Prop := 0 < prio b c /\ (c = 0 /\ prio b 1 <= prio b 0 \/ c = 1 /\ prio b 0 < prio b 1).

Lemma count_run s b c : smd_loadaddress s = Some b -> table b -> BOOT_CHAIN_REG_SLOT_NUM_GET (boot_slot_reg s) = c -> running c b ->
  ROOTFS_AB_REG_MAGIC_GET (rootfs_slot_reg s) = ROOTFS_AB_REG_MAGIC -> rotations (rootfs_slot_reg s) < 15 ->
  check_user_redundancy_status (boot_slot_reg s) s =
    Done 0 (Cboot (field_set (retry_field c) 4 (max_retry b) (boot_slot_reg s)) (field_set 16 4 (rotations (rootfs_slot_reg s) + 1) (rootfs_slot_reg s))
              (Some (rotated c (boot_slot_reg s) (rootfs_slot_reg s) b)) (smd_backup s) (current_smd s) (part_smd s) (part_smd_b s) (ops s)).
Proof.
  destruct s as [br rr sm bk cu pa pb op]. cbn [smd_loadaddress]. intros -> Ht Hc (Hp & Ho) Hm Hr. set (s := Cboot _ _ _ _ _ _ _ _) in *. assert (Hs : smd_loadaddress s = Some b) by done.
  unfold check_user_redundancy_status. rewrite Hc.
  assert (Hc' : c = 0 \/ c = 1) by tauto. assert (Hoc : other c = 0 \/ other c = 1) by (destruct Hc' as [->| ->]; auto).
  assert (Hrot : 0 <= rotations (rootfs_slot_reg s)) by (rewrite rotations_field; unfold field_get; apply Z.land_nonneg; by right).
  assert (Hle : prio b (other c) <= prio b c) by (destruct Ho as [[-> ?]|[-> ?]]; unfold other; cbn; lia).
  rewrite (bind_done _ _ _ _ _ (max_retry_run s b Hs)). rewrite (bind_done _ _ _ _ _ (set_retry_run s c _ Hc')).
  set (reg := field_set _ _ _ _). set (s1 := set_boot_reg reg s). assert (H1 : smd_loadaddress s1 = Some b) by exact Hs.
  unfold bind at 1, tegrabl_get_boot_slot_reg, gets. change (boot_slot_reg s1) with reg. unfold tegrabl_a_b_get_priority.
  rewrite (bind_done _ _ _ _ _ (get_field_run s1 b priority c H1 (table_len _ Ht) Hc' ltac:(vm_compute; lia))).
  rewrite (bind_done _ _ _ _ _ (get_field_run s1 b priority (other c) H1 (table_len _ Ht) Hoc ltac:(vm_compute; lia))).
  fold (prio b c) (prio b (other c)). unfold bind at 1, tegrabl_get_rootfs_slot_reg, gets. change (rootfs_slot_reg s1) with (rootfs_slot_reg s). rewrite Hm, Z.eqb_refl.
  unfold bind at 1, assert_, ret at 1. fold (rotations (rootfs_slot_reg s)).
  assert (u8 (rotations (rootfs_slot_reg s) + 1) = rotations (rootfs_slot_reg s) + 1) as -> by (apply Z.mod_small; lia).
  rewrite (bind_done _ _ _ _ _ (max_rotate_run s1 b H1)).
  assert (Hother : retries_in (other c) reg = retries_in (other c) (boot_slot_reg s)).
  { unfold retries_in, reg. destruct Hc' as [->| ->]; apply field_get_set_other; cbn; lia. }
  unfold rotated, turn. set (half := _ || _).
  destruct half; [|done].
  unfold bind at 1. rewrite (bind_done _ _ _ _ _ (get_retry_run s1 (other c) reg Hoc)). rewrite Hother.
  destruct (negb (retries_in (other c) (boot_slot_reg s) =? 0)); [|done]. replace (prio b c =? 0) with false by lia. cbn [negb andb].
  destruct (negb (prio b (other c) =? 0)); [|done]. replace (prio b (other c) <=? prio b c) with true by lia. unfold bind at 1, assert_, ret at 1. unfold tegrabl_a_b_set_priority.
  rewrite (bind_done _ _ _ _ _ (set_field_run s1 b priority c 14 H1 Hc')). by rewrite (bind_done _ _ _ _ _ (set_field_run _ _ priority (other c) 15 (smd_set _ _) Hoc)).
Qed.

Lemma copy_retry_run s b reg : smd_loadaddress s = Some b ->
  tegrabl_a_b_copy_retry_count reg FROM_REG_TO_SMD s =
  Done reg (set_smd (Some (set_u8 (slot_info 1 retry_count) (retries_in 1 reg) (set_u8 (slot_info 0 retry_count) (retries_in 0 reg) b))) s).
Proof.
  intros Hs. unfold tegrabl_a_b_copy_retry_count. rewrite (bind_done _ _ _ _ _ (upd_smd_run _ s b Hs)).
  by rewrite (bind_done _ _ _ _ _ (upd_smd_run _ _ _ (smd_set _ _))).
Qed.

Lemma retries_copied reg b i : table b -> i = 0 \/ i = 1 ->
  byte_at (set_u8 (slot_info 1 retry_count) (retries_in 1 reg) (set_u8 (slot_info 0 retry_count) (retries_in 0 reg) b)) (slot_info i retry_count) = retries_in i reg.
Proof.
  intros Ht Hi. pose proof (retries_range i reg).
  destruct Hi as [->| ->]; [rewrite byte_set_ne by done|]; rewrite byte_set_eq; rewrite ?length_set_u8; try apply Ht; try (vm_compute; lia); apply Z.mod_small; lia.
Qed.
Lemma prio_copied reg b i : i = 0 \/ i = 1 ->
  prio (set_u8 (slot_info 1 retry_count) (retries_in 1 reg) (set_u8 (slot_info 0 retry_count) (retries_in 0 reg) b)) i = prio b i.
Proof. intros [->| ->]; unfold prio; by rewrite !byte_set_ne. Qed.

Lemma rotated_prio c reg rf b i : table b -> c = 0 \/ c = 1 -> i = 0 \/ i = 1 ->
  prio (rotated c reg rf b) i = if turn c reg rf b then (if i =? c then 14 else 15) else prio b i.
Proof.
  intros Ht Hc Hi. unfold rotated. destruct (turn _ _ _ _); [|done]. pose proof (table_len _ Ht).
  destruct Hc as [->| ->], Hi as [->| ->]; unfold prio, other; cbn [Z.eqb Pos.eqb];
    repeat first [rewrite byte_set_eq by (rewrite ?length_set_u8; first [done|vm_compute; lia]); reflexivity | rewrite byte_set_ne by done].
Qed.

Lemma running_next s b c : smd_loadaddress s = Some b -> table b -> running c b -> byte_at b (slot_info c retry_count) <> 0 ->
  boot_chain_get_bootslot_from_smd s = Done (inr c) s.
Proof.
  intros Hs Ht [Hp Ho] Hr. rewrite (next_slot_taken s b) by done. unfold next_slot.
  assert (bootable b c = true) as Hb by (unfold bootable; fold (prio b c); by replace (prio b c =? 0) with false by lia; apply Z.eqb_neq in Hr as ->).
  destruct Ho as [[-> Ho]|[-> Ho]]; rewrite Hb.
  - replace (prio b 0 <? prio b 1) with false by lia. by rewrite andb_false_r.
  - replace (prio b 0 <? prio b 1) with true by lia. by destruct (bootable b 0).
Qed.

(** Recovery, when the count has reached the limit. *)
Lemma unbootable_run s b : smd_loadaddress s = Some b -> BOOTCTRL_SUPPORT_REDUNDANCY_USER (version b) <> 0 -> ROOTFS_AB_REG_MAGIC_GET (rootfs_slot_reg s) = ROOTFS_AB_REG_MAGIC ->
  tegrabl_a_b_rootfs_is_all_unbootable s = Done (max_rotate b <=? rotations (rootfs_slot_reg s))
    (if max_rotate b <=? rotations (rootfs_slot_reg s) then set_rootfs_reg (field_set 16 4 0 (rootfs_slot_reg s)) s else s).
Proof.
  intros Hs Hv Hm. unfold tegrabl_a_b_rootfs_is_all_unbootable.
  assert (tegrabl_a_b_get_smd s = Done 0 s) as Hg by (unfold tegrabl_a_b_get_smd, bind at 1, get; by rewrite Hs).
  rewrite (bind_done _ _ _ _ _ Hg). cbn [Z.eqb negb]. unfold bind at 1, tegrabl_a_b_get_version, loaded, bind at 1, bind at 1, get. rewrite Hs. cbn [ret].
  apply Z.eqb_neq in Hv. rewrite Hv, orb_true_r. unfold bind at 1, tegrabl_get_rootfs_slot_reg, gets. rewrite Hm, Z.eqb_refl. unfold bind at 1, assert_, ret at 1.
  rewrite (bind_done _ _ _ _ _ (max_rotate_run s b Hs)). fold (rotations (rootfs_slot_reg s)). by destruct (_ <=? _).
Qed.

(** C26: With the user redundancy on, every boot is counted when the boot
    loader hands over, and half way to the limit and at the limit the other
    slot gets its turn, if it can boot: that slot is the one the next boot
    takes; otherwise the slot stays.  When the limit is reached without anyone
    having reset the count, the next boot goes to recovery, and that decision
    clears the count; the boot into recovery is then counted as any other
    ([recovery_is_counted]), so that the row of boots after it starts from 1.
    It is stated of a table that is loaded, with the count valid in its
    register (its magic number is set, the count is below 15) and the running
    slot the one with the highest priority. *)
Theorem failed_boots_rotate s b c : smd_loadaddress s = Some b -> table b -> BOOTCTRL_SUPPORT_REDUNDANCY_USER (version b) <> 0 ->
  BOOT_CHAIN_REG_SLOT_NUM_GET (boot_slot_reg s) = c -> running c b ->
  ROOTFS_AB_REG_MAGIC_GET (rootfs_slot_reg s) = ROOTFS_AB_REG_MAGIC -> rotations (rootfs_slot_reg s) < 15 ->
  exists s1 s2 b2, check_user_redundancy_status (boot_slot_reg s) s = Done 0 s1 /\
    tegrabl_a_b_copy_retry_count (boot_slot_reg s1) FROM_REG_TO_SMD s1 = Done (boot_slot_reg s1) s2 /\
    smd_loadaddress s2 = Some b2 /\ table b2 /\
    (let c' := if turn c (boot_slot_reg s) (rootfs_slot_reg s) b then other c else c in
     boot_chain_get_bootslot_from_smd s2 = Done (inr c') s2 /\ running c' b2) /\
    byte_at b2 (slot_info c retry_count) = max_retry b /\ byte_at b2 (slot_info (other c) retry_count) = retries_in (other c) (boot_slot_reg s) /\
    rotations (rootfs_slot_reg s2) = rotations (rootfs_slot_reg s) + 1 /\
    exists s3, tegrabl_a_b_rootfs_is_all_unbootable s2 = Done (max_rotate b <=? rotations (rootfs_slot_reg s) + 1) s3 /\
      (max_rotate b <= rotations (rootfs_slot_reg s) + 1 -> rotations (rootfs_slot_reg s3) = 0).
Proof.
  intros Hs Ht Hv Hc Hrun Hm Hr. pose proof (count_run s b c Hs Ht Hc Hrun Hm Hr) as Hcount.
  set (reg1 := field_set (retry_field c) 4 (max_retry b) (boot_slot_reg s)) in *. set (rf1 := field_set 16 4 _ (rootfs_slot_reg s)) in *.
  set (b1 := rotated c (boot_slot_reg s) (rootfs_slot_reg s) b) in *. set (s1 := Cboot reg1 rf1 _ _ _ _ _ _) in *.
  pose proof (copy_retry_run s1 b1 reg1 eq_refl) as Hcopy.
  set (b2 := set_u8 (slot_info 1 retry_count) (retries_in 1 reg1) (set_u8 (slot_info 0 retry_count) (retries_in 0 reg1) b1)) in *. set (s2 := set_smd (Some b2) s1) in *.
  exists s1, s2, b2. split; [exact Hcount|]. split; [exact Hcopy|]. split; [done|].
  assert (Ht1 : table b1) by (by apply rotated_table).
  assert (Ht2 : table b2) by (unfold b2; repeat (apply table_set_u8; [unfold slot_info; lia|]); done). split; [done|].
  destruct Hrun as [Hp Ho]. assert (Hc' : c = 0 \/ c = 1) by tauto. assert (Hoc : other c = 0 \/ other c = 1) by (destruct Hc' as [->| ->]; auto).
  pose proof (max_retry_range b Ht) as Hmr.
  assert (R1 : retries_in c reg1 = max_retry b).
  { unfold retries_in, reg1. rewrite field_get_set by (destruct Hc' as [->| ->]; cbn; lia). apply land_ones_small; lia. }
  assert (R2 : retries_in (other c) reg1 = retries_in (other c) (boot_slot_reg s)).
  { unfold retries_in, reg1. apply field_get_set_other; destruct Hc' as [->| ->]; cbn; lia. }
  assert (P2 : forall i, i = 0 \/ i = 1 -> prio b2 i = if turn c (boot_slot_reg s) (rootfs_slot_reg s) b then (if i =? c then 14 else 15) else prio b i).
  { intros i Hi. unfold b2. rewrite prio_copied by done. by apply rotated_prio. }
  assert (Q2 : forall i, i = 0 \/ i = 1 -> byte_at b2 (slot_info i retry_count) = retries_in i reg1) by (intros i Hi; by apply retries_copied).
  assert (rotations (rootfs_slot_reg s2) = rotations (rootfs_slot_reg s) + 1) as Hrot.
  { change (rootfs_slot_reg s2) with rf1. unfold rf1. rewrite (rotations_field (field_set _ _ _ _)), field_get_set by lia. apply land_ones_small; [done|].
    assert (0 <= rotations (rootfs_slot_reg s)) by (rewrite rotations_field; unfold field_get; apply Z.land_nonneg; by right). lia. }
  assert (Hv2 : version b2 = version b).
  { unfold version, b2. rewrite !field_set_u8 by (unfold slot_info; lia). unfold b1, rotated. destruct (turn _ _ _ _); [|done]. by rewrite !field_set_u8 by (unfold slot_info; lia). }
  assert (Hmx : max_rotate b2 = max_rotate b).
  { unfold max_rotate. rewrite (max_retry_ext b b2); [done|done|]. unfold b2, b1, rotated. rewrite !byte_set_ne by done.
    destruct (turn _ _ _ _); [|done]. by destruct Hc' as [->| ->]; rewrite !byte_set_ne. }
  split.
  { set (c' := if turn _ _ _ _ then _ else _).
    assert (running c' b2 /\ byte_at b2 (slot_info c' retry_count) <> 0) as [Hrun' Hne].
    { unfold running, c'. destruct (turn c _ _ b) eqn:Et.
      - rewrite Q2, R2, !P2 by auto. unfold turn in Et. apply andb_true_iff in Et as [Et _]. apply andb_true_iff in Et as [_ Et]. apply negb_true_iff, Z.eqb_neq in Et.
        split; [|done]. destruct Hc' as [->| ->]; cbn; lia.
      - rewrite Q2, R1, !P2 by auto. split; [done|lia]. }
    split; [|done]. by apply (running_next s2 b2). }
  split; [by rewrite Q2, R1|]. split; [by rewrite Q2, R2|]. split; [done|].
  assert (Hm2 : ROOTFS_AB_REG_MAGIC_GET rf1 = ROOTFS_AB_REG_MAGIC).
  { rewrite <- Hm. unfold ROOTFS_AB_REG_MAGIC_GET. assert (H0 : forall x, Z.land x ROOTFS_AB_REG_MAGIC_MASK = field_get 0 16 x) by (intros x; unfold field_get; by rewrite Z.shiftr_0_r).
    rewrite !H0. apply field_get_set_other; lia. }
  assert (Hvu : BOOTCTRL_SUPPORT_REDUNDANCY_USER (version b2) <> 0) by (by rewrite Hv2).
  pose proof (unbootable_run s2 b2 eq_refl Hvu Hm2) as Hu. rewrite Hmx, Hrot in Hu.
  eexists. split; [exact Hu|]. intros Hge. replace (max_rotate b <=? _) with true by lia.
  change (rotations (field_set 16 4 0 (rootfs_slot_reg s2)) = 0). rewrite rotations_field, field_get_set by lia. done.
Qed.

End Flush.

(** ** A table, and a disk that loses its power *)

Definition two_slots : list Z :=
  <[max_bl_retry_count := 2]> ([0x00; 0x4E; 0x42; 0x43; 0x05; 0x27; 2; 0] ++ [15; 0x5f; 0x61; 7; 1] ++ [15; 0x5f; 0x62; 7; 1] ++ replicate 173 0).
Definition power_fails_at (k : nat) : storage :=
  Storage false (fun _ => 0) (fun n old new => if decide (n = k) then PowerLost (take 20 new ++ drop 20 old) else WriteOk) (fun _ => true).
(** Boot slot [slot], the root file systems' register at [count] rotations. *)
Definition running_from (slot count : Z) (b : list Z) : cboot :=
  Cboot (BOOT_CHAIN_REG_A_RETRY_COUNT_SET 7 (BOOT_CHAIN_REG_B_RETRY_COUNT_SET 7 (BOOT_CHAIN_REG_SLOT_NUM_SET slot (BOOT_CHAIN_REG_MAGIC_SET 0))))
    (ROOTFS_AB_REG_ROTATE_COUNT_SET count (ROOTFS_AB_REG_MAGIC_SET 0)) (Some b) (Some b) SMD_COPY_PRIMARY (sealed two_slots) (sealed two_slots) 0.

Lemma two_slots_table : table two_slots.
Proof. constructor; [vm_compute; reflexivity..|]. apply (bool_decide_unpack _). vm_compute. exact I. Qed.

(** The power goes in the first of the two writes, and in the second. *)
Example first_copy_torn : exists s', tegrabl_a_b_flush_smd (sto := power_fails_at 2) (running_from 0 1 (activated 1 two_slots)) = Done None s' /\
  verifies (part_smd_b s') = false /\ boots_with s' = Some (sealed two_slots).
Proof. eexists. split; [vm_compute; reflexivity|]. split; vm_compute; reflexivity. Qed.
Example second_copy_torn : exists s', tegrabl_a_b_flush_smd (sto := power_fails_at 5) (running_from 0 1 (activated 1 two_slots)) = Done None s' /\
  verifies (part_smd s') = false /\ boots_with s' = Some (sealed (activated 1 two_slots)).
Proof. eexists. split; [vm_compute; reflexivity|]. split; vm_compute; reflexivity. Qed.

(** [current_smd] is not changed by a write that fails: when the second copy
    was left unfinished, the host's next command starts with the first one,
    the only one that verifies, and a loss of power then leaves none. *)
Definition fails_then_loses_power : storage :=
  Storage false (fun _ => 0)
    (fun n old new => if decide (n = 5)%nat then WriteError 1 (take 20 new ++ drop 20 old) else if decide (n = 8)%nat then PowerLost (take 20 new ++ drop 20 old) else WriteOk)
    (fun _ => true).
Example second_flush_exposes : exists e s1 s2, let s := running_from 0 1 (activated 1 two_slots) in
  fastboot_a_b_set_slot_retry_count (sto := fails_then_loses_power) 1 3 s = Done (Some e) s1 /\ e <> 0 /\ boots_with s1 = Some (part_smd_b s1) /\
  fastboot_a_b_set_slot_retry_count (sto := fails_then_loses_power) 1 4 s1 = Done None s2 /\ boots_with s2 = None.
Proof. do 3 eexists. cbv zeta. split; [vm_compute; reflexivity|]. split; [done|]. split; [vm_compute; reflexivity|]. split; vm_compute; reflexivity. Qed.

(** The boot into recovery is counted like the others, so that the slot has one boot less afterwards. *)
Example recovery_is_counted : exists s', load_and_boot_kernel (sto := power_fails_at 100) false
    (set_boot_reg (BOOT_CHAIN_REG_UPDATE_FLAG_SET BC_FLAG_REDUNDANCY_BOOT (BOOT_CHAIN_REG_MAX_SLOTS_SET 2 (boot_slot_reg (running_from 0 4 two_slots)))) (running_from 0 4 two_slots))
    = Done (Some Recovery) s' /\ rotations (rootfs_slot_reg s') = 1.
Proof. eexists. split; vm_compute; reflexivity. Qed.

(** Two changes, and the power goes in the first write of the second one. *)
Definition cold : cboot := Cboot 0 0 None None SMD_INVALID (sealed two_slots) (sealed two_slots) 0.
Definition two_changes : list (list Z -> list Z) := [set_u8 (slot_info 0 retry_count) 3; set_u8 (slot_info 0 retry_count) 4].

Lemma two_changes_usable : Forall (fun f => forall b, usable b -> usable (f b)) two_changes.
Proof. apply Forall_cons. split; [|apply Forall_singleton]; intros b; apply usable_set_u8; unfold slot_info; lia. Qed.
Lemma cold_load : exists s0, tegrabl_a_b_get_smd (sto := power_fails_at 13) cold = Done 0 s0.
Proof. eexists. vm_compute. reflexivity. Qed.

Lemma smd_survives_power_loss_witness : exists s', session (sto := power_fails_at 13) two_changes cold = Done None s' /\
  verifies (part_smd_b s') = false /\ exists t, boots_with s' = Some t.
Proof.
  destruct (smd_survives_power_loss (sto := power_fails_at 13) cold two_changes) as (o & s' & H & Hs);
    [reflexivity|split; vm_compute; reflexivity|exact two_changes_usable|].
  destruct cold_load as (s0 & E). rewrite E in Hs. cbn [Z.eqb] in Hs. destruct Hs as (b & _ & (t & Ht & _) & _).
  assert (Hv : match session (sto := power_fails_at 13) two_changes cold with Done o s1 => (o, verifies (part_smd_b s1)) | Crash _ => (Some 0, true) end =
    (None, false)) by (vm_compute; reflexivity).
  rewrite H in Hv. injection Hv as -> Hv. exists s'. split; [exact H|]. split; [exact Hv|]. by exists t.
Defined.

Lemma active_slot_boots_next_witness : exists s', tegrabl_a_b_set_active_slot 1 (running_from 0 1 two_slots) = Done 0 s' /\ boot_chain_get_bootslot_from_smd s' = Done (inr 1) s'.
Proof.
  destruct (active_slot_boots_next (running_from 0 1 two_slots) two_slots 1) as (s' & b' & H & N & _);
    [reflexivity|apply two_slots_table|by vm_compute|by vm_compute|by right|]. by exists s'.
Defined.

(** The second boot of slot A in a row: slot B is next. *)
Lemma failed_boots_rotate_witness : exists s1 s2, check_user_redundancy_status (boot_slot_reg (running_from 0 1 two_slots)) (running_from 0 1 two_slots) = Done 0 s1 /\
  tegrabl_a_b_copy_retry_count (boot_slot_reg s1) FROM_REG_TO_SMD s1 = Done (boot_slot_reg s1) s2 /\ boot_chain_get_bootslot_from_smd s2 = Done (inr 1) s2.
Proof.
  destruct (failed_boots_rotate (sto := power_fails_at 0) (running_from 0 1 two_slots) two_slots 0) as (s1 & s2 & b2 & H1 & H2 & _ & _ & (H3 & _) & _);
    [reflexivity|apply two_slots_table|by vm_compute|by vm_compute|split; [by vm_compute|left; split; [done|by vm_compute]]|by vm_compute|by vm_compute|].
  exists s1, s2. split; [exact H1|]. split; [exact H2|]. exact H3.
Defined.

End SlotMetaSpec.
